(* ===== verification/_CoqProject ===== *)
-Q . S2P
Prelude.v
SeqNum.v
Rtt.v
SegmentQueue.v
ByteBuffers.v
TcpReceive.v
Addr.v
Checksum.v
Windows.v
Scoreboard.v
Float64.v
FloatBounds.v
DeliveryRate.v
Congestion.v
LossBased.v
ReceiveWindow.v
Recovery.v
LossBasedLaws.v
HeaderOptions.v
IpPacket.v
IpRoundTrip.v
TcpOptions.v
Fragment.v
FragmentTable.v
Ingress.v
SipHash.v
SynCookie.v
Established.v
LossRecovery.v
AckProcessing.v
EstablishedLaws.v
AckInvariant.v
AckLaws.v
Network.v
NetworkLaws.v
NetworkConfig.v
NetworkInvariant.v
Multicast.v
MulticastReport.v
MulticastLaws.v
MulticastDispatch.v
MulticastPack.v
MulticastConverge.v
