(* ===== verification/Prelude.v ===== *)
(** * mipstack: a verification library for the mihomo userspace IP stack

    mipstack turns complete IPv4 and IPv6 packets from an L3 link into TCP, UDP
    and raw IP sockets.  This library models the parts of it that carry protocol
    logic, as executable functions on explicit state translated from the Go
    source, and proves what makes them correct.  This file holds what the parts
    share: machine integers, time, slices, loops, sorting, searching, record
    update, the tactics and the hint databases.

    ** The program and the files that model it

    A packet enters at [Stack.Write], is parsed ([packet.go]), reassembled when
    it is a fragment ([fragment.go]) and handed to a protocol.  TCP runs one
    actor per connection ([tcp.go]), which owns the state of the connection and
    talks to a congestion controller through an adapter ([congestion.go]).
    Output asks the configuration ([config.go]) for a route and a source address.
    Multicast ([multicast.go]) keeps the sockets' filters, decides deliveries
    with them, and reports them to the routers.

    Packets.
    - [Addr.v]: Go's [netip] addresses.  [Checksum.v]: the checksums of
      [packet.go].
    - [IpPacket.v], [IpRoundTrip.v]: the public IP codec of [packet.go].
    - [Ingress.v]: the validation of received packets, [parseIPPacket] of
      [packet.go] and [parseFragment] of [fragment.go].
    - [Fragment.v]: planning fragments and reassembling one datagram
      ([ipPacketReassemblyState]).  [FragmentTable.v]: the stack's table of
      incomplete datagrams.

    A TCP connection ([tcp.go]).
    - [SeqNum.v]: serial arithmetic and admission of segments.
      [HeaderOptions.v]: the public option codec.  [TcpOptions.v]: the option
      areas a connection writes and parses.
    - [SegmentQueue.v], [ByteBuffers.v], [TcpReceive.v], [ReceiveWindow.v]: the
      inbound queue, the two byte deques, reassembly of the stream, and the
      advertised window.
    - [Scoreboard.v], [Rtt.v], [Windows.v], [Recovery.v]: the records of
      outstanding ranges, retransmission timeouts, window arithmetic with the
      path MTU search, and the undo of spurious recoveries.
    - [Established.v]: the state [tcpEstablishedState] and its operations;
      [LossRecovery.v]: entering recovery and changing the path MTU;
      [AckProcessing.v]: [processAcknowledgment], in stages from top to bottom.
      [EstablishedLaws.v], [AckInvariant.v] and [AckLaws.v] hold their theorems.
    - [SipHash.v], [SynCookie.v]: [siphash.go] and [syn_cookie.go].

    Congestion control.
    - [Float64.v]: Go's [float64].  [FloatBounds.v]: integer bounds of rounded
      arithmetic.  [DeliveryRate.v]: [congestion_rate.go].
    - [Congestion.v]: the event contract of [congestion_api.go] as the class
      [CongestionController], the registry, HyStart++ and every method of the
      adapter.
    - [LossBased.v]: Reno ([congestion_reno.go]) and CUBIC
      ([congestion_cubic.go]) as instances of that class.  [LossBasedLaws.v]: the
      classes [LossBased] and [Undoable] that state what the adapter may rely on,
      their instances for both controllers, and what the adapter does with them.

    Configuration and multicast.
    - [Network.v], [NetworkLaws.v]: the snapshot of [config.go], routes and
      source selection.  [NetworkConfig.v], [NetworkInvariant.v]: building it.
    - [Multicast.v], [MulticastReport.v]: memberships, and the protocol that
      reports them.  [MulticastLaws.v], [MulticastDispatch.v],
      [MulticastPack.v], [MulticastConverge.v]: their theorems.

    A Go struct is a record with the same fields, prefixed; a method is a
    function of that record with the source's name; an enumeration keeps its
    constants.  Each operation is the whole method, its early returns in order.
    An operation that writes several objects returns all of them.

    ** What the theorems show

    - The bytes an application reads are a prefix of the sender's stream for any
      reordering, duplication and overlap, and no hole that is filled stays
      (C1, C37); the queue and both deques are the lists they stand for (C6 to
      C8).
    - Marking by SACK, the loss verdicts, and the whole of ACK processing keep
      the scoreboard an exact account of the unacknowledged bytes (C2, C3, C9,
      C10, C38, C39).
    - TIME-WAIT, zero-window probing, the advertised window, timeouts and the
      path MTU search have the bounds and endings the protocols ask for (C11 to
      C13, C32, C40).
    - Reno and CUBIC under the adapter refine an abstract sender with the exact
      decreases of RFC 5681 and RFC 9438, slow start, and Reno's additive growth;
      spurious recoveries are detected exactly as the records allow and undone
      (C14, C33 to C36).
    - The packet, option and cookie codecs return what was put in, the checksums
      are RFC 1071's, and the parsers are total on arbitrary bytes (C24 to C31).
    - Fragmentation composed with reassembly is the identity in any order of
      arrival, and the fragment table refines a bounded map (C4, C5, C23).
    - An accepted configuration satisfies the invariant of the snapshot, and
      routes and sources are those of longest-prefix matching and RFC 6724 (C17
      to C20).
    - Multicast delivery follows the table of memberships in every reachable
      state, and a querier that receives the packed reports learns the merged
      filters, among queriers of the current version and while the lists fit the
      link (C15, C16, C21, C22).

    ** Conventions and bounds

    - Unsigned integers are [Z] with the wrap-around written out; [int] and
      [time.Duration] are 64 bits wide and modelled as [Z].  Where the width
      could matter, the theorem has the bound as a hypothesis or the definition
      wraps explicitly.
    - A panic is [None].  A loop is structural recursion or [loop] below, with
      fuel one or two above a quantity that each round decreases: the bytes or
      pieces left, the entries of a table, the chunks of a buffer.  Running out
      of fuel is [None] as well, so the theorems of totality exclude both.
      [foldLoop] has eight rounds for the carries of a 64-bit sum; two more
      rounds change nothing.
    - Time is nanoseconds in [Z]; the zero [time.Time] is 0, so a deadline of 0
      is one that is not set.  An operation that reads the clock takes the
      reading as an argument; several readings within one call are one.
    - A Go map visited in arbitrary order takes the order as an argument, and
      the theorems hold for every order that visits each key once.
    - [float64] is binary64 of the Standard Library's [SpecFloat]; each operation
      rounds, so fused multiply-add, which Go permits on some targets, is outside
      the model.  A conversion out of range to an integer, which Go leaves to the
      implementation, is the argument [outside], and [math.Cbrt] an argument too.
    - The random source, the byte order of the target, the growth of slices by
      the runtime and the configured defaults are arguments.
    - A lock makes each operation under it atomic: an interleaving is a list of
      operations.  Aliasing matters for published multicast filters, which are
      never written after publication, and for payload views, which are slices
      of chunks that do not change.

    ** What is not modelled

    - The actor loop [established], handshakes, listeners, dialling and the
      methods of [net.Conn]: goroutines, channels, timers and blocking.  The
      operations they call are modelled; their composition by the scheduler is
      not.
    - BBR ([congestion_bbr.go]) and BBRv3 ([congestion_bbr3.go]): instances of
      the same interface; the adapter's own definitions hold for them, the laws
      of [LossBasedLaws.v] do not.
    - UDP and raw sockets ([udp.go], [ip.go]), ICMP ([icmp.go]), the forwarder,
      control messages, socket options, port reuse, and the stack's queues,
      scheduler, caches and port allocation ([stack.go]): socket plumbing around
      shared tables.  The constants and helpers of them that other parts use are
      in the files of those parts.
    - Statistics counters, except where the code reads them back. *)

From Stdlib Require Export ZArith Lia Bool.
From stdpp Require Export sorting base tactics list numbers option.

#[global] Open Scope Z_scope.

(** ** Notations *)

Declare Scope mips_scope.
Delimit Scope mips_scope with mips.
#[global] Open Scope mips_scope.

(** ** Machine integers

    Unsigned Go integers are [Z] values kept in range by an explicit
    wrap-around; [int] and [time.Duration] are 64-bit and modelled as [Z]. *)

Definition u8 (x : Z) : Z := x mod 256.
Definition u16 (x : Z) : Z := x mod 65536.
Definition u32 (x : Z) : Z := x mod 4294967296.
Definition u64 (x : Z) : Z := x mod 18446744073709551616.

(** The conversion [int32(x)] of a [uint32]. *)
Definition s32 (x : Z) : Z :=
  let y := u32 x in if y <? 2147483648 then y else y - 4294967296.

Definition is_u8 (x : Z) : Prop := 0 <= x < 256.
Definition is_u16 (x : Z) : Prop := 0 <= x < 65536.
Definition is_u32 (x : Z) : Prop := 0 <= x < 4294967296.
Definition is_u64 (x : Z) : Prop := 0 <= x < 18446744073709551616.

Notation "a ⊞ b" := (u32 (a + b)) (at level 50, left associativity) : mips_scope.
Notation "a ⊟ b" := (u32 (a - b)) (at level 50, left associativity) : mips_scope.

(** [x | y], [x & y] and [x &^ y] of Go. *)
Notation "a .| b" := (Z.lor a b) (at level 50, left associativity) : mips_scope.
Notation "a .& b" := (Z.land a b) (at level 40, left associativity) : mips_scope.
Notation "a .&^ b" := (Z.ldiff a b) (at level 40, left associativity) : mips_scope.

(** Rounding up to a multiple of four, [(n + 3) &^ 3] *)
Definition align4 (n : Z) : Z := Z.ldiff (n + 3) 3.

(** ** Time

    [time.Duration] is a count of nanoseconds.  A [time.Time] is a count of
    nanoseconds since the zero time, so [IsZero] is a comparison with 0 and
    [Before]/[After] are the order of [Z].  [Sub] saturates like Go's. *)

Definition nanosecond : Z := 1.
Definition microsecond : Z := 1000.
Definition millisecond : Z := 1000000.
Definition second : Z := 1000000000.
Definition minute : Z := 60000000000.
Definition maxDuration : Z := 9223372036854775807.
Definition minDuration : Z := -9223372036854775808.

Definition timeSub (a b : Z) : Z :=
  let d := a - b in
  if d <? minDuration then minDuration
  else if maxDuration <? d then maxDuration else d.

(** ** Slices

    A byte slice is the list of its bytes.  Reading or slicing out of range
    panics in Go; a computation that may panic returns [option], with [None]
    for the panic. *)

Definition zlen {A} (l : list A) : Z := Z.of_nat (length l).

Definition idx {A} (l : list A) (i : Z) : option A :=
  if 0 <=? i then l !! Z.to_nat i else None.

Definition slice {A} (l : list A) (a b : Z) : option (list A) :=
  if (0 <=? a) && (a <=? b) && (b <=? zlen l)
  then Some (take (Z.to_nat (b - a)) (drop (Z.to_nat a) l)) else None.

Definition bytes_ok (l : list Z) : Prop := Forall is_u8 l.

(** [copy(dst[o:], src)] for a destination that is long enough, and the
    single-byte store. *)
Definition splice {A} (dst : list A) (o : Z) (src : list A) : option (list A) :=
  if (0 <=? o) && (o + zlen src <=? zlen dst)
  then Some (take (Z.to_nat o) dst ++ src
             ++ drop (Z.to_nat o + length src) dst) else None.

Definition store {A} (dst : list A) (o : Z) (v : A) : option (list A) :=
  splice dst o [v].

(** Big-endian numbers ([encoding/binary.BigEndian]). *)
Definition be_val (l : list Z) : Z := fold_left (fun a b => a * 256 + b) l 0.

Fixpoint be_bytes (n : nat) (v : Z) : list Z :=
  match n with
  | O => []
  | S n => be_bytes n (v / 256) ++ [v mod 256]
  end.

Definition be16 (l : list Z) (o : Z) : option Z := be_val <$> slice l o (o + 2).
Definition be32 (l : list Z) (o : Z) : option Z := be_val <$> slice l o (o + 4).

(** Little-endian numbers ([encoding/binary.LittleEndian]). *)
Fixpoint le_val (l : list Z) : Z :=
  match l with [] => 0 | b :: l => b + 256 * le_val l end.

(** The capacity of a slice after [append] of one element; [grow n] is the
    capacity the runtime chooses when it needs room for [n] elements. *)
Definition appendCap (grow : Z -> Z) (length cap : Z) : Z :=
  if length <? cap then cap else grow (length + 1).

(** ** Loops

    A Go [for] loop whose body returns either the next loop state or the
    value at which the loop is left.  Running out of fuel is [None], like a
    panic: a totality theorem excludes both. *)

Fixpoint loop {S R} (fuel : nat) (body : S -> option (S + R)) (s : S) : option R :=
  match fuel with
  | O => None
  | Datatypes.S fuel =>
      r ← body s;
      match r with
      | inl s' => loop fuel body s'
      | inr v => Some v
      end
  end.

(** ** Sorting

    [sort.SliceStable], and one of the permitted results of [sort.Slice]: a
    stable insertion sort for the strict order [before]. *)

Fixpoint insertBy {A} (before : A -> A -> bool) (x : A) (l : list A) : list A :=
  match l with
  | [] => [x]
  | y :: l' => if before y x then y :: insertBy before x l' else x :: l
  end.

Definition sortBy {A} (before : A -> A -> bool) (l : list A) : list A :=
  foldr (insertBy before) [] l.

(** ** Searching

    [sort.Search]: the loop of the library, for a predicate that may panic. *)

Definition searchBody (f : Z -> option bool) (s : Z * Z) : option (Z * Z + Z) :=
  let '(i, j) := s in
  if i <? j then
    let h := (i + j) / 2 in
    b ← f h;
    Some (inl (if (b : bool) then (i, h) else (h + 1, j)))
  else Some (inr i).

Definition goSearch (n : Z) (f : Z -> option bool) : option Z :=
  loop (S (Z.to_nat n)) (searchBody f) (0, n).

(** ** Results

    A Go function that returns an error and may panic has an [outcome]; only
    the error values the modelled code distinguishes are listed. *)

Inductive errno :=
| EINVAL | EMSGSIZE | EPROTONOSUPPORT | EAFNOSUPPORT | ENETUNREACH | EADDRNOTAVAIL | EADDRINUSE | EACCES | ErrResourceLimit.

Inductive outcome (A : Type) :=
| Ret (a : A)
| Fail (e : errno)
| Panic.
Arguments Ret {A} a.
Arguments Fail {A} e.
Arguments Panic {A}.

#[global] Instance outcome_ret : MRet outcome := @Ret.
#[global] Instance outcome_bind : MBind outcome := fun A B f m =>
  match m with Ret a => f a | Fail e => Fail e | Panic => Panic end.

(** A step that panics instead of returning nothing. *)
Definition need {A} (o : option A) : outcome A :=
  match o with Some a => Ret a | None => Panic end.

(** ** Record update

    [r <| f := v |>] replaces the field [f] of [r]. A record type registers its
    constructor applied to its own projections, and the setters follow. *)

Class Settable (R : Type) := eta_fields : R -> R.
Class Setter {R T : Type} (field : R -> T) := set_field : T -> R -> R.

Ltac head_of t := lazymatch t with ?f _ => head_of f | _ => t end.

Ltac solve_setter :=
  lazymatch goal with
  | |- @Setter ?R ?T ?field =>
      let inst := constr:(_ : Settable R) in
      let inst := eval cbv beta in inst in
      let h := head_of inst in
      let body := eval cbv beta delta [h] in inst in
      exact (fun (v : T) (r : R) => ltac:(
        let b := eval cbv beta in (body r) in
        lazymatch b with context C [field r] => let b' := context C [v] in exact b' end))
  end.

#[export] Hint Extern 1 (Setter _) => solve_setter : typeclass_instances.

Notation "r '<|' f ':=' v '|>'" := (set_field (field := f) v r)
  (at level 12, left associativity, format "r  <| f  :=  v |>") : mips_scope.

(** ** Tactics *)

(** [lia] after turning [/], [mod], [quot] and [rem] into equations. *)
Ltac zlia := Z.to_euclidean_division_equations; lia.

(** The same after unfolding the word operations. *)
Ltac word := unfold is_u8, is_u16, is_u32, is_u64, u8, u16, u32, u64 in *; zlia.

(** Case analysis on every boolean comparison and [match] of the goal. *)
Ltac split_ifs :=
  repeat match goal with
  | |- context [if ?b then _ else _] =>
      lazymatch b with
      | context [if _ then _ else _] => fail
      | _ => destruct b eqn:?
      end
  end.

Ltac split_ifs_in H :=
  repeat match type of H with
  | context [if ?b then _ else _] => destruct b eqn:?
  end.

(** Inversion of the binds of a computation known to return. *)
Ltac inv_bind H :=
  repeat match type of H with
  | (mbind _ ?m) = Some _ =>
      let E := fresh "E" in destruct m eqn:E; simpl in H; [|discriminate H]
  end.

Create HintDb mips.
Create Rewrite HintDb words.
Create Rewrite HintDb zlen.

(** ** Words *)

Lemma u32_range x : is_u32 (u32 x).
Proof. word. Qed.

Lemma u16_range x : is_u16 (u16 x).
Proof. word. Qed.

Lemma u8_range x : is_u8 (u8 x).
Proof. word. Qed.

Lemma u64_range x : is_u64 (u64 x).
Proof. word. Qed.

Lemma u32_id x : is_u32 x -> u32 x = x.
Proof. word. Qed.

Lemma u32_idem x : u32 (u32 x) = u32 x.
Proof. word. Qed.

Lemma u64_small x : 0 <= x < 18446744073709551616 -> u64 x = x.
Proof. apply Z.mod_small. Qed.

Lemma u32_sub_add a b : u32 (u32 (a - b) + b) = u32 a.
Proof. word. Qed.

Lemma u32_add_l a b : u32 (u32 a + b) = u32 (a + b).
Proof. apply Zplus_mod_idemp_l. Qed.

Lemma u32_add_r a b : u32 (a + u32 b) = u32 (a + b).
Proof. apply Zplus_mod_idemp_r. Qed.

Lemma s32_negative x : (s32 x <? 0) = (2147483648 <=? u32 x).
Proof. unfold s32. pose proof (u32_range x) as []. split_ifs; lia. Qed.

(** Disjoint bit fields: the upper part shifted over the lower one. *)
Lemma land_shiftl_low a b n : 0 <= n -> 0 <= b < 2 ^ n -> Z.land (Z.shiftl a n) b = 0.
Proof.
  intros Hn Hb. apply Z.bits_inj'. intros k Hk. rewrite Z.land_spec, Z.testbit_0_l.
  destruct (Z.ltb_spec k n) as [Hlt|Hge].
  - by rewrite Z.shiftl_spec_low.
  - rewrite <- (Z.mod_small b (2 ^ n)) by done.
    by rewrite Z.mod_pow2_bits_high, andb_false_r by lia.
Qed.

Lemma lor_shiftl_add a b n : 0 <= n -> 0 <= b < 2 ^ n -> Z.lor (Z.shiftl a n) b = a * 2 ^ n + b.
Proof.
  intros Hn Hb. pose proof (Z.add_lor_land (Z.shiftl a n) b) as H.
  rewrite (land_shiftl_low a b n Hn Hb) in H. rewrite Z.shiftl_mul_pow2 in * by done. lia.
Qed.

Lemma lor_add a b : Z.land a b = 0 -> Z.lor a b = a + b.
Proof. intros H. pose proof (Z.add_lor_land a b). lia. Qed.

(** A single bit, and the test of a one-bit mask. *)
Lemma land_pow2 x k : 0 <= k -> Z.land x (2 ^ k) = 2 ^ k * ((x / 2 ^ k) mod 2).
Proof.
  intros Hk. rewrite <- Z.testbit_spec' by done. apply Z.bits_inj'. intros n Hn.
  rewrite Z.land_spec, Z.pow2_bits_eqb by done. destruct (Z.testbit x k) eqn:E; cbn [Z.b2z].
  - rewrite Z.mul_1_r, Z.pow2_bits_eqb by done. destruct (k =? n) eqn:En; [|apply andb_false_r].
    apply Z.eqb_eq in En. subst n. by rewrite E.
  - rewrite Z.mul_0_r, Z.testbit_0_l. destruct (k =? n) eqn:En; [|apply andb_false_r].
    apply Z.eqb_eq in En. subst n. by rewrite E.
Qed.

Lemma land_low x k : 0 <= k -> Z.land x (2 ^ k - 1) = x mod 2 ^ k.
Proof. intros Hk. rewrite <- Z.land_ones by done. f_equal. rewrite Z.ones_equiv. lia. Qed.

Lemma ldiff_low x k : 0 <= k -> Z.ldiff x (2 ^ k - 1) = x - x mod 2 ^ k.
Proof.
  intros Hk. replace (2 ^ k - 1) with (Z.ones k) by (rewrite Z.ones_equiv; lia).
  rewrite Z.ldiff_ones_r, Z.shiftr_div_pow2, Z.shiftl_mul_pow2 by done.
  pose proof (Z.div_mod x (2 ^ k)). lia.
Qed.

Lemma lor_bound a b k : 0 <= k -> 0 <= a < 2 ^ k -> 0 <= b < 2 ^ k -> 0 <= Z.lor a b < 2 ^ k.
Proof.
  intros Hk Ha Hb.
  assert (Z.lor a b = Z.lor a b mod 2 ^ k) as ->; [|apply Z.mod_pos_bound; lia].
  rewrite <- Z.land_ones, Z.land_lor_distr_l, !Z.land_ones by done. by rewrite !Z.mod_small.
Qed.

(** Rewrites a low mask, the test of one bit or the clearing of low bits into
    arithmetic; the masks in the goal are literals. *)
Ltac mask_with lemma x k :=
  let H := fresh "Hmask" in
  pose proof (lemma x k ltac:(lia)) as H;
  let m := eval vm_compute in (2 ^ k - 1) in change (2 ^ k - 1) with m in H;
  let p := eval vm_compute in (2 ^ k) in change (2 ^ k) with p in H;
  rewrite H; clear H.
Ltac mask_low x k := mask_with land_low x k.
Ltac mask_bit x k := mask_with land_pow2 x k.
Ltac mask_clear x k := mask_with ldiff_low x k.

Lemma align4_spec n : 0 <= n -> n <= align4 n < n + 4 /\ align4 n mod 4 = 0.
Proof. intros. unfold align4. mask_clear (n + 3) 2. zlia. Qed.

#[export] Hint Resolve u32_range u16_range u8_range u64_range : mips.
#[export] Hint Rewrite u32_idem u32_add_l u32_add_r : words.

(** ** Lists *)

Lemma zlen_nil {A} : zlen (@nil A) = 0.
Proof. reflexivity. Qed.

Lemma zlen_cons {A} (x : A) l : zlen (x :: l) = 1 + zlen l.
Proof. unfold zlen. simpl. lia. Qed.

Lemma zlen_app {A} (l k : list A) : zlen (l ++ k) = zlen l + zlen k.
Proof. unfold zlen. rewrite length_app. lia. Qed.

Lemma zlen_nonneg {A} (l : list A) : 0 <= zlen l.
Proof. unfold zlen. lia. Qed.

Lemma zlen_take {A} (l : list A) n : zlen (take n l) = Z.min (Z.of_nat n) (zlen l).
Proof. unfold zlen. rewrite length_take. lia. Qed.

Lemma zlen_drop {A} (l : list A) n : zlen (drop n l) = Z.max 0 (zlen l - Z.of_nat n).
Proof. unfold zlen. rewrite length_drop. lia. Qed.

Lemma zlen_zero {A} (l : list A) : zlen l = 0 -> l = [].
Proof. destruct l; [done|]. rewrite zlen_cons. pose proof (zlen_nonneg l). lia. Qed.

#[export] Hint Rewrite @zlen_nil @zlen_cons @zlen_app @zlen_take @zlen_drop : zlen.

(** [lia] over lengths of lists. *)
Ltac len_facts :=
  repeat match goal with
  | |- context [zlen ?l] =>
      lazymatch goal with H : 0 <= zlen l |- _ => fail | _ => pose proof (zlen_nonneg l) end
  | H : context [zlen ?l] |- _ =>
      lazymatch goal with H : 0 <= zlen l |- _ => fail | _ => pose proof (zlen_nonneg l) end
  end.
Ltac len := autorewrite with zlen in *; len_facts; try lia.

Lemma idx_some {A} (l : list A) i : 0 <= i < zlen l -> exists x, idx l i = Some x.
Proof.
  unfold idx, zlen. intros H. destruct (0 <=? i) eqn:E; [|lia].
  apply lookup_lt_is_Some_2. lia.
Qed.

Lemma idx_split {A} (l : list A) i : 0 <= i < zlen l ->
  exists x, idx l i = Some x /\ drop (Z.to_nat i) l = x :: drop (Z.to_nat (i + 1)) l.
Proof.
  intros Hi. destruct (idx_some l i Hi) as [x Hx]. exists x. split; [done|].
  unfold idx in Hx. destruct (0 <=? i) eqn:E; [|lia].
  rewrite (drop_S _ x) by done. do 2 f_equal. lia.
Qed.

Lemma idx_lookup {A} (l : list A) i : 0 <= i -> idx l i = l !! Z.to_nat i.
Proof. intros H. unfold idx. by destruct (Z.leb_spec 0 i); [|lia]. Qed.

Lemma idx_range {A} (l : list A) i x : idx l i = Some x -> 0 <= i < zlen l.
Proof.
  unfold idx, zlen. destruct (0 <=? i) eqn:E; [|done]. intros H.
  apply lookup_lt_Some in H. lia.
Qed.

Lemma idx_u8 l i x : bytes_ok l -> idx l i = Some x -> is_u8 x.
Proof.
  unfold idx. destruct (0 <=? i); [|done]. intros H E.
  by apply (Forall_lookup_1 _ _ _ _ H E).
Qed.

Lemma slice_some {A} (l : list A) a b :
  0 <= a -> a <= b -> b <= zlen l ->
  exists s, slice l a b = Some s /\ zlen s = b - a.
Proof.
  intros. unfold slice. destruct (_ && _) eqn:E; [|lia].
  eexists. split; [done|]. len.
Qed.

Lemma slice_inv {A} (l s : list A) a b :
  slice l a b = Some s ->
  0 <= a /\ a <= b /\ b <= zlen l /\ zlen s = b - a
  /\ s = take (Z.to_nat (b - a)) (drop (Z.to_nat a) l).
Proof.
  unfold slice. destruct (_ && _) eqn:E; [|done]. intros [= <-].
  repeat split; try lia. len.
Qed.

Lemma slice_eq {A} (l : list A) a b :
  0 <= a -> a <= b -> b <= zlen l ->
  slice l a b = Some (take (Z.to_nat (b - a)) (drop (Z.to_nat a) l)).
Proof. intros. unfold slice. destruct (_ && _) eqn:E; [done|lia]. Qed.

Lemma slice_full {A} (l : list A) : slice l 0 (zlen l) = Some l.
Proof.
  rewrite slice_eq by len. change (Z.to_nat 0) with 0%nat.
  rewrite drop_0, take_ge; [done|]. unfold zlen. lia.
Qed.

Lemma slice_app_l {A} (l k : list A) : slice (l ++ k) 0 (zlen l) = Some l.
Proof.
  rewrite slice_eq by len. change (Z.to_nat 0) with 0%nat.
  rewrite drop_0, take_app_length'; [done|]. unfold zlen. lia.
Qed.

Lemma slice_app_r {A} (l k : list A) : slice (l ++ k) (zlen l) (zlen l + zlen k) = Some k.
Proof.
  rewrite slice_eq by len. f_equal.
  replace (Z.to_nat (zlen l)) with (length l) by (unfold zlen; lia).
  rewrite drop_app_length. apply take_ge. unfold zlen. lia.
Qed.

Lemma bytes_check l : forallb (fun x => (0 <=? x) && (x <? 256)) l = true -> bytes_ok l.
Proof.
  intros H. apply List.Forall_forall. intros x Hx. rewrite forallb_forall in H.
  specialize (H x Hx). unfold is_u8. lia.
Qed.

Lemma bytes_ok_app l k : bytes_ok (l ++ k) <-> bytes_ok l /\ bytes_ok k.
Proof. apply Forall_app. Qed.

Lemma bytes_ok_take n l : bytes_ok l -> bytes_ok (take n l).
Proof. apply Forall_take. Qed.

Lemma bytes_ok_drop n l : bytes_ok l -> bytes_ok (drop n l).
Proof. apply Forall_drop. Qed.

Lemma slice_bytes_ok l a b s : bytes_ok l -> slice l a b = Some s -> bytes_ok s.
Proof.
  intros H E. apply slice_inv in E as (_ & _ & _ & _ & ->).
  by apply bytes_ok_take, bytes_ok_drop.
Qed.

Lemma idx_cons_S {A} (x : A) l i : 0 < i -> idx (x :: l) i = idx l (i - 1).
Proof.
  intros. unfold idx. destruct (0 <=? i) eqn:?, (0 <=? i - 1) eqn:?; try lia.
  replace (Z.to_nat i) with (S (Z.to_nat (i - 1))) by lia. done.
Qed.

Lemma idx_app_l {A} (l k : list A) i : i < zlen l -> idx (l ++ k) i = idx l i.
Proof.
  intros. unfold idx, zlen in *. destruct (0 <=? i) eqn:?; [|done].
  apply lookup_app_l. lia.
Qed.

Lemma idx_app_r {A} (l k : list A) i : zlen l <= i -> idx (l ++ k) i = idx k (i - zlen l).
Proof.
  intros. unfold idx, zlen in *. destruct (0 <=? i) eqn:?; [|lia].
  destruct (0 <=? i - Z.of_nat (length l)) eqn:?; [|lia].
  rewrite lookup_app_r by lia. f_equal. lia.
Qed.

Lemma idx_at {A} (pre l : list A) x : idx (pre ++ x :: l) (zlen pre) = Some x.
Proof. rewrite idx_app_r by lia. by rewrite Z.sub_diag. Qed.

Lemma idx_at1 {A} (pre l : list A) x y : idx (pre ++ x :: y :: l) (zlen pre + 1) = Some y.
Proof.
  rewrite idx_app_r by lia. replace (zlen pre + 1 - zlen pre) with 1 by lia.
  by rewrite idx_cons_S by lia.
Qed.

Lemma slice_tail {A} (pre l : list A) : slice (pre ++ l) (zlen pre) (zlen (pre ++ l)) = Some l.
Proof. rewrite zlen_app. apply slice_app_r. Qed.

Lemma slice_mid {A} (pre x l : list A) :
  slice (pre ++ x ++ l) (zlen pre) (zlen pre + zlen x) = Some x.
Proof.
  rewrite slice_eq by len. f_equal. rewrite drop_app_length' by (unfold zlen; lia).
  apply take_app_length'. unfold zlen. lia.
Qed.

#[export] Hint Resolve bytes_ok_take bytes_ok_drop slice_bytes_ok idx_u8 : mips.

(** What [splice] writes and what it leaves. *)
Lemma splice_some {A} (l src : list A) o :
  0 <= o -> o + zlen src <= zlen l -> exists l', splice l o src = Some l' /\ zlen l' = zlen l.
Proof.
  intros. unfold splice. replace (_ && _) with true by lia. eexists. split; [done|].
  autorewrite with zlen. unfold zlen in *. lia.
Qed.

Lemma splice_app_l {A} (l d src : list A) o l' :
  splice l o src = Some l' -> splice (l ++ d) o src = Some (l' ++ d).
Proof.
  unfold splice. destruct (_ && _) eqn:E; [|done]. intros [= <-]. pose proof (zlen_nonneg d).
  rewrite zlen_app. replace (_ && _) with true by lia.
  assert (Z.to_nat o + length src <= length l)%nat as Hl by (clear H; unfold zlen in E; lia).
  rewrite take_app_le, drop_app_le by lia. by rewrite <- !app_assoc.
Qed.

Lemma splice_bytes (l src l' : list Z) o :
  splice l o src = Some l' -> bytes_ok l -> bytes_ok src -> bytes_ok l'.
Proof.
  unfold splice. destruct (_ && _); [|done]. intros [= <-] Hl Hs. rewrite !bytes_ok_app.
  split_and!; [by apply bytes_ok_take|done|by apply bytes_ok_drop].
Qed.

Lemma splice_idx {A} (l src l' : list A) o :
  splice l o src = Some l' ->
  0 <= o /\ o + zlen src <= zlen l /\ zlen l' = zlen l /\
  (forall i, o <= i < o + zlen src -> idx l' i = idx src (i - o)) /\
  (forall i, i < o \/ o + zlen src <= i -> idx l' i = idx l i).
Proof.
  unfold splice. destruct (_ && _) eqn:E; [|done]. intros [= <-]. pose proof (zlen_nonneg src).
  assert (zlen (take (Z.to_nat o) l) = o) as Et by (rewrite zlen_take; unfold zlen in *; lia).
  split_and!; [lia|lia| | |].
  - rewrite !zlen_app, Et, zlen_drop. unfold zlen in *. lia.
  - intros i Hi. rewrite idx_app_r, Et by lia. by rewrite idx_app_l by lia.
  - intros i Hi. destruct (Z.lt_ge_cases i o).
    + rewrite idx_app_l by lia. destruct (Z.lt_ge_cases i 0); [unfold idx; by replace (0 <=? i) with false by lia|].
      rewrite !idx_lookup, lookup_take_lt by lia. done.
    + rewrite idx_app_r, Et, idx_app_r, !idx_lookup, lookup_drop by lia. f_equal. unfold zlen in *. lia.
Qed.

(** ** Big-endian numbers *)

Lemma be_val_snoc l b : be_val (l ++ [b]) = be_val l * 256 + b.
Proof. unfold be_val. by rewrite fold_left_app. Qed.

Lemma be_val_cons b l : be_val (b :: l) = b * 256 ^ zlen l + be_val l.
Proof.
  induction l as [|x l IH] using rev_ind.
  - unfold be_val, zlen. simpl. lia.
  - rewrite app_comm_cons, !be_val_snoc, IH. len.
    rewrite Z.pow_add_r by len. simpl. lia.
Qed.

Lemma be_val_app l m : be_val (l ++ m) = be_val l * 256 ^ zlen m + be_val m.
Proof.
  induction l as [|x l IH]; [done|]. simpl. rewrite !be_val_cons, IH, zlen_app, Z.pow_add_r by apply zlen_nonneg. lia.
Qed.

Lemma be_val_bound l : bytes_ok l -> 0 <= be_val l < 256 ^ zlen l.
Proof.
  intros H. induction H as [|b l Hb _ IH]; [by compute|].
  rewrite be_val_cons, zlen_cons, Z.pow_add_r by len.
  unfold is_u8 in Hb. nia.
Qed.

Lemma length_be_bytes n v : length (be_bytes n v) = n.
Proof.
  revert v. induction n as [|n IH]; intros; [done|]. simpl.
  rewrite length_app, IH. simpl. lia.
Qed.

Lemma zlen_be_bytes n v : zlen (be_bytes n v) = Z.of_nat n.
Proof. unfold zlen. by rewrite length_be_bytes. Qed.
#[export] Hint Rewrite zlen_be_bytes : zlen.

Lemma be_bytes_ok n v : bytes_ok (be_bytes n v).
Proof.
  revert v. induction n as [|n IH]; intros; simpl; [constructor|].
  apply Forall_app. split; [apply IH|]. constructor; [|constructor]. word.
Qed.

Lemma be_val_be_bytes n v : be_val (be_bytes n v) = v mod 256 ^ Z.of_nat n.
Proof.
  revert v. induction n as [|n IH]; intros v.
  - simpl. by rewrite Z.mod_1_r.
  - cbn [be_bytes]. rewrite be_val_snoc, IH, Nat2Z.inj_succ, Z.pow_succ_r by lia.
    rewrite Z.rem_mul_r by lia. lia.
Qed.

Lemma be_bytes_be_val l : bytes_ok l -> be_bytes (length l) (be_val l) = l.
Proof.
  induction l as [|b l IH] using rev_ind; [done|].
  rewrite bytes_ok_app. intros [Hl Hb]. inversion_clear Hb as [|? ? Hb' _].
  rewrite length_app, Nat.add_comm. simpl. rewrite be_val_snoc.
  unfold is_u8 in *. replace ((be_val l * 256 + b) / 256) with (be_val l) by zlia.
  rewrite IH by done. f_equal. f_equal. zlia.
Qed.

#[export] Hint Resolve be_bytes_ok : mips.

Lemma be_bytes_at n pre rest v :
  0 <= v < 256 ^ Z.of_nat n ->
  be_val <$> slice (pre ++ be_bytes n v ++ rest) (zlen pre) (zlen pre + Z.of_nat n) = Some v.
Proof.
  intros Hv. pose proof (slice_mid pre (be_bytes n v) rest) as H. rewrite zlen_be_bytes in H.
  rewrite H. simpl. by rewrite be_val_be_bytes, Z.mod_small.
Qed.

Lemma be16_at pre rest v : is_u16 v -> be16 (pre ++ be_bytes 2 v ++ rest) (zlen pre) = Some v.
Proof. intros H. apply (be_bytes_at 2). unfold is_u16 in H. simpl. lia. Qed.

Lemma be32_at pre rest v : is_u32 v -> be32 (pre ++ be_bytes 4 v ++ rest) (zlen pre) = Some v.
Proof. intros H. apply (be_bytes_at 4). unfold is_u32 in H. simpl. lia. Qed.

Lemma be16_total l o : 0 <= o -> o + 2 <= zlen l -> exists v, be16 l o = Some v.
Proof.
  intros. unfold be16. destruct (slice_some l o (o + 2)) as (s & -> & _); [lia..|]. by eexists.
Qed.

Lemma be16_range l o v : bytes_ok l -> be16 l o = Some v -> is_u16 v.
Proof.
  unfold be16. intros Hb H. destruct (slice l o (o + 2)) as [w|] eqn:E; [|done].
  injection H as <-. apply slice_inv in E as (_ & _ & _ & Hl & Hw).
  pose proof (be_val_bound w) as B. replace (zlen w) with 2 in B by lia. apply B.
  subst w. auto with mips.
Qed.

Lemma be32_total l o : 0 <= o -> o + 4 <= zlen l -> exists v, be32 l o = Some v.
Proof.
  intros. unfold be32. destruct (slice_some l o (o + 4)) as (s & -> & _); [lia..|]. by eexists.
Qed.

Lemma be32_range l o v : bytes_ok l -> be32 l o = Some v -> is_u32 v.
Proof.
  unfold be32. intros Hb H. destruct (slice l o (o + 4)) as [w|] eqn:E; [|done].
  injection H as <-. pose proof (slice_bytes_ok _ _ _ _ Hb E) as Hw.
  apply slice_inv in E as (_ & _ & _ & Hl & _). pose proof (be_val_bound w Hw) as B.
  by replace (zlen w) with 4 in B by lia.
Qed.

(** ** Loops *)

(** A loop whose body keeps an invariant and decreases a measure leaves
    normally, with the postcondition of its exits. *)
Lemma loop_total {S R} (I : S -> Prop) (m : S -> nat) (Q : R -> Prop)
    (body : S -> option (S + R)) :
  (forall s, I s -> exists r, body s = Some r /\
     match r with inl s' => I s' /\ (m s' < m s)%nat | inr v => Q v end) ->
  forall fuel s, I s -> (m s < fuel)%nat ->
  exists v, loop fuel body s = Some v /\ Q v.
Proof.
  intros H fuel. induction fuel as [|fuel IH]; intros s Hs Hm; [lia|].
  destruct (H s Hs) as (r & E & Hr). simpl. rewrite E. simpl.
  destruct r as [s'|v]; [|eauto]. destruct Hr. apply IH; [done|lia].
Qed.

(** A result obtained with some fuel is obtained with any larger fuel. *)
Lemma loop_mono {S R} (body : S -> option (S + R)) f1 f2 s v :
  (f1 <= f2)%nat -> loop f1 body s = Some v -> loop f2 body s = Some v.
Proof.
  revert f2 s. induction f1 as [|f1 IH]; intros f2 s Hf E; [done|].
  destruct f2 as [|f2]; [lia|]. simpl in *.
  destruct (body s) as [[s'|w]|]; simpl in *; try done. apply IH; [lia|done].
Qed.

(** ** Sorting *)

Section Sorting.
Context {A : Type} (before : A -> A -> bool).

Lemma insertBy_perm x l : insertBy before x l ≡ₚ x :: l.
Proof.
  induction l as [|y l IH]; [done|]. simpl. destruct (before y x); [|done].
  rewrite IH. apply Permutation_swap.
Qed.

Lemma sortBy_perm l : sortBy before l ≡ₚ l.
Proof. induction l as [|x l IH]; [done|]. simpl. by rewrite insertBy_perm, IH. Qed.

(** Sorted for every transitive relation that [before] decides. *)
Context (R : A -> A -> Prop) `{!Transitive R}
  (Hbefore : forall x y, before x y = true -> R x y)
  (Hafter : forall x y, before x y = false -> R y x).

Lemma insertBy_sorted x l : StronglySorted R l -> StronglySorted R (insertBy before x l).
Proof.
  induction l as [|y l IH]; intros H; simpl; [by repeat constructor|].
  inversion_clear H as [|? ? Hl Hy]. destruct (before y x) eqn:E.
  - constructor; [by apply IH|]. rewrite insertBy_perm. constructor; [by apply Hbefore|done].
  - apply Hafter in E. constructor; [by constructor|]. constructor; [done|].
    eapply Forall_impl; [|exact Hy]. intros z Hz. by transitivity y.
Qed.

Lemma sortBy_sorted l : StronglySorted R (sortBy before l).
Proof. induction l; [constructor|]. by apply insertBy_sorted. Qed.
End Sorting.

(** ** Searching *)

Lemma goSearch_ok n f (P : Z -> bool) :
  0 <= n -> (forall i, 0 <= i < n -> f i = Some (P i)) ->
  (forall i j, 0 <= i -> i <= j -> j < n -> P i = true -> P j = true) ->
  exists k, goSearch n f = Some k /\ 0 <= k <= n /\
    (forall i, 0 <= i < k -> P i = false) /\ (forall i, k <= i < n -> P i = true).
Proof.
  intros Hn Hf Hm. unfold goSearch.
  apply (loop_total
    (fun s => 0 <= fst s <= snd s /\ snd s <= n /\ (forall i, 0 <= i < fst s -> P i = false) /\
              (forall i, snd s <= i < n -> P i = true))
    (fun s => Z.to_nat (snd s - fst s))
    (fun k => 0 <= k <= n /\ (forall i, 0 <= i < k -> P i = false) /\ (forall i, k <= i < n -> P i = true)));
    [|split_and!; simpl; lia|simpl; lia].
  intros [i j] (Hi & Hj & Hlo & Hhi). cbn [fst snd] in *. unfold searchBody.
  destruct (i <? j) eqn:E.
  - assert (i <= (i + j) / 2 < j) as Hh by zlia. rewrite Hf by lia. cbn [mbind option_bind].
    eexists. split; [done|]. destruct (P ((i + j) / 2)) eqn:Ep; cbn [fst snd].
    + split; [|lia]. split_and!; try lia; [done|]. intros k Hk.
      apply (Hm ((i + j) / 2) k); [lia..|done].
    + split; [|lia]. split_and!; try lia; [|done]. intros k Hk.
      destruct (P k) eqn:Ek; [|done]. rewrite (Hm k ((i + j) / 2)) in Ep; [done|lia..|done].
  - assert (i = j) as -> by lia. eexists. split; [done|]. cbn. split_and!; [lia..|done|done].
Qed.
