(* ===== verification/SeqNum.v ===== *)
(** * TCP sequence numbers and segment admission

    The 32-bit serial arithmetic of [tcp.go], the inbound segment record and
    the pure admission tests applied to one segment: receive-window test,
    PAWS, window update, challenge-ACK sequence, duplicate-ACK evidence. *)

From S2P Require Import Prelude.

(** ** Segments *)

Definition TCPFlagFIN : Z := 1.
Definition TCPFlagSYN : Z := 2.
Definition TCPFlagRST : Z := 4.
Definition TCPFlagPSH : Z := 8.
Definition TCPFlagACK : Z := 16.
Definition TCPFlagECE : Z := 64.
Definition TCPFlagCWR : Z := 128.

(** The validated segment handed to a connection actor. *)
Record tcpSegment := mkSegment {
  sg_sequence : Z;
  sg_acknowledgement : Z;
  sg_flags : Z;
  sg_window : Z;
  sg_ecn : Z;
  sg_options : list Z;
  sg_payload : list Z;
  sg_retainedBytes : Z;
  sg_receivedAt : Z }.

(** [flags & mask != 0]. *)
Definition hasFlag (flags mask : Z) : bool := negb (flags .& mask =? 0).

(** ** Serial comparisons *)

Definition tcpSequenceLess (left right : Z) : bool := s32 (left - right) <? 0.
Definition tcpSequenceGreater (left right : Z) : bool := tcpSequenceLess right left.
Definition tcpSequenceLessEqual (left right : Z) : bool := negb (tcpSequenceGreater left right).
Definition tcpSequenceGreaterEqual (left right : Z) : bool := negb (tcpSequenceLess left right).

(** ** Admission tests *)

Definition tcpAcceptableSendSequence
    (sendUnacknowledged sendNext sendWindow sendWindowScale : Z) : Z :=
  if sendWindow =? 0 then sendUnacknowledged
  else
    let windowEnd := sendUnacknowledged ⊞ sendWindow in
    if negb (tcpSequenceLess windowEnd sendNext)
       || (sendNext ⊟ windowEnd <? u32 (2 ^ sendWindowScale))
    then sendNext else windowEnd.

Definition tcpChallengeACKSequence (segment : tcpSegment)
    (sendUnacknowledged sendNext currentSendWindow sendWindowScale : Z) : Z :=
  let fallback := tcpAcceptableSendSequence sendUnacknowledged sendNext
                    currentSendWindow sendWindowScale in
  if negb (sg_flags segment =? TCPFlagACK)
     || negb (zlen (sg_payload segment) =? 0)
     || (sendNext ⊟ sendUnacknowledged <? sg_acknowledgement segment ⊟ sendUnacknowledged)
  then fallback
  else
    let sendWindow := u32 (sg_window segment * 2 ^ sendWindowScale) in
    tcpAcceptableSendSequence (sg_acknowledgement segment) sendNext sendWindow sendWindowScale.

Definition tcpECNStartsRecovery (active : bool) (acknowledgement recoveryPoint : Z) : bool :=
  negb active || tcpSequenceGreater acknowledgement recoveryPoint.

Definition tcpSegmentAcceptable (sequence length receiveNext receiveWindow : Z) : bool :=
  if receiveWindow =? 0 then (length =? 0) && (sequence =? receiveNext)
  else if sequence ⊟ receiveNext <? receiveWindow then true
  else negb (length =? 0) && (u32 (sequence + length - 1 - receiveNext) <? receiveWindow).

Definition tcpKeepAliveOrWindowProbe (segment : tcpSegment)
    (length receiveNext receiveWindow : Z) : bool :=
  if hasFlag (sg_flags segment) (TCPFlagRST .| TCPFlagSYN .| TCPFlagFIN)
     || negb (hasFlag (sg_flags segment) TCPFlagACK)
     || negb (sg_sequence segment =? receiveNext ⊟ 1)
  then false else length <=? 1.

Definition tcpWindowUpdate (ackAdvanced : bool)
    (sequence lastSequence advertisedWindow peerScale currentWindow : Z) : Z * bool :=
  if ackAdvanced || tcpSequenceGreater sequence lastSequence
  then (u32 (advertisedWindow * 2 ^ peerScale), true)
  else if negb (sequence =? lastSequence) then (0, false)
  else
    let window := u32 (advertisedWindow * 2 ^ peerScale) in
    (window, (currentWindow <? window) || (window =? 0)).

(** [tcpPAWSMaxAge = (1<<31 - 1) / 1_000_000 * time.Second]: 2147 s. *)
Definition tcpPAWSMaxAge : Z := 2147483647 / 1000000 * second.
Definition tcpPAWSReplayWindow : Z := 1.

Definition tcpPAWSReject (tsval recent recentAt receivedAt replayWindow : Z) : bool :=
  if (recent =? 0) || (s32 (recent - tsval) <=? s32 replayWindow) then false
  else timeSub receivedAt recentAt <? tcpPAWSMaxAge.

Definition tcpPAWSReplayTicks (rto : Z) : Z :=
  let ticks := u64 (Z.quot rto millisecond) in
  let ticks := u64 (ticks + ticks / 5) in
  let ticks := if ticks <? tcpPAWSReplayWindow then tcpPAWSReplayWindow else ticks in
  u32 ticks.

(** The fields of [tcpEstablishedState] that the PAWS exception reads. *)
Record pawsState := mkPaws {
  pw_receiveNext : Z;
  pw_sendUnacknowledged : Z;
  pw_peerScale : Z;
  pw_peerWindow : Z;
  pw_peerWindowSequence : Z;
  pw_recentTimestamp : Z;
  pw_rto : Z }.

(** Returns [(drop, accept)]. *)
Definition tcpPAWSDisorderedACK (segment : tcpSegment) (state : pawsState)
    (timestamp : Z) : bool * bool :=
  if negb (hasFlag (sg_flags segment) TCPFlagACK)
     || negb (zlen (sg_payload segment) =? 0)
     || hasFlag (sg_flags segment) (TCPFlagSYN .| TCPFlagFIN .| TCPFlagRST)
  then (false, false)
  else if negb (sg_sequence segment =? pw_receiveNext state)
  then (tcpSequenceLess (sg_sequence segment) (pw_receiveNext state), false)
  else if negb (sg_acknowledgement segment =? pw_sendUnacknowledged state)
  then (false, false)
  else
    let window := u32 (sg_window segment * 2 ^ pw_peerScale state) in
    let windowUpdate :=
      tcpSequenceGreater (sg_sequence segment) (pw_peerWindowSequence state)
      || ((sg_sequence segment =? pw_peerWindowSequence state)
          && ((pw_peerWindow state <? window) || (window =? 0))) in
    if windowUpdate then (false, false)
    else (false, s32 (pw_recentTimestamp state - timestamp)
                 <=? s32 (tcpPAWSReplayTicks (pw_rto state))).

Definition tcpDuplicateACKEvidence (segment : tcpSegment)
    (peerSACK newSACKInfo ackAdvanced : bool)
    (sendUnacknowledged previousWindow peerWindow : Z) : bool :=
  if peerSACK then newSACKInfo
  else negb ackAdvanced
       && (sg_acknowledgement segment =? sendUnacknowledged)
       && (previousWindow =? peerWindow)
       && (zlen (sg_payload segment) =? 0)
       && negb (hasFlag (sg_flags segment) (TCPFlagSYN .| TCPFlagFIN)).

(** A timestamp echo lies in the range of the SYN transmissions. *)
Definition tcpTimestampEchoInRange (echo first last : Z) : bool :=
  tcpSequenceGreaterEqual echo first && tcpSequenceLessEqual echo last.

(** ** Lemmas *)

(** [less] is the comparison of 32-bit distances with the half range. *)
Lemma less_dist a b : tcpSequenceLess a b = (2147483648 <=? u32 (a - b)).
Proof. apply s32_negative. Qed.

(** Offsets from a common base order sequence numbers as integers, as long as
    both are within half of the sequence space of each other. *)
Lemma less_offsets b i j :
  -2147483648 < i - j < 2147483648 ->
  tcpSequenceLess (b ⊞ i) (b ⊞ j) = (i <? j).
Proof. intros H. rewrite less_dist. word. Qed.

Lemma less_offset_r b j : 0 <= j < 2147483648 -> tcpSequenceLess (u32 b) (b ⊞ j) = (0 <? j).
Proof. intros H. rewrite less_dist. word. Qed.

Lemma less_irrefl a : tcpSequenceLess a a = false.
Proof. rewrite less_dist. word. Qed.

(** The unique offset below 2^32 of a sequence number from a base. *)
Lemma seq_offset b a : is_u32 a -> a = b ⊞ (a ⊟ b).
Proof. word. Qed.

Lemma hasFlag_lor flags a b :
  hasFlag flags (a .| b) = hasFlag flags a || hasFlag flags b.
Proof.
  unfold hasFlag. rewrite Z.land_lor_distr_r.
  destruct (flags .& a =? 0) eqn:Ea, (flags .& b =? 0) eqn:Eb; simpl.
  - rewrite Z.eqb_eq in *. rewrite Ea, Eb. done.
  - rewrite Z.eqb_eq in Ea. rewrite Ea, Z.lor_0_l, Eb. done.
  - rewrite Z.eqb_eq in Eb. rewrite Eb, Z.lor_0_r, Ea. done.
  - rewrite Z.eqb_neq in *. apply negb_true_iff, Z.eqb_neq.
    intros H. apply Z.lor_eq_0_iff in H as []. done.
Qed.

Lemma acceptable_dist seq len rn w :
  is_u32 seq -> is_u32 rn -> is_u32 len -> 0 < w -> is_u32 w -> len <= w ->
  tcpSegmentAcceptable seq len rn w = true <->
  exists i j, 0 <= i < Z.max 1 len /\ 0 <= j < w /\ seq ⊞ i = rn ⊞ j.
Proof.
  intros Hs Hr Hl Hw Hw' Hlw. unfold tcpSegmentAcceptable.
  destruct (w =? 0) eqn:E; [lia|]. clear E. split.
  - destruct (seq ⊟ rn <? w) eqn:E1; intros H.
    + exists 0, (seq ⊟ rn). word.
    + exists (len - 1), (u32 (seq + len - 1 - rn)). word.
  - intros (i & j & Hi & Hj & Heq). destruct (seq ⊟ rn <? w) eqn:E1; [done|].
    word.
Qed.

(** ** Properties *)

(** Serial comparison is the integer order of stream offsets: for two
    positions of one byte stream less than half the sequence space apart, all
    four comparison functions decide the order of the positions, whatever
    the initial sequence number and however often the counter wrapped. *)
Theorem tcpSequence_order (base i j : Z) :
  -2147483648 < i - j < 2147483648 ->
  tcpSequenceLess (base ⊞ i) (base ⊞ j) = (i <? j) /\
  tcpSequenceGreater (base ⊞ i) (base ⊞ j) = (j <? i) /\
  tcpSequenceLessEqual (base ⊞ i) (base ⊞ j) = (i <=? j) /\
  tcpSequenceGreaterEqual (base ⊞ i) (base ⊞ j) = (j <=? i).
Proof.
  intros H. unfold tcpSequenceGreaterEqual, tcpSequenceLessEqual, tcpSequenceGreater.
  rewrite !less_offsets by lia. rewrite <- !Z.leb_antisym. done.
Qed.

Lemma tcpSequence_order_witness :
  tcpSequenceLess (4294967290 ⊞ 3) (4294967290 ⊞ 10) = true.
Proof.
  destruct (tcpSequence_order 4294967290 3 10) as [E _]; [lia|].
  rewrite E. reflexivity.
Defined.

(** The receive-window test accepts exactly the segments that overlap the
    window: some sequence number of the segment (its own number when it is
    empty) lies among the [receiveWindow] numbers from RCV.NXT, for every
    segment no longer than the window. *)
Theorem tcpSegmentAcceptable_overlap (sequence length receiveNext receiveWindow : Z) :
  is_u32 sequence -> is_u32 receiveNext -> is_u32 length -> is_u32 receiveWindow ->
  0 < receiveWindow -> length <= receiveWindow ->
  tcpSegmentAcceptable sequence length receiveNext receiveWindow = true <->
  exists i j, 0 <= i < Z.max 1 length /\ 0 <= j < receiveWindow /\
              sequence ⊞ i = receiveNext ⊞ j.
Proof. intros. by apply acceptable_dist. Qed.

Lemma tcpSegmentAcceptable_overlap_witness :
  exists i j, 0 <= i < Z.max 1 100 /\ 0 <= j < 1000 /\ 4294967246 ⊞ i = 10 ⊞ j.
Proof.
  apply (tcpSegmentAcceptable_overlap 4294967246 100 10 1000);
    unfold is_u32; try lia. reflexivity.
Defined.

(** The sequence number of an empty ACK lies between SND.UNA and SND.NXT,
    and it exceeds the right edge of the peer's window by less than one
    window-scale quantum, so the peer never finds it outside its window for
    more than the rounding of the scaled advertisement. *)
Theorem tcpAcceptableSendSequence_bounds (una flight window scale : Z) :
  is_u32 una -> 0 <= flight < 2147483648 -> 0 <= window < 2147483648 -> 0 <= scale <= 14 ->
  exists d, tcpAcceptableSendSequence una (una ⊞ flight) window scale = una ⊞ d /\
            0 <= d <= flight /\ d <= window + (2 ^ scale - 1).
Proof.
  intros Hu Hf Hw Hs. unfold tcpAcceptableSendSequence.
  assert (1 <= 2 ^ scale <= 2 ^ 14) as Hp.
  { split; [apply (Z.pow_le_mono_r 2 0)|apply Z.pow_le_mono_r]; lia. }
  change (2 ^ 14) with 16384 in Hp. rewrite (u32_id (2 ^ scale)) by word.
  destruct (window =? 0) eqn:E; [exists 0; word|].
  rewrite less_offsets by lia.
  destruct (negb (window <? flight)) eqn:E1; simpl; [exists flight; word|].
  destruct (_ <? 2 ^ scale) eqn:E2; [exists flight|exists window]; word.
Qed.

Lemma tcpAcceptableSendSequence_bounds_witness :
  exists d, tcpAcceptableSendSequence 4294967200 (4294967200 ⊞ 5000) 1024 7 = 4294967200 ⊞ d /\
            0 <= d <= 5000 /\ d <= 1024 + (2 ^ 7 - 1).
Proof. apply tcpAcceptableSendSequence_bounds; unfold is_u32; lia. Defined.
