(* ===== verification/Rtt.v ===== *)
(** * Round-trip estimation and retransmission timeouts

    The RFC 6298 estimator of [tcp.go] with its Linux-style windowed minimum,
    RFC 6069 backoff and revert, event-time clamping and the timer delays
    derived from the smoothed RTT. *)

From S2P Require Import Prelude SeqNum.

(** ** Data *)

Definition tcpInitialRTO : Z := second.
Definition tcpMinimumRTO : Z := 200 * millisecond.
Definition tcpMaximumRTO : Z := 120 * second.
Definition tcpMinimumRTTWindow : Z := 300 * second.
Definition tcpTailLossProbeACKDelay : Z := 200 * millisecond.
Definition tcpMaximumCompressedSACKDelay : Z := millisecond.
Definition tcpEifelClockGranularity : Z := millisecond.

Record tcpMinimumRTTSample := mkSample { ms_at : Z; ms_value : Z }.

Record tcpMinimumRTTFilter := mkFilter {
  mf_s0 : tcpMinimumRTTSample;
  mf_s1 : tcpMinimumRTTSample;
  mf_s2 : tcpMinimumRTTSample;
  mf_initialized : bool }.

Record rttEstimator := mkRtt {
  rt_initialized : bool;
  rt_samples : Z;
  rt_minimum : Z;
  rt_minimums : tcpMinimumRTTFilter;
  rt_srtt : Z;
  rt_variation : Z;
  rt_baseRTO : Z;
  rt_rto : Z;
  rt_backoffs : Z }.

Definition zeroSample : tcpMinimumRTTSample := mkSample 0 0.
Definition zeroFilter : tcpMinimumRTTFilter := mkFilter zeroSample zeroSample zeroSample false.

Definition newRTTEstimator (initial : Z) : rttEstimator :=
  mkRtt false 0 0 zeroFilter 0 0 initial initial 0.

(** ** Running minimum *)

Definition minimumRTT_observe (f : tcpMinimumRTTFilter) (now value : Z)
    : Z * tcpMinimumRTTFilter :=
  let candidate := mkSample now value in
  if negb (mf_initialized f) || (value <=? ms_value (mf_s0 f))
     || (tcpMinimumRTTWindow <? now - ms_at (mf_s2 f))
  then (value, mkFilter candidate candidate candidate true)
  else
    let f :=
      if value <=? ms_value (mf_s1 f)
      then mkFilter (mf_s0 f) candidate candidate (mf_initialized f)
      else if value <=? ms_value (mf_s2 f)
      then mkFilter (mf_s0 f) (mf_s1 f) candidate (mf_initialized f)
      else f in
    let delta := now - ms_at (mf_s0 f) in
    let f :=
      if tcpMinimumRTTWindow <? delta then
        let f := mkFilter (mf_s1 f) (mf_s2 f) candidate (mf_initialized f) in
        if tcpMinimumRTTWindow <? now - ms_at (mf_s0 f)
        then mkFilter (mf_s1 f) (mf_s2 f) candidate (mf_initialized f) else f
      else if (ms_at (mf_s1 f) =? ms_at (mf_s0 f))
              && (Z.quot tcpMinimumRTTWindow 4 <? delta)
      then mkFilter (mf_s0 f) candidate candidate (mf_initialized f)
      else if (ms_at (mf_s2 f) =? ms_at (mf_s1 f))
              && (Z.quot tcpMinimumRTTWindow 2 <? delta)
      then mkFilter (mf_s0 f) (mf_s1 f) candidate (mf_initialized f)
      else f in
    (ms_value (mf_s0 f), f).

(** ** Estimator *)

Definition updateRTO (r : rttEstimator) : rttEstimator :=
  let base := rt_srtt r + 4 * rt_variation r in
  let base := if base <? tcpMinimumRTO then tcpMinimumRTO
              else if tcpMaximumRTO <? base then tcpMaximumRTO else base in
  mkRtt (rt_initialized r) (rt_samples r) (rt_minimum r) (rt_minimums r)
        (rt_srtt r) (rt_variation r) base base 0.

Definition normalizedRTTSample (sample : Z) : Z :=
  if tcpMaximumRTO <? sample then tcpMaximumRTO else sample.

Definition observeAt (r : rttEstimator) (sample receivedAt : Z) : rttEstimator :=
  if sample <=? 0 then r
  else
    let samples := u64 (rt_samples r + 1) in
    let sample := normalizedRTTSample sample in
    let '(minimum, minimums) := minimumRTT_observe (rt_minimums r) receivedAt sample in
    let '(srtt, variation) :=
      if negb (rt_initialized r) then (sample, Z.quot sample 2)
      else
        let difference := rt_srtt r - sample in
        let difference := if difference <? 0 then - difference else difference in
        (Z.quot (7 * rt_srtt r + sample) 8,
         Z.quot (3 * rt_variation r + difference) 4) in
    updateRTO (mkRtt true samples minimum minimums srtt variation
                     (rt_baseRTO r) (rt_rto r) (rt_backoffs r)).

Definition elapsedRTTSampleAt (sentAt receivedAt : Z) : Z :=
  if sentAt =? 0 then 0
  else
    let sample := timeSub receivedAt sentAt in
    if sample <? microsecond then microsecond else sample.

(** [monotonicStampAt] and [monotonicStamp.time] of [stack.go]. *)
Definition monotonicStampAt (epoch value : Z) : Z :=
  if value =? 0 then 0
  else
    let elapsed := timeSub value epoch in
    (if elapsed <? 0 then 0 else elapsed) + 1.

Definition stampTime (s epoch : Z) : Z :=
  if s =? 0 then 0 else epoch + (s - 1).

Definition tcpSegmentEventTime (segment : tcpSegment) (now previous epoch : Z) : Z :=
  let result := stampTime (sg_receivedAt segment) epoch in
  let result := if (result =? 0) || (now <? result) then now else result in
  if result <? previous then previous else result.

(** The clock read of [tcpQueuedSegmentEventTime] is the argument [clock]. *)
Definition tcpQueuedSegmentEventTime (segment : tcpSegment) (previous epoch clock : Z) : Z :=
  let result := stampTime (sg_receivedAt segment) epoch in
  let result := if result =? 0 then clock else result in
  if result <? previous then previous else result.

(** ** Backoff *)

(** The [for] loop of [backedOffRTO]: [backoffs] doublings, left early at the
    ceiling. *)
Fixpoint backedOffLoop (result : Z) (n : nat) : Z :=
  match n with
  | O => if tcpMaximumRTO <? result then tcpMaximumRTO else result
  | S n => if Z.quot tcpMaximumRTO 2 <=? result then tcpMaximumRTO
           else backedOffLoop (result * 2) n
  end.

Definition backedOffRTO (base backoffs : Z) : Z :=
  let base := if base <=? 0 then tcpInitialRTO else base in
  backedOffLoop base (Z.to_nat backoffs).

Definition backoff (r : rttEstimator) : rttEstimator :=
  let base :=
    if rt_baseRTO r <=? 0
    then (if rt_rto r <=? 0 then tcpInitialRTO else rt_rto r)
    else rt_baseRTO r in
  let backoffs := if negb (rt_backoffs r =? 255) then rt_backoffs r + 1 else rt_backoffs r in
  mkRtt (rt_initialized r) (rt_samples r) (rt_minimum r) (rt_minimums r)
        (rt_srtt r) (rt_variation r) base (backedOffRTO base backoffs) backoffs.

Definition revertBackoff (r : rttEstimator) : bool * rttEstimator :=
  if rt_backoffs r =? 0 then (false, r)
  else
    let backoffs := rt_backoffs r - 1 in
    (true, mkRtt (rt_initialized r) (rt_samples r) (rt_minimum r) (rt_minimums r)
                 (rt_srtt r) (rt_variation r) (rt_baseRTO r)
                 (backedOffRTO (rt_baseRTO r) backoffs) backoffs).

(** ** Derived delays *)

Definition tailLossProbeDelay (smoothedRTT rto : Z) (singleSegment : bool) : Z :=
  let delay := 2 * smoothedRTT in
  let delay := if smoothedRTT =? 0 then rto
               else if singleSegment then delay + tcpTailLossProbeACKDelay else delay in
  let delay := if delay <? 10 * millisecond then 10 * millisecond else delay in
  if rto <? delay then rto else delay.

Definition tcpSACKRenegingDelay (smoothedRTT : Z) : Z :=
  let delay := Z.quot smoothedRTT 2 in
  if delay <? 10 * millisecond then 10 * millisecond else delay.

Definition tcpCompressedSACKDelay (smoothedRTT : Z) : Z :=
  if smoothedRTT <=? 0 then tcpMaximumCompressedSACKDelay
  else
    let delay := Z.quot smoothedRTT 100 * 33 + Z.quot (Z.rem smoothedRTT 100 * 33) 100 in
    if tcpMaximumCompressedSACKDelay <? delay then tcpMaximumCompressedSACKDelay else delay.

Definition rackReorderingWindow (minimumRTT smoothedRTT scale : Z) : Z :=
  if (minimumRTT <=? 0) || (smoothedRTT <=? 0) then 0
  else
    let scale := if scale =? 0 then 1 else scale in
    let window := Z.quot minimumRTT 4 in
    if window <=? 0 then 0
    else if u32 (Z.quot smoothedRTT window) <? scale then smoothedRTT
    else
      let window := window * scale in
      if smoothedRTT <? window then smoothedRTT else window.

(** ** Eifel response (RFC 4015) *)

Record tcpEifelRTOResponse := mkEifel {
  ei_point : Z; ei_previousSRTT : Z; ei_previousRTTVar : Z; ei_pending : bool }.

Definition eifel_observe (e : tcpEifelRTOResponse) (acknowledgement sample : Z)
    (r : rttEstimator) : bool * tcpEifelRTOResponse * rttEstimator :=
  if negb (ei_pending e) || (sample <=? 0)
     || negb (tcpSequenceGreater acknowledgement (ei_point e))
  then (false, e, r)
  else
    let sample := normalizedRTTSample sample in
    let srtt := if ei_previousSRTT e <? sample then sample else ei_previousSRTT e in
    let half := Z.quot sample 2 in
    let variation := if ei_previousRTTVar e <? half then half else ei_previousRTTVar e in
    (true,
     mkEifel (ei_point e) (ei_previousSRTT e) (ei_previousRTTVar e) false,
     updateRTO (mkRtt true (rt_samples r) (rt_minimum r) (rt_minimums r)
                      srtt variation (rt_baseRTO r) (rt_rto r) (rt_backoffs r))).

(** ** Specification of the running minimum

    A history is the list of samples, newest first.  A sample of the history
    is a running minimum when no newer sample is smaller. *)

Definition suffixMin (H : list tcpMinimumRTTSample) (s : tcpMinimumRTTSample) : Prop :=
  exists recent older, H = recent ++ s :: older /\
    Forall (fun t => ms_value s <= ms_value t) recent.

Record filterOk (H : list tcpMinimumRTTSample) (last : Z) (f : tcpMinimumRTTFilter) : Prop := {
  fo_init : mf_initialized f = true;
  fo_s0 : suffixMin H (mf_s0 f);
  fo_s1 : suffixMin H (mf_s1 f);
  fo_s2 : suffixMin H (mf_s2 f);
  fo_v01 : ms_value (mf_s0 f) <= ms_value (mf_s1 f);
  fo_v12 : ms_value (mf_s1 f) <= ms_value (mf_s2 f);
  fo_t01 : ms_at (mf_s0 f) <= ms_at (mf_s1 f);
  fo_t12 : ms_at (mf_s1 f) <= ms_at (mf_s2 f);
  fo_t2 : ms_at (mf_s2 f) <= last }.

(** Feeding a history, oldest sample first. *)
Fixpoint observeAll (f : tcpMinimumRTTFilter) (l : list tcpMinimumRTTSample)
    : tcpMinimumRTTFilter :=
  match l with
  | [] => f
  | s :: l => observeAll (snd (minimumRTT_observe f (ms_at s) (ms_value s))) l
  end.

(** Every operation of a live estimator. *)
Inductive rttStep : rttEstimator -> rttEstimator -> Prop :=
| rttObserve r sample at_ : rttStep r (observeAt r sample at_)
| rttBackoff r : rttStep r (backoff r)
| rttRevert r : rttStep r (snd (revertBackoff r))
| rttEifel r e ack sample :
    0 <= ei_previousSRTT e <= tcpMaximumRTO + 2 * tcpEifelClockGranularity ->
    0 <= ei_previousRTTVar e <= tcpMaximumRTO ->
    rttStep r (snd (eifel_observe e ack sample r)).

Inductive rttReachable (initial : Z) : rttEstimator -> Prop :=
| rttStart : rttReachable initial (newRTTEstimator initial)
| rttNext r r' : rttReachable initial r -> rttStep r r' -> rttReachable initial r'.

Record rttOk (r : rttEstimator) : Prop := {
  ro_base : tcpMinimumRTO <= rt_baseRTO r <= tcpMaximumRTO;
  ro_rto : rt_rto r = backedOffRTO (rt_baseRTO r) (rt_backoffs r);
  ro_backoffs : 0 <= rt_backoffs r <= 255;
  ro_srtt : 0 <= rt_srtt r <= tcpMaximumRTO + 2 * tcpEifelClockGranularity;
  ro_var : 0 <= rt_variation r <= tcpMaximumRTO + 2 * tcpEifelClockGranularity }.

(** ** Lemmas *)

Ltac rtt_consts :=
  unfold tcpMinimumRTO, tcpMaximumRTO, tcpInitialRTO, tcpEifelClockGranularity,
         tcpMinimumRTTWindow, tcpTailLossProbeACKDelay, second, millisecond, microsecond in *.

Lemma suffixMin_new H c : suffixMin (c :: H) c.
Proof. exists [], H. split; [done|constructor]. Qed.

Lemma suffixMin_keep H c s :
  suffixMin H s -> ms_value s <= ms_value c -> suffixMin (c :: H) s.
Proof. intros (r & o & -> & F) Hv. exists (c :: r), o. split; [done|by constructor]. Qed.

Lemma suffixMin_in H s : suffixMin H s -> s ∈ H.
Proof. intros (r & o & -> & _). apply elem_of_app. right. left. Qed.

#[export] Hint Resolve suffixMin_new suffixMin_keep : mips.

(** The state after the [value <= samples[i].value] replacements. *)
Lemma observe_ok H last f now value :
  filterOk H last f \/ mf_initialized f = false ->
  (mf_initialized f = true -> last <= now) ->
  let c := mkSample now value in
  let '(v, f') := minimumRTT_observe f now value in
  filterOk (c :: H) now f' /\ v = ms_value (mf_s0 f') /\ v <= value /\
  now - ms_at (mf_s0 f') <= tcpMinimumRTTWindow.
Proof.
  intros Hf Hlast c. unfold minimumRTT_observe.
  change (mkSample now value) with c.
  destruct (_ || _) eqn:E1.
  { split; [|rtt_consts; simpl; lia].
    split; simpl; auto with mips; lia. }
  destruct Hf as [Hf|Hf]; [|rewrite Hf in E1; done].
  rewrite !orb_false_iff in E1. destruct E1 as [[E0 E1] E2].
  specialize (Hlast (fo_init _ _ _ Hf)).
  destruct f as [[t0 v0] [t1 v1] [t2 v2] b], Hf as [I S0 S1 S2 V01 V12 T01 T12 T2].
  simpl in *. subst c.
  assert (suffixMin (mkSample now value :: H) (mkSample t0 v0)) as S0'.
  { apply suffixMin_keep; [done|simpl; lia]. }
  assert (v1 <= value -> suffixMin (mkSample now value :: H) (mkSample t1 v1)) as S1'.
  { intros. apply suffixMin_keep; done. }
  assert (v2 <= value -> suffixMin (mkSample now value :: H) (mkSample t2 v2)) as S2'.
  { intros. apply suffixMin_keep; done. }
  rtt_consts.
  split_ifs; simpl in *;
    (split; [split; simpl; auto with mips; first [apply S1'|apply S2'|idtac]; lia
            |repeat split; lia]).
Qed.

Lemma observeAll_ok H last f l :
  filterOk H last f \/ mf_initialized f = false ->
  StronglySorted (fun a b => ms_at a <= ms_at b) l ->
  (mf_initialized f = true -> Forall (fun s => last <= ms_at s) l) ->
  l <> [] ->
  exists last', last' = ms_at (List.last l zeroSample) /\
    filterOk (rev l ++ H) last' (observeAll f l).
Proof.
  revert H last f. induction l as [|s l IH]; intros H last f Hf Hsort Hlast Hne; [done|].
  inversion_clear Hsort as [|? ? Hsort' Hle]. simpl.
  pose proof (observe_ok H last f (ms_at s) (ms_value s) Hf) as Hobs.
  destruct (minimumRTT_observe f (ms_at s) (ms_value s)) as [v f'] eqn:E.
  destruct Hobs as (Hok & _).
  { intros Hi. specialize (Hlast Hi). by inversion_clear Hlast. }
  simpl. replace (mkSample (ms_at s) (ms_value s)) with s in Hok by by destruct s.
  destruct l as [|s' l].
  - exists (ms_at s). split; [done|]. simpl. done.
  - destruct (IH (s :: H) (ms_at s) f') as (last' & El & Hok'); try done; [by left|].
    exists last'. split; [done|]. rewrite <- app_assoc. done.
Qed.

Lemma backedOffLoop_closed base n :
  0 < base -> base <= tcpMaximumRTO ->
  backedOffLoop base n = Z.min tcpMaximumRTO (base * 2 ^ Z.of_nat n).
Proof.
  revert base. induction n as [|n IH]; intros base Hb Hm; simpl backedOffLoop.
  - split_ifs; lia.
  - rewrite Nat2Z.inj_succ, Z.pow_succ_r by lia.
    pose proof (Z.pow_pos_nonneg 2 (Z.of_nat n)).
    change (Z.quot tcpMaximumRTO 2) with 60000000000.
    change tcpMaximumRTO with 120000000000 in *.
    destruct (_ <=? base) eqn:E; [nia|].
    rewrite IH by lia. f_equal. lia.
Qed.

Lemma backedOffRTO_closed base backoffs :
  0 < base -> base <= tcpMaximumRTO -> 0 <= backoffs ->
  backedOffRTO base backoffs = Z.min tcpMaximumRTO (base * 2 ^ backoffs).
Proof.
  intros. unfold backedOffRTO. destruct (base <=? 0) eqn:?; [lia|].
  rewrite backedOffLoop_closed by done. by rewrite Z2Nat.id.
Qed.

Lemma updateRTO_ok r :
  0 <= rt_srtt r <= tcpMaximumRTO + 2 * tcpEifelClockGranularity ->
  0 <= rt_variation r <= tcpMaximumRTO + 2 * tcpEifelClockGranularity ->
  rttOk (updateRTO r).
Proof.
  intros Hs Hv. unfold updateRTO.
  assert (forall b, tcpMinimumRTO <= b <= tcpMaximumRTO -> b = backedOffRTO b 0) as Hz.
  { intros b Hb. unfold backedOffRTO. rtt_consts. destruct (b <=? 0) eqn:?; [lia|].
    simpl. rtt_consts. split_ifs; lia. }
  split; simpl; try done; try lia.
  - rtt_consts. split_ifs; lia.
  - apply Hz. rtt_consts. split_ifs; lia.
Qed.

Lemma rttOk_step r r' : rttOk r -> rttStep r r' -> rttOk r'.
Proof.
  intros Hok Hstep. pose proof Hok as [Hb Hr Hn Hs Hv].
  destruct Hstep as [r sample at_|r|r|r e ack sample He1 He2].
  - unfold observeAt. destruct (sample <=? 0) eqn:E; [done|].
    destruct (minimumRTT_observe _ _ _) as [m f].
    destruct (negb (rt_initialized r)); apply updateRTO_ok; simpl;
      unfold normalizedRTTSample; rtt_consts; split_ifs; zlia.
  - unfold backoff. destruct (rt_baseRTO r <=? 0) eqn:E; [rtt_consts; lia|].
    split; simpl; try done. split_ifs; lia.
  - unfold revertBackoff. destruct (rt_backoffs r =? 0) eqn:E; simpl; [done|].
    split; simpl; try done. lia.
  - unfold eifel_observe. destruct (_ || _) eqn:E; simpl; [done|].
    apply updateRTO_ok; simpl; unfold normalizedRTTSample; rtt_consts;
      split_ifs; zlia.
Qed.

Lemma rttOk_reachable initial r :
  tcpMinimumRTO <= initial <= tcpMaximumRTO -> rttReachable initial r -> rttOk r.
Proof.
  intros Hi. induction 1 as [|r r' _ IH Hs]; [|by eapply rttOk_step].
  split; simpl; try (rtt_consts; lia).
  unfold backedOffRTO. rtt_consts. destruct (initial <=? 0) eqn:?; [lia|].
  simpl. rtt_consts. split_ifs; lia.
Qed.

(** ** Properties *)

(** C32. In every state that RTT samples, timeouts, ICMP backoff reverts and
    Eifel responses can reach from a legal initial timeout, the timeout in
    force stays between 200 ms and 120 s and is the base timeout doubled once
    per backoff and capped; no intermediate of the estimator can leave the
    range of a Go duration. *)
Theorem rto_bounded (initial : Z) (r : rttEstimator) :
  tcpMinimumRTO <= initial <= tcpMaximumRTO -> rttReachable initial r ->
  tcpMinimumRTO <= rt_rto r <= tcpMaximumRTO /\
  rt_rto r = Z.min tcpMaximumRTO (rt_baseRTO r * 2 ^ rt_backoffs r) /\
  0 <= 8 * rt_srtt r + 4 * rt_variation r <= maxDuration.
Proof.
  intros Hi Hr. destruct (rttOk_reachable _ _ Hi Hr) as [Hb Hrto Hn Hs Hv].
  assert (rt_rto r = Z.min tcpMaximumRTO (rt_baseRTO r * 2 ^ rt_backoffs r)) as E.
  { rewrite Hrto. apply backedOffRTO_closed; rtt_consts; lia. }
  pose proof (Z.pow_pos_nonneg 2 (rt_backoffs r)).
  repeat split; try done; try (unfold maxDuration; rtt_consts; lia); rewrite E;
    rtt_consts; nia.
Qed.

Lemma rto_bounded_witness :
  let r := backoff (observeAt (newRTTEstimator tcpInitialRTO) (50 * millisecond) 7) in
  tcpMinimumRTO <= rt_rto r <= tcpMaximumRTO.
Proof.
  intros r.
  apply (rto_bounded tcpInitialRTO r); [vm_compute; split; discriminate|].
  eapply rttNext; [eapply rttNext; [constructor|constructor]|constructor].
Defined.

(** A backoff followed by an RFC 6069 revert restores the estimator, for
    every reachable state whose backoff counter is not saturated. *)
Theorem backoff_revert (initial : Z) (r : rttEstimator) :
  tcpMinimumRTO <= initial <= tcpMaximumRTO -> rttReachable initial r ->
  rt_backoffs r < 255 -> revertBackoff (backoff r) = (true, r).
Proof.
  intros Hi Hr Hb. destruct (rttOk_reachable _ _ Hi Hr) as [Hbase Hrto Hn _ _].
  unfold backoff, revertBackoff.
  destruct (rt_baseRTO r <=? 0) eqn:E1; [rtt_consts; lia|].
  destruct (rt_backoffs r =? 255) eqn:E2; [lia|]. simpl.
  destruct (rt_backoffs r + 1 =? 0) eqn:E3; [lia|].
  replace (rt_backoffs r + 1 - 1) with (rt_backoffs r) by lia.
  rewrite <- Hrto. by destruct r.
Qed.

Lemma backoff_revert_witness :
  revertBackoff (backoff (backoff (newRTTEstimator tcpInitialRTO)))
  = (true, backoff (newRTTEstimator tcpInitialRTO)).
Proof.
  apply (backoff_revert tcpInitialRTO);
    [vm_compute; split; discriminate| |reflexivity].
  eapply rttNext; [constructor|constructor].
Defined.

(** The windowed minimum RTT is exact on a recent suffix: after any
    samples in time order, observing one more returns the minimum of a suffix
    of the history that ends with the new sample and whose oldest sample is at
    most 300 s old. *)
Theorem minimumRTT_window (history : list tcpMinimumRTTSample) (now value : Z) :
  StronglySorted (fun a b => ms_at a <= ms_at b) (history ++ [mkSample now value]) ->
  let v := fst (minimumRTT_observe (observeAll zeroFilter history) now value) in
  exists older s recent,
    history ++ [mkSample now value] = older ++ s :: recent /\
    v = ms_value s /\ Forall (fun t => v <= ms_value t) (s :: recent) /\
    now - ms_at s <= tcpMinimumRTTWindow.
Proof.
  intros Hsort v.
  assert (exists last, (filterOk (rev history) last (observeAll zeroFilter history)
            \/ mf_initialized (observeAll zeroFilter history) = false) /\
          (mf_initialized (observeAll zeroFilter history) = true -> last <= now))
    as (last & Hf & Hl).
  { destruct history as [|s0 h].
    { exists 0. split; [by right|]. by simpl. }
    apply StronglySorted_app in Hsort as (Hc & Hsort & _).
    destruct (observeAll_ok [] 0 zeroFilter (s0 :: h)) as (last & El & Hok); try done.
    { by right. }
    exists last. rewrite app_nil_r in Hok. split; [by left|]. intros _. subst last.
    apply (Hc _ (mkSample now value)); [|by left].
    apply list_elem_of_In. destruct (exists_last (l := s0 :: h)) as (l' & x & El); [done|].
    rewrite El, last_last. apply in_app_iff. right. by left. }
  pose proof (observe_ok (rev history) last _ now value Hf Hl) as Hobs.
  subst v. destruct (minimumRTT_observe _ now value) as [v f]. simpl.
  destruct Hobs as (Hok & Ev & Hv & Hw).
  destruct (fo_s0 _ _ _ Hok) as (recent & older & EH & HF).
  exists (rev older), (mf_s0 f), (rev recent). repeat split.
  - apply (f_equal (@rev _)) in EH. simpl in EH. rewrite rev_involutive in EH.
    rewrite EH, rev_app_distr. simpl. by rewrite <- app_assoc.
  - done.
  - constructor; [lia|]. rewrite Ev. by apply Forall_rev.
  - done.
Qed.

Lemma minimumRTT_window_witness :
  let v := fst (minimumRTT_observe
                  (observeAll zeroFilter [mkSample 5 30; mkSample 9 20]) 400000000000 25) in
  exists older s recent,
    [mkSample 5 30; mkSample 9 20] ++ [mkSample 400000000000 25] = older ++ s :: recent /\
    v = ms_value s /\ Forall (fun t => v <= ms_value t) (s :: recent) /\
    400000000000 - ms_at s <= tcpMinimumRTTWindow.
Proof.
  apply minimumRTT_window.
  repeat (constructor; simpl; try lia).
Defined.
