(* ===== verification/SegmentQueue.v ===== *)
(** * The byte-bounded inbound segment queue of one connection

    [tcpSegmentQueue] of [tcp.go]: the slice with a consumed head, its
    capacity, the byte accounting and the edge-triggered wakeup token, refined
    to a plain bounded FIFO list; and the fixed timer backlog snapshot. *)

From S2P Require Import Prelude SeqNum.

(** ** Data *)

Definition tcpInboundByteCapacity : Z := 2 * (16 * 1024 * 1024).
Definition tcpInboundSegmentMetadata : Z := 128.
Definition tcpMetadataQueueInitial : Z := 1.
Definition tcpMetadataQueueRetain : Z := 4.
Definition tcpReusableReceivePayloadLimit : Z := 2048.

(** [sq_cap] is [cap(q.segments)], 0 exactly for a nil slice; [sq_spare] is
    [cap(q.spare)]; [sq_notify] is the token of the one-slot channel. *)
Record tcpSegmentQueue := mkQueue {
  sq_segments : list tcpSegment;
  sq_cap : Z;
  sq_spare : Z;
  sq_head : Z;
  sq_bytes : Z;
  sq_peak : Z;
  sq_closed : bool;
  sq_burst : bool;
  sq_notify : bool }.

Definition newTCPSegmentQueue : tcpSegmentQueue :=
  mkQueue [] 0 0 0 0 0 false false false.

Definition emptySegment : tcpSegment := mkSegment 0 0 0 0 0 [] [] 0 0.

Definition setRetained (s : tcpSegment) (retained : Z) : tcpSegment :=
  mkSegment (sg_sequence s) (sg_acknowledgement s) (sg_flags s) (sg_window s)
            (sg_ecn s) (sg_options s) (sg_payload s) retained (sg_receivedAt s).

Definition setPayload (s : tcpSegment) (payload : list Z) : tcpSegment :=
  mkSegment (sg_sequence s) (sg_acknowledgement s) (sg_flags s) (sg_window s)
            (sg_ecn s) (sg_options s) payload (sg_retainedBytes s) (sg_receivedAt s).

(** [setOptions]: [None] is the panic on oversized options. *)
Definition setOptions (s : tcpSegment) (options : list Z) : option tcpSegment :=
  if 40 <? zlen options then None
  else Some (mkSegment (sg_sequence s) (sg_acknowledgement s) (sg_flags s) (sg_window s)
                       (sg_ecn s) options (sg_payload s) (sg_retainedBytes s)
                       (sg_receivedAt s)).

Definition queueLen (q : tcpSegmentQueue) : Z := zlen (sq_segments q) - sq_head q.

(** The live part of the slice. *)
Definition live (q : tcpSegmentQueue) : list tcpSegment :=
  drop (Z.to_nat (sq_head q)) (sq_segments q).

Definition admits (q : tcpSegmentQueue) (retained : Z) : bool :=
  negb (sq_closed q || (tcpInboundByteCapacity <? retained)
        || (tcpInboundByteCapacity - retained <? sq_bytes q)).

(** ** Operations

    [grow n] is the capacity Go's [append] chooses when it needs room for [n]
    elements. *)

Section Queue.
  Context (grow : Z -> Z).

Definition enqueueLocked (q : tcpSegmentQueue) (segment : tcpSegment) (retained : Z)
    : tcpSegmentQueue :=
  let empty := sq_head q =? zlen (sq_segments q) in
  let '(segments, head) :=
    if negb (sq_head q =? 0) && (zlen (sq_segments q) =? sq_cap q)
       && (zlen (sq_segments q) <=? sq_head q * 2)
    then (live q, 0) else (sq_segments q, sq_head q) in
  let cap :=
    if sq_cap q =? 0
    then (if sq_burst q then tcpMetadataQueueRetain else tcpMetadataQueueInitial)
    else if (head =? 0) && (zlen segments =? sq_cap q) && (sq_cap q =? tcpMetadataQueueInitial)
    then tcpMetadataQueueRetain else sq_cap q in
  let bytes := sq_bytes q + retained in
  mkQueue (segments ++ [setRetained segment retained]) (appendCap grow (zlen segments) cap)
          (sq_spare q) head bytes
          (if sq_peak q <? bytes then bytes else sq_peak q)
          (sq_closed q) (sq_burst q) (sq_notify q || empty).

Definition enqueue (q : tcpSegmentQueue) (segment : tcpSegment) : tcpSegmentQueue * bool :=
  let retained := tcpInboundSegmentMetadata + zlen (sg_payload segment) in
  if negb (admits q retained) then (q, false)
  else (enqueueLocked q segment retained, true).

Definition enqueueCopy (q : tcpSegmentQueue) (segment : tcpSegment) (payload : list Z)
    : tcpSegmentQueue * bool :=
  let retained := tcpInboundSegmentMetadata + zlen payload in
  if negb (admits q retained) then (q, false)
  else
    let '(spare, segment) :=
      if zlen payload =? 0 then (sq_spare q, segment)
      else (if zlen payload <=? sq_spare q then 0 else sq_spare q, setPayload segment payload) in
    let q := mkQueue (sq_segments q) (sq_cap q) spare (sq_head q) (sq_bytes q) (sq_peak q)
                     (sq_closed q) (sq_burst q) (sq_notify q) in
    (enqueueLocked q segment retained, true).

Definition recyclePayload (q : tcpSegmentQueue) (cap : Z) : tcpSegmentQueue :=
  if (cap =? 0) || (tcpReusableReceivePayloadLimit <? cap) then q
  else if negb (sq_closed q) && (sq_spare q <? cap)
  then mkQueue (sq_segments q) (sq_cap q) cap (sq_head q) (sq_bytes q) (sq_peak q)
               (sq_closed q) (sq_burst q) (sq_notify q)
  else q.

Definition prepend (q : tcpSegmentQueue) (segment : tcpSegment) : tcpSegmentQueue * bool :=
  let retained := tcpInboundSegmentMetadata + zlen (sg_payload segment) in
  let segment := setRetained segment retained in
  if negb (admits q retained) then (q, false)
  else
    let empty := sq_head q =? zlen (sq_segments q) in
    let '(segments, cap, head) :=
      if negb (sq_head q =? 0)
      then (<[Z.to_nat (sq_head q - 1) := segment]> (sq_segments q), sq_cap q, sq_head q - 1)
      else (segment :: sq_segments q, appendCap grow (zlen (sq_segments q)) (sq_cap q), 0) in
    (mkQueue segments cap (sq_spare q) head (sq_bytes q + retained) (sq_peak q)
             (sq_closed q) (sq_burst q) (sq_notify q || empty), true).

End Queue.

(** [None] in the second component is the empty queue. *)
Definition dequeue (q : tcpSegmentQueue) : tcpSegmentQueue * option tcpSegment :=
  if sq_head q =? zlen (sq_segments q) then (q, None)
  else
    match idx (sq_segments q) (sq_head q) with
    | None => (q, None)
    | Some segment =>
        let segments := <[Z.to_nat (sq_head q) := emptySegment]> (sq_segments q) in
        let head := sq_head q + 1 in
        let bytes := sq_bytes q - sg_retainedBytes segment in
        let q' :=
          if head =? zlen segments then
            if sq_cap q <=? tcpMetadataQueueRetain
            then mkQueue [] (sq_cap q) (sq_spare q) 0 bytes (sq_peak q)
                         (sq_closed q) (sq_burst q) (sq_notify q)
            else mkQueue [] 0 (sq_spare q) 0 bytes (sq_peak q)
                         (sq_closed q) true (sq_notify q)
          else
            let '(segments, head) :=
              if (1024 <=? head) && (zlen segments <=? head * 2)
              then (drop (Z.to_nat head) segments, 0) else (segments, head) in
            mkQueue segments (sq_cap q) (sq_spare q) head bytes (sq_peak q)
                    (sq_closed q) (sq_burst q) true in
        (q', Some (setRetained segment 0))
    end.

Definition closeQueue (q : tcpSegmentQueue) : tcpSegmentQueue :=
  mkQueue [] 0 0 0 0 (sq_peak q) true (sq_burst q) (sq_notify q).

(** The actor takes the wakeup token and dequeues. *)
Definition wake (q : tcpSegmentQueue) : tcpSegmentQueue :=
  mkQueue (sq_segments q) (sq_cap q) (sq_spare q) (sq_head q) (sq_bytes q) (sq_peak q)
          (sq_closed q) (sq_burst q) false.

(** ** The timer backlog *)

Record tcpTimerBacklog := mkBacklog { tb_deadline : Z; tb_remaining : Z }.

(** Returns the new backlog, [drain] and [forceTimer]. *)
Definition order (b : tcpTimerBacklog) (queueLength deadline now : Z)
    : tcpTimerBacklog * bool * bool :=
  if (deadline =? 0) || (now <? deadline) then (mkBacklog 0 0, false, false)
  else
    let b := if (tb_deadline b =? 0) || negb (tb_deadline b =? deadline)
             then mkBacklog deadline queueLength else b in
    (b, negb (tb_remaining b =? 0), tb_remaining b =? 0).

Definition consumed (b : tcpTimerBacklog) : tcpTimerBacklog :=
  if 0 <? tb_remaining b then mkBacklog (tb_deadline b) (tb_remaining b - 1) else b.

(** ** Specification: a bounded FIFO list *)

Inductive queueOp :=
| OpEnqueue (s : tcpSegment)
| OpEnqueueCopy (s : tcpSegment) (payload : list Z)
| OpPrepend (s : tcpSegment)
| OpRecycle (cap : Z)
| OpTurn
| OpClose.

Inductive queueOut := OutAdmitted (b : bool) | OutSegment (s : option tcpSegment) | OutNone.

Record fifo := mkFifo { ff_items : list tcpSegment; ff_closed : bool }.

Definition cost (s : tcpSegment) : Z := tcpInboundSegmentMetadata + zlen (sg_payload s).
Definition costs (l : list tcpSegment) : Z := foldr (fun s n => cost s + n) 0 l.

Definition fifoAdmits (f : fifo) (s : tcpSegment) : bool :=
  negb (ff_closed f) && (costs (ff_items f) + cost s <=? tcpInboundByteCapacity).

Definition fifoStep (f : fifo) (o : queueOp) : fifo * queueOut :=
  match o with
  | OpEnqueue s =>
      if fifoAdmits f s then (mkFifo (ff_items f ++ [setRetained s 0]) (ff_closed f), OutAdmitted true)
      else (f, OutAdmitted false)
  | OpEnqueueCopy s payload =>
      let s := setPayload s payload in
      if fifoAdmits f s then (mkFifo (ff_items f ++ [setRetained s 0]) (ff_closed f), OutAdmitted true)
      else (f, OutAdmitted false)
  | OpPrepend s =>
      if fifoAdmits f s then (mkFifo (setRetained s 0 :: ff_items f) (ff_closed f), OutAdmitted true)
      else (f, OutAdmitted false)
  | OpRecycle _ => (f, OutNone)
  | OpTurn => match ff_items f with
              | [] => (f, OutSegment None)
              | s :: l => (mkFifo l (ff_closed f), OutSegment (Some s))
              end
  | OpClose => (mkFifo [] true, OutNone)
  end.

Definition queueStep (grow : Z -> Z) (q : tcpSegmentQueue) (o : queueOp)
    : tcpSegmentQueue * queueOut :=
  match o with
  | OpEnqueue s => let '(q, b) := enqueue grow q s in (q, OutAdmitted b)
  | OpEnqueueCopy s payload => let '(q, b) := enqueueCopy grow q s payload in (q, OutAdmitted b)
  | OpPrepend s => let '(q, b) := prepend grow q s in (q, OutAdmitted b)
  | OpRecycle cap => (recyclePayload q cap, OutNone)
  | OpTurn => let '(q, s) := dequeue (wake q) in (q, OutSegment s)
  | OpClose => (closeQueue q, OutNone)
  end.

Fixpoint runQueue (grow : Z -> Z) (q : tcpSegmentQueue) (ops : list queueOp)
    : tcpSegmentQueue * list queueOut :=
  match ops with
  | [] => (q, [])
  | o :: ops => let '(q, r) := queueStep grow q o in
                let '(q, rs) := runQueue grow q ops in (q, r :: rs)
  end.

Fixpoint runFifo (f : fifo) (ops : list queueOp) : fifo * list queueOut :=
  match ops with
  | [] => (f, [])
  | o :: ops => let '(f, r) := fifoStep f o in
                let '(f, rs) := runFifo f ops in (f, r :: rs)
  end.

(** A legal input segment carries no stale accounting in an [OpEnqueueCopy]
    whose payload is empty: the code then keeps the segment's own payload. *)
Definition opOk (o : queueOp) : Prop :=
  match o with
  | OpEnqueueCopy s payload => payload = [] -> sg_payload s = []
  | _ => True
  end.

Definition clear (s : tcpSegment) : tcpSegment := setRetained s 0.

Record queueRel (q : tcpSegmentQueue) (f : fifo) : Prop := {
  qr_head : 0 <= sq_head q <= zlen (sq_segments q);
  qr_items : map clear (live q) = ff_items f;
  qr_costs : Forall (fun s => sg_retainedBytes s = cost s) (live q);
  qr_bytes : sq_bytes q = costs (live q);
  qr_bound : costs (live q) <= tcpInboundByteCapacity;
  qr_closed : sq_closed q = ff_closed f;
  qr_notify : live q <> [] -> sq_notify q = true }.

(** ** Lemmas *)

Lemma costs_app l k : costs (l ++ k) = costs l + costs k.
Proof. induction l; simpl; lia. Qed.

Lemma costs_clear l : costs (map clear l) = costs l.
Proof. induction l; simpl; [done|]. rewrite IHl. done. Qed.

Lemma cost_setRetained s n : cost (setRetained s n) = cost s.
Proof. done. Qed.

Lemma live_nil q : 0 <= sq_head q <= zlen (sq_segments q) ->
  (sq_head q =? zlen (sq_segments q)) = bool_decide (live q = []).
Proof.
  intros H. unfold live. apply eq_true_iff_eq.
  rewrite bool_decide_eq_true, Z.eqb_eq. split.
  - intros ->. apply drop_ge. unfold zlen. lia.
  - intros E. apply (f_equal length) in E. rewrite length_drop in E.
    unfold zlen in *. simpl in E. lia.
Qed.

Lemma live_insert q h (s : tcpSegment) :
  h < sq_head q -> 0 <= h -> sq_head q <= zlen (sq_segments q) ->
  drop (Z.to_nat h) (<[Z.to_nat h := s]> (sq_segments q))
  = s :: drop (S (Z.to_nat h)) (sq_segments q).
Proof.
  intros. unfold zlen in *. rewrite insert_take_drop by lia.
  rewrite drop_app_length'; [done|]. rewrite length_take. lia.
Qed.

Lemma admits_fifo q f s :
  queueRel q f -> admits q (tcpInboundSegmentMetadata + zlen (sg_payload s)) = fifoAdmits f s.
Proof.
  intros R. unfold admits, fifoAdmits.
  rewrite <- (qr_closed _ _ R), <- (qr_items _ _ R), costs_clear, (qr_bytes _ _ R).
  assert (0 <= costs (live q)) as H.
  { clear R. induction (live q) as [|x l IH]; simpl; [lia|].
    unfold cost, tcpInboundSegmentMetadata. len. }
  unfold cost. destruct (sq_closed q); simpl; [done|].
  apply eq_true_iff_eq. rewrite negb_true_iff, orb_false_iff, !Z.ltb_ge, Z.leb_le. lia.
Qed.

Lemma fifoAdmits_bound f s :
  fifoAdmits f s = true -> costs (ff_items f) + cost s <= tcpInboundByteCapacity.
Proof. unfold fifoAdmits. rewrite andb_true_iff, Z.leb_le. by intros []. Qed.

(** Appending keeps the relation, whether or not the slice was compacted. *)
Lemma enqueueLocked_rel grow q f s :
  queueRel q f -> fifoAdmits f s = true ->
  queueRel (enqueueLocked grow q s (cost s)) (mkFifo (ff_items f ++ [clear s]) (ff_closed f)).
Proof.
  intros [Hh Hi Hc Hb Hbd Hcl Hn] Ha. apply fifoAdmits_bound in Ha.
  rewrite <- Hi, costs_clear in Ha.
  assert (forall q', live q' = live q ++ [setRetained s (cost s)] ->
            0 <= sq_head q' <= zlen (sq_segments q') ->
            sq_bytes q' = sq_bytes q + cost s -> sq_closed q' = sq_closed q ->
            sq_notify q' = sq_notify q || (sq_head q =? zlen (sq_segments q)) ->
            queueRel q' (mkFifo (ff_items f ++ [clear s]) (ff_closed f))) as K.
  { intros q' El Hh' Eb Ec En. split; simpl; rewrite ?El; try done.
    - by rewrite map_app, Hi.
    - apply Forall_app. split; [done|by repeat constructor].
    - rewrite Eb, costs_app, Hb. simpl. rewrite cost_setRetained. lia.
    - rewrite costs_app. simpl. rewrite cost_setRetained. lia.
    - by rewrite Ec.
    - intros _. rewrite En, live_nil by done. case_bool_decide; [apply orb_true_r|].
      by rewrite Hn. }
  unfold enqueueLocked. destruct (_ && _ && _) eqn:Ecomp; apply K; try done; simpl; len.
  unfold live. simpl. rewrite drop_app_le; [done|]. unfold zlen in *. lia.
Qed.

Lemma enqueueLocked_spare grow q s n spare :
  forall f,
  queueRel (enqueueLocked grow q s n) f ->
  queueRel (enqueueLocked grow (mkQueue (sq_segments q) (sq_cap q) spare (sq_head q)
     (sq_bytes q) (sq_peak q) (sq_closed q) (sq_burst q) (sq_notify q)) s n) f.
Proof.
  intros f. unfold enqueueLocked, live. simpl.
  destruct (_ && _ && _); intros [Hh Hi Hc Hb Hbd Hcl Hn]; by split.
Qed.

Lemma prepend_rel grow q f s q' :
  queueRel q f -> prepend grow q s = (q', true) -> fifoAdmits f s = true ->
  queueRel q' (mkFifo (clear s :: ff_items f) (ff_closed f)).
Proof.
  intros [Hh Hi Hc Hb Hbd Hcl Hn] E Ha. apply fifoAdmits_bound in Ha.
  rewrite <- Hi, costs_clear in Ha.
  unfold prepend in E. destruct (negb (admits _ _)); [done|].
  set (s' := setRetained s (tcpInboundSegmentMetadata + zlen (sg_payload s))) in *.
  assert (live q' = s' :: live q /\ 0 <= sq_head q' <= zlen (sq_segments q') /\
          sq_bytes q' = sq_bytes q + cost s /\ sq_closed q' = sq_closed q /\
          sq_notify q' = sq_notify q || (sq_head q =? zlen (sq_segments q)))
    as (El & Hh' & Eb & Ec & En).
  { destruct (negb (sq_head q =? 0)) eqn:E0; injection E as <-; simpl.
    - split; [|split; [|done]].
      + unfold live at 1. simpl. rewrite live_insert by lia.
        unfold live. do 2 f_equal. lia.
      + unfold zlen in *. rewrite length_insert. lia.
    - split; [|split; [len|done]].
      unfold live. simpl. replace (sq_head q) with 0 by lia. done. }
  split; simpl; rewrite ?El; try done.
  - simpl. by rewrite Hi.
  - by constructor.
  - rewrite Eb, Hb. subst s'. simpl. rewrite cost_setRetained. lia.
  - subst s'. simpl. rewrite cost_setRetained. lia.
  - by rewrite Ec.
  - intros _. rewrite En, live_nil by done. case_bool_decide; [apply orb_true_r|].
    by rewrite Hn.
Qed.

Lemma dequeue_rel q f :
  queueRel q f ->
  let '(q', r) := dequeue (wake q) in
  match ff_items f with
  | [] => q' = wake q /\ r = None
  | s :: l => r = Some s /\ queueRel q' (mkFifo l (ff_closed f))
  end.
Proof.
  intros [Hh Hi Hc Hb Hbd Hcl Hn]. unfold dequeue. simpl. rewrite live_nil by done.
  case_bool_decide as E0.
  { rewrite E0 in Hi. simpl in Hi. by rewrite <- Hi. }
  destruct (live q) as [|s l] eqn:El; [done|]. simpl in Hi. rewrite <- Hi.
  assert (sq_segments q !! Z.to_nat (sq_head q) = Some s) as Es.
  { apply (f_equal (fun l => l !! 0%nat)) in El. unfold live in El.
    rewrite lookup_drop, Nat.add_0_r in El. done. }
  assert (drop (S (Z.to_nat (sq_head q))) (sq_segments q) = l) as Ed.
  { unfold live in El. rewrite (drop_S _ _ _ Es) in El. by injection El. }
  unfold idx. destruct (0 <=? sq_head q) eqn:E1; [|lia]. rewrite Es.
  set (segs := <[Z.to_nat (sq_head q) := emptySegment]> (sq_segments q)).
  assert (drop (Z.to_nat (sq_head q + 1)) segs = l) as Ed'.
  { rewrite <- Ed. subst segs. replace (Z.to_nat (sq_head q + 1)) with (S (Z.to_nat (sq_head q))) by lia.
    apply drop_insert_lt. lia. }
  assert (zlen segs = zlen (sq_segments q)) as Elen.
  { subst segs. unfold zlen. by rewrite length_insert. }
  assert (sq_head q + 1 <= zlen segs) as Hh'.
  { rewrite Elen. apply lookup_lt_Some in Es. unfold zlen. lia. }
  inversion_clear Hc as [|? ? Hs Hl]. simpl in Hb, Hbd.
  assert (0 <= cost s) by (unfold cost, tcpInboundSegmentMetadata; len).
  assert (forall q', live q' = l -> 0 <= sq_head q' <= zlen (sq_segments q') ->
            sq_bytes q' = sq_bytes q - sg_retainedBytes s -> sq_closed q' = sq_closed q ->
            (l <> [] -> sq_notify q' = true) ->
            queueRel q' (mkFifo (map clear l) (ff_closed f))) as K.
  { intros q' El' Hq Eb Ec En. split; simpl; rewrite ?El'; try done.
    - lia.
    - lia.
    - by rewrite Ec. }
  split; [done|].
  destruct (sq_head q + 1 =? zlen segs) eqn:E2.
  - assert (l = []) as ->. { rewrite <- Ed'. apply drop_ge. unfold zlen in *. lia. }
    destruct (sq_cap q <=? tcpMetadataQueueRetain); apply K; unfold live; simpl; try done; len.
  - destruct (_ && _) eqn:E3; apply K; unfold live; simpl; try done; len.
Qed.

Lemma queue_step_rel grow q f o :
  queueRel q f -> opOk o ->
  queueRel (fst (queueStep grow q o)) (fst (fifoStep f o)) /\
  snd (queueStep grow q o) = snd (fifoStep f o).
Proof.
  intros R Ho. destruct o as [s|s payload|s|cap| |]; simpl.
  - unfold enqueue. rewrite (admits_fifo q f) by done.
    destruct (fifoAdmits f s) eqn:E; simpl; [|done]. split; [|done].
    by apply enqueueLocked_rel.
  - unfold enqueueCopy. simpl in Ho.
    pose proof (admits_fifo q f (setPayload s payload) R) as Ea. simpl in Ea. rewrite Ea.
    destruct (fifoAdmits f (setPayload s payload)) eqn:E; simpl; [|done].
    pose proof (enqueueLocked_rel grow q f (setPayload s payload) R E) as K.
    destruct (zlen payload =? 0) eqn:E0; simpl; (split; [|done]); simpl.
    + apply enqueueLocked_spare.
      assert (payload = []) as -> by (apply zlen_zero; lia).
      specialize (Ho eq_refl).
      assert (setPayload s [] = s) as Es by (destruct s; simpl in *; by subst).
      rewrite Es in K. unfold cost in K. rewrite Ho in K. by rewrite Es.
    + by apply enqueueLocked_spare.
  - destruct (prepend grow q s) as [q' b] eqn:E.
    pose proof (admits_fifo q f s R) as Ea.
    destruct (fifoAdmits f s) eqn:Ef; simpl.
    + assert (b = true) as ->.
      { unfold prepend in E. rewrite Ea in E. simpl in E.
        destruct (negb (sq_head q =? 0)); by injection E. }
      split; [|done]. by eapply prepend_rel.
    + unfold prepend in E. rewrite Ea in E. injection E as <- <-. done.
  - split; [|done]. unfold recyclePayload. destruct (_ || _); [done|].
    destruct (_ && _); [|done]. destruct R; by split.
  - pose proof (dequeue_rel q f R) as H. destruct (dequeue (wake q)) as [q' r]. simpl.
    destruct (ff_items f) as [|x l] eqn:El; [destruct H as [-> ->]|destruct H as [-> H]].
    + split; [|done]. destruct R as [Hh Hi ? ? ? ? ?]. split; try done.
      intros Hl. exfalso. apply Hl. unfold live in *. simpl.
      rewrite El in Hi. by apply map_eq_nil in Hi.
    + by split.
  - split; [|done]. by split.
Qed.

Lemma queue_run_rel grow q f ops :
  queueRel q f -> Forall opOk ops ->
  queueRel (fst (runQueue grow q ops)) (fst (runFifo f ops)) /\
  snd (runQueue grow q ops) = snd (runFifo f ops).
Proof.
  revert q f. induction ops as [|o ops IH]; intros q f R H; [done|].
  inversion_clear H as [|? ? Ho Hops]. simpl.
  pose proof (queue_step_rel grow q f o R Ho) as [R' Eo].
  destruct (queueStep grow q o) as [q' r], (fifoStep f o) as [f' r']. simpl in *.
  destruct (IH q' f' R' Hops) as [R'' Es].
  destruct (runQueue grow q' ops), (runFifo f' ops). simpl in *. by subst.
Qed.

Lemma new_queue_rel : queueRel newTCPSegmentQueue (mkFifo [] false).
Proof. by split. Qed.

(** ** Properties *)

(** C6. The segment queue refines a bounded FIFO: every history of enqueues,
    copies, prepends, actor turns, recycles and closes gives exactly the
    results of the abstract list, whatever growth policy the slices have. *)
Theorem segmentQueue_refines_fifo (grow : Z -> Z) (ops : list queueOp) :
  Forall opOk ops ->
  snd (runQueue grow newTCPSegmentQueue ops) = snd (runFifo (mkFifo [] false) ops).
Proof. intros H. by apply queue_run_rel; [apply new_queue_rel|]. Qed.

Lemma segmentQueue_refines_fifo_witness :
  let s := setPayload emptySegment [1; 2] in
  snd (runQueue (fun n => 2 * n) newTCPSegmentQueue
         [OpEnqueue s; OpEnqueueCopy s [3]; OpPrepend emptySegment; OpTurn; OpTurn; OpTurn; OpTurn])
  = [OutAdmitted true; OutAdmitted true; OutAdmitted true;
     OutSegment (Some emptySegment); OutSegment (Some s);
     OutSegment (Some (setPayload emptySegment [3])); OutSegment None].
Proof.
  intros s. rewrite (segmentQueue_refines_fifo (fun n => 2 * n)); [reflexivity|].
  repeat constructor; simpl; intros; discriminate.
Defined.

(** No wakeup is lost and the byte bound holds: after every history, a
    queue that holds a segment has its token armed, the accounted bytes are
    exactly those of the queued segments and never exceed 32 MiB. *)
Theorem segmentQueue_wakeup_bound (grow : Z -> Z) (ops : list queueOp) :
  Forall opOk ops ->
  let q := fst (runQueue grow newTCPSegmentQueue ops) in
  (queueLen q <> 0 -> sq_notify q = true) /\
  sq_bytes q = costs (live q) /\ 0 <= sq_bytes q <= 33554432.
Proof.
  intros H q.
  destruct (queue_run_rel grow newTCPSegmentQueue (mkFifo [] false) ops) as [R _];
    [apply new_queue_rel|done|].
  fold q in R. destruct R as [Hh Hi Hc Hb Hbd Hcl Hn].
  repeat split; try done.
  - intros Hl. apply Hn. intros E. apply (f_equal length) in E. unfold live in E.
    rewrite length_drop in E. unfold queueLen, zlen in *. simpl in E. lia.
  - rewrite Hb. clear. induction (live q); simpl; [lia|].
    unfold cost, tcpInboundSegmentMetadata. len.
  - rewrite Hb. unfold tcpInboundByteCapacity in Hbd. lia.
Qed.

Lemma segmentQueue_wakeup_bound_witness :
  sq_notify (fst (runQueue (fun n => 2 * n) newTCPSegmentQueue
    [OpEnqueue emptySegment; OpEnqueue emptySegment; OpTurn])) = true.
Proof.
  apply (segmentQueue_wakeup_bound (fun n => 2 * n)
           [OpEnqueue emptySegment; OpEnqueue emptySegment; OpTurn]);
    [repeat constructor|discriminate].
Defined.

(** A prepend does not update [peak]: the diagnostic can lag the occupancy. *)
Lemma prepend_peak_lags :
  let q := fst (prepend (fun n => n) newTCPSegmentQueue emptySegment) in
  sq_peak q < sq_bytes q.
Proof. vm_compute. reflexivity. Qed.
