(* ===== verification/ByteBuffers.v ===== *)
(** * The byte deques of a TCP connection

    [tcpReadBuffer] (received chunks waiting for the application) and
    [tcpSendBuffer] (immutable chunks addressed by stream offset, with the
    scatter view of one segment), each refined to the byte sequence it holds. *)

From S2P Require Import Prelude.

(** ** Read buffer *)

(** [rb_cap] is [cap(b.chunks)]; a released slot holds the nil slice. *)
Record tcpReadBuffer := mkReadBuffer {
  rb_chunks : list (list Z);
  rb_cap : Z;
  rb_head : Z;
  rb_size : Z }.

Definition emptyReadBuffer : tcpReadBuffer := mkReadBuffer [] 0 0 0.

Definition tcpReadChunkRetain : Z := 64.

(** [tcpReadBuffer.append]. *)
Definition rb_append (grow : Z -> Z) (b : tcpReadBuffer) (payload : list Z) : tcpReadBuffer :=
  if zlen payload =? 0 then b
  else
    let '(chunks, head) :=
      if negb (rb_head b =? 0) && (zlen (rb_chunks b) =? rb_cap b)
      then (drop (Z.to_nat (rb_head b)) (rb_chunks b), 0) else (rb_chunks b, rb_head b) in
    mkReadBuffer (chunks ++ [payload]) (appendCap grow (zlen chunks) (rb_cap b)) head
                 (rb_size b + zlen payload).

(** [tcpReadBuffer.reset]. *)
Definition rb_reset (b : tcpReadBuffer) : tcpReadBuffer :=
  mkReadBuffer [] (if tcpReadChunkRetain <? rb_cap b then 0 else rb_cap b) 0 0.

(** The loop of [read]: the state is the buffer, the bytes written so far and
    the chunks handed to [recycle]. *)
Definition rb_readBody (maximum : Z) (s : tcpReadBuffer * list Z * list (list Z))
    : option ((tcpReadBuffer * list Z * list (list Z)) + (tcpReadBuffer * list Z * list (list Z))) :=
  let '(b, written, recycled) := s in
  if zlen written <? maximum then
    chunk ← idx (rb_chunks b) (rb_head b);
    let n := Z.min (maximum - zlen written) (zlen chunk) in
    let written := written ++ take (Z.to_nat n) chunk in
    let size := rb_size b - n in
    if n =? zlen chunk
    then Some (inl (mkReadBuffer (<[Z.to_nat (rb_head b) := []]> (rb_chunks b)) (rb_cap b)
                                 (rb_head b + 1) size, written, recycled ++ [chunk]))
    else Some (inl (mkReadBuffer (<[Z.to_nat (rb_head b) := drop (Z.to_nat n) chunk]> (rb_chunks b))
                                 (rb_cap b) (rb_head b) size, written, recycled))
  else Some (inr s).

(** [tcpReadBuffer.read] into a destination of [destination] bytes: the buffer,
    the bytes copied and the chunks recycled. *)
Definition rb_read (b : tcpReadBuffer) (destination maximum : Z)
    : option (tcpReadBuffer * list Z * list (list Z)) :=
  let maximum := if destination <? maximum then destination else maximum in
  let maximum := if rb_size b <? maximum then rb_size b else maximum in
  '(b', written, recycled) ← loop (S (S (length (rb_chunks b)))) (rb_readBody maximum) (b, [], []);
  Some (if rb_size b' =? 0 then rb_reset b' else b', written, recycled).

(** [tcpReadBuffer.take]: the chunk prefix and whether it is a whole chunk. *)
Definition rb_take (b : tcpReadBuffer) (maximum : Z) : option (tcpReadBuffer * list Z * bool) :=
  chunk ← idx (rb_chunks b) (rb_head b);
  let complete := zlen chunk <=? maximum in
  part ← (if maximum <? zlen chunk then slice chunk 0 maximum else Some chunk);
  let size := rb_size b - zlen part in
  let b' :=
    if zlen part =? zlen chunk
    then mkReadBuffer (<[Z.to_nat (rb_head b) := []]> (rb_chunks b)) (rb_cap b) (rb_head b + 1) size
    else mkReadBuffer (<[Z.to_nat (rb_head b) := drop (length part) chunk]> (rb_chunks b))
                      (rb_cap b) (rb_head b) size in
  Some (if rb_size b' =? 0 then rb_reset b' else b', part, complete).

(** ** Send buffer *)

Definition tcpSendCapacity : Z := 256 * 1024.
Definition tcpSendChunkInitial : Z := 2 * 1024.
Definition tcpSendChunkMinimum : Z := 16 * 1024.
Definition tcpSendChunkMaximum : Z := tcpSendCapacity.
Definition tcpReusableSendChunkLimit : Z := 32 * 1024.
Definition tcpPayloadViewMaximumChunks : Z := 5.

Record tcpSendChunk := mkSendChunk {
  sc_storage : list Z;
  sc_start : Z;
  sc_end : Z;
  sc_streamStart : Z }.

Inductive tcpSendReusable :=
| tcpSendReusableUnseen | tcpSendReusableReleased | tcpSendReusableConfirmed.
#[global] Instance tcpSendReusable_eq : EqDecision tcpSendReusable.
Proof. solve_decision. Defined.

(** A storage slice always spans its whole backing, so its length is its
    capacity; [sb_spare] holds the backing of the retained empty slice. *)
Record tcpSendBuffer := mkSendBuffer {
  sb_chunks : list tcpSendChunk;
  sb_spare : option (list Z);
  sb_base : Z;
  sb_end : Z;
  sb_size : Z;
  sb_reusable : tcpSendReusable }.

Definition emptySendBuffer : tcpSendBuffer :=
  mkSendBuffer [] None 0 0 0 tcpSendReusableUnseen.

Record tcpPayloadView := mkView { vw_chunks : list (list Z); vw_size : Z }.

Definition emptyView : tcpPayloadView := mkView [] 0.

Definition setBytes (payload : list Z) : tcpPayloadView :=
  if negb (zlen payload =? 0) then mkView [payload] (zlen payload) else emptyView.

(** [copyTo]: the bytes written to a destination of [destination] bytes. *)
Definition copyTo (v : tcpPayloadView) (destination : Z) : list Z :=
  take (Z.to_nat destination) (concat (vw_chunks v)).

(** The capacity of a new chunk for a payload of [length] bytes. *)
Definition chunkCapacity (empty : bool) (length : Z) : Z :=
  if empty && (length <? tcpSendChunkMinimum)
  then (if length <? tcpSendChunkInitial then tcpSendChunkInitial else length)
  else if length <? tcpSendChunkMinimum then tcpSendChunkMinimum
  else if tcpSendChunkMaximum <? length then tcpSendChunkMaximum else length.

(** [b.spare != nil && (len(b.chunks) == 0 || cap(b.spare) >= minimum)]. *)
Definition takeSpare (b : tcpSendBuffer) : option (list Z) * option (list Z) :=
  match sb_spare b with
  | Some spare =>
      if (zlen (sb_chunks b) =? 0) || (tcpSendChunkMinimum <=? zlen spare)
      then (Some spare, None) else (None, Some spare)
  | None => (None, None)
  end.

Definition newSendChunk (b : tcpSendBuffer) (length : Z) : tcpSendBuffer :=
  let capacity := chunkCapacity (zlen (sb_chunks b) =? 0) length in
  let '(taken, spare) := takeSpare b in
  let fresh := (replicate (Z.to_nat capacity) 0,
    if (tcpSendChunkInitial <? capacity) && (capacity <=? tcpReusableSendChunkLimit)
       && bool_decide (sb_reusable b = tcpSendReusableReleased)
    then tcpSendReusableConfirmed else sb_reusable b) in
  let '(storage, reusable) :=
    match taken with
    | Some storage => if zlen storage =? 0 then fresh else (storage, sb_reusable b)
    | None => fresh
    end in
  mkSendBuffer (sb_chunks b ++ [mkSendChunk storage 0 0 (sb_end b)]) spare
               (sb_base b) (sb_end b) (sb_size b) reusable.

(** One iteration of the loop of [tcpSendBuffer.append]. *)
Definition sb_appendBody (s : tcpSendBuffer * list Z)
    : option ((tcpSendBuffer * list Z) + tcpSendBuffer) :=
  let '(b, payload) := s in
  if zlen payload =? 0 then Some (inr b)
  else
    let b :=
      match list.last (sb_chunks b) with
      | None => newSendChunk b (zlen payload)
      | Some c => if sc_end c =? zlen (sc_storage c) then newSendChunk b (zlen payload) else b
      end in
    chunk ← list.last (sb_chunks b);
    let written := Z.min (zlen (sc_storage chunk) - sc_end chunk) (zlen payload) in
    storage ← splice (sc_storage chunk) (sc_end chunk) (take (Z.to_nat written) payload);
    let chunk := mkSendChunk storage (sc_start chunk) (sc_end chunk + written)
                             (sc_streamStart chunk) in
    let chunks := <[(length (sb_chunks b) - 1)%nat := chunk]> (sb_chunks b) in
    Some (inl (mkSendBuffer chunks (sb_spare b) (sb_base b) (u64 (sb_end b + written))
                            (sb_size b + written) (sb_reusable b),
               drop (Z.to_nat written) payload)).

Definition sb_append (b : tcpSendBuffer) (payload : list Z) : option tcpSendBuffer :=
  loop (S (length payload)) sb_appendBody (b, payload).

(** The binary search of [view] for the chunk that holds [target]. *)
Definition sb_searchBody (chunks : list tcpSendChunk) (target : Z) (s : Z * Z)
    : option ((Z * Z) + Z) :=
  let '(low, high) := s in
  if low <? high then
    let middle := (low + high) / 2 in
    chunk ← idx chunks middle;
    Some (inl (if u64 (sc_streamStart chunk + (sc_end chunk - sc_start chunk)) <=? target
               then (middle + 1, high) else (low, middle)))
  else Some (inr low).

Definition sb_search (chunks : list tcpSendChunk) (target : Z) : option Z :=
  loop (S (length chunks)) (sb_searchBody chunks target) (0, zlen chunks).

(** The gathering loop of [view] over the chunks from the one found. *)
Fixpoint sb_gather (first : bool) (target : Z) (chunks : list tcpSendChunk)
    (remaining : Z) (v : tcpPayloadView) : option tcpPayloadView :=
  match chunks with
  | [] => Some v
  | chunk :: chunks =>
      if remaining =? 0 then Some v
      else
        let start := if first then sc_start chunk + u64 (target - sc_streamStart chunk)
                     else sc_start chunk in
        let size := sc_end chunk - start in
        let size := if remaining <? size then remaining else size in
        if size =? 0 then sb_gather false target chunks remaining v
        else if zlen (vw_chunks v) =? tcpPayloadViewMaximumChunks then None
        else
          piece ← slice (sc_storage chunk) start (start + size);
          sb_gather false target chunks (remaining - size)
            (mkView (vw_chunks v ++ [piece]) (vw_size v + size))
  end.

(** [tcpSendBuffer.view]: the total and the view; [None] is the scatter panic. *)
Definition sb_view (b : tcpSendBuffer) (offset maximum : Z) : option (Z * tcpPayloadView) :=
  let total := sb_size b in
  if (offset <? 0) || (total <=? offset) || (maximum <=? 0) then Some (total, emptyView)
  else
    let wanted := if total - offset <? maximum then total - offset else maximum in
    let target := u64 (sb_base b + offset) in
    low ← sb_search (sb_chunks b) target;
    v ← sb_gather true target (drop (Z.to_nat low) (sb_chunks b)) wanted emptyView;
    Some (total, v).

(** The loop of [acknowledge]: chunks, spare and reuse state. *)
Fixpoint sb_ackLoop (remaining : Z) (chunks : list tcpSendChunk)
    (spare : option (list Z)) (reusable : tcpSendReusable)
    : list tcpSendChunk * option (list Z) * tcpSendReusable :=
  match chunks with
  | [] => ([], spare, reusable)
  | chunk :: rest =>
      if remaining =? 0 then (chunks, spare, reusable)
      else
        let available := sc_end chunk - sc_start chunk in
        if remaining <? available
        then (mkSendChunk (sc_storage chunk) (sc_start chunk + remaining) (sc_end chunk)
                          (u64 (sc_streamStart chunk + remaining)) :: rest, spare, reusable)
        else
          let capacity := zlen (sc_storage chunk) in
          let spareCap := match spare with Some s => zlen s | None => 0 end in
          let '(spare, reusable) :=
            if (capacity <=? tcpSendChunkInitial)
               || ((capacity <=? tcpReusableSendChunkLimit)
                   && bool_decide (reusable = tcpSendReusableConfirmed))
            then (if spareCap <? capacity then Some (sc_storage chunk) else spare, reusable)
            else if (capacity <=? tcpReusableSendChunkLimit)
                    && bool_decide (reusable = tcpSendReusableUnseen)
            then (spare, tcpSendReusableReleased) else (spare, reusable) in
          sb_ackLoop (remaining - available) rest spare reusable
  end.

Definition sb_acknowledge (b : tcpSendBuffer) (size : Z) : tcpSendBuffer :=
  let size := if sb_size b <? size then sb_size b else size in
  if size <=? 0 then b
  else
    let '(chunks, spare, reusable) :=
      sb_ackLoop size (sb_chunks b) (sb_spare b) (sb_reusable b) in
    let base := u64 (sb_base b + size) in
    if zlen chunks =? 0
    then mkSendBuffer chunks spare 0 0 (sb_size b - size) reusable
    else mkSendBuffer chunks spare base (sb_end b) (sb_size b - size) reusable.

(** ** Specification: the byte sequence held *)

Definition rb_bytes (b : tcpReadBuffer) : list Z :=
  concat (drop (Z.to_nat (rb_head b)) (rb_chunks b)).

Record readBufferOk (b : tcpReadBuffer) : Prop := {
  rbo_head : 0 <= rb_head b <= zlen (rb_chunks b);
  rbo_size : rb_size b = zlen (rb_bytes b);
  rbo_chunks : Forall (fun c => c <> []) (drop (Z.to_nat (rb_head b)) (rb_chunks b)) }.

Definition sc_bytes (c : tcpSendChunk) : list Z :=
  take (Z.to_nat (sc_end c - sc_start c)) (drop (Z.to_nat (sc_start c)) (sc_storage c)).

Definition chunks_bytes (cs : list tcpSendChunk) : list Z := concat (map sc_bytes cs).

Definition sb_bytes (b : tcpSendBuffer) : list Z := chunks_bytes (sb_chunks b).

(** Chunks hold consecutive nonempty ranges of the stream from [pos] to
    [stop]; every chunk but the first is packed from the start of a backing of
    at least 16 KiB, and every chunk but the last is full. *)
Fixpoint chunksOk (first : bool) (pos : Z) (cs : list tcpSendChunk) (stop : Z) : Prop :=
  match cs with
  | [] => pos = stop
  | c :: cs =>
      0 <= sc_start c < sc_end c /\ sc_end c <= zlen (sc_storage c) /\
      sc_streamStart c = pos /\
      (first = false -> sc_start c = 0 /\ tcpSendChunkMinimum <= zlen (sc_storage c)) /\
      (cs <> [] -> sc_end c = zlen (sc_storage c)) /\
      chunksOk false (pos + (sc_end c - sc_start c)) cs stop
  end.

Record sendBufferOk (b : tcpSendBuffer) : Prop := {
  sbo_base : 0 <= sb_base b;
  sbo_end : sb_base b + sb_size b = sb_end b;
  sbo_size : 0 <= sb_size b;
  sbo_wrap : is_u64 (sb_end b);
  sbo_chunks : chunksOk true (sb_base b) (sb_chunks b) (sb_end b);
  sbo_spare : forall s, sb_spare b = Some s -> 0 < zlen s }.

(** ** Lemmas: read buffer *)

Lemma drop_insert_same {A} (l : list A) n x c k :
  drop n l = c :: k -> drop n (<[n := x]> l) = x :: k.
Proof.
  intros E. rewrite drop_insert_ge, E, Nat.sub_diag by lia. done.
Qed.

Lemma drop_insert_next {A} (l : list A) n x c k :
  drop n l = c :: k -> drop (S n) (<[n := x]> l) = k.
Proof.
  intros E. rewrite drop_insert_lt by lia. rewrite <- Nat.add_1_r, <- drop_drop, E. done.
Qed.

Lemma idx_drop {A} (l : list A) i c k :
  0 <= i -> drop (Z.to_nat i) l = c :: k -> idx l i = Some c.
Proof.
  intros Hi E. unfold idx. destruct (0 <=? i) eqn:?; [|lia].
  rewrite <- (Nat.add_0_r (Z.to_nat i)), <- lookup_drop, E. done.
Qed.

Lemma drop_cons_len {A} (l : list A) i c k :
  0 <= i -> drop (Z.to_nat i) l = c :: k -> i + 1 <= zlen l.
Proof.
  intros Hi E. apply (f_equal length) in E. rewrite length_drop in E.
  simpl in E. unfold zlen. lia.
Qed.

Lemma zlen_insert {A} (l : list A) i x : zlen (<[i := x]> l) = zlen l.
Proof. unfold zlen. by rewrite length_insert. Qed.
#[export] Hint Rewrite @zlen_insert : zlen.

(** Consuming [n] bytes of the head chunk. *)
Lemma rb_consume b c k n :
  readBufferOk b -> drop (Z.to_nat (rb_head b)) (rb_chunks b) = c :: k -> 0 <= n <= zlen c ->
  let b' := if n =? zlen c
    then mkReadBuffer (<[Z.to_nat (rb_head b) := []]> (rb_chunks b)) (rb_cap b)
                      (rb_head b + 1) (rb_size b - n)
    else mkReadBuffer (<[Z.to_nat (rb_head b) := drop (Z.to_nat n) c]> (rb_chunks b))
                      (rb_cap b) (rb_head b) (rb_size b - n) in
  readBufferOk b' /\ take (Z.to_nat n) c ++ rb_bytes b' = rb_bytes b.
Proof.
  intros [Hh Hs Hc] E Hn b'.
  pose proof (drop_cons_len _ _ _ _ (proj1 Hh) E) as Hlen.
  assert (rb_bytes b = c ++ concat k) as Eb by (unfold rb_bytes; by rewrite E).
  rewrite E in Hc. inversion_clear Hc as [|? ? Hc0 Hk].
  rewrite Eb in *. autorewrite with zlen in Hs. subst b'. destruct (n =? zlen c) eqn:En.
  - assert (drop (Z.to_nat (rb_head b + 1)) (<[Z.to_nat (rb_head b) := []]> (rb_chunks b)) = k) as Ed.
    { replace (Z.to_nat (rb_head b + 1)) with (S (Z.to_nat (rb_head b))) by lia.
      by eapply drop_insert_next. }
    split; [split; unfold rb_bytes; simpl; rewrite ?Ed; len; done|].
    unfold rb_bytes. simpl. rewrite Ed, take_ge; [done|]. unfold zlen in *. lia.
  - pose proof (drop_insert_same _ _ (drop (Z.to_nat n) c) _ _ E) as Ed.
    split; [split; unfold rb_bytes; simpl; rewrite ?Ed; simpl; len|].
    + constructor; [|done]. intros E0. apply (f_equal length) in E0.
      rewrite length_drop in E0. unfold zlen in *. simpl in E0. lia.
    + unfold rb_bytes. simpl. rewrite Ed. simpl. by rewrite app_assoc, take_drop.
Qed.

Lemma rb_nonempty b :
  readBufferOk b -> 0 < rb_size b ->
  exists c k, drop (Z.to_nat (rb_head b)) (rb_chunks b) = c :: k.
Proof.
  intros [Hh Hs Hc] H. unfold rb_bytes in Hs.
  destruct (drop _ _) as [|c k]; [|eauto]. simpl in Hs. unfold zlen in Hs. simpl in Hs. lia.
Qed.

Lemma rb_reset_ok b : readBufferOk (rb_reset b) /\ rb_bytes (rb_reset b) = [].
Proof. split; [|done]. by split. Qed.

Lemma rb_finish_ok b :
  readBufferOk b ->
  let b' := if rb_size b =? 0 then rb_reset b else b in
  readBufferOk b' /\ rb_bytes b' = rb_bytes b.
Proof.
  intros Hb b'. subst b'. destruct (rb_size b =? 0) eqn:E; [|done].
  split; [apply rb_reset_ok|]. destruct Hb as [_ Hs _].
  rewrite (proj2 (rb_reset_ok b)). symmetry. apply zlen_zero. lia.
Qed.

Lemma rb_append_ok grow b payload :
  readBufferOk b ->
  readBufferOk (rb_append grow b payload) /\
  rb_bytes (rb_append grow b payload) = rb_bytes b ++ payload.
Proof.
  intros [Hh Hs Hc]. unfold rb_append. destruct (zlen payload =? 0) eqn:E0.
  { assert (payload = []) as -> by (apply zlen_zero; lia). by rewrite app_nil_r. }
  assert (payload <> []) as Hp by (intros ->; done).
  assert (forall chunks head cap, 0 <= head <= zlen chunks ->
    drop (Z.to_nat head) chunks = drop (Z.to_nat (rb_head b)) (rb_chunks b) ->
    let b' := mkReadBuffer (chunks ++ [payload]) cap head (rb_size b + zlen payload) in
    readBufferOk b' /\ rb_bytes b' = rb_bytes b ++ payload) as K.
  { intros chunks head cap Hh' E b'.
    assert (drop (Z.to_nat head) (chunks ++ [payload])
            = drop (Z.to_nat (rb_head b)) (rb_chunks b) ++ [payload]) as Ed.
    { rewrite drop_app_le, E by (unfold zlen in *; lia). done. }
    assert (rb_bytes b' = rb_bytes b ++ payload) as Eb.
    { unfold rb_bytes. simpl. rewrite Ed, concat_app. simpl. by rewrite app_nil_r. }
    split; [|done]. split; rewrite ?Eb; simpl; len.
    rewrite Ed. apply Forall_app. split; [done|by repeat constructor]. }
  destruct (_ && _); apply K; len; done.
Qed.

Lemma rb_read_ok b destination maximum :
  readBufferOk b -> 0 <= destination -> 0 <= maximum ->
  exists b' recycled,
    let n := Z.min (Z.min destination maximum) (zlen (rb_bytes b)) in
    rb_read b destination maximum = Some (b', take (Z.to_nat n) (rb_bytes b), recycled) /\
    readBufferOk b' /\ rb_bytes b' = drop (Z.to_nat n) (rb_bytes b).
Proof.
  intros Hb Hd Hm. set (n := Z.min (Z.min destination maximum) (zlen (rb_bytes b))).
  assert (0 <= n) by (subst n; len).
  unfold rb_read. rewrite (rbo_size b Hb).
  match goal with |- context [rb_readBody ?m] => replace m with n by (subst n; split_ifs; lia) end.
  destruct (loop_total
    (fun s : tcpReadBuffer * list Z * list (list Z) => let '(b', w, _) := s in
       readBufferOk b' /\ w ++ rb_bytes b' = rb_bytes b /\ zlen w <= n)
    (fun s => let '(b', w, _) := s in
       if zlen w <? n then S (length (drop (Z.to_nat (rb_head b')) (rb_chunks b'))) else O)
    (fun s => let '(b', w, _) := s in
       readBufferOk b' /\ w ++ rb_bytes b' = rb_bytes b /\ zlen w = n)
    (rb_readBody n)) with (fuel := S (S (length (rb_chunks b)))) (s := (b, @nil Z, @nil (list Z)))
    as ([[b1 w1] r1] & E & Hb1 & Ew & En).
  - intros [[b' w] r] (Hb' & Ew & Hw). unfold rb_readBody.
    destruct (zlen w <? n) eqn:El; [|exists (inr (b', w, r)); repeat split; try done; apply Hb' || lia].
    assert (0 < rb_size b') as Hpos.
    { apply (f_equal zlen) in Ew. rewrite zlen_app in Ew. rewrite (rbo_size b' Hb'). lia. }
    destruct (rb_nonempty b' Hb' Hpos) as (c & k & Ec).
    rewrite (idx_drop _ _ _ _ (proj1 (rbo_head b' Hb')) Ec). simpl.
    set (m := Z.min (n - zlen w) (zlen c)).
    assert (0 <= m <= zlen c) as Hmc by (subst m; len).
    destruct (rb_consume b' c k m Hb' Ec Hmc) as [Hok Eb].
    assert (zlen (take (Z.to_nat m) c) = m) as Et by len.
    destruct (m =? zlen c) eqn:Em; eexists; (split; [done|]).
    + split; [split; [done|split; [by rewrite <- app_assoc, Eb|len]]|].
      rewrite Ec. simpl.
      replace (Z.to_nat (rb_head b' + 1)) with (S (Z.to_nat (rb_head b')))
        by (pose proof (rbo_head b' Hb'); lia).
      rewrite (drop_insert_next _ _ _ _ _ Ec). split_ifs; lia.
    + split; [split; [done|split; [by rewrite <- app_assoc, Eb|len]]|].
      rewrite zlen_app, Et.
      replace (zlen w + m <? n) with false by (subst m; lia). lia.
  - repeat split; try done; apply Hb.
  - simpl. rewrite length_drop. split_ifs; lia.
  - rewrite E. simpl. destruct (rb_finish_ok b1 Hb1) as [Hok Ebytes].
    eexists _, r1. split; [|split; [exact Hok|]].
    + rewrite <- Ew, <- En. rewrite take_app_length' by (unfold zlen; lia). done.
    + rewrite Ebytes, <- Ew, <- En. by rewrite drop_app_length' by (unfold zlen; lia).
Qed.

(** ** Lemmas: send chunks *)

Definition chunkFull (c : tcpSendChunk) : Prop := sc_end c = zlen (sc_storage c).

Definition chunkOk (first : bool) (c : tcpSendChunk) : Prop :=
  0 <= sc_start c < sc_end c /\ sc_end c <= zlen (sc_storage c) /\
  (first = false -> sc_start c = 0 /\ tcpSendChunkMinimum <= zlen (sc_storage c)).

Lemma zlen_sc_bytes first c : chunkOk first c -> zlen (sc_bytes c) = sc_end c - sc_start c.
Proof. intros (? & ? & _). unfold sc_bytes. len. Qed.

Lemma chunksOk_cons first pos c cs stop :
  chunksOk first pos (c :: cs) stop <->
  chunkOk first c /\ sc_streamStart c = pos /\ (cs <> [] -> chunkFull c) /\
  chunksOk false (pos + zlen (sc_bytes c)) cs stop.
Proof.
  simpl. unfold chunkOk, chunkFull. split.
  - intros (Hs & Hl & Hp & Hf & Hfull & Hr). repeat split; try lia; try apply Hf; try done.
    rewrite (zlen_sc_bytes first) by done. done.
  - intros ((Hs & Hl & Hf) & Hp & Hfull & Hr).
    rewrite (zlen_sc_bytes first) in Hr by done. repeat split; try lia; try apply Hf; done.
Qed.

Lemma chunks_bytes_app cs ds : chunks_bytes (cs ++ ds) = chunks_bytes cs ++ chunks_bytes ds.
Proof. unfold chunks_bytes. by rewrite map_app, concat_app. Qed.

Lemma chunks_bytes_cons c cs : chunks_bytes (c :: cs) = sc_bytes c ++ chunks_bytes cs.
Proof. done. Qed.

Lemma chunks_bytes_one c : chunks_bytes [c] = sc_bytes c.
Proof. apply app_nil_r. Qed.

Lemma chunksOk_len first pos cs stop :
  chunksOk first pos cs stop -> pos + zlen (chunks_bytes cs) = stop.
Proof.
  revert first pos. induction cs as [|c cs IH]; intros first pos H.
  - simpl in H. rewrite H. unfold chunks_bytes. simpl. len.
  - apply chunksOk_cons in H as (_ & _ & _ & Hr). apply IH in Hr.
    rewrite chunks_bytes_cons. len.
Qed.

Lemma chunksOk_weaken pos cs stop : chunksOk false pos cs stop -> chunksOk true pos cs stop.
Proof.
  destruct cs; [done|]. rewrite !chunksOk_cons. intros ((? & ? & ?) & ? & ? & ?).
  repeat split; try done; lia.
Qed.

Lemma chunksOk_snoc first pos cs c stop :
  chunksOk first pos (cs ++ [c]) stop <->
  Forall chunkFull cs /\ chunksOk first pos cs (sc_streamStart c) /\
  chunkOk (first && bool_decide (cs = [])) c /\
  stop = sc_streamStart c + zlen (sc_bytes c).
Proof.
  revert first pos. induction cs as [|d cs IH]; intros first pos.
  - simpl app. rewrite chunksOk_cons. simpl. rewrite andb_true_r.
    generalize (chunkOk first c). intros P. split.
    + intros (Ho & Hs & _ & He). subst. by repeat split.
    + intros (_ & Hs & Ho & He). subst. by repeat split.
  - rewrite <- app_comm_cons, !chunksOk_cons, IH, Forall_cons_iff, andb_false_r. simpl.
    assert (cs ++ [c] <> []) as Hne by by destruct cs.
    generalize (chunkOk false c) (chunkOk first d). intros P Q. tauto.
Qed.

(** Everything before the chunk that holds a position. *)
Lemma chunksOk_split first pos a c k stop :
  chunksOk first pos (a ++ c :: k) stop ->
  sc_streamStart c = pos + zlen (chunks_bytes a) /\
  chunksOk (first && bool_decide (a = [])) (pos + zlen (chunks_bytes a)) (c :: k) stop.
Proof.
  revert first pos. induction a as [|d a IH]; intros first pos H.
  - simpl app in H. unfold chunks_bytes. simpl concat. rewrite andb_true_r. 
    autorewrite with zlen. rewrite Z.add_0_r. split; [|done].
    apply chunksOk_cons in H as (_ & H & _). done.
  - rewrite <- app_comm_cons in H. apply chunksOk_cons in H as (_ & _ & _ & H).
    apply IH in H. rewrite chunks_bytes_cons, zlen_app, Z.add_assoc. simpl.
    rewrite andb_false_r. done.
Qed.

(** ** Lemmas: appending to the send buffer *)

(** The last chunk has room: what one loop iteration of [append] writes to. *)
Record writable (b : tcpSendBuffer) (cs : list tcpSendChunk) (c : tcpSendChunk) : Prop := {
  wr_chunks : sb_chunks b = cs ++ [c];
  wr_full : Forall chunkFull cs;
  wr_ok : chunksOk true (sb_base b) cs (sc_streamStart c);
  wr_room : 0 <= sc_start c <= sc_end c /\ sc_end c < zlen (sc_storage c);
  wr_packed : cs <> [] -> sc_start c = 0 /\ tcpSendChunkMinimum <= zlen (sc_storage c);
  wr_end : sc_streamStart c + (sc_end c - sc_start c) = sb_end b }.

Lemma chunkCapacity_bounds empty n :
  0 < n -> 0 < chunkCapacity empty n /\
  (empty = false -> tcpSendChunkMinimum <= chunkCapacity empty n).
Proof.
  intros H. unfold chunkCapacity, tcpSendChunkMaximum, tcpSendCapacity,
    tcpSendChunkMinimum, tcpSendChunkInitial.
  destruct empty; simpl; split_ifs; split; lia.
Qed.

Lemma zlen_replicate {A} n (x : A) : 0 <= n -> zlen (replicate (Z.to_nat n) x) = n.
Proof. intros. unfold zlen. rewrite length_replicate. lia. Qed.

Lemma zlen_eqb_nil {A} (l : list A) : (zlen l =? 0) = bool_decide (l = []).
Proof.
  apply eq_true_iff_eq. rewrite bool_decide_eq_true, Z.eqb_eq.
  split; [apply zlen_zero|by intros ->].
Qed.

Lemma newSendChunk_writable b n :
  sendBufferOk b -> Forall chunkFull (sb_chunks b) -> 0 < n ->
  let b' := newSendChunk b n in
  exists c, writable b' (sb_chunks b) c /\ sc_bytes c = [] /\
    sb_base b' = sb_base b /\ sb_end b' = sb_end b /\ sb_size b' = sb_size b /\
    (forall s, sb_spare b' = Some s -> 0 < zlen s).
Proof.
  intros [Hb He Hs Hw Hc Hsp] Hfull Hn b'. subst b'. unfold newSendChunk.
  rewrite zlen_eqb_nil.
  destruct (chunkCapacity_bounds (bool_decide (sb_chunks b = [])) n Hn) as [Hpos Hmin].
  set (capacity := chunkCapacity _ n) in *.
  assert (forall st spare reusable, 0 < zlen st ->
    (sb_chunks b <> [] -> tcpSendChunkMinimum <= zlen st) ->
    (forall s, spare = Some s -> 0 < zlen s) ->
    let b' := mkSendBuffer (sb_chunks b ++ [mkSendChunk st 0 0 (sb_end b)]) spare
                           (sb_base b) (sb_end b) (sb_size b) reusable in
    exists c, writable b' (sb_chunks b) c /\ sc_bytes c = [] /\
      sb_base b' = sb_base b /\ sb_end b' = sb_end b /\ sb_size b' = sb_size b /\
      (forall s, sb_spare b' = Some s -> 0 < zlen s)) as K.
  { intros st spare reusable Hst Hm Hspare b'. eexists.
    split; [split; [done|done|done|idtac|by auto|idtac]|by repeat split]. all: simpl; lia. }
  assert (0 < zlen (replicate (Z.to_nat capacity) 0)) as Hfresh
    by (rewrite zlen_replicate; lia).
  assert (sb_chunks b <> [] -> tcpSendChunkMinimum <= zlen (replicate (Z.to_nat capacity) 0)) as Hfm.
  { intros Hne. rewrite zlen_replicate by lia. apply Hmin. by apply bool_decide_eq_false. }
  unfold takeSpare. rewrite zlen_eqb_nil. destruct (sb_spare b) as [sp|] eqn:Esp.
  - destruct (bool_decide (sb_chunks b = []) || _) eqn:Eu.
    + specialize (Hsp sp eq_refl). destruct (zlen sp =? 0) eqn:E0; [lia|].
      apply K; [done| |by intros]. intros Hne. apply orb_true_iff in Eu as [Eu|Eu].
      * by apply bool_decide_eq_true in Eu.
      * lia.
    + by apply K.
  - by apply K.
Qed.

Lemma prepare_writable b n :
  sendBufferOk b -> 0 < n ->
  let b' := match list.last (sb_chunks b) with
            | None => newSendChunk b n
            | Some c => if sc_end c =? zlen (sc_storage c) then newSendChunk b n else b
            end in
  exists cs c, writable b' cs c /\ chunks_bytes (cs ++ [c]) = sb_bytes b /\
    sb_base b' = sb_base b /\ sb_end b' = sb_end b /\ sb_size b' = sb_size b /\
    (forall s, sb_spare b' = Some s -> 0 < zlen s).
Proof.
  intros Hb Hn b'.
  assert (Forall chunkFull (sb_chunks b) -> b' = newSendChunk b n ->
    exists cs c, writable b' cs c /\ chunks_bytes (cs ++ [c]) = sb_bytes b /\
    sb_base b' = sb_base b /\ sb_end b' = sb_end b /\ sb_size b' = sb_size b /\
    (forall s, sb_spare b' = Some s -> 0 < zlen s)) as K.
  { intros Hf ->. destruct (newSendChunk_writable b n Hb Hf Hn) as (c & Hw & Ec & Hrest).
    exists (sb_chunks b), c. split; [done|split; [|done]].
    rewrite chunks_bytes_app. unfold chunks_bytes at 2. simpl. by rewrite Ec, !app_nil_r. }
  destruct (sb_chunks b) as [|c0 cs0 _] eqn:E using rev_ind; [by apply K|].
  subst b'. rewrite last_snoc in *.
  pose proof (sbo_chunks b Hb) as Hc. rewrite E in Hc.
  apply chunksOk_snoc in Hc as (Hf & Hc & Ho & He).
  destruct (sc_end c0 =? zlen (sc_storage c0)) eqn:Efull.
  - apply K; [|done]. apply Forall_app. split; [done|]. constructor; [|done].
    unfold chunkFull. lia.
  - exists cs0, c0. unfold sb_bytes. rewrite E.
    rewrite (zlen_sc_bytes _ _ Ho) in He. destruct Ho as (Ho1 & Ho2 & Ho3).
    split; [|split; [done|repeat split; apply Hb]].
    split; try done; try lia. intros Hne. apply Ho3. rewrite bool_decide_eq_false_2 by done. done.
Qed.

(** Writing [w] bytes at the end of the last chunk. *)
Lemma fill_bytes c w storage :
  0 <= sc_start c <= sc_end c -> splice (sc_storage c) (sc_end c) w = Some storage ->
  zlen storage = zlen (sc_storage c) /\
  sc_bytes (mkSendChunk storage (sc_start c) (sc_end c + zlen w) (sc_streamStart c))
  = sc_bytes c ++ w.
Proof.
  intros Hs E. unfold splice in E. destruct (_ && _) eqn:Eb; [|done].
  injection E as <-. len_facts. split.
  - len. unfold zlen in *. lia.
  - unfold sc_bytes. simpl.
    rewrite app_assoc, drop_app_le
      by (rewrite !length_app, length_take; unfold zlen in *; lia).
    rewrite take_app_le by (rewrite length_drop, length_app, length_take; unfold zlen in *; lia).
    rewrite drop_app_le by (rewrite length_take; unfold zlen in *; lia).
    rewrite take_ge by (rewrite length_app, length_drop, length_take; unfold zlen in *; lia).
    f_equal. rewrite take_drop_commute. do 2 f_equal. lia.
Qed.

Lemma sb_append_ok b payload :
  sendBufferOk b -> sb_end b + zlen payload < 18446744073709551616 ->
  exists b', sb_append b payload = Some b' /\ sendBufferOk b' /\
             sb_bytes b' = sb_bytes b ++ payload /\ sb_end b' = sb_end b + zlen payload.
Proof.
  intros Hb Hlim. unfold sb_append.
  destruct (loop_total
    (fun s : tcpSendBuffer * list Z => let '(b', p) := s in
       sendBufferOk b' /\ sb_bytes b' ++ p = sb_bytes b ++ payload /\
       sb_end b' + zlen p = sb_end b + zlen payload)
    (fun s => length (snd s))
    (fun b' => sendBufferOk b' /\ sb_bytes b' = sb_bytes b ++ payload /\
               sb_end b' = sb_end b + zlen payload)
    sb_appendBody) with (fuel := S (length payload)) (s := (b, payload)) as (b' & E & H).
  - generalize (sb_bytes b ++ payload). revert Hlim.
    generalize (sb_end b + zlen payload). clear b Hb. intros stop Hlim target.
    intros [b p] (Hb & Ebytes & Hstop). unfold sb_appendBody.
    destruct (zlen p =? 0) eqn:E0.
    { exists (inr b). split; [done|]. assert (p = []) as -> by (apply zlen_zero; lia).
      rewrite app_nil_r in Ebytes. change (zlen []) with 0 in Hstop.
      split; [done|]. split; [done|lia]. }
    assert (0 < zlen p) as Hp by (pose proof (zlen_nonneg p); lia).
    destruct (prepare_writable b (zlen p) Hb Hp) as (cs & c & Hw & Ec & Eb & Ee & Es & Hsp).
    set (b1 := match list.last (sb_chunks b) with None => _ | Some _ => _ end) in *.
    destruct Hw as [Wc Wf Wo Wr Wp We]. rewrite Wc, last_snoc. simpl.
    set (w := Z.min (zlen (sc_storage c) - sc_end c) (zlen p)).
    assert (zlen (take (Z.to_nat w) p) = w) as Ew by len.
    destruct (splice (sc_storage c) (sc_end c) (take (Z.to_nat w) p)) as [st|] eqn:Est.
    2: { unfold splice in Est. destruct (_ && _) eqn:?; [done|]. exfalso. subst w. lia. }
    destruct (fill_bytes c _ st (proj1 Wr) Est) as [Hst Hbytes]. rewrite Ew in Hbytes.
    simpl. eexists. split; [done|].
    assert (forall c', <[(length (cs ++ [c]) - 1)%nat := c']> (cs ++ [c]) = cs ++ [c']) as Eins.
    { intros c'. rewrite insert_app_r_alt by (rewrite length_app; simpl; lia).
      rewrite length_app. simpl. by replace (length cs + 1 - 1 - length cs)%nat with 0%nat by lia. }
    rewrite Eins.
    set (c' := mkSendChunk st (sc_start c) (sc_end c + w) (sc_streamStart c)) in *.
    assert (0 < w) as Hw0 by (subst w; lia).
    destruct Hb as [B1 B2 B3 B4 B5 B6].
    assert (is_u64 (sb_end b1 + w)) as Hu.
    { unfold is_u64 in *. rewrite Ee. subst w. lia. }
    replace (u64 (sb_end b1 + w)) with (sb_end b1 + w)
      by (unfold u64; symmetry; apply Z.mod_small; exact Hu).
    assert (chunkOk (true && bool_decide (cs = [])) c') as Hok.
    { unfold chunkOk, c'; simpl. split; [lia|]. split; [subst w; lia|].
      intros Hne. apply bool_decide_eq_false in Hne. rewrite Hst. by apply Wp. }
    split.
    + split; [split; simpl; try lia|].
      * exact Hu.
      * apply chunksOk_snoc. split; [done|]. split; [done|]. split; [done|].
        rewrite (zlen_sc_bytes _ _ Hok). simpl. lia.
      * done.
      * split; [|cbn [sb_end]; rewrite zlen_drop, Ee; subst w; lia].
        unfold sb_bytes at 1. simpl. rewrite chunks_bytes_app, chunks_bytes_cons, Hbytes.
        rewrite <- Ebytes, <- Ec, chunks_bytes_app, chunks_bytes_cons.
        unfold chunks_bytes. simpl. rewrite !app_nil_r, <- !app_assoc. do 2 f_equal.
        by rewrite take_drop.
    + simpl. rewrite length_drop. clear - Hw0 Hp Ew. subst w. unfold zlen in *. lia.
  - done.
  - simpl. lia.
  - eauto.
Qed.

(** ** Lemmas: the view *)

Lemma chunksOk_sorted first pos cs i stop c :
  chunksOk first pos cs stop -> cs !! i = Some c ->
  sc_streamStart c = pos + zlen (chunks_bytes (take i cs)) /\
  sc_streamStart c + (sc_end c - sc_start c) = pos + zlen (chunks_bytes (take (S i) cs)) /\
  chunkOk true c /\ pos + zlen (chunks_bytes (take (S i) cs)) <= stop.
Proof.
  intros H Hi. pose proof (chunksOk_len _ _ _ _ H) as Hlen.
  rewrite <- (take_drop_middle _ _ _ Hi) in H.
  apply chunksOk_split in H as [Hs H]. apply chunksOk_cons in H as (Ho & _).
  pose proof (zlen_sc_bytes _ _ Ho) as El.
  rewrite (take_S_r _ _ _ Hi), chunks_bytes_app, chunks_bytes_one. split; [done|]. split; [len|]. split.
  - destruct Ho as (? & ? & ?). repeat split; try lia; try done.
  - rewrite <- (take_drop (S i) cs), chunks_bytes_app in Hlen.
    rewrite (take_S_r _ _ _ Hi), chunks_bytes_app, chunks_bytes_one in Hlen. len.
Qed.

Lemma chunks_prefix_mono cs i j :
  (i <= j)%nat -> zlen (chunks_bytes (take i cs)) <= zlen (chunks_bytes (take j cs)).
Proof.
  intros H. replace (take i cs) with (take i (take j cs)) by (rewrite take_take; f_equal; lia).
  rewrite <- (take_drop i (take j cs)) at 2. rewrite chunks_bytes_app. len.
Qed.

(** The binary search finds the chunk that holds the target position. *)
Lemma sb_search_ok first pos cs stop target :
  chunksOk first pos cs stop -> 0 <= pos -> is_u64 stop -> pos <= target < stop ->
  exists i c, sb_search cs target = Some (Z.of_nat i) /\ cs !! i = Some c /\
    sc_streamStart c <= target < sc_streamStart c + (sc_end c - sc_start c).
Proof.
  intros H Hpos Hstop Ht. set (P i := pos + zlen (chunks_bytes (take (Z.to_nat i) cs))).
  assert (forall i, zlen cs <= i -> P i = stop) as Pend.
  { intros i Hi. unfold P. rewrite take_ge by (unfold zlen in *; lia). by eapply chunksOk_len. }
  destruct (loop_total
    (fun s => 0 <= fst s <= snd s /\ snd s <= zlen cs /\ P (fst s) <= target < P (snd s + 1))
    (fun s => Z.to_nat (snd s - fst s))
    (fun low => 0 <= low <= zlen cs /\ P low <= target < P (low + 1))
    (sb_searchBody cs target)) with (fuel := S (length cs)) (s := (0, zlen cs)) as (low & E & Hl & Hr).
  - intros [low high] (Hlh & Hhi & HP). simpl in *. destruct (low <? high) eqn:Elt.
    2: { exists (inr low). split; [done|]. replace high with low in * by lia. lia. }
    set (m := (low + high) / 2). assert (low <= m < high) by (subst m; zlia).
    destruct (idx_some cs m) as [c Ec]; [lia|]. rewrite Ec. simpl.
    unfold idx in Ec. destruct (0 <=? m) eqn:E0; [|lia].
    destruct (chunksOk_sorted _ _ _ _ _ _ H Ec) as (Es & Ee & Ho & Hle).
    replace (S (Z.to_nat m)) with (Z.to_nat (m + 1)) in * by lia. fold (P (m + 1)) in *.
    rewrite Ee. assert (0 <= P (m + 1)) by (unfold P; len).
    replace (u64 (P (m + 1))) with (P (m + 1))
      by (unfold is_u64, u64 in *; rewrite Z.mod_small; lia).
    eexists. split; [done|]. destruct (_ <=? target) eqn:E1; simpl; lia.
  - simpl. split; [len|]. split; [lia|]. rewrite (Pend (zlen cs + 1)) by lia.
    unfold P. change (chunks_bytes (take (Z.to_nat 0) cs)) with (@nil Z). len.
  - simpl. unfold zlen. lia.
  - assert (low < zlen cs) as Hlt.
    { destruct (Z.lt_ge_cases low (zlen cs)); [done|]. rewrite (Pend low) in Hr by done. lia. }
    destruct (idx_some cs low) as [c Ec]; [lia|]. unfold idx in Ec.
    destruct (0 <=? low) eqn:E0; [|lia].
    destruct (chunksOk_sorted _ _ _ _ _ _ H Ec) as (Es & Ee & _ & _).
    exists (Z.to_nat low), c. split; [rewrite Z2Nat.id by lia; exact E|]. split; [done|].
    rewrite Ee, Es. fold (P low).
    replace (S (Z.to_nat low)) with (Z.to_nat (low + 1)) by lia. exact Hr.
Qed.

Lemma sb_gather_zero first target cs v : sb_gather first target cs 0 v = Some v.
Proof. by destruct cs. Qed.

(** Gathering from a packed chunk: at most one piece per started 16 KiB. *)
Lemma sb_gather_rest target cs pos stop remaining v :
  chunksOk false pos cs stop -> 0 <= remaining <= stop - pos ->
  zlen (vw_chunks v) + (remaining + 16383) / 16384 <= tcpPayloadViewMaximumChunks ->
  exists v', sb_gather false target cs remaining v = Some v' /\
    concat (vw_chunks v') = concat (vw_chunks v) ++ take (Z.to_nat remaining) (chunks_bytes cs) /\
    vw_size v' = vw_size v + remaining /\ zlen (vw_chunks v') <= tcpPayloadViewMaximumChunks.
Proof.
  revert pos remaining v. induction cs as [|c cs IH]; intros pos remaining v H Hr Hk.
  - simpl in H. assert (remaining = 0) as -> by lia. exists v. simpl. rewrite app_nil_r.
    repeat split; zlia.
  - apply chunksOk_cons in H as (Ho & Hs & Hfull & H).
    pose proof (zlen_sc_bytes _ _ Ho) as El. destruct Ho as (Ho1 & Ho2 & Ho3).
    destruct (Ho3 eq_refl) as [Hst Hmin]. unfold tcpSendChunkMinimum in Hmin. simpl.
    destruct (remaining =? 0) eqn:E0.
    { assert (remaining = 0) as -> by lia. exists v. rewrite app_nil_r. repeat split; zlia. }
    set (size := if remaining <? sc_end c - sc_start c then remaining else sc_end c - sc_start c).
    assert (size = Z.min remaining (sc_end c - sc_start c)) as Esz by (subst size; split_ifs; lia).
    destruct (size =? 0) eqn:E1; [lia|].
    unfold tcpPayloadViewMaximumChunks in *.
    destruct (zlen (vw_chunks v) =? 5) eqn:E2; [zlia|].
    rewrite slice_eq by lia. simpl.
    replace (sc_start c + size - sc_start c) with size by lia.
    destruct (IH (pos + zlen (sc_bytes c)) (remaining - size)
      (mkView (vw_chunks v ++ [take (Z.to_nat size) (drop (Z.to_nat (sc_start c)) (sc_storage c))])
              (vw_size v + size))) as (v' & E & Ec & Ez & Eb).
    + done.
    + pose proof (chunksOk_len _ _ _ _ H). len.
    + simpl. rewrite zlen_app. change (zlen [_]) with 1.
      destruct (remaining <=? sc_end c - sc_start c) eqn:E3; [zlia|].
      destruct cs as [|c' cs']; [simpl in H; lia|].
      specialize (Hfull ltac:(done)). unfold chunkFull in Hfull. zlia.
    + exists v'. split; [done|]. split; [|simpl in Ez; split; [lia|done]].
      rewrite Ec. simpl. rewrite concat_app. simpl. rewrite app_nil_r, <- app_assoc. f_equal.
      rewrite chunks_bytes_cons, take_app. f_equal.
      * unfold sc_bytes. rewrite take_take. f_equal. lia.
      * f_equal. unfold zlen in El. lia.
Qed.

Lemma sb_view_ok b offset maximum :
  sendBufferOk b -> 0 <= offset < sb_size b -> 0 < maximum <= 65537 ->
  exists v, sb_view b offset maximum = Some (sb_size b, v) /\
    concat (vw_chunks v) = take (Z.to_nat maximum) (drop (Z.to_nat offset) (sb_bytes b)) /\
    vw_size v = Z.min maximum (sb_size b - offset) /\ zlen (vw_chunks v) <= 5.
Proof.
  intros [B1 B2 B3 B4 B5 B6] Ho Hm. unfold sb_view.
  destruct (_ || _) eqn:E0; [lia|]. clear E0.
  set (wanted := if _ <? maximum then _ else maximum).
  assert (wanted = Z.min maximum (sb_size b - offset)) as Ew by (subst wanted; split_ifs; lia).
  replace (u64 (sb_base b + offset)) with (sb_base b + offset)
    by (unfold is_u64, u64 in *; rewrite Z.mod_small; lia).
  destruct (sb_search_ok _ _ _ _ (sb_base b + offset) B5 B1 B4) as (i & c & Es & Ec & Ht); [lia|].
  rewrite Es. simpl. rewrite Nat2Z.id, (drop_S _ _ _ Ec). simpl.
  destruct (wanted =? 0) eqn:E1; [lia|].
  pose proof B5 as Hsplit. rewrite <- (take_drop_middle _ _ _ Ec) in Hsplit.
  apply chunksOk_split in Hsplit as [Hs Hok].
  apply chunksOk_cons in Hok as (Hc & _ & _ & Hrest).
  pose proof (zlen_sc_bytes _ _ Hc) as El. destruct Hc as (Hc1 & Hc2 & _).
  pose proof (chunksOk_len _ _ _ _ Hrest) as Hlen.
  set (d := sb_base b + offset - sc_streamStart c) in *.
  replace (u64 d) with d by (subst d; unfold is_u64, u64 in *; rewrite Z.mod_small; len).
  set (size := if wanted <? _ then wanted else _).
  assert (size = Z.min wanted (sc_end c - (sc_start c + d))) as Esz by (subst size; split_ifs; lia).
  assert (0 < size) by (subst d; lia).
  destruct (size =? 0) eqn:E2; [lia|]. change (zlen [] =? _) with false. cbn iota.
  rewrite slice_eq by (subst d; lia). simpl.
  replace (sc_start c + d + size - (sc_start c + d)) with size by lia.
  assert (0 <= wanted - size <= sb_end b - (sb_base b + zlen (chunks_bytes (take i (sb_chunks b)))
            + zlen (sc_bytes c))) as Hrem by (subst d; len).
  match goal with |- context [sb_gather false ?t ?cs ?r ?v] =>
    destruct (sb_gather_rest t cs _ _ r v Hrest Hrem) as (v' & E & Econ & Esize & Ecount) end.
  { simpl. change (zlen [_]) with 1. unfold tcpPayloadViewMaximumChunks. zlia. }
  rewrite E. simpl. eexists. split; [done|]. rewrite Econ, Esize. simpl. rewrite app_nil_r.
  split; [|split; [lia|exact Ecount]].
  unfold sb_bytes. rewrite <- (take_drop_middle _ _ _ Ec) at 2.
  rewrite chunks_bytes_app, chunks_bytes_cons.
  assert (Z.to_nat offset = (length (chunks_bytes (take i (sb_chunks b))) + Z.to_nat d)%nat) as ->
    by (subst d; unfold zlen in *; lia).
  rewrite <- drop_drop, drop_app_length.
  rewrite drop_app_le by (subst d; unfold zlen in *; lia).
  rewrite take_app. f_equal.
  - unfold sc_bytes. rewrite skipn_firstn_comm, take_take, drop_drop.
    f_equal; [subst d; len|f_equal; subst d; lia].
  - rewrite length_drop.
    destruct (Z.le_ge_cases maximum (sb_size b - offset)).
    + f_equal. subst d. unfold zlen in *. lia.
    + rewrite !take_ge; [done| |]; subst d; unfold zlen in *; lia.
Qed.

(** ** Lemmas: acknowledging *)

Lemma sb_ackLoop_ok remaining pos cs stop spare reusable :
  chunksOk true pos cs stop -> 0 <= pos -> is_u64 stop -> 0 <= remaining <= stop - pos ->
  (forall s, spare = Some s -> 0 < zlen s) ->
  let '(cs', spare', _) := sb_ackLoop remaining cs spare reusable in
  chunksOk true (pos + remaining) cs' stop /\
  chunks_bytes cs' = drop (Z.to_nat remaining) (chunks_bytes cs) /\
  (forall s, spare' = Some s -> 0 < zlen s).
Proof.
  revert remaining pos spare reusable.
  induction cs as [|c cs IH]; intros remaining pos spare reusable H Hpos Hstop Hr Hsp.
  - simpl in *. split; [lia|]. split; [|done]. by rewrite ?skipn_nil.
  - apply chunksOk_cons in H as (Ho & Hs & Hfull & H).
    pose proof (zlen_sc_bytes _ _ Ho) as El. pose proof Ho as (Ho1 & Ho2 & _).
    pose proof (chunksOk_len _ _ _ _ H) as Hlen. simpl.
    destruct (remaining =? 0) eqn:E0.
    { assert (remaining = 0) as -> by lia. rewrite Z.add_0_r. split; [|done].
      by apply chunksOk_cons. }
    destruct (remaining <? sc_end c - sc_start c) eqn:E1.
    + set (c' := mkSendChunk _ _ _ _).
      assert (chunkOk true c') as Ho' by (repeat split; simpl; try lia; done).
      assert (sc_bytes c' = drop (Z.to_nat remaining) (sc_bytes c)) as Eb.
      { unfold sc_bytes, c'. simpl. rewrite skipn_firstn_comm, drop_drop.
        f_equal; [lia|f_equal; lia]. }
      split; [|split; [|done]].
      * apply chunksOk_cons. split; [done|]. rewrite Eb, zlen_drop. simpl.
        unfold is_u64, u64 in *. rewrite Z.mod_small by len.
        split; [lia|]. split; [done|]. len. 
        replace (pos + remaining + Z.max 0 (zlen (sc_bytes c) - Z.of_nat (Z.to_nat remaining)))
          with (pos + zlen (sc_bytes c)) by lia. done.
      * rewrite chunks_bytes_cons, Eb, chunks_bytes_cons.
        by rewrite drop_app_le by (unfold zlen in *; lia).
    + set (m := if _ || _ then _ else _).
      assert (forall s, fst m = Some s -> 0 < zlen s) as Hsp'.
      { subst m. destruct (_ || _); [|destruct (_ && _); done].
        simpl. destruct (_ <? zlen (sc_storage c)); [|done]. intros s [= <-]. lia. }
      destruct m as [spare' reusable']. simpl in Hsp'.
      apply chunksOk_weaken in H.
      specialize (IH (remaining - (sc_end c - sc_start c)) _ spare' reusable' H).
      destruct (sb_ackLoop _ cs spare' reusable') as [[cs' spare''] reusable''].
      destruct IH as (IH1 & IH2 & IH3); [len|done|len|done|].
      split; [|split; [|done]].
      * by replace (pos + zlen (sc_bytes c) + (remaining - (sc_end c - sc_start c)))
          with (pos + remaining) in IH1 by lia.
      * rewrite IH2, chunks_bytes_cons, drop_app_ge by (unfold zlen in *; lia).
        f_equal. unfold zlen in *. lia.
Qed.

Lemma sb_bytes_len b : sendBufferOk b -> zlen (sb_bytes b) = sb_size b.
Proof. intros [B1 B2 B3 B4 B5 B6]. apply chunksOk_len in B5. unfold sb_bytes. lia. Qed.

Lemma sb_acknowledge_ok b size :
  sendBufferOk b -> 0 <= size ->
  sendBufferOk (sb_acknowledge b size) /\
  sb_bytes (sb_acknowledge b size) = drop (Z.to_nat size) (sb_bytes b).
Proof.
  intros Hb Hsize. pose proof (sb_bytes_len b Hb) as Hlen. pose proof Hb as [B1 B2 B3 B4 B5 B6].
  unfold sb_acknowledge. set (n := if sb_size b <? size then _ else _).
  assert (n = Z.min size (sb_size b)) as En by (subst n; split_ifs; lia).
  destruct (n <=? 0) eqn:E0.
  { split; [done|]. destruct (Z.eq_dec size 0) as [->|].
    - done.
    - rewrite (zlen_zero (sb_bytes b)) by lia. by rewrite ?skipn_nil. }
  pose proof (sb_ackLoop_ok n (sb_base b) (sb_chunks b) (sb_end b) (sb_spare b) (sb_reusable b)
    B5 B1 B4 ltac:(lia) B6) as H.
  destruct (sb_ackLoop n _ _ _) as [[cs spare] reusable]. destruct H as (Hc & Eb & Hsp).
  assert (chunks_bytes cs = drop (Z.to_nat size) (sb_bytes b)) as Eb'.
  { rewrite Eb. fold (sb_bytes b). destruct (Z.le_ge_cases size (sb_size b)).
    - f_equal. lia.
    - rewrite !drop_ge; [done| |]; unfold zlen in *; lia. }
  rewrite zlen_eqb_nil. case_bool_decide as Ecs.
  - subst cs. simpl in Hc. split; [|exact Eb'].
    split; simpl; try done; try lia.
  - split; [|exact Eb'].
    replace (u64 (sb_base b + n)) with (sb_base b + n)
      by (unfold is_u64, u64 in *; rewrite Z.mod_small; lia).
    split; simpl; try done; try lia.
Qed.

Lemma rb_take_ok b maximum :
  readBufferOk b -> 0 < rb_size b -> 0 <= maximum ->
  exists b' part complete, rb_take b maximum = Some (b', part, complete) /\
    readBufferOk b' /\ part ++ rb_bytes b' = rb_bytes b /\ zlen part <= maximum /\
    (0 < maximum -> part <> []).
Proof.
  intros Hb Hpos Hm. destruct (rb_nonempty b Hb Hpos) as (c & k & Ec).
  unfold rb_take. rewrite (idx_drop _ _ _ _ (proj1 (rbo_head b Hb)) Ec). simpl.
  set (n := Z.min maximum (zlen c)).
  assert (0 <= n <= zlen c) as Hn by (subst n; len).
  assert ((if maximum <? zlen c then slice c 0 maximum else Some c) = Some (take (Z.to_nat n) c)) as ->.
  { subst n. destruct (maximum <? zlen c) eqn:E.
    - rewrite slice_eq by lia. rewrite drop_0. do 2 f_equal. lia.
    - rewrite take_ge; [done|]. unfold zlen in *. lia. }
  simpl. assert (zlen (take (Z.to_nat n) c) = n) as -> by len.
  destruct (rb_consume b c k n Hb Ec Hn) as [Hok Eb].
  assert (length (take (Z.to_nat n) c) = Z.to_nat n) as ->
    by (rewrite length_take; unfold zlen in *; lia).
  set (b' := if n =? zlen c then _ else _) in *.
  destruct (rb_finish_ok b' Hok) as [Hok' Eb'].
  eexists _, _, _. split; [done|]. rewrite Eb'. split; [done|]. split; [done|].
  split; [len|]. intros Hm' E. apply (f_equal length) in E.
  rewrite length_take in E. simpl in E.
  assert (c <> []) as Hc.
  { pose proof (rbo_chunks b Hb) as HF. rewrite Ec in HF. by inversion HF. }
  destruct c; [done|]. unfold zlen in *. simpl in *. lia.
Qed.

(** ** Histories *)

Inductive readOp := ReadAppend (payload : list Z) | ReadCopy (destination maximum : Z) | ReadTake (maximum : Z).

(** Runs a history; collects the bytes delivered to the application.  The
    callers of [take] hold at least one byte. *)
Fixpoint runRead (grow : Z -> Z) (b : tcpReadBuffer) (ops : list readOp)
    : option (tcpReadBuffer * list Z) :=
  match ops with
  | [] => Some (b, [])
  | ReadAppend payload :: ops => runRead grow (rb_append grow b payload) ops
  | ReadCopy destination maximum :: ops =>
      '(b, out, _) ← rb_read b destination maximum;
      '(b, rest) ← runRead grow b ops;
      Some (b, out ++ rest)
  | ReadTake maximum :: ops =>
      if rb_size b =? 0 then runRead grow b ops
      else
        '(b, out, _) ← rb_take b maximum;
        '(b, rest) ← runRead grow b ops;
        Some (b, out ++ rest)
  end.

Definition appended (ops : list readOp) : list Z :=
  concat (map (fun o => match o with ReadAppend p => p | _ => [] end) ops).

Definition readOpOk (o : readOp) : Prop :=
  match o with
  | ReadAppend _ => True
  | ReadCopy destination maximum => 0 <= destination /\ 0 <= maximum
  | ReadTake maximum => 0 <= maximum
  end.

Inductive sendOp := SendWrite (payload : list Z) | SendAck (size : Z).

Fixpoint runSend (b : tcpSendBuffer) (ops : list sendOp) : option tcpSendBuffer :=
  match ops with
  | [] => Some b
  | SendWrite payload :: ops => b ← sb_append b payload; runSend b ops
  | SendAck size :: ops => runSend (sb_acknowledge b size) ops
  end.

(** The unacknowledged bytes of a stream. *)
Fixpoint unacked (held : list Z) (ops : list sendOp) : list Z :=
  match ops with
  | [] => held
  | SendWrite payload :: ops => unacked (held ++ payload) ops
  | SendAck size :: ops => unacked (drop (Z.to_nat size) held) ops
  end.

Definition written (ops : list sendOp) : Z :=
  foldr (fun o n => match o with SendWrite p => zlen p + n | SendAck _ => n end) 0 ops.

Definition sendOpOk (o : sendOp) : Prop :=
  match o with SendWrite _ => True | SendAck size => 0 <= size end.

Lemma runRead_ok grow b ops :
  readBufferOk b -> Forall readOpOk ops ->
  exists b' out, runRead grow b ops = Some (b', out) /\ readBufferOk b' /\
    out ++ rb_bytes b' = rb_bytes b ++ appended ops.
Proof.
  revert b. induction ops as [|o ops IH]; intros b Hb H.
  { exists b, []. simpl. unfold appended. simpl. by rewrite app_nil_r. }
  inversion_clear H as [|? ? Ho Hops]. unfold appended. simpl. fold (appended ops).
  destruct o as [p|destination maximum|maximum]; simpl in *.
  - destruct (rb_append_ok grow b p Hb) as [Hok E].
    destruct (IH _ Hok Hops) as (b' & out & Er & Hb' & Eb).
    exists b', out. split; [done|]. split; [done|]. by rewrite Eb, E, app_assoc.
  - destruct Ho as [Hd Hm].
    destruct (rb_read_ok b destination maximum Hb Hd Hm) as (b1 & r & Er & Hb1 & E1).
    rewrite Er. simpl. destruct (IH _ Hb1 Hops) as (b' & out & Er' & Hb' & Eb).
    rewrite Er'. simpl. eexists _, _. split; [done|]. split; [done|].
    by rewrite <- app_assoc, Eb, E1, app_assoc, take_drop.
  - destruct (rb_size b =? 0) eqn:E0; [by apply IH|].
    assert (0 < rb_size b) as Hpos by (pose proof (rbo_size b Hb); len).
    destruct (rb_take_ok b maximum Hb Hpos Ho) as (b1 & part & complete & Er & Hb1 & E1 & _).
    rewrite Er. simpl. destruct (IH _ Hb1 Hops) as (b' & out & Er' & Hb' & Eb).
    rewrite Er'. simpl. eexists _, _. split; [done|]. split; [done|].
    by rewrite <- app_assoc, Eb, app_assoc, E1.
Qed.

Lemma runSend_ok b ops :
  sendBufferOk b -> Forall sendOpOk ops -> sb_end b + written ops < 18446744073709551616 ->
  exists b', runSend b ops = Some b' /\ sendBufferOk b' /\ sb_bytes b' = unacked (sb_bytes b) ops.
Proof.
  revert b. induction ops as [|o ops IH]; intros b Hb H Hlim; [by exists b|].
  inversion_clear H as [|? ? Ho Hops]. destruct o as [p|n]; simpl in *.
  - assert (0 <= written ops) by (clear; induction ops as [|[] ? ?]; simpl; len).
    destruct (sb_append_ok b p Hb) as (b1 & E & Hb1 & Eb & Ee); [lia|].
    rewrite E. simpl. rewrite <- Eb. apply IH; [done|done|lia].
  - destruct (sb_acknowledge_ok b n Hb Ho) as [Hb1 Eb]. rewrite <- Eb.
    apply IH; [done|done|]. assert (sb_end (sb_acknowledge b n) <= sb_end b); [|lia].
    pose proof (sbo_wrap b Hb) as Hw. unfold is_u64 in Hw.
    unfold sb_acknowledge. destruct (_ <=? 0); [lia|].
    destruct (sb_ackLoop _ _ _ _) as [[cs spare] reusable].
    destruct (zlen cs =? 0); simpl; lia.
Qed.

Lemma empty_read_ok : readBufferOk emptyReadBuffer.
Proof. by split. Qed.

Lemma empty_send_ok : sendBufferOk emptySendBuffer.
Proof. by split. Qed.

(** ** Properties *)

(** C8. The receive deque is a byte stream: every history of appends, copying
    reads and zero-copy takes runs without a panic, and the bytes delivered to
    the application followed by the bytes still buffered are exactly the bytes
    appended, in order. *)
Theorem readBuffer_stream (grow : Z -> Z) (ops : list readOp) :
  Forall readOpOk ops ->
  exists b out, runRead grow emptyReadBuffer ops = Some (b, out) /\
    out ++ rb_bytes b = appended ops /\ rb_size b = zlen (appended ops) - zlen out.
Proof.
  intros H. destruct (runRead_ok grow emptyReadBuffer ops empty_read_ok H)
    as (b & out & E & Hb & Eb).
  exists b, out. split; [done|]. simpl in Eb. split; [done|].
  rewrite (rbo_size b Hb). apply (f_equal zlen) in Eb. autorewrite with zlen in Eb.
  change (rb_bytes emptyReadBuffer) with (@nil Z) in Eb. autorewrite with zlen in Eb. lia.
Qed.

Lemma readBuffer_stream_witness :
  exists b out, runRead (fun n => n) emptyReadBuffer
      [ReadAppend [1; 2; 3]; ReadAppend [4]; ReadCopy 2 9; ReadTake 5; ReadAppend [5]; ReadCopy 9 1]
    = Some (b, out) /\
    out ++ rb_bytes b = [1; 2; 3; 4; 5] /\ rb_size b = 5 - zlen out.
Proof.
  apply (readBuffer_stream (fun n => n)
    [ReadAppend [1; 2; 3]; ReadAppend [4]; ReadCopy 2 9; ReadTake 5; ReadAppend [5]; ReadCopy 9 1]).
  repeat constructor; simpl; lia.
Defined.

(** C7. The send deque is addressed by stream offset: after every history of
    writes and cumulative acknowledgements, the view of any range of at most
    one segment returns exactly the unacknowledged bytes at that offset, uses
    at most five pieces and never reaches the scatter panic. *)
Theorem sendBuffer_view (ops : list sendOp) (offset maximum : Z) :
  Forall sendOpOk ops -> written ops < 18446744073709551616 ->
  0 <= offset < zlen (unacked [] ops) -> 0 < maximum <= 65535 ->
  exists b v, runSend emptySendBuffer ops = Some b /\
    sb_view b offset maximum = Some (zlen (unacked [] ops), v) /\
    concat (vw_chunks v) = take (Z.to_nat maximum) (drop (Z.to_nat offset) (unacked [] ops)) /\
    vw_size v = Z.min maximum (zlen (unacked [] ops) - offset) /\
    zlen (vw_chunks v) <= 5.
Proof.
  intros H Hw Ho Hm. destruct (runSend_ok emptySendBuffer ops empty_send_ok H)
    as (b & E & Hb & Eb); [exact Hw|].
  change (sb_bytes emptySendBuffer) with (@nil Z) in Eb.
  rewrite <- Eb in *. rewrite (sb_bytes_len b Hb) in *.
  destruct (sb_view_ok b offset maximum Hb Ho) as (v & Ev & Hv); [lia|].
  by exists b, v.
Qed.

Lemma sendBuffer_view_witness :
  exists b v, runSend emptySendBuffer [SendWrite [1; 2; 3]; SendWrite [4; 5]; SendAck 2] = Some b /\
    sb_view b 1 2 = Some (3, v) /\ concat (vw_chunks v) = [4; 5] /\
    vw_size v = 2 /\ zlen (vw_chunks v) <= 5.
Proof.
  apply (sendBuffer_view [SendWrite [1; 2; 3]; SendWrite [4; 5]; SendAck 2] 1 2);
    [repeat (apply List.Forall_cons; [simpl; done || lia|]); apply List.Forall_nil
    |reflexivity|split; [discriminate|reflexivity]
    |split; [reflexivity|discriminate]].
Defined.
