(* ===== verification/TcpReceive.v ===== *)
(** * Stream reassembly

    [receiveTCPData], [promoteTCPReceived], [storeTCPOutOfOrder] and
    [normalizeTCPReceivedPieces] of [tcp.go]: the in-order path, the bounded
    out-of-order scoreboard and the receive memory accounting. *)

From S2P Require Import Prelude SeqNum ByteBuffers.

(** ** Data *)

Definition tcpMaximumOutOfOrder : Z := 4096.

Record tcpReceivedPiece := mkPiece {
  pc_sequence : Z;
  pc_payload : list Z;
  pc_fin : bool }.

Definition withFin (p : tcpReceivedPiece) (fin : bool) : tcpReceivedPiece :=
  mkPiece (pc_sequence p) (pc_payload p) fin.

(** The part of [TCPConn] the receive path works on.  [rc_notify] is the
    one-slot [readNotify] channel, [None] when nobody ever waited. *)
Record recvConn := mkRecvConn {
  rc_capacity : Z;
  rc_buffer : tcpReadBuffer;
  rc_userClosed : bool;
  rc_readClosed : bool;
  rc_unread : Z;
  rc_notify : option bool }.

(** The connection and the actor's receive variables. *)
Record recvState := mkRecv {
  rs_conn : recvConn;
  rs_next : Z;
  rs_pieces : list tcpReceivedPiece;
  rs_bytes : Z }.

Definition setUnread (c : recvConn) (n : Z) : recvConn :=
  mkRecvConn (rc_capacity c) (rc_buffer c) (rc_userClosed c) (rc_readClosed c) n (rc_notify c).

Definition discarding (c : recvConn) : bool := rc_userClosed c || rc_readClosed c.

(** The retained slice is independent of the packet and has the same bytes. *)
Definition retainTCPPayload (payload : list Z) : list Z :=
  if zlen payload =? 0 then [] else payload.

(** ** Connection buffer *)

Section Receive.
  Context (grow : Z -> Z).

(** Returns the connection and the number of bytes accepted. *)
Definition appendReadBuffer (c : recvConn) (payload : list Z)
    (outOfOrderBytes extraCapacity : Z) : recvConn * Z :=
  let available := rc_capacity c - rb_size (rc_buffer c) - outOfOrderBytes in
  let available := if negb (extraCapacity =? 0) then available + extraCapacity else available in
  if discarding c then (c, zlen payload)
  else
    let available := if available <? 0 then 0 else available in
    let payload := if available <? zlen payload then take (Z.to_nat available) payload else payload in
    let payload := retainTCPPayload payload in
    (mkRecvConn (rc_capacity c) (rb_append grow (rc_buffer c) payload)
       (rc_userClosed c) (rc_readClosed c) (rc_unread c)
       (if negb (zlen payload =? 0) then (_ ← rc_notify c; Some true) else rc_notify c),
     zlen payload).

Definition receiveSpace (c : recvConn) (outOfOrderBytes : Z) : Z * Z :=
  let capacity := rc_capacity c in
  (if discarding c then capacity - outOfOrderBytes
   else capacity - rb_size (rc_buffer c) - outOfOrderBytes, capacity).

Definition receiveAvailable (c : recvConn) (outOfOrderBytes : Z) : Z :=
  fst (receiveSpace c outOfOrderBytes).

Definition receiveWindow (c : recvConn) (outOfOrderBytes : Z) (scaled : bool) (scale : Z) : Z :=
  let available := receiveAvailable c outOfOrderBytes in
  if available <=? 0 then 0
  else
    let available := if scaled then Z.shiftr available scale else available in
    u16 (if 65535 <? available then 65535 else available).

(** ** Normalization *)

Definition offsetFrom (receiveNext : Z) (p : tcpReceivedPiece) : Z :=
  pc_sequence p ⊟ receiveNext.

(** The order of [sort.SliceStable]: by offset, longer payload first. *)
Definition pieceBefore (receiveNext : Z) (l r : tcpReceivedPiece) : bool :=
  let leftOffset := offsetFrom receiveNext l in
  let rightOffset := offsetFrom receiveNext r in
  if negb (leftOffset =? rightOffset) then leftOffset <? rightOffset
  else zlen (pc_payload r) <? zlen (pc_payload l).

Definition sortPieces (receiveNext : Z) (l : list tcpReceivedPiece) : list tcpReceivedPiece :=
  sortBy (pieceBefore receiveNext) l.

(** The least end offset of a piece with FIN. *)
Definition finOffsetOf (receiveNext : Z) (pieces : list tcpReceivedPiece) : option Z :=
  fold_left (fun acc piece =>
    if pc_fin piece then
      let offset := u32 (pc_sequence piece - receiveNext + zlen (pc_payload piece)) in
      match acc with
      | None => Some offset
      | Some finOffset => if offset <? finOffset then Some offset else acc
      end
    else acc) pieces None.

(** One iteration of the merging loop. *)
Definition mergePiece (receiveNext : Z) (finOffset : option Z)
    (result : list tcpReceivedPiece) (piece : tcpReceivedPiece) : option (list tcpReceivedPiece) :=
  let pieceOffset := offsetFrom receiveNext piece in
  let '(skipped, payload) :=
    match finOffset with
    | None => (false, Some (pc_payload piece))
    | Some finOffset =>
        if finOffset <=? pieceOffset then (true, Some [])
        else if finOffset <? u32 (pieceOffset + zlen (pc_payload piece))
        then (false, retainTCPPayload <$> slice (pc_payload piece) 0 (finOffset - pieceOffset))
        else (false, Some (pc_payload piece))
    end in
  payload ← payload;
  if skipped || (zlen payload =? 0) then Some result
  else
    match list.last result with
    | None => Some [mkPiece (pc_sequence piece) payload false]
    | Some previous =>
        let previousEnd := u32 (pc_sequence previous + zlen (pc_payload previous)) in
        if tcpSequenceGreater previousEnd (pc_sequence piece) then
          let skip := previousEnd ⊟ pc_sequence piece in
          if skip <? zlen payload then
            rest ← slice payload skip (zlen payload);
            Some (result ++ [mkPiece (pc_sequence piece ⊞ skip) (retainTCPPayload rest) false])
          else Some result
        else Some (result ++ [mkPiece (pc_sequence piece) payload false])
    end.

Fixpoint mergePieces (receiveNext : Z) (finOffset : option Z)
    (result pieces : list tcpReceivedPiece) : option (list tcpReceivedPiece) :=
  match pieces with
  | [] => Some result
  | p :: pieces => result ← mergePiece receiveNext finOffset result p;
                   mergePieces receiveNext finOffset result pieces
  end.

(** The FIN is attached to the last piece when that ends at it. *)
Definition attachFin (receiveNext : Z) (finOffset : option Z) (result : list tcpReceivedPiece)
    : list tcpReceivedPiece :=
  match finOffset with
  | None => result
  | Some finOffset =>
      let finSequence := receiveNext ⊞ finOffset in
      match list.last result with
      | Some l =>
          if u32 (pc_sequence l + zlen (pc_payload l)) =? finSequence
          then removelast result ++ [withFin l true]
          else result ++ [mkPiece finSequence [] true]
      | None => [mkPiece finSequence [] true]
      end
  end.

Definition normalizeTCPReceivedPieces (receiveNext : Z) (pieces : list tcpReceivedPiece)
    : option (list tcpReceivedPiece) :=
  let pieces := sortPieces receiveNext pieces in
  let finOffset := finOffsetOf receiveNext pieces in
  result ← mergePieces receiveNext finOffset [] pieces;
  Some (attachFin receiveNext finOffset result).

(** ** Storing out of order *)

Record tcpDataFragment := mkDataFragment { df_offset : Z; df_payload : list Z }.

(** The loop that collects the uncovered parts of [start, stop). *)
Fixpoint uncovered (receiveNext start stop cursor : Z) (payload : list Z)
    (existing : list tcpReceivedPiece) (fragments : list tcpDataFragment)
    : option (Z * list tcpDataFragment) :=
  match existing with
  | [] => Some (cursor, fragments)
  | e :: existing =>
      let existingStart := offsetFrom receiveNext e in
      let existingEnd := u32 (existingStart + zlen (pc_payload e)) in
      if existingEnd <=? cursor
      then uncovered receiveNext start stop cursor payload existing fragments
      else if stop <=? existingStart then Some (cursor, fragments)
      else
        fragments ←
          (if cursor <? existingStart then
             let fragmentEnd := if stop <? existingStart then stop else existingStart in
             part ← slice payload (cursor - start) (fragmentEnd - start);
             Some (fragments ++ [mkDataFragment cursor part])
           else Some fragments);
        let cursor := if cursor <? existingEnd then existingEnd else cursor in
        if stop <=? cursor then Some (cursor, fragments)
        else uncovered receiveNext start stop cursor payload existing fragments
  end.

Definition fragmentsOf (receiveNext distance : Z) (payload : list Z)
    (existing : list tcpReceivedPiece) : option (list tcpDataFragment) :=
  if zlen payload =? 0 then Some []
  else
    let stop := distance ⊞ zlen payload in
    '(cursor, fragments) ← uncovered receiveNext distance stop distance payload existing [];
    if cursor <? stop then
      part ← slice payload (cursor - distance) (zlen payload);
      Some (fragments ++ [mkDataFragment cursor part])
    else Some fragments.

Definition piecesBytes (l : list tcpReceivedPiece) : Z :=
  foldr (fun p n => zlen (pc_payload p) + n) 0 l.

Definition fragmentsBytes (l : list tcpDataFragment) : Z :=
  foldr (fun f n => zlen (df_payload f) + n) 0 l.

(** The first queued FIN, as the sequence number it occupies. *)
Fixpoint existingFIN (l : list tcpReceivedPiece) : option Z :=
  match l with
  | [] => None
  | p :: l => if pc_fin p then Some (u32 (pc_sequence p + zlen (pc_payload p)))
              else existingFIN l
  end.

(** The payload and FIN of the segment cut to the window and to a queued FIN. *)
Definition trimToWindow (sequence distance window : Z) (payload : list Z) (fin : bool)
    (pieces : list tcpReceivedPiece) : option (list Z * bool) :=
  let originalPayloadSize := zlen payload in
  let maximumPayload := window ⊟ distance in
  let payload := if maximumPayload <? zlen payload
                 then take (Z.to_nat maximumPayload) payload else payload in
  let fin := fin && ((distance =? 0) && (zlen payload =? 0)
                     || (distance + originalPayloadSize <? window)) in
  let incomingFINSequence := u32 (sequence + originalPayloadSize) in
  match existingFIN pieces with
  | None => Some (payload, fin)
  | Some existingFINSequence =>
      let fin := fin && negb (tcpSequenceGreater incomingFINSequence existingFINSequence) in
      let payloadEnd := u32 (sequence + zlen payload) in
      if tcpSequenceGreater payloadEnd existingFINSequence then
        if negb (tcpSequenceLess sequence existingFINSequence) then Some ([], fin)
        else payload ← slice payload 0 (existingFINSequence ⊟ sequence); Some (payload, fin)
      else Some (payload, fin)
  end.

(** [capacity] is [cap] of the scoreboard slice. *)
Definition storeTCPOutOfOrder (s : recvState) (window extra sequence : Z)
    (payload : list Z) (fin : bool) (capacity : Z) : option (recvState * bool) :=
  let distance := sequence ⊟ rs_next s in
  let available := receiveAvailable (rs_conn s) (rs_bytes s) + extra in
  let available := if available <? 0 then 0 else available in
  if (window <=? distance) && negb ((distance =? 0) && (zlen payload =? 0) && fin)
  then Some (s, false)
  else
    let incomingFINSequence := u32 (sequence + zlen payload) in
    '(payload, fin) ← trimToWindow sequence distance window payload fin (rs_pieces s);
    fragments ← fragmentsOf (rs_next s) distance payload (rs_pieces s);
    let addedBytes := fragmentsBytes fragments in
    let upperCount := zlen (rs_pieces s) + zlen fragments + (if (fin : bool) then 1 else 0) in
    let reuseScoreboard := (addedBytes <=? available) && (upperCount <=? tcpMaximumOutOfOrder)
                           && (upperCount <=? capacity) in
    let candidate := rs_pieces s
      ++ map (fun f => mkPiece (rs_next s ⊞ df_offset f) (retainTCPPayload (df_payload f)) false)
             fragments
      ++ (if fin then [mkPiece incomingFINSequence [] true] else []) in
    candidate ← normalizeTCPReceivedPieces (rs_next s) candidate;
    let bytes := piecesBytes candidate in
    if ((rs_bytes s + available <? bytes) || (tcpMaximumOutOfOrder <? zlen candidate))
       && negb reuseScoreboard
    then Some (s, false)
    else Some (mkRecv (setUnread (rs_conn s) bytes) (rs_next s) candidate bytes,
               negb (zlen fragments =? 0) || fin).

(** ** Promotion *)

(** Cuts what is already delivered off a segment or piece. *)
Definition skipDelivered (receiveNext sequence : Z) (payload : list Z) (fin : bool)
    : option (Z * list Z * bool) :=
  if tcpSequenceLess sequence receiveNext then
    let finSequence := u32 (sequence + zlen payload) in
    let skip := receiveNext ⊟ sequence in
    if skip <? zlen payload
    then payload ← slice payload skip (zlen payload); Some (receiveNext, payload, fin)
    else Some (receiveNext, [], fin && (finSequence =? receiveNext))
  else Some (sequence, payload, fin).

(** The loop of [promoteTCPReceived]: returns the state, whether data was
    delivered and whether the FIN was reached. *)
Fixpoint promoteLoop (c : recvConn) (next : Z) (pieces : list tcpReceivedPiece) (bytes extra : Z)
    (delivered : bool) : option (recvConn * Z * list tcpReceivedPiece * Z * bool * bool) :=
  match pieces with
  | [] => Some (c, next, [], bytes, delivered, false)
  | p :: rest =>
      if tcpSequenceGreater (pc_sequence p) next
      then Some (c, next, pieces, bytes, delivered, false)
      else
        let bytes := bytes - zlen (pc_payload p) in
        '(_, payload, fin) ← skipDelivered next (pc_sequence p) (pc_payload p) (pc_fin p);
        let '(c, accepted) := appendReadBuffer c payload bytes extra in
        let next := u32 (next + accepted) in
        let delivered := delivered || negb (accepted =? 0) in
        if negb (accepted =? zlen payload) then
          remaining ← slice payload accepted (zlen payload);
          let remaining := retainTCPPayload remaining in
          Some (c, next, mkPiece next remaining fin :: rest, bytes + zlen remaining, delivered, false)
        else if (fin : bool) then Some (c, next ⊞ 1, rest, bytes, delivered, true)
        else promoteLoop c next rest bytes extra delivered
  end.

Definition promoteTCPReceived (s : recvState) (extra : Z) : option (recvState * bool * bool) :=
  '(c, next, pieces, bytes, delivered, remoteClosed) ←
    promoteLoop (rs_conn s) (rs_next s) (rs_pieces s) (rs_bytes s) extra false;
  let pieces := if (remoteClosed : bool) then [] else pieces in
  let bytes := if remoteClosed then 0 else bytes in
  Some (mkRecv (setUnread c bytes) next pieces bytes, delivered || remoteClosed, remoteClosed).

(** Returns the state, whether anything was delivered and whether the FIN was
    consumed. *)
Definition receiveTCPData (s : recvState) (sequence : Z) (payload : list Z) (fin : bool)
    (window extra capacity : Z) : option (recvState * bool * bool) :=
  '(sequence, payload, fin) ← skipDelivered (rs_next s) sequence payload fin;
  if (sequence =? rs_next s) && (zlen (rs_pieces s) =? 0) then
    let originalPayloadSize := zlen payload in
    let payload := if window <? zlen payload then take (Z.to_nat window) payload else payload in
    let '(c, accepted) := appendReadBuffer (rs_conn s) payload 0 extra in
    let next := u32 (rs_next s + accepted) in
    let closed := fin && (accepted =? originalPayloadSize)
                  && ((originalPayloadSize =? 0) || (originalPayloadSize <? window)) in
    let next := if closed then next ⊞ 1 else next in
    Some (mkRecv (setUnread c 0) next (rs_pieces s) (rs_bytes s),
          negb (accepted =? 0) || closed, closed)
  else
    '(s', stored) ← storeTCPOutOfOrder s window extra sequence payload fin capacity;
    if negb stored && tcpSequenceGreater sequence (rs_next s)
    then Some (s', false, false)
    else promoteTCPReceived s' extra.

End Receive.

(** ** Specification

    [good a v] says that [v] may be the byte at stream position [a], and
    [gf f] that the stream may end at position [f]; [True] for both gives the
    structural facts, the sender's stream gives the functional ones.  Positions
    are absolute; [rn] is the position of [receiveNext]. *)

(** The largest window a peer can be promised (65535 scaled by 2^14). *)
Definition windowLimit : Z := 1073741824.

Section Spec.
  Context (good : Z -> Z -> Prop) (gf : Z -> Prop).

Definition goodAt (a : Z) (l : list Z) : Prop :=
  forall (i : nat) v, l !! i = Some v -> good (a + Z.of_nat i) v.

Definition pieceEnd (next : Z) (p : tcpReceivedPiece) : Z :=
  offsetFrom next p + zlen (pc_payload p).

Record pieceOk (rn next : Z) (p : tcpReceivedPiece) : Prop := {
  po_seq : is_u32 (pc_sequence p);
  po_limit : pieceEnd next p <= windowLimit;
  po_good : goodAt (rn + offsetFrom next p) (pc_payload p);
  po_fin : pc_fin p = true -> gf (rn + pieceEnd next p) }.

Definition covered (next : Z) (l : list tcpReceivedPiece) (x : Z) : Prop :=
  exists p, p ∈ l /\ offsetFrom next p <= x < pieceEnd next p.

Fixpoint endFrom (next lo : Z) (l : list tcpReceivedPiece) : Z :=
  match l with [] => lo | p :: l => endFrom next (pieceEnd next p) l end.

Fixpoint disjointFrom (next lo : Z) (l : list tcpReceivedPiece) : Prop :=
  match l with
  | [] => True
  | p :: l => lo <= offsetFrom next p /\ disjointFrom next (pieceEnd next p) l
  end.

Record recvOk (rn : Z) (s : recvState) : Prop := {
  ro_next : is_u32 (rs_next s);
  ro_buffer : readBufferOk (rc_buffer (rs_conn s));
  ro_pieces : Forall (pieceOk rn (rs_next s)) (rs_pieces s);
  ro_disjoint : disjointFrom (rs_next s) 0 (rs_pieces s);
  ro_bytes : rs_bytes s = piecesBytes (rs_pieces s) }.

(** ** Lemmas: positions *)

Lemma goodAt_nil a : goodAt a [].
Proof. intros i v H. by rewrite lookup_nil in H. Qed.

Lemma goodAt_app a l k : goodAt a (l ++ k) <-> goodAt a l /\ goodAt (a + zlen l) k.
Proof.
  unfold goodAt, zlen. split.
  - intros H. split; intros i v Hi.
    + apply H. by apply lookup_app_l_Some.
    + replace (a + Z.of_nat (length l) + Z.of_nat i) with (a + Z.of_nat (length l + i)) by lia.
      apply H. by rewrite lookup_app_r, Nat.add_comm, Nat.add_sub by lia.
  - intros [Hl Hk] i v Hi. apply lookup_app_Some in Hi as [Hi|[Hlen Hi]]; [by apply Hl|].
    apply Hk in Hi. by replace (a + Z.of_nat i)
      with (a + Z.of_nat (length l) + Z.of_nat (i - length l)) by lia.
Qed.

Lemma goodAt_take a l n : goodAt a l -> goodAt a (take n l).
Proof. intros H. rewrite <- (take_drop n l) in H. by apply goodAt_app in H as []. Qed.

Lemma goodAt_drop a l n :
  0 <= n <= zlen l -> goodAt a l -> goodAt (a + n) (drop (Z.to_nat n) l).
Proof.
  intros Hn H. rewrite <- (take_drop (Z.to_nat n) l) in H. apply goodAt_app in H as [_ H].
  rewrite zlen_take in H. by replace (a + n) with (a + Z.of_nat (Z.to_nat n) `min` zlen l) by lia.
Qed.

Lemma offset_range next p : 0 <= offsetFrom next p < 4294967296.
Proof. unfold offsetFrom. word. Qed.

Lemma piece_seq next p : is_u32 (pc_sequence p) -> pc_sequence p = next ⊞ offsetFrom next p.
Proof. apply seq_offset. Qed.

Lemma piece_seq_add next p n :
  u32 (pc_sequence p + n) = next ⊞ (offsetFrom next p + n).
Proof. unfold offsetFrom. word. Qed.

Lemma offset_mk next o payload fin :
  0 <= o < 4294967296 -> offsetFrom next (mkPiece (next ⊞ o) payload fin) = o.
Proof. unfold offsetFrom. simpl. word. Qed.

Lemma endFrom_app next lo l p : endFrom next lo (l ++ [p]) = pieceEnd next p.
Proof. revert lo. induction l as [|q l IH]; intros lo; [done|]. simpl. apply IH. Qed.

Lemma endFrom_last next l :
  endFrom next 0 l = match list.last l with None => 0 | Some p => pieceEnd next p end.
Proof. induction l as [|p l _] using rev_ind; [done|]. by rewrite endFrom_app, last_snoc. Qed.

Lemma disjointFrom_snoc next lo l p :
  disjointFrom next lo (l ++ [p]) <->
  disjointFrom next lo l /\ endFrom next lo l <= offsetFrom next p.
Proof. revert lo. induction l as [|q l IH]; intros lo; simpl; [tauto|]. rewrite IH. tauto. Qed.

Lemma piecesBytes_app l k : piecesBytes (l ++ k) = piecesBytes l + piecesBytes k.
Proof. induction l; simpl; lia. Qed.

Lemma piecesBytes_nonneg l : 0 <= piecesBytes l.
Proof. induction l; simpl; len. Qed.

Lemma covered_app next l k x : covered next (l ++ k) x <-> covered next l x \/ covered next k x.
Proof.
  unfold covered. setoid_rewrite elem_of_app. split.
  - intros (p & [Hp|Hp] & H); [left|right]; by exists p.
  - intros [(p & Hp & H)|(p & Hp & H)]; exists p; auto.
Qed.

Lemma covered_cons next p l x :
  covered next (p :: l) x <-> offsetFrom next p <= x < pieceEnd next p \/ covered next l x.
Proof.
  unfold covered. setoid_rewrite elem_of_cons. split.
  - intros (q & [->|Hq] & H); [by left|right; by exists q].
  - intros [H|(q & Hq & H)]; [exists p|exists q]; auto.
Qed.

Lemma covered_perm next l k x : l ≡ₚ k -> covered next l x -> covered next k x.
Proof. intros Hp (p & Hin & H). exists p. by rewrite <- Hp. Qed.

(** ** Lemmas: sorting *)

Definition offsetLe (next : Z) (p q : tcpReceivedPiece) : Prop :=
  offsetFrom next p <= offsetFrom next q.

#[export] Instance offsetLe_trans next : Transitive (offsetLe next).
Proof. intros p q r. unfold offsetLe. lia. Qed.

Lemma pieceBefore_le next p q :
  (pieceBefore next p q = true -> offsetLe next p q) /\
  (pieceBefore next p q = false -> offsetLe next q p).
Proof. unfold pieceBefore, offsetLe. split_ifs; split; lia. Qed.

Lemma sortPieces_perm next l : sortPieces next l ≡ₚ l.
Proof. apply sortBy_perm. Qed.

Lemma sortPieces_sorted next l : StronglySorted (offsetLe next) (sortPieces next l).
Proof.
  apply (sortBy_sorted _ (offsetLe next)); intros p q E; by apply pieceBefore_le in E.
Qed.

(** ** Lemmas: the FIN offset *)

Lemma finOffsetOf_spec rn next l :
  Forall (pieceOk rn next) l ->
  match finOffsetOf next l with
  | None => Forall (fun p => pc_fin p = false) l
  | Some f => (exists p, p ∈ l /\ pc_fin p = true /\ pieceEnd next p = f) /\
              Forall (fun p => pc_fin p = true -> f <= pieceEnd next p) l
  end.
Proof.
  intros H. unfold finOffsetOf.
  induction l as [|p l IH] using rev_ind; [by constructor|].
  apply Forall_app in H as [Hl Hp]. specialize (IH Hl).
  apply Forall_inv in Hp.
  rewrite fold_left_app. simpl. set (acc := fold_left _ l None) in *.
  assert (u32 (pc_sequence p - next + zlen (pc_payload p)) = pieceEnd next p) as ->.
  { pose proof (po_limit _ _ _ Hp) as Hb. pose proof (offset_range next p).
    unfold pieceEnd, windowLimit, offsetFrom in *. len_facts. word. }
  destruct (pc_fin p) eqn:Ef.
  - destruct acc as [f|].
    + destruct IH as [(q & Hq & Hqf & Eq) Hmin]. destruct (_ <? f) eqn:E.
      * split; [exists p; rewrite elem_of_app, list_elem_of_singleton; auto|].
        apply Forall_app. split; [|by repeat constructor].
        eapply Forall_impl; [|exact Hmin]. simpl. intros a Ha Hfin. specialize (Ha Hfin). lia.
      * split; [exists q; rewrite elem_of_app; auto|].
        apply Forall_app. split; [done|]. constructor; [lia|done].
    + split; [exists p; rewrite elem_of_app, list_elem_of_singleton; auto|].
      apply Forall_app. split; [|by repeat constructor].
      eapply Forall_impl; [|exact IH]. simpl. congruence.
  - destruct acc as [f|].
    + destruct IH as [(q & Hq & Hqf & Eq) Hmin].
      split; [exists q; rewrite elem_of_app; auto|].
      apply Forall_app. split; [done|]. constructor; [congruence|done].
    + apply Forall_app. split; [done|by repeat constructor].
Qed.

(** ** Lemmas: merging *)

Definition hiOf (next : Z) (fo : option Z) (p : tcpReceivedPiece) : Z :=
  match fo with None => pieceEnd next p | Some f => Z.min (pieceEnd next p) f end.

Definition foOk (fo : option Z) : Prop :=
  match fo with None => True | Some f => 0 <= f <= windowLimit end.

(** What one merging step keeps of a piece: the part after the end of the
    result and before the FIN. *)
Definition mergedPart (next lo hi : Z) (p : tcpReceivedPiece) : tcpReceivedPiece :=
  mkPiece (next ⊞ lo)
    (take (Z.to_nat (hi - lo)) (drop (Z.to_nat (lo - offsetFrom next p)) (pc_payload p))) false.

Lemma retain_eq l : retainTCPPayload l = l.
Proof.
  unfold retainTCPPayload. destruct (zlen l =? 0) eqn:E; [|done].
  by rewrite (zlen_zero l) by lia.
Qed.

Lemma mergePiece_eq rn next fo R p :
  Forall (pieceOk rn next) R -> is_u32 next -> pieceOk rn next p -> foOk fo ->
  0 <= endFrom next 0 R ->
  let lo := Z.max (offsetFrom next p) (endFrom next 0 R) in
  let hi := hiOf next fo p in
  mergePiece next fo R p = Some (if lo <? hi then R ++ [mergedPart next lo hi p] else R).
Proof.
  intros HR Hn Hp Hfo HlR. cbv zeta.
  pose proof (offset_range next p) as Ho. pose proof (po_limit _ _ _ Hp) as Hlim.
  assert (endFrom next 0 R <= windowLimit) as HendR.
  { rewrite endFrom_last. destruct (list.last R) as [q|] eqn:E; [|unfold windowLimit; lia].
    apply last_Some_elem_of in E. rewrite Forall_forall in HR.
    apply (po_limit rn). apply HR. by apply list_elem_of_In. }
  unfold mergePiece. set (hi := hiOf next fo p). unfold pieceEnd in Hlim. set (o := offsetFrom next p) in *.
  assert (u32 (o + zlen (pc_payload p)) = o + zlen (pc_payload p)) as Eu.
  { unfold windowLimit in *. len_facts. word. }
  rewrite Eu.
  (* the part before the FIN *)
  assert (exists skipped payload,
    match fo with
    | None => (false, Some (pc_payload p))
    | Some f => if f <=? o then (true, Some [])
                else if f <? o + zlen (pc_payload p)
                then (false, retainTCPPayload <$> slice (pc_payload p) 0 (f - o))
                else (false, Some (pc_payload p))
    end = (skipped, Some payload) /\
    payload = take (Z.to_nat (hi - o)) (pc_payload p) /\
    (skipped = true -> hi <= o) /\
    (skipped = false -> zlen payload = hi - o)) as (sk & pl & -> & Epl & Hsk & Hns).
  { subst hi. unfold hiOf, pieceEnd. fold o. destruct fo as [f|]; simpl in Hfo.
    - destruct (f <=? o) eqn:E1; [|destruct (f <? o + _) eqn:E2].
      + exists true, []. repeat split; try done; try lia.
        replace (Z.to_nat _) with 0%nat by lia. done.
      + exists false, (take (Z.to_nat (f - o)) (pc_payload p)).
        rewrite slice_eq by lia. simpl. rewrite retain_eq, drop_0, Z.sub_0_r.
        repeat split; try done; [f_equal; lia|len].
      + exists false, (pc_payload p). repeat split; try done; [|lia].
        rewrite take_ge; [done|]. unfold zlen in *. lia.
    - exists false, (pc_payload p). repeat split; try done; [|lia].
      rewrite take_ge; [done|]. unfold zlen. lia. }
  simpl. assert (hi <= o + zlen (pc_payload p)) as Hhi
    by (subst hi; unfold hiOf, pieceEnd; fold o; destruct fo; lia).
  destruct (sk || (zlen pl =? 0)) eqn:Esk.
  { replace (Z.max o (endFrom next 0 R) <? hi) with false; [done|].
    symmetry. apply Z.ltb_ge. destruct sk; [specialize (Hsk eq_refl); lia|].
    specialize (Hns eq_refl). simpl in Esk. lia. }
  destruct sk; [done|]. specialize (Hns eq_refl). simpl in Esk. pose proof (zlen_nonneg pl) as Hpl.
  assert (pc_sequence p = next ⊞ o) as Eseq by apply (piece_seq next p (po_seq _ _ _ Hp)).
  rewrite endFrom_last in *. destruct (list.last R) as [q|] eqn:Elast.
  - assert (u32 (pc_sequence q + zlen (pc_payload q)) = next ⊞ pieceEnd next q) as ->
      by apply piece_seq_add.
    set (e := pieceEnd next q) in *. unfold tcpSequenceGreater. rewrite Eseq.
    rewrite less_offsets by (unfold windowLimit in *; lia).
    destruct (o <? e) eqn:E1.
    + replace (Z.max o e) with e by lia.
      replace ((next ⊞ e) ⊟ (next ⊞ o)) with (e - o) by (unfold windowLimit in *; word).
      rewrite Hns. replace (e - o <? hi - o) with (e <? hi) by lia.
      destruct (e <? hi) eqn:E2; [|done]. rewrite <- Hns, slice_eq by lia. simpl.
      rewrite retain_eq. unfold mergedPart. fold o. do 4 f_equal; [word|].
      rewrite take_ge by (rewrite length_drop; unfold zlen in *; lia).
      rewrite Epl, skipn_firstn_comm. f_equal. lia.
    + replace (Z.max o e) with o by lia. replace (o <? hi) with true by lia.
      unfold mergedPart. fold o. rewrite Z.sub_diag. simpl. by rewrite drop_0, <- Epl.
  - replace (Z.max o 0) with o by lia. replace (o <? hi) with true by lia.
    apply last_None in Elast as ->. unfold mergedPart. fold o. rewrite Z.sub_diag, Eseq. simpl.
    by rewrite drop_0, <- Epl.
Qed.

Lemma mergedPart_ok rn next lo hi p :
  pieceOk rn next p -> offsetFrom next p <= lo -> lo < hi -> hi <= pieceEnd next p ->
  let q := mergedPart next lo hi p in
  pieceOk rn next q /\ offsetFrom next q = lo /\ pieceEnd next q = hi.
Proof.
  intros [Hs Hl Hg Hf] Hlo Hlt Hhi q. pose proof (offset_range next p) as Ho.
  assert (offsetFrom next q = lo) as Eo.
  { apply offset_mk. unfold windowLimit in *. lia. }
  assert (zlen (pc_payload q) = hi - lo) as El.
  { unfold q, mergedPart, pieceEnd in *. simpl. len. }
  assert (pieceEnd next q = hi) as Ee by (unfold pieceEnd; lia).
  split; [|done]. split.
  - apply u32_range.
  - lia.
  - rewrite Eo. simpl. apply goodAt_take.
    replace (rn + lo) with (rn + offsetFrom next p + (lo - offsetFrom next p)) by lia.
    apply goodAt_drop; [|done]. unfold pieceEnd in Hhi. lia.
  - done.
Qed.

Lemma disjoint_end next lo l : disjointFrom next lo l -> lo <= endFrom next lo l.
Proof.
  revert lo. induction l as [|p l IH]; intros lo; simpl; [lia|]. intros [Hlo H].
  apply IH in H. unfold pieceEnd in *. len.
Qed.

(** The state of the merging loop: the result is well formed and covers
    everything between [m], below which no remaining piece starts, and its end. *)
Record mergeOk (rn next : Z) (fo : option Z) (m : Z) (R : list tcpReceivedPiece) : Prop := {
  mo_ok : Forall (pieceOk rn next) R;
  mo_disjoint : disjointFrom next 0 R;
  mo_solid : forall x, m <= x < endFrom next 0 R -> covered next R x;
  mo_fin : forall f, fo = Some f -> 0 <= f /\ endFrom next 0 R <= f }.

Lemma mergePiece_ok rn next fo m R p :
  is_u32 next -> foOk fo -> mergeOk rn next fo m R -> pieceOk rn next p ->
  m <= offsetFrom next p ->
  exists R', mergePiece next fo R p = Some R' /\ mergeOk rn next fo (offsetFrom next p) R' /\
    (forall x, covered next R x -> covered next R' x) /\
    (forall x, offsetFrom next p <= x < hiOf next fo p -> covered next R' x) /\
    (forall x, covered next R' x -> covered next (p :: R) x) /\
    piecesBytes R' <= piecesBytes R + zlen (pc_payload p) /\
    endFrom next 0 R <= endFrom next 0 R' /\
    ((length R' = length R /\ (hiOf next fo p <= offsetFrom next p \/ hiOf next fo p <= endFrom next 0 R)) \/
     (length R' = S (length R) /\ endFrom next 0 R' = hiOf next fo p)).
Proof.
  intros Hn Hfo [Hok Hd Hsolid Hfin] Hp Hm.
  pose proof (disjoint_end _ _ _ Hd) as Hend.
  rewrite (mergePiece_eq rn) by done. cbv zeta.
  set (o := offsetFrom next p) in *. set (e := endFrom next 0 R) in *.
  set (hi := hiOf next fo p). set (lo := Z.max o e).
  assert (hi <= pieceEnd next p) as Hhi by (subst hi; unfold hiOf; destruct fo; lia).
  assert (forall f, fo = Some f -> hi <= f) as Hhf by (intros f ->; subst hi; simpl; lia).
  eexists. split; [done|]. destruct (lo <? hi) eqn:E.
  - destruct (mergedPart_ok rn next lo hi p Hp) as (Hq & Eo & Ee); [lia..|].
    set (q := mergedPart next lo hi p) in *.
    assert (forall x, o <= x < hi -> covered next (R ++ [q]) x) as Hcov.
    { intros x Hx. apply covered_app. destruct (Z.lt_ge_cases x lo).
      - left. apply Hsolid. lia.
      - right. exists q. split; [by left|]. lia. }
    split; [split|].
    + apply Forall_app. split; [done|]. by apply Forall_singleton.
    + apply disjointFrom_snoc. split; [done|]. rewrite Eo. lia.
    + rewrite endFrom_app, Ee. intros x Hx. apply Hcov. lia.
    + intros f Ef. rewrite endFrom_app, Ee. split; [by eapply Hfin|by apply Hhf].
    + split; [intros x Hx; apply covered_app; by left|]. split; [done|]. split.
      { intros x Hx. apply covered_cons. apply covered_app in Hx as [Hx|Hx]; [by right|left].
        destruct Hx as (q' & Hin & Hx). apply list_elem_of_singleton in Hin as ->. lia. }
      split; [|split; [rewrite endFrom_app; lia|]].
      * rewrite piecesBytes_app. simpl. unfold pieceEnd in Ee, Hhi. len.
      * right. rewrite endFrom_app, length_app. simpl. split; [lia|done].
  - split; [split|]; try done.
    + intros x Hx. apply Hsolid. lia.
    + split; [done|]. split; [intros x Hx; apply Hsolid; lia|].
      split; [intros x Hx; apply covered_cons; by right|]. split; [len|]. split; [lia|]. left. split; [done|]. lia.
Qed.

Lemma mergePieces_ok rn next fo m l R :
  is_u32 next -> foOk fo -> mergeOk rn next fo m R -> Forall (pieceOk rn next) l ->
  StronglySorted (offsetLe next) l -> Forall (fun p => m <= offsetFrom next p) l ->
  exists R' m', mergePieces next fo R l = Some R' /\ mergeOk rn next fo m' R' /\
    (forall x, covered next R x -> covered next R' x) /\
    (forall x, covered next l x -> (forall f, fo = Some f -> x < f) -> covered next R' x) /\
    (forall x, covered next R' x -> covered next R x \/ covered next l x) /\
    piecesBytes R' <= piecesBytes R + piecesBytes l /\
    endFrom next 0 R <= endFrom next 0 R' /\
    (length R <= length R' <= length R + length l)%nat /\
    (forall f p, fo = Some f -> p ∈ l -> pieceEnd next p = f ->
       (length R' < length R + length l)%nat \/ (endFrom next 0 R' = f /\ R' <> [])).
Proof.
  intros Hn Hfo. revert m R. induction l as [|p l IH]; intros m R HR Hl Hsort Hm.
  { exists R, m. split; [done|]. split; [done|]. split; [done|].
    split; [intros x (? & Hin & _); by apply elem_of_nil in Hin|].
    split; [by left|]. split; [simpl; lia|]. split; [lia|]. split; [simpl; lia|].
    intros ? ? _ Hin. by apply elem_of_nil in Hin. }
  inversion_clear Hl as [|? ? Hp Hl']. inversion_clear Hsort as [|? ? Hsort' Hle].
  inversion_clear Hm as [|? ? Hmp _].
  destruct (mergePiece_ok rn next fo m R p) as (R1 & E & HR1 & Hc1 & Hcp & Hcr1 & Hb1 & He1 & Hlen1); try done.
  destruct (IH (offsetFrom next p) R1) as (R' & m' & E' & HR' & Hc & Hcl & Hcr & Hb & He & Hlen & Hlast); try done.
  exists R', m'. simpl. rewrite E. simpl. split; [done|]. split; [done|].
  split; [auto|]. split; [|split; [|split; [lia|split; [lia|split; [lia|]]]]].
  - intros x Hx Hf. apply covered_cons in Hx as [Hx|Hx]; [|by apply Hcl].
    apply Hc, Hcp. split; [lia|]. unfold hiOf. destruct fo as [f|]; [|lia].
    specialize (Hf f eq_refl). lia.
  - intros x Hx. rewrite covered_cons. destruct (Hcr x Hx) as [Hx'|Hx']; [|tauto].
    apply Hcr1, covered_cons in Hx'. tauto.
  - intros f q Ef Hin Eq. destruct (mo_fin _ _ _ _ _ HR' f Ef) as [_ Hmax].
    apply elem_of_cons in Hin as [->|Hin].
    + assert (hiOf next fo p = f) as Eh by (rewrite Ef; simpl; lia).
      destruct Hlen1 as [[El _]|[El Ee]]; [left; lia|]. right. split; [lia|].
      intros ->. simpl in Hlen. lia.
    + destruct (Hlast f q Ef Hin Eq) as [?|?]; [left; lia|by right].
Qed.

Lemma piecesBytes_perm l k : l ≡ₚ k -> piecesBytes l = piecesBytes k.
Proof. induction 1; simpl; lia. Qed.

Lemma last_decompose {A} (l : list A) x :
  list.last l = Some x -> l = removelast l ++ [x].
Proof.
  intros H. apply last_Some in H as [l' ->]. by rewrite removelast_last.
Qed.

(** Attaching the FIN keeps the ranges and marks their end. *)
Lemma attachFin_ok rn next fo m R :
  is_u32 next -> foOk fo -> mergeOk rn next fo m R ->
  (forall f, fo = Some f -> gf (rn + f)) ->
  let r := attachFin next fo R in
  Forall (pieceOk rn next) r /\ disjointFrom next 0 r /\
  (forall x, covered next R x <-> covered next r x) /\
  piecesBytes r = piecesBytes R /\
  (length r <= S (length R))%nat /\
  (forall f, fo = Some f -> endFrom next 0 R = f -> R <> [] -> length r = length R).
Proof.
  intros Hn Hfo [Hok Hd _ Hfin] Hgf. cbv zeta. unfold attachFin.
  destruct fo as [f|]; [|by repeat split; try done; lia].
  specialize (Hgf f eq_refl). simpl in Hfo. destruct (Hfin f eq_refl) as [_ Hle].
  assert (Forall (pieceOk rn next) (R ++ [mkPiece (next ⊞ f) [] true]) /\
    disjointFrom next 0 (R ++ [mkPiece (next ⊞ f) [] true]) /\
    (forall x, covered next R x <-> covered next (R ++ [mkPiece (next ⊞ f) [] true]) x) /\
    piecesBytes (R ++ [mkPiece (next ⊞ f) [] true]) = piecesBytes R) as K.
  { assert (offsetFrom next (mkPiece (next ⊞ f) [] true) = f) as Eo
      by (apply offset_mk; unfold windowLimit in *; lia).
    assert (pieceEnd next (mkPiece (next ⊞ f) [] true) = f) as Ee
      by (unfold pieceEnd; rewrite Eo; simpl; len).
    split; [|split; [|split]].
    - apply Forall_app. split; [done|]. apply Forall_singleton.
      split; rewrite ?Ee; [apply u32_range|lia|apply goodAt_nil|done].
    - apply disjointFrom_snoc. by rewrite Eo.
    - intros x. rewrite covered_app. split; [by left|]. intros [Hx|(q & Hin & Hx)]; [done|].
      apply list_elem_of_singleton in Hin as ->. lia.
    - rewrite piecesBytes_app. simpl. len. }
  pose proof (endFrom_last next R) as Eend.
  destruct (list.last R) as [l|] eqn:El.
  - assert (u32 (pc_sequence l + zlen (pc_payload l)) = next ⊞ pieceEnd next l) as ->
      by apply piece_seq_add.
    pose proof (last_decompose _ _ El) as ER.
    assert (pieceOk rn next l) as Hl.
    { rewrite ER in Hok. apply Forall_app in Hok as [_ Hok]. by apply Forall_inv in Hok. }
    pose proof (po_limit _ _ _ Hl). pose proof (offset_range next l).
    assert (0 <= pieceEnd next l) by (unfold pieceEnd; len).
    destruct (_ =? next ⊞ f) eqn:E.
    + assert (pieceEnd next l = f) as Ef by (unfold windowLimit in *; word).
      assert (pieceOk rn next (withFin l true)) as Hl'.
      { destruct Hl as [? ? ? _]. split; try done. intros _.
        change (gf (rn + pieceEnd next l)). by rewrite Ef. }
      split; [|split; [|split; [|split; [|split]]]].
      * apply Forall_app. rewrite ER in Hok. apply Forall_app in Hok as [Hok _].
        split; [done|]. by apply Forall_singleton.
      * rewrite ER in Hd. apply disjointFrom_snoc in Hd. by apply disjointFrom_snoc.
      * intros x. rewrite ER at 1. rewrite !covered_app.
        assert (covered next [l] x <-> covered next [withFin l true] x) as ->; [|done].
        rewrite !covered_cons. done.
      * rewrite ER at 2. by rewrite !piecesBytes_app.
      * apply (f_equal length) in ER. rewrite length_app in *. simpl in *. lia.
      * intros _ _ _ _. apply (f_equal length) in ER. rewrite length_app in *. simpl in *. lia.
    + destruct K as (K1 & K2 & K3 & K4). rewrite length_app. simpl.
      split; [done|split; [done|split; [done|split; [done|split; [lia|]]]]].
      intros ? [= <-] E2. exfalso. rewrite Eend in E2.
      rewrite E2 in E. lia.
  - apply last_None in El as ->. simpl in K. destruct K as (K1 & K2 & K3 & K4).
    split; [done|split; [done|split; [done|split; [done|split; [simpl; lia|done]]]]].
Qed.

Lemma normalize_ok rn next l :
  is_u32 next -> Forall (pieceOk rn next) l ->
  exists r, normalizeTCPReceivedPieces next l = Some r /\
    Forall (pieceOk rn next) r /\ disjointFrom next 0 r /\
    piecesBytes r <= piecesBytes l /\ (length r <= length l)%nat /\
    (forall x, covered next l x ->
       Forall (fun p => pc_fin p = true -> x < pieceEnd next p) l -> covered next r x) /\
    (forall x, covered next r x -> covered next l x).
Proof.
  intros Hn Hl. unfold normalizeTCPReceivedPieces.
  pose proof (sortPieces_perm next l) as Hperm. set (sl := sortPieces next l) in *.
  assert (Forall (pieceOk rn next) sl) as Hsl by by rewrite Hperm.
  pose proof (finOffsetOf_spec rn next sl Hsl) as Hspec.
  set (fo := finOffsetOf next sl) in *. clearbody fo.
  assert (foOk fo /\ (forall f, fo = Some f -> gf (rn + f)) /\
          (forall f, fo = Some f -> exists p, p ∈ sl /\ pieceEnd next p = f)) as (Hfo & Hgf & Hex).
  { destruct fo as [f|]; [|done]. destruct Hspec as [(p & Hin & Hpf & Ep) _].
    rewrite Forall_forall in Hsl. pose proof (Hsl p (proj1 (list_elem_of_In _ _) Hin)) as Hp.
    split; [|split].
    - simpl. subst f. pose proof (po_limit _ _ _ Hp). pose proof (offset_range next p).
      unfold pieceEnd in *. len.
    - intros ? [= <-]. rewrite <- Ep. by apply (po_fin _ _ _ Hp).
    - intros ? [= <-]. by exists p. }
  destruct (mergePieces_ok rn next fo 0 sl []) as (R & m & E & HR & _ & Hc & Hcr & Hb & _ & Hlen & Hlast); try done.
  { split; try done. intros x Hx. simpl in Hx. lia. simpl.
    intros f Ef. rewrite Ef in Hfo. simpl in Hfo. lia. }
  { apply sortPieces_sorted. }
  { apply Forall_forall. intros p _. apply offset_range. }
  rewrite E. simpl.
  destruct (attachFin_ok rn next fo m R Hn Hfo HR Hgf) as (K1 & K2 & K3 & K4 & K5 & K6).
  eexists. split; [done|]. split; [done|]. split; [done|]. split; [|split; [|split]].
  - rewrite K4. rewrite (piecesBytes_perm _ _ (symmetry Hperm)). simpl in Hb. lia.
  - rewrite <- Hperm. simpl in Hlen. destruct fo as [f|] eqn:Ef.
    + destruct (Hex f eq_refl) as (p & Hin & Ep).
      destruct (Hlast f p eq_refl Hin Ep) as [Hlt|[Ee Hne]]; [simpl in Hlt; lia|].
      rewrite (K6 f eq_refl Ee Hne). lia.
    + unfold attachFin. lia.
  - intros x Hx Hf. apply K3, Hc; [by eapply covered_perm; [symmetry|]|].
    intros f Ef. rewrite Ef in Hspec. destruct Hspec as [(p & Hin & Hpf & Ep) _].
    rewrite <- Ep. rewrite <- Hperm, Forall_forall in Hf.
    apply Hf; [by apply list_elem_of_In|done].
  - intros x Hx. apply K3, Hcr in Hx as [(? & Hin & _)|Hx]; [by apply elem_of_nil in Hin|].
    by eapply covered_perm.
Qed.

(** ** Lemmas: storing *)

(** A fragment is the part of the payload at [start] that it names. *)
Record fragOk (start : Z) (payload : list Z) (f : tcpDataFragment) : Prop := {
  fr_lo : start <= df_offset f;
  fr_hi : df_offset f + zlen (df_payload f) <= start + zlen payload;
  fr_bytes : df_payload f = take (length (df_payload f))
               (drop (Z.to_nat (df_offset f - start)) payload) }.

Definition inFragments (l : list tcpDataFragment) (x : Z) : Prop :=
  exists f, f ∈ l /\ df_offset f <= x < df_offset f + zlen (df_payload f).

Lemma inFragments_app l k x : inFragments (l ++ k) x <-> inFragments l x \/ inFragments k x.
Proof.
  unfold inFragments. setoid_rewrite elem_of_app. split.
  - intros (f & [Hf|Hf] & H); [left|right]; by exists f.
  - intros [(f & Hf & H)|(f & Hf & H)]; exists f; auto.
Qed.

Lemma fragmentsBytes_app l k : fragmentsBytes (l ++ k) = fragmentsBytes l + fragmentsBytes k.
Proof. induction l; simpl; lia. Qed.

(** The slice between two cursors is a fragment. *)
Lemma slice_frag start payload a b :
  start <= a -> a <= b -> b <= start + zlen payload ->
  exists part, slice payload (a - start) (b - start) = Some part /\
    fragOk start payload (mkDataFragment a part) /\ zlen part = b - a.
Proof.
  intros Ha Hab Hb. rewrite slice_eq by lia. eexists. split; [done|].
  set (part := take _ _).
  assert (zlen part = b - a) as El by (subst part; len).
  split; [split; simpl; [lia|lia|]|done].
  replace (length part) with (Z.to_nat (b - a)) by (unfold zlen in El; lia).
  subst part. f_equal. lia.
Qed.

Lemma uncovered_ok rn next start payload existing cursor frs :
  0 <= start -> start <= cursor <= start + zlen payload ->
  start + zlen payload <= windowLimit -> Forall (pieceOk rn next) existing ->
  exists c new, uncovered next start (start + zlen payload) cursor payload existing frs
                = Some (c, frs ++ new) /\
    cursor <= c /\ Forall (fragOk start payload) new /\
    fragmentsBytes new <= Z.min c (start + zlen payload) - cursor /\
    (length new <= length existing)%nat /\
    (forall x, cursor <= x < Z.min c (start + zlen payload) ->
       covered next existing x \/ inFragments new x).
Proof.
  intros Hs Hc Hlim H. set (stop := start + zlen payload) in *.
  revert cursor frs Hc. induction H as [|e existing He H IH]; intros cursor frs Hc.
  { exists cursor, []. simpl. rewrite app_nil_r. repeat split; done || lia. }
  simpl. pose proof (po_limit _ _ _ He) as Hl. pose proof (offset_range next e) as Ho.
  replace (u32 (offsetFrom next e + zlen (pc_payload e))) with (pieceEnd next e)
    by (unfold pieceEnd, windowLimit in *; len_facts; word).
  set (es := offsetFrom next e) in *. set (ee := pieceEnd next e) in *.
  assert (es <= ee) as Hee by (subst ee; unfold pieceEnd; len).
  destruct (ee <=? cursor) eqn:E1.
  { destruct (IH cursor frs Hc) as (c & new & E & Hcc & Hok & Hb & Hlen & Hcov).
    exists c, new. split; [done|]. split; [done|]. split; [done|]. split; [done|].
    split; [lia|]. intros x Hx. destruct (Hcov x Hx); [left|by right].
    apply covered_cons. by right. }
  destruct (stop <=? es) eqn:E2.
  { exists cursor, []. rewrite app_nil_r. repeat split; simpl; done || lia. }
  set (fe := if stop <? es then stop else es). assert (fe = es) as Efe by (subst fe; split_ifs; lia).
  clearbody fe. subst fe.
  assert (exists part, (if cursor <? es
     then part ← slice payload (cursor - start) (es - start); Some (frs ++ [mkDataFragment cursor part])
     else Some frs) = Some (frs ++ part) /\ Forall (fragOk start payload) part /\
     fragmentsBytes part = Z.max 0 (es - cursor) /\ (length part <= 1)%nat /\
     (forall x, cursor <= x < es -> inFragments part x)) as (part & -> & Hpok & Hpb & Hpl & Hpc).
  { destruct (cursor <? es) eqn:E3.
    - destruct (slice_frag start payload cursor es) as (p & -> & Hp & El); [lia..|].
      exists [mkDataFragment cursor p]. simpl. split; [done|]. split; [by apply Forall_singleton|].
      split; [lia|]. split; [lia|]. intros x Hx. exists (mkDataFragment cursor p).
      split; [by left|]. simpl. lia.
    - exists []. rewrite app_nil_r. simpl. split; [done|]. split; [constructor|].
      split; [lia|]. split; [lia|]. intros x Hx. lia. }
  simpl. destruct (cursor <? ee) eqn:E4; [|lia].
  destruct (stop <=? ee) eqn:E5.
  - exists ee, part. split; [done|]. split; [lia|]. split; [done|]. split; [lia|].
    split; [lia|]. intros x Hx. destruct (Z.lt_ge_cases x es); [right; apply Hpc; lia|].
    left. apply covered_cons. left. fold es ee. lia.
  - destruct (IH ee (frs ++ part)) as (c & new & E & Hcc & Hok & Hb & Hlen & Hcov); [lia|].
    exists c, (part ++ new). rewrite app_assoc. split; [done|]. split; [lia|].
    split; [by apply Forall_app|]. split; [rewrite fragmentsBytes_app; lia|].
    split; [rewrite length_app; lia|].
    intros x Hx. rewrite inFragments_app, covered_cons. fold es ee.
    destruct (Z.lt_ge_cases x es); [right; left; apply Hpc; lia|].
    destruct (Z.lt_ge_cases x ee); [left; left; lia|].
    destruct (Hcov x); [lia|tauto|tauto].
Qed.

Lemma fragmentsOf_ok rn next start payload existing :
  0 <= start -> start + zlen payload <= windowLimit -> Forall (pieceOk rn next) existing ->
  exists frs, fragmentsOf next start payload existing = Some frs /\
    Forall (fragOk start payload) frs /\ fragmentsBytes frs <= zlen payload /\
    (length frs <= S (length existing))%nat /\
    (forall x, start <= x < start + zlen payload -> covered next existing x \/ inFragments frs x).
Proof.
  intros Hs Hlim H. unfold fragmentsOf. pose proof (zlen_nonneg payload) as Hlen.
  destruct (zlen payload =? 0) eqn:E0.
  { exists []. split; [done|]. split; [constructor|]. split; [simpl; lia|].
    split; [simpl; lia|]. intros x Hx. lia. }
  replace (start ⊞ zlen payload) with (start + zlen payload) by (unfold windowLimit in *; word).
  destruct (uncovered_ok rn next start payload existing start [])
    as (c & new & -> & Hc & Hok & Hb & Hl & Hcov); try done; [lia|].
  simpl. destruct (c <? start + zlen payload) eqn:E1.
  - destruct (slice_frag start payload c (start + zlen payload)) as (p & Ep & Hp & El); [lia..|].
    replace (start + zlen payload - start) with (zlen payload) in Ep by lia. rewrite Ep. simpl.
    eexists. split; [done|]. split; [apply Forall_app; split; [done|by apply Forall_singleton]|].
    rewrite fragmentsBytes_app, length_app. simpl. split; [lia|]. split; [lia|].
    intros x Hx. rewrite inFragments_app. destruct (Z.lt_ge_cases x c).
    + destruct (Hcov x); [lia|tauto|tauto].
    + right. right. exists (mkDataFragment c p). split; [by left|]. simpl. lia.
  - exists new. split; [done|]. split; [done|]. split; [lia|]. split; [lia|].
    intros x Hx. apply Hcov. lia.
Qed.

(** The pieces made of the fragments. *)
Definition fragPiece (next : Z) (f : tcpDataFragment) : tcpReceivedPiece :=
  mkPiece (next ⊞ df_offset f) (retainTCPPayload (df_payload f)) false.

Lemma fragPiece_ok rn next start payload f :
  0 <= start -> start + zlen payload <= windowLimit -> goodAt (rn + start) payload ->
  fragOk start payload f ->
  pieceOk rn next (fragPiece next f) /\ offsetFrom next (fragPiece next f) = df_offset f.
Proof.
  intros Hs Hlim Hg [Hlo Hhi Hb].
  assert (offsetFrom next (fragPiece next f) = df_offset f) as Eo.
  { apply offset_mk. unfold windowLimit in *. len. }
  split; [|done]. split.
  - apply u32_range.
  - unfold pieceEnd. rewrite Eo. simpl. rewrite retain_eq. lia.
  - rewrite Eo. simpl. rewrite retain_eq, Hb. apply goodAt_take.
    replace (rn + df_offset f) with (rn + start + (df_offset f - start)) by lia.
    apply goodAt_drop; [|done]. len.
  - done.
Qed.

Lemma fragPieces_ok rn next start payload frs :
  0 <= start -> start + zlen payload <= windowLimit -> goodAt (rn + start) payload ->
  Forall (fragOk start payload) frs ->
  Forall (pieceOk rn next) (map (fragPiece next) frs) /\
  piecesBytes (map (fragPiece next) frs) = fragmentsBytes frs /\
  (forall x, inFragments frs x <-> covered next (map (fragPiece next) frs) x).
Proof.
  intros Hs Hlim Hg H. induction H as [|f frs Hf H (IH1 & IH2 & IH3)].
  { split; [constructor|]. split; [done|].
    intros x. split; intros (? & Hin & _); by apply elem_of_nil in Hin. }
  destruct (fragPiece_ok rn next start payload f Hs Hlim Hg Hf) as [Hp Eo].
  cbn [map]. split; [by constructor|]. split; [simpl; rewrite retain_eq; lia|].
  intros x. rewrite covered_cons, <- IH3. unfold pieceEnd. rewrite Eo. simpl. rewrite retain_eq.
  unfold inFragments. setoid_rewrite elem_of_cons. split.
  - intros (g & [->|Hin] & Hx); [by left|right; by exists g].
  - intros [Hx|(g & Hin & Hx)]; [exists f|exists g]; auto.
Qed.

(** No byte lies at or beyond a position where the stream may end. *)
Definition finConsistent : Prop := forall f a v, gf f -> good a v -> a < f.

Lemma goodAt_lt_fin a l f :
  finConsistent -> gf f -> goodAt a l -> l <> [] -> a + zlen l <= f.
Proof.
  intros Hf Hgf Hg Hne. destruct (list.last l) as [v|] eqn:E; [|by apply last_None in E].
  rewrite last_lookup in E. apply Hg in E. apply (Hf f) in E; [|done].
  destruct l; [done|]. unfold zlen in *. simpl in *. lia.
Qed.

Lemma covered_lt_fin rn next l x p :
  finConsistent -> Forall (pieceOk rn next) l -> covered next l x ->
  p ∈ l -> pc_fin p = true -> x < pieceEnd next p.
Proof.
  intros Hf H (q & Hq & Hx) Hp Hpf. rewrite Forall_forall in H.
  pose proof (H p (proj1 (list_elem_of_In _ _) Hp)) as Hpo.
  pose proof (H q (proj1 (list_elem_of_In _ _) Hq)) as Hqo.
  pose proof (po_fin _ _ _ Hpo Hpf) as Hgf.
  assert (pc_payload q <> []) as Hne.
  { intros E. unfold pieceEnd in Hx. rewrite E in Hx. change (zlen []) with 0 in Hx. lia. }
  pose proof (goodAt_lt_fin _ _ _ Hf Hgf (po_good _ _ _ Hqo) Hne). unfold pieceEnd in *. lia.
Qed.

Lemma existingFIN_some rn next l e :
  Forall (pieceOk rn next) l -> existingFIN l = Some e ->
  exists p, p ∈ l /\ pc_fin p = true /\ pieceOk rn next p /\ e = next ⊞ pieceEnd next p.
Proof.
  induction 1 as [|p l Hp H IH]; [done|]. simpl. destruct (pc_fin p) eqn:Ef.
  - intros [= <-]. exists p. split; [by left|]. split; [done|]. split; [done|].
    apply piece_seq_add.
  - intros E. destruct (IH E) as (q & Hq & Hrest). exists q. split; [by right|done].
Qed.

Lemma trimToWindow_ok rn next d window payload fin pieces :
  is_u32 next -> 0 <= d < 2147483648 -> 0 <= window <= windowLimit ->
  (d < window \/ (d = 0 /\ payload = [] /\ fin = true)) -> zlen payload <= 65535 ->
  goodAt (rn + d) payload -> Forall (pieceOk rn next) pieces ->
  exists n fin', trimToWindow (next ⊞ d) d window payload fin pieces
                 = Some (take n payload, fin') /\
    d + zlen (take n payload) <= windowLimit /\
    (fin' = true -> fin = true /\ d + zlen payload <= windowLimit) /\
    (finConsistent -> d + zlen payload <= window -> take n payload = payload).
Proof.
  intros Hn Hd Hw Hpass Hlen Hg Hp. unfold trimToWindow.
  pose proof (zlen_nonneg payload) as Hl0.
  assert (d < window \/ d = 0 /\ zlen payload = 0) as Hpass'
    by (destruct Hpass as [?|(? & -> & _)]; [by left|by right]).
  assert (d <= window) as Hdw by lia. unfold windowLimit in *.
  replace (window ⊟ d) with (window - d) by word.
  set (pl1 := if window - d <? zlen payload then _ else payload).
  assert (pl1 = take (Z.to_nat (window - d)) payload) as E1.
  { subst pl1. destruct (_ <? _) eqn:E; [done|]. rewrite take_ge; [done|]. unfold zlen in *. lia. }
  rewrite E1. clear pl1 E1.
  set (fin1 := fin && _).
  assert (fin1 = true -> fin = true /\ d + zlen payload <= window) as Hf1.
  { subst fin1. rewrite andb_true_iff. intros [-> H]. split; [done|].
    rewrite zlen_take in H.
    apply orb_true_iff in H as [H|H]; [apply andb_true_iff in H as [? ?]|];
      rewrite ?Z.eqb_eq, ?Z.ltb_lt in *; lia. }
  assert (zlen (take (Z.to_nat (window - d)) payload) = Z.min (window - d) (zlen payload)) as El1
    by (rewrite zlen_take; lia).
  destruct (existingFIN pieces) as [e|] eqn:Ee.
  2: { exists (Z.to_nat (window - d)), fin1. split; [done|]. split; [lia|].
       split; [intros H; specialize (Hf1 H); split; [by apply Hf1|lia]|].
       intros _ Hfit. apply take_ge. unfold zlen in *. lia. }
  destruct (existingFIN_some rn next pieces e Hp Ee) as (p & Hin & Hpf & Hpo & ->).
  pose proof (po_limit _ _ _ Hpo) as Hlim. pose proof (offset_range next p) as Ho.
  assert (0 <= pieceEnd next p) as Hpe by (unfold pieceEnd; len).
  unfold windowLimit in *. set (e := pieceEnd next p) in *.
  set (pl := take (Z.to_nat (window - d)) payload) in *.
  replace (u32 (u32 (next + d) + zlen pl)) with (next ⊞ (d + zlen pl)) by word.
  assert (finConsistent -> d + zlen payload <= window -> payload <> [] -> d + zlen payload <= e) as Hcut.
  { intros Hfc _ Hne. pose proof (goodAt_lt_fin _ _ _ Hfc (po_fin _ _ _ Hpo Hpf) Hg Hne).
    unfold e. lia. }
  unfold tcpSequenceGreater. rewrite less_offsets by lia.
  set (fin2 := fin1 && _). assert (fin2 = true -> fin1 = true) as Hf2.
  { subst fin2. by intros [? _]%andb_true_iff. }
  destruct (e <? d + zlen pl) eqn:E2.
  - rewrite less_offsets by lia. destruct (d <? e) eqn:E3; simpl.
    + replace ((next ⊞ e) ⊟ (next ⊞ d)) with (e - d) by word.
      rewrite slice_eq by lia. simpl. rewrite drop_0, Z.sub_0_r. subst pl.
      rewrite take_take. eexists _, fin2. split; [done|].
      split; [rewrite zlen_take; lia|]. split; [intros H; specialize (Hf1 (Hf2 H)); split; [by apply Hf1|lia]|].
      intros Hfc Hfit. destruct (decide (payload = [])) as [->|Hne]; [by rewrite take_nil|].
      specialize (Hcut Hfc Hfit Hne). lia.
    + exists 0%nat, fin2. split; [done|]. split; [change (zlen (take 0 payload)) with 0; lia|].
      split; [intros H; specialize (Hf1 (Hf2 H)); split; [by apply Hf1|lia]|].
      intros Hfc Hfit. destruct (decide (payload = [])) as [->|Hne]; [done|].
      specialize (Hcut Hfc Hfit Hne). lia.
  - exists (Z.to_nat (window - d)), fin2. split; [done|]. fold pl. split; [lia|].
    split; [intros H; specialize (Hf1 (Hf2 H)); split; [by apply Hf1|lia]|].
    intros _ Hfit. subst pl. apply take_ge. unfold zlen in *. lia.
Qed.

(** Room for a segment at offset [d]: inside the window, inside the storage
    bound, and enough metadata for the pieces it can be split into. *)
Definition roomy (s : recvState) (d size window extra : Z) : Prop :=
  d + size <= window /\ size <= receiveAvailable (rs_conn s) (rs_bytes s) + extra /\
  2 * zlen (rs_pieces s) + 2 <= tcpMaximumOutOfOrder.

(** The FIN-only piece a segment may add. *)
Definition finPiece (next d size : Z) (fin : bool) : list tcpReceivedPiece :=
  if fin then [mkPiece (next ⊞ (d + size)) [] true] else [].

Lemma finPiece_ok rn next d size fin :
  0 <= d + size -> (fin = true -> d + size <= windowLimit /\ gf (rn + d + size)) ->
  Forall (pieceOk rn next) (finPiece next d size fin) /\
  piecesBytes (finPiece next d size fin) = 0 /\
  zlen (finPiece next d size fin) = (if fin then 1 else 0).
Proof.
  intros H0 H. unfold finPiece. destruct fin; [|by repeat split; constructor].
  destruct (H eq_refl) as [Hlim Hgf]. split; [|done]. apply Forall_singleton.
  assert (offsetFrom next (mkPiece (next ⊞ (d + size)) [] true) = d + size) as Eo
    by (apply offset_mk; unfold windowLimit in *; lia).
  split; [apply u32_range| | |]; unfold pieceEnd; rewrite ?Eo; simpl.
  - len.
  - apply goodAt_nil.
  - intros _. change (zlen []) with 0. by rewrite Z.add_0_r, Z.add_assoc.
Qed.

(** The normalized scoreboard with the uncovered parts of a segment added. *)
Lemma candidate_ok rn next d pl size fin pieces :
  is_u32 next -> 0 <= d -> d + zlen pl <= windowLimit -> goodAt (rn + d) pl ->
  Forall (pieceOk rn next) pieces -> 0 <= d + size ->
  (fin = true -> d + size <= windowLimit /\ gf (rn + d + size)) ->
  exists frs r, fragmentsOf next d pl pieces = Some frs /\
    normalizeTCPReceivedPieces next
      (pieces ++ map (fragPiece next) frs ++ finPiece next d size fin) = Some r /\
    Forall (pieceOk rn next) r /\ disjointFrom next 0 r /\
    piecesBytes r <= piecesBytes pieces + fragmentsBytes frs /\
    fragmentsBytes frs <= zlen pl /\ zlen frs <= zlen pieces + 1 /\
    zlen r <= zlen pieces + zlen frs + (if fin then 1 else 0) /\
    (finConsistent -> forall x, covered next pieces x \/ d <= x < d + zlen pl -> covered next r x) /\
    (forall x, covered next r x -> covered next pieces x \/ d <= x < d + zlen pl).
Proof.
  intros Hn Hd Hlim Hg Hp Hds Hfin.
  destruct (fragmentsOf_ok rn next d pl pieces) as (frs & Ef & Hfo & Hfb & Hfl & Hcov); try done.
  destruct (fragPieces_ok rn next d pl frs) as (Hfp & Efb & Hfcov); try done.
  destruct (finPiece_ok rn next d size fin) as (Hfin' & Efp & Elfp); try done.
  set (fps := map (fragPiece next) frs) in *. set (fp := finPiece next d size fin) in *.
  assert (Forall (pieceOk rn next) (pieces ++ fps ++ fp)) as Hall
    by (apply Forall_app; split; [done|by apply Forall_app]).
  destruct (normalize_ok rn next _ Hn Hall) as (r & Er & Hrok & Hrdis & Hrb & Hrl & Hrc & Hrc').
  exists frs, r. split; [done|]. split; [done|]. split; [done|]. split; [done|].
  rewrite !piecesBytes_app, Efb, Efp in Hrb. split; [lia|]. split; [done|].
  split; [unfold zlen in *; lia|].
  split; [rewrite <- Elfp; unfold zlen, fps in *; rewrite !length_app, length_map in Hrl; lia|].
  split.
  - intros Hfc x Hx. assert (covered next (pieces ++ fps ++ fp) x) as Hc.
    { rewrite !covered_app. destruct Hx as [Hx|Hx]; [by left|].
      destruct (Hcov x Hx) as [Hc|Hc]; [by left|right; left; by apply Hfcov]. }
    apply Hrc; [done|]. apply Forall_forall. intros p Hin Hpf.
    by eapply covered_lt_fin; [done|exact Hall|exact Hc|apply list_elem_of_In|].
  - intros x Hx. apply Hrc' in Hx. rewrite !covered_app in Hx.
    destruct Hx as [Hx|[Hx|(q & Hin & Hx)]]; [by left|right|exfalso].
    + apply Hfcov in Hx as (f & Hin & Hx). rewrite Forall_forall in Hfo.
      destruct (Hfo f (proj1 (list_elem_of_In _ _) Hin)). lia.
    + subst fp. unfold finPiece in Hin. destruct fin; [|by apply elem_of_nil in Hin].
      apply list_elem_of_singleton in Hin as ->. unfold pieceEnd in Hx. simpl in Hx.
      change (zlen []) with 0 in Hx. lia.
Qed.

Lemma store_ok rn s window extra d payload fin capacity :
  recvOk rn s -> 0 <= d < 2147483648 -> 0 <= window <= windowLimit -> zlen payload <= 65535 ->
  goodAt (rn + d) payload -> (fin = true -> gf (rn + d + zlen payload)) ->
  exists s' stored,
    storeTCPOutOfOrder s window extra (rs_next s ⊞ d) payload fin capacity = Some (s', stored) /\
    recvOk rn s' /\ rs_next s' = rs_next s /\
    (exists n, rs_conn s' = setUnread (rs_conn s) n) /\
    rs_bytes s' <= rs_bytes s + Z.max 0 (receiveAvailable (rs_conn s) (rs_bytes s) + extra) /\
    zlen (rs_pieces s') <= Z.max (zlen (rs_pieces s)) tcpMaximumOutOfOrder /\
    (finConsistent -> forall x, covered (rs_next s) (rs_pieces s) x ->
       covered (rs_next s) (rs_pieces s') x) /\
    (forall x, covered (rs_next s) (rs_pieces s') x ->
       covered (rs_next s) (rs_pieces s) x \/ d <= x < d + zlen payload) /\
    (finConsistent -> roomy s d (zlen payload) window extra ->
       forall x, d <= x < d + zlen payload -> covered (rs_next s) (rs_pieces s') x).
Proof.
  intros Hs Hd Hw Hlen Hg Hgf. pose proof Hs as [Hn Hbuf Hp Hdis Hbytes].
  pose proof (zlen_nonneg payload) as Hl0. unfold storeTCPOutOfOrder.
  replace ((rs_next s ⊞ d) ⊟ rs_next s) with d by word.
  set (available := receiveAvailable _ _ + extra).
  set (available' := if available <? 0 then 0 else available).
  assert (available' = Z.max 0 available) as Eav by (subst available'; split_ifs; lia).
  assert (exists n, rs_conn s = setUnread (rs_conn s) n) as Hsame
    by (exists (rc_unread (rs_conn s)); by destruct (rs_conn s)).
  destruct (_ && negb _) eqn:Epass.
  { exists s, false. repeat (split; [done || lia || by left|]). intros _ (Hfit & _) x Hx. lia. }
  assert (d < window \/ (d = 0 /\ payload = [] /\ fin = true)) as Hpass.
  { destruct (Z.lt_ge_cases d window); [by left|right].
    replace (window <=? d) with true in Epass by lia. simpl in Epass.
    apply negb_false_iff in Epass. rewrite !andb_true_iff in Epass.
    destruct Epass as [[E1 E2] ->]. split; [lia|]. split; [|done]. apply zlen_zero. lia. }
  destruct (trimToWindow_ok rn (rs_next s) d window payload fin (rs_pieces s))
    as (n & fin' & Et & Htl & Htf & Htc); try done.
  rewrite Et. simpl.
  destruct (candidate_ok rn (rs_next s) d (take n payload) (zlen payload) fin' (rs_pieces s))
    as (frs & r & Ef & Er & Hrok & Hrdis & Hrb & Hfb & Hfl & Hrl & Hrc & Hrc'); try done; try lia.
  { by apply goodAt_take. }
  { intros H. destruct (Htf H). auto. }
  rewrite Ef. simpl. replace (u32 (u32 (rs_next s + d) + zlen payload))
    with (rs_next s ⊞ (d + zlen payload)) by word.
  fold (fragPiece (rs_next s)) (finPiece (rs_next s) d (zlen payload) fin'). rewrite Er. simpl.
  set (reuse := _ && _ && _).
  assert (reuse = true -> fragmentsBytes frs <= available' /\ zlen r <= tcpMaximumOutOfOrder) as Hre
    by (subst reuse; rewrite !andb_true_iff; lia).
  destruct (_ && negb reuse) eqn:Efail.
  - exists s, false. repeat (split; [done || lia || by left|]).
    intros Hfc (Hfit & Hroom & Hmeta) x Hx. exfalso. rewrite (Htc Hfc Hfit) in Hfb.
    apply andb_true_iff in Efail as [Efail _].
    apply orb_true_iff in Efail as [Efail|Efail]; [lia|]. destruct fin'; lia.
  - eexists _, _. split; [done|]. split; [by split|]. split; [done|].
    split; [by eexists|]. simpl.
    apply andb_false_iff in Efail as [Efail|Efail];
      [apply orb_false_iff in Efail as [Efail1 Efail2]|apply negb_false_iff, Hre in Efail].
    all: split; [lia|]; split; [lia|]; split; [by intros Hfc x Hx; apply Hrc; [|left]|].
    all: split; [intros x Hx; destruct (Hrc' x Hx); [by left|right; rewrite zlen_take in *; lia]|].
    all: intros Hfc (Hfit & _) x Hx; apply Hrc; [done|right]; by rewrite (Htc Hfc Hfit).
Qed.

(** ** Lemmas: delivering *)

Lemma append_ok grow c payload ooo extra :
  readBufferOk (rc_buffer c) -> 0 <= extra ->
  exists c' n, appendReadBuffer grow c payload ooo extra = (c', n) /\
    readBufferOk (rc_buffer c') /\ 0 <= n <= zlen payload /\
    rb_bytes (rc_buffer c') = rb_bytes (rc_buffer c)
      ++ (if discarding c then [] else take (Z.to_nat n) payload) /\
    discarding c' = discarding c /\ rc_capacity c' = rc_capacity c /\
    n = (if discarding c then zlen payload
         else Z.min (zlen payload)
                (Z.max 0 (rc_capacity c - rb_size (rc_buffer c) - ooo + extra))).
Proof.
  intros Hb He. pose proof (zlen_nonneg payload) as Hl. unfold appendReadBuffer.
  destruct (discarding c) eqn:Ed.
  { exists c, (zlen payload). rewrite app_nil_r. repeat (split; [done || lia|]). done. }
  set (a0 := if negb (extra =? 0) then _ else _).
  assert (a0 = rc_capacity c - rb_size (rc_buffer c) - ooo + extra) as Ea
    by (subst a0; split_ifs; lia).
  set (a := if a0 <? 0 then 0 else a0). assert (a = Z.max 0 a0) as Ea' by (subst a; split_ifs; lia).
  set (pl := if a <? zlen payload then _ else payload).
  assert (pl = take (Z.to_nat (Z.min (zlen payload) a)) payload) as Epl.
  { subst pl. destruct (a <? zlen payload) eqn:E; [f_equal; lia|].
    rewrite take_ge; [done|]. unfold zlen in *. lia. }
  rewrite retain_eq. eexists _, _. split; [done|]. simpl.
  destruct (rb_append_ok grow (rc_buffer c) pl Hb) as [Hok Eb].
  assert (zlen pl = Z.min (zlen payload) a) as El by (rewrite Epl, zlen_take; lia).
  split; [done|]. split; [lia|]. split; [by rewrite Eb, El, <- Epl|].
  split; [done|]. split; [done|]. lia.
Qed.

Lemma skipDelivered_ok next d payload fin :
  is_u32 next -> -2147483648 < d < 2147483648 -> zlen payload < 2147483648 ->
  exists fin', skipDelivered next (next ⊞ d) payload fin
    = Some (next ⊞ Z.max 0 d, drop (Z.to_nat (- d)) payload, fin') /\
    (fin' = true -> fin = true /\ Z.max 0 d + zlen (drop (Z.to_nat (- d)) payload) = d + zlen payload).
Proof.
  intros Hn Hd Hl. pose proof (zlen_nonneg payload). unfold skipDelivered.
  assert (tcpSequenceLess (next ⊞ d) next = (d <? 0)) as ->.
  { replace next with (next ⊞ 0) at 2 by word. apply less_offsets. lia. }
  destruct (d <? 0) eqn:E0.
  - replace (next ⊟ (next ⊞ d)) with (- d) by word.
    replace (next ⊞ Z.max 0 d) with next by word.
    destruct (- d <? zlen payload) eqn:E1.
    + rewrite slice_eq by lia. simpl. exists fin.
      rewrite take_ge by (rewrite length_drop; unfold zlen in *; lia).
      split; [done|]. intros ->. split; [done|]. rewrite zlen_drop. lia.
    + rewrite drop_ge by (unfold zlen in *; lia). eexists. split; [done|].
      rewrite andb_true_iff. intros [-> E]. split; [done|]. change (zlen []) with 0. word.
  - exists fin. replace (Z.max 0 d) with d by lia. replace (Z.to_nat (- d)) with 0%nat by lia.
    rewrite drop_0. split; [done|]. intros ->. split; [done|lia].
Qed.

Lemma rebase rn next n p :
  pieceOk rn next p -> 0 <= n <= offsetFrom next p ->
  pieceOk (rn + n) (next ⊞ n) p /\ offsetFrom (next ⊞ n) p = offsetFrom next p - n /\
  pieceEnd (next ⊞ n) p = pieceEnd next p - n.
Proof.
  intros [Hs Hl Hg Hf] Hn.
  assert (offsetFrom (next ⊞ n) p = offsetFrom next p - n) as Eo by (unfold offsetFrom in *; word).
  assert (pieceEnd (next ⊞ n) p = pieceEnd next p - n) as Ee by (unfold pieceEnd; lia).
  split; [|done]. split.
  - done.
  - lia.
  - rewrite Eo. by replace (rn + n + (offsetFrom next p - n)) with (rn + offsetFrom next p) by lia.
  - intros H. rewrite Ee. replace (rn + n + (pieceEnd next p - n)) with (rn + pieceEnd next p) by lia.
    by apply Hf.
Qed.

Lemma rebase_list rn next n lo l :
  Forall (pieceOk rn next) l -> disjointFrom next lo l -> 0 <= n <= lo ->
  Forall (pieceOk (rn + n) (next ⊞ n)) l /\ disjointFrom (next ⊞ n) (lo - n) l /\
  (forall x, covered next l x -> covered (next ⊞ n) l (x - n)).
Proof.
  intros H. revert lo. induction H as [|p l Hp H IH]; intros lo Hd Hn.
  { split; [constructor|]. split; [done|]. intros x (? & Hin & _). by apply elem_of_nil in Hin. }
  destruct Hd as [Hlo Hd].
  destruct (rebase rn next n p Hp) as (Hp' & Eo & Ee); [lia|].
  destruct (IH (pieceEnd next p) Hd) as (IH1 & IH2 & IH3); [unfold pieceEnd; len|].
  split; [by constructor|]. split.
  - simpl. rewrite Eo, Ee. split; [lia|done].
  - intros x Hx. apply covered_cons. rewrite Eo, Ee.
    apply covered_cons in Hx as [Hx|Hx]; [left; lia|right; by apply IH3].
Qed.

(** What delivery does: the bytes [data] leave the scoreboard or the segment
    for the application, [receiveNext] advances by them and by the FIN. *)
Record delivered (rn : Z) (c : recvConn) (next : Z) (c' : recvConn) (next' : Z)
    (data : list Z) (closed : bool) : Prop := {
  dl_good : goodAt rn data;
  dl_next : next' = next ⊞ (zlen data + if closed then 1 else 0);
  dl_buffer : readBufferOk (rc_buffer c');
  dl_bytes : rb_bytes (rc_buffer c')
             = rb_bytes (rc_buffer c) ++ (if discarding c then [] else data);
  dl_discard : discarding c' = discarding c;
  dl_capacity : rc_capacity c' = rc_capacity c;
  dl_fin : closed = true -> gf (rn + zlen data) }.

Lemma delivered_trans rn c next c1 next1 c2 next2 d1 d2 closed :
  delivered rn c next c1 next1 d1 false ->
  delivered (rn + zlen d1) c1 next1 c2 next2 d2 closed ->
  delivered rn c next c2 next2 (d1 ++ d2) closed.
Proof.
  intros [G1 N1 B1 Y1 D1 C1 _] [G2 N2 B2 Y2 D2 C2 F2]. split; try done; try congruence.
  - by apply goodAt_app.
  - rewrite N2, N1, zlen_app. word.
  - rewrite Y2, Y1, D1. destruct (discarding c); rewrite ?app_nil_r, <- ?app_assoc; done.
  - intros H. rewrite zlen_app, Z.add_assoc. by apply F2.
Qed.

(** The memory a connection charges to its receive bound. *)
Definition held (c : recvConn) (bytes : Z) : Z :=
  if discarding c then bytes else rb_size (rc_buffer c) + bytes.

Record promoted (rn : Z) (c : recvConn) (next : Z) (pieces : list tcpReceivedPiece) (bytes extra : Z)
    (c' : recvConn) (next' : Z) (pieces' : list tcpReceivedPiece) (bytes' : Z) (closed : bool)
    (data : list Z) : Prop := {
  pm_delivered : delivered rn c next c' next' data closed;
  pm_ok : closed = false -> Forall (pieceOk (rn + zlen data) next') pieces' /\
            disjointFrom next' 0 pieces' /\ bytes' = piecesBytes pieces';
  pm_held : held c' bytes' <= held c bytes;
  pm_nonneg : 0 <= bytes';
  pm_len : (length pieces' <= length pieces)%nat;
  pm_keep : closed = false -> forall x, zlen data <= x -> covered next pieces x ->
            covered next' pieces' (x - zlen data);
  pm_drained : closed = false -> held c bytes <= rc_capacity c + extra \/ discarding c = true ->
            ~ covered next' pieces' 0 }.

Lemma delivered_nil rn c next :
  is_u32 next -> readBufferOk (rc_buffer c) -> delivered rn c next c next [] false.
Proof.
  intros Hn Hb. split; [apply goodAt_nil| |done| |done|done|done].
  - change (zlen []) with 0. word.
  - destruct (discarding c); by rewrite app_nil_r.
Qed.

Lemma disjoint_lower next lo l p : disjointFrom next lo l -> p ∈ l -> lo <= offsetFrom next p.
Proof.
  revert lo. induction l as [|r l IH]; intros lo Hd Hin; [by apply elem_of_nil in Hin|].
  destruct Hd as [Hl Hd]. apply elem_of_cons in Hin as [->|Hin]; [done|].
  specialize (IH _ Hd Hin). unfold pieceEnd in IH. len.
Qed.

Lemma disjoint_not_covered next lo l x : disjointFrom next lo l -> x < lo -> ~ covered next l x.
Proof. intros Hd Hx (p & Hin & Hp). pose proof (disjoint_lower _ _ _ _ Hd Hin). lia. Qed.

(** Nothing to deliver. *)
Lemma promoted_stop rn c next pieces extra :
  is_u32 next -> readBufferOk (rc_buffer c) -> Forall (pieceOk rn next) pieces ->
  disjointFrom next 0 pieces -> ~ covered next pieces 0 ->
  promoted rn c next pieces (piecesBytes pieces) extra c next pieces (piecesBytes pieces) false [].
Proof.
  intros Hn Hb Hp Hd Hc. pose proof (piecesBytes_nonneg pieces).
  split; change (zlen []) with 0; try done; try lia.
  - by apply delivered_nil.
  - by rewrite Z.add_0_r.
  - intros _ x _ Hx. by rewrite Z.sub_0_r.
Qed.

Lemma held_delivered rn c next c' next' data b b' :
  readBufferOk (rc_buffer c) -> delivered rn c next c' next' data false ->
  b' + zlen data = b -> held c' b' <= held c b /\ (discarding c = false -> held c' b' = held c b).
Proof.
  intros Hb [_ _ Hb' Hy Hd _ _] E. unfold held. rewrite Hd, (rbo_size _ Hb), (rbo_size _ Hb'), Hy.
  destruct (discarding c); len.
Qed.

(** The head piece is delivered in full and the rest is promoted. *)
Lemma promoted_cons rn c next p rest extra c1 c' next' pieces' bytes' closed data :
  readBufferOk (rc_buffer c) -> offsetFrom next p = 0 -> Forall (pieceOk rn next) rest ->
  disjointFrom next (pieceEnd next p) rest ->
  delivered rn c next c1 (next ⊞ zlen (pc_payload p)) (pc_payload p) false ->
  promoted (rn + zlen (pc_payload p)) c1 (next ⊞ zlen (pc_payload p)) rest (piecesBytes rest) extra
           c' next' pieces' bytes' closed data ->
  promoted rn c next (p :: rest) (piecesBytes (p :: rest)) extra
           c' next' pieces' bytes' closed (pc_payload p ++ data).
Proof.
  intros Hb Eo Hrest Hd Hdel [D O H N L K Dr]. set (n := zlen (pc_payload p)) in *.
  assert (pieceEnd next p = n) as Ee by (unfold pieceEnd; lia). rewrite Ee in Hd.
  assert (0 <= n) by (unfold n; len).
  destruct (rebase_list rn next n n rest Hrest Hd) as (_ & _ & Hcov); [lia|].
  destruct (held_delivered rn c next c1 _ _ (piecesBytes (p :: rest)) (piecesBytes rest) Hb Hdel) as [Hh Hh'];
    [simpl; lia|].
  split.
  - by eapply delivered_trans.
  - intros Hc. rewrite zlen_app. fold n. rewrite Z.add_assoc. by apply O.
  - lia.
  - done.
  - simpl. lia.
  - intros Hc x Hx Hcx. rewrite zlen_app in *. fold n in Hx |- *.
    apply covered_cons in Hcx as [Hcx|Hcx]; [pose proof (zlen_nonneg data); lia|].
    replace (x - (n + zlen data)) with (x - n - zlen data) by lia.
    apply K; [done|lia|by apply Hcov].
  - intros Hc Hroom. apply Dr; [done|]. rewrite (dl_discard _ _ _ _ _ _ _ Hdel),
      (dl_capacity _ _ _ _ _ _ _ Hdel).
    destruct Hroom as [?|?]; [left; lia|by right].
Qed.

(** The head piece ends the stream. *)
Lemma promoted_fin rn c next p rest extra c1 :
  readBufferOk (rc_buffer c) -> offsetFrom next p = 0 -> pieceOk rn next p -> pc_fin p = true ->
  delivered rn c next c1 (next ⊞ zlen (pc_payload p)) (pc_payload p) false ->
  promoted rn c next (p :: rest) (piecesBytes (p :: rest)) extra
           c1 (next ⊞ zlen (pc_payload p) ⊞ 1) rest (piecesBytes rest) true (pc_payload p).
Proof.
  intros Hb Eo Hp Hf Hdel. pose proof (piecesBytes_nonneg rest).
  destruct (held_delivered rn c next c1 _ _ (piecesBytes (p :: rest)) (piecesBytes rest) Hb Hdel) as [Hh _];
    [simpl; lia|].
  split; try done; [|simpl; lia].
  destruct Hdel as [G N B Y D C _]. split; try done; [word|].
  intros _. pose proof (po_fin _ _ _ Hp Hf) as Hgf. unfold pieceEnd in Hgf. by rewrite Eo in Hgf.
Qed.

(** The receive bound cuts the head piece. *)
Lemma promoted_cut rn c next p rest extra c1 n fin :
  readBufferOk (rc_buffer c) -> is_u32 next -> offsetFrom next p = 0 -> pieceOk rn next p ->
  Forall (pieceOk rn next) rest -> disjointFrom next (pieceEnd next p) rest ->
  (fin = true -> pc_fin p = true) ->
  0 <= n < zlen (pc_payload p) ->
  discarding c = false -> rc_capacity c + extra < held c (piecesBytes (p :: rest)) ->
  delivered rn c next c1 (next ⊞ n) (take (Z.to_nat n) (pc_payload p)) false ->
  let q := mkPiece (next ⊞ n) (drop (Z.to_nat n) (pc_payload p)) fin in
  promoted rn c next (p :: rest) (piecesBytes (p :: rest)) extra
           c1 (next ⊞ n) (q :: rest) (piecesBytes (q :: rest)) false
           (take (Z.to_nat n) (pc_payload p)).
Proof.
  intros Hb Hn Eo [Hs Hl Hg Hf] Hrest Hd Hfin Hlt Hdisc Hfull Hdel q.
  assert (zlen (take (Z.to_nat n) (pc_payload p)) = n) as El by (rewrite zlen_take; lia).
  assert (zlen (pc_payload q) = zlen (pc_payload p) - n) as Elq by (simpl; rewrite zlen_drop; lia).
  assert (offsetFrom (next ⊞ n) q = 0) as Eoq by (unfold offsetFrom; simpl; word).
  assert (pieceEnd next p = zlen (pc_payload p)) as Ee by (unfold pieceEnd; lia).
  assert (pieceEnd (next ⊞ n) q = pieceEnd next p - n) as Eeq by (unfold pieceEnd at 1; lia).
  destruct (rebase_list rn next n (pieceEnd next p) rest Hrest Hd) as (Hr1 & Hr2 & Hcov); [lia|].
  destruct (held_delivered rn c next c1 _ _ (piecesBytes (p :: rest)) (piecesBytes (q :: rest)) Hb Hdel)
    as [Hh _]; [cbn [piecesBytes foldr]; lia|].
  split; try done.
  - intros _. rewrite El. split; [|split; [|done]].
    + constructor; [|done]. split; [apply u32_range|lia| |].
      * rewrite Eoq, Z.add_0_r. simpl. rewrite Eo, Z.add_0_r in Hg. apply goodAt_drop; [lia|done].
      * intros E. rewrite Eeq. specialize (Hf (Hfin E)).
        by replace (rn + n + (pieceEnd next p - n)) with (rn + pieceEnd next p) by lia.
    + split; [lia|]. by rewrite Eeq.
  - apply piecesBytes_nonneg.
  - intros _ x Hx Hc. rewrite El in *. apply covered_cons. rewrite Eoq, Eeq.
    apply covered_cons in Hc as [Hc|Hc]; [left; lia|right; by apply Hcov].
  - intros _ [Hroom|Hroom]; [lia|congruence].
Qed.

Lemma promoteLoop_ok grow rn c next pieces extra del :
  is_u32 next -> readBufferOk (rc_buffer c) -> 0 <= extra ->
  Forall (pieceOk rn next) pieces -> disjointFrom next 0 pieces ->
  exists c' next' pieces' bytes' del' closed data,
    promoteLoop grow c next pieces (piecesBytes pieces) extra del
    = Some (c', next', pieces', bytes', del', closed) /\
    promoted rn c next pieces (piecesBytes pieces) extra c' next' pieces' bytes' closed data.
Proof.
  intros Hn Hb Hx Hp. revert rn c next del Hn Hb Hp.
  induction pieces as [|p rest IH]; intros rn c next del Hn Hb Hp Hd.
  { exists c, next, [], 0, del, false, []. split; [done|].
    apply (promoted_stop rn c next []); try done.
    intros (? & Hin & _). by apply elem_of_nil in Hin. }
  inversion_clear Hp as [|? ? Hpo Hrest]. pose proof Hd as [Hlo Hd'].
  pose proof (po_limit _ _ _ Hpo) as Hlim. pose proof (offset_range next p) as Ho.
  assert (zlen (pc_payload p) <= windowLimit) as Hplen by (unfold pieceEnd in Hlim; lia).
  pose proof (piece_seq next p (po_seq _ _ _ Hpo)) as Eseq. cbn [promoteLoop].
  assert (tcpSequenceGreater (pc_sequence p) next = (0 <? offsetFrom next p)) as ->.
  { rewrite Eseq. unfold tcpSequenceGreater. replace next with (next ⊞ 0) at 1 by word.
    apply less_offsets. unfold pieceEnd, windowLimit in *. len. }
  destruct (0 <? offsetFrom next p) eqn:E0.
  { exists c, next, (p :: rest), (piecesBytes (p :: rest)), del, false, []. split; [done|].
    apply promoted_stop; try done; [by constructor|].
    apply (disjoint_not_covered next (offsetFrom next p)); [|lia]. split; [lia|done]. }
  assert (offsetFrom next p = 0) as Eo by lia. rewrite Eo in Eseq.
  replace (piecesBytes (p :: rest) - zlen (pc_payload p)) with (piecesBytes rest) by (simpl; lia).
  rewrite Eseq. destruct (skipDelivered_ok next 0 (pc_payload p) (pc_fin p)) as (fin & Es & Hfin);
    [done|lia|unfold windowLimit in *; lia|].
  rewrite Es. simpl. change (Z.to_nat (-0)) with 0%nat in *. rewrite drop_0 in *.
  destruct (append_ok grow c (pc_payload p) (piecesBytes rest) extra Hb Hx)
    as (c1 & n & Ea & Hb1 & Hn1 & Hy & Hdc & Hcap & En).
  rewrite Ea. assert (delivered rn c next c1 (next ⊞ n) (take (Z.to_nat n) (pc_payload p)) false) as Hdel.
  { split; try done.
    - apply goodAt_take. pose proof (po_good _ _ _ Hpo) as Hg. by rewrite Eo, Z.add_0_r in Hg.
    - rewrite zlen_take. f_equal. lia. }
  destruct (n =? zlen (pc_payload p)) eqn:E1; simpl.
  - assert (n = zlen (pc_payload p)) as Enl by lia.
    rewrite take_ge in Hdel by (unfold zlen in Enl; lia). rewrite Enl in *.
    destruct fin eqn:Ef.
    + destruct (Hfin eq_refl) as [Hpf _].
      eexists _, _, _, _, _, _, _. split; [done|]. by apply promoted_fin.
    + assert (pieceEnd next p = zlen (pc_payload p)) as Ee by (unfold pieceEnd; lia).
      pose proof Hd' as Hd0. rewrite Ee in Hd0.
      destruct (rebase_list rn next (zlen (pc_payload p)) _ rest Hrest Hd0)
        as (Hr1 & Hr2 & _); [len|].
      rewrite Z.sub_diag in Hr2.
      destruct (IH _ c1 _ (del || negb (zlen (pc_payload p) =? 0)) (u32_range _) Hb1 Hr1 Hr2)
        as (c' & next' & pieces' & bytes' & del' & closed & data & E & Hprom).
      exists c', next', pieces', bytes', del', closed, (pc_payload p ++ data). split; [done|].
      by eapply promoted_cons.
  - rewrite slice_eq by lia. simpl. rewrite retain_eq, take_ge by (rewrite length_drop; unfold zlen in *; lia).
    rewrite (Z.add_comm (piecesBytes rest)). eexists _, _, _, _, _, _, _. split; [done|].
    apply (promoted_cut rn c next p rest extra c1 n fin); try done; [|lia| |].
    + intros ->. by apply Hfin.
    + destruct (discarding c); [lia|done].
    + unfold held. destruct (discarding c); [lia|]. simpl. lia.
Qed.

(** What one call of the receive path guarantees for a segment whose first
    byte lies at offset [d] from [receiveNext]. *)
Record received (rn : Z) (s : recvState) (d size window extra : Z)
    (s' : recvState) (closed : bool) (data : list Z) : Prop := {
  rv_delivered : delivered rn (rs_conn s) (rs_next s) (rs_conn s') (rs_next s') data closed;
  rv_ok : closed = false -> recvOk (rn + zlen data) s';
  rv_closed : closed = true -> rs_pieces s' = [] /\ rs_bytes s' = 0;
  rv_held : held (rs_conn s') (rs_bytes s')
            <= Z.max (held (rs_conn s) (rs_bytes s)) (rc_capacity (rs_conn s) + extra);
  rv_len : zlen (rs_pieces s') <= Z.max (zlen (rs_pieces s)) tcpMaximumOutOfOrder;
  rv_keep : finConsistent -> closed = false -> forall x, zlen data <= x ->
            covered (rs_next s) (rs_pieces s) x ->
            covered (rs_next s') (rs_pieces s') (x - zlen data);
  rv_complete : finConsistent -> closed = false -> roomy s d size window extra ->
            ~ covered (rs_next s) (rs_pieces s) 0 ->
            ~ covered (rs_next s') (rs_pieces s') 0 /\
            forall x, zlen data <= x -> d <= x < d + size ->
              covered (rs_next s') (rs_pieces s') (x - zlen data) }.

Lemma available_held c b : receiveAvailable c b = rc_capacity c - held c b.
Proof. unfold receiveAvailable, receiveSpace, held. simpl. destruct (discarding c); lia. Qed.

Lemma held_unread c n b : held (setUnread c n) b = held c b.
Proof. done. Qed.

Lemma delivered_unread rn c next c' next' data closed n :
  delivered rn c next c' next' data closed ->
  delivered rn c next (setUnread c' n) next' data closed.
Proof. intros [? ? ? ? ? ? ?]. by split. Qed.

(** Promotion after the scoreboard took the segment. *)
Lemma promote_received grow rn s d size window extra s1 n1 :
  recvOk rn s -> recvOk rn s1 -> 0 <= extra -> 0 <= size ->
  rs_next s1 = rs_next s -> rs_conn s1 = setUnread (rs_conn s) n1 ->
  rs_bytes s1 <= rs_bytes s + Z.max 0 (receiveAvailable (rs_conn s) (rs_bytes s) + extra) ->
  zlen (rs_pieces s1) <= Z.max (zlen (rs_pieces s)) tcpMaximumOutOfOrder ->
  (finConsistent -> forall x, covered (rs_next s) (rs_pieces s) x ->
     covered (rs_next s) (rs_pieces s1) x) ->
  (finConsistent -> roomy s d size window extra ->
     forall x, 0 <= x -> d <= x < d + size -> covered (rs_next s) (rs_pieces s1) x) ->
  exists s' del closed data,
    promoteTCPReceived grow s1 extra = Some (s', del, closed) /\
    received rn s d size window extra s' closed data.
Proof.
  intros Hs Hs1 Hx Hsz En Ec Hb Hl Hkeep Hfull. pose proof Hs1 as [Hn Hbuf Hp Hd Eb].
  destruct (promoteLoop_ok grow rn (rs_conn s1) (rs_next s1) (rs_pieces s1) extra false Hn Hbuf Hx Hp Hd)
    as (c' & next' & pieces' & bytes' & del & closed & data & E & [D O H N L K Dr]).
  unfold promoteTCPReceived. rewrite Eb, E. simpl.
  rewrite <- Eb in *. rewrite available_held in Hb.
  assert (held (rs_conn s1) (rs_bytes s1) <= Z.max (held (rs_conn s) (rs_bytes s))
            (rc_capacity (rs_conn s) + extra)) as Hh.
  { rewrite Ec, held_unread. unfold held in *. destruct (discarding (rs_conn s)); lia. }
  assert (held c' 0 <= held c' bytes') as H0 by (unfold held; destruct (discarding c'); lia).
  pose proof (zlen_nonneg data) as Hdl.
  eexists _, _, closed, data. split; [done|]. rewrite En in *.
  split; simpl; rewrite ?held_unread.
  - apply delivered_unread. rewrite Ec in D. destruct D as [? ? ? ? ? ? ?]. by split.
  - intros ->. destruct (O eq_refl) as (O1 & O2 & O3).
    split; simpl; try done; [|apply (dl_buffer _ _ _ _ _ _ _ D)].
    rewrite (dl_next _ _ _ _ _ _ _ D). apply u32_range.
  - by intros ->.
  - destruct closed; lia.
  - destruct closed; [|unfold zlen in *; lia]. change (zlen []) with 0. unfold zlen. lia.
  - intros Hfc -> x Hx' Hc. by apply K, Hkeep.
  - intros Hfc -> Hroom _. split.
    + apply Dr; [done|]. left. pose proof Hroom as (_ & Hr & _). rewrite available_held in Hr.
      assert (rc_capacity (rs_conn s1) = rc_capacity (rs_conn s)) as -> by by rewrite Ec.
      lia.
    + intros x Hx' Hxd. apply K; [done|done|]. apply Hfull; [done|done|lia|done].
Qed.

(** A segment beyond [receiveNext] that adds nothing. *)
Lemma not_stored_received rn s d size window extra s1 n1 :
  recvOk rn s -> recvOk rn s1 -> 0 < d ->
  rs_next s1 = rs_next s -> rs_conn s1 = setUnread (rs_conn s) n1 ->
  rs_bytes s1 <= rs_bytes s + Z.max 0 (receiveAvailable (rs_conn s) (rs_bytes s) + extra) ->
  zlen (rs_pieces s1) <= Z.max (zlen (rs_pieces s)) tcpMaximumOutOfOrder ->
  (finConsistent -> forall x, covered (rs_next s) (rs_pieces s) x ->
     covered (rs_next s) (rs_pieces s1) x) ->
  (forall x, covered (rs_next s) (rs_pieces s1) x ->
     covered (rs_next s) (rs_pieces s) x \/ d <= x < d + size) ->
  (finConsistent -> roomy s d size window extra ->
     forall x, d <= x < d + size -> covered (rs_next s) (rs_pieces s1) x) ->
  received rn s d size window extra s1 false [].
Proof.
  intros Hs Hs1 Hd En Ec Hb Hl Hkeep Honly Hfull. rewrite available_held in Hb.
  split; change (zlen []) with 0; rewrite ?En, ?Ec, ?held_unread; try done.
  - apply delivered_unread, delivered_nil; apply Hs.
  - intros _. by rewrite Z.add_0_r.
  - unfold held in *. destruct (discarding (rs_conn s)); lia.
  - intros Hfc _ x _ Hx. rewrite Z.sub_0_r. by apply Hkeep.
  - intros Hfc _ Hroom Hc. split.
    + intros H0. destruct (Honly 0 H0) as [?|?]; [done|lia].
    + intros x _ Hx. rewrite Z.sub_0_r. by apply Hfull.
Qed.

(** The in-order path with an empty scoreboard. *)
Lemma inorder_received grow rn s d size window extra payload fin :
  recvOk rn s -> rs_pieces s = [] -> 0 <= window -> 0 <= extra ->
  zlen payload <= size -> d + size <= zlen payload ->
  goodAt rn payload -> (fin = true -> gf (rn + zlen payload)) ->
  let pl := if window <? zlen payload then take (Z.to_nat window) payload else payload in
  let '(c, accepted) := appendReadBuffer grow (rs_conn s) pl 0 extra in
  let closed := fin && (accepted =? zlen payload)
                && ((zlen payload =? 0) || (zlen payload <? window)) in
  let next := u32 (rs_next s + accepted) in
  let next := if closed then next ⊞ 1 else next in
  received rn s d size window extra
    (mkRecv (setUnread c 0) next (rs_pieces s) (rs_bytes s)) closed (take (Z.to_nat accepted) pl).
Proof.
  intros [Hn Hbuf Hp Hd Hb] Epc Hw Hx Hsz Hds Hg Hgf pl.
  assert (rs_bytes s = 0) as Eb by (by rewrite Hb, Epc).
  assert (pl = take (Z.to_nat (Z.min window (zlen payload))) payload) as Epl.
  { subst pl. destruct (window <? zlen payload) eqn:E; [f_equal; lia|].
    rewrite take_ge; [done|]. unfold zlen in *. lia. }
  pose proof (zlen_nonneg payload) as Hl0.
  assert (zlen pl = Z.min window (zlen payload)) as Elpl by (rewrite Epl, zlen_take; lia).
  destruct (append_ok grow (rs_conn s) pl 0 extra Hbuf Hx)
    as (c & n & -> & Hb' & Hn1 & Hy & Hdc & Hcap & En).
  cbv zeta. set (closed := fin && _ && _).
  set (next := if closed then _ else _).
  assert (zlen (take (Z.to_nat n) pl) = n) as El by (rewrite zlen_take; lia).
  assert (closed = true -> fin = true /\ n = zlen payload) as Hcl
    by (subst closed; rewrite !andb_true_iff; intros [[-> ?] _]; split; [done|lia]).
  split; simpl; rewrite ?Epc, ?El.
  - split; simpl; try done.
    + rewrite Epl. by do 2 apply goodAt_take.
    + rewrite El. subst next. destruct closed; word.
    + intros Hc. destruct (Hcl Hc) as [Hf ->]. rewrite El. by apply Hgf.
  - intros Hc. split; simpl; rewrite ?Epc; try done; [].
    subst next. rewrite Hc. apply u32_range.
  - intros _. done.
  - rewrite held_unread, Eb. unfold held. rewrite Hdc, (rbo_size _ Hb'), Hy, (rbo_size _ Hbuf).
    rewrite (rbo_size _ Hbuf) in En. destruct (discarding (rs_conn s)); len.
  - lia.
  - intros _ _ x _ (? & Hin & _). by apply elem_of_nil in Hin.
  - intros _ Hc (Hfit & Hroom & _) _. split; [intros (? & Hin & _); by apply elem_of_nil in Hin|].
    intros x Hx1 Hx2. exfalso. rewrite available_held, Eb in Hroom. unfold held in Hroom.
    assert (n = zlen pl) as Efull by (destruct (discarding (rs_conn s)); lia). lia.
Qed.

Lemma receive_ok grow rn s d payload fin window extra capacity :
  recvOk rn s -> -2147483648 < d < 2147483648 -> 0 <= window <= windowLimit -> 0 <= extra ->
  zlen payload <= 65535 -> goodAt (rn + d) payload ->
  (fin = true -> gf (rn + d + zlen payload)) ->
  exists s' del closed data,
    receiveTCPData grow s (rs_next s ⊞ d) payload fin window extra capacity = Some (s', del, closed) /\
    received rn s d (zlen payload) window extra s' closed data.
Proof.
  intros Hs Hd Hw Hx Hlen Hg Hgf. pose proof Hs as [Hn Hbuf Hp Hdis Hb].
  pose proof (zlen_nonneg payload) as Hl0. unfold receiveTCPData.
  destruct (skipDelivered_ok (rs_next s) d payload fin Hn Hd) as (fin' & -> & Hfin); [lia|]. simpl.
  set (pl := drop (Z.to_nat (- d)) payload) in *.
  assert (zlen pl = Z.max 0 (zlen payload - Z.max 0 (- d))) as Elpl by (subst pl; rewrite zlen_drop; lia).
  assert (goodAt (rn + Z.max 0 d) pl) as Hgpl.
  { subst pl. destruct (Z.le_ge_cases (- d) (zlen payload)).
    - replace (rn + Z.max 0 d) with (rn + d + Z.max 0 (- d)) by lia.
      replace (Z.to_nat (- d)) with (Z.to_nat (Z.max 0 (- d))) by lia.
      apply goodAt_drop; [lia|done].
    - rewrite drop_ge by (unfold zlen in *; lia). apply goodAt_nil. }
  assert (fin' = true -> gf (rn + Z.max 0 d + zlen pl)) as Hgf'.
  { intros Hf. destruct (Hfin Hf) as [Hf0 E]. specialize (Hgf Hf0).
    by replace (rn + Z.max 0 d + zlen pl) with (rn + d + zlen payload) by lia. }
  assert (forall x, 0 <= x -> d <= x < d + zlen payload -> Z.max 0 d <= x < Z.max 0 d + zlen pl)
    as Hrange by lia.
  destruct (_ && (zlen (rs_pieces s) =? 0)) eqn:Efast.
  - apply andb_true_iff in Efast as [E1 E2].
    assert (Z.max 0 d = 0) as Ed0 by word. rewrite Ed0, Z.add_0_r in *.
    assert (rs_pieces s = []) as Epc by (apply zlen_zero; lia).
    assert (K := inorder_received grow rn s d (zlen payload) window extra pl fin' Hs Epc
      ltac:(lia) Hx ltac:(lia) ltac:(lia) Hgpl Hgf'). cbv zeta in K.
    destruct (appendReadBuffer grow (rs_conn s) _ 0 extra) as [c accepted].
    eexists _, _, _, _. split; [done|exact K].
  - destruct (store_ok rn s window extra (Z.max 0 d) pl fin' capacity)
      as (s1 & stored & E & Hs1 & En & [n1 Ec] & Hb1 & Hl1 & Hkeep & Honly & Hfull); try done; try lia.
    rewrite E. simpl.
    assert (finConsistent -> roomy s d (zlen payload) window extra ->
      forall x, 0 <= x -> d <= x < d + zlen payload -> covered (rs_next s) (rs_pieces s1) x) as Hfull'.
    { intros Hfc (Hr1 & Hr2 & Hr3) x Hx0 Hxd. apply Hfull; [done| |by apply Hrange].
      split; [|split; [lia|done]]. lia. }
    destruct (negb stored && _) eqn:Eskip.
    + assert (0 < d) as Hd0.
      { apply andb_true_iff in Eskip as [_ Egt]. unfold tcpSequenceGreater in Egt.
        replace (rs_next s) with (rs_next s ⊞ 0) in Egt at 1 by word.
        rewrite less_offsets in Egt; lia. }
      exists s1, false, false, []. split; [done|].
      apply not_stored_received with (n1 := n1); try done.
      * intros x Hx1. destruct (Honly x Hx1); [by left|right; lia].
      * intros Hfc Hr x Hxd. apply Hfull'; [done|done|lia|done].
    + destruct (promote_received grow rn s d (zlen payload) window extra s1 n1)
        as (s' & del & closed & data & E' & Hr); try done.
      by exists s', del, closed, data.
Qed.

Lemma covered_good rn next l x :
  Forall (pieceOk rn next) l -> covered next l x -> exists v, good (rn + x) v.
Proof.
  intros H (p & Hin & Hx). rewrite Forall_forall in H.
  pose proof (po_good _ _ _ (H p (proj1 (list_elem_of_In _ _) Hin))) as Hg.
  unfold pieceEnd in Hx.
  destruct (lookup_lt_is_Some_2 (pc_payload p) (Z.to_nat (x - offsetFrom next p))) as [v Hv];
    [unfold zlen in Hx; lia|].
  exists v. apply Hg in Hv. by replace (rn + x)
    with (rn + offsetFrom next p + Z.of_nat (Z.to_nat (x - offsetFrom next p))) by lia.
Qed.

End Spec.

(** ** Streams and histories *)

(** The sender's byte stream and, when it was closed, its length. *)
Record stream := mkStream { st_byte : Z -> Z; st_stop : option Z }.

Definition honest (st : stream) (a v : Z) : Prop :=
  v = st_byte st a /\ forall f, st_stop st = Some f -> a < f.

Definition stops (st : stream) (f : Z) : Prop := st_stop st = Some f.

Definition segmentOk (good : Z -> Z -> Prop) (gf : Z -> Prop) (a : Z) (payload : list Z) (fin : bool)
    : Prop :=
  goodAt good a payload /\ (fin = true -> gf (a + zlen payload)).

Definition freshRecv (isn capacity : Z) : recvState :=
  mkRecv (mkRecvConn capacity emptyReadBuffer false false 0 None) isn [] 0.

(** The stream position of [receiveNext]: what the application read and what
    it still can read. *)
Definition position (out : list Z) (s : recvState) : Z :=
  zlen out + zlen (rb_bytes (rc_buffer (rs_conn s))).

(** States reached by segments in any order, promotions when the window
    reopens, and application reads; [out] is what was read. *)
Inductive recvReach (grow : Z -> Z) (good : Z -> Z -> Prop) (gf : Z -> Prop) (isn cap : Z) : list Z -> recvState -> bool -> Prop :=
| reachFresh : recvReach grow good gf isn cap [] (freshRecv isn cap) false
| reachSegment out s a payload fin window extra scap s' del closed :
    recvReach grow good gf isn cap out s false ->
    -2147483648 < a - position out s < 2147483648 -> segmentOk good gf a payload fin ->
    zlen payload <= 65535 -> 0 <= window <= windowLimit -> 0 <= extra <= 65535 ->
    receiveTCPData grow s (isn ⊞ a) payload fin window extra scap = Some (s', del, closed) ->
    recvReach grow good gf isn cap out s' closed
| reachPromote out s extra s' del closed :
    recvReach grow good gf isn cap out s false -> 0 <= extra <= 65535 ->
    promoteTCPReceived grow s extra = Some (s', del, closed) ->
    recvReach grow good gf isn cap out s' closed
| reachRead out s closed destination maximum b bytes recycled :
    recvReach grow good gf isn cap out s closed -> 0 <= destination -> 0 <= maximum ->
    rb_read (rc_buffer (rs_conn s)) destination maximum = Some (b, bytes, recycled) ->
    recvReach grow good gf isn cap (out ++ bytes)
      (mkRecv (mkRecvConn (rc_capacity (rs_conn s)) b (rc_userClosed (rs_conn s))
                 (rc_readClosed (rs_conn s)) (rc_unread (rs_conn s)) (rc_notify (rs_conn s)))
              (rs_next s) (rs_pieces s) (rs_bytes s)) closed.

Lemma honest_fin st : finConsistent (honest st) (stops st).
Proof. intros f a v Hf [_ H]. by apply H. Qed.

(** What holds in every reached state. *)
Record reachOk (good : Z -> Z -> Prop) (gf : Z -> Prop) (isn cap : Z) (out : list Z) (s : recvState) (closed : bool) : Prop := {
  rk_recv : closed = false -> recvOk good gf (position out s) s;
  rk_buffer : readBufferOk (rc_buffer (rs_conn s));
  rk_bytes : goodAt good 0 (out ++ rb_bytes (rc_buffer (rs_conn s)));
  rk_next : rs_next s = isn ⊞ (position out s + if closed then 1 else 0);
  rk_closed : closed = true -> gf (position out s);
  rk_capacity : rc_capacity (rs_conn s) = cap;
  rk_open : discarding (rs_conn s) = false;
  rk_held : held (rs_conn s) (rs_bytes s) <= Z.max 0 cap + 65535;
  rk_pieces : zlen (rs_pieces s) <= tcpMaximumOutOfOrder }.

Lemma reach_received good gf isn cap out s d size window extra s' closed data :
  reachOk good gf isn cap out s false -> extra <= 65535 ->
  received good gf (position out s) s d size window extra s' closed data ->
  reachOk good gf isn cap out s' closed.
Proof.
  intros [R B Y N _ C D H L] Hx [Dl Ok _ Hh Hl _ _].
  destruct Dl as [G Nx Bf By Dc Cp Fn]. rewrite D in By.
  assert (position out s' = position out s + zlen data) as Ep
    by (unfold position; rewrite By; len).
  split.
  - intros ->. rewrite Ep. by apply Ok.
  - done.
  - rewrite By, app_assoc. apply goodAt_app. split; [done|].
    rewrite zlen_app. fold (position out s). by rewrite Z.add_0_l.
  - rewrite Nx, N, Ep. destruct closed; word.
  - intros ->. rewrite Ep. by apply Fn.
  - by rewrite Cp.
  - by rewrite Dc.
  - rewrite C in Hh. lia.
  - lia.
Qed.

Lemma freshRecv_ok good gf isn cap : is_u32 isn -> recvOk good gf 0 (freshRecv isn cap).
Proof. intros Hi. split; simpl; try done. Qed.

Lemma reach_ok grow good gf isn cap out s closed :
  is_u32 isn -> recvReach grow good gf isn cap out s closed -> reachOk good gf isn cap out s closed.
Proof.
  intros Hi. induction 1 as
    [|out s a payload fin window extra scap s' del closed _ IH Ha [Hg Hf] Hlen Hw Hx E
     |out s extra s' del closed _ IH Hx E
     |out s closed destination maximum b bytes recycled _ IH Hd Hm E].
  - split; simpl; [intros _; by apply freshRecv_ok|apply empty_read_ok|apply goodAt_nil|
      change (isn = isn ⊞ (0 + 0)); word|done|done|done|
      unfold held; simpl; lia|done].
  - pose proof (rk_recv _ _ _ _ _ _ _ IH eq_refl) as Hs.
    destruct (receive_ok good gf grow (position out s) s (a - position out s)
      payload fin window extra scap) as (s2 & del2 & c2 & data & E2 & Hr); try done; try lia.
    { by replace (position out s + (a - position out s)) with a by lia. }
    { by replace (position out s + (a - position out s)) with a by lia. }
    rewrite (rk_next _ _ _ _ _ _ _ IH) in E2.
    rewrite u32_add_l in E2.
    replace (isn + (position out s + 0) + (a - position out s)) with (isn + a) in E2 by lia.
    rewrite E in E2. injection E2 as <- <- <-. by apply (reach_received _ _ _ _ _ _ _ _ _ _ _ _ _ IH (proj2 Hx) Hr).
  - pose proof (rk_recv _ _ _ _ _ _ _ IH eq_refl) as Hs.
    destruct (promote_received good gf grow (position out s) s 0 0 0 extra s
      (rc_unread (rs_conn s))) as (s2 & del2 & c2 & data & E2 & Hr); try done; try lia.
    { by destruct s as [[]]. }
    rewrite E in E2. injection E2 as <- <- <-. by apply (reach_received _ _ _ _ _ _ _ _ _ _ _ _ _ IH (proj2 Hx) Hr).
  - destruct IH as [R B Y N F C D H L].
    destruct (rb_read_ok (rc_buffer (rs_conn s)) destination maximum B Hd Hm)
      as (b2 & r2 & E2 & Hb2 & Eb2).
    rewrite E in E2. injection E2 as -> -> ->. set (n := Z.to_nat _) in *.
    set (s2 := mkRecv _ _ _ _).
    assert (out ++ take n (rb_bytes (rc_buffer (rs_conn s))) ++ rb_bytes b2
            = out ++ rb_bytes (rc_buffer (rs_conn s))) as Eout by by rewrite Eb2, take_drop.
    assert (position (out ++ take n (rb_bytes (rc_buffer (rs_conn s)))) s2 = position out s) as Ep.
    { unfold position. simpl. apply (f_equal zlen) in Eout. autorewrite with zlen in *. lia. }
    split; rewrite ?Ep; simpl; try done.
    + intros Hc. destruct (R Hc) as [R1 R2 R3 R4 R5]. by split.
    + by rewrite <- app_assoc, Eout.
    + unfold held in *. unfold discarding in *. simpl in *. rewrite D in *.
      rewrite (rbo_size _ Hb2), Eb2, zlen_drop. rewrite (rbo_size _ B) in H. len.
Qed.

Lemma covered_segment good gf rn next l d payload x :
  Forall (pieceOk good gf rn next) l -> goodAt good (rn + d) payload ->
  covered next l x \/ d <= x < d + zlen payload -> exists v, good (rn + x) v.
Proof.
  intros Hp Hg [Hx|Hx]; [by eapply covered_good|].
  destruct (lookup_lt_is_Some_2 payload (Z.to_nat (x - d))) as [v Hv]; [unfold zlen in Hx; lia|].
  exists v. apply Hg in Hv. by replace (rn + x) with (rn + d + Z.of_nat (Z.to_nat (x - d))) by lia.
Qed.

(** ** Properties *)

(** C1. Stream integrity: whatever the order, overlap, duplication and
    fragmentation of the sender's segments, and however window sizes,
    promotions and application reads interleave, the bytes read so far
    followed by the bytes readable are exactly the first bytes of the sender's
    stream, [receiveNext] acknowledges exactly those bytes (and the FIN when
    it was consumed), and the end of stream is reported only at the sender's
    end of stream. *)
Theorem receive_stream (grow : Z -> Z) (st : stream) (isn cap : Z) (out : list Z)
    (s : recvState) (closed : bool) :
  is_u32 isn -> recvReach grow (honest st) (stops st) isn cap out s closed ->
  let bytes := out ++ rb_bytes (rc_buffer (rs_conn s)) in
  (forall (i : nat) v, bytes !! i = Some v -> v = st_byte st (Z.of_nat i)) /\
  rs_next s = isn ⊞ (zlen bytes + if closed then 1 else 0) /\
  (closed = true -> st_stop st = Some (zlen bytes)).
Proof.
  intros Hi Hr bytes. destruct (reach_ok _ _ _ _ _ _ _ _ Hi Hr) as [_ _ Y N F _ _ _ _].
  assert (zlen bytes = position out s) as -> by (subst bytes; unfold position; len).
  split; [|split; done]. intros i v Hv. by destruct (Y i v Hv).
Qed.

(** Bytes 10, 11, 12, ... of a stream of three bytes. *)
Definition demoStream : stream := mkStream (fun a => 10 + a) (Some 3).

Lemma demo_honest a : 0 <= a -> a <= 1 -> goodAt (honest demoStream) a [10 + a; 10 + (a + 1)].
Proof.
  intros Ha Hb [|[|i]] v E; [| |done]; injection E as <-;
    (split; [simpl; lia|intros f [= <-]; simpl; lia]).
Qed.

Definition resultState (r : option (recvState * bool * bool)) : recvState :=
  match r with Some (s, _, _) => s | None => freshRecv 0 0 end.

Definition demo1 : recvState := Eval vm_compute in
  resultState (receiveTCPData (fun n => n) (freshRecv 4294967295 1000) 0 [11; 12] true 500 0 8).
Definition demo2 : recvState := Eval vm_compute in
  resultState (receiveTCPData (fun n => n) demo1 4294967295 [10; 11] false 500 0 8).

Lemma demo1_reach :
  recvReach (fun n => n) (honest demoStream) (stops demoStream) 4294967295 1000 [] demo1 false.
Proof.
  apply (reachSegment _ _ _ _ _ [] (freshRecv 4294967295 1000) 1 [11; 12] true 500 0 8 _ false).
  - constructor.
  - vm_compute. split; reflexivity.
  - split; [apply (demo_honest 1); lia|reflexivity].
  - vm_compute. discriminate.
  - unfold windowLimit. lia.
  - lia.
  - vm_compute. reflexivity.
Qed.

Lemma demo2_reach :
  recvReach (fun n => n) (honest demoStream) (stops demoStream) 4294967295 1000 [] demo2 true.
Proof.
  apply (reachSegment _ _ _ _ _ [] demo1 0 [10; 11] false 500 0 8 _ true).
  - apply demo1_reach.
  - vm_compute. split; reflexivity.
  - split; [apply (demo_honest 0); lia|discriminate].
  - vm_compute. discriminate.
  - unfold windowLimit. lia.
  - lia.
  - vm_compute. reflexivity.
Qed.

Lemma receive_stream_witness :
  rb_bytes (rc_buffer (rs_conn demo2)) = [10; 11; 12] /\ rs_next demo2 = 3 /\
  st_stop demoStream = Some (zlen ([] ++ rb_bytes (rc_buffer (rs_conn demo2)))).
Proof.
  split; [reflexivity|]. split; [reflexivity|].
  apply (receive_stream (fun n => n) demoStream 4294967295 1000 [] demo2 true);
    [unfold is_u32; lia|apply demo2_reach|reflexivity].
Defined.

(** The receive path is safe against any peer: for segments with
    arbitrary contents, order and FIN flags, every further call returns (no
    slice goes out of range), at most 4096 out-of-order pieces are kept, and
    unread plus out-of-order bytes never exceed the receive capacity by more
    than the advertised window quantum of 65535 bytes. *)
Theorem receive_bounded (grow : Z -> Z) (isn cap : Z) (out : list Z) (s : recvState)
    (a : Z) (payload : list Z) (fin : bool) (window extra scap : Z) :
  is_u32 isn -> recvReach grow (fun _ _ => True) (fun _ => True) isn cap out s false ->
  -2147483648 < a - position out s < 2147483648 -> zlen payload <= 65535 ->
  0 <= window <= windowLimit -> 0 <= extra <= 65535 ->
  exists s' del closed,
    receiveTCPData grow s (isn ⊞ a) payload fin window extra scap = Some (s', del, closed) /\
    rb_size (rc_buffer (rs_conn s')) + rs_bytes s' <= Z.max 0 cap + 65535 /\
    zlen (rs_pieces s') <= 4096.
Proof.
  intros Hi Hr Ha Hl Hw Hx. pose proof (reach_ok _ _ _ _ _ _ _ _ Hi Hr) as IH.
  destruct (receive_ok (fun _ _ => True) (fun _ => True) grow (position out s) s
    (a - position out s) payload fin window extra scap) as (s' & del & closed & data & E & Hrec);
    try done; try lia.
  { by apply (rk_recv _ _ _ _ _ _ _ IH). }
  rewrite (rk_next _ _ _ _ _ _ _ IH), u32_add_l in E.
  replace (isn + (position out s + 0) + (a - position out s)) with (isn + a) in E by lia.
  exists s', del, closed. split; [done|].
  pose proof (reach_received _ _ _ _ _ _ _ _ _ _ _ _ _ IH (proj2 Hx) Hrec) as [_ _ _ _ _ _ D H L].
  unfold held in H. rewrite D in H. done.
Qed.

Lemma receive_bounded_witness :
  exists s' del closed,
    receiveTCPData (fun n => n) (freshRecv 7 4) (7 ⊞ 2) [1; 2; 3; 4; 5; 6; 7; 8] true 100 0 1
      = Some (s', del, closed) /\
    rb_size (rc_buffer (rs_conn s')) + rs_bytes s' <= Z.max 0 4 + 65535 /\
    zlen (rs_pieces s') <= 4096.
Proof.
  apply (receive_bounded (fun n => n) 7 4 [] (freshRecv 7 4) 2); try done; try lia.
  - constructor.
Defined.

(** C37. No received byte is lost: when the segment fits the window, the
    storage bound and the piece budget, every byte up to the first hole is
    delivered. *)
Theorem receive_fills_gap (grow : Z -> Z) (st : stream) (rn : Z) (s : recvState)
    (d : Z) (payload : list Z) (fin : bool) (window extra scap k : Z) :
  recvOk (honest st) (stops st) rn s -> ~ covered (rs_next s) (rs_pieces s) 0 ->
  -2147483648 < d < 2147483648 -> 0 <= window <= windowLimit -> 0 <= extra ->
  zlen payload <= 65535 -> segmentOk (honest st) (stops st) (rn + d) payload fin ->
  roomy s d (zlen payload) window extra ->
  (forall x, 0 <= x < k -> covered (rs_next s) (rs_pieces s) x \/ d <= x < d + zlen payload) ->
  discarding (rs_conn s) = false ->
  exists s' del closed,
    receiveTCPData grow s (rs_next s ⊞ d) payload fin window extra scap = Some (s', del, closed) /\
    zlen (rb_bytes (rc_buffer (rs_conn s))) + k <= zlen (rb_bytes (rc_buffer (rs_conn s'))).
Proof.
  intros Hs H0 Hd Hw Hx Hl [Hg Hf] Hroom Hk Hdisc.
  destruct (receive_ok (honest st) (stops st) grow rn s d payload fin window extra scap)
    as (s' & del & closed & data & E & [Dl Ok _ _ _ Keep Comp]); try done.
  exists s', del, closed. split; [done|].
  rewrite (dl_bytes _ _ _ _ _ _ _ _ _ Dl), Hdisc, zlen_app.
  assert (k <= zlen data); [|lia]. pose proof (zlen_nonneg data) as Hnn.
  destruct (Z.le_gt_cases k (zlen data)) as [|Hgt]; [done|exfalso].
  destruct closed.
  - pose proof (dl_fin _ _ _ _ _ _ _ _ _ Dl eq_refl) as Hstop.
    destruct (covered_segment _ _ rn (rs_next s) (rs_pieces s) d payload (zlen data)
      (ro_pieces _ _ _ _ Hs) Hg) as [v Hv]; [apply Hk; lia|].
    pose proof (honest_fin st _ _ _ Hstop Hv). lia.
  - destruct (Comp (honest_fin st) eq_refl Hroom H0) as [Hhole Hseg]. apply Hhole.
    destruct (Hk (zlen data)) as [Hc|Hc]; [lia| |].
    + specialize (Keep (honest_fin st) eq_refl _ (Z.le_refl _) Hc). by rewrite Z.sub_diag in Keep.
    + specialize (Hseg _ (Z.le_refl _) Hc). by rewrite Z.sub_diag in Hseg.
Qed.

Lemma receive_fills_gap_witness :
  exists s' del closed,
    receiveTCPData (fun n => n) (freshRecv 5 1000) (5 ⊞ 0) [10; 11] false 500 0 8
      = Some (s', del, closed) /\
    0 + 2 <= zlen (rb_bytes (rc_buffer (rs_conn s'))).
Proof.
  apply (receive_fills_gap (fun n => n) demoStream 0 (freshRecv 5 1000) 0 [10; 11] false 500 0 8 2);
    try done; try (unfold windowLimit; lia).
  - intros (p & Hin & _). by apply elem_of_nil in Hin.
  - split; [apply (demo_honest 0); lia|done].
  - intros x Hx. right. exact Hx.
Defined.
