(* ===== verification/Addr.v ===== *)
(** * Network addresses

    The part of Go's [netip] the stack relies on: an address is invalid, IPv4,
    or IPv6 with an optional zone; the IPv4-mapped IPv6 form is distinct from
    the IPv4 address it maps to until [Unmap]. *)

From stdpp Require Import strings countable.
From S2P Require Import Prelude.

Definition noZone : string := EmptyString.

(** Bytes in network order: four for IPv4, sixteen for IPv6. *)
Inductive Addr :=
| AddrInvalid
| Addr4 (bytes : list Z)
| Addr6 (bytes : list Z) (zone : string).

#[global] Instance Addr_eq : EqDecision Addr.
Proof. solve_decision. Defined.

#[global] Instance Addr_countable : Countable Addr.
Proof.
  refine (inj_countable'
    (fun a => match a with
              | AddrInvalid => inl tt
              | Addr4 b => inr (inl b)
              | Addr6 b z => inr (inr (b, z))
              end)
    (fun x => match x with
              | inl _ => AddrInvalid
              | inr (inl b) => Addr4 b
              | inr (inr (b, z)) => Addr6 b z
              end) _).
  by intros [].
Defined.

Definition addrOk (a : Addr) : Prop :=
  match a with
  | AddrInvalid => True
  | Addr4 b => length b = 4%nat /\ bytes_ok b
  | Addr6 b _ => length b = 16%nat /\ bytes_ok b
  end.

Definition isValid (a : Addr) : bool := match a with AddrInvalid => false | _ => true end.
Definition is4 (a : Addr) : bool := match a with Addr4 _ => true | _ => false end.
Definition is6 (a : Addr) : bool := match a with Addr6 _ _ => true | _ => false end.

Definition mappedPrefix : list Z := [0; 0; 0; 0; 0; 0; 0; 0; 0; 0; 255; 255].

Definition is4In6 (a : Addr) : bool :=
  match a with Addr6 b _ => bool_decide (take 12 b = mappedPrefix) | _ => false end.

Definition unmap (a : Addr) : Addr :=
  match a with
  | Addr6 b _ => if is4In6 a then Addr4 (drop 12 b) else a
  | _ => a
  end.

Definition zoneOf (a : Addr) : string := match a with Addr6 _ z => z | _ => noZone end.

(** [AsSlice]: nil for the invalid address. *)
Definition asSlice (a : Addr) : list Z :=
  match a with AddrInvalid => [] | Addr4 b => b | Addr6 b _ => b end.

(** [As16]: an IPv4 address in its mapped form. *)
Definition as16 (a : Addr) : list Z :=
  match a with
  | AddrInvalid => replicate 16 0
  | Addr4 b => mappedPrefix ++ b
  | Addr6 b _ => b
  end.

Definition allZero (b : list Z) : bool := forallb (fun x => x =? 0) b.

Definition isUnspecified (a : Addr) : bool :=
  match a with
  | AddrInvalid => false
  | Addr4 b => allZero b
  | Addr6 b zone => allZero b && bool_decide (zone = noZone)
  end.

Definition byteAt (b : list Z) (i : nat) : Z := nth i b 0.

(** The mapped form is classified as its IPv4 address. *)
Definition isMulticast (a : Addr) : bool :=
  match unmap a with
  | AddrInvalid => false
  | Addr4 b => byteAt b 0 .& 240 =? 224
  | Addr6 b _ => byteAt b 0 =? 255
  end.

(** The length of the address on the wire is four or sixteen bytes. *)
Lemma zlen_asSlice a : addrOk a -> isValid a = true -> zlen (asSlice a) = if is4 a then 4 else 16.
Proof. destruct a; simpl; [done| |]; intros [H _] _; unfold zlen; rewrite H; done. Qed.

Lemma unmap_ok a : addrOk a -> addrOk (unmap a).
Proof.
  destruct a as [|b|b z]; try done. intros [Hl Hb]. unfold unmap.
  destruct (is4In6 _); [|done]. split; [by rewrite length_drop, Hl|auto with mips].
Qed.

(** The mapped form of an address does not nest. *)
Lemma unmap_idem a : unmap (unmap a) = unmap a.
Proof.
  destruct a as [|b|b z]; try done. unfold unmap at 2 3.
  destruct (is4In6 (Addr6 b z)) eqn:E; [done|]. unfold unmap. by rewrite E.
Qed.

(** The classes of unicast addresses, the mapped form again as its IPv4
    address. *)
Definition isLoopback (a : Addr) : bool :=
  match unmap a with
  | AddrInvalid => false
  | Addr4 b => byteAt b 0 =? 127
  | Addr6 b _ => bool_decide (b = replicate 15 0 ++ [1])
  end.

Definition isLinkLocalUnicast (a : Addr) : bool :=
  match unmap a with
  | AddrInvalid => false
  | Addr4 b => (byteAt b 0 =? 169) && (byteAt b 1 =? 254)
  | Addr6 b _ => (byteAt b 0 =? 254) && (byteAt b 1 .& 192 =? 128)
  end.

Definition bitLen (a : Addr) : Z :=
  match a with AddrInvalid => 0 | Addr4 _ => 32 | Addr6 _ _ => 128 end.

Definition withoutZone (a : Addr) : Addr :=
  match a with Addr6 b _ => Addr6 b noZone | _ => a end.

Definition hasZone (a : Addr) : bool := negb (bool_decide (zoneOf a = noZone)).

(** [As4] panics unless the address is IPv4 or maps to one. *)
Definition as4 (a : Addr) : option (list Z) :=
  match unmap a with Addr4 b => Some b | _ => None end.

(** ** Prefixes

    [netip.Prefix] keeps an address without zone and a length; a length of -1
    makes the prefix invalid. *)
Record Prefix := mkPrefix { p_addr : Addr; p_bits : Z }.

#[global] Instance Prefix_eq : EqDecision Prefix.
Proof. solve_decision. Defined.

#[global] Instance Prefix_countable : Countable Prefix.
Proof.
  refine (inj_countable' (fun p => (p_addr p, p_bits p)) (fun '(a, b) => mkPrefix a b) _).
  by intros [].
Defined.

Definition prefixOk (p : Prefix) : Prop :=
  addrOk (p_addr p) /\ hasZone (p_addr p) = false /\ -1 <= p_bits p <= bitLen (p_addr p) /\
  (p_addr p = AddrInvalid -> p_bits p = -1).

Definition prefixFrom (a : Addr) (bits : Z) : Prefix :=
  mkPrefix (withoutZone a)
    (if isValid a && (0 <=? bits) && (bits <=? bitLen a) then bits else -1).

Definition prefixValid (p : Prefix) : bool := 0 <=? p_bits p.

(** The [width]-bit number whose [bits] high bits are set. *)
Definition highMask (width bits : Z) : Z := Z.shiftl (Z.ones bits) (width - bits).

(** [Addr.Prefix] without its error: an address keeping its [bits] high bits. *)
Definition maskAddr (a : Addr) (bits : Z) : Addr :=
  match a with
  | AddrInvalid => AddrInvalid
  | Addr4 b => Addr4 (be_bytes 4 (be_val b .& highMask 32 bits))
  | Addr6 b _ => Addr6 (be_bytes 16 (be_val b .& highMask 128 bits)) noZone
  end.

Definition masked (p : Prefix) : Prefix :=
  let a := p_addr p in
  if (p_bits p <? 0) || (bitLen a <? p_bits p) || negb (isValid a) then mkPrefix AddrInvalid (-1)
  else prefixFrom (maskAddr a (p_bits p)) (p_bits p).

Definition contains (p : Prefix) (a : Addr) : bool :=
  let width := bitLen (p_addr p) in
  prefixValid p && negb (hasZone a) && negb (bitLen a =? 0) && negb (width =? 0) && (width =? bitLen a)
  && (Z.lxor (be_val (asSlice a)) (be_val (asSlice (p_addr p))) .& highMask width (p_bits p) =? 0).
