(* ===== verification/Checksum.v ===== *)
(** * Internet checksums

    The RFC 1071 checksum of [packet.go]: the wide-word accumulation in the
    byte order of the target, the checksum of logically concatenated regions
    and the transport checksum over an IPv4 or IPv6 pseudo-header. *)

From stdpp Require Import strings.
From S2P Require Import Prelude Addr.

(** ** Accumulation *)

(** [for sum>>16 != 0 { sum = sum&0xffff + sum>>16 }]; eight rounds suffice for
    any 64-bit sum. *)
Fixpoint foldLoop (fuel : nat) (sum : Z) : Z :=
  match fuel with
  | O => sum
  | S fuel =>
      if Z.shiftr sum 16 =? 0 then sum
      else foldLoop fuel (Z.land sum 65535 + Z.shiftr sum 16)
  end.

Definition foldSum (sum : Z) : Z := foldLoop 8 sum.

(** [^uint16(sum)] *)
Definition not16 (sum : Z) : Z := 65535 - u16 sum.

(** [bits.ReverseBytes16] *)
Definition reverseBytes16 (x : Z) : Z := Z.lor (Z.shiftl (Z.land x 255) 8) (Z.shiftr x 8).

(** An unsigned load in the byte order of the target. *)
Definition loadWord (bigEndian : bool) (bytes : list Z) : Z :=
  if bigEndian then be_val bytes else le_val bytes.

(** The 16-byte loop of [checksumSum]. *)
Fixpoint wideLoop (bigEndian : bool) (fuel : nat) (sum : Z) (data : list Z) : Z * list Z :=
  match fuel with
  | O => (sum, data)
  | S fuel =>
      if 16 <=? zlen data then
        let first := loadWord bigEndian (take 8 data) in
        let second := loadWord bigEndian (take 8 (drop 8 data)) in
        wideLoop bigEndian fuel
          (u64 (sum + (Z.shiftr first 32 + Z.land first 4294967295
                       + Z.shiftr second 32 + Z.land second 4294967295)))
          (drop 16 data)
      else (sum, data)
  end.

(** The two-byte loop and the odd trailing byte. *)
Fixpoint narrowLoop (bigEndian : bool) (sum : Z) (data : list Z) : Z :=
  match data with
  | a :: b :: data => narrowLoop bigEndian (u64 (sum + loadWord bigEndian [a; b])) data
  | [a] => if bigEndian then u64 (sum + Z.shiftl a 8) else u64 (sum + a)
  | [] => sum
  end.

(** [checksumTargetBigEndian] is the byte order of the target. *)
Definition checksumSum (bigEndian : bool) (data : list Z) : Z :=
  let '(sum, data) := wideLoop bigEndian (length data) 0 data in
  let sum := foldSum (narrowLoop bigEndian sum data) in
  if bigEndian then u32 (u16 sum) else u32 (reverseBytes16 (u16 sum)).

Definition checksum (bigEndian : bool) (data : list Z) : Z :=
  not16 (foldSum (checksumSum bigEndian data)).

(** The even part of one region and its last byte when it is odd: the sum, the
    trailing byte and whether a byte is pending. *)
Definition partRest (bigEndian : bool) (sum trailing : Z) (part : list Z) : Z * Z * bool :=
  let even := Z.ldiff (zlen part) 1 in
  let sum := if negb (even =? 0)
             then sum ⊞ checksumSum bigEndian (take (Z.to_nat even) part) else sum in
  if negb (even =? zlen part)
  then (foldSum sum, default 0 (idx part even), true) else (foldSum sum, trailing, false).

(** One round of the loop over the regions. *)
Definition partStep (bigEndian : bool) (s : Z * Z * bool) (part : list Z) : Z * Z * bool :=
  let '(sum, trailing, odd) := s in
  match part with
  | [] => s
  | b :: rest =>
      if (odd : bool)
      then partRest bigEndian (sum ⊞ Z.lor (Z.shiftl trailing 8) b) trailing rest
      else partRest bigEndian sum trailing part
  end.

Definition checksumParts (bigEndian : bool) (sum : Z) (parts : list (list Z)) : Z :=
  let '(sum, trailing, odd) := fold_left (partStep bigEndian) parts (sum, 0, false) in
  let sum := if (odd : bool) then sum ⊞ Z.shiftl trailing 8 else sum in
  not16 (foldSum sum).

Definition InternetChecksum (bigEndian : bool) (data : list Z) : Z := checksum bigEndian data.

Definition InternetChecksumParts (bigEndian : bool) (parts : list (list Z)) : Z :=
  match parts with
  | [part] => checksum bigEndian part
  | _ => checksumParts bigEndian 0 parts
  end.

(** ** Pseudo-headers *)

(** The sum of the pseudo-header, [None] for addresses of different families. *)
Definition pseudoSum (bigEndian : bool) (source target : Addr) (protocol payloadLength : Z)
    : option Z :=
  match source, target with
  | Addr4 s, Addr4 t =>
      Some (checksumSum bigEndian s ⊞ checksumSum bigEndian t ⊞ protocol ⊞ payloadLength)
  | Addr6 s _, Addr6 t _ =>
      Some (checksumSum bigEndian s ⊞ checksumSum bigEndian t
            ⊞ Z.shiftr payloadLength 16 ⊞ Z.land payloadLength 65535 ⊞ protocol)
  | _, _ => None
  end.

Definition transportChecksumParts (bigEndian : bool) (source target : Addr)
    (protocol payloadLength : Z) (first second : list Z) : Z :=
  let source := unmap source in
  let target := unmap target in
  match pseudoSum bigEndian source target protocol payloadLength with
  | None => 0
  | Some sum =>
      let sum := sum ⊞ checksumSum bigEndian first in
      let '(sum, second) :=
        match second with
        | b :: rest =>
            if negb (Z.land (zlen first) 1 =? 0) then
              let last := Z.shiftl (default 0 (idx first (zlen first - 1))) 8 in
              (sum ⊟ last ⊞ Z.lor last b, rest)
            else (sum, second)
        | [] => (sum, second)
        end in
      let sum := sum ⊞ checksumSum bigEndian second in
      not16 (foldSum sum)
  end.

Definition transportChecksum (bigEndian : bool) (source target : Addr) (protocol : Z)
    (payload : list Z) : Z :=
  transportChecksumParts bigEndian source target protocol (zlen payload) payload [].

Definition IPTransportChecksum (bigEndian : bool) (source destination : Addr) (protocol : Z)
    (payload : list Z) : outcome Z :=
  if negb (bool_decide (zoneOf source = noZone)) || negb (bool_decide (zoneOf destination = noZone))
  then Fail EINVAL
  else
    let source := unmap source in
    let destination := unmap destination in
    if negb (isValid source) || negb (isValid destination)
       || negb (Bool.eqb (is4 source) (is4 destination)) || (protocol <? 0) || (255 <? protocol)
    then Fail EINVAL
    else if 65535 <? zlen payload then Fail EMSGSIZE
    else Ret (transportChecksum bigEndian source destination protocol payload).

(** The length of the regions, [None] above 65535 bytes. *)
Fixpoint partsLength (length : Z) (parts : list (list Z)) : option Z :=
  match parts with
  | [] => Some length
  | part :: parts =>
      if 65535 - length <? zlen part then None else partsLength (length + zlen part) parts
  end.

Definition IPTransportChecksumParts (bigEndian : bool) (source destination : Addr) (protocol : Z)
    (parts : list (list Z)) : outcome Z :=
  if negb (bool_decide (zoneOf source = noZone)) || negb (bool_decide (zoneOf destination = noZone))
  then Fail EINVAL
  else
    let source := unmap source in
    let destination := unmap destination in
    if negb (isValid source) || negb (isValid destination)
       || negb (Bool.eqb (is4 source) (is4 destination)) || (protocol <? 0) || (255 <? protocol)
    then Fail EINVAL
    else
      match partsLength 0 parts with
      | None => Fail EMSGSIZE
      | Some payloadLength =>
          match parts with
          | [part] => Ret (transportChecksum bigEndian source destination protocol part)
          | [first; second] =>
              Ret (transportChecksumParts bigEndian source destination protocol payloadLength
                     first second)
          | _ =>
              sum ← need (pseudoSum bigEndian source destination protocol payloadLength);
              Ret (checksumParts bigEndian sum parts)
          end
      end.

(** ** Specification *)

(** The sum of the 16-bit words in network order, an odd byte padded on the
    right (RFC 1071). *)
Fixpoint wordSum (data : list Z) : Z :=
  match data with
  | a :: b :: data => a * 256 + b + wordSum data
  | [a] => a * 256
  | [] => 0
  end.

(** The 16-bit representative of a nonnegative one's-complement sum: zero only
    for the sum zero. *)
Definition canon (x : Z) : Z := if x =? 0 then 0 else 1 + (x - 1) mod 65535.

Definition rfc1071 (data : list Z) : Z := 65535 - canon (wordSum data).

Definition pseudoHeader (source target : Addr) (protocol payloadLength : Z) : option (list Z) :=
  match source, target with
  | Addr4 s, Addr4 t => Some (s ++ t ++ [0; protocol] ++ be_bytes 2 payloadLength)
  | Addr6 s _, Addr6 t _ => Some (s ++ t ++ be_bytes 4 payloadLength ++ [0; 0; 0; protocol])
  | _, _ => None
  end.

(** ** Lemmas: one's-complement sums *)

(** Equality of one's-complement sums: congruence modulo 65535 that keeps zero
    apart from its negative form. *)
Definition ones (x y : Z) : Prop :=
  0 <= x /\ 0 <= y /\ (x = 0 <-> y = 0) /\ (x - y) mod 65535 = 0.

Infix "≈" := ones (at level 70) : mips_scope.

Lemma ones_refl x : 0 <= x -> x ≈ x.
Proof. intros. unfold ones. rewrite Z.sub_diag. split_and!; done. Qed.

Lemma ones_sym x y : x ≈ y -> y ≈ x.
Proof. unfold ones. intros (? & ? & ? & ?). split_and!; try tauto. zlia. Qed.

Lemma ones_trans x y z : x ≈ y -> y ≈ z -> x ≈ z.
Proof. unfold ones. intros (? & ? & ? & ?) (? & ? & ? & ?). split_and!; try tauto. zlia. Qed.

Lemma ones_add x y x' y' : x ≈ x' -> y ≈ y' -> x + y ≈ x' + y'.
Proof.
  unfold ones. intros (? & ? & ? & ?) (? & ? & ? & ?). split_and!; try lia.
  replace (x + y - (x' + y')) with ((x - x') + (y - y')) by lia. zlia.
Qed.

Lemma ones_mul k x y : 0 < k -> x ≈ y -> k * x ≈ k * y.
Proof.
  unfold ones. intros Hk (? & ? & ? & Hm). split_and!; [nia|nia|nia|].
  rewrite <- Z.mul_sub_distr_l, <- Zmult_mod_idemp_r, Hm, Z.mul_0_r. done.
Qed.

#[global] Instance ones_equiv : RelationClasses.PER ones.
Proof. split; [exact ones_sym|exact ones_trans]. Qed.

#[global] Instance ones_add_proper : Proper (ones ==> ones ==> ones) Z.add.
Proof. intros x x' Hx y y' Hy. by apply ones_add. Qed.

Lemma ones_range x y : x ≈ y -> 0 <= x /\ 0 <= y.
Proof. unfold ones. tauto. Qed.

(** Sums that differ by a multiple of 65535 that cannot hide a zero. *)
Lemma ones_diff x y k : 0 <= x -> 0 <= y -> (x = 0 <-> y = 0) -> x = y + 65535 * k -> x ≈ y.
Proof. intros. unfold ones. split_and!; try tauto. subst x. zlia. Qed.

Lemma canon_ones x : 0 <= x -> canon x ≈ x.
Proof.
  intros. unfold canon, ones. destruct (x =? 0) eqn:E; [split_and!; try lia; zlia|].
  split_and!; zlia.
Qed.

Lemma canon_range x : 0 <= canon x <= 65535.
Proof. unfold canon. destruct (x =? 0); zlia. Qed.

Lemma canon_small x : 0 <= x <= 65535 -> canon x = x.
Proof. unfold canon. intros. destruct (x =? 0) eqn:E; zlia. Qed.

Lemma canon_eq x y : x ≈ y -> canon x = canon y.
Proof.
  unfold ones, canon. intros (? & ? & ? & ?).
  destruct (x =? 0) eqn:E, (y =? 0) eqn:E'; try lia. zlia.
Qed.

Lemma canon_unique x r : r ≈ x -> r <= 65535 -> r = canon x.
Proof. intros H Hr. rewrite <- (canon_eq _ _ H). destruct H. rewrite canon_small; lia. Qed.

Definition foldStep (x : Z) : Z := x mod 65536 + x / 65536.

Lemma foldLoop_step f x : 0 <= x -> foldLoop (S f) x = foldLoop f (foldStep x).
Proof.
  intros Hx. cbn [foldLoop]. rewrite Z.shiftr_div_pow2 by lia.
  pose proof (Z.land_ones x 16 ltac:(lia)) as Hl. change (Z.ones 16) with 65535 in Hl.
  rewrite Hl. change (2 ^ 16) with 65536.
  destruct (x / 65536 =? 0) eqn:E; [|done].
  replace (foldStep x) with x by (unfold foldStep; zlia).
  destruct f; [done|]. cbn [foldLoop]. rewrite Z.shiftr_div_pow2 by lia.
  change (2 ^ 16) with 65536. by rewrite E.
Qed.

Lemma foldStep_bound x n : 0 <= x < n -> 0 <= foldStep x < 65536 + n / 65536.
Proof. unfold foldStep. intros. zlia. Qed.

Lemma foldStep_ones x : 0 <= x -> foldStep x ≈ x.
Proof.
  intros. apply (ones_diff _ _ (- (x / 65536))); unfold foldStep; try zlia.
Qed.

Lemma foldLoop_small f x : 0 <= x < 65536 -> foldLoop f x = x.
Proof.
  intros. destruct f; [done|]. cbn [foldLoop]. rewrite Z.shiftr_div_pow2 by lia.
  change (2 ^ 16) with 65536. by rewrite Z.div_small by lia.
Qed.

Lemma foldLoop_spec f x n :
  0 <= x < n -> foldLoop f x ≈ x /\ foldLoop f x < Nat.iter f (fun n => 65536 + n / 65536) n.
Proof.
  revert x n. induction f as [|f IH]; intros x n Hx; [split; [apply ones_refl; lia|simpl; lia]|].
  rewrite foldLoop_step by lia.
  destruct (IH (foldStep x) (65536 + n / 65536)) as [H1 H2]; [by apply foldStep_bound|].
  split; [etrans; [exact H1|apply foldStep_ones; lia]|]. by rewrite Nat.iter_succ_r.
Qed.

Lemma foldSum_canon x : 0 <= x < 18446744073709551616 -> foldSum x = canon x.
Proof.
  intros Hx. apply canon_unique; [exact (proj1 (foldLoop_spec 8 x _ Hx))|].
  assert (exists y, foldSum x = foldLoop 2 y /\ 0 <= y < 65600) as (y & -> & Hy).
  { destruct (foldLoop_spec 6 x _ Hx) as [H1 H2]. apply ones_range in H1 as [H1 _].
    exists (foldLoop 6 x). split; [|change (Nat.iter 6 _ _) with 65537 in H2; lia].
    unfold foldSum. change 8%nat with (6 + 2)%nat. generalize 6%nat. intros f. clear H1 H2.
    pose proof (proj1 Hx) as H0. clear Hx. revert x H0. induction f as [|f IH]; intros x H0; [done|].
    simpl Nat.add. rewrite (foldLoop_step (f + 2)), (foldLoop_step f) by done. apply IH.
    by destruct (ones_range _ _ (foldStep_ones x H0)). }
  destruct (Z_lt_dec y 65536); [rewrite foldLoop_small; lia|].
  rewrite foldLoop_step by lia. rewrite foldLoop_small by (unfold foldStep; zlia).
  unfold foldStep. zlia.
Qed.

(** ** Lemmas: word sums *)

(** The sum of the 16-bit words in the byte order of the target. *)
Fixpoint targetSum (bigEndian : bool) (data : list Z) : Z :=
  match data with
  | a :: b :: data => (if bigEndian then a * 256 + b else a + 256 * b) + targetSum bigEndian data
  | [a] => if bigEndian then a * 256 else a
  | [] => 0
  end.

(** Induction two bytes at a time. *)
Lemma pairs_ind (P : list Z -> Prop) :
  P [] -> (forall a, P [a]) -> (forall a b l, P l -> P (a :: b :: l)) -> forall l, P l.
Proof.
  intros H0 H1 H2. fix IH 1. intros [|a [|b l]]; [done|apply H1|apply H2, IH].
Qed.

Lemma targetSum_big data : targetSum true data = wordSum data.
Proof. induction data using pairs_ind; simpl; lia. Qed.

Lemma targetSum_bound be data : bytes_ok data -> 0 <= targetSum be data <= 65535 * zlen data.
Proof.
  induction data as [|a|a b l IH] using pairs_ind; intros Hb.
  - simpl. unfold zlen. simpl. lia.
  - apply Forall_inv in Hb. unfold is_u8 in Hb. unfold zlen. simpl. destruct be; lia.
  - apply Forall_cons_iff in Hb as [Ha Hb]. apply Forall_cons_iff in Hb as [Hb Hl].
    specialize (IH Hl). unfold is_u8 in *. rewrite !zlen_cons. simpl. destruct be; lia.
Qed.

Lemma targetSum_zero be data :
  bytes_ok data -> (targetSum be data = 0 <-> Forall (fun b => b = 0) data).
Proof.
  induction data as [|a|a b l IH] using pairs_ind; intros Hb.
  - simpl. split; [constructor|done].
  - apply Forall_inv in Hb. unfold is_u8 in Hb. simpl.
    split; [intros; constructor; [destruct be; lia|constructor]|].
    intros H%Forall_inv. destruct be; lia.
  - apply Forall_cons_iff in Hb as [Ha Hb]. apply Forall_cons_iff in Hb as [Hb Hl].
    rewrite !Forall_cons_iff, <- (IH Hl). pose proof (targetSum_bound be l Hl).
    unfold is_u8 in *. simpl. destruct be; lia.
Qed.

(** The sum in the other byte order is 256 times the sum. *)
Lemma targetSum_swap data : bytes_ok data -> 256 * targetSum false data ≈ wordSum data.
Proof.
  intros Hb. rewrite <- targetSum_big.
  assert (exists k, 256 * targetSum false data = targetSum true data + 65535 * k) as [k Hk].
  { clear Hb. induction data as [|a|a b l [k IH]] using pairs_ind; simpl.
    - by exists 0.
    - exists 0. lia.
    - exists (b + k). lia. }
  pose proof (targetSum_bound false data Hb). pose proof (targetSum_bound true data Hb).
  apply (ones_diff _ _ k); try lia.
  assert (targetSum false data = 0 <-> targetSum true data = 0)
    by (rewrite (targetSum_zero true), (targetSum_zero false) by done; done).
  lia.
Qed.

Lemma land_1 x : Z.land x 1 = x mod 2.
Proof. exact (Z.land_ones x 1 ltac:(lia)). Qed.

Lemma ldiff_1 x : Z.ldiff x 1 = x - x mod 2.
Proof.
  change 1 with (Z.ones 1) at 1. rewrite Z.ldiff_ones_r by lia.
  rewrite Z.shiftr_div_pow2, Z.shiftl_mul_pow2 by lia.
  change (2 ^ 1) with 2. zlia.
Qed.

Lemma targetSum_app be x y :
  zlen x mod 2 = 0 -> targetSum be (x ++ y) = targetSum be x + targetSum be y.
Proof.
  induction x as [|a|a b l IH] using pairs_ind; intros He; [done|done|].
  simpl. rewrite IH; [lia|]. rewrite !zlen_cons in He. zlia.
Qed.

(** ** Lemmas: accumulation *)

(** The four 16-bit loads of an 8-byte word fold to the word's halves. *)
Lemma wide_word be l :
  bytes_ok l -> length l = 8%nat ->
  let w := loadWord be l in
  Z.shiftr w 32 + Z.land w 4294967295 ≈ targetSum be l /\
  Z.shiftr w 32 + Z.land w 4294967295 < 8589934592.
Proof.
  intros Hb Hl w. subst w.
  destruct l as [|b0 [|b1 [|b2 [|b3 [|b4 [|b5 [|b6 [|b7 [|]]]]]]]]]; try done. clear Hl.
  pose proof (targetSum_bound be _ Hb) as [Hpos _].
  unfold bytes_ok in Hb. rewrite !Forall_cons_iff in Hb. unfold is_u8 in Hb.
  assert (exists h k, loadWord be [b0; b1; b2; b3; b4; b5; b6; b7] = h * 4294967296 + k /\
    0 <= h < 4294967296 /\ 0 <= k < 4294967296 /\
    (h + k = 0 <-> targetSum be [b0; b1; b2; b3; b4; b5; b6; b7] = 0) /\
    exists j, h + k = targetSum be [b0; b1; b2; b3; b4; b5; b6; b7] + 65535 * j)
    as (h & k & -> & Hh & Hk & Hz & j & Hj).
  { destruct be.
    - exists (((b0 * 256 + b1) * 256 + b2) * 256 + b3), (((b4 * 256 + b5) * 256 + b6) * 256 + b7).
      unfold loadWord, be_val. simpl. split_and!; try lia.
      exists (b0 * 256 + b1 + b4 * 256 + b5). lia.
    - exists (b4 + 256 * (b5 + 256 * (b6 + 256 * b7))), (b0 + 256 * (b1 + 256 * (b2 + 256 * b3))).
      unfold loadWord. simpl. split_and!; try lia.
      exists (b2 + 256 * b3 + b6 + 256 * b7). lia. }
  rewrite Z.shiftr_div_pow2 by lia.
  pose proof (Z.land_ones (h * 4294967296 + k) 32 ltac:(lia)) as Hl.
  change (Z.ones 32) with 4294967295 in Hl. rewrite Hl. clear Hl.
  change (2 ^ 32) with 4294967296.
  replace ((h * 4294967296 + k) / 4294967296) with h by zlia.
  replace ((h * 4294967296 + k) mod 4294967296) with k by zlia.
  split; [|lia]. apply (ones_diff _ _ j); done || lia.
Qed.

Lemma targetSum_wide be data :
  16 <= zlen data ->
  targetSum be data = targetSum be (take 8 data)
    + (targetSum be (take 8 (drop 8 data)) + targetSum be (drop 16 data)).
Proof.
  intros H. rewrite <- (take_drop 8 data) at 1. rewrite targetSum_app.
  2: { rewrite zlen_take. replace (Z.min _ _) with 8 by lia. done. }
  rewrite <- (take_drop 8 (drop 8 data)) at 1. rewrite targetSum_app, drop_drop; [done|].
  rewrite zlen_take, zlen_drop. replace (Z.min _ _) with 8 by lia. done.
Qed.

Lemma wideLoop_spec be fuel sum data :
  bytes_ok data -> 0 <= sum -> sum + 2147483648 * zlen data < 18446744073709551616 ->
  (length data <= fuel)%nat ->
  let '(sum', rest) := wideLoop be fuel sum data in
  bytes_ok rest /\ 0 <= sum' /\ sum' + 2147483648 * zlen rest < 18446744073709551616 /\
  sum' + targetSum be rest ≈ sum + targetSum be data.
Proof.
  revert sum data. induction fuel as [|fuel IH]; intros sum data Hb Hs Hlt Hf; cbn [wideLoop].
  { split_and!; try done. apply ones_refl. pose proof (targetSum_bound be data Hb). lia. }
  pose proof (targetSum_bound be data Hb) as Hpos.
  destruct (16 <=? zlen data) eqn:E.
  2: { split_and!; try done. apply ones_refl. lia. }
  pose proof (wide_word be (take 8 data) ltac:(auto with mips) ltac:(rewrite length_take; unfold zlen in *; lia)) as [W1 B1].
  pose proof (wide_word be (take 8 (drop 8 data)) ltac:(auto with mips)
    ltac:(rewrite length_take, length_drop; unfold zlen in *; lia)) as [W2 B2].
  set (w1 := loadWord be (take 8 data)) in *. set (w2 := loadWord be (take 8 (drop 8 data))) in *.
  cbn zeta. pose proof (ones_range _ _ W1). pose proof (ones_range _ _ W2).
  assert (zlen (drop 16 data) = zlen data - 16) as Hd by len.
  replace (u64 _) with (sum + (Z.shiftr w1 32 + Z.land w1 4294967295)
    + (Z.shiftr w2 32 + Z.land w2 4294967295)) by (pose proof (zlen_nonneg data); word).
  specialize (IH (sum + (Z.shiftr w1 32 + Z.land w1 4294967295)
    + (Z.shiftr w2 32 + Z.land w2 4294967295)) (drop 16 data)).
  destruct (wideLoop _ _ _ _) as [sum' rest]. destruct IH as (I1 & I2 & I3 & I4);
    [auto with mips|lia|lia|rewrite length_drop; lia|].
  split_and!; try done. etrans; [exact I4|].
  rewrite (targetSum_wide be data) by lia.
  clearbody w1 w2. set (h1 := Z.shiftr w1 32 + _) in *. set (h2 := Z.shiftr w2 32 + _) in *.
  clearbody h1 h2. rewrite <- !Z.add_assoc. apply ones_add; [by apply ones_refl|].
  apply ones_add; [done|]. apply ones_add; [done|]. apply ones_refl.
  apply (targetSum_bound be). auto with mips.
Qed.

Lemma narrowLoop_spec be sum data :
  bytes_ok data -> 0 <= sum -> sum + 65535 * zlen data < 18446744073709551616 ->
  narrowLoop be sum data = sum + targetSum be data.
Proof.
  revert sum. induction data as [|a|a b l IH] using pairs_ind; intros sum Hb Hs Hlt.
  - simpl. lia.
  - apply Forall_inv in Hb. unfold is_u8 in Hb. rewrite zlen_cons in Hlt.
    pose proof (zlen_nonneg (@nil Z)). simpl. rewrite Z.shiftl_mul_pow2 by lia.
    change (2 ^ 8) with 256. destruct be; unfold u64; rewrite Z.mod_small; lia.
  - apply Forall_cons_iff in Hb as [Ha Hb]. apply Forall_cons_iff in Hb as [Hb Hl].
    unfold is_u8 in *. rewrite !zlen_cons in Hlt. pose proof (zlen_nonneg l).
    assert (loadWord be [a; b] = if be then a * 256 + b else a + 256 * b) as Hw
      by (destruct be; unfold loadWord, be_val; simpl; lia).
    cbn [narrowLoop targetSum]. rewrite Hw. unfold u64. destruct be;
      rewrite Z.mod_small by lia; rewrite IH by (done || lia); lia.
Qed.

Lemma reverse_ones x : 0 <= x <= 65535 -> reverseBytes16 x ≈ 256 * x /\ reverseBytes16 x <= 65535.
Proof.
  intros Hx. assert (reverseBytes16 x = 256 * (x mod 256) + x / 256) as ->.
  { unfold reverseBytes16. change 255 with (Z.ones 8). rewrite Z.land_ones by lia.
    rewrite Z.shiftr_div_pow2 by lia. change (2 ^ 8) with 256.
    rewrite lor_shiftl_add by zlia. change (2 ^ 8) with 256. zlia. }
  split; [|zlia]. apply (ones_diff _ _ (- (x / 256))); zlia.
Qed.

Lemma checksumSum_canon be data :
  bytes_ok data -> zlen data <= 4294967296 -> checksumSum be data = canon (wordSum data).
Proof.
  intros Hb Hl. unfold checksumSum. pose proof (zlen_nonneg data).
  pose proof (wideLoop_spec be (length data) 0 data Hb ltac:(lia) ltac:(lia) ltac:(lia)) as W.
  destruct (wideLoop _ _ _ _) as [sum rest]. destruct W as (W1 & W2 & W3 & W4).
  pose proof (zlen_nonneg rest). pose proof (targetSum_bound be rest W1).
  rewrite narrowLoop_spec by (done || lia). rewrite Z.add_0_l in W4.
  rewrite foldSum_canon by lia. rewrite (canon_eq _ _ W4).
  pose proof (targetSum_bound be data Hb).
  pose proof (canon_range (targetSum be data)) as Hr.
  replace (u16 (canon (targetSum be data))) with (canon (targetSum be data))
    by (unfold u16; rewrite Z.mod_small; lia).
  unfold u32. destruct be.
  - rewrite Z.mod_small by lia. by rewrite targetSum_big.
  - destruct (reverse_ones _ Hr) as [R1 R2]. pose proof (ones_range _ _ R1).
    rewrite Z.mod_small by lia. apply canon_unique; [|done].
    etrans; [exact R1|]. etrans; [|by apply targetSum_swap].
    apply ones_mul; [lia|]. apply canon_ones. lia.
Qed.

Lemma wordSum_bound data : bytes_ok data -> 0 <= wordSum data <= 65535 * zlen data.
Proof. rewrite <- targetSum_big. apply targetSum_bound. Qed.

Lemma not16_canon x : 0 <= x < 18446744073709551616 -> not16 (foldSum x) = 65535 - canon x.
Proof.
  intros Hx. rewrite foldSum_canon by done. pose proof (canon_range x).
  unfold not16, u16. rewrite Z.mod_small; lia.
Qed.

Lemma canon_idem x : canon (canon x) = canon x.
Proof. apply canon_small, canon_range. Qed.

(** ** Lemmas: concatenated regions *)

Lemma wordSum_app x y : zlen x mod 2 = 0 -> wordSum (x ++ y) = wordSum x + wordSum y.
Proof. rewrite <- !targetSum_big. apply targetSum_app. Qed.

Lemma wordSum_ones data : bytes_ok data -> wordSum data ≈ wordSum data.
Proof. intros H. apply ones_refl. pose proof (wordSum_bound data H). lia. Qed.

(** The state of the region loop after the bytes [D], of which the last one is
    pending when their number is odd. *)
Definition partsState (init : Z) (D : list Z) (s : Z * Z * bool) : Prop :=
  let '(sum, trailing, odd) := s in
  exists D', D = D' ++ (if (odd : bool) then [trailing] else []) /\ bytes_ok D /\
    zlen D' mod 2 = 0 /\ sum ≈ init + wordSum D' /\ sum <= 1048576.

Lemma partRest_ok be init D sum trailing part :
  bytes_ok D -> bytes_ok part -> zlen D mod 2 = 0 -> zlen part <= 4294967296 ->
  sum ≈ init + wordSum D -> sum <= 2097152 ->
  partsState init (D ++ part) (partRest be sum trailing part).
Proof.
  intros HD Hp He Hl Hs Hb. pose proof (zlen_nonneg part) as Hn. unfold partRest. rewrite ldiff_1.
  set (e := zlen part - zlen part mod 2). 
  assert (0 <= e <= zlen part /\ e mod 2 = 0 /\ zlen part <= e + 1) as (E1 & E2 & E3) by (subst e; zlia).
  clearbody e.
  set (head := take (Z.to_nat e) part). assert (bytes_ok head) as Hh by (subst head; auto with mips).
  assert (zlen head = e) as Lh by (subst head; rewrite zlen_take; lia).
  pose proof (ones_range _ _ Hs) as [H0 _].
  assert (exists sum', (if negb (e =? 0) then sum ⊞ checksumSum be head else sum) = sum' /\
     sum' ≈ init + wordSum (D ++ head) /\ 0 <= sum' < 4194304) as (sum' & -> & S1 & S2).
  { rewrite wordSum_app by done. eexists. split; [reflexivity|].
    destruct (e =? 0) eqn:E0; cbn [negb].
    - replace head with (@nil Z) by (symmetry; apply zlen_zero; lia). simpl. rewrite Z.add_0_r.
      split; [done|lia].
    - rewrite checksumSum_canon by (done || lia). pose proof (canon_range (wordSum head)).
      rewrite u32_id by (unfold is_u32; lia). split; [|lia]. rewrite Z.add_assoc.
      apply ones_add; [done|]. apply canon_ones. pose proof (wordSum_bound head Hh). lia. }
  assert (foldSum sum' ≈ init + wordSum (D ++ head) /\ foldSum sum' <= 1048576) as [F1 F2].
  { rewrite foldSum_canon by lia. pose proof (canon_range sum').
    split; [etrans; [apply canon_ones; lia|done]|lia]. }
  destruct (e =? zlen part) eqn:Ee; cbn [negb]; unfold partsState.
  - exists (D ++ head). assert (head = part) as -> by (subst head; apply take_ge; unfold zlen in *; lia).
    rewrite app_nil_r, zlen_app. split_and!; try done; [by apply bytes_ok_app|zlia].
  - exists (D ++ head). rewrite <- app_assoc. destruct (idx_some part e) as [x Hx]; [lia|].
    rewrite Hx. simpl. split_and!; try done; [|by apply bytes_ok_app|rewrite zlen_app; zlia].
    f_equal. subst head. unfold idx in Hx. destruct (0 <=? e) eqn:E4; [|done].
    rewrite <- (take_drop_middle part _ _ Hx) at 1. f_equal. f_equal.
    apply zlen_zero. rewrite zlen_drop. lia.
Qed.

Lemma partStep_ok be init D s part :
  partsState init D s -> bytes_ok part -> zlen part <= 4294967296 ->
  partsState init (D ++ part) (partStep be s part).
Proof.
  destruct s as [[sum trailing] odd]. intros (D' & -> & HD & He & Hs & Hb) Hp Hl.
  destruct part as [|b rest]; [rewrite app_nil_r; exists D'; done|]. cbn [partStep].
  apply bytes_ok_app in HD as [HD HT]. destruct odd.
  - apply Forall_inv in HT. apply Forall_cons_iff in Hp as [Hb' Hr]. unfold is_u8 in *.
    rewrite zlen_cons in Hl. rewrite lor_shiftl_add by (simpl; lia). change (2 ^ 8) with 256.
    pose proof (ones_range _ _ Hs) as [H0 _]. rewrite u32_id by (unfold is_u32; lia).
    replace ((D' ++ [trailing]) ++ b :: rest) with ((D' ++ [trailing; b]) ++ rest)
      by (rewrite <- !app_assoc; done).
    apply partRest_ok; try done; try lia.
    + apply bytes_ok_app. split; [done|]. repeat constructor; unfold is_u8; lia.
    + rewrite zlen_app. change (zlen [trailing; b]) with 2. zlia.
    + rewrite wordSum_app, (Z.add_assoc init) by done. apply ones_add; [done|]. simpl.
      apply ones_diff with (k := 0); lia.
  - rewrite app_nil_r. apply partRest_ok; try done. lia.
Qed.

Lemma checksumParts_ok be init parts :
  0 <= init <= 1048576 -> Forall bytes_ok parts -> Forall (fun p => zlen p <= 4294967296) parts ->
  checksumParts be init parts = 65535 - canon (init + wordSum (concat parts)).
Proof.
  intros Hi Hb Hl. unfold checksumParts.
  assert (forall D s, partsState init D s ->
    partsState init (D ++ concat parts) (fold_left (partStep be) parts s)) as H.
  { clear Hi. induction parts as [|p parts IH]; intros D s HP; simpl; [by rewrite app_nil_r|].
    apply Forall_cons_iff in Hb as [Hb1 Hb2]. apply Forall_cons_iff in Hl as [Hl1 Hl2].
    rewrite app_assoc. apply IH; [done|done|]. by apply partStep_ok. }
  specialize (H [] (init, 0, false)). simpl app in H.
  destruct (fold_left _ _ _) as [[sum trailing] odd]. destruct H as (D' & HD & Hbc & He & Hs & Hle).
  { exists []. rewrite Z.add_0_r. split_and!; try done; [constructor|apply ones_refl; lia|simpl; lia]. }
  rewrite HD in *. rewrite wordSum_app by done. apply bytes_ok_app in Hbc as [B1 B2].
  pose proof (ones_range _ _ Hs) as [H0 _]. destruct odd; simpl.
  - apply Forall_inv in B2. unfold is_u8 in B2. rewrite Z.shiftl_mul_pow2 by lia.
    change (2 ^ 8) with 256. rewrite u32_id by (unfold is_u32; lia).
    rewrite not16_canon by lia. f_equal. apply canon_eq. rewrite Z.add_assoc.
    apply ones_add; [done|apply ones_refl; lia].
  - rewrite not16_canon by lia. f_equal. apply canon_eq. by rewrite Z.add_0_r.
Qed.

Lemma checksum_ok be data :
  bytes_ok data -> zlen data <= 4294967296 -> checksum be data = rfc1071 data.
Proof.
  intros Hb Hl. unfold checksum, rfc1071. rewrite checksumSum_canon by done.
  pose proof (canon_range (wordSum data)). rewrite not16_canon by lia. by rewrite canon_idem.
Qed.

(** ** Lemmas: pseudo-headers *)

Lemma wordSum_be2 v : 0 <= v < 65536 -> wordSum (be_bytes 2 v) = v.
Proof. intros. simpl. zlia. Qed.

Lemma wordSum_be4 v : 0 <= v < 4294967296 -> wordSum (be_bytes 4 v) = v / 65536 + v mod 65536.
Proof. intros. simpl. zlia. Qed.

(** Nested wrap-around additions of small terms. *)
Lemma small_sums a b c d :
  0 <= a < 1048576 -> 0 <= b < 1048576 -> 0 <= c < 1048576 -> 0 <= d < 1048576 ->
  a ⊞ b ⊞ c ⊞ d = a + b + c + d.
Proof. intros. unfold u32. rewrite (Z.mod_small (a + b)), (Z.mod_small (a + b + c)), Z.mod_small; lia. Qed.

Lemma pseudoSum_ok be source target protocol n :
  addrOk source -> addrOk target -> is_u8 protocol -> 0 <= n <= 65535 ->
  match pseudoSum be source target protocol n, pseudoHeader source target protocol n with
  | Some sum, Some header =>
      sum ≈ wordSum header /\ sum <= 262143 /\ bytes_ok header /\ zlen header mod 2 = 0 /\
      zlen header <= 40
  | None, None => True
  | _, _ => False
  end.
Proof.
  intros Hs Ht Hp Hn. unfold is_u8 in Hp.
  assert (forall l, bytes_ok l -> length l = 4%nat \/ length l = 16%nat ->
    checksumSum be l ≈ wordSum l /\ 0 <= checksumSum be l <= 65535 /\
    zlen l mod 2 = 0 /\ zlen l <= 16) as Hc.
  { intros l Hb Hl. pose proof (wordSum_bound l Hb).
    rewrite checksumSum_canon by (done || (unfold zlen; lia)). pose proof (canon_range (wordSum l)).
    split; [apply canon_ones; lia|]. split; [lia|]. unfold zlen. destruct Hl as [-> | ->]; done. }
  destruct source as [|s|s zs], target as [|t|t zt]; try done; cbn [pseudoSum pseudoHeader];
    destruct Hs as [Ls Bs], Ht as [Lt Bt];
    destruct (Hc s Bs ltac:(tauto)) as (S1 & S2 & S3 & S4);
    destruct (Hc t Bt ltac:(tauto)) as (T1 & T2 & T3 & T4).
  - rewrite small_sums by lia. split; [|split; [lia|]].
    + rewrite !wordSum_app, wordSum_be2 by done || lia. simpl.
      rewrite <- !Z.add_assoc. apply ones_add; [done|]. apply ones_add; [done|].
      apply ones_refl. lia.
    + rewrite !bytes_ok_app, !zlen_app, zlen_be_bytes. change (zlen [0; protocol]) with 2.
      split; [|zlia]. split_and!; auto with mips. repeat constructor; unfold is_u8; lia.
  - rewrite Z.shiftr_div_pow2 by lia.
    pose proof (Z.land_ones n 16 ltac:(lia)) as Hl. change (Z.ones 16) with 65535 in Hl. rewrite Hl.
    change (2 ^ 16) with 65536. rewrite Z.div_small, Z.mod_small by lia.
    rewrite (small_sums (checksumSum be s)) by lia.
    rewrite u32_id by (unfold is_u32; lia). split; [|split; [lia|]].
    + rewrite !wordSum_app, wordSum_be4 by done || lia. rewrite Z.div_small, Z.mod_small by lia. simpl.
      rewrite <- !Z.add_assoc. apply ones_add; [done|]. apply ones_add; [done|].
      apply (ones_diff _ _ 0); lia.
    + rewrite !bytes_ok_app, !zlen_app, zlen_be_bytes. change (zlen [0; 0; 0; protocol]) with 4.
      split; [|zlia]. split_and!; auto with mips. repeat constructor; unfold is_u8; lia.
Qed.

Lemma wordSum_odd_app x b y :
  zlen x mod 2 = 1 -> wordSum (x ++ b :: y) = wordSum x + b + wordSum y.
Proof.
  induction x as [|a|a c l IH] using pairs_ind; intros He; [done|simpl; lia|].
  simpl. rewrite IH; [lia|]. rewrite !zlen_cons in He. zlia.
Qed.

(** The checksum over the pseudo-header and two regions. *)
Lemma transportChecksumParts_ok be source target protocol first second :
  addrOk source -> addrOk target -> is_u8 protocol -> bytes_ok first -> bytes_ok second ->
  zlen first + zlen second <= 65535 ->
  let n := zlen first + zlen second in
  transportChecksumParts be source target protocol n first second
  = match pseudoHeader (unmap source) (unmap target) protocol n with
    | Some header => rfc1071 (header ++ first ++ second)
    | None => 0
    end.
Proof.
  intros Hs Ht Hp Hf Hsec Hl n. pose proof (zlen_nonneg first). pose proof (zlen_nonneg second).
  pose proof (pseudoSum_ok be (unmap source) (unmap target) protocol n
    (unmap_ok _ Hs) (unmap_ok _ Ht) Hp ltac:(lia)) as P.
  unfold transportChecksumParts. destruct (pseudoSum _ _ _ _ _) as [sum|],
    (pseudoHeader _ _ _ _) as [header|]; try done. destruct P as (P1 & P2 & P3 & P4 & P5).
  pose proof (ones_range _ _ P1) as [P0 _].
  pose proof (wordSum_bound first Hf). pose proof (wordSum_bound second Hsec).
  pose proof (canon_ones (wordSum first) ltac:(lia)) as C1.
  pose proof (canon_range (wordSum first)).
  rewrite checksumSum_canon by (done || lia). rewrite (u32_id (sum + _)) by (unfold is_u32; lia).
  unfold rfc1071. rewrite wordSum_app by done. rewrite land_1.
  assert (forall tail, bytes_ok tail -> zlen tail <= 65535 -> forall extra, 0 <= extra <= 255 ->
    not16 (foldSum ((sum + canon (wordSum first) + extra) ⊞ checksumSum be tail))
    = 65535 - canon (wordSum header + (wordSum first + extra + wordSum tail))) as Hfin.
  { intros tail Ht' Hlt' extra He. pose proof (wordSum_bound tail Ht').
    pose proof (canon_range (wordSum tail)).
    rewrite checksumSum_canon, u32_id by (done || unfold is_u32; lia).
    rewrite not16_canon by lia. f_equal. apply canon_eq. rewrite <- !Z.add_assoc.
    apply ones_add; [done|]. apply ones_add; [done|]. apply ones_add; [apply ones_refl; lia|].
    apply canon_ones. lia. }
  destruct second as [|b rest].
  { rewrite app_nil_r. rewrite <- (Z.add_0_r (sum + _)). rewrite Hfin by (done || lia).
    f_equal. f_equal. simpl. lia. }
  apply Forall_cons_iff in Hsec as [Hb Hrest]. unfold is_u8 in Hb. rewrite zlen_cons in *.
  pose proof (zlen_nonneg rest).
  destruct (zlen first mod 2 =? 0) eqn:Ee; cbn [negb].
  - rewrite wordSum_app by lia. rewrite <- (Z.add_0_r (sum + _)).
    rewrite Hfin by (try (constructor; [done|done]); rewrite ?zlen_cons; lia).
    f_equal. f_equal. lia.
  - rewrite wordSum_odd_app by zlia.
    destruct (idx_some first (zlen first - 1)) as [x Hx]; [zlia|]. rewrite Hx. simpl default.
    pose proof (idx_u8 _ _ _ Hf Hx) as Hx8. unfold is_u8 in Hx8.
    rewrite lor_shiftl_add by (simpl; lia). rewrite Z.shiftl_mul_pow2 by lia.
    change (2 ^ 8) with 256.
    replace (_ ⊟ (x * 256) ⊞ (x * 256 + b)) with (sum + canon (wordSum first) + b) by word.
    apply Hfin; done || lia.
Qed.

Lemma partsLength_ok n parts :
  0 <= n <= 65535 ->
  partsLength n parts
  = if 65535 <? n + zlen (concat parts) then None else Some (n + zlen (concat parts)).
Proof.
  revert n. induction parts as [|p parts IH]; intros n Hn; simpl.
  { rewrite zlen_nil, Z.add_0_r. by replace (65535 <? n) with false by lia. }
  pose proof (zlen_nonneg p). pose proof (zlen_nonneg (concat parts)). rewrite zlen_app.
  destruct (_ <? zlen p) eqn:E; [by replace (65535 <? _) with true by lia|].
  rewrite IH, Z.add_assoc by lia. done.
Qed.

Lemma concat_bounds parts n :
  zlen (concat parts) <= n -> Forall (fun p : list Z => zlen p <= n) parts.
Proof.
  induction parts as [|p parts IH]; intros H; [constructor|]. simpl in H. rewrite zlen_app in H.
  pose proof (zlen_nonneg p). pose proof (zlen_nonneg (concat parts)).
  constructor; [lia|apply IH; lia].
Qed.

Lemma bytes_ok_concat parts : Forall bytes_ok parts -> bytes_ok (concat parts).
Proof. induction 1; simpl; [constructor|]. by apply bytes_ok_app. Qed.

(** The pseudo-header exists exactly for two valid addresses of one family. *)
Lemma pseudoHeader_some s d p n :
  negb (isValid s) || negb (isValid d) || negb (Bool.eqb (is4 s) (is4 d)) = false ->
  exists header, pseudoHeader s d p n = Some header.
Proof. destruct s, d; simpl; try done; intros _; eauto. Qed.

(** Storing the checksum in the zeroed aligned field makes the region verify. *)
Lemma checksum_field be a w b :
  bytes_ok a -> bytes_ok b -> zlen a mod 2 = 0 -> zlen a + zlen b <= 65535 -> is_u16 w ->
  checksum be (a ++ be_bytes 2 w ++ b) = 65535 - canon (w + (wordSum a + wordSum b)).
Proof.
  intros Ha Hb He Hl Hw. unfold is_u16 in Hw. rewrite checksum_ok.
  - unfold rfc1071. rewrite !wordSum_app, wordSum_be2 by (done || lia). do 2 f_equal. lia.
  - rewrite !bytes_ok_app. auto with mips.
  - rewrite !zlen_app, zlen_be_bytes. lia.
Qed.

Lemma checksum_range be data : bytes_ok data -> zlen data <= 4294967296 -> is_u16 (checksum be data).
Proof.
  intros Hb Hl. rewrite checksum_ok by done. unfold rfc1071, is_u16.
  pose proof (canon_range (wordSum data)). lia.
Qed.

Lemma checksum_insert be a b :
  bytes_ok a -> bytes_ok b -> zlen a mod 2 = 0 -> zlen a + zlen b <= 65535 ->
  checksum be (a ++ be_bytes 2 (checksum be (a ++ be_bytes 2 0 ++ b)) ++ b) = 0.
Proof.
  intros Ha Hb He Hl. pose proof (wordSum_bound a Ha). pose proof (wordSum_bound b Hb).
  rewrite (checksum_field be a 0) by (done || unfold is_u16; lia).
  pose proof (canon_range (0 + (wordSum a + wordSum b))).
  rewrite checksum_field by (done || unfold is_u16; lia).
  set (s := wordSum a + wordSum b) in *. assert (0 <= s) as Hs by lia. clearbody s.
  unfold canon in *. rewrite Z.add_0_l in *. destruct (s =? 0) eqn:E; split_ifs; zlia.
Qed.

(** ** Properties *)

(** C26. The checksum is the RFC 1071 checksum: on a machine of either byte
    order, reading the data in wide words or handing it over in arbitrary
    regions gives the complement of the one's-complement sum of the 16-bit
    words in network order. *)
Theorem checksum_reference (be : bool) (parts : list (list Z)) :
  Forall bytes_ok parts -> zlen (concat parts) <= 4294967296 ->
  InternetChecksumParts be parts = rfc1071 (concat parts) /\
  InternetChecksum be (concat parts) = rfc1071 (concat parts).
Proof.
  intros Hb Hl. unfold InternetChecksum.
  rewrite (checksum_ok be (concat parts)) by (done || by apply bytes_ok_concat). split; [|done].
  assert (checksumParts be 0 parts = rfc1071 (concat parts)) as Hp.
  { rewrite checksumParts_ok by (done || lia || by apply concat_bounds). done. }
  destruct parts as [|p [|q parts]]; [exact Hp| |exact Hp]. simpl in *. rewrite app_nil_r in *.
  apply checksum_ok; [by apply Forall_inv in Hb|done].
Qed.

Lemma checksum_reference_witness :
  InternetChecksumParts false [[69; 0; 0]; [115]; [0; 0; 64]] = 31372 /\
  InternetChecksumParts false [[69; 0; 0]; [115]; [0; 0; 64]]
  = rfc1071 (concat [[69; 0; 0]; [115]; [0; 0; 64]]).
Proof.
  split; [by vm_compute|].
  apply (checksum_reference false [[69; 0; 0]; [115]; [0; 0; 64]]); [|by vm_compute].
  repeat constructor; unfold is_u8; lia.
Defined.

(** A checksum protects its region: storing it in the zeroed aligned field
    makes the region verify, and two contents of any aligned 16-bit word that
    both verify are equal up to the two encodings of zero. *)
Theorem checksum_protects (be : bool) (a b : list Z) :
  bytes_ok a -> bytes_ok b -> zlen a mod 2 = 0 -> zlen a + zlen b <= 65535 ->
  checksum be (a ++ be_bytes 2 (checksum be (a ++ [0; 0] ++ b)) ++ b) = 0 /\
  (forall w w', is_u16 w -> is_u16 w' ->
     checksum be (a ++ be_bytes 2 w ++ b) = 0 -> checksum be (a ++ be_bytes 2 w' ++ b) = 0 ->
     w mod 65535 = w' mod 65535).
Proof.
  intros Ha Hb He Hl. split; [by apply checksum_insert|].
  pose proof (wordSum_bound a Ha). pose proof (wordSum_bound b Hb).
  intros w w' Hw Hw'. rewrite !checksum_field by done.
  set (s := wordSum a + wordSum b) in *. assert (0 <= s) as Hs by lia. clearbody s.
  unfold canon, is_u16 in *. intros H1 H2. split_ifs_in H1; split_ifs_in H2; try lia. zlia.
Qed.

Lemma checksum_protects_witness :
  checksum true ([69; 0] ++ be_bytes 2 (checksum true ([69; 0] ++ [0; 0] ++ [7])) ++ [7]) = 0 /\
  checksum true [69; 0; 0; 0; 7] = 46079.
Proof.
  split; [|by vm_compute].
  apply (checksum_protects true [69; 0] [7]); try done; repeat constructor; unfold is_u8; lia.
Defined.

(** The transport checksum over regions is the transport checksum over
    their concatenation, errors included, and a returned value is the RFC 1071
    checksum of the pseudo-header followed by the payload. *)
Theorem transport_checksum_parts (be : bool) (source destination : Addr) (protocol : Z)
    (parts : list (list Z)) :
  addrOk source -> addrOk destination -> Forall bytes_ok parts ->
  IPTransportChecksumParts be source destination protocol parts
  = IPTransportChecksum be source destination protocol (concat parts) /\
  (forall c, IPTransportChecksum be source destination protocol (concat parts) = Ret c ->
   exists header,
     pseudoHeader (unmap source) (unmap destination) protocol (zlen (concat parts)) = Some header /\
     c = rfc1071 (header ++ concat parts)).
Proof.
  intros Hs Hd Hb. unfold IPTransportChecksumParts, IPTransportChecksum, transportChecksum.
  destruct (negb (bool_decide _) || _); [done|]. destruct (_ || (255 <? protocol)) eqn:Ev; [done|].
  apply orb_false_iff in Ev as [Ev Hp2]. apply orb_false_iff in Ev as [Ev Hp1].
  destruct (pseudoHeader_some _ _ protocol (zlen (concat parts)) Ev) as [header Hh].
  rewrite partsLength_ok, !Z.add_0_l by lia. pose proof (bytes_ok_concat parts Hb) as Hc.
  destruct (65535 <? zlen (concat parts)) eqn:El; [done|].
  assert (is_u8 protocol) as Hp by (unfold is_u8; lia).
  assert (forall x y, bytes_ok x -> bytes_ok y -> concat parts = x ++ y ->
    transportChecksumParts be (unmap source) (unmap destination) protocol (zlen (concat parts)) x y
    = rfc1071 (header ++ concat parts)) as Ht.
  { intros x y Hx Hy Hxy. pose proof (transportChecksumParts_ok be (unmap source)
      (unmap destination) protocol x y (unmap_ok _ Hs) (unmap_ok _ Hd) Hp Hx Hy) as H.
    rewrite Hxy, zlen_app in *. cbn zeta in H. rewrite H by lia.
    rewrite !unmap_idem. by rewrite Hh. }
  rewrite (Ht (concat parts) []) by (done || (constructor) || by rewrite app_nil_r).
  split; [|intros c [= <-]; eauto].
  assert ((sum ← need (pseudoSum be (unmap source) (unmap destination) protocol
             (zlen (concat parts))); Ret (checksumParts be sum parts))
          = Ret (rfc1071 (header ++ concat parts))) as Hgen.
  { pose proof (zlen_nonneg (concat parts)).
    pose proof (pseudoSum_ok be (unmap source) (unmap destination) protocol (zlen (concat parts))
      (unmap_ok _ Hs) (unmap_ok _ Hd) Hp ltac:(lia)) as P. rewrite Hh in P.
    destruct (pseudoSum _ _ _ _ _) as [sum|]; [|done]. destruct P as (P1 & P2 & P3 & P4 & P5).
    pose proof (ones_range _ _ P1) as [P0 _]. pose proof (wordSum_bound _ Hc). simpl.
    rewrite checksumParts_ok by (try apply concat_bounds; done || lia). unfold rfc1071.
    rewrite wordSum_app by done. do 2 f_equal. apply canon_eq.
    apply ones_add; [done|apply ones_refl; lia]. }
  destruct parts as [|p [|q [|r parts]]]; [exact Hgen| | |exact Hgen].
  - change (concat [p]) with (p ++ []) in *. rewrite app_nil_r in *. f_equal.
    unfold transportChecksum. apply Ht; [done|constructor|by rewrite app_nil_r].
  - apply Forall_cons_iff in Hb as [Hb1 Hb2%Forall_inv]. f_equal. apply Ht; try done.
    simpl. by rewrite app_nil_r.
Qed.

Lemma transport_checksum_parts_witness :
  IPTransportChecksumParts false (Addr4 [10; 0; 0; 1]) (Addr4 [10; 0; 0; 2]) 17 [[0; 53; 7]; []; [9]]
  = IPTransportChecksum false (Addr4 [10; 0; 0; 1]) (Addr4 [10; 0; 0; 2]) 17 [0; 53; 7; 9] /\
  IPTransportChecksum false (Addr4 [10; 0; 0; 1]) (Addr4 [10; 0; 0; 2]) 17 [0; 53; 7; 9] = Ret 58537.
Proof.
  split; [|by vm_compute].
  apply (transport_checksum_parts false (Addr4 [10; 0; 0; 1]) (Addr4 [10; 0; 0; 2]) 17
           [[0; 53; 7]; []; [9]]).
  - split; [done|]. repeat constructor; unfold is_u8; lia.
  - split; [done|]. repeat constructor; unfold is_u8; lia.
  - repeat constructor; unfold is_u8; lia.
Defined.
