(* ===== verification/Windows.v ===== *)
(** * Sender windows and packet sizes

    Saturating window arithmetic, proportional rate reduction, idle restart,
    MSS derivation and the RFC 4821 path MTU search of [tcp.go]. *)

From S2P Require Import Prelude SeqNum Rtt Addr.

(** ** Constants *)

Definition tcpHeaderSize : Z := 20.
Definition tcpMaximumScaledWindow : Z := 65535 * 2 ^ 14.
Definition tcpMinimumPeerMSS : Z := 48.
Definition tcpTimestampOptionSize : Z := 12.
Definition ipv6MinimumMTU : Z := 1280.
Definition tcpPLPMTUProbeThreshold : Z := 8.
Definition tcpPLPMTUProbeMinimumInterval : Z := second.
Definition pathMTULifetime : Z := 10 * minute.

(** ** Window arithmetic *)

Definition growCongestionWindow (window delta : Z) : Z :=
  if (tcpMaximumScaledWindow <=? window) || (u32 (tcpMaximumScaledWindow - window) <=? delta)
  then tcpMaximumScaledWindow else window ⊞ delta.

Definition newRenoPartialACKWindow (window acknowledged mss : Z) : Z :=
  let window := if window <=? acknowledged then 0 else window ⊟ acknowledged in
  let minimum := u32 mss in
  let window := if minimum <=? acknowledged then growCongestionWindow window minimum else window in
  if window <? minimum then minimum else window.

Definition prrCongestionWindow (pipe threshold priorFlight delivered sent newlyDelivered : Z)
    (cumulativeACK newlyLost : bool) (mss : Z) : Z :=
  if (newlyDelivered =? 0) || (priorFlight =? 0) || (mss <? 1) then pipe
  else
    let allowance :=
      if threshold <? pipe then
        let target := u64 (u64 (threshold * delivered) + priorFlight - 1) / priorFlight in
        if sent <? target then target - sent else 0
      else
        let allowance := if sent <? delivered then delivered - sent else 0 in
        let allowance := if allowance <? newlyDelivered then newlyDelivered else allowance in
        let allowance := if cumulativeACK && negb newlyLost then u64 (allowance + mss) else allowance in
        let available := threshold ⊟ pipe in
        if available <? allowance then available else allowance in
    let allowance := if tcpMaximumScaledWindow <? allowance then tcpMaximumScaledWindow
                     else allowance in
    growCongestionWindow pipe (u32 allowance).

Definition initialTCPWindow (mss : Z) : Z :=
  let window := 10 * mss in
  let minimum := 2 * mss in
  let minimum := if minimum <? 14600 then 14600 else minimum in
  u32 (if minimum <? window then minimum else window).

(** The decay loop: [idle] has already lost one timeout. *)
Definition restartBody (restart rto : Z) (s : Z * Z) : option ((Z * Z) + Z) :=
  let '(idle, window) := s in
  if (0 <? idle) && (restart <? window) then Some (inl (idle - rto, window / 2))
  else Some (inr window).

(** A 32-bit window is halved at most 32 times. *)
Definition tcpRestartWindow (window mss idle rto : Z) : option Z :=
  let restart := initialTCPWindow mss in
  let restart := if window <? restart then window else restart in
  if rto <=? 0 then Some restart
  else
    window ← loop 34 (restartBody restart rto) (idle - rto, window);
    Some (if window <? restart then restart else window).

Definition tcpCurrentSlowStartThreshold (window threshold : Z) : Z :=
  let current := window - window / 4 in
  if current <? threshold then threshold else current.

(** ** Segment sizes *)

Definition clampMSS (value maximum : Z) : Z :=
  let value := if value <? tcpMinimumPeerMSS then tcpMinimumPeerMSS else value in
  if maximum <? value then maximum else value.

Definition tcpEffectiveSendMSS (peerMSS pathMSS : Z) (timestamp : bool) : Z :=
  let maximum := clampMSS peerMSS pathMSS in
  if timestamp then maximum - tcpTimestampOptionSize else maximum.

Definition tcpSegmentPayloadLimit (peerMSS pathMSS optionSize : Z) : Z :=
  let peerMSS := if pathMSS <? peerMSS then pathMSS else peerMSS in
  peerMSS - optionSize.

Definition defaultTCPPeerMSS (address : Addr) : Z := if is4 address then 536 else 1220.

Definition tcpMSSForMTU (mtu : Z) (address : Addr) : Z :=
  let header := if is4 address then tcpHeaderSize + 20 else tcpHeaderSize + 40 in
  let maximum := mtu - header in
  if 65535 <? maximum then 65535 else maximum.

Definition blackHolePlateaus : list Z := [1500; 1280; 1006; 576; 508; 296; 68].

Fixpoint firstBelow (l : list Z) (current : Z) : Z :=
  match l with
  | [] => current
  | candidate :: l => if candidate <? current then candidate else firstBelow l current
  end.

Definition nextBlackHoleMTU (current : Z) (ipv6 : bool) : Z :=
  if ipv6 then (if ipv6MinimumMTU <? current then ipv6MinimumMTU else current)
  else firstBelow blackHolePlateaus current.

Definition ipv4Unspecified : Addr := Addr4 [0; 0; 0; 0].
Definition ipv6Unspecified : Addr := Addr6 (replicate 16 0) noZone.

Definition blackHoleBody (current : Z) (ipv6 : bool) (payloadSize : Z) (timestamp : bool)
    (probe : Z) : option (Z + Z) :=
  let next := nextBlackHoleMTU probe ipv6 in
  if probe <=? next then Some (inr current)
  else
    let maximumPayload := tcpMSSForMTU next (if ipv6 then ipv6Unspecified else ipv4Unspecified) in
    let maximumPayload := if timestamp then maximumPayload - tcpTimestampOptionSize
                          else maximumPayload in
    if maximumPayload <? payloadSize then Some (inr next) else Some (inl next).

(** Each turn moves to a lower plateau, of which there are seven. *)
Definition nextBlackHoleProbeMTU (current : Z) (ipv6 : bool) (payloadSize : Z) (timestamp : bool)
    : option Z :=
  loop 9 (blackHoleBody current ipv6 payloadSize timestamp) current.

(** ** Packetization-layer path MTU search *)

Record tcpPLPMTU := mkPlpmtu {
  pl_low : Z;
  pl_high : Z;
  pl_probeMTU : Z;
  pl_probeStart : Z;
  pl_probeEnd : Z;
  pl_nextProbe : Z;
  pl_searching : bool;
  pl_active : bool }.

Definition zeroPlpmtu : tcpPLPMTU := mkPlpmtu 0 0 0 0 0 0 false false.

Definition pl_start (base maximum now : Z) : tcpPLPMTU :=
  if maximum - base <? tcpPLPMTUProbeThreshold then zeroPlpmtu
  else mkPlpmtu base maximum 0 0 0 now true false.

Definition pl_candidate (p : tcpPLPMTU) (now : Z) : option Z :=
  if negb (pl_searching p) || pl_active p || (now <? pl_nextProbe p)
     || (pl_high p - pl_low p <? tcpPLPMTUProbeThreshold)
  then None
  else Some (pl_low p + Z.quot (pl_high p - pl_low p + 1) 2).

Definition pl_sent (p : tcpPLPMTU) (mtu start stop : Z) : tcpPLPMTU :=
  mkPlpmtu (pl_low p) (pl_high p) mtu start stop (pl_nextProbe p) (pl_searching p) true.

Definition pl_success (p : tcpPLPMTU) (now : Z) : tcpPLPMTU * Z :=
  let mtu := pl_probeMTU p in
  let searching := if pl_high p - mtu <? tcpPLPMTUProbeThreshold then false else pl_searching p in
  (mkPlpmtu mtu (pl_high p) 0 (pl_probeStart p) (pl_probeEnd p) now searching false, mtu).

Definition pl_failed (p : tcpPLPMTU) (now headway : Z) : tcpPLPMTU :=
  let high := if (0 <? pl_probeMTU p) && (pl_probeMTU p - 1 <? pl_high p)
              then pl_probeMTU p - 1 else pl_high p in
  let headway := if headway <? tcpPLPMTUProbeMinimumInterval
                 then tcpPLPMTUProbeMinimumInterval else headway in
  let searching := if high - pl_low p <? tcpPLPMTUProbeThreshold then false else pl_searching p in
  mkPlpmtu (pl_low p) high 0 (pl_probeStart p) (pl_probeEnd p) (now + headway) searching false.

Definition pl_inconclusive (p : tcpPLPMTU) (now delay : Z) : tcpPLPMTU :=
  let delay := if delay <? tcpPLPMTUProbeMinimumInterval
               then tcpPLPMTUProbeMinimumInterval else delay in
  mkPlpmtu (pl_low p) (pl_high p) 0 (pl_probeStart p) (pl_probeEnd p) (now + delay)
           (pl_searching p) false.

Definition pl_reduce (mtu prior maximum now : Z) : tcpPLPMTU :=
  let high := if (mtu <? prior) && (prior - 1 <? maximum) then prior - 1 else maximum in
  pl_start mtu high (now + pathMTULifetime).

Definition tcpPLPMTUProbeHeadway (window mss roundTrip : Z) : Z :=
  let mss := if mss <? 1 then 1 else mss in
  let roundTrip := if roundTrip <=? 0 then tcpInitialRTO else roundTrip in
  let packets := u64 (u64 (window + mss) - 1) / mss in
  let packets := if packets =? 0 then 1 else packets in
  if maxDuration / roundTrip <? packets then maxDuration
  else
    let headway := packets * roundTrip in
    if headway <? tcpPLPMTUProbeMinimumInterval then tcpPLPMTUProbeMinimumInterval else headway.

Definition tcpPLPMTUTimeoutDelay (headway : Z) : Z :=
  if maxDuration / 5 <? headway then maxDuration else 5 * headway.

Definition tcpCongestionValueForMSS (value oldMSS newMSS : Z) (floor : bool) : Z :=
  if (value =? 0) || (oldMSS <? 1) || (newMSS <? 1) || (oldMSS <=? newMSS) then value
  else
    let value := u32 (u64 (value * newMSS) / oldMSS) in
    if floor && (value <? u32 newMSS) then u32 newMSS else value.

(** ** Specification: a path that carries packets up to [limit] bytes *)

(** One probe sent as soon as it is allowed, and its outcome. *)
Definition probeRound (limit headway : Z) (p : tcpPLPMTU) : tcpPLPMTU :=
  let now := pl_nextProbe p in
  match pl_candidate p now with
  | None => p
  | Some mtu =>
      let p := pl_sent p mtu 0 0 in
      if mtu <=? limit then fst (pl_success p now) else pl_failed p now headway
  end.

Fixpoint probeRounds (n : nat) (limit headway : Z) (p : tcpPLPMTU) : tcpPLPMTU :=
  match n with O => p | S n => probeRounds n limit headway (probeRound limit headway p) end.

(** A search in progress brackets the limit. *)
Record brackets (limit : Z) (p : tcpPLPMTU) : Prop := {
  br_low : 0 <= pl_low p <= limit;
  br_high : limit <= pl_high p;
  br_active : pl_active p = false;
  br_searching : pl_searching p = negb (pl_high p - pl_low p <? tcpPLPMTUProbeThreshold) }.

(** ** Lemmas *)

Ltac window_consts := unfold tcpMaximumScaledWindow, tcpPLPMTUProbeThreshold,
  tcpTimestampOptionSize, tcpHeaderSize, ipv6MinimumMTU in *.

Lemma tcpMaximumScaledWindow_value : tcpMaximumScaledWindow = 1073725440.
Proof. reflexivity. Qed.

(** Saturating addition. *)
Lemma grow_min window delta :
  0 <= window -> 0 <= delta -> is_u32 delta ->
  growCongestionWindow window delta = Z.min tcpMaximumScaledWindow (window + delta).
Proof.
  intros Hw Hd Hu. unfold growCongestionWindow. rewrite tcpMaximumScaledWindow_value.
  destruct (1073725440 <=? window) eqn:E1; simpl; [lia|].
  replace (u32 (1073725440 - window)) with (1073725440 - window) by word.
  destruct (_ <=? delta) eqn:E2; [lia|]. word.
Qed.

Lemma grow_bounds window delta :
  0 <= window <= tcpMaximumScaledWindow -> is_u32 delta ->
  window <= growCongestionWindow window delta <= tcpMaximumScaledWindow.
Proof. intros Hw Hd. rewrite grow_min; unfold is_u32 in *; try lia. Qed.

Lemma probeRound_ok limit headway p :
  brackets limit p -> brackets limit (probeRound limit headway p) /\
  (pl_searching p = true ->
   2 * (pl_high (probeRound limit headway p) - pl_low (probeRound limit headway p))
   <= pl_high p - pl_low p).
Proof.
  intros [Hl Hh Ha Hs]. unfold probeRound, pl_candidate. rewrite Ha, Hs, Z.ltb_irrefl.
  window_consts. destruct (pl_high p - pl_low p <? 8) eqn:E; simpl.
  { split; [|done]. split; window_consts; try done. by rewrite E. }
  set (mtu := pl_low p + _).
  assert (pl_low p < mtu <= pl_high p /\ 2 * (pl_high p - mtu) <= pl_high p - pl_low p
          /\ 2 * (mtu - 1 - pl_low p) <= pl_high p - pl_low p) as (Hm & Hd1 & Hd2)
    by (subst mtu; zlia).
  destruct (mtu <=? limit) eqn:E1; simpl.
  - split; [split; simpl; try done; try lia|lia].
    window_consts. rewrite Hs. by destruct (_ <? 8).
  - unfold pl_failed. simpl. window_consts.
    destruct ((0 <? mtu) && (mtu - 1 <? pl_high p)) eqn:E2; [|lia].
    split; [split; simpl; try done; try lia|simpl; lia].
    window_consts. rewrite Hs. by destruct (_ <? 8).
Qed.

Lemma probeRounds_ok n limit headway p :
  brackets limit p -> pl_high p - pl_low p < 2 ^ Z.of_nat n * tcpPLPMTUProbeThreshold ->
  let q := probeRounds n limit headway p in
  brackets limit q /\ pl_high q - pl_low q < tcpPLPMTUProbeThreshold.
Proof.
  revert p. induction n as [|n IH]; intros p Hb Hd.
  { simpl in *. split; [done|lia]. }
  destruct (probeRound_ok limit headway p Hb) as [Hb' Hdec]. simpl. apply IH; [done|].
  rewrite Nat2Z.inj_succ, Z.pow_succ_r in Hd by lia.
  destruct (pl_searching p) eqn:E.
  - specialize (Hdec eq_refl). lia.
  - pose proof (br_searching _ _ Hb) as Hs. rewrite E in Hs.
    assert (probeRound limit headway p = p) as ->.
    { unfold probeRound, pl_candidate. by rewrite E. }
    pose proof (Z.pow_pos_nonneg 2 (Z.of_nat n)). window_consts.
    destruct (_ <? 8) eqn:?; [nia|done].
Qed.

Lemma nextBlackHole_range probe ipv6 :
  probe <= nextBlackHoleMTU probe ipv6 \/
  (nextBlackHoleMTU probe ipv6 < probe /\ 68 <= nextBlackHoleMTU probe ipv6 /\
   (nextBlackHoleMTU probe ipv6 ∈ ipv6MinimumMTU :: blackHolePlateaus)).
Proof.
  unfold nextBlackHoleMTU, blackHolePlateaus, firstBelow. window_consts.
  split_ifs; try (left; lia); right; repeat split; try lia;
    repeat first [left|right].
Qed.

(** The plateaus still below a size. *)
Definition below (probe : Z) : nat :=
  length (List.filter (fun c => c <? probe) (ipv6MinimumMTU :: blackHolePlateaus)).

Lemma filter_shorter (l : list Z) next probe :
  next < probe -> next ∈ l ->
  (length (List.filter (fun c => (c <? next)%Z) l) < length (List.filter (fun c => (c <? probe)%Z) l))%nat.
Proof.
  intros Hlt. induction l as [|x l IH]; intros Hin; [by apply elem_of_nil in Hin|].
  assert (forall k, (length (List.filter (fun c => (c <? next)%Z) k)
                     <= length (List.filter (fun c => (c <? probe)%Z) k))%nat) as Hmono.
  { clear - Hlt. induction k as [|y k IH]; simpl; [lia|].
    destruct (y <? next) eqn:E1, (y <? probe) eqn:E2; simpl; lia. }
  specialize (Hmono l). apply elem_of_cons in Hin as [<-|Hin]; simpl.
  - rewrite Z.ltb_irrefl. replace (next <? probe) with true by lia. simpl. lia.
  - specialize (IH Hin). destruct (x <? next) eqn:E1, (x <? probe) eqn:E2; simpl; lia.
Qed.

Definition payloadAt (mtu : Z) (ipv6 timestamp : bool) : Z :=
  Z.min 65535 (mtu - (if ipv6 then 60 else 40)) - (if timestamp then 12 else 0).

Lemma blackHole_payload (next : Z) (ipv6 timestamp : bool) :
  let maximumPayload := tcpMSSForMTU next (if ipv6 then ipv6Unspecified else ipv4Unspecified) in
  (if timestamp then maximumPayload - tcpTimestampOptionSize else maximumPayload)
  = payloadAt next ipv6 timestamp.
Proof.
  unfold tcpMSSForMTU, payloadAt. window_consts. destruct ipv6, timestamp; simpl; split_ifs; lia.
Qed.

(** The proportional allowance never exceeds the remaining target. *)
Lemma prr_allowance target sent pipe :
  0 <= pipe <= tcpMaximumScaledWindow -> 0 <= target -> 0 <= sent ->
  let allowance := if sent <? target then target - sent else 0 in
  let allowance := if tcpMaximumScaledWindow <? allowance then tcpMaximumScaledWindow else allowance in
  let r := growCongestionWindow pipe (u32 allowance) in
  pipe <= r <= tcpMaximumScaledWindow /\ sent + (r - pipe) <= Z.max sent target.
Proof.
  intros Hp Ht Hs. cbv zeta. set (a := if sent <? target then target - sent else 0).
  assert (a = Z.max 0 (target - sent)) as Ea by (subst a; split_ifs; lia). clearbody a.
  set (b := if tcpMaximumScaledWindow <? a then tcpMaximumScaledWindow else a).
  assert (b = Z.min tcpMaximumScaledWindow a) as Eb by (subst b; split_ifs; lia). clearbody b.
  rewrite tcpMaximumScaledWindow_value in *.
  replace (u32 b) with b by word. rewrite grow_min by (unfold is_u32; lia).
  rewrite tcpMaximumScaledWindow_value. lia.
Qed.

(** ** Properties *)

(** C40. The path MTU search converges: on a path whose limit lies between the
    confirmed size and the search ceiling, at most thirteen probes end the
    search with a confirmed size that the path carries and that is less than
    eight bytes below the limit. *)
Theorem plpmtu_converges (base maximum limit now headway : Z) :
  0 <= base <= limit -> limit <= maximum -> 8 <= maximum - base < 65536 ->
  let p := probeRounds 13 limit headway (pl_start base maximum now) in
  pl_searching p = false /\ pl_low p <= limit < pl_low p + 8.
Proof.
  intros Hb Hl Hd p. subst p. unfold pl_start. window_consts.
  destruct (maximum - base <? 8) eqn:E; [lia|].
  destruct (probeRounds_ok 13 limit headway (mkPlpmtu base maximum 0 0 0 now true false))
    as [[B1 B2 B3 B4] Hlt].
  - split; simpl; try done; window_consts. by rewrite E.
  - simpl. window_consts. lia.
  - window_consts. rewrite B4. destruct (_ <? 8) eqn:E2; [|lia]. split; [done|lia].
Qed.

Lemma plpmtu_converges_witness :
  let p := probeRounds 13 1500 0 (pl_start 1280 9000 5) in
  pl_searching p = false /\ pl_low p <= 1500 < pl_low p + 8.
Proof. apply (plpmtu_converges 1280 9000 1500 5 0); lia. Defined.

(** Proportional rate reduction: the window it returns never shrinks
    below the data in flight; above the threshold it keeps the total sent in
    recovery within the proportional target, and below the threshold it never
    grows past it. *)
Theorem prr_bounds (pipe threshold priorFlight delivered sent newlyDelivered mss : Z)
    (cumulativeACK newlyLost : bool) :
  0 <= pipe <= tcpMaximumScaledWindow -> 0 <= threshold <= tcpMaximumScaledWindow ->
  is_u32 priorFlight -> 0 <= delivered < 4294967296 -> 0 <= sent < 4294967296 ->
  is_u32 newlyDelivered -> mss <= 65535 ->
  let r := prrCongestionWindow pipe threshold priorFlight delivered sent newlyDelivered
             cumulativeACK newlyLost mss in
  pipe <= r <= tcpMaximumScaledWindow /\
  (threshold < pipe -> sent + (r - pipe)
     <= Z.max sent ((threshold * delivered + priorFlight - 1) / priorFlight)) /\
  (pipe <= threshold -> r <= threshold).
Proof.
  intros Hp Ht Hf Hd Hs Hn Hm. unfold prrCongestionWindow.
  destruct (_ || (mss <? 1)) eqn:E0; cbv zeta; [split; [lia|split; lia]|].
  rewrite tcpMaximumScaledWindow_value in Hp, Ht. unfold is_u32 in *.
  destruct (threshold <? pipe) eqn:E1.
  - set (target := (threshold * delivered + priorFlight - 1) / priorFlight).
    assert (u64 (u64 (threshold * delivered) + priorFlight - 1) / priorFlight = target) as ->.
    { subst target. f_equal. unfold u64. assert (0 <= threshold * delivered) by nia.
      assert (threshold * delivered <= 1073725440 * 4294967295) by nia.
      rewrite !(Z.mod_small (threshold * delivered)) by lia. rewrite Z.mod_small; lia. }
    assert (0 <= target) by (subst target; apply Z.div_pos; nia).
    destruct (prr_allowance target sent pipe) as [H1 H2];
      [rewrite tcpMaximumScaledWindow_value; lia|done|lia|].
    split; [exact H1|]. split; [intros _; exact H2|lia].
  - set (a1 := if sent <? delivered then delivered - sent else 0).
    assert (0 <= a1 < 4294967296) by (subst a1; split_ifs; lia). clearbody a1.
    set (a2 := if a1 <? newlyDelivered then newlyDelivered else a1).
    assert (0 <= a2 < 4294967296) by (subst a2; split_ifs; lia). clearbody a2.
    set (a3 := if cumulativeACK && negb newlyLost then u64 (a2 + mss) else a2).
    assert (0 <= a3) by (subst a3; split_ifs; word). clearbody a3.
    replace (threshold ⊟ pipe) with (threshold - pipe) by word.
    set (a4 := if threshold - pipe <? a3 then threshold - pipe else a3).
    assert (0 <= a4 <= threshold - pipe) by (subst a4; split_ifs; lia). clearbody a4.
    rewrite tcpMaximumScaledWindow_value.
    replace (1073725440 <? a4) with false by lia. replace (u32 a4) with a4 by word.
    rewrite grow_min, tcpMaximumScaledWindow_value by (unfold is_u32; lia). lia.
Qed.

Lemma prr_bounds_witness :
  let r := prrCongestionWindow 30000 20000 40000 8000 2000 2000 true false 1000 in
  2000 + (r - 30000) <= 4000.
Proof.
  apply (prr_bounds 30000 20000 40000 8000 2000 2000 1000 true false);
    unfold tcpMaximumScaledWindow, is_u32; lia.
Defined.

(** A black-hole probe is useful: the search over the packet-size
    plateaus ends, and either keeps the current size or returns a smaller
    plateau at which the stuck segment's payload no longer fits in one packet,
    so that the retransmission is really smaller. *)
Theorem blackHole_probe_smaller (current payloadSize : Z) (ipv6 timestamp : bool) :
  exists mtu, nextBlackHoleProbeMTU current ipv6 payloadSize timestamp = Some mtu /\
    (mtu = current \/
     68 <= mtu < current /\ payloadAt mtu ipv6 timestamp < payloadSize).
Proof.
  destruct (loop_total (fun probe => probe <= current) below
    (fun mtu => mtu = current \/ 68 <= mtu < current /\ payloadAt mtu ipv6 timestamp < payloadSize)
    (blackHoleBody current ipv6 payloadSize timestamp)) with (fuel := 9%nat) (s := current)
    as (mtu & E & H).
  - intros probe Hp. unfold blackHoleBody. rewrite blackHole_payload.
    destruct (nextBlackHole_range probe ipv6) as [Hn|(Hn & H68 & Hin)].
    + replace (probe <=? _) with true by lia. eexists. split; [done|]. by left.
    + replace (probe <=? _) with false by lia. destruct (_ <? payloadSize) eqn:E.
      * eexists. split; [done|]. right. lia.
      * eexists. split; [done|]. split; [lia|]. unfold below. by apply filter_shorter.
  - lia.
  - assert (forall (l : list Z) (f : Z -> bool), (length (List.filter f l) <= length l)%nat) as Hf.
    { clear. induction l as [|x l IH]; intros f; simpl; [lia|].
      specialize (IH f). destruct (f x); simpl; lia. }
    specialize (Hf (ipv6MinimumMTU :: blackHolePlateaus) (fun c => c <? current)).
    unfold below. simpl length in Hf at 2. lia.
  - eauto.
Qed.

(** Idle restart ends and only shrinks the window, never below the
    restart window, and for a 32-bit window however long the idle period is. *)
Theorem tcpRestartWindow_bounds (window mss idle rto : Z) :
  is_u32 window -> 0 <= mss <= 65535 ->
  exists r, tcpRestartWindow window mss idle rto = Some r /\
    Z.min window (initialTCPWindow mss) <= r <= window.
Proof.
  intros Hw Hm. unfold tcpRestartWindow.
  assert (0 <= initialTCPWindow mss) as Hi by apply u32_range.
  set (restart := if window <? initialTCPWindow mss then window else initialTCPWindow mss).
  assert (restart = Z.min window (initialTCPWindow mss)) as Er by (subst restart; split_ifs; lia).
  rewrite <- Er. clearbody restart. unfold is_u32 in Hw.
  destruct (rto <=? 0); [exists restart; split; [done|lia]|].
  destruct (loop_total (fun s : Z * Z => 0 <= snd s <= window) (fun s => Z.to_nat (Z.log2_up (snd s + 1)))
    (fun w => 0 <= w <= window) (restartBody restart rto)) with (fuel := 34%nat) (s := (idle - rto, window))
    as (w & E & Hq).
  - intros [i w] Hs. simpl in *. unfold restartBody.
    destruct ((0 <? i) && (restart <? w)) eqn:E; [|by eexists].
    eexists. split; [done|]. simpl. split; [zlia|].
    assert (1 <= w) by lia.
    assert (Z.log2_up (w / 2 + 1) < Z.log2_up (w + 1)); [|pose proof (Z.log2_up_nonneg (w / 2 + 1)); lia].
    destruct (Z.eq_dec w 1) as [->|]; [reflexivity|].
    rewrite !Z.log2_up_eqn by zlia. replace (Z.pred (w / 2 + 1)) with (w / 2) by lia.
    replace (Z.pred (w + 1)) with w by lia.
    rewrite <- Z.div2_div, Z.div2_spec, Z.log2_shiftr by lia.
    pose proof (Z.log2_pos w ltac:(lia)). lia.
  - simpl. lia.
  - simpl. assert (Z.log2_up (window + 1) <= Z.log2_up (2 ^ 33)) by (apply Z.log2_up_le_mono; lia).
    rewrite Z.log2_up_pow2 in * by lia. lia.
  - rewrite E. simpl. eexists. split; [done|]. split_ifs; lia.
Qed.

Lemma tcpRestartWindow_bounds_witness :
  exists r, tcpRestartWindow 1000000 1460 (60 * second) (200 * millisecond) = Some r /\
    14600 <= r <= 1000000.
Proof. apply (tcpRestartWindow_bounds 1000000 1460); [unfold is_u32|]; lia. Defined.
