(* ===== verification/Scoreboard.v ===== *)
(** * The retransmission scoreboard

    The per-range transmission records of [tcp.go], SACK splitting and marking,
    RFC 6675 loss inference and pipe, RFC 8985 time-based loss, proven-loss
    accounting and PMTU resegmentation. *)

From S2P Require Import Prelude SeqNum Rtt Windows.

(** ** Data *)

Definition tcpDuplicateACKThreshold : Z := 3.
Definition tcpMaximumSACKSplitRanges : Z := 1024.

(** Bits of [sentTCPSegmentState]. *)
Definition sentTCPSegmentSACKed : Z := 1.
Definition sentTCPSegmentSACKRetried : Z := 2.
Definition sentTCPSegmentRACKLost : Z := 4.
Definition sentTCPSegmentLimited : Z := 8.
Definition sentTCPSegmentCWR : Z := 16.
Definition sentTCPSegmentSACKSplit : Z := 32.
Definition sentTCPSegmentMTUProbe : Z := 64.
Definition sentTCPSegmentDeliverySchedulerLimited : Z := 128.
Definition sentTCPSegmentTransmitted : Z := 256.
Definition sentTCPSegmentRetransmitted : Z := 512.
Definition sentTCPSegmentLossReported : Z := 1024.

Definition setBits (state flag : Z) (enabled : bool) : Z :=
  if enabled then state .| flag else state .&^ flag.

Definition sentTCPSegmentInitialState (limited cwr mtuProbe schedulerLimited : bool) : Z :=
  let state := sentTCPSegmentTransmitted in
  let state := if limited then state .| sentTCPSegmentLimited else state in
  let state := if cwr then state .| sentTCPSegmentCWR else state in
  let state := if mtuProbe then state .| sentTCPSegmentMTUProbe else state in
  if schedulerLimited then state .| sentTCPSegmentDeliverySchedulerLimited else state.

Record packetQueueTicket := mkTicket { tk_token : Z; tk_queuedAt : Z }.

Record tcpDeliverySnapshot := mkSnapshot {
  ds_firstSent : Z;
  ds_deliveredStamp : Z;
  ds_deliveredFlags : Z }.

Record sentTCPSegment := mkSent {
  st_sequence : Z;
  st_end : Z;
  st_timestamp : Z;
  st_state : Z;
  st_flags : Z;
  st_firstSent : Z;
  st_hostQueue : packetQueueTicket;
  st_packetState : Z;
  st_delivery : tcpDeliverySnapshot;
  st_order : Z }.

Definition withState (s : sentTCPSegment) (state : Z) : sentTCPSegment :=
  mkSent (st_sequence s) (st_end s) (st_timestamp s) state (st_flags s) (st_firstSent s)
         (st_hostQueue s) (st_packetState s) (st_delivery s) (st_order s).

Definition withRange (s : sentTCPSegment) (sequence stop flags : Z) : sentTCPSegment :=
  mkSent sequence stop (st_timestamp s) (st_state s) flags (st_firstSent s)
         (st_hostQueue s) (st_packetState s) (st_delivery s) (st_order s).

Definition withDelivery (s : sentTCPSegment) (d : tcpDeliverySnapshot) : sentTCPSegment :=
  mkSent (st_sequence s) (st_end s) (st_timestamp s) (st_state s) (st_flags s) (st_firstSent s)
         (st_hostQueue s) (st_packetState s) d (st_order s).

(** [state.has(flag)] on a record. *)
Definition hasState (s : sentTCPSegment) (flag : Z) : bool := hasFlag (st_state s) flag.

Definition setState (s : sentTCPSegment) (flag : Z) (enabled : bool) : sentTCPSegment :=
  withState s (setBits (st_state s) flag enabled).

(** The sequence space of a range. *)
Definition segLen (s : sentTCPSegment) : Z := st_end s ⊟ st_sequence s.

Definition dataSize (s : sentTCPSegment) : Z :=
  let size := segLen s in
  if hasFlag (st_flags s) TCPFlagFIN && negb (size =? 0) then size - 1 else size.

Definition isTransmitted (s : sentTCPSegment) : bool := hasState s sentTCPSegmentTransmitted.
Definition isRetransmitted (s : sentTCPSegment) : bool := hasState s sentTCPSegmentRetransmitted.
Definition lossAlreadyReported (s : sentTCPSegment) : bool := hasState s sentTCPSegmentLossReported.

Definition advanceTransmissionGeneration (s : sentTCPSegment) : sentTCPSegment :=
  withState s ((st_state s .| (sentTCPSegmentTransmitted .| sentTCPSegmentRetransmitted))
               .&^ sentTCPSegmentLossReported).

Definition transmittedAt (s : sentTCPSegment) (epoch : Z) : Z :=
  stampTime (tk_queuedAt (st_hostQueue s)) epoch.

Record TCPSACKBlock := mkBlock { LeftEdge : Z; RightEdge : Z }.

Record tcpRACKSample := mkRack {
  rk_sentAt : Z;
  rk_end : Z;
  rk_order : Z;
  rk_rtt : Z;
  rk_timestamp : Z;
  rk_retransmitted : bool }.

Definition zeroRack : tcpRACKSample := mkRack 0 0 0 0 0 false.

(** ** RACK ordering *)

Definition tcpClockTieTransmissionAfter (order end_ previousOrder previousEnd : Z) : bool :=
  if negb (order =? previousOrder) && negb (order =? 0) && negb (previousOrder =? 0)
  then tcpSequenceGreater order previousOrder
  else tcpSequenceGreater end_ previousEnd.

Definition newerRACKSample (current candidate : tcpRACKSample) : tcpRACKSample :=
  if rk_sentAt candidate =? 0 then current
  else if (rk_sentAt current <? rk_sentAt candidate)
       || ((rk_sentAt candidate =? rk_sentAt current)
           && tcpClockTieTransmissionAfter (rk_order candidate) (rk_end candidate)
                (rk_order current) (rk_end current))
  then candidate else current.

Definition validRACKSample (sample : tcpRACKSample) (minimumRTT timestampEcho : Z) : tcpRACKSample :=
  if rk_retransmitted sample then
    if negb (rk_timestamp sample =? 0) && negb (timestampEcho =? 0)
       && tcpSequenceLess timestampEcho (rk_timestamp sample) then zeroRack
    else if (0 <? minimumRTT) && (rk_rtt sample <? minimumRTT) then zeroRack
    else sample
  else sample.

Definition rackDeliveredAfter (delivered : tcpRACKSample) (segment : sentTCPSegment) (epoch : Z)
    : bool :=
  let sent := transmittedAt segment epoch in
  (sent <? rk_sentAt delivered)
  || ((rk_sentAt delivered =? sent)
      && tcpClockTieTransmissionAfter (rk_order delivered) (rk_end delivered)
           (st_order segment) (st_end segment)).

(** Returns the forward edge, whether it is set, and the reordering verdict. *)
Definition rackAdvanceForwardACK (forward : Z) (set : bool) (end_ : Z) (retransmitted : bool)
    : Z * bool * bool :=
  if negb set || tcpSequenceGreater end_ forward then (end_, true, false)
  else (forward, set, tcpSequenceLess end_ forward && negb retransmitted).

Definition rackLossDelay (outstanding : list sentTCPSegment) (delivered : tcpRACKSample)
    (now reorderingWindow epoch : Z) : Z * bool :=
  fold_left (fun '(maximum, found) segment =>
    if hasState segment sentTCPSegmentSACKed || hasState segment sentTCPSegmentRACKLost
       || negb (rackDeliveredAfter delivered segment epoch)
    then (maximum, found)
    else
      let remaining := timeSub (transmittedAt segment epoch + (rk_rtt delivered + reorderingWindow)) now in
      let remaining := if remaining <? 0 then 0 else remaining in
      if negb found || (maximum <? remaining) then (remaining, true) else (maximum, found))
    outstanding (0, false).

Definition rackExpired (delivered : tcpRACKSample) (segment : sentTCPSegment)
    (now reorderingWindow epoch : Z) : bool :=
  negb (hasState segment sentTCPSegmentSACKed) && rackDeliveredAfter delivered segment epoch
  && negb (now <? transmittedAt segment epoch + (rk_rtt delivered + reorderingWindow)).

Definition timedLoss (segment : sentTCPSegment) : bool :=
  hasState segment sentTCPSegmentRACKLost && negb (hasState segment sentTCPSegmentSACKRetried).

Fixpoint markRACKLoss (outstanding : list sentTCPSegment) (delivered : tcpRACKSample)
    (now reorderingWindow epoch : Z) : list sentTCPSegment * bool :=
  match outstanding with
  | [] => ([], false)
  | segment :: rest =>
      let segment :=
        if rackExpired delivered segment now reorderingWindow epoch
        then setState (setState segment sentTCPSegmentRACKLost true) sentTCPSegmentSACKRetried false
        else segment in
      let '(rest, lost) := markRACKLoss rest delivered now reorderingWindow epoch in
      (segment :: rest, timedLoss segment || lost)
  end.

Definition hasRACKLoss (outstanding : list sentTCPSegment) : bool := existsb timedLoss outstanding.

(** The index of the first element that satisfies [f], or [-1]. *)
Fixpoint findIndex {A} (f : A -> bool) (l : list A) : Z :=
  match l with
  | [] => -1
  | x :: l => if f x then 0 else let i := findIndex f l in if i <? 0 then -1 else i + 1
  end.

Definition firstRACKLoss (outstanding : list sentTCPSegment) : Z :=
  findIndex (fun s => hasState s sentTCPSegmentRACKLost && negb (hasState s sentTCPSegmentSACKed))
            outstanding.

(** ** SACK *)

Definition splitRangesOf (outstanding : list sentTCPSegment) : Z :=
  foldr (fun s n => if hasState s sentTCPSegmentSACKSplit then 1 + n else n) 0 outstanding.

Definition splitLeft (segment : sentTCPSegment) (boundary : Z) : sentTCPSegment :=
  let left := setState segment sentTCPSegmentSACKSplit true in
  withRange left (st_sequence left) boundary (st_flags left .&^ (TCPFlagPSH .| TCPFlagFIN)).

Definition splitRight (segment : sentTCPSegment) (boundary : Z) : sentTCPSegment :=
  let right := setState segment sentTCPSegmentSACKSplit true in
  withRange right boundary (st_end right) (st_flags right).

Definition insideRange (segment : sentTCPSegment) (boundary : Z) : bool :=
  tcpSequenceGreater boundary (st_sequence segment) && tcpSequenceLess boundary (st_end segment).

(** The second loop of [splitTCPSegmentAt]: at most one range is split. *)
Fixpoint splitLoop (outstanding : list sentTCPSegment) (boundary splitRanges : Z)
    : list sentTCPSegment :=
  match outstanding with
  | [] => []
  | segment :: rest =>
      if negb (insideRange segment boundary)
      then segment :: splitLoop rest boundary splitRanges
      else
        let increase := if hasState segment sentTCPSegmentSACKSplit then 1 else 2 in
        if tcpMaximumSACKSplitRanges <? splitRanges + increase then outstanding
        else splitLeft segment boundary :: splitRight segment boundary :: rest
  end.

Definition splitTCPSegmentAt (outstanding : list sentTCPSegment) (boundary : Z)
    : list sentTCPSegment :=
  splitLoop outstanding boundary (splitRangesOf outstanding).

Definition rackSampleOf (segment : sentTCPSegment) (epoch : Z) : tcpRACKSample :=
  mkRack (transmittedAt segment epoch) (st_end segment) (st_order segment) 0
         (st_timestamp segment) (isRetransmitted segment).

Definition inBlock (segment : sentTCPSegment) (block : TCPSACKBlock) : bool :=
  tcpSequenceGreaterEqual (st_sequence segment) (LeftEdge block)
  && tcpSequenceGreaterEqual (RightEdge block) (st_end segment).

(** The marking loop for one block: the ranges, whether anything is new, the
    latest RACK sample and the newly SACKed records. *)
Fixpoint markBlock (outstanding : list sentTCPSegment) (block : TCPSACKBlock) (epoch : Z)
    (newInformation : bool) (latest : tcpRACKSample) (newly : list sentTCPSegment)
    : list sentTCPSegment * bool * tcpRACKSample * list sentTCPSegment :=
  match outstanding with
  | [] => ([], newInformation, latest, newly)
  | segment :: rest =>
      if inBlock segment block then
        let '(segment', newInformation, latest, newly) :=
          if negb (hasState segment sentTCPSegmentSACKed) then
            (withDelivery segment (mkSnapshot (ds_firstSent (st_delivery segment)) 0
                                     (ds_deliveredFlags (st_delivery segment))),
             true, newerRACKSample latest (rackSampleOf segment epoch),
             newly ++ [setState segment sentTCPSegmentSACKed true])
          else (segment, newInformation, latest, newly) in
        let '(rest, newInformation, latest, newly) :=
          markBlock rest block epoch newInformation latest newly in
        (setState segment' sentTCPSegmentSACKed true :: rest, newInformation, latest, newly)
      else
        let '(rest, newInformation, latest, newly) :=
          markBlock rest block epoch newInformation latest newly in
        (segment :: rest, newInformation, latest, newly)
  end.

Record sackResult := mkSackResult {
  sr_outstanding : list sentTCPSegment;
  sr_highest : Z;
  sr_newInformation : bool;
  sr_latest : tcpRACKSample;
  sr_newly : list sentTCPSegment }.

Definition applyBlock (epoch : Z) (r : sackResult * bool) (block : TCPSACKBlock)
    : sackResult * bool :=
  let '(r, first) := r in
  let highest := if first || tcpSequenceGreater (RightEdge block) (sr_highest r)
                 then RightEdge block else sr_highest r in
  let outstanding := splitTCPSegmentAt (sr_outstanding r) (LeftEdge block) in
  let outstanding := splitTCPSegmentAt outstanding (RightEdge block) in
  let '(outstanding, newInformation, latest, newly) :=
    markBlock outstanding block epoch (sr_newInformation r) (sr_latest r) (sr_newly r) in
  (mkSackResult outstanding highest newInformation latest newly, false).

(** The second component is [len(blocks) != 0]. *)
Definition applyTCPSACK (outstanding : list sentTCPSegment) (blocks : list TCPSACKBlock) (epoch : Z)
    : sackResult * bool :=
  (fst (fold_left (applyBlock epoch) blocks
          (mkSackResult outstanding 0 false zeroRack [], true)),
   negb (zlen blocks =? 0)).

Definition firstUnsackedSegment (outstanding : list sentTCPSegment) : Z :=
  let i := findIndex (fun s => negb (hasState s sentTCPSegmentSACKed)) outstanding in
  if 0 <=? i then i else if negb (zlen outstanding =? 0) then 0 else -1.

Definition lastUnsackedSegment (outstanding : list sentTCPSegment) : Z :=
  let i := findIndex (fun s => negb (hasState s sentTCPSegmentSACKed)) (rev outstanding) in
  if 0 <=? i then zlen outstanding - 1 - i else zlen outstanding - 1.

Definition tcpSACKedState (outstanding : list sentTCPSegment) : Z * Z :=
  fold_left (fun '(ranges, bytes) s =>
    if hasState s sentTCPSegmentSACKed then (ranges + 1, bytes ⊞ segLen s) else (ranges, bytes))
    outstanding (0, 0).

Definition highestSACKedSequence (outstanding : list sentTCPSegment) : Z :=
  fst (fold_left (fun '(highest, found) s =>
    if hasState s sentTCPSegmentSACKed && (negb found || tcpSequenceGreater (st_end s) highest)
    then (st_end s, true) else (highest, found)) outstanding (0, false)).

(** ** Loss inference

    The backward loops over the scoreboard accumulate the SACKed ranges and
    bytes above the current range. *)

Definition accumulate (s : sentTCPSegment) (sacked : Z * Z) : Z * Z :=
  (fst sacked + 1, snd sacked + segLen s).

Definition evidence (sacked : Z * Z) (mss : Z) : bool :=
  (tcpDuplicateACKThreshold <=? fst sacked)
  || ((0 <? mss) && ((tcpDuplicateACKThreshold - 1) * mss <? snd sacked)).

(** The loop of [firstUnretriedLoss]; [i] is the index of the head. *)
Fixpoint unretriedScan (i : Z) (l : list sentTCPSegment) (mss : Z) : (Z * Z) * Z :=
  match l with
  | [] => ((0, 0), -1)
  | s :: rest =>
      let '(sacked, index) := unretriedScan (i + 1) rest mss in
      if hasState s sentTCPSegmentSACKed then (accumulate s sacked, index)
      else
        let lost := hasState s sentTCPSegmentRACKLost || evidence sacked mss in
        (sacked, if negb (hasState s sentTCPSegmentSACKRetried) && lost then i else index)
  end.

Definition firstUnretriedLoss (outstanding : list sentTCPSegment) (mss : Z) : Z :=
  snd (unretriedScan 0 outstanding mss).

Definition tcpRateApplicationLimited (queued : Z) (hostQueued : bool) (flight window : Z)
    (recovery peerSACK : bool) (outstanding : list sentTCPSegment) (mss : Z) : bool :=
  if (mss <=? queued) || hostQueued || (window <=? flight) then false
  else negb recovery || negb peerSACK || (firstUnretriedLoss outstanding mss <? 0).

Definition firstUnretriedSACKHole (outstanding : list sentTCPSegment) (highest : Z) : Z :=
  findIndex (fun s => negb (hasState s sentTCPSegmentSACKed)
                      && negb (hasState s sentTCPSegmentSACKRetried)
                      && tcpSequenceLess (st_sequence s) highest) outstanding.

Fixpoint lostCountScan (l : list sentTCPSegment) (mss : Z) : (Z * Z) * Z :=
  match l with
  | [] => ((0, 0), 0)
  | s :: rest =>
      let '(sacked, count) := lostCountScan rest mss in
      if hasState s sentTCPSegmentSACKed then (accumulate s sacked, count)
      else (sacked, if hasState s sentTCPSegmentRACKLost || evidence sacked mss
                    then count + 1 else count)
  end.

Definition sackLostRangeCount (outstanding : list sentTCPSegment) (mss : Z) : Z :=
  snd (lostCountScan outstanding mss).

(** The forward loop of [sackSegmentLost] over the ranges above. *)
Fixpoint lostAbove (l : list sentTCPSegment) (ranges bytes mss : Z) : bool :=
  match l with
  | [] => false
  | s :: rest =>
      if negb (hasState s sentTCPSegmentSACKed) then lostAbove rest ranges bytes mss
      else
        let ranges := ranges + 1 in
        let bytes := bytes + segLen s in
        if (tcpDuplicateACKThreshold <=? ranges)
           || ((0 <? mss) && ((tcpDuplicateACKThreshold - 1) * mss <? bytes))
        then true else lostAbove rest ranges bytes mss
  end.

Definition sackSegmentLost (outstanding : list sentTCPSegment) (index mss : Z) : bool :=
  match idx outstanding index with
  | None => false
  | Some s =>
      if hasState s sentTCPSegmentSACKed then false
      else if hasState s sentTCPSegmentRACKLost then true
      else lostAbove (drop (Z.to_nat (index + 1)) outstanding) 0 0 mss
  end.

(** ** Loss accounting *)

Definition recordTCPSegmentLoss (segment : sentTCPSegment) (proven : bool) : sentTCPSegment * Z :=
  if negb proven || negb (isTransmitted segment) || lossAlreadyReported segment then (segment, 0)
  else (withState segment (st_state segment .| sentTCPSegmentLossReported), segLen segment).

(** Returns the SACKed totals, the ranges, the losses and the reported records
    in the order of the callback. *)
Fixpoint provenScan (l : list sentTCPSegment) (mss : Z)
    : (Z * Z) * list sentTCPSegment * Z * list (sentTCPSegment * Z) :=
  match l with
  | [] => ((0, 0), [], 0, [])
  | s :: rest =>
      let '(sacked, rest, losses, reports) := provenScan rest mss in
      if hasState s sentTCPSegmentSACKed then (accumulate s sacked, s :: rest, losses, reports)
      else
        let lost := hasState s sentTCPSegmentRACKLost
                    || (negb (hasState s sentTCPSegmentSACKRetried) && evidence sacked mss) in
        if lost then
          let '(s, bytes) := recordTCPSegmentLoss s true in
          (sacked, s :: rest, growCongestionWindow losses bytes,
           if negb (bytes =? 0) then reports ++ [(s, bytes)] else reports)
        else (sacked, s :: rest, losses, reports)
  end.

Definition recordProvenTCPLossesWith (outstanding : list sentTCPSegment) (mss : Z)
    : list sentTCPSegment * Z * list (sentTCPSegment * Z) :=
  let '(_, l, losses, reports) := provenScan outstanding mss in (l, losses, reports).

Definition recordProvenTCPLosses (outstanding : list sentTCPSegment) (mss : Z)
    : list sentTCPSegment * Z :=
  let '(l, losses, _) := recordProvenTCPLossesWith outstanding mss in (l, losses).

Definition isolatedPLPMTUProbeLoss (outstanding : list sentTCPSegment)
    (probeStart highestSACK mss : Z) : bool :=
  let probeIndex := findIndex (fun s => st_sequence s =? probeStart) outstanding in
  if negb (sackSegmentLost outstanding probeIndex mss) then false
  else forallb (fun '(i, s) =>
         negb (negb (Z.of_nat i =? probeIndex) && negb (hasState s sentTCPSegmentSACKed)
               && tcpSequenceLess (st_sequence s) highestSACK))
       (imap (fun i s => (i, s)) outstanding).

Definition lossRecoveryFlightSize (outstanding : list sentTCPSegment) : Z :=
  fold_left (fun bytes s =>
    if negb (hasState s sentTCPSegmentSACKed) && negb (hasState s sentTCPSegmentLimited)
    then bytes ⊞ segLen s else bytes) outstanding 0.

Fixpoint tcpACKRTTAmbiguous (outstanding : list sentTCPSegment) (acknowledgement : Z) : bool :=
  match outstanding with
  | [] => false
  | s :: rest =>
      if negb (tcpSequenceLess (st_sequence s) acknowledgement) then false
      else if isRetransmitted s then true else tcpACKRTTAmbiguous rest acknowledgement
  end.

Fixpoint pipeScan (l : list sentTCPSegment) (mss : Z) : (Z * Z) * Z :=
  match l with
  | [] => ((0, 0), 0)
  | s :: rest =>
      let '(sacked, bytes) := pipeScan rest mss in
      if hasState s sentTCPSegmentSACKed then (accumulate s sacked, bytes)
      else
        let size := segLen s in
        let lost := hasState s sentTCPSegmentRACKLost || evidence sacked mss in
        let bytes := if negb lost then growCongestionWindow bytes size else bytes in
        let bytes := if hasState s sentTCPSegmentSACKRetried
                     then growCongestionWindow bytes size else bytes in
        (sacked, bytes)
  end.

Definition sackRecoveryPipe (outstanding : list sentTCPSegment) (mss : Z) : Z :=
  snd (pipeScan outstanding mss).

Definition sackRecoveryCanSend (recovery : bool) (pipe size window : Z) : bool :=
  negb recovery || (u64 (pipe + size) <=? window).

Fixpoint newlyAcknowledged (outstanding : list sentTCPSegment) (acknowledgement delivered : Z) : Z :=
  match outstanding with
  | [] => delivered
  | s :: rest =>
      if negb (tcpSequenceGreater acknowledgement (st_sequence s)) then delivered
      else if hasState s sentTCPSegmentSACKed
      then newlyAcknowledged rest acknowledgement delivered
      else
        let stop := if tcpSequenceLess acknowledgement (st_end s) then acknowledgement else st_end s in
        newlyAcknowledged rest acknowledgement
          (growCongestionWindow delivered (stop ⊟ st_sequence s))
  end.

Definition tcpNewlyAcknowledgedBytes (outstanding : list sentTCPSegment) (acknowledgement : Z) : Z :=
  newlyAcknowledged outstanding acknowledgement 0.

(** ** Resegmentation *)

Definition resegmentPart (segment : sentTCPSegment) (offset stop payloadSize : Z) : sentTCPSegment :=
  let part := withRange segment (st_sequence segment ⊞ offset) (st_sequence segment ⊞ stop)
                        (st_flags segment) in
  let part := setState part sentTCPSegmentCWR
                ((offset =? 0) && hasState segment sentTCPSegmentCWR) in
  if negb (stop =? payloadSize)
  then withRange part (st_sequence part) (st_end part) (st_flags part .&^ (TCPFlagPSH .| TCPFlagFIN))
  else if hasFlag (st_flags part) TCPFlagFIN
  then withRange part (st_sequence part) (st_end part ⊞ 1) (st_flags part)
  else part.

(** The inner loop of [splitTCPSegments]. *)
Definition resegmentBody (segment : sentTCPSegment) (payloadSize mss : Z)
    (s : Z * list sentTCPSegment) : option ((Z * list sentTCPSegment) + list sentTCPSegment) :=
  let '(offset, result) := s in
  if offset <? payloadSize then
    let stop := offset + mss in
    let stop := if payloadSize <? stop then payloadSize else stop in
    Some (inl (offset + mss, result ++ [resegmentPart segment offset stop payloadSize]))
  else Some (inr result).

Fixpoint splitTCPSegments (outstanding : list sentTCPSegment) (mss : Z)
    : option (list sentTCPSegment) :=
  match outstanding with
  | [] => Some []
  | segment :: rest =>
      let payloadSize := dataSize segment in
      parts ← (if payloadSize <=? mss then Some [segment]
               else loop (S (S (Z.to_nat payloadSize))) (resegmentBody segment payloadSize mss) (0, []));
      rest ← splitTCPSegments rest mss;
      Some (parts ++ rest)
  end.

Definition trimAcknowledgedTCPSegment (segment : sentTCPSegment) (acknowledgement : Z)
    : sentTCPSegment :=
  if negb (tcpSequenceGreater acknowledgement (st_sequence segment))
     || negb (tcpSequenceLess acknowledgement (st_end segment))
  then segment
  else
    let skip := acknowledgement ⊟ st_sequence segment in
    let flags := if dataSize segment <=? skip then st_flags segment .&^ TCPFlagPSH
                 else st_flags segment in
    setState (withRange segment acknowledgement (st_end segment) flags) sentTCPSegmentCWR false.

(** ** Specification *)

(** The IsLost verdict of RFC 6675 for every range. *)
Definition lostList (l : list sentTCPSegment) (mss : Z) : list bool :=
  map (fun i => sackSegmentLost l (Z.of_nat i) mss) (seq 0 (length l)).

(** The pipe of RFC 6675: a range not lost counts once, a retransmitted range
    counts (again), a SACKed range not at all. *)
Definition pipeOf (s : sentTCPSegment) (lost : bool) : Z :=
  if hasState s sentTCPSegmentSACKed then 0
  else (if lost then 0 else segLen s)
       + (if hasState s sentTCPSegmentSACKRetried then segLen s else 0).

Definition pipeSum (l : list (sentTCPSegment * bool)) : Z :=
  foldr (fun p n => pipeOf (fst p) (snd p) + n) 0 l.

(** Consecutive nonempty ranges from offset [o] of a stream based at [base]. *)
Fixpoint contig (base o : Z) (l : list sentTCPSegment) : Prop :=
  match l with
  | [] => True
  | s :: l => st_sequence s = base ⊞ o /\ is_u32 (st_end s) /\ 0 < segLen s /\
              contig base (o + segLen s) l
  end.

Definition total (l : list sentTCPSegment) : Z := foldr (fun s n => segLen s + n) 0 l.

(** Whether the byte at offset [x] is selectively acknowledged. *)
Fixpoint sackedAt (o : Z) (l : list sentTCPSegment) (x : Z) : bool :=
  match l with
  | [] => false
  | s :: l => if (o <=? x) && (x <? o + segLen s) then hasState s sentTCPSegmentSACKed
              else sackedAt (o + segLen s) l x
  end.

(** ** Lemmas: flags *)

Definition isFlag (f : Z) : Prop := f = 2 ^ Z.log2 f /\ 0 < f.

Lemma hasFlag_testbit x f : isFlag f -> hasFlag x f = Z.testbit x (Z.log2 f).
Proof.
  intros [Hf Hpos]. unfold hasFlag. pose proof (Z.log2_nonneg f). set (k := Z.log2 f) in *.
  rewrite Hf. destruct (Z.testbit x k) eqn:E.
  - apply negb_true_iff, Z.eqb_neq. intros H0.
    assert (Z.testbit (x .& 2 ^ k) k = false) as H1 by by rewrite H0, Z.testbit_0_l.
    rewrite Z.land_spec, E, Z.pow2_bits_true in H1 by lia. done.
  - apply negb_false_iff, Z.eqb_eq. apply Z.bits_inj'. intros n Hn.
    rewrite Z.land_spec, Z.testbit_0_l, Z.pow2_bits_eqb by lia.
    destruct (k =? n) eqn:En; [|apply andb_false_r]. apply Z.eqb_eq in En. subst n. by rewrite E.
Qed.

Lemma hasFlag_set x f g e :
  isFlag f -> isFlag g -> hasFlag (setBits x f e) g = if f =? g then e else hasFlag x g.
Proof.
  intros Hf Hg. rewrite !hasFlag_testbit by done.
  pose proof (Z.log2_nonneg f). pose proof (Z.log2_nonneg g).
  assert ((Z.log2 f =? Z.log2 g) = (f =? g)) as Efg.
  { destruct Hf as [Hf _], Hg as [Hg _]. destruct (f =? g) eqn:E.
    - apply Z.eqb_eq in E. subst g. apply Z.eqb_refl.
    - apply Z.eqb_neq in E. apply Z.eqb_neq. congruence. }
  destruct Hf as [Hf _]. unfold setBits. destruct e.
  - rewrite Z.lor_spec, Hf at 1. rewrite Z.pow2_bits_eqb, Efg by lia.
    destruct (f =? g); [apply orb_true_r|apply orb_false_r].
  - rewrite Z.ldiff_spec, Hf at 1. rewrite Z.pow2_bits_eqb, Efg by lia.
    destruct (f =? g); [apply andb_false_r|apply andb_true_r].
Qed.

Ltac flag := first [assumption | by split].

Lemma hasState_set s f g e :
  isFlag f -> isFlag g ->
  hasState (setState s f e) g = if f =? g then e else hasState s g.
Proof. intros. by apply hasFlag_set. Qed.

Lemma hasState_lor s f g :
  isFlag f -> isFlag g ->
  hasState (withState s (st_state s .| f)) g = (f =? g) || hasState s g.
Proof.
  intros Hf Hg. pose proof (hasFlag_set (st_state s) f g true Hf Hg) as H.
  change (hasFlag (setBits (st_state s) f true) g = (f =? g) || hasFlag (st_state s) g).
  rewrite H. by destruct (f =? g).
Qed.

Lemma segLen_range s : 0 <= segLen s < 4294967296.
Proof. apply u32_range. Qed.

(** ** Lemmas: loss inference *)

Definition sackedTotals (l : list sentTCPSegment) : Z * Z :=
  foldr (fun s n => if hasState s sentTCPSegmentSACKed then accumulate s n else n) (0, 0) l.

Lemma sackedTotals_nonneg l : 0 <= fst (sackedTotals l) /\ 0 <= snd (sackedTotals l).
Proof.
  induction l as [|s l IH]; simpl; [lia|]. destruct (hasState s _); [|done].
  unfold accumulate. simpl. pose proof (segLen_range s). lia.
Qed.

Lemma lostAbove_evidence l ranges bytes mss :
  evidence (ranges, bytes) mss = false ->
  lostAbove l ranges bytes mss
  = evidence (ranges + fst (sackedTotals l), bytes + snd (sackedTotals l)) mss.
Proof.
  revert ranges bytes. induction l as [|s l IH]; intros ranges bytes H.
  { simpl. rewrite !Z.add_0_r. done. }
  simpl. destruct (hasState s sentTCPSegmentSACKed) eqn:Es; simpl; [|by apply IH].
  pose proof (sackedTotals_nonneg l).
  destruct ((tcpDuplicateACKThreshold <=? ranges + 1) || _) eqn:E.
  - unfold evidence. simpl. symmetry. apply orb_true_iff in E. apply orb_true_iff.
    destruct E as [E|E]; [left; lia|right]. apply andb_true_iff in E as [E1 E2].
    rewrite E1. simpl. lia.
  - rewrite IH by done. f_equal. f_equal; lia.
Qed.

Lemma evidence_zero mss : evidence (0, 0) mss = false.
Proof. unfold evidence, tcpDuplicateACKThreshold. simpl. destruct (0 <? mss) eqn:E; simpl; lia. Qed.

(** The verdict of the head of a scoreboard. *)
Definition headLost (s : sentTCPSegment) (rest : list sentTCPSegment) (mss : Z) : bool :=
  negb (hasState s sentTCPSegmentSACKed)
  && (hasState s sentTCPSegmentRACKLost || evidence (sackedTotals rest) mss).

Lemma lostList_cons s rest mss :
  lostList (s :: rest) mss = headLost s rest mss :: lostList rest mss.
Proof.
  unfold lostList. simpl length. rewrite <- cons_seq, <- seq_shift, map_cons, map_map. f_equal.
  - unfold sackSegmentLost, headLost.
    change (drop (Z.to_nat (Z.of_nat 0 + 1)) (s :: rest)) with rest.
    change (idx (s :: rest) (Z.of_nat 0)) with (Some s). cbn iota.
    destruct (hasState s sentTCPSegmentSACKed); [done|].
    destruct (hasState s sentTCPSegmentRACKLost); [done|]. simpl.
    rewrite lostAbove_evidence by apply evidence_zero. rewrite !Z.add_0_l. by destruct (sackedTotals rest).
  - apply map_ext. intros i. unfold sackSegmentLost.
    rewrite idx_cons_S by lia. replace (Z.of_nat (S i) - 1) with (Z.of_nat i) by lia.
    replace (Z.to_nat (Z.of_nat (S i) + 1)) with (S (Z.to_nat (Z.of_nat i + 1))) by lia. done.
Qed.

Lemma findIndex_range {A} (f : A -> bool) l : -1 <= findIndex f l.
Proof. induction l as [|x l IH]; simpl; split_ifs; lia. Qed.

Lemma unretriedScan_spec i l mss :
  fst (unretriedScan i l mss) = sackedTotals l /\
  snd (unretriedScan i l mss) =
    (let j := findIndex (fun p => negb (hasState (fst p) sentTCPSegmentSACKRetried) && snd p)
                (combine l (lostList l mss)) in if j <? 0 then -1 else i + j).
Proof.
  revert i. induction l as [|s l IH]; intros i; [done|].
  specialize (IH (i + 1)). rewrite lostList_cons. cbn [unretriedScan combine findIndex].
  destruct (unretriedScan (i + 1) l mss) as [sacked index]. simpl in IH.
  destruct IH as [-> ->]. cbn [fst snd sackedTotals foldr]. fold (sackedTotals l).
  unfold headLost. generalize (findIndex (fun p => negb (hasState (fst p) sentTCPSegmentSACKRetried) && snd p)
    (combine l (lostList l mss))). intros j.
  destruct (hasState s sentTCPSegmentSACKed) eqn:Es; cbn [fst snd negb andb].
  - split; [done|]. rewrite andb_false_r. destruct (j <? 0) eqn:Ej; [done|].
    replace (j + 1 <? 0) with false by lia. lia.
  - split; [done|].
    destruct (negb _ && _) eqn:El; cbn [fst snd]; [change (0 <? 0) with false; cbn iota; lia|].
    destruct (j <? 0) eqn:Ej; [done|]. replace (j + 1 <? 0) with false by lia. lia.
Qed.

Lemma lostCountScan_spec l mss :
  lostCountScan l mss = (sackedTotals l, zlen (List.filter (fun b => b) (lostList l mss))).
Proof.
  induction l as [|s l IH]; [done|]. rewrite lostList_cons. cbn [lostCountScan].
  rewrite IH. cbn [sackedTotals foldr]. fold (sackedTotals l). unfold headLost.
  destruct (hasState s sentTCPSegmentSACKed) eqn:Es; cbn [List.filter negb andb]; [done|].
  destruct (_ || _); [rewrite zlen_cons; f_equal; lia|done].
Qed.

Lemma grow_saturated a b :
  0 <= a -> 0 <= b < 4294967296 ->
  growCongestionWindow (Z.min tcpMaximumScaledWindow a) b = Z.min tcpMaximumScaledWindow (a + b).
Proof.
  intros. rewrite grow_min; rewrite ?tcpMaximumScaledWindow_value; unfold is_u32; lia.
Qed.

Lemma pipeOf_nonneg s lost : 0 <= pipeOf s lost.
Proof. unfold pipeOf. pose proof (segLen_range s). split_ifs; lia. Qed.

Lemma pipeSum_nonneg l : 0 <= pipeSum l.
Proof. induction l as [|[s b] l IH]; simpl; [lia|]. pose proof (pipeOf_nonneg s b). lia. Qed.

Lemma pipeScan_spec l mss :
  pipeScan l mss = (sackedTotals l, Z.min tcpMaximumScaledWindow (pipeSum (combine l (lostList l mss)))).
Proof.
  induction l as [|s l IH]; [by compute|]. rewrite lostList_cons. cbn [pipeScan combine].
  rewrite IH. cbn [sackedTotals foldr pipeSum fst snd]. fold (sackedTotals l).
  fold (pipeSum (combine l (lostList l mss))).
  pose proof (pipeSum_nonneg (combine l (lostList l mss))) as Hn.
  pose proof (segLen_range s) as Hl. unfold headLost, pipeOf.
  set (P := pipeSum _) in *. set (lost := hasState s sentTCPSegmentRACKLost || _).
  destruct (hasState s sentTCPSegmentSACKed) eqn:Es; cbn [negb andb]; [done|].
  destruct lost; cbn [negb]; destruct (hasState s sentTCPSegmentSACKRetried);
    rewrite ?grow_saturated by lia; f_equal; lia.
Qed.

Definition reportedBytes (reports : list (sentTCPSegment * Z)) : Z :=
  foldr (fun r n => snd r + n) 0 reports.

Lemma reportedBytes_app a b : reportedBytes (a ++ b) = reportedBytes a + reportedBytes b.
Proof. unfold reportedBytes. induction a as [|[s n] a IH]; simpl; [done|]. simpl in IH. lia. Qed.

(** Reporting a loss changes only the loss-reported flag, and a range that was
    reported is not reported again. *)
Lemma recordTCPSegmentLoss_cases s :
  let '(s', n) := recordTCPSegmentLoss s true in
  (forall f, isFlag f -> f <> sentTCPSegmentLossReported -> hasState s' f = hasState s f) /\
  segLen s' = segLen s /\ recordTCPSegmentLoss s' true = (s', 0) /\ 0 <= n < 4294967296.
Proof.
  pose proof (segLen_range s). unfold recordTCPSegmentLoss. simpl.
  destruct (negb (isTransmitted s) || lossAlreadyReported s) eqn:E; [rewrite E; auto with lia|].
  split; [|split; [done|split; [|done]]].
  - intros f Hf Hne. rewrite hasState_lor by flag.
    destruct (_ =? f) eqn:Ef; [|done]. apply Z.eqb_eq in Ef. congruence.
  - unfold lossAlreadyReported. rewrite (hasState_lor s _ sentTCPSegmentLossReported) by flag.
    by rewrite Z.eqb_refl, orb_true_r.
Qed.

Lemma provenScan_spec l mss :
  let '(sacked, l', losses, reports) := provenScan l mss in
  sacked = sackedTotals l /\ sackedTotals l' = sackedTotals l /\
  provenScan l' mss = (sacked, l', 0, []) /\
  losses = Z.min tcpMaximumScaledWindow (reportedBytes reports) /\ 0 <= reportedBytes reports.
Proof.
  induction l as [|s l IH]; [by compute|]. cbn [provenScan].
  destruct (provenScan l mss) as [[[sacked l'] losses] reports].
  destruct IH as (-> & E2 & E3 & E4 & E5). simpl sackedTotals at 1. fold (sackedTotals l).
  pose proof (recordTCPSegmentLoss_cases s) as Hr.
  destruct (recordTCPSegmentLoss s true) as [s' n]. destruct Hr as (Hf & Hlen & Htwice & Hn).
  destruct (hasState s sentTCPSegmentSACKed) eqn:Es.
  { simpl. fold (sackedTotals l). fold (sackedTotals l'). rewrite Es, E2, E3. auto. }
  destruct (_ || _) eqn:El.
  - cbn [provenScan]. rewrite E3.
    rewrite !(Hf sentTCPSegmentSACKed), !(Hf sentTCPSegmentRACKLost),
      !(Hf sentTCPSegmentSACKRetried) by (done || flag).
    rewrite Es, El, Htwice. simpl. fold (sackedTotals l). fold (sackedTotals l').
    rewrite Es, (Hf sentTCPSegmentSACKed), Es by (done || flag).
    split; [done|]. split; [done|].
    split; [by change (growCongestionWindow 0 0) with 0|].
    rewrite E4, grow_saturated by lia.
    destruct (n =? 0) eqn:En; cbn [negb]; [split; [f_equal; lia|done]|].
    rewrite reportedBytes_app. simpl. split; [f_equal; lia|lia].
  - cbn [provenScan]. rewrite E3, Es, El. simpl. fold (sackedTotals l). fold (sackedTotals l').
    rewrite Es. auto.
Qed.

(** A range the pass must report: lost by its verdict, by proof that concerns
    its current transmission, transmitted, and not reported before. *)
Definition freshLoss (p : sentTCPSegment * bool) : bool :=
  snd p && (hasState (fst p) sentTCPSegmentRACKLost || negb (hasState (fst p) sentTCPSegmentSACKRetried))
  && isTransmitted (fst p) && negb (lossAlreadyReported (fst p)).

Definition lossFlagged (s : sentTCPSegment) : sentTCPSegment :=
  withState s (st_state s .| sentTCPSegmentLossReported).

Lemma provenScan_exact l mss :
  let verdicts := combine l (lostList l mss) in
  let '(sacked, l', losses, reports) := provenScan l mss in
  l' = map (fun p => if freshLoss p then lossFlagged (fst p) else fst p) verdicts /\
  reports = rev (map (fun p => (lossFlagged (fst p), segLen (fst p)))
                  (List.filter (fun p => freshLoss p && negb (segLen (fst p) =? 0)) verdicts)) /\
  reportedBytes reports = foldr (fun p n => (if freshLoss p then segLen (fst p) else 0) + n) 0 verdicts.
Proof.
  cbv zeta. induction l as [|s l IH]; [done|]. rewrite lostList_cons. cbn [provenScan combine].
  pose proof (provenScan_spec l mss) as Hs. destruct (provenScan l mss) as [[[sacked l'] losses] reports].
  destruct IH as (IH1 & IH2 & IH3), Hs as (Hs & _). subst sacked.
  cbn [map List.filter foldr]. unfold headLost, recordTCPSegmentLoss. cbn [negb orb].
  assert (freshLoss (s, negb (hasState s sentTCPSegmentSACKed) && (hasState s sentTCPSegmentRACKLost || evidence (sackedTotals l) mss)) =
          negb (hasState s sentTCPSegmentSACKed)
          && (hasState s sentTCPSegmentRACKLost || negb (hasState s sentTCPSegmentSACKRetried) && evidence (sackedTotals l) mss)
          && negb (negb (isTransmitted s) || lossAlreadyReported s)) as ->.
  { unfold freshLoss. cbn [fst snd]. destruct (hasState s sentTCPSegmentSACKed), (hasState s sentTCPSegmentRACKLost),
      (hasState s sentTCPSegmentSACKRetried), (evidence _ _), (isTransmitted s), (lossAlreadyReported s); reflexivity. }
  destruct (hasState s sentTCPSegmentSACKed); cbn [negb andb]; [by rewrite IH1|].
  destruct (hasState s sentTCPSegmentRACKLost || _); cbn [negb andb]; [|by rewrite IH1].
  destruct (negb (isTransmitted s) || _); cbn [negb andb fst]; [by rewrite IH1|].
  fold (lossFlagged s). destruct (segLen s =? 0) eqn:El; cbn [negb].
  - apply Z.eqb_eq in El. by rewrite IH1, El, <- IH3.
  - cbn [map rev fst]. rewrite <- IH1, <- IH2, <- IH3, reportedBytes_app. split_and!; [done..|].
    cbn [reportedBytes foldr snd]. lia.
Qed.

(** ** Lemmas: SACK splitting and marking *)

(** The largest flight the lemmas consider: the maximum scaled window. *)
Definition maxFlight : Z := 1073741824.

Fixpoint aligned (o b : Z) (l : list sentTCPSegment) : Prop :=
  match l with
  | [] => True
  | s :: l => ~ (o < b < o + segLen s) /\ aligned (o + segLen s) b l
  end.

Lemma total_nonneg l : 0 <= total l.
Proof. induction l as [|s l IH]; simpl; [lia|]. pose proof (segLen_range s). lia. Qed.

Lemma contig_end base o s :
  st_sequence s = base ⊞ o -> is_u32 (st_end s) -> st_end s = base ⊞ (o + segLen s).
Proof.
  unfold segLen. intros -> He. rewrite <- (u32_id _ He) at 1. word.
Qed.

Lemma insideRange_offsets base o s b :
  st_sequence s = base ⊞ o -> is_u32 (st_end s) ->
  0 <= o -> 0 < segLen s -> o + segLen s <= maxFlight -> 0 <= b <= maxFlight ->
  insideRange s (base ⊞ b) = (o <? b) && (b <? o + segLen s).
Proof.
  unfold maxFlight. intros Hs He ? ? ? ?. unfold insideRange, tcpSequenceGreater.
  rewrite (contig_end base o s Hs He) by lia. rewrite Hs, !less_offsets by lia. done.
Qed.

Lemma inBlock_offsets base o s a b :
  st_sequence s = base ⊞ o -> is_u32 (st_end s) ->
  0 <= o -> 0 < segLen s -> o + segLen s <= maxFlight ->
  0 <= a <= maxFlight -> 0 <= b <= maxFlight ->
  inBlock s (mkBlock (base ⊞ a) (base ⊞ b)) = (a <=? o) && (o + segLen s <=? b).
Proof.
  unfold maxFlight. intros Hs He ? ? ? ? ?. unfold inBlock, tcpSequenceGreaterEqual.
  cbn [LeftEdge RightEdge]. rewrite (contig_end base o s Hs He) by lia.
  rewrite Hs, !less_offsets by lia. lia.
Qed.

Lemma splitLeft_len base o s b :
  st_sequence s = base ⊞ o -> o < b < o + segLen s ->
  segLen (splitLeft s (base ⊞ b)) = b - o.
Proof.
  intros Hs Hb. pose proof (segLen_range s). unfold segLen at 1. simpl. rewrite Hs. word.
Qed.

Lemma splitRight_len base o s b :
  st_sequence s = base ⊞ o -> is_u32 (st_end s) -> o < b < o + segLen s ->
  segLen (splitRight s (base ⊞ b)) = o + segLen s - b.
Proof.
  intros Hs He Hb. pose proof (segLen_range s). unfold segLen at 1. simpl.
  rewrite (contig_end base o s Hs He). word.
Qed.

Lemma split_sacked s b :
  hasState (splitLeft s b) sentTCPSegmentSACKed = hasState s sentTCPSegmentSACKed /\
  hasState (splitRight s b) sentTCPSegmentSACKed = hasState s sentTCPSegmentSACKed.
Proof.
  split; unfold splitLeft, splitRight, withRange, hasState; simpl;
  apply (hasFlag_set (st_state s) sentTCPSegmentSACKSplit sentTCPSegmentSACKed true); flag.
Qed.

Lemma split_split s b :
  hasState (splitLeft s b) sentTCPSegmentSACKSplit = true /\
  hasState (splitRight s b) sentTCPSegmentSACKSplit = true.
Proof.
  split; unfold splitLeft, splitRight, withRange, hasState; simpl;
  apply (hasFlag_set (st_state s) sentTCPSegmentSACKSplit sentTCPSegmentSACKSplit true); flag.
Qed.

Lemma aligned_below o b l : b <= o -> aligned o b l.
Proof.
  revert o. induction l as [|s l IH]; intros o H; simpl; [done|].
  pose proof (segLen_range s). split; [lia|]. apply IH. lia.
Qed.

Lemma splitLoop_spec base l o b n :
  contig base o l -> 0 <= o -> o + total l <= maxFlight -> 0 <= b <= maxFlight ->
  let l' := splitLoop l (base ⊞ b) n in
  contig base o l' /\ total l' = total l /\ (forall x, sackedAt o l' x = sackedAt o l x) /\
  splitRangesOf l' <= splitRangesOf l + 2 /\
  (n + 2 <= tcpMaximumSACKSplitRanges -> aligned o b l') /\
  (forall c, aligned o c l -> aligned o c l').
Proof.
  revert o. induction l as [|s l IH]; intros o Hc Ho Ht Hb; cbn [splitLoop].
  { split_and!; done. }
  destruct Hc as (Hs & He & Hk & Hc). cbn [total foldr] in Ht. fold (total l) in Ht.
  pose proof (total_nonneg l).
  rewrite (insideRange_offsets base o s b) by (done || lia).
  destruct ((o <? b) && (b <? o + segLen s)) eqn:Ein; cbn [negb].
  - assert (o < b < o + segLen s) as Hin by lia.
    destruct (_ <? n + _) eqn:Eb.
    { split_and!; try done; [lia|].
      intros Hn. exfalso. destruct (hasState s _); lia. }
    pose proof (splitLeft_len base o s b Hs Hin) as EL.
    pose proof (splitRight_len base o s b Hs He Hin) as ER.
    pose proof (split_sacked s (base ⊞ b)) as [SL SR].
    pose proof (split_split s (base ⊞ b)) as [TL TR].
    cbn [contig total foldr sackedAt aligned splitRangesOf].
    fold (total l). fold (splitRangesOf l). rewrite EL, ER, SL, SR, TL, TR.
    replace (o + (b - o)) with b by lia. replace (b + (o + segLen s - b)) with (o + segLen s) by lia.
    assert (is_u32 (base ⊞ b)) by apply u32_range.
    split_and!; try done; try lia.
    + intros x. split_ifs; try done; lia.
    + destruct (hasState s sentTCPSegmentSACKSplit); lia.
    + intros _. split_and!; [lia|lia|]. apply aligned_below. lia.
    + intros c [Hc1 Hc2]. split_and!; [lia|lia|done].
  - destruct (IH (o + segLen s)) as (I1 & I2 & I3 & I4 & I5 & I6); [done|lia|lia|done|].
    cbn [contig total foldr sackedAt aligned splitRangesOf].
    fold (total l). fold (total (splitLoop l (base ⊞ b) n)).
    fold (splitRangesOf l). fold (splitRangesOf (splitLoop l (base ⊞ b) n)).
    split_and!; try done; try lia.
    + intros x. by rewrite I3.
    + destruct (hasState s sentTCPSegmentSACKSplit); lia.
    + intros Hn. split; [lia|]. by apply I5.
    + intros c [Hc1 Hc2]. split; [done|]. by apply I6.
Qed.

(** The effect of [markBlock] on one range. *)
Definition markOne (block : TCPSACKBlock) (s : sentTCPSegment) : sentTCPSegment :=
  if inBlock s block then
    setState (if hasState s sentTCPSegmentSACKed then s
              else withDelivery s (mkSnapshot (ds_firstSent (st_delivery s)) 0
                                     (ds_deliveredFlags (st_delivery s))))
             sentTCPSegmentSACKed true
  else s.

Lemma markBlock_map l block epoch new latest newly :
  fst (fst (fst (markBlock l block epoch new latest newly))) = map (markOne block) l.
Proof.
  revert new latest newly. induction l as [|s l IH]; intros; [done|]. cbn [markBlock map].
  unfold markOne at 1. destruct (inBlock s block).
  - destruct (hasState s sentTCPSegmentSACKed); cbn [negb];
      (match goal with |- context [markBlock l block epoch ?a ?b ?c] =>
         specialize (IH a b c); destruct (markBlock l block epoch a b c) as [[[? ?] ?] ?] end);
      simpl in *; by rewrite IH.
  - specialize (IH new latest newly). destruct (markBlock _ _ _ _ _ _) as [[[? ?] ?] ?].
    simpl in *. by rewrite IH.
Qed.

Lemma markOne_same block s :
  st_sequence (markOne block s) = st_sequence s /\ st_end (markOne block s) = st_end s /\
  segLen (markOne block s) = segLen s /\
  hasState (markOne block s) sentTCPSegmentSACKSplit = hasState s sentTCPSegmentSACKSplit /\
  hasState (markOne block s) sentTCPSegmentSACKed
  = hasState s sentTCPSegmentSACKed || inBlock s block.
Proof.
  unfold markOne. destruct (inBlock s block); [|by rewrite orb_false_r].
  split; [by destruct (hasState s _)|]. split; [by destruct (hasState s _)|].
  split; [by destruct (hasState s _)|]. rewrite !hasState_set by flag. rewrite orb_true_r.
  by destruct (hasState s sentTCPSegmentSACKed).
Qed.

Lemma mark_spec base l o a b :
  contig base o l -> 0 <= o -> o + total l <= maxFlight ->
  0 <= a <= maxFlight -> 0 <= b <= maxFlight ->
  let l' := map (markOne (mkBlock (base ⊞ a) (base ⊞ b))) l in
  contig base o l' /\ total l' = total l /\ splitRangesOf l' = splitRangesOf l /\
  (forall x, sackedAt o l x = true -> sackedAt o l' x = true) /\
  (forall x, sackedAt o l' x = true -> sackedAt o l x = true \/ a <= x < b) /\
  (aligned o a l -> aligned o b l ->
   forall x, o <= x < o + total l -> a <= x < b -> sackedAt o l' x = true).
Proof.
  intros Hc Ho Ht Ha Hb. revert o Hc Ho Ht. induction l as [|s l IH]; intros o Hc Ho Ht.
  { simpl. split_and!; try done. lia. }
  destruct Hc as (Hs & He & Hk & Hc). cbn [total foldr] in Ht. fold (total l) in Ht.
  pose proof (total_nonneg l). cbn [map].
  set (block := mkBlock (base ⊞ a) (base ⊞ b)) in *.
  destruct (markOne_same block s) as (M1 & M2 & M3 & M4 & M5).
  unfold block in M5. rewrite (inBlock_offsets base o s a b) in M5 by (done || lia).
  fold block in M5.
  destruct (IH (o + segLen s)) as (I1 & I2 & I3 & I4 & I5 & I6); [done|lia|lia|].
  cbn [contig total foldr sackedAt aligned splitRangesOf].
  fold (total l). fold (total (map (markOne block) l)).
  fold (splitRangesOf l). fold (splitRangesOf (map (markOne block) l)).
  rewrite M1, M2, M3, M4, M5, I2, I3.
  split_and!; try done.
  - intros x. split_ifs; [|apply I4]. by intros ->.
  - intros x. split_ifs; [|apply I5]. destruct (hasState s sentTCPSegmentSACKed); [auto|]. simpl. lia.
  - intros [A1 A2] [B1 B2] x Hx Hab. split_ifs; [|apply I6; auto; lia].
    destruct (hasState s sentTCPSegmentSACKed); [done|]. simpl. lia.
Qed.

Definition blockAt (base : Z) (r : Z * Z) : TCPSACKBlock :=
  mkBlock (base ⊞ fst r) (base ⊞ snd r).

(** What a scoreboard [l'] keeps of [l] and gains from the ranges [rs]. *)
Definition refines (base : Z) (l l' : list sentTCPSegment) (rs : list (Z * Z)) : Prop :=
  contig base 0 l' /\ total l' = total l /\
  (forall x, sackedAt 0 l x = true -> sackedAt 0 l' x = true) /\
  (forall x, sackedAt 0 l' x = true ->
     sackedAt 0 l x = true \/ Exists (fun r => fst r <= x < snd r) rs) /\
  (splitRangesOf l + 4 * zlen rs <= tcpMaximumSACKSplitRanges ->
   forall x, Exists (fun r => fst r <= x < snd r) rs -> sackedAt 0 l' x = true).

Definition inStream (n : Z) (r : Z * Z) : Prop := 0 <= fst r /\ fst r < snd r /\ snd r <= n.

Lemma applyBlock_spec base epoch l r rest :
  contig base 0 l -> total l <= maxFlight -> inStream (total l) r ->
  fst (fst (fst (markBlock
     (splitTCPSegmentAt (splitTCPSegmentAt l (base ⊞ fst r)) (base ⊞ snd r))
     (blockAt base r) epoch rest.1.1 rest.1.2 rest.2))) = 
  map (markOne (blockAt base r))
      (splitTCPSegmentAt (splitTCPSegmentAt l (base ⊞ fst r)) (base ⊞ snd r)) /\
  let l' := map (markOne (blockAt base r))
      (splitTCPSegmentAt (splitTCPSegmentAt l (base ⊞ fst r)) (base ⊞ snd r)) in
  refines base l l' [r] /\ splitRangesOf l' <= splitRangesOf l + 4.
Proof.
  intros Hc Ht (R1 & R2 & R3). split; [apply markBlock_map|]. cbn zeta.
  unfold splitTCPSegmentAt.
  destruct (splitLoop_spec base l 0 (fst r) (splitRangesOf l))
    as (A1 & A2 & A3 & A4 & A5 & _); [done|lia|lia|lia|].
  set (l1 := splitLoop l _ _) in *.
  destruct (splitLoop_spec base l1 0 (snd r) (splitRangesOf l1))
    as (B1 & B2 & B3 & B4 & B5 & B6); [done|lia|lia|lia|].
  set (l2 := splitLoop l1 _ _) in *.
  destruct (mark_spec base l2 0 (fst r) (snd r)) as (C1 & C2 & C3 & C4 & C5 & C6);
    [done|lia|lia|lia|lia|].
  fold (blockAt base r) in *. unfold refines. rewrite C2, B2, A2, C3.
  split; [|lia]. split; [done|]. split; [done|]. split; [|split].
  - intros x Hx. apply C4. by rewrite B3, A3.
  - intros x Hx. destruct (C5 x Hx) as [H|H]; [left; by rewrite <- A3, <- B3|right; by constructor].
  - rewrite zlen_cons, zlen_nil. intros Hn x Hx. apply Exists_cons in Hx as [Hx|Hx]; [|by inversion Hx].
    apply C6; [apply B6, A5; lia|apply B5; lia|lia|done].
Qed.

Lemma refines_step base l l1 l2 r rs :
  refines base l l1 [r] -> splitRangesOf l1 <= splitRangesOf l + 4 -> refines base l1 l2 rs ->
  refines base l l2 (r :: rs).
Proof.
  intros (A1 & A2 & A3 & A4 & A5) Hn (B1 & B2 & B3 & B4 & B5).
  unfold refines. rewrite B2, A2. rewrite !zlen_cons, !zlen_nil in *.
  pose proof (zlen_nonneg rs). split; [done|]. split; [done|]. split; [auto|]. split.
  - intros x Hx. rewrite Exists_cons. destruct (B4 x Hx) as [H1|H1]; [|auto].
    destruct (A4 x H1) as [H2|H2]; [auto|]. apply Exists_cons in H2 as [H2|H2]; [auto|by inversion H2].
  - intros Hb x Hx. apply Exists_cons in Hx as [Hx|Hx].
    + apply B3, A5; [lia|by constructor].
    + apply B5; [lia|done].
Qed.

Lemma fold_applyBlock_spec base epoch rs n r first :
  contig base 0 (sr_outstanding r) -> total (sr_outstanding r) = n -> n <= maxFlight ->
  Forall (inStream n) rs ->
  refines base (sr_outstanding r)
    (sr_outstanding (fst (fold_left (applyBlock epoch) (map (blockAt base) rs) (r, first)))) rs.
Proof.
  revert r first. induction rs as [|rg rs IH]; intros r first Hc Ht Hn Hrs.
  { simpl. unfold refines. split_and!; try done; auto. intros _ x H. by inversion H. }
  apply Forall_cons_iff in Hrs as [Hr Hrs]. cbn [map fold_left]. subst n.
  destruct (applyBlock_spec base epoch (sr_outstanding r) rg
     ((sr_newInformation r, sr_latest r), sr_newly r)) as (E & S1 & S2); [done..|].
  cbn [fst snd] in E. unfold applyBlock at 2. cbn [LeftEdge RightEdge blockAt] in *.
  fold (blockAt base rg) in *.
  destruct (markBlock _ _ _ _ _ _) as [[[l' ni] la] ne]. cbn [fst] in E. subst l'.
  eapply refines_step; [exact S1|exact S2|].
  set (l1 := map (markOne _) _) in *. destruct S1 as (D1 & D2 & _).
  apply (IH (mkSackResult l1 _ ni la ne) false); simpl; [done|done|done|done].
Qed.

(** ** Lemmas: resegmentation *)

Lemma total_app a b : total (a ++ b) = total a + total b.
Proof. unfold total. induction a as [|s a IH]; simpl; [done|]. lia. Qed.

Lemma contig_app base o a b :
  contig base o (a ++ b) <-> contig base o a /\ contig base (o + total a) b.
Proof.
  revert o. induction a as [|s a IH]; intros o; simpl.
  { rewrite Z.add_0_r. tauto. }
  fold (total a). rewrite IH, Z.add_assoc. tauto.
Qed.

Lemma sackedAt_range o l x : sackedAt o l x = true -> o <= x < o + total l.
Proof.
  revert o. induction l as [|s l IH]; intros o; simpl; [done|]. fold (total l).
  pose proof (total_nonneg l). pose proof (segLen_range s).
  split_ifs; [lia|]. intros H1%IH. lia.
Qed.

Lemma sackedAt_app o a b x :
  sackedAt o (a ++ b) x = sackedAt o a x || sackedAt (o + total a) b x.
Proof.
  revert o. induction a as [|s a IH]; intros o; simpl; [by rewrite Z.add_0_r|].
  fold (total a). rewrite IH, Z.add_assoc. pose proof (total_nonneg a).
  destruct (_ && _) eqn:E; [|done].
  destruct (sackedAt (o + segLen s + total a) b x) eqn:Eb; [|by rewrite orb_false_r].
  apply sackedAt_range in Eb. lia.
Qed.

Lemma hasFlag_clear_fin f : hasFlag (f .&^ (TCPFlagPSH .| TCPFlagFIN)) TCPFlagFIN = false.
Proof.
  rewrite hasFlag_testbit by flag. change (Z.log2 TCPFlagFIN) with 0.
  rewrite Z.ldiff_spec. change (Z.testbit (TCPFlagPSH .| TCPFlagFIN) 0) with true.
  apply andb_false_r.
Qed.

Lemma dataSize_le s : dataSize s <= segLen s <= dataSize s + 1.
Proof. unfold dataSize. split_ifs; lia. Qed.

Lemma resegmentPart_fields s offset stop :
  let part := resegmentPart s offset stop (dataSize s) in
  let fin := (stop =? dataSize s) && hasFlag (st_flags s) TCPFlagFIN in
  st_sequence part = st_sequence s ⊞ offset /\
  st_end part = st_sequence s ⊞ (stop + if fin then 1 else 0) /\
  hasFlag (st_flags part) TCPFlagFIN = fin /\
  hasState part sentTCPSegmentSACKed = hasState s sentTCPSegmentSACKed.
Proof.
  assert (forall e, hasFlag (setBits (st_state s) sentTCPSegmentCWR e) sentTCPSegmentSACKed
                    = hasFlag (st_state s) sentTCPSegmentSACKed) as Hst.
  { intros e. rewrite hasFlag_set by flag. done. }
  unfold resegmentPart, hasState at 1. cbn [st_state st_flags withRange setState withState].
  destruct (stop =? dataSize s) eqn:Est; cbn [negb andb].
  - destruct (hasFlag (st_flags s) TCPFlagFIN) eqn:Ef;
      cbn [st_sequence st_end st_state st_flags withRange setState withState];
      (split; [done|split; [rewrite ?Z.add_0_r; word|split; [by rewrite ?Ef|apply Hst]]]).
  - cbn [st_sequence st_end st_state st_flags withRange setState withState].
    split; [done|split; [by rewrite Z.add_0_r|split; [apply hasFlag_clear_fin|apply Hst]]].
Qed.

Lemma resegmentPart_spec base o s offset stop :
  st_sequence s = base ⊞ o -> 0 <= offset -> offset < stop -> stop <= dataSize s ->
  let part := resegmentPart s offset stop (dataSize s) in
  st_sequence part = base ⊞ (o + offset) /\ is_u32 (st_end part) /\
  segLen part = (if stop =? dataSize s then segLen s else stop) - offset /\
  dataSize part = stop - offset /\
  hasState part sentTCPSegmentSACKed = hasState s sentTCPSegmentSACKed.
Proof.
  intros Hs Ho Hlt Hle part. subst part. pose proof (segLen_range s) as Hk.
  destruct (resegmentPart_fields s offset stop) as (F1 & F2 & F3 & F4).
  set (part := resegmentPart _ _ _ _) in *. cbn zeta in *.
  set (fin := (stop =? dataSize s) && hasFlag (st_flags s) TCPFlagFIN) in *.
  assert (dataSize s = segLen s - (if hasFlag (st_flags s) TCPFlagFIN then 1 else 0)) as Hp.
  { unfold dataSize in *. destruct (hasFlag _ _); simpl in *; [|lia].
    destruct (segLen s =? 0) eqn:E0; simpl in *; lia. }
  assert (segLen part = stop - offset + (if fin then 1 else 0)) as Hlen.
  { unfold segLen at 1. rewrite F1, F2. subst fin.
    destruct (stop =? dataSize s) eqn:E1, (hasFlag (st_flags s) TCPFlagFIN); simpl; word. }
  split; [rewrite F1, Hs; word|]. split; [rewrite F2; apply u32_range|].
  split; [|split; [|done]].
  - rewrite Hlen. subst fin. destruct (stop =? dataSize s) eqn:E1; simpl; [|lia].
    destruct (hasFlag (st_flags s) TCPFlagFIN); lia.
  - unfold dataSize at 1. rewrite Hlen, F3. destruct fin; simpl; [|lia].
    destruct (_ =? 0) eqn:E0; simpl; lia.
Qed.

(** Parts that replace the range [s] from offset [o]: the same bytes, the same
    verdict for each, at most [mss] bytes of payload in each. *)
Definition partsOf (base o mss k : Z) (s : sentTCPSegment) (parts : list sentTCPSegment) : Prop :=
  contig base o parts /\ total parts = k /\
  Forall (fun p => dataSize p <= mss) parts /\
  (forall x, sackedAt o parts x = (o <=? x) && (x <? o + k) && hasState s sentTCPSegmentSACKed).

Lemma resegmentBody_ok base o mss s st :
  st_sequence s = base ⊞ o -> is_u32 (st_end s) -> 0 < mss -> 0 < dataSize s ->
  0 <= fst st -> partsOf base o mss (if fst st <? dataSize s then fst st else segLen s) s (snd st) ->
  exists r, resegmentBody s (dataSize s) mss st = Some r /\
  match r with
  | inl st' =>
      (0 <= fst st' /\
       partsOf base o mss (if fst st' <? dataSize s then fst st' else segLen s) s (snd st')) /\
      (Z.to_nat (dataSize s - fst st') < Z.to_nat (dataSize s - fst st))%nat
  | inr parts => partsOf base o mss (segLen s) s parts
  end.
Proof.
  destruct st as [offset result]. cbn [fst snd]. intros Hs He Hm Hd Hoff HI. unfold resegmentBody.
  destruct (offset <? dataSize s) eqn:Elt; [|by eexists].
  eexists. split; [done|]. cbn [fst snd]. split; [|lia]. split; [lia|].
  set (stop := if dataSize s <? offset + mss then dataSize s else offset + mss).
  assert (offset < stop <= dataSize s /\ stop <= offset + mss /\
    (if stop =? dataSize s then segLen s else stop)
    = (if offset + mss <? dataSize s then offset + mss else segLen s)) as (H1 & H2 & H3)
    by (subst stop; split_ifs; lia).
  clearbody stop. destruct (resegmentPart_spec base o s offset stop) as (F1 & F2 & F3 & F4 & F5);
    [done|lia|lia|lia|].
  set (part := resegmentPart _ _ _ _) in *. rewrite H3 in F3.
  set (k' := if offset + mss <? dataSize s then _ else _) in *.
  assert (offset < k') as Hk' by (subst k'; pose proof (dataSize_le s); split_ifs; lia).
  clearbody k' part. destruct HI as (I1 & I2 & I3 & I4). unfold partsOf.
  rewrite contig_app, total_app, Forall_app, I2. cbn [total foldr]. 
  split; [|split; [lia|split]].
  - split; [done|]. simpl. split; [done|]. split; [done|]. split; [lia|done].
  - split; [done|]. constructor; [lia|constructor].
  - intros x. rewrite sackedAt_app, I2, I4. simpl. rewrite F3, F5.
    destruct (hasState s _); split_ifs; lia.
Qed.

Lemma resegment_one base o mss s :
  st_sequence s = base ⊞ o -> is_u32 (st_end s) -> 0 < mss -> 0 < segLen s ->
  exists parts,
    (if dataSize s <=? mss then Some [s]
     else loop (S (S (Z.to_nat (dataSize s)))) (resegmentBody s (dataSize s) mss) (0, []))
    = Some parts /\ partsOf base o mss (segLen s) s parts.
Proof.
  intros Hs He Hm Hk. destruct (dataSize s <=? mss) eqn:E.
  - exists [s]. split; [done|]. unfold partsOf. simpl.
    split; [done|]. split; [lia|]. split; [constructor; [lia|constructor]|].
    intros x. by destruct (_ && _).
  - apply (loop_total
      (fun st => 0 <= fst st /\
        partsOf base o mss (if fst st <? dataSize s then fst st else segLen s) s (snd st))
      (fun st => Z.to_nat (dataSize s - fst st))); [| |simpl; lia].
    + intros st [H1 H2]. apply resegmentBody_ok; try done. lia.
    + cbn [fst snd]. split; [lia|]. replace (0 <? dataSize s) with true by lia.
      unfold partsOf. simpl. split; [done|]. split; [done|]. split; [constructor|].
      intros x. destruct (_ && _) eqn:Ex; [lia|done].
Qed.

(** ** Properties *)

(** C38. Loss inference agrees with the per-range verdict: the one-pass scans
    that count the lost ranges, select the first lost range that was not yet
    retransmitted and measure the pipe return what RFC 6675 computes from the
    verdict [sackSegmentLost] gives to each range on its own. *)
Theorem loss_inference (l : list sentTCPSegment) (mss : Z) :
  sackLostRangeCount l mss = zlen (List.filter (fun b => b) (lostList l mss)) /\
  firstUnretriedLoss l mss
  = findIndex (fun p => negb (hasState (fst p) sentTCPSegmentSACKRetried) && snd p)
      (combine l (lostList l mss)) /\
  sackRecoveryPipe l mss
  = Z.min tcpMaximumScaledWindow (pipeSum (combine l (lostList l mss))).
Proof.
  unfold sackLostRangeCount, sackRecoveryPipe, firstUnretriedLoss.
  rewrite lostCountScan_spec, pipeScan_spec. split; [done|]. split; [|done].
  destruct (unretriedScan_spec 0 l mss) as [_ ->]. cbn zeta.
  pose proof (findIndex_range (fun p : sentTCPSegment * bool =>
    negb (hasState (fst p) sentTCPSegmentSACKRetried) && snd p) (combine l (lostList l mss))).
  destruct (_ <? 0) eqn:E; lia.
Qed.

(** C10. Every proven loss is reported, and once.  The pass reports exactly the
    transmitted ranges that the verdict [sackSegmentLost] gives as lost, whose
    proof holds for the current transmission (direct evidence, or no
    retransmission in between), and that were not reported before: these ranges
    and no others are flagged, each is handed to the callback with its length,
    from the highest to the lowest, and the result is the saturated sum of their
    lengths.  A second pass changes and reports nothing. *)
Theorem proven_loss_once (l : list sentTCPSegment) (mss : Z) :
  let verdicts := combine l (lostList l mss) in
  let '(l', losses, reports) := recordProvenTCPLossesWith l mss in
  l' = map (fun p => if freshLoss p then lossFlagged (fst p) else fst p) verdicts /\
  reports = rev (map (fun p => (lossFlagged (fst p), segLen (fst p)))
                  (List.filter (fun p => freshLoss p && negb (segLen (fst p) =? 0)) verdicts)) /\
  losses = Z.min tcpMaximumScaledWindow (foldr (fun p n => (if freshLoss p then segLen (fst p) else 0) + n) 0 verdicts) /\
  recordProvenTCPLossesWith l' mss = (l', 0, []).
Proof.
  cbv zeta. pose proof (provenScan_spec l mss) as H. pose proof (provenScan_exact l mss) as He. unfold recordProvenTCPLossesWith.
  destruct (provenScan l mss) as [[[sacked l'] losses] reports].
  destruct H as (_ & _ & -> & H & _), He as (E1 & E2 & E3). split_and!; try done. by rewrite H, E3.
Qed.

(** C3. SACK marking keeps the scoreboard a partition of the flight: the
    ranges stay consecutive over the same bytes, no byte loses its SACK mark,
    only bytes inside a reported block gain one, and every byte of every block
    does as long as the split budget admits the cuts. *)
Theorem sack_partition (base epoch : Z) (l : list sentTCPSegment) (rs : list (Z * Z)) :
  contig base 0 l -> total l <= maxFlight -> Forall (inStream (total l)) rs ->
  refines base l (sr_outstanding (fst (applyTCPSACK l (map (blockAt base) rs) epoch))) rs.
Proof.
  intros Hc Ht Hrs. unfold applyTCPSACK. cbn [fst].
  by apply (fold_applyBlock_spec base epoch rs (total l) (mkSackResult l 0 false zeroRack []) true).
Qed.

(** Resegmentation terminates for a positive segment size and cuts the
    scoreboard without changing it: the same bytes, consecutive, with the same
    SACK marks, and no range carries more payload than the new size. *)
Theorem resegmentation (base mss : Z) (l : list sentTCPSegment) :
  contig base 0 l -> 0 < mss ->
  exists l', splitTCPSegments l mss = Some l' /\
    contig base 0 l' /\ total l' = total l /\
    Forall (fun p => dataSize p <= mss) l' /\
    (forall x, sackedAt 0 l' x = sackedAt 0 l x).
Proof.
  generalize 0 at 1 3 4 5. intros o Hc Hm. revert o Hc.
  induction l as [|s l IH]; intros o Hc; [eexists; split_and!; try done; constructor|].
  cbn [splitTCPSegments total foldr sackedAt].
  destruct Hc as (Hs & He & Hk & Hc). fold (total l).
  destruct (resegment_one base o mss s Hs He Hm Hk) as (parts & -> & P1 & P2 & P3 & P4).
  destruct (IH _ Hc) as (l' & -> & I1 & I2 & I3 & I4). simpl.
  exists (parts ++ l'). rewrite contig_app, total_app, Forall_app, P2, I2.
  split_and!; try done. intros x. rewrite sackedAt_app, P2, P4, I4.
  destruct ((o <=? x) && (x <? o + segLen s)) eqn:Ex; [|done]. simpl.
  destruct (sackedAt (o + segLen s) l x) eqn:E2; [|by rewrite orb_false_r].
  apply sackedAt_range in E2. lia.
Qed.

Definition sampleRange (sequence stop flags : Z) : sentTCPSegment :=
  mkSent sequence stop 0 sentTCPSegmentTransmitted flags 0 (mkTicket 0 0) 0 (mkSnapshot 0 0 0) 0.

(** A flight that wraps around the sequence space and ends in a FIN. *)
Definition sampleFlight : list sentTCPSegment :=
  [sampleRange 4294967000 704 TCPFlagACK; sampleRange 704 1705 (TCPFlagACK .| TCPFlagFIN)].

Lemma sampleFlight_contig : contig 4294967000 0 sampleFlight.
Proof. by vm_compute. Qed.

Lemma sack_partition_witness :
  refines 4294967000 sampleFlight
    (sr_outstanding (fst (applyTCPSACK sampleFlight (map (blockAt 4294967000) [(100, 1200)]) 0)))
    [(100, 1200)] /\
  map st_sequence
    (sr_outstanding (fst (applyTCPSACK sampleFlight (map (blockAt 4294967000) [(100, 1200)]) 0)))
  = [4294967000; 4294967100; 704; 904].
Proof.
  split; [|by vm_compute].
  apply (sack_partition 4294967000 0 sampleFlight [(100, 1200)]).
  - apply sampleFlight_contig.
  - by vm_compute.
  - constructor; [by vm_compute|constructor].
Defined.

(** A range below two SACKed ranges of full size is lost by their evidence;
    its retransmitted neighbour is not, for the evidence may concern the original. *)
Definition sampleLosses : list sentTCPSegment :=
  let range := fun sequence state => mkSent sequence (sequence + 1000) 0 state TCPFlagACK 0 (mkTicket 0 0) 0 (mkSnapshot 0 0 0) 0 in
  [range 0 sentTCPSegmentTransmitted;
   range 1000 (sentTCPSegmentTransmitted .| sentTCPSegmentSACKRetried);
   range 2000 (sentTCPSegmentTransmitted .| sentTCPSegmentSACKed);
   range 3000 (sentTCPSegmentTransmitted .| sentTCPSegmentSACKed);
   range 4000 (sentTCPSegmentTransmitted .| sentTCPSegmentSACKed)].

Lemma proven_loss_once_witness :
  let '(l', losses, reports) := recordProvenTCPLossesWith sampleLosses 1000 in
  losses = 1000 /\ map (fun r => (st_sequence (fst r), snd r)) reports = [(0, 1000)] /\
  recordProvenTCPLossesWith l' 1000 = (l', 0, []).
Proof.
  pose proof (proven_loss_once sampleLosses 1000) as H. cbv zeta in H.
  destruct (recordProvenTCPLossesWith sampleLosses 1000) as [[l' losses] reports].
  destruct H as (_ & E & L & H). split; [rewrite L; vm_compute; reflexivity|]. split; [|exact H].
  rewrite E. vm_compute. reflexivity.
Defined.

Lemma resegmentation_witness :
  exists l', splitTCPSegments sampleFlight 400 = Some l' /\
    contig 4294967000 0 l' /\ total l' = total sampleFlight /\
    Forall (fun p => dataSize p <= 400) l' /\
    (forall x, sackedAt 0 l' x = sackedAt 0 sampleFlight x).
Proof. apply (resegmentation 4294967000 400 sampleFlight); [apply sampleFlight_contig|done]. Defined.
