(* ===== verification/Float64.v ===== *)
(** * IEEE 754 double precision

    Go's [float64] as the specification floats of the Standard Library at
    precision 53: the arithmetic, conversions and bit patterns the congestion
    controllers use. *)

From Stdlib Require Export SpecFloat.
From S2P Require Import Prelude.

(** ** Arithmetic *)

Definition float64 : Type := spec_float.

Definition f64_of_Z (z : Z) : float64 := binary_normalize 53 1024 z 0 false.
Definition f64_add : float64 -> float64 -> float64 := SFadd 53 1024.
Definition f64_sub : float64 -> float64 -> float64 := SFsub 53 1024.
Definition f64_mul : float64 -> float64 -> float64 := SFmul 53 1024.
Definition f64_div : float64 -> float64 -> float64 := SFdiv 53 1024.
Definition f64_lt (x y : float64) : bool := SFltb x y.
Definition f64_le (x y : float64) : bool := SFleb x y.
Definition f64_eq (x y : float64) : bool := SFeqb x y.
Definition f64_zero : float64 := S754_zero false.

(** The constant nearest to [p/q]. *)
Definition f64_ratio (p q : Z) : float64 := f64_div (f64_of_Z p) (f64_of_Z q).

Definition isNaN (x : float64) : bool := match x with S754_nan => true | _ => false end.

(** [math.IsInf x sign] for [sign > 0] and [sign = 0]. *)
Definition isPositiveInf (x : float64) : bool := match x with S754_infinity s => negb s | _ => false end.
Definition isInf (x : float64) : bool := match x with S754_infinity _ => true | _ => false end.

(** The integer part of a finite number. *)
Definition f64_trunc (x : float64) : option Z :=
  match x with
  | S754_zero _ => Some 0
  | S754_finite s m e =>
      let n := if 0 <=? e then Z.pos m * 2 ^ e else Z.pos m / 2 ^ (- e) in
      Some (if s then - n else n)
  | _ => None
  end.

(** [uint64(x)] and [int64(x)]: Go leaves the value of a conversion out of range
    to the architecture, [outside]. *)
Definition f64_to_uint64 (outside : float64 -> Z) (x : float64) : Z :=
  match f64_trunc x with
  | Some n => if (0 <=? n) && (n <? 2 ^ 64) then n else u64 (outside x)
  | None => u64 (outside x)
  end.

Definition f64_to_int64 (outside : float64 -> Z) (x : float64) : Z :=
  match f64_trunc x with
  | Some n => if (minDuration <=? n) && (n <=? maxDuration) then n else outside x
  | None => outside x
  end.

(** [time.Duration.Seconds] *)
Definition durationSeconds (d : Z) : float64 :=
  f64_add (f64_of_Z (Z.quot d second)) (f64_div (f64_of_Z (Z.rem d second)) (f64_of_Z 1000000000)).

(** ** Bit patterns *)

Definition signBit (s : bool) : Z := if s then 2 ^ 63 else 0.

Definition float64bits (x : float64) : Z :=
  match x with
  | S754_zero s => signBit s
  | S754_infinity s => signBit s + 2047 * 2 ^ 52
  | S754_nan => 2047 * 2 ^ 52 + 2 ^ 51 + 1
  | S754_finite s m e =>
      if Z.pos m <? 2 ^ 52 then signBit s + Z.pos m
      else signBit s + (e + 1075) * 2 ^ 52 + (Z.pos m - 2 ^ 52)
  end.

Definition float64frombits (b : Z) : float64 :=
  let s := b / 2 ^ 63 mod 2 =? 1 in
  let exponent := b / 2 ^ 52 mod 2048 in
  let mantissa := b mod 2 ^ 52 in
  if exponent =? 0 then
    match mantissa with Z.pos m => S754_finite s m (-1074) | _ => S754_zero s end
  else if exponent =? 2047 then if mantissa =? 0 then S754_infinity s else S754_nan
  else match mantissa + 2 ^ 52 with Z.pos m => S754_finite s m (exponent - 1075) | _ => S754_nan end.

Definition f64_valid (x : float64) : Prop := valid_binary 53 1024 x = true.

(** ** Lemmas *)

Lemma digits_log2 m : Z.pos (digits2_pos m) = Z.log2 (Z.pos m) + 1.
Proof.
  induction m as [m IH|m IH|]; cbn [digits2_pos]; [| |done]; rewrite Pos2Z.inj_succ, IH.
  - rewrite Pos2Z.inj_xI, Z.log2_succ_double by lia. lia.
  - rewrite Pos2Z.inj_xO, Z.log2_double by lia. lia.
Qed.

(** A finite number is normal, or subnormal at the least exponent. *)
Lemma valid_finite s m e : f64_valid (S754_finite s m e) ->
  (2 ^ 52 <= Z.pos m < 2 ^ 53 /\ -1074 <= e <= 971) \/ (Z.pos m < 2 ^ 52 /\ e = -1074).
Proof.
  unfold f64_valid. cbn [valid_binary]. unfold bounded, canonical_mantissa, fexp, emin. rewrite digits_log2. intros H.
  apply andb_true_iff in H as [H1 H2]. apply Z.eqb_eq in H1. apply Z.leb_le in H2.
  pose proof (Z.log2_spec (Z.pos m) ltac:(lia)) as Hl. pose proof (Z.log2_nonneg (Z.pos m)) as Hn.
  destruct (Z.lt_trichotomy (Z.log2 (Z.pos m)) 52) as [H|[H|H]].
  - right. split; [|lia]. apply Z.lt_le_trans with (2 ^ Z.succ (Z.log2 (Z.pos m))); [lia|].
    apply Z.pow_le_mono_r; lia.
  - left. rewrite H in Hl. change (Z.succ 52) with 53 in Hl. lia.
  - lia.
Qed.

(** The bit pattern determines the number. *)
Lemma bits_frombits x : f64_valid x -> float64frombits (float64bits x) = x.
Proof.
  intros Hx. destruct x as [[]|[]| |s m e]; [reflexivity..|]. apply valid_finite in Hx.
  unfold float64bits, signBit.
  destruct (Z.ltb_spec (Z.pos m) (2 ^ 52)) as [Hm|Hm].
  - assert (e = -1074) as -> by lia. unfold float64frombits.
    replace (((if s then 2 ^ 63 else 0) + Z.pos m) / 2 ^ 63 mod 2 =? 1) with s by (destruct s; zlia).
    replace (((if s then 2 ^ 63 else 0) + Z.pos m) / 2 ^ 52 mod 2048) with 0 by (destruct s; zlia).
    replace (((if s then 2 ^ 63 else 0) + Z.pos m) mod 2 ^ 52) with (Z.pos m) by (destruct s; zlia). done.
  - set (mant := Z.pos m - 2 ^ 52). set (biased := e + 1075). assert (0 <= mant < 2 ^ 52) as Hmant by lia.
    assert (0 < biased < 2047) as Hb by lia. unfold float64frombits.
    replace (((if s then 2 ^ 63 else 0) + biased * 2 ^ 52 + mant) / 2 ^ 63 mod 2 =? 1) with s by (destruct s; zlia).
    replace (((if s then 2 ^ 63 else 0) + biased * 2 ^ 52 + mant) / 2 ^ 52 mod 2048) with biased by (destruct s; zlia).
    replace (((if s then 2 ^ 63 else 0) + biased * 2 ^ 52 + mant) mod 2 ^ 52) with mant by (destruct s; zlia).
    replace (biased =? 0) with false by lia. replace (biased =? 2047) with false by lia.
    replace (mant + 2 ^ 52) with (Z.pos m) by lia. by replace (biased - 1075) with e by lia.
Qed.

Lemma bits_range x : f64_valid x -> 0 <= float64bits x < 2 ^ 64.
Proof.
  intros Hx. destruct x as [s|s| |s m e]; cbn [float64bits]; unfold signBit; [destruct s; lia..|lia|].
  apply valid_finite in Hx. destruct (_ <? _) eqn:E; destruct s; lia.
Qed.

Lemma ldiff_sub a b : a .&^ b = a - (a .& b).
Proof.
  pose proof (Z.lor_ldiff_and a b) as H. rewrite lor_add in H; [lia|].
  apply Z.bits_inj'. intros n Hn. rewrite !Z.land_spec, Z.ldiff_spec, Z.bits_0.
  by destruct (Z.testbit a n), (Z.testbit b n).
Qed.

Lemma ldiff_lor a b : (a .| b) .&^ b = a .&^ b.
Proof.
  apply Z.bits_inj'. intros n Hn. rewrite !Z.ldiff_spec, Z.lor_spec.
  by destruct (Z.testbit a n), (Z.testbit b n).
Qed.

Lemma land_lor_same a b : (a .| b) .& b = b.
Proof.
  apply Z.bits_inj'. intros n Hn. rewrite Z.land_spec, Z.lor_spec. by destruct (Z.testbit a n), (Z.testbit b n).
Qed.

(** Clearing the sign bit is the absolute value. *)
Lemma bits_abs x : f64_valid x -> float64frombits (float64bits x .&^ 2 ^ 63) = SFabs x.
Proof.
  intros Hx. assert (f64_valid (SFabs x)) as Ha by (by destruct x).
  rewrite <- (bits_frombits _ Ha) at 1. f_equal. pose proof (bits_range _ Ha) as Hr.
  assert (float64bits (SFabs x) < 2 ^ 63) as Hs.
  { destruct x as [s|s| |s m e]; cbn [SFabs float64bits]; unfold signBit; try lia.
    apply valid_finite in Hx. destruct (_ <? _); lia. }
  assert (exists s, float64bits x = signBit s + float64bits (SFabs x)) as [s ->].
  { destruct x as [s|s| |s m e]; [exists s|exists s|exists false|exists s]; cbn [SFabs float64bits signBit]; try lia.
    destruct (_ <? _); lia. }
  rewrite ldiff_sub, land_pow2 by lia. destruct s; unfold signBit; zlia.
Qed.
