(* ===== verification/FloatBounds.v ===== *)
(** * Bounds of rounded arithmetic

    The double-precision operations of [Float64.v] pass no integer bound, upper or
    lower, that the exact result respects: enough to bound what the congestion
    controllers compute in floating point. *)

From S2P Require Import Prelude Float64.

(** ** Shifting right with rounding information *)

(** The least integer not below the number a record stands for. *)
Definition ceiling (mrs : shr_record) : Z := shr_m mrs + Z.b2z (shr_r mrs || shr_s mrs).

Definition ceilingAt (m : Z) (l : location) : Z := match l with loc_Exact => m | loc_Inexact _ => m + 1 end.

Lemma ceiling_of m l : ceiling (shr_record_of_loc m l) = ceilingAt m l.
Proof. unfold ceiling, ceilingAt. destruct l as [|[] ]; cbn; lia. Qed.

Lemma shr_1_ceiling mrs k : 0 <= shr_m mrs -> ceiling mrs <= 2 * k -> 0 <= shr_m (shr_1 mrs) /\ ceiling (shr_1 mrs) <= k.
Proof.
  destruct mrs as [m r s]. unfold ceiling. cbn [shr_m shr_r shr_s]. intros Hm H.
  destruct m as [|[p|p|]|]; cbn -[Z.mul Z.add] in *; destruct r, s; cbn in *; lia.
Qed.

Lemma shr_iter_ceiling p : forall mrs k, 0 <= shr_m mrs -> ceiling mrs <= 2 ^ Z.pos p * k ->
  0 <= shr_m (iter_pos shr_1 p mrs) /\ ceiling (iter_pos shr_1 p mrs) <= k.
Proof.
  induction p as [p IH|p IH|]; intros mrs k Hm H; cbn [iter_pos].
  - replace (2 ^ Z.pos (xI p) * k) with (2 * (2 ^ Z.pos p * (2 ^ Z.pos p * k))) in H
      by (replace (Z.pos (xI p)) with (1 + Z.pos p + Z.pos p) by lia; rewrite !Z.pow_add_r by lia; lia).
    apply shr_1_ceiling in H as [H1 H2]; [|done]. apply IH in H2 as [H2 H3]; [|done]. by apply IH in H3.
  - replace (2 ^ Z.pos (xO p) * k) with (2 ^ Z.pos p * (2 ^ Z.pos p * k)) in H
      by (replace (Z.pos (xO p)) with (Z.pos p + Z.pos p) by lia; rewrite !Z.pow_add_r by lia; lia).
    apply IH in H as [H1 H2]; [|done]. by apply IH in H2.
  - by apply shr_1_ceiling.
Qed.

(** Shifting keeps a lower bound. *)
Lemma shr_1_floor mrs k : 0 <= k -> 2 * k <= shr_m mrs -> k <= shr_m (shr_1 mrs).
Proof. destruct mrs as [m r s]. cbn [shr_m]. intros Hk H. destruct m as [|[p|p|]|]; cbn -[Z.mul Z.add] in *; lia. Qed.

Lemma shr_iter_floor p : forall mrs k, 0 <= k -> 2 ^ Z.pos p * k <= shr_m mrs -> k <= shr_m (iter_pos shr_1 p mrs).
Proof.
  induction p as [p IH|p IH|]; intros mrs k Hk H; cbn [iter_pos].
  - replace (2 ^ Z.pos (xI p) * k) with (2 * (2 ^ Z.pos p * (2 ^ Z.pos p * k))) in H
      by (replace (Z.pos (xI p)) with (1 + Z.pos p + Z.pos p) by lia; rewrite !Z.pow_add_r by lia; lia).
    apply IH; [done|]. apply IH; [nia|]. apply shr_1_floor; [nia|done].
  - replace (2 ^ Z.pos (xO p) * k) with (2 ^ Z.pos p * (2 ^ Z.pos p * k)) in H
      by (replace (Z.pos (xO p)) with (Z.pos p + Z.pos p) by lia; rewrite !Z.pow_add_r by lia; lia).
    apply IH; [done|]. apply IH; [nia|done].
  - by apply shr_1_floor.
Qed.

Lemma fexp_small m e n : 0 <= m -> m <= n * 2 ^ (- e) -> 0 <= n < 2 ^ 53 -> e <= 0 -> fexp 53 1024 (Zdigits2 m + e) <= 0.
Proof.
  intros Hm H Hn He. unfold fexp, emin. assert (Zdigits2 m + e <= 53) as Hd; [|lia].
  destruct m as [|m|m]; [cbn; lia| |lia]. cbn [Zdigits2]. rewrite digits_log2.
  assert (Z.pos m < 2 ^ (53 - e)) as Hlt by (replace (53 - e) with (53 + - e) by lia; rewrite Z.pow_add_r by lia; nia).
  apply Z.log2_lt_pow2 in Hlt; lia.
Qed.

Lemma shr_fexp_bounds m e l lo n : 0 <= lo -> lo * 2 ^ (- e) <= m -> e <= 0 -> 0 <= n < 2 ^ 53 -> ceilingAt m l <= n * 2 ^ (- e) ->
  let '(mrs, e') := shr_fexp 53 1024 m e l in
  e' <= 0 /\ lo * 2 ^ (- e') <= shr_m mrs /\ 0 <= shr_m mrs /\ ceiling mrs <= n * 2 ^ (- e').
Proof.
  intros Hlo Hl He Hn H. assert (0 <= m) as Hm by (pose proof (Z.pow_nonneg 2 (- e) ltac:(lia)); nia). assert (m <= n * 2 ^ (- e)) as Hm' by (destruct l; cbn in H; lia).
  pose proof (fexp_small m e n Hm Hm' Hn He) as Hf. unfold shr_fexp. set (k := fexp _ _ _ - e). unfold shr.
  assert (shr_m (shr_record_of_loc m l) = m) as Em by (by destruct l as [|[]]).
  rewrite <- ceiling_of in H. destruct k as [|p|p] eqn:Ek; [by rewrite Em|..|by rewrite Em].
  assert (forall z, 2 ^ Z.pos p * (z * 2 ^ (- (e + Z.pos p))) = z * 2 ^ (- e)) as E
    by (intros z; replace (- e) with (Z.pos p + - (e + Z.pos p)) at 1 by lia; rewrite Z.pow_add_r by lia; lia).
  pose proof (Z.pow_nonneg 2 (- (e + Z.pos p)) ltac:(lia)).
  split; [lia|]. split; [apply shr_iter_floor; [nia|by rewrite E, Em]|]. apply shr_iter_ceiling; [lia|by rewrite E].
Qed.

Lemma round_ceiling mrs : shr_m mrs <= round_nearest_even (shr_m mrs) (loc_of_shr_record mrs) <= ceiling mrs.
Proof. destruct mrs as [m [] []]; unfold ceiling; cbn; try lia. destruct (Z.even m); lia. Qed.

(** ** Numbers between two integers *)

Definition between (x : float64) (lo hi : Z) : Prop :=
  match x with
  | S754_zero _ => lo <= 0
  | S754_finite false m e => e <= 0 /\ lo * 2 ^ (- e) <= Z.pos m <= hi * 2 ^ (- e)
  | _ => False
  end.

Definition atMost (x : float64) (n : Z) : Prop := between x 0 n.

Lemma between_mono x lo hi lo' hi' : lo' <= lo -> hi <= hi' -> between x lo hi -> between x lo' hi'.
Proof. destruct x as [| | |[] m e]; cbn; try done; [lia|]. intros Hl Hh [He H]. split; [done|]. nia. Qed.

Lemma round_aux_between m e l lo n : 0 <= lo -> lo * 2 ^ (- e) <= m -> e <= 0 -> 0 <= n < 2 ^ 53 -> ceilingAt m l <= n * 2 ^ (- e) ->
  between (binary_round_aux 53 1024 false m e l) lo n.
Proof.
  intros Hlo Hl He Hn H. unfold binary_round_aux. pose proof (shr_fexp_bounds m e l lo n Hlo Hl He Hn H) as H1.
  destruct (shr_fexp 53 1024 m e l) as [mrs e1]. destruct H1 as (He1 & Hl1 & Hm1 & Hc1). pose proof (round_ceiling mrs) as Hr.
  set (m1 := round_nearest_even _ _) in *. clearbody m1.
  pose proof (shr_fexp_bounds m1 e1 loc_Exact lo n Hlo ltac:(lia) He1 Hn ltac:(cbn; lia)) as H2.
  destruct (shr_fexp 53 1024 m1 e1 loc_Exact) as [mrs2 e2]. destruct H2 as (He2 & Hl2 & Hm2 & Hc2).
  pose proof (Z.pow_pos_nonneg 2 (- e2) ltac:(lia) ltac:(lia)).
  unfold ceiling in Hc2. destruct (shr_m mrs2) as [|p|p]; [cbn; nia| |lia].
  replace (e2 <=? 1024 - 53) with true by lia. cbn. split; [done|]. destruct (_ || _) in Hc2; cbn in Hc2; lia.
Qed.

Lemma shl_align_value m e e' : e' <= 0 -> e <= 0 -> let '(m', f) := shl_align m e e' in
  f <= 0 /\ f <= e /\ Z.pos m' = Z.pos m * 2 ^ (e - f).
Proof.
  intros He' He. unfold shl_align. destruct (e' - e) as [|d|d] eqn:E; [split_and!; [lia|lia|rewrite Z.sub_diag; lia]..|].
  split; [lia|]. split; [lia|]. replace (e - e') with (Z.pos d) by lia. clear E.
  rewrite <- (shift_pos_equiv d m) || idtac.
  revert m. induction d as [|d IH] using Pos.peano_ind; intros m; [cbn; lia|].
  rewrite Pos.iter_succ, Pos2Z.inj_xO, IH, Pos2Z.inj_succ, Z.pow_succ_r by lia. lia.
Qed.

Lemma normalize_between z e lo n : 0 <= lo -> lo * 2 ^ (- e) <= z -> e <= 0 -> 0 <= n < 2 ^ 53 -> z <= n * 2 ^ (- e) ->
  between (binary_normalize 53 1024 z e false) lo n.
Proof.
  intros Hlo Hl He Hn H. pose proof (Z.pow_pos_nonneg 2 (- e) ltac:(lia) ltac:(lia)). destruct z as [|m|m]; [cbn; nia| |nia]. unfold binary_normalize, binary_round.
  pose proof (fexp_small (Z.pos m) e n ltac:(lia) H Hn He) as Hf. cbn [Zdigits2] in Hf.
  pose proof (shl_align_value m e (fexp 53 1024 (Z.pos (digits2_pos m) + e)) Hf He) as Hs.
  destruct (shl_align _ _ _) as [m' f]. destruct Hs as (H1 & H2 & H3). assert (- f = - e + (e - f)) as Ef by lia.
  apply round_aux_between; [done| |done|done|cbn]; rewrite H3, Ef, Z.pow_add_r by lia; nia.
Qed.

Lemma of_Z_atMost z : 0 <= z < 2 ^ 53 -> atMost (f64_of_Z z) z.
Proof. intros H. apply normalize_between; [lia|cbn; lia|lia|lia|]. change (2 ^ (- 0)) with 1. lia. Qed.

Lemma of_Z_between z : 0 <= z < 2 ^ 53 -> between (f64_of_Z z) z z.
Proof. intros H. apply normalize_between; change (2 ^ (- 0)) with 1; lia. Qed.

(** ** Integers are exact *)

Definition isInteger (x : float64) (z : Z) : Prop :=
  match x with
  | S754_finite false m e => e <= 0 /\ Z.pos m = z * 2 ^ (- e)
  | _ => False
  end.

Lemma round_aux_canonical m e : fexp 53 1024 (Z.pos (digits2_pos m) + e) = e -> e <= 971 ->
  binary_round_aux 53 1024 false (Z.pos m) e loc_Exact = S754_finite false m e.
Proof.
  intros Hf He. assert (shr_fexp 53 1024 (Z.pos m) e loc_Exact = (Build_shr_record (Z.pos m) false false, e)) as E.
  { unfold shr_fexp. cbn [Zdigits2]. by rewrite Hf, Z.sub_diag. }
  unfold binary_round_aux. rewrite E. cbn [shr_m loc_of_shr_record round_nearest_even]. rewrite E. cbn [shr_m].
  by replace (e <=? 1024 - 53) with true by lia.
Qed.

Lemma of_Z_exact z : 0 < z < 2 ^ 53 -> isInteger (f64_of_Z z) z.
Proof.
  intros H. destruct z as [|p|p]; [lia| |lia]. unfold f64_of_Z, binary_normalize, binary_round.
  pose proof (fexp_small (Z.pos p) 0 (Z.pos p) ltac:(lia) ltac:(cbn; lia) ltac:(lia) ltac:(lia)) as Hf. cbn [Zdigits2] in Hf.
  set (f := fexp 53 1024 (Z.pos (digits2_pos p) + 0)) in *.
  pose proof (shl_align_value p 0 f Hf ltac:(lia)) as Hs.
  assert (snd (shl_align p 0 f) = f) as Ef.
  { unfold shl_align. rewrite Z.sub_0_r. destruct f; [done|lia|done]. }
  destruct (shl_align p 0 f) as [m' f']. cbn [snd] in Ef. subst f'. destruct Hs as (_ & _ & Hm). rewrite Z.sub_0_l in Hm.
  rewrite round_aux_canonical; [by split| |lia].
  transitivity (fexp 53 1024 (Z.pos (digits2_pos p) + 0)); [|done]. f_equal.
  rewrite !digits_log2, Hm, Z.log2_mul_pow2 by lia. lia.
Qed.

(** ** The operations *)

Lemma mul_between x y a b a' b' : 0 <= a -> 0 <= b -> a' * b' < 2 ^ 53 -> between x a a' -> between y b b' ->
  between (f64_mul x y) (a * b) (a' * b').
Proof.
  intros Ha Hb Hab Hx Hy. unfold f64_mul.
  destruct x as [s| | |[] m e]; cbn in Hx; try done; destruct y as [s'| | |[] m' e']; cbn in Hy; try done; [cbn; nia..|].
  destruct Hx as [He Hm], Hy as [He' Hm']. cbn [SFmul xorb].
  assert (2 ^ (- (e + e')) = 2 ^ (- e) * 2 ^ (- e')) as E by (replace (- (e + e')) with (- e + - e') by lia; by rewrite Z.pow_add_r by lia).
  pose proof (Z.pow_pos_nonneg 2 (- e) ltac:(lia) ltac:(lia)). pose proof (Z.pow_pos_nonneg 2 (- e') ltac:(lia) ltac:(lia)).
  assert (0 <= a' /\ 0 <= b') as [Ha' Hb'] by nia.
  apply round_aux_between; [nia| |lia|nia|cbn]; rewrite E; [|].
  - replace (a * b * (2 ^ (- e) * 2 ^ (- e'))) with ((a * 2 ^ (- e)) * (b * 2 ^ (- e'))) by lia. rewrite Pos2Z.inj_mul. apply Z.mul_le_mono_nonneg; nia.
  - replace (a' * b' * (2 ^ (- e) * 2 ^ (- e'))) with ((a' * 2 ^ (- e)) * (b' * 2 ^ (- e'))) by lia. rewrite Pos2Z.inj_mul. apply Z.mul_le_mono_nonneg; lia.
Qed.

Lemma aligned_value m e ez : ez <= e -> e <= 0 -> Z.pos (fst (shl_align m e ez)) = Z.pos m * 2 ^ (e - ez).
Proof.
  intros Hz He. pose proof (shl_align_value m e ez ltac:(lia) He) as Hs.
  assert (snd (shl_align m e ez) = ez) as Ef by (unfold shl_align; destruct (ez - e) eqn:E; cbn; lia).
  destruct (shl_align m e ez) as [m' f]. cbn [fst snd] in *. subst f. by destruct Hs as (_ & _ & ->).
Qed.

Lemma aligned_bounds m e ez lo n : ez <= e -> e <= 0 -> lo * 2 ^ (- e) <= Z.pos m <= n * 2 ^ (- e) ->
  lo * 2 ^ (- ez) <= Z.pos (fst (shl_align m e ez)) <= n * 2 ^ (- ez).
Proof.
  intros Hz He H. rewrite aligned_value by done. replace (- ez) with (- e + (e - ez)) by lia. rewrite Z.pow_add_r by lia. nia.
Qed.

Lemma add_between x y a b a' b' : 0 <= a <= a' -> 0 <= b <= b' -> a' + b' < 2 ^ 53 -> between x a a' -> between y b b' ->
  between (f64_add x y) (a + b) (a' + b').
Proof.
  intros Ha Hb Hab Hx Hy. unfold f64_add. destruct x as [s| | |[] m e]; cbn in Hx; try done; destruct y as [s'| | |[] m' e']; cbn in Hy; try done.
  - cbn. destruct s, s'; cbn; lia.
  - cbn. split; [lia|]. nia.
  - cbn. split; [lia|]. nia.
  - destruct Hx as [He Hm], Hy as [He' Hm']. cbn [SFadd cond_Zopp].
    pose proof (aligned_bounds m e (Z.min e e') a a' ltac:(lia) He Hm). pose proof (aligned_bounds m' e' (Z.min e e') b b' ltac:(lia) He' Hm').
    apply normalize_between; lia.
Qed.

Lemma div_exponent m e m' e' z n : e <= 0 -> e' <= 0 -> 0 < z -> 0 <= n < 2 ^ 53 -> Z.pos m <= n * z * 2 ^ (- e) ->
  Z.pos m' = z * 2 ^ (- e') -> Z.log2 (Z.pos m) + e <= 53 + (Z.log2 (Z.pos m') + e').
Proof.
  intros He He' Hz Hn Hm Hm'.
  pose proof (Z.log2_spec (Z.pos m) ltac:(lia)) as [L1 _]. pose proof (Z.log2_spec (Z.pos m') ltac:(lia)) as [_ L2].
  pose proof (Z.log2_nonneg (Z.pos m)). pose proof (Z.log2_nonneg (Z.pos m')).
  set (a := Z.log2 (Z.pos m)) in *. set (b := Z.log2 (Z.pos m')) in *.
  clearbody a b. destruct (Z.le_gt_cases (a + e) (53 + (b + e'))) as [|Hge]; [done|exfalso].
  pose proof (Z.mul_le_mono_nonneg_r _ _ (2 ^ (- e')) ltac:(apply Z.pow_nonneg; lia) (Z.le_trans _ _ _ L1 Hm)) as B1.
  replace (n * z * 2 ^ (- e) * 2 ^ (- e')) with (n * (z * 2 ^ (- e')) * 2 ^ (- e)) in B1 by lia. rewrite <- Hm' in B1.
  assert (0 < 2 ^ (- e)) by (apply Z.pow_pos_nonneg; lia).
  assert (n * Z.pos m' < 2 ^ 53 * 2 ^ Z.succ b) as B0 by nia.
  pose proof (proj1 (Z.mul_lt_mono_pos_r (2 ^ (- e)) _ _ ltac:(lia)) B0) as B2.
  rewrite <- !Z.pow_add_r in B2 by lia. rewrite <- Z.pow_add_r in B1 by lia.
  assert (2 ^ (53 + Z.succ b + - e) <= 2 ^ (a + - e')) by (apply Z.pow_le_mono_r; lia). lia.
Qed.

Lemma div_core m e m' e' z lo n : e <= 0 -> e' <= 0 -> 0 < z -> 0 <= lo -> 0 <= n < 2 ^ 53 ->
  lo * z * 2 ^ (- e) <= Z.pos m <= n * z * 2 ^ (- e) -> Z.pos m' = z * 2 ^ (- e') ->
  between (f64_div (S754_finite false m e) (S754_finite false m' e')) lo n.
Proof.
  intros He He' Hz Hlo Hn [Hl Hm] Hm'. unfold f64_div, SFdiv. cbn [xorb]. unfold SFdiv_core_binary. cbn [Zdigits2].
  set (d := fexp 53 1024 _).
  assert (d <= 0) as Hd.
  { pose proof (div_exponent m e m' e' z n He He' Hz Hn Hm Hm'). unfold d, fexp, emin. rewrite !digits_log2. lia. }
  set (f := Z.min d (e - e')). assert (0 <= e - e' - f) as Hs by lia. assert (f <= 0) as Hf by lia.
  replace (match e - e' - f with 0 => Z.pos m | Z.pos _ => Z.shiftl (Z.pos m) (e - e' - f) | Z.neg _ => 0 end)
    with (Z.pos m * 2 ^ (e - e' - f)) by (destruct (e - e' - f) eqn:E; [lia|by rewrite Z.shiftl_mul_pow2|lia]).
  pose proof (Z_div_mod (Z.pos m * 2 ^ (e - e' - f)) (Z.pos m') ltac:(lia)) as Hq.
  destruct (Z.div_eucl _ _) as [q r]. destruct Hq as [Hq Hr].
  assert (forall k, k * 2 ^ (- f) * Z.pos m' = k * z * 2 ^ (- e) * 2 ^ (e - e' - f)) as Hk.
  { intros k. rewrite Hm'. rewrite <- !Z.mul_assoc. rewrite <- Z.pow_add_r by lia.
    replace (2 ^ (- f) * (z * 2 ^ (- e'))) with (z * (2 ^ (- f) * 2 ^ (- e'))) by lia.
    rewrite <- Z.pow_add_r by lia. do 3 f_equal. lia. }
  assert (lo * 2 ^ (- f) * Z.pos m' <= Z.pos m * 2 ^ (e - e' - f) <= n * 2 ^ (- f) * Z.pos m') as Hle
    by (rewrite !Hk; pose proof (Z.pow_nonneg 2 (e - e' - f) ltac:(lia)); nia).
  set (k := n * 2 ^ (- f)) in *. set (k' := lo * 2 ^ (- f)) in *.
  apply round_aux_between; [done|fold k'; clearbody k'; nia|done|done|fold k; clearbody k].
  assert (ceilingAt q (new_location (Z.pos m') r) = if r =? 0 then q else q + 1) as ->
    by (unfold new_location, new_location_even, new_location_odd, ceilingAt; destruct (Z.even _), (r =? 0); done).
  destruct (Z.eqb_spec r 0); nia.
Qed.

Lemma div_between x y a a' z lo n : 0 < z -> 0 <= lo -> 0 <= n < 2 ^ 53 -> lo * z <= a -> a' <= n * z -> between x a a' -> isInteger y z ->
  between (f64_div x y) lo n.
Proof.
  intros Hz Hlo Hn Ha Ha' Hx Hy. destruct y as [| | |[] m' e']; cbn in Hy; try done. destruct Hy as [He' Hm'].
  destruct x as [s| | |[] m e]; cbn in Hx; try done; [cbn; nia|]. destruct Hx as [He Hm].
  apply (div_core m e m' e' z lo n); try done. pose proof (Z.pow_nonneg 2 (- e) ltac:(lia)). nia.
Qed.

(** ** Whole part and remainder *)

Lemma trunc_between x lo n : 0 <= lo <= n -> between x lo n -> exists k, f64_trunc x = Some k /\ lo <= k <= n /\
  match x with S754_finite _ m e => k * 2 ^ (- e) <= Z.pos m < (k + 1) * 2 ^ (- e) | _ => k = 0 end.
Proof.
  intros Hn Hx. destruct x as [s| | |[] m e]; cbn in Hx; try done; [exists 0; split_and!; [done|lia..]|].
  destruct Hx as [He Hm]. pose proof (Z.pow_pos_nonneg 2 (- e) ltac:(lia) ltac:(lia)) as Hp. unfold f64_trunc.
  exists (Z.pos m / 2 ^ (- e)).
  assert (Z.pos m / 2 ^ (- e) * 2 ^ (- e) <= Z.pos m < (Z.pos m / 2 ^ (- e) + 1) * 2 ^ (- e)) as Hd
    by (pose proof (Z.div_mod (Z.pos m) (2 ^ (- e)) ltac:(lia)); pose proof (Z.mod_pos_bound (Z.pos m) (2 ^ (- e)) Hp); nia).
  split; [|split; [|exact Hd]].
  - destruct (Z.leb_spec 0 e); [|done]. replace e with 0 by lia. cbn. by rewrite Z.div_1_r, Z.mul_1_r.
  - split; [apply Z.div_le_lower_bound; lia|apply Z.div_le_upper_bound; lia].
Qed.

(** What is left after the whole part is taken out is at most one. *)
Lemma sub_whole x n k : 0 <= n < 2 ^ 53 -> atMost x n -> f64_trunc x = Some k -> 0 < k -> atMost (f64_sub x (f64_of_Z k)) 1.
Proof.
  intros Hn Hx Ht Hk. destruct (trunc_between x 0 n ltac:(lia) Hx) as (k' & Ht' & Hk' & Hb). rewrite Ht in Ht'. injection Ht' as <-.
  pose proof (of_Z_exact k ltac:(lia)) as Hi. destruct x as [s| | |[] m e]; cbn in Hx; try done; [lia|]. destruct Hx as [He Hm].
  unfold f64_sub. destruct (f64_of_Z k) as [| | |[] m' e']; cbn in Hi; try done. destruct Hi as [He' Hm']. cbn [SFsub cond_Zopp].
  set (ez := Z.min e e').
  pose proof (aligned_value m e ez ltac:(lia) He) as E1. pose proof (aligned_value m' e' ez ltac:(lia) He') as E2.
  rewrite Hm', <- Z.mul_assoc, <- Z.pow_add_r in E2 by lia. replace (- e' + (e' - ez)) with (- e + (e - ez)) in E2 by lia.
  rewrite Z.pow_add_r in E2 by lia. pose proof (Z.pow_pos_nonneg 2 (e - ez) ltac:(lia) ltac:(lia)) as Hp.
  apply normalize_between; [lia|rewrite E1, E2; nia|lia|lia|]. rewrite E1, E2.
  replace (- ez) with (- e + (e - ez)) by lia. rewrite Z.pow_add_r by lia. nia.
Qed.
