(* ===== verification/DeliveryRate.v ===== *)
(** * Delivery-rate sampling

    The delivery accounting of [congestion_rate.go]: per-transmission
    snapshots, the selection of the range that forms an ACK's sample, and the
    estimator that turns it into a rate observation. *)

From stdpp Require Import sets.
From S2P Require Import Prelude SeqNum Rtt Windows Scoreboard.

(** ** Compact stamps *)

(** A [tcpDeliveryTimestamp] is a wrapping 32-bit count of microseconds, zero
    when unset. *)
Definition tcpDeliveryTimestampAt (stamp : Z) : Z :=
  if stamp =? 0 then 0
  else
    let value := u32 (u64 (stamp - 1) / microsecond + 1) in
    if value =? 0 then 1 else value.

Definition tcpDeliveryTimestampDuration (later earlier : Z) : Z :=
  if (later =? 0) || (earlier =? 0) then 0
  else
    let delta := later ⊟ earlier in
    if delta =? 0 then 0 else delta * microsecond.

Definition tcpDeliveryApplicationLimited : Z := Z.shiftl 1 31.
Definition tcpDeliveryDeliveredMask : Z := tcpDeliveryApplicationLimited - 1.

(** ** Snapshots *)

Definition snapshotDelivered (s : tcpDeliverySnapshot) : Z :=
  ds_deliveredFlags s .& tcpDeliveryDeliveredMask.

Definition snapshotApplicationLimited (s : tcpDeliverySnapshot) : bool :=
  negb (ds_deliveredFlags s .& tcpDeliveryApplicationLimited =? 0).

Definition tcpDeliveryAfterEqual (value reference : Z) : bool :=
  let delta := (value ⊟ reference) .& tcpDeliveryDeliveredMask in
  (delta =? 0) || (delta <? tcpDeliveryApplicationLimited / 2).

(** ** Samples *)

Record CongestionRateSample := mkRateSample {
  rs_priorDelivered : Z;
  rs_priorDeliveredTotal : Z;
  rs_delivered : Z;
  rs_acked : Z;
  rs_losses : Z;
  rs_priorInFlight : Z;
  rs_inFlight : Z;
  rs_interval : Z;
  rs_rtt : Z;
  rs_smoothedRTT : Z;
  rs_ackTime : Z;
  rs_ackStamp : Z;
  rs_lossEvidenceInvalid : bool;
  rs_lastSent : Z;
  rs_lastEnd : Z;
  rs_lastOrder : Z;
  rs_applicationLimited : bool;
  rs_schedulerLimited : bool;
  rs_retransmitted : bool;
  rs_recovery : bool;
  rs_fastRecovery : bool;
  rs_ackDelayed : bool;
  rs_tailLossProbeACK : bool;
  rs_valid : bool;
  rs_packetState : Z;
  rs_firstSent : Z;
  rs_priorStamp : Z }.

#[export] Instance CongestionRateSample_settable : Settable CongestionRateSample := fun s =>
  mkRateSample (rs_priorDelivered s) (rs_priorDeliveredTotal s) (rs_delivered s) (rs_acked s) (rs_losses s)
    (rs_priorInFlight s) (rs_inFlight s) (rs_interval s) (rs_rtt s) (rs_smoothedRTT s) (rs_ackTime s)
    (rs_ackStamp s) (rs_lossEvidenceInvalid s) (rs_lastSent s) (rs_lastEnd s) (rs_lastOrder s)
    (rs_applicationLimited s) (rs_schedulerLimited s) (rs_retransmitted s) (rs_recovery s)
    (rs_fastRecovery s) (rs_ackDelayed s) (rs_tailLossProbeACK s) (rs_valid s) (rs_packetState s)
    (rs_firstSent s) (rs_priorStamp s).

Definition zeroRateSample : CongestionRateSample :=
  mkRateSample 0 0 0 0 0 0 0 0 0 0 0 0 false 0 0 0 false false false false false false false false 0 0 0.

(** [PacketLossEvidenceValid] *)
Definition rs_PacketLossEvidenceValid (s : CongestionRateSample) : bool := negb (rs_lossEvidenceInvalid s).

(** [observe]: the newest transmission among the ranges an ACK delivers. *)
Definition rs_older (s : CongestionRateSample) (segment : sentTCPSegment) : bool :=
  let sent := tk_queuedAt (st_hostQueue segment) in
  negb (rs_priorStamp s =? 0)
  && ((sent <? rs_lastSent s)
      || ((sent =? rs_lastSent s)
          && negb (tcpClockTieTransmissionAfter (st_order segment) (st_end segment)
                     (rs_lastOrder s) (rs_lastEnd s)))).

Definition rs_observe (s : CongestionRateSample) (segment : sentTCPSegment) : CongestionRateSample :=
  let snapshot := st_delivery segment in
  if ds_deliveredStamp snapshot =? 0 then s
  else if rs_older s segment then s
  else
    s <| rs_priorDelivered := snapshotDelivered snapshot |>
      <| rs_priorStamp := ds_deliveredStamp snapshot |>
      <| rs_firstSent := ds_firstSent snapshot |>
      <| rs_lastSent := tk_queuedAt (st_hostQueue segment) |>
      <| rs_lastEnd := st_end segment |>
      <| rs_lastOrder := st_order segment |>
      <| rs_applicationLimited := snapshotApplicationLimited snapshot |>
      <| rs_schedulerLimited := hasState segment sentTCPSegmentDeliverySchedulerLimited |>
      <| rs_retransmitted := isRetransmitted segment |>
      <| rs_packetState := st_packetState segment |>
      <| rs_lossEvidenceInvalid := hasState segment sentTCPSegmentSACKed |>.

(** ** The estimator *)

Record tcpDeliveryRateEstimator := mkEstimator {
  de_delivered : Z;
  de_deliveredStamp : Z;
  de_firstSent : Z;
  de_applicationLimitedUntil : Z;
  de_schedulerLimitedUntil : Z;
  de_schedulerLimitedEvents : Z;
  de_totalLost : Z;
  de_sampledLost : Z }.

#[export] Instance tcpDeliveryRateEstimator_settable : Settable tcpDeliveryRateEstimator := fun d =>
  mkEstimator (de_delivered d) (de_deliveredStamp d) (de_firstSent d) (de_applicationLimitedUntil d)
    (de_schedulerLimitedUntil d) (de_schedulerLimitedEvents d) (de_totalLost d) (de_sampledLost d).

Definition zeroEstimator : tcpDeliveryRateEstimator := mkEstimator 0 0 0 0 0 0 0 0.

Definition restartFlight (d : tcpDeliveryRateEstimator) (stamp : Z) : tcpDeliveryRateEstimator :=
  let compactStamp := tcpDeliveryTimestampAt stamp in
  d <| de_firstSent := compactStamp |> <| de_deliveredStamp := compactStamp |>.

Definition initializeDelivery (d : tcpDeliveryRateEstimator) (stamp : Z) : tcpDeliveryRateEstimator :=
  restartFlight d stamp.

(** The counters an ACK advances, before a sample is formed. *)
Definition advanceDelivered (d : tcpDeliveryRateEstimator) (acknowledged nowStamp : Z)
    : tcpDeliveryRateEstimator :=
  let d := d <| de_sampledLost := de_totalLost d |> in
  let d :=
    if negb (acknowledged =? 0) then
      d <| de_delivered := u64 (de_delivered d + acknowledged) |>
        <| de_deliveredStamp := tcpDeliveryTimestampAt nowStamp |>
    else d in
  let d :=
    if negb (de_applicationLimitedUntil d =? 0) && (de_applicationLimitedUntil d <? de_delivered d)
    then d <| de_applicationLimitedUntil := 0 |> else d in
  if negb (de_schedulerLimitedUntil d =? 0) && (de_schedulerLimitedUntil d <? de_delivered d)
  then d <| de_schedulerLimitedUntil := 0 |> else d.

(** The interval and validity of a sample whose range was selected. *)
Definition closeSample (d : tcpDeliveryRateEstimator) (sample : CongestionRateSample)
    (nowStamp minimumRTT : Z) : tcpDeliveryRateEstimator * CongestionRateSample :=
  let compactNow := tcpDeliveryTimestampAt nowStamp in
  let compactSent := tcpDeliveryTimestampAt (rs_lastSent sample) in
  let d := d <| de_firstSent := compactSent |> in
  let sample :=
    if negb (rs_retransmitted sample) then
      let selectedRTT := tcpDeliveryTimestampDuration compactNow compactSent in
      if 0 <? selectedRTT then sample <| rs_rtt := selectedRTT |> else sample
    else sample in
  let delivered := (u32 (de_delivered d) ⊟ rs_priorDelivered sample) .& tcpDeliveryDeliveredMask in
  let sample := sample <| rs_delivered := delivered |>
                       <| rs_priorDeliveredTotal := u64 (de_delivered d - delivered) |> in
  let sendInterval := tcpDeliveryTimestampDuration compactSent (rs_firstSent sample) in
  let ackInterval := tcpDeliveryTimestampDuration compactNow (rs_priorStamp sample) in
  let interval := if sendInterval <? ackInterval then ackInterval else sendInterval in
  if (interval <=? 0) || ((0 <? minimumRTT) && (interval <? minimumRTT)) then (d, sample)
  else (d, sample <| rs_interval := interval |> <| rs_valid := true |>).

Definition finishRateSample (d : tcpDeliveryRateEstimator) (sample : CongestionRateSample)
    (acknowledged priorInFlight inFlight now nowStamp minimumRTT smoothedRTT sampleRTT : Z)
    : tcpDeliveryRateEstimator * CongestionRateSample :=
  let sample := sample <| rs_acked := acknowledged |> <| rs_priorInFlight := priorInFlight |>
    <| rs_inFlight := inFlight |> <| rs_ackTime := now |> <| rs_rtt := sampleRTT |>
    <| rs_smoothedRTT := smoothedRTT |> <| rs_losses := u64 (de_totalLost d - de_sampledLost d) |> in
  let d := advanceDelivered d acknowledged nowStamp in
  let sample := sample <| rs_ackStamp := de_deliveredStamp d |> in
  if rs_priorStamp sample =? 0 then (d, sample) else closeSample d sample nowStamp minimumRTT.

Definition de_noteLoss (d : tcpDeliveryRateEstimator) (bytes : Z) : tcpDeliveryRateEstimator :=
  d <| de_totalLost := u64 (de_totalLost d + bytes) |>.

Definition recordLoss (d : tcpDeliveryRateEstimator) (bytes : Z) (duringACK : bool)
    : tcpDeliveryRateEstimator :=
  let d := de_noteLoss d bytes in
  if negb duringACK then d <| de_sampledLost := de_totalLost d |> else d.

Definition deliveryLimit (d : tcpDeliveryRateEstimator) (flight : Z) : Z :=
  let limit := u64 (de_delivered d + flight) in
  if limit =? 0 then 1 else limit.

Definition de_markApplicationLimited (d : tcpDeliveryRateEstimator) (flight : Z)
    : tcpDeliveryRateEstimator :=
  d <| de_applicationLimitedUntil := deliveryLimit d flight |>.

Definition de_markSchedulerLimited (d : tcpDeliveryRateEstimator) (flight : Z)
    : tcpDeliveryRateEstimator :=
  let limit := deliveryLimit d flight in
  let d := if de_schedulerLimitedUntil d <? limit then d <| de_schedulerLimitedUntil := limit |> else d in
  d <| de_schedulerLimitedEvents := u64 (de_schedulerLimitedEvents d + 1) |>.

Definition de_schedulerLimited (d : tcpDeliveryRateEstimator) : bool :=
  negb (de_schedulerLimitedUntil d =? 0).

Definition de_snapshot (d : tcpDeliveryRateEstimator) : tcpDeliverySnapshot :=
  let deliveredFlags := u32 (de_delivered d) .& tcpDeliveryDeliveredMask in
  let deliveredFlags :=
    if negb (de_applicationLimitedUntil d =? 0)
    then deliveredFlags .| tcpDeliveryApplicationLimited else deliveredFlags in
  mkSnapshot (de_firstSent d) (de_deliveredStamp d) deliveredFlags.

Definition onDeliveryDataSent (d : tcpDeliveryRateEstimator) (stamp packetsOut window : Z)
    : tcpDeliveryRateEstimator * (tcpDeliverySnapshot * Z) :=
  let d := if packetsOut =? 0 then restartFlight d stamp else d in
  (d, (de_snapshot d, window)).

Definition onDeliveryRetransmit (d : tcpDeliveryRateEstimator) (stamp packetsOut : Z)
    : tcpDeliveryRateEstimator * tcpDeliverySnapshot :=
  let d := if packetsOut =? 0 then restartFlight d stamp else d in
  (d, de_snapshot d).

(** ** Histories *)

Inductive rateEvent :=
| RateSent (stamp packetsOut window : Z)
| RateRetransmitted (stamp packetsOut : Z)
| RateAcked (sample : CongestionRateSample)
    (acknowledged priorInFlight inFlight now nowStamp minimumRTT smoothedRTT sampleRTT : Z)
| RateLost (bytes : Z) (duringACK : bool)
| RateApplicationLimited (flight : Z)
| RateSchedulerLimited (flight : Z).

Definition rateStep (d : tcpDeliveryRateEstimator) (e : rateEvent) : tcpDeliveryRateEstimator :=
  match e with
  | RateSent stamp packetsOut window => fst (onDeliveryDataSent d stamp packetsOut window)
  | RateRetransmitted stamp packetsOut => fst (onDeliveryRetransmit d stamp packetsOut)
  | RateAcked sample acknowledged priorInFlight inFlight now nowStamp minimumRTT smoothedRTT sampleRTT =>
      fst (finishRateSample d sample acknowledged priorInFlight inFlight now nowStamp minimumRTT
             smoothedRTT sampleRTT)
  | RateLost bytes duringACK => recordLoss d bytes duringACK
  | RateApplicationLimited flight => de_markApplicationLimited d flight
  | RateSchedulerLimited flight => de_markSchedulerLimited d flight
  end.

Definition rateRun (d : tcpDeliveryRateEstimator) (l : list rateEvent) : tcpDeliveryRateEstimator :=
  foldl rateStep d l.

Definition ackedBy (e : rateEvent) : Z :=
  match e with RateAcked _ acknowledged _ _ _ _ _ _ _ => acknowledged | _ => 0 end.

Definition ackedTotal (l : list rateEvent) : Z := foldr (fun e n => ackedBy e + n) 0 l.

Definition ackedNonnegative (l : list rateEvent) : Prop := Forall (fun e => 0 <= ackedBy e) l.

(** ** Lemmas: the counters *)

Lemma mask31 x : x .& tcpDeliveryDeliveredMask = x mod 2147483648.
Proof. change tcpDeliveryDeliveredMask with (Z.ones 31). by rewrite Z.land_ones by lia. Qed.

Lemma flag31 x : 0 <= x < 2147483648 -> (x .| tcpDeliveryApplicationLimited) = x + 2147483648.
Proof.
  intros H. unfold tcpDeliveryApplicationLimited. rewrite Z.lor_comm, lor_shiftl_add by (cbn; lia). lia.
Qed.

(** What an ACK does to the counters, whatever its sample. *)
Lemma finish_estimator d sample acknowledged p f now nowStamp minimumRTT srtt rtt :
  let d' := fst (finishRateSample d sample acknowledged p f now nowStamp minimumRTT srtt rtt) in
  let a := advanceDelivered d acknowledged nowStamp in
  de_delivered d' = de_delivered a /\ de_applicationLimitedUntil d' = de_applicationLimitedUntil a /\
  de_schedulerLimitedUntil d' = de_schedulerLimitedUntil a.
Proof.
  unfold finishRateSample, closeSample. cbv zeta. cbn [set_field rs_priorStamp].
  destruct (rs_priorStamp _ =? 0); [done|]. by destruct (_ || _).
Qed.

Lemma advance_delivered d acknowledged nowStamp :
  is_u64 (de_delivered d) -> 0 <= acknowledged ->
  de_delivered (advanceDelivered d acknowledged nowStamp) = u64 (de_delivered d + acknowledged).
Proof.
  intros Hd Ha. unfold advanceDelivered.
  destruct (Z.eqb_spec acknowledged 0) as [->|]; cbn [negb]; repeat (destruct (_ && _); cbn); rewrite ?Z.add_0_r;
    try done; word.
Qed.

Lemma rateStep_delivered d e :
  is_u64 (de_delivered d) -> 0 <= ackedBy e -> de_delivered (rateStep d e) = u64 (de_delivered d + ackedBy e).
Proof.
  intros Hd He. assert (u64 (de_delivered d) = de_delivered d) as Hid by word.
  destruct e; cbn [rateStep ackedBy] in *; rewrite ?Z.add_0_r.
  - unfold onDeliveryDataSent. destruct (_ =? 0); cbn; by rewrite Hid.
  - unfold onDeliveryRetransmit. destruct (_ =? 0); cbn; by rewrite Hid.
  - rewrite (proj1 (finish_estimator _ _ _ _ _ _ _ _ _ _)). by apply advance_delivered.
  - unfold recordLoss. destruct duringACK; cbn; by rewrite Hid.
  - cbn. by rewrite Hid.
  - unfold de_markSchedulerLimited. cbv zeta. destruct (_ <? _); cbn; by rewrite Hid.
Qed.

Lemma rateRun_delivered l : forall d, is_u64 (de_delivered d) -> ackedNonnegative l ->
  de_delivered (rateRun d l) = u64 (de_delivered d + ackedTotal l).
Proof.
  induction l as [|e l IH]; intros d Hd Hl; cbn; [rewrite Z.add_0_r; word|].
  apply Forall_cons_iff in Hl as [He Hl]. pose proof (rateStep_delivered d e Hd He) as Hs.
  unfold rateRun in IH. rewrite IH, Hs; [|rewrite Hs; apply u64_range|done].
  unfold u64. rewrite Zplus_mod_idemp_l. unfold ackedTotal. f_equal. lia.
Qed.

(** A snapshot keeps the low bits of the counter and the bubble flag. *)
Lemma snapshot_fields d :
  snapshotDelivered (de_snapshot d) = de_delivered d mod 2147483648 /\
  snapshotApplicationLimited (de_snapshot d) = negb (de_applicationLimitedUntil d =? 0).
Proof.
  unfold snapshotDelivered, snapshotApplicationLimited, de_snapshot. cbn [ds_deliveredFlags].
  rewrite !mask31. assert (u32 (de_delivered d) mod 2147483648 = de_delivered d mod 2147483648) as -> by word.
  pose proof (Z.mod_pos_bound (de_delivered d) 2147483648 ltac:(lia)) as Hb. set (m := de_delivered d mod _) in *.
  clearbody m. destruct (_ =? 0) eqn:E; cbn [negb].
  - rewrite Z.mod_small by lia. split; [done|]. rewrite negb_false_iff, Z.eqb_eq.
    change tcpDeliveryApplicationLimited with 2147483648. mask_bit m 31. zlia.
  - rewrite flag31 by lia. split; [zlia|]. rewrite negb_true_iff, Z.eqb_neq.
    change tcpDeliveryApplicationLimited with 2147483648. mask_bit (m + 2147483648) 31. zlia.
Qed.

(** Compact intervals are exact up to their resolution. *)
Lemma timestamp_duration_accuracy later earlier :
  1 <= earlier <= later -> later < 2 ^ 63 -> later - earlier <= 4294967293000 ->
  Z.abs (tcpDeliveryTimestampDuration (tcpDeliveryTimestampAt later) (tcpDeliveryTimestampAt earlier)
         - (later - earlier)) < 2000.
Proof.
  intros He Hl Hd. unfold tcpDeliveryTimestampAt, tcpDeliveryTimestampDuration.
  replace (later =? 0) with false by lia. replace (earlier =? 0) with false by lia.
  assert (u64 (later - 1) = later - 1) as -> by word. assert (u64 (earlier - 1) = earlier - 1) as -> by word.
  unfold microsecond. set (q2 := (later - 1) / 1000). set (q1 := (earlier - 1) / 1000).
  assert (1000 * q2 <= later - 1 < 1000 * q2 + 1000) as H2 by (subst q2; zlia).
  assert (1000 * q1 <= earlier - 1 < 1000 * q1 + 1000) as H1 by (subst q1; zlia).
  assert (q1 <= q2) as Hq by (subst q1 q2; apply Z.div_le_mono; lia). clearbody q1 q2. unfold u32.
  split_ifs; zlia.
Qed.

(** ** Lemmas: samples *)

Lemma observe_first segment :
  ds_deliveredStamp (st_delivery segment) <> 0 ->
  let s := rs_observe zeroRateSample segment in
  rs_priorStamp s = ds_deliveredStamp (st_delivery segment) /\
  rs_priorDelivered s = snapshotDelivered (st_delivery segment) /\
  rs_firstSent s = ds_firstSent (st_delivery segment) /\
  rs_lastSent s = tk_queuedAt (st_hostQueue segment) /\
  rs_applicationLimited s = snapshotApplicationLimited (st_delivery segment) /\ rs_valid s = false.
Proof.
  intros H. unfold rs_observe. destruct (_ =? 0) eqn:E; [lia|]. by unfold rs_older.
Qed.

(** The phases of the interval of a sample. *)
Definition sendPhase (sent : Z) (snap : tcpDeliverySnapshot) : Z :=
  tcpDeliveryTimestampDuration (tcpDeliveryTimestampAt sent) (ds_firstSent snap).
Definition ackPhase (nowStamp : Z) (snap : tcpDeliverySnapshot) : Z :=
  tcpDeliveryTimestampDuration (tcpDeliveryTimestampAt nowStamp) (ds_deliveredStamp snap).

Lemma closeSample_fields d sample nowStamp minimumRTT :
  let s := snd (closeSample d sample nowStamp minimumRTT) in
  let interval := Z.max (tcpDeliveryTimestampDuration (tcpDeliveryTimestampAt (rs_lastSent sample)) (rs_firstSent sample))
                        (tcpDeliveryTimestampDuration (tcpDeliveryTimestampAt nowStamp) (rs_priorStamp sample)) in
  rs_delivered s = (u32 (de_delivered d) - rs_priorDelivered sample) mod 2147483648 /\
  rs_priorDeliveredTotal s = u64 (de_delivered d - rs_delivered s) /\
  rs_applicationLimited s = rs_applicationLimited sample /\ rs_acked s = rs_acked sample /\
  rs_valid s = (rs_valid sample || ((0 <? interval) && ((minimumRTT <=? 0) || (minimumRTT <=? interval)))) /\
  (rs_valid s = true -> rs_valid sample = false -> rs_interval s = interval).
Proof.
  unfold closeSample. cbv zeta. rewrite !mask31.
  destruct (negb (rs_retransmitted sample)); [destruct (0 <? _)|]; cbn;
    change (if _ <? ?y then ?y else ?x) with (if x <? y then y else x);
    set (send := tcpDeliveryTimestampDuration _ (rs_firstSent sample));
    set (ackd := tcpDeliveryTimestampDuration _ (rs_priorStamp sample)); clearbody send ackd;
    (assert ((if send <? ackd then ackd else send) = Z.max send ackd) as -> by (split_ifs; lia));
    (destruct (_ || _) eqn:E; cbn; repeat split; try done; try word; try lia;
     [destruct (rs_valid sample); cbn; lia|intros ? Hv; rewrite Hv in *; done]).
Qed.

(** What an ACK that delivers one range reports about it. *)
Lemma finish_first d segment acknowledged p f now nowStamp minimumRTT srtt rtt :
  is_u64 (de_delivered d) -> 0 <= acknowledged -> ds_deliveredStamp (st_delivery segment) <> 0 ->
  let s := snd (finishRateSample d (rs_observe zeroRateSample segment) acknowledged p f now nowStamp minimumRTT srtt rtt) in
  let interval := Z.max (sendPhase (tk_queuedAt (st_hostQueue segment)) (st_delivery segment))
                        (ackPhase nowStamp (st_delivery segment)) in
  rs_delivered s = (u64 (de_delivered d + acknowledged) - snapshotDelivered (st_delivery segment)) mod 2147483648 /\
  rs_priorDeliveredTotal s = u64 (u64 (de_delivered d + acknowledged) - rs_delivered s) /\
  rs_applicationLimited s = snapshotApplicationLimited (st_delivery segment) /\ rs_acked s = acknowledged /\
  rs_valid s = (0 <? interval) && ((minimumRTT <=? 0) || (minimumRTT <=? interval)) /\
  (rs_valid s = true -> rs_interval s = interval).
Proof.
  intros Hd Ha Hstamp. destruct (observe_first segment Hstamp) as (O1 & O2 & O3 & O4 & O5 & O6).
  unfold finishRateSample. cbv zeta. set (o := rs_observe zeroRateSample segment) in *. clearbody o.
  cbn [set_field rs_priorStamp]. rewrite O1. destruct (_ =? 0) eqn:E; [lia|].
  match goal with |- context [closeSample ?d1 ?s1 nowStamp minimumRTT] =>
    destruct (closeSample_fields d1 s1 nowStamp minimumRTT) as (H1 & H2 & H3 & H4 & H5 & H6) end.
  rewrite advance_delivered in * by done. cbn in H1, H2, H3, H4, H5, H6. unfold sendPhase, ackPhase.
  rewrite O1, O2, O3, O4, ?O5, O6 in *. cbn in H5. split_and!; try done; try (by rewrite H1; word).
  intros Hv. by apply H6.
Qed.

(** A delivery-rate sample is exact although the snapshot keeps only 31
    bits: whatever was sent, acknowledged, lost or marked in between, an ACK
    that delivers a range reports exactly the bytes delivered since the range
    was transmitted and the 64-bit total at that time, carries the bubble flag
    of the transmission, and is valid exactly when the longer of its send and
    acknowledgement phases is positive and at least the minimum round trip. *)
Theorem rate_sample_exact d0 l segment acknowledged p f now nowStamp minimumRTT srtt rtt :
  is_u64 (de_delivered d0) -> ackedNonnegative l -> 0 <= acknowledged ->
  de_delivered d0 + ackedTotal l + acknowledged < 2 ^ 64 -> ackedTotal l + acknowledged < 2 ^ 31 ->
  st_delivery segment = de_snapshot d0 -> de_deliveredStamp d0 <> 0 ->
  let s := snd (finishRateSample (rateRun d0 l) (rs_observe zeroRateSample segment) acknowledged p f now nowStamp
                  minimumRTT srtt rtt) in
  let interval := Z.max (sendPhase (tk_queuedAt (st_hostQueue segment)) (de_snapshot d0))
                        (ackPhase nowStamp (de_snapshot d0)) in
  rs_delivered s = ackedTotal l + acknowledged /\ rs_priorDeliveredTotal s = de_delivered d0 /\
  rs_applicationLimited s = negb (de_applicationLimitedUntil d0 =? 0) /\ rs_acked s = acknowledged /\
  (rs_valid s = true <-> 0 < interval /\ minimumRTT <= interval) /\ (rs_valid s = true -> rs_interval s = interval).
Proof.
  intros Hd Hl Ha H64 H31 Hsnap Hstamp s interval.
  assert (0 <= ackedTotal l) as Ht by (clear -Hl; induction Hl; cbn; [lia|unfold ackedTotal in *; lia]).
  pose proof (rateRun_delivered l d0 Hd Hl) as Hrun.
  destruct (finish_first (rateRun d0 l) segment acknowledged p f now nowStamp minimumRTT srtt rtt)
    as (H1 & H2 & H3 & H4 & H5 & H6); [rewrite Hrun; apply u64_range|done|by rewrite Hsnap|].
  fold s in H1, H2, H3, H4, H5, H6. rewrite Hsnap in *. fold interval in H5, H6.
  destruct (snapshot_fields d0) as [F1 F2]. rewrite F1, Hrun in *. rewrite F2 in H3.
  assert (u64 (de_delivered d0 + ackedTotal l) = de_delivered d0 + ackedTotal l) as E1 by word.
  rewrite E1 in *. assert (u64 (de_delivered d0 + ackedTotal l + acknowledged)
    = de_delivered d0 + ackedTotal l + acknowledged) as E2 by word.
  rewrite E2 in *. assert (rs_delivered s = ackedTotal l + acknowledged) as Hdel by (rewrite H1; zlia).
  rewrite Hdel in *. split_and!; try done; [rewrite H2; word|rewrite H5; lia].
Qed.

(** ** Bubbles *)

Definition unmarked (l : list rateEvent) : Prop :=
  Forall (fun e => 0 <= ackedBy e /\ match e with RateApplicationLimited _ => False | _ => True end) l.

Lemma advance_limited d acknowledged nowStamp :
  is_u64 (de_delivered d) -> 0 <= acknowledged ->
  de_applicationLimitedUntil (advanceDelivered d acknowledged nowStamp) =
  if de_applicationLimitedUntil d <? u64 (de_delivered d + acknowledged) then 0 else de_applicationLimitedUntil d.
Proof.
  intros Hd Ha. unfold advanceDelivered. cbv zeta. assert (u64 (de_delivered d) = de_delivered d) as Hid by word.
  destruct (Z.eqb_spec acknowledged 0) as [->|]; cbn [negb]; rewrite ?Z.add_0_r, ?Hid;
    split_ifs; cbn in *; lia.
Qed.

Lemma rateStep_limited d e :
  is_u64 (de_delivered d) -> 0 <= ackedBy e -> (forall flight, e <> RateApplicationLimited flight) ->
  de_applicationLimitedUntil d = 0 \/ de_delivered d <= de_applicationLimitedUntil d ->
  de_applicationLimitedUntil (rateStep d e) =
  if de_applicationLimitedUntil d <? u64 (de_delivered d + ackedBy e) then 0 else de_applicationLimitedUntil d.
Proof.
  intros Hd He Hm Hi. assert (u64 (de_delivered d + 0) = de_delivered d) as E0 by word.
  assert ((if de_applicationLimitedUntil d <? de_delivered d then 0 else de_applicationLimitedUntil d)
          = de_applicationLimitedUntil d) as Eid by (split_ifs; lia).
  destruct e; cbn [rateStep ackedBy] in *; rewrite ?E0, ?Eid.
  - unfold onDeliveryDataSent. by destruct (_ =? 0).
  - unfold onDeliveryRetransmit. by destruct (_ =? 0).
  - destruct (finish_estimator d sample acknowledged priorInFlight inFlight now nowStamp minimumRTT smoothedRTT
      sampleRTT) as (_ & -> & _). by apply advance_limited.
  - unfold recordLoss. by destruct duringACK.
  - by destruct (Hm flight).
  - unfold de_markSchedulerLimited. cbv zeta. by destruct (de_schedulerLimitedUntil d <? _).
Qed.

Lemma unlimited_run l : forall d, is_u64 (de_delivered d) -> unmarked l -> de_applicationLimitedUntil d = 0 ->
  de_applicationLimitedUntil (rateRun d l) = 0.
Proof.
  induction l as [|e l IH]; intros d Hd Hl H0; [done|]. apply Forall_cons_iff in Hl as [[He Hm] Hl].
  change (rateRun d (e :: l)) with (rateRun (rateStep d e) l). apply IH; [|done|].
  - rewrite rateStep_delivered by done. apply u64_range.
  - rewrite rateStep_limited; [by destruct (_ <? _)|done|done|by intros flight ->|by left].
Qed.

Lemma run_limited l : forall d, is_u64 (de_delivered d) -> unmarked l ->
  0 < de_applicationLimitedUntil d -> de_delivered d <= de_applicationLimitedUntil d ->
  de_delivered d + ackedTotal l < 2 ^ 64 ->
  de_applicationLimitedUntil (rateRun d l) =
  if de_applicationLimitedUntil d <? de_delivered d + ackedTotal l then 0 else de_applicationLimitedUntil d.
Proof.
  induction l as [|e l IH]; intros d Hd Hl Hpos Hi H64.
  { cbn. rewrite Z.add_0_r. split_ifs; lia. }
  apply Forall_cons_iff in Hl as [[He Hm] Hl]. change (ackedTotal (e :: l)) with (ackedBy e + ackedTotal l) in *.
  assert (0 <= ackedTotal l) as Ht by (clear -Hl; induction Hl as [|? ? [? _]]; unfold ackedTotal in *; cbn; lia).
  pose proof (rateStep_delivered d e Hd He) as Hs. assert (u64 (de_delivered d + ackedBy e) = de_delivered d + ackedBy e)
    as Eu by word. rewrite Eu in Hs.
  pose proof (rateStep_limited d e Hd He ltac:(by intros flight ->) ltac:(lia)) as Hlim. rewrite Eu in Hlim.
  change (rateRun d (e :: l)) with (rateRun (rateStep d e) l).
  destruct (de_applicationLimitedUntil d <? de_delivered d + ackedBy e) eqn:E.
  - rewrite unlimited_run; [split_ifs; lia|rewrite Hs; word| |done]. done.
  - rewrite IH; rewrite ?Hs, ?Hlim; try done; try lia; [|word]. by rewrite Z.add_assoc.
Qed.

(** A sender bubble ends exactly when the data in flight at the time has
    been delivered: after [markApplicationLimited] with [flight] bytes in
    flight, transmissions are flagged as application-limited as long as at most
    [flight] bytes were acknowledged since, and never afterwards until the next
    mark. *)
Theorem application_bubble_exact d flight l :
  is_u64 (de_delivered d) -> 0 <= flight -> 0 < de_delivered d + flight -> unmarked l ->
  de_delivered d + flight < 2 ^ 64 -> de_delivered d + ackedTotal l < 2 ^ 64 ->
  snapshotApplicationLimited (de_snapshot (rateRun (de_markApplicationLimited d flight) l)) = (ackedTotal l <=? flight).
Proof.
  intros Hd Hf Hpos Hl H64 Hacked. rewrite (proj2 (snapshot_fields _)).
  set (d' := de_markApplicationLimited d flight).
  assert (de_applicationLimitedUntil d' = de_delivered d + flight) as Hlim.
  { unfold d', de_markApplicationLimited, deliveryLimit. cbn.
    assert (u64 (de_delivered d + flight) = de_delivered d + flight) as -> by word. split_ifs; lia. }
  assert (de_delivered d' = de_delivered d) as Hdel by done. clearbody d'.
  rewrite run_limited; rewrite ?Hdel, ?Hlim; try done; try lia. split_ifs; lia.
Qed.

(** ** The selected range *)

(** A sample that carries the metadata of [t]. *)
Definition sampled (s : CongestionRateSample) (t : sentTCPSegment) : Prop :=
  rs_priorDelivered s = snapshotDelivered (st_delivery t) /\
  rs_priorStamp s = ds_deliveredStamp (st_delivery t) /\ rs_firstSent s = ds_firstSent (st_delivery t) /\
  rs_lastSent s = tk_queuedAt (st_hostQueue t) /\ rs_lastEnd s = st_end t /\ rs_lastOrder s = st_order t /\
  rs_applicationLimited s = snapshotApplicationLimited (st_delivery t) /\
  rs_schedulerLimited s = hasState t sentTCPSegmentDeliverySchedulerLimited /\
  rs_retransmitted s = isRetransmitted t /\ rs_packetState s = st_packetState t /\
  rs_PacketLossEvidenceValid s = negb (hasState t sentTCPSegmentSACKed).

(** Unwrapped transmission order and stream position of the records of one
    flight; parts of one split record share their order. *)
Record flightOrder (base origin : Z) (order position : sentTCPSegment -> Z) (l : list sentTCPSegment) : Prop := {
  fo_order : forall t, t ∈ l -> st_order t = base ⊞ order t /\ st_order t <> 0 /\ 0 <= order t < 2147483648;
  fo_end : forall t, t ∈ l -> st_end t = origin ⊞ position t /\ 0 <= position t < 2147483648;
  fo_stamp : forall t, t ∈ l -> ds_deliveredStamp (st_delivery t) <> 0 }.

Definition newerThan (order position : sentTCPSegment -> Z) (a b : sentTCPSegment) : Prop :=
  let at_ t := tk_queuedAt (st_hostQueue t) in
  at_ b < at_ a \/ (at_ a = at_ b /\ (order b < order a \/ (order a = order b /\ position b < position a))).

Lemma tie_order base origin order position l a b :
  flightOrder base origin order position l -> a ∈ l -> b ∈ l ->
  tcpClockTieTransmissionAfter (st_order a) (st_end a) (st_order b) (st_end b)
  = (order b <? order a) || ((order a =? order b) && (position b <? position a)).
Proof.
  intros [Ho He _] Ha Hb. destruct (Ho a Ha) as (Ea & Na & Ra), (Ho b Hb) as (Eb & Nb & Rb).
  destruct (He a Ha) as [Fa Pa], (He b Hb) as [Fb Pb]. unfold tcpClockTieTransmissionAfter.
  replace (st_order a =? 0) with false by lia. replace (st_order b =? 0) with false by lia. cbn [negb].
  rewrite !andb_true_r. unfold tcpSequenceGreater. rewrite Fa, Fb, Ea, Eb, !less_offsets by lia.
  destruct (Z.eqb_spec (order a) (order b)) as [E|E].
  - rewrite E, Z.eqb_refl. cbn [negb]. by rewrite Z.ltb_irrefl.
  - replace (base ⊞ order a =? base ⊞ order b) with false by (clear -E Ra Rb; word). cbn [negb].
    by rewrite andb_false_l, orb_false_r.
Qed.

Lemma observe_newer base origin order position l s chosen t :
  flightOrder base origin order position l -> chosen ∈ l -> t ∈ l -> sampled s chosen ->
  (newerThan order position t chosen /\ sampled (rs_observe s t) t) \/
  (~ newerThan order position t chosen /\ rs_observe s t = s).
Proof.
  intros Hf Hc Ht Hs. pose proof Hs as (_ & S2 & _ & S4 & S5 & S6 & _).
  pose proof (fo_stamp _ _ _ _ _ Hf) as Hst. pose proof (Hst t Ht) as N1. pose proof (Hst chosen Hc) as N2.
  assert (rs_older s t = false <-> newerThan order position t chosen) as Hn.
  { unfold rs_older, newerThan. rewrite S2, S4, S5, S6, (tie_order base origin order position l) by done.
    replace (ds_deliveredStamp (st_delivery chosen) =? 0) with false by lia. cbn [negb andb].
    destruct (_ <? tk_queuedAt _) eqn:E1, (_ =? tk_queuedAt _) eqn:E2; cbn [orb andb]; split; intros H; lia. }
  unfold rs_observe. replace (ds_deliveredStamp (st_delivery t) =? 0) with false by lia.
  destruct (rs_older s t) eqn:E; [right|left]; split; try done; try (by apply Hn).
  intros H. apply Hn in H. done.
Qed.

Lemma newerThan_trans order position a b c :
  ~ newerThan order position b a -> ~ newerThan order position c b -> ~ newerThan order position c a.
Proof. unfold newerThan. cbv zeta. lia. Qed.

Lemma newerThan_asym order position a b : newerThan order position a b -> ~ newerThan order position b a.
Proof. unfold newerThan. cbv zeta. lia. Qed.

(** C35. Whatever ranges an ACK delivers, by cumulative or selective
    acknowledgement and in whatever order they are visited, its sample carries
    the metadata of the most recently transmitted one: no delivered range has a
    later publication time, or the same time and a later transmission order. *)
Theorem sample_selects_newest base origin order position l :
  flightOrder base origin order position l -> l <> [] ->
  exists t, t ∈ l /\ sampled (foldl rs_observe zeroRateSample l) t /\
            forall u, u ∈ l -> ~ newerThan order position u t.
Proof.
  intros Hf Hl. induction l as [|t l IH] using rev_ind; [done|]. rewrite foldl_app. cbn [foldl].
  destruct (decide (l = [])) as [->|Hne].
  { exists t. split; [set_solver|]. split.
    - cbn [foldl]. pose proof (fo_stamp _ _ _ _ _ Hf t ltac:(set_solver)). unfold rs_observe.
      destruct (_ =? 0) eqn:E; [lia|]. done.
    - intros u Hu. assert (u = t) as -> by set_solver. unfold newerThan. cbv zeta. lia. }
  destruct IH as (c & Hc & Hs & Hmax); [|done|].
  { destruct Hf as [A B C]. split; intros u Hu; [apply A|apply B|apply C]; set_solver. }
  destruct (observe_newer base origin order position _ _ c t Hf ltac:(set_solver) ltac:(set_solver) Hs)
    as [[Hn Ht]|[Hn ->]].
  - exists t. split; [set_solver|]. split; [done|]. intros u Hu. apply elem_of_app in Hu as [Hu|Hu].
    + apply (newerThan_trans _ _ t c u); [by apply newerThan_asym|by apply Hmax].
    + assert (u = t) as -> by set_solver. unfold newerThan. cbv zeta. lia.
  - exists c. split; [set_solver|]. split; [done|]. intros u Hu. apply elem_of_app in Hu as [Hu|Hu]; [by apply Hmax|].
    by assert (u = t) as -> by set_solver.
Qed.

(** ** Witnesses *)

(** An estimator whose counter has passed 31 bits, inside a bubble. *)
Definition sampleEstimator : tcpDeliveryRateEstimator := mkEstimator 4294967297 7 5 4294970000 0 0 0 0.

Definition sampleTransmission (order stop queuedAt : Z) : sentTCPSegment :=
  mkSent 0 stop 0 sentTCPSegmentTransmitted 0 0 (mkTicket 1 queuedAt) 0 (de_snapshot sampleEstimator) order.

Definition sampleEvents : list rateEvent :=
  [RateAcked zeroRateSample 1000 0 0 0 50001 0 0 0; RateLost 1460 true; RateSent 60001 1 4000].

Lemma rate_sample_exact_witness :
  ackedNonnegative sampleEvents /\
  rs_delivered (snd (finishRateSample (rateRun sampleEstimator sampleEvents)
    (rs_observe zeroRateSample (sampleTransmission 3 1460 20001)) 460 0 0 0 90001 1000 0 0)) = 1460 /\
  rs_priorDeliveredTotal (snd (finishRateSample (rateRun sampleEstimator sampleEvents)
    (rs_observe zeroRateSample (sampleTransmission 3 1460 20001)) 460 0 0 0 90001 1000 0 0)) = 4294967297.
Proof.
  assert (ackedNonnegative sampleEvents) as Hl by (unfold ackedNonnegative, sampleEvents; repeat constructor; done).
  split; [exact Hl|].
  destruct (rate_sample_exact sampleEstimator sampleEvents (sampleTransmission 3 1460 20001) 460 0 0 0 90001 1000 0 0)
    as (H1 & H2 & _); [unfold is_u64; cbn; lia|exact Hl|lia|cbn; lia|cbn; lia|reflexivity|cbn; lia|].
  split; [exact H1|exact H2].
Defined.

Lemma application_bubble_exact_witness :
  unmarked [RateAcked zeroRateSample 1000 0 0 0 50001 0 0 0; RateAcked zeroRateSample 1 0 0 0 60001 0 0 0] /\
  snapshotApplicationLimited (de_snapshot (rateRun (de_markApplicationLimited zeroEstimator 1000)
    [RateAcked zeroRateSample 1000 0 0 0 50001 0 0 0; RateAcked zeroRateSample 1 0 0 0 60001 0 0 0])) = false.
Proof.
  assert (unmarked [RateAcked zeroRateSample 1000 0 0 0 50001 0 0 0; RateAcked zeroRateSample 1 0 0 0 60001 0 0 0])
    as Hl by (unfold unmarked; repeat constructor; done).
  split; [exact Hl|]. apply (application_bubble_exact zeroEstimator 1000);
    [unfold is_u64; cbn; lia|lia|cbn; lia|exact Hl|cbn; lia|cbn; lia].
Defined.

Lemma sample_selects_newest_witness :
  let l := [sampleTransmission 9 2000 500; sampleTransmission 11 1000 500] in
  flightOrder 0 0 st_order st_end l /\
  exists t, t ∈ l /\ sampled (foldl rs_observe zeroRateSample l) t /\
            forall u, u ∈ l -> ~ newerThan st_order st_end u t.
Proof.
  cbv zeta. assert (flightOrder 0 0 st_order st_end [sampleTransmission 9 2000 500; sampleTransmission 11 1000 500]) as Hf.
  { split; intros t Ht; apply elem_of_cons in Ht as [->|Ht]; [|apply list_elem_of_singleton in Ht as ->| |
      apply list_elem_of_singleton in Ht as ->| |apply list_elem_of_singleton in Ht as ->]; cbn; unfold u32;
      repeat split; (reflexivity || discriminate || lia). }
  split; [exact Hf|]. apply (sample_selects_newest 0 0 st_order st_end); [exact Hf|discriminate].
Defined.
