(* ===== verification/Congestion.v ===== *)
(** * The congestion-control adapter

    The public event contract of [congestion_api.go], the registry of
    controllers, HyStart++ and the adapter of [congestion.go] between TCP and
    an algorithm. An algorithm is any instance of [CongestionController]: the
    adapter's theorems hold for every one. *)

From stdpp Require Import gmap strings.
From S2P Require Import Prelude SeqNum Rtt Addr Windows Scoreboard Float64 DeliveryRate.

(** ** Feature flags *)

Definition CongestionControlFeatureDeliveryRate : Z := 1.
Definition CongestionControlFeatureCustomPacing : Z := 2.
Definition CongestionControlFeatureTransmissionEvents : Z := 4.
Definition CongestionControlFeatureCustomRecovery : Z := 8.
Definition CongestionControlFeatureLossEvents : Z := 16.
Definition CongestionControlFeatureCustomWindowValidation : Z := 32.

Definition congestionControlKnownFeatures : Z :=
  CongestionControlFeatureDeliveryRate .| CongestionControlFeatureCustomPacing
  .| CongestionControlFeatureTransmissionEvents .| CongestionControlFeatureCustomRecovery
  .| CongestionControlFeatureLossEvents .| CongestionControlFeatureCustomWindowValidation.

(** ** The event contract *)

Inductive CongestionEventType :=
| CongestionEventUnknown
| CongestionEventInitialize
| CongestionEventACK
| CongestionEventLoss
| CongestionEventECN
| CongestionEventTimeout
| CongestionEventPacketSent
| CongestionEventPacketRetransmitted
| CongestionEventRecovery
| CongestionEventStateChanged
| CongestionEventPacing
| CongestionEventMTUChanged
| CongestionEventDiagnostics
| CongestionEventPacketLost
| CongestionEventTailLossProbeRecovered
| CongestionEventRelease.

Inductive CongestionPhase :=
| CongestionPhaseUnknown
| CongestionPhaseOpen
| CongestionPhaseDisorder
| CongestionPhaseCWR
| CongestionPhaseRecovery
| CongestionPhaseLoss.

#[export] Instance CongestionPhase_eq_dec : EqDecision CongestionPhase.
Proof. solve_decision. Defined.

#[export] Instance CongestionEventType_eq_dec : EqDecision CongestionEventType.
Proof. solve_decision. Defined.

Record CongestionState := mkCongestionState {
  cs_CongestionWindow : Z;
  cs_SlowStartThreshold : Z;
  cs_BytesInFlight : Z;
  cs_MaximumSegmentSize : Z;
  cs_SmoothedRTT : Z;
  cs_MinimumRTT : Z;
  cs_UsePacingRate : bool;
  cs_PacingRate : Z;
  cs_MaximumPacingRate : Z;
  cs_DeliveredBytes : Z;
  cs_LostBytes : Z;
  cs_ApplicationLimited : bool;
  cs_SchedulerLimited : bool;
  cs_SchedulerLimitedEvents : Z;
  cs_Phase : CongestionPhase }.

#[export] Instance CongestionState_settable : Settable CongestionState := fun s =>
  mkCongestionState (cs_CongestionWindow s) (cs_SlowStartThreshold s) (cs_BytesInFlight s)
    (cs_MaximumSegmentSize s) (cs_SmoothedRTT s) (cs_MinimumRTT s) (cs_UsePacingRate s) (cs_PacingRate s)
    (cs_MaximumPacingRate s) (cs_DeliveredBytes s) (cs_LostBytes s) (cs_ApplicationLimited s)
    (cs_SchedulerLimited s) (cs_SchedulerLimitedEvents s) (cs_Phase s).

Definition zeroCongestionState : CongestionState :=
  mkCongestionState 0 0 0 0 0 0 false 0 0 0 0 false false 0 CongestionPhaseUnknown.

Inductive CongestionRecoveryStage :=
| CongestionRecoveryUnknown
| CongestionRecoveryCheckpoint
| CongestionRecoverySelectFlight
| CongestionRecoveryEnter
| CongestionRecoveryPRR
| CongestionRecoveryExit
| CongestionRecoveryPartialACK
| CongestionRecoveryDuplicateACK
| CongestionRecoveryUndo.

Record CongestionRecovery := mkRecovery {
  cr_Stage : CongestionRecoveryStage;
  cr_SACK : bool;
  cr_OrdinaryFlight : Z;
  cr_LossFlight : Z;
  cr_Flight : Z;
  cr_PreviousWindow : Z;
  cr_Acknowledged : Z;
  cr_ProposedWindow : Z }.

Inductive CongestionPacingOperation :=
| CongestionPacingUnknown
| CongestionPacingQuery
| CongestionPacingWake
| CongestionPacingCancel
| CongestionPacingPolicyChanged.

Record CongestionPacing := mkPacing {
  cp_Operation : CongestionPacingOperation;
  cp_Bytes : Z;
  cp_TransmittedSegments : Z;
  cp_Delay : Z;
  cp_MarkSchedulerLimited : bool }.

#[export] Instance CongestionPacing_settable : Settable CongestionPacing := fun p =>
  mkPacing (cp_Operation p) (cp_Bytes p) (cp_TransmittedSegments p) (cp_Delay p) (cp_MarkSchedulerLimited p).

Record CongestionDiagnostics := mkDiagnostics {
  cd_DeliveryRate : Z;
  cd_PacingRate : Z;
  cd_State : string;
  cd_ApplicationLimited : bool;
  cd_SchedulerLimited : bool;
  cd_SchedulerLimitedEvents : Z }.

Definition zeroDiagnostics : CongestionDiagnostics := mkDiagnostics 0 0 EmptyString false false 0.

(** The pointer [State] of an event is passed beside it, and written back. *)
Record CongestionEvent := mkEvent {
  ce_Type : CongestionEventType;
  ce_Time : Z;
  ce_Acknowledged : Z;
  ce_AcknowledgementNumber : Z;
  ce_SampleRTT : Z;
  ce_RateSample : option CongestionRateSample;
  ce_PacketBytes : Z;
  ce_PacketState : Z;
  ce_OutstandingBytes : Z;
  ce_PreviousMaximumSegmentSize : Z;
  ce_PreviousPhase : CongestionPhase;
  ce_MarkApplicationLimited : bool;
  ce_PacketLossEvidenceValid : bool;
  ce_Recovery : CongestionRecovery;
  ce_Pacing : CongestionPacing;
  ce_Diagnostics : CongestionDiagnostics }.

#[export] Instance CongestionEvent_settable : Settable CongestionEvent := fun e =>
  mkEvent (ce_Type e) (ce_Time e) (ce_Acknowledged e) (ce_AcknowledgementNumber e) (ce_SampleRTT e)
    (ce_RateSample e) (ce_PacketBytes e) (ce_PacketState e) (ce_OutstandingBytes e)
    (ce_PreviousMaximumSegmentSize e) (ce_PreviousPhase e) (ce_MarkApplicationLimited e)
    (ce_PacketLossEvidenceValid e) (ce_Recovery e) (ce_Pacing e) (ce_Diagnostics e).

Definition zeroEvent : CongestionEvent :=
  mkEvent CongestionEventUnknown 0 0 0 0 None 0 0 0 0 CongestionPhaseUnknown false false
    (mkRecovery CongestionRecoveryUnknown false 0 0 0 0 0 0)
    (mkPacing CongestionPacingUnknown 0 0 0 false) zeroDiagnostics.

(** The interface an algorithm implements. *)
Class CongestionController (A : Type) :=
  HandleCongestionEvent : A -> CongestionState -> CongestionEvent -> A * CongestionState * CongestionEvent.

(** ** Factories and the registry *)

(** A [netip.AddrPort] is an address with its port. *)
Record CongestionControlContext := mkContext {
  cx_LocalAddress : Addr * Z;
  cx_RemoteAddress : Addr * Z;
  cx_Passive : bool;
  cx_Forwarded : bool }.

Record CongestionControlDefinition (A : Type) := mkDefinition {
  cf_Name : string;
  cf_New : option (CongestionControlContext -> A);
  cf_Features : Z;
  cf_SendBufferMultiplier : Z }.
Arguments mkDefinition {A}.
Arguments cf_Name {A}.
Arguments cf_New {A}.
Arguments cf_Features {A}.
Arguments cf_SendBufferMultiplier {A}.

Definition hasFeature (features flag : Z) : bool := hasFlag features flag.

(** [validateCongestionControlDefinition] returns no error. *)
Definition validateCongestionControlDefinition {A} (d : CongestionControlDefinition A) : bool :=
  negb (bool_decide (cf_Name d = EmptyString))
  && (match cf_New d with Some _ => true | None => false end)
  && (cf_Features d .&^ congestionControlKnownFeatures =? 0)
  && negb (hasFeature (cf_Features d) CongestionControlFeatureCustomPacing
           && negb (hasFeature (cf_Features d) CongestionControlFeatureTransmissionEvents))
  && negb (hasFeature (cf_Features d) CongestionControlFeatureLossEvents
           && negb (hasFeature (cf_Features d) CongestionControlFeatureTransmissionEvents))
  && negb (hasFeature (cf_Features d) CongestionControlFeatureCustomWindowValidation
           && negb (hasFeature (cf_Features d) CongestionControlFeatureTransmissionEvents)).

(** A factory is a validated definition; nil is [None]. *)
Definition NewCongestionControlFactory {A} (d : CongestionControlDefinition A)
    : option (CongestionControlDefinition A) :=
  if validateCongestionControlDefinition d then Some d else None.

Definition factoryName {A} (f : option (CongestionControlDefinition A)) : string :=
  match f with Some d => cf_Name d | None => EmptyString end.

Definition factoryValid {A} (f : option (CongestionControlDefinition A)) : bool :=
  match f with Some d => validateCongestionControlDefinition d | None => false end.

Definition congestionRegistry (A : Type) : Type := gmap string (CongestionControlDefinition A).

(** The registry after the call, and whether it succeeded. *)
Definition RegisterCongestionControl {A} (registry : congestionRegistry A)
    (factory : option (CongestionControlDefinition A)) : congestionRegistry A * bool :=
  if negb (factoryValid factory) then (registry, false)
  else
    match factory with
    | None => (registry, false)
    | Some d =>
        match registry !! cf_Name d with
        | Some _ => (registry, false)
        | None => (<[cf_Name d := d]> registry, true)
        end
    end.

Definition registeredCongestionControlFactory {A} (registry : congestionRegistry A) (name : string)
    : option (CongestionControlDefinition A) := registry !! name.

(** ** HyStart++ *)

Definition hyStartMinimumRTTThreshold : Z := 4 * millisecond.
Definition hyStartMaximumRTTThreshold : Z := 16 * millisecond.
Definition hyStartRTTDivisor : Z := 8.
Definition hyStartMinimumRTTSamples : Z := 8.
Definition hyStartCSSGrowthDivisor : Z := 4.
Definition hyStartCSSRounds : Z := 5.

Record tcpHyStart := mkHyStart {
  hy_windowEnd : Z;
  hy_lastRoundMinRTT : Z;
  hy_currentMinRTT : Z;
  hy_samples : Z;
  hy_css : bool;
  hy_cssBaselineRTT : Z;
  hy_cssRounds : Z;
  hy_cssCredit : Z;
  hy_done : bool }.

#[export] Instance tcpHyStart_settable : Settable tcpHyStart := fun h =>
  mkHyStart (hy_windowEnd h) (hy_lastRoundMinRTT h) (hy_currentMinRTT h) (hy_samples h) (hy_css h)
    (hy_cssBaselineRTT h) (hy_cssRounds h) (hy_cssCredit h) (hy_done h).

Definition hy_start (sendNext : Z) : tcpHyStart := mkHyStart sendNext 0 0 0 false 0 0 0 false.

Definition hy_restartRound (h : tcpHyStart) (sendNext : Z) : tcpHyStart :=
  if hy_done h then h else mkHyStart sendNext 0 0 0 false 0 0 0 (hy_done h).

Definition hy_disable (h : tcpHyStart) : tcpHyStart :=
  h <| hy_done := true |> <| hy_css := false |> <| hy_cssCredit := 0 |>.

(** The end of a round: the new round, or the completion of CSS. *)
Definition hy_round (h : tcpHyStart) (acknowledgement sendNext : Z) : tcpHyStart + tcpHyStart :=
  if tcpSequenceGreaterEqual acknowledgement (hy_windowEnd h) then
    let next h := h <| hy_lastRoundMinRTT := hy_currentMinRTT h |> <| hy_currentMinRTT := 0 |>
                    <| hy_samples := 0 |> <| hy_windowEnd := sendNext |> in
    if hy_css h then
      if hyStartCSSRounds <=? hy_cssRounds h then inr (hy_disable h)
      else inl (next (h <| hy_cssRounds := hy_cssRounds h + 1 |>))
    else inl (next h)
  else inl h.

Definition hy_sample (h : tcpHyStart) (sampleRTT : Z) : tcpHyStart :=
  if 0 <? sampleRTT then
    let h := if (hy_currentMinRTT h =? 0) || (sampleRTT <? hy_currentMinRTT h)
             then h <| hy_currentMinRTT := sampleRTT |> else h in
    h <| hy_samples := hy_samples h + 1 |>
  else h.

Definition hy_threshold (lastRoundMinRTT : Z) : Z :=
  let threshold := Z.quot lastRoundMinRTT hyStartRTTDivisor in
  if threshold <? hyStartMinimumRTTThreshold then hyStartMinimumRTTThreshold
  else if hyStartMaximumRTTThreshold <? threshold then hyStartMaximumRTTThreshold
  else threshold.

(** The decision of a round with enough samples. *)
Definition hy_decide (h : tcpHyStart) : tcpHyStart :=
  if hyStartMinimumRTTSamples <=? hy_samples h then
    if hy_css h then
      if hy_currentMinRTT h <? hy_cssBaselineRTT h
      then h <| hy_css := false |> <| hy_cssBaselineRTT := 0 |> <| hy_cssRounds := 0 |> <| hy_cssCredit := 0 |>
      else h
    else if (0 <? hy_lastRoundMinRTT h) && (0 <? hy_currentMinRTT h) then
      if hy_lastRoundMinRTT h + hy_threshold (hy_lastRoundMinRTT h) <=? hy_currentMinRTT h
      then h <| hy_css := true |> <| hy_cssBaselineRTT := hy_currentMinRTT h |> <| hy_cssRounds := 1 |>
      else h
    else h
  else h.

(** The byte credit slow start may apply, and whether CSS has completed. *)
Definition hy_onACK (h : tcpHyStart) (acknowledgement sendNext acknowledged sampleRTT : Z)
    : tcpHyStart * (Z * bool) :=
  if hy_done h || (acknowledged =? 0) then (h, (acknowledged, false))
  else
    match hy_round h acknowledgement sendNext with
    | inr h => (h, (acknowledged, true))
    | inl h =>
        let h := hy_decide (hy_sample h sampleRTT) in
        if negb (hy_css h) then (h, (acknowledged, false))
        else
          let credit := hy_cssCredit h + acknowledged in
          (h <| hy_cssCredit := u32 (credit mod hyStartCSSGrowthDivisor) |>,
           (u32 (credit / hyStartCSSGrowthDivisor), false))
    end.

(** ** Window arithmetic *)

Definition tcpPacingInitialBurst : Z := 10.
Definition tcpUserspacePacingBatch : Z := 500 * microsecond.

Definition congestionWindowLimited (window flight mss : Z) : bool :=
  if window <=? flight then true else (window ⊟ flight) <=? u32 mss.

Definition congestionThresholdWithFloor (window mss numerator denominator minimumSegments : Z) : Z :=
  let threshold := u32 (u64 (window * numerator) / denominator) in
  let minimum := u32 (minimumSegments * mss) in
  if threshold <? minimum then minimum else threshold.

Definition congestionThreshold (window mss numerator denominator : Z) : Z :=
  congestionThresholdWithFloor window mss numerator denominator 2.

Definition additiveIncrease (window acknowledged mss : Z) : float64 :=
  f64_div (f64_mul (f64_of_Z acknowledged) (f64_of_Z mss)) (f64_of_Z window).

(** The window and the credit left. *)
Definition applyCongestionIncrease (outside : float64 -> Z) (window : Z) (credit increment : float64)
    : Z * float64 :=
  if f64_le increment f64_zero || isNaN increment then (window, credit)
  else
    let credit := f64_add credit increment in
    let whole := f64_to_uint64 outside credit in
    if whole =? 0 then (window, credit)
    else
      let credit := f64_sub credit (f64_of_Z whole) in
      let whole := if tcpMaximumScaledWindow <? whole then tcpMaximumScaledWindow else whole in
      (growCongestionWindow window (u32 whole), credit).

(** The window and the ACK credit left for congestion avoidance. *)
Definition applySlowStart (window acknowledged slowStartThreshold : Z) : Z * Z :=
  if slowStartThreshold <=? window then (window, acknowledged)
  else
    let available := slowStartThreshold ⊟ window in
    let growth := if available <? acknowledged then available else acknowledged in
    (growCongestionWindow window growth, acknowledged ⊟ growth).

(** ** Pacing arithmetic *)

Definition congestionRateValue (outside : float64 -> Z) (rate : float64) : Z :=
  if f64_le rate f64_zero || isNaN rate then 0
  else if f64_le (f64_of_Z (2 ^ 64 - 1)) rate || isPositiveInf rate then 2 ^ 64 - 1
  else f64_to_uint64 outside rate.

Definition limitRate (maximumPacingRate : Z) (rate : float64) : float64 :=
  if negb (maximumPacingRate =? 0) && f64_lt (f64_of_Z maximumPacingRate) rate
  then f64_of_Z maximumPacingRate else rate.

Definition pacingTimerDelay (delay batch : Z) : Z := if delay <=? batch then 0 else delay - batch.

Definition windowPacingRate (window flight smoothedRTT slowStartThreshold : Z) : float64 :=
  if smoothedRTT <=? 0 then f64_zero
  else
    let rateWindow := if window <? flight then flight else window in
    let ratio := if window <? slowStartThreshold / 2 then f64_of_Z 2 else f64_ratio 12 10 in
    f64_div (f64_mul (f64_of_Z rateWindow) ratio) (durationSeconds smoothedRTT).

Definition pacingDuration (outside : float64 -> Z) (bytes : Z) (rate : float64) : Z :=
  if (bytes <=? 0) || f64_le rate f64_zero || isNaN rate then 0
  else
    let durationValue := f64_div (f64_mul (f64_of_Z second) (f64_of_Z bytes)) rate in
    if f64_le (f64_of_Z maxDuration) durationValue then maxDuration
    else
      let duration := f64_to_int64 outside durationValue in
      if duration <? nanosecond then nanosecond else duration.

Definition pacingScheduleBase (next now maximumDebt : Z) (catchUp : bool) : Z :=
  if next =? 0 then now
  else if negb (next <? now) then next
  else if negb catchUp then now
  else
    let earliest := now - maximumDebt in
    if next <? earliest then earliest else next.

(** ** The adapter *)

Record tcpCongestionController (A : Type) := mkController {
  cc_factory : CongestionControlDefinition A;
  cc_algorithm : A;
  cc_features : Z;
  cc_sendBufferMultiple : Z;
  cc_initialized : bool;
  cc_delivery : tcpDeliveryRateEstimator;
  cc_state : CongestionState;
  cc_event : CongestionEvent;
  cc_pacingNext : Z;
  cc_pacingSegments : Z;
  cc_pacingRate : float64;
  cc_maximumPacingRate : Z;
  cc_packetState : Z }.
Arguments mkController {A}.
Arguments cc_factory {A}.
Arguments cc_algorithm {A}.
Arguments cc_features {A}.
Arguments cc_sendBufferMultiple {A}.
Arguments cc_initialized {A}.
Arguments cc_delivery {A}.
Arguments cc_state {A}.
Arguments cc_event {A}.
Arguments cc_pacingNext {A}.
Arguments cc_pacingSegments {A}.
Arguments cc_pacingRate {A}.
Arguments cc_maximumPacingRate {A}.
Arguments cc_packetState {A}.

#[export] Instance tcpCongestionController_settable A : Settable (tcpCongestionController A) := fun c =>
  mkController (cc_factory c) (cc_algorithm c) (cc_features c) (cc_sendBufferMultiple c) (cc_initialized c)
    (cc_delivery c) (cc_state c) (cc_event c) (cc_pacingNext c) (cc_pacingSegments c) (cc_pacingRate c)
    (cc_maximumPacingRate c) (cc_packetState c).

Section Adapter.

Context {A : Type} `{CongestionController A}.

(** The value of a float conversion out of range. *)
Variable outside : float64 -> Z.

Implicit Type c : tcpCongestionController A.

Definition usesDeliveryRate c : bool := hasFeature (cc_features c) CongestionControlFeatureDeliveryRate.
Definition customPacing c : bool := hasFeature (cc_features c) CongestionControlFeatureCustomPacing.
Definition usesTransmissionEvents c : bool :=
  hasFeature (cc_features c) CongestionControlFeatureTransmissionEvents.
Definition usesLossEvents c : bool := hasFeature (cc_features c) CongestionControlFeatureLossEvents.
Definition customRecovery c : bool := hasFeature (cc_features c) CongestionControlFeatureCustomRecovery.
Definition customWindowValidation c : bool :=
  hasFeature (cc_features c) CongestionControlFeatureCustomWindowValidation.
Definition cc_schedulerLimited c : bool := usesDeliveryRate c && de_schedulerLimited (cc_delivery c).

(** A factory whose constructor returns nil panics, [None]. *)
Definition newTCPCongestionControllerFromFactory (registry : congestionRegistry A)
    (factory : option (CongestionControlDefinition A)) (context : CongestionControlContext)
    : option (tcpCongestionController A) :=
  let factory := match factory with
                 | Some f => Some f
                 | None => registeredCongestionControlFactory registry "cubic"
                 end in
  d ← factory;
  new ← cf_New d;
  let c := mkController d (new context) (cf_Features d) (cf_SendBufferMultiplier d) false zeroEstimator
             zeroCongestionState zeroEvent 0 0 f64_zero 0 0 in
  Some (if usesDeliveryRate c
        then c <| cc_delivery := zeroEstimator <| de_applicationLimitedUntil := 1 |> |> else c).

Definition prepareEvent c (eventType : CongestionEventType) (now : Z) : tcpCongestionController A :=
  let e := cc_event c in
  c <| cc_event := e <| ce_Type := eventType |> <| ce_Time := now |> <| ce_RateSample := None |>
                     <| ce_MarkApplicationLimited := false |> <| ce_PacketState := 0 |>
                     <| ce_Pacing := ce_Pacing e <| cp_MarkSchedulerLimited := false |> |> |>.

(** Filling in the payload of the prepared event. *)
Definition withEvent c (f : CongestionEvent -> CongestionEvent) : tcpCongestionController A :=
  c <| cc_event := f (cc_event c) |>.

Definition syncDeliveryState c : tcpCongestionController A :=
  if negb (usesDeliveryRate c) && negb (usesLossEvents c) then c
  else
    let d := cc_delivery c in
    c <| cc_state := cc_state c <| cs_DeliveredBytes := de_delivered d |>
                     <| cs_LostBytes := de_totalLost d |>
                     <| cs_ApplicationLimited := negb (de_applicationLimitedUntil d =? 0) |>
                     <| cs_SchedulerLimited := de_schedulerLimited d |>
                     <| cs_SchedulerLimitedEvents := de_schedulerLimitedEvents d |> |>.

Definition isACKEvent (t : CongestionEventType) : bool := bool_decide (t = CongestionEventACK).
Definition isPacingEvent (t : CongestionEventType) : bool := bool_decide (t = CongestionEventPacing).

Definition isQueryOrWake (o : CongestionPacingOperation) : bool :=
  match o with CongestionPacingQuery | CongestionPacingWake => true | _ => false end.

Definition handleEvent c : tcpCongestionController A :=
  let eventType := ce_Type (cc_event c) in
  let pacingOperation := cp_Operation (ce_Pacing (cc_event c)) in
  let '(algorithm, state, event) := HandleCongestionEvent (cc_algorithm c) (cc_state c) (cc_event c) in
  let markApplicationLimited := ce_MarkApplicationLimited event in
  let markSchedulerLimited := cp_MarkSchedulerLimited (ce_Pacing event) in
  let c := c <| cc_algorithm := algorithm |> <| cc_state := state |>
             <| cc_event := event <| ce_RateSample := None |> |> in
  let markedApplication := markApplicationLimited && isACKEvent eventType && usesDeliveryRate c in
  let c := if markedApplication
           then c <| cc_delivery := de_markApplicationLimited (cc_delivery c) (cs_BytesInFlight (cc_state c)) |>
           else c in
  let markedScheduler := markSchedulerLimited && isPacingEvent eventType && isQueryOrWake pacingOperation
                         && usesDeliveryRate c in
  let c := if markedScheduler
           then c <| cc_delivery := de_markSchedulerLimited (cc_delivery c) (cs_BytesInFlight (cc_state c)) |>
           else c in
  if markedApplication || markedScheduler then syncDeliveryState c else c.

Definition syncTransportState c (window slowStartThreshold flight mss smoothedRTT : Z)
    : tcpCongestionController A :=
  c <| cc_state := cc_state c <| cs_CongestionWindow := window |>
                   <| cs_SlowStartThreshold := slowStartThreshold |> <| cs_BytesInFlight := flight |>
                   <| cs_MaximumSegmentSize := mss |> <| cs_SmoothedRTT := smoothedRTT |>
                   <| cs_MaximumPacingRate := cc_maximumPacingRate c |> |>.

(** [syncTransportState] with the smoothed RTT of the state. *)
Definition syncTransport c (window slowStartThreshold flight mss : Z) : tcpCongestionController A :=
  syncTransportState c window slowStartThreshold flight mss (cs_SmoothedRTT (cc_state c)).

(** [clock] is the value of [time.Now]. *)
Definition setMaximumPacingRate c (rate clock : Z) : tcpCongestionController A * bool :=
  if cc_maximumPacingRate c =? rate then (c, false)
  else
    let c := c <| cc_pacingNext := 0 |> <| cc_maximumPacingRate := rate |>
               <| cc_state := cc_state c <| cs_MaximumPacingRate := rate |> |> in
    (if customPacing c && cc_initialized c then
       handleEvent (withEvent (prepareEvent c CongestionEventPacing clock)
         (fun e => e <| ce_Pacing := mkPacing CongestionPacingPolicyChanged 0 0 0 false |>))
     else c, true).

Definition limitPacingRate c (rate : float64) : float64 := limitRate (cc_maximumPacingRate c) rate.

Definition release c (now window threshold flight mss smoothedRTT minimumRTT : Z)
    : tcpCongestionController A :=
  if negb (cc_initialized c) then c
  else
    let c := syncTransportState c window threshold flight mss smoothedRTT in
    let c := c <| cc_state := cc_state c <| cs_MinimumRTT := minimumRTT |> |> in
    handleEvent (prepareEvent c CongestionEventRelease now) <| cc_initialized := false |>.

Definition setCongestionPhase c (phase : CongestionPhase) (now : Z) : tcpCongestionController A :=
  if bool_decide (cs_Phase (cc_state c) = phase) then c
  else
    let previous := cs_Phase (cc_state c) in
    let c := c <| cc_state := cc_state c <| cs_Phase := phase |> |> in
    if negb (cc_initialized c) then c
    else handleEvent (withEvent (prepareEvent c CongestionEventStateChanged now)
           (fun e => e <| ce_PreviousPhase := previous |>)).

Definition cc_onCongestion c (window flight slowStartThreshold mss now : Z)
    : tcpCongestionController A * (Z * Z) :=
  let c := syncTransport c window slowStartThreshold flight mss in
  let c := setCongestionPhase c CongestionPhaseRecovery now in
  let c := handleEvent (prepareEvent c CongestionEventLoss now) in
  (c, (cs_SlowStartThreshold (cc_state c), cs_CongestionWindow (cc_state c))).

Definition cc_onECN c (window flight slowStartThreshold mss now : Z)
    : tcpCongestionController A * (Z * Z) :=
  let c := syncTransport c window slowStartThreshold flight mss in
  let c := setCongestionPhase c CongestionPhaseCWR now in
  let c := handleEvent (prepareEvent c CongestionEventECN now) in
  (c, (cs_SlowStartThreshold (cc_state c), cs_CongestionWindow (cc_state c))).

Definition cc_onTimeout c (window flight slowStartThreshold mss now : Z)
    : tcpCongestionController A * Z :=
  let c := syncTransport c window slowStartThreshold flight mss in
  let c := setCongestionPhase c CongestionPhaseLoss now in
  let c := handleEvent (prepareEvent c CongestionEventTimeout now) in
  (c, cs_SlowStartThreshold (cc_state c)).

Definition onACKWithThreshold c (window acknowledged acknowledgementNumber mss now smoothedRTT minimumRTT
    sampleRTT flight slowStartThreshold : Z) (applicationLimited : bool)
    : tcpCongestionController A * (Z * Z) :=
  if (window =? 0) || (acknowledged =? 0) || (mss <? 1) then (c, (window, slowStartThreshold))
  else
    let c := syncTransportState c window slowStartThreshold flight mss smoothedRTT in
    let c := c <| cc_state := cc_state c <| cs_MinimumRTT := minimumRTT |>
                              <| cs_ApplicationLimited := applicationLimited |> |> in
    let c := withEvent (prepareEvent c CongestionEventACK now) (fun e =>
               e <| ce_Acknowledged := acknowledged |> <| ce_AcknowledgementNumber := acknowledgementNumber |>
                 <| ce_SampleRTT := sampleRTT |> <| ce_RateSample := None |>) in
    let c := handleEvent c in
    (c, (cs_CongestionWindow (cc_state c), cs_SlowStartThreshold (cc_state c))).

(** The sample with its validity, and the accounted controller. *)
Definition finishDeliveryRateSample c (sample : CongestionRateSample)
    (acknowledged priorInFlight inFlight now nowStamp minimumRTT smoothedRTT sampleRTT : Z) (sackReneging : bool)
    : tcpCongestionController A * CongestionRateSample :=
  if negb (usesDeliveryRate c) then (c, sample)
  else
    let '(delivery, sample) := finishRateSample (cc_delivery c) sample acknowledged priorInFlight inFlight now
                                 nowStamp minimumRTT smoothedRTT sampleRTT in
    let sample := if sackReneging then sample <| rs_valid := false |> else sample in
    let c := c <| cc_delivery := delivery |>
               <| cc_state := cc_state c <| cs_MinimumRTT := minimumRTT |> <| cs_SmoothedRTT := smoothedRTT |> |> in
    (syncDeliveryState c, sample).

(** A zero threshold leaves ssthresh unchanged. *)
Definition onDeliveryRateSample c (window slowStartThreshold mss acknowledgementNumber : Z)
    (sample : CongestionRateSample) : tcpCongestionController A * (Z * Z) :=
  if negb (usesDeliveryRate c) then (c, (window, 0))
  else
    let c := syncTransportState c window slowStartThreshold (rs_inFlight sample) mss (rs_smoothedRTT sample) in
    let c := withEvent (prepareEvent c CongestionEventACK (rs_ackTime sample)) (fun e =>
               e <| ce_Acknowledged := rs_acked sample |> <| ce_AcknowledgementNumber := acknowledgementNumber |>
                 <| ce_SampleRTT := rs_rtt sample |> <| ce_RateSample := Some sample |>) in
    let c := handleEvent c in
    let threshold := cs_SlowStartThreshold (cc_state c) in
    (c, (cs_CongestionWindow (cc_state c), if threshold =? slowStartThreshold then 0 else threshold)).

Definition cc_markApplicationLimited c (flight : Z) : tcpCongestionController A :=
  if usesDeliveryRate c
  then syncDeliveryState (c <| cc_delivery := de_markApplicationLimited (cc_delivery c) flight |>)
  else c.

Definition cc_noteLoss c (bytes : Z) (duringACK : bool) : tcpCongestionController A :=
  if usesDeliveryRate c || usesLossEvents c
  then syncDeliveryState (c <| cc_delivery := recordLoss (cc_delivery c) bytes duringACK |>)
  else c.

Definition notePacketLoss c (segment : option sentTCPSegment) (bytes : Z) (duringACK lossEvidenceValid : bool)
    (now window slowStartThreshold flight mss smoothedRTT : Z) : tcpCongestionController A :=
  if bytes =? 0 then c
  else
    let c := cc_noteLoss c bytes duringACK in
    if negb (usesLossEvents c) then c
    else
      let c := syncTransportState c window slowStartThreshold flight mss smoothedRTT in
      let c := withEvent (prepareEvent c CongestionEventPacketLost now) (fun e =>
                 e <| ce_PacketBytes := bytes |> <| ce_PacketLossEvidenceValid := lossEvidenceValid |>) in
      handleEvent
        (match segment with
         | None => c
         | Some segment =>
             withEvent c (fun e =>
               let e := e <| ce_PacketState := st_packetState segment |> in
               if usesDeliveryRate c && (ds_deliveredStamp (st_delivery segment) =? 0)
               then e <| ce_PacketLossEvidenceValid := false |> else e)
         end).

Definition onTailLossProbeRecovered c (now packetBytes packetState window slowStartThreshold flight mss
    smoothedRTT : Z) : tcpCongestionController A :=
  if negb (usesLossEvents c) then c
  else
    let c := syncTransportState c window slowStartThreshold flight mss smoothedRTT in
    handleEvent (withEvent (prepareEvent c CongestionEventTailLossProbeRecovered now) (fun e =>
      e <| ce_PacketBytes := packetBytes |> <| ce_PacketState := packetState |>)).

Definition pacingDelay c (now bytes window flight mss smoothedRTT slowStartThreshold : Z)
    : tcpCongestionController A * Z :=
  if customPacing c then
    let c := c <| cc_state := cc_state c <| cs_CongestionWindow := window |> <| cs_BytesInFlight := flight |> |> in
    let c := handleEvent (withEvent (prepareEvent c CongestionEventPacing now) (fun e =>
               e <| ce_Pacing := mkPacing CongestionPacingQuery bytes (cc_pacingSegments c) 0 false |>)) in
    (c, cp_Delay (ce_Pacing (cc_event c)))
  else if (cc_pacingSegments c <? tcpPacingInitialBurst) || (smoothedRTT <=? 0) || (cc_pacingNext c =? 0)
          || negb (now <? cc_pacingNext c) then (c, 0)
  else (c, pacingTimerDelay (timeSub (cc_pacingNext c) now) tcpUserspacePacingBatch).

Definition onPacingWake c (now flight : Z) : tcpCongestionController A :=
  if customPacing c then
    let c := c <| cc_state := cc_state c <| cs_BytesInFlight := flight |> |> in
    handleEvent (withEvent (prepareEvent c CongestionEventPacing now) (fun e =>
      e <| ce_Pacing := mkPacing CongestionPacingWake 0 0 0 false |>))
  else c.

(** [clock] is the value of [time.Now]. *)
Definition cancelPacingWake c (clock : Z) : tcpCongestionController A :=
  if customPacing c then
    handleEvent (withEvent (prepareEvent c CongestionEventPacing clock) (fun e =>
      e <| ce_Pacing := mkPacing CongestionPacingCancel 0 0 0 false |>))
  else c.

Definition advanceWindowPacing c (bytes mss now window flight smoothedRTT slowStartThreshold : Z)
    (catchUp : bool) : tcpCongestionController A :=
  if bytes <=? 0 then c
  else
    let c := c <| cc_pacingSegments := u64 (cc_pacingSegments c + 1) |> in
    if (cc_pacingSegments c <? tcpPacingInitialBurst) || (smoothedRTT <=? 0) then c
    else
      let modelRate :=
        if cs_UsePacingRate (cc_state c) then f64_of_Z (cs_PacingRate (cc_state c))
        else windowPacingRate window flight smoothedRTT slowStartThreshold in
      if f64_le modelRate f64_zero || isInf modelRate || isNaN modelRate then c
      else
        let c := c <| cc_pacingRate := modelRate |> in
        let c := if negb (cs_UsePacingRate (cc_state c))
                 then c <| cc_state := cc_state c <| cs_PacingRate := congestionRateValue outside modelRate |> |>
                 else c in
        let rate := limitPacingRate c modelRate in
        let delay := pacingDuration outside bytes rate in
        let maximumDebt := if delay <=? maxDuration / tcpPacingInitialBurst
                           then delay * tcpPacingInitialBurst else maxDuration in
        let base := pacingScheduleBase (cc_pacingNext c) now maximumDebt (catchUp && negb (flight =? 0)) in
        c <| cc_pacingNext := base + delay |>.

(** The snapshot and window of an original transmission. *)
Definition onDataSend c (bytes mss now stamp packetsOut window flight smoothedRTT slowStartThreshold : Z)
    : tcpCongestionController A * (tcpDeliverySnapshot * Z) :=
  let c := c <| cc_packetState := 0 |> in
  let '(c, (snapshot, window)) :=
    if usesDeliveryRate c then
      let '(delivery, r) := onDeliveryDataSent (cc_delivery c) stamp packetsOut window in
      (c <| cc_delivery := delivery |>, r)
    else (c, (mkSnapshot 0 0 0, window)) in
  let '(c, window) :=
    if usesTransmissionEvents c then
      let c := c <| cc_state := cc_state c <| cs_CongestionWindow := window |> <| cs_BytesInFlight := flight |> |> in
      let c := handleEvent (withEvent (prepareEvent c CongestionEventPacketSent now) (fun e =>
                 e <| ce_PacketBytes := bytes |> <| ce_OutstandingBytes := packetsOut |>)) in
      (c <| cc_packetState := ce_PacketState (cc_event c) |>, cs_CongestionWindow (cc_state c))
    else (c, window) in
  if customPacing c then (c <| cc_pacingSegments := u64 (cc_pacingSegments c + 1) |>, (snapshot, window))
  else (advanceWindowPacing c bytes mss now window flight smoothedRTT slowStartThreshold true, (snapshot, window)).

Definition onRetransmit c (bytes mss now stamp window flight packetsOut smoothedRTT slowStartThreshold : Z)
    : tcpCongestionController A * tcpDeliverySnapshot :=
  let c := c <| cc_packetState := 0 |> in
  let '(c, snapshot) :=
    if usesDeliveryRate c then
      let '(delivery, snapshot) := onDeliveryRetransmit (cc_delivery c) stamp packetsOut in
      (c <| cc_delivery := delivery |>, snapshot)
    else (c, mkSnapshot 0 0 0) in
  let c :=
    if usesTransmissionEvents c then
      let c := c <| cc_state := cc_state c <| cs_CongestionWindow := window |> <| cs_BytesInFlight := flight |> |> in
      let c := handleEvent (withEvent (prepareEvent c CongestionEventPacketRetransmitted now) (fun e =>
                 e <| ce_PacketBytes := bytes |> <| ce_OutstandingBytes := packetsOut |>)) in
      c <| cc_packetState := ce_PacketState (cc_event c) |>
    else c in
  if customPacing c then (c, snapshot)
  else (advanceWindowPacing c bytes mss now window flight smoothedRTT slowStartThreshold false, snapshot).

Definition onMTUChange c (window slowStartThreshold mss clock : Z) : tcpCongestionController A :=
  let c := c <| cc_pacingNext := 0 |> in
  let previousMSS := cs_MaximumSegmentSize (cc_state c) in
  let c := syncTransport c window slowStartThreshold (cs_BytesInFlight (cc_state c)) mss in
  handleEvent (withEvent (prepareEvent c CongestionEventMTUChanged clock) (fun e =>
    e <| ce_PreviousMaximumSegmentSize := previousMSS |>)).

Definition initialize c (phase : CongestionPhase) (now minimumRTT smoothedRTT window slowStartThreshold mss
    stamp : Z) : tcpCongestionController A * (Z * Z) :=
  let c := if usesDeliveryRate c then c <| cc_delivery := initializeDelivery (cc_delivery c) stamp |> else c in
  let c := c <| cc_state := cc_state c <| cs_CongestionWindow := window |>
                 <| cs_SlowStartThreshold := slowStartThreshold |> <| cs_MaximumSegmentSize := mss |>
                 <| cs_MinimumRTT := minimumRTT |> <| cs_SmoothedRTT := smoothedRTT |>
                 <| cs_MaximumPacingRate := cc_maximumPacingRate c |> <| cs_Phase := phase |> |> in
  let c := handleEvent (prepareEvent (syncDeliveryState c) CongestionEventInitialize now) in
  (c <| cc_initialized := true |>, (cs_CongestionWindow (cc_state c), cs_SlowStartThreshold (cc_state c))).

Definition sendBufferMultiplier c : Z := cc_sendBufferMultiple c.

(** ** Recovery callbacks *)

(** Dispatching a recovery event with its payload. *)
Definition recoveryEvent c (now : Z) (r : CongestionRecovery) : tcpCongestionController A :=
  handleEvent (withEvent (prepareEvent c CongestionEventRecovery now) (fun e => e <| ce_Recovery := r |>)).

Definition checkpointRecovery c (now window threshold flight mss : Z) : tcpCongestionController A :=
  let c := syncTransport c window threshold flight mss in
  handleEvent (withEvent (prepareEvent c CongestionEventRecovery now) (fun e =>
    let r := ce_Recovery e in
    e <| ce_Recovery := mkRecovery CongestionRecoveryCheckpoint (cr_SACK r) (cr_OrdinaryFlight r)
           (cr_LossFlight r) (cr_Flight r) (cr_PreviousWindow r) (cr_Acknowledged r) (cr_ProposedWindow r) |>)).

Definition undoRecovery c (now previousWindow window threshold flight mss : Z) (phase : CongestionPhase)
    : tcpCongestionController A * (Z * Z) :=
  let c := syncTransport c window threshold flight mss in
  let c := recoveryEvent c now (mkRecovery CongestionRecoveryUndo false 0 0 flight previousWindow 0 window) in
  let '(c, window, threshold) :=
    if customRecovery c then (c, cs_CongestionWindow (cc_state c), cs_SlowStartThreshold (cc_state c))
    else (c <| cc_state := cc_state c <| cs_CongestionWindow := window |>
                             <| cs_SlowStartThreshold := threshold |> |>, window, threshold) in
  (setCongestionPhase c phase now, (window, threshold)).

Definition recoveryFlight c (now ordinary lossBased : Z) : tcpCongestionController A * Z :=
  if negb (customRecovery c) then (c, lossBased)
  else
    let c := c <| cc_state := cc_state c <| cs_BytesInFlight := ordinary |> |> in
    let c := recoveryEvent c now (mkRecovery CongestionRecoverySelectFlight false ordinary lossBased lossBased 0 0 0) in
    (c, cr_Flight (ce_Recovery (cc_event c))).

Definition recoveryWindow c (now current flight threshold mss : Z) (sack : bool)
    : tcpCongestionController A * Z :=
  let window := if negb sack then growCongestionWindow threshold (u32 (3 * mss)) else threshold in
  let c := syncTransport c window threshold flight mss in
  let c := setCongestionPhase c CongestionPhaseRecovery now in
  if negb (customRecovery c) then (c, window)
  else
    let c := recoveryEvent c now (mkRecovery CongestionRecoveryEnter sack 0 0 flight current 0 window) in
    (c, cs_CongestionWindow (cc_state c)).

Definition applyPRRWindow c (now current proposed flight : Z) : tcpCongestionController A * Z :=
  if negb (customRecovery c) then (c, proposed)
  else
    let c := c <| cc_state := cc_state c <| cs_CongestionWindow := proposed |> <| cs_BytesInFlight := flight |> |> in
    let c := recoveryEvent c now (mkRecovery CongestionRecoveryPRR true 0 0 flight current 0 proposed) in
    (c, cs_CongestionWindow (cc_state c)).

Definition exitRecoveryWindow c (now current threshold flight : Z) (sack : bool)
    : tcpCongestionController A * Z :=
  let c := c <| cc_state := cc_state c <| cs_CongestionWindow := threshold |>
                 <| cs_SlowStartThreshold := threshold |> <| cs_BytesInFlight := flight |> |> in
  if negb (customRecovery c) then (setCongestionPhase c CongestionPhaseOpen now, threshold)
  else
    let c := recoveryEvent c now (mkRecovery CongestionRecoveryExit sack 0 0 flight current 0 threshold) in
    let window := cs_CongestionWindow (cc_state c) in
    (setCongestionPhase c CongestionPhaseOpen (ce_Time (cc_event c)), window).

Definition partialACKWindow c (now current acknowledged flight mss : Z) : tcpCongestionController A * Z :=
  let window := newRenoPartialACKWindow current acknowledged mss in
  if negb (customRecovery c) then (c, window)
  else
    let c := c <| cc_state := cc_state c <| cs_CongestionWindow := window |> <| cs_BytesInFlight := flight |>
                                         <| cs_MaximumSegmentSize := mss |> |> in
    let c := recoveryEvent c now (mkRecovery CongestionRecoveryPartialACK false 0 0 flight current acknowledged window) in
    (c, cs_CongestionWindow (cc_state c)).

Definition duplicateACKWindow c (now current flight mss : Z) : tcpCongestionController A * Z :=
  let window := growCongestionWindow current (u32 mss) in
  if negb (customRecovery c) then (c, window)
  else
    let c := c <| cc_state := cc_state c <| cs_CongestionWindow := window |> <| cs_BytesInFlight := flight |>
                                         <| cs_MaximumSegmentSize := mss |> |> in
    let c := recoveryEvent c now (mkRecovery CongestionRecoveryDuplicateACK false 0 0 flight current 0 window) in
    (c, cs_CongestionWindow (cc_state c)).

Definition diagnostics c (now window threshold flight mss smoothedRTT minimumRTT : Z)
    : tcpCongestionController A * CongestionDiagnostics :=
  let c := syncTransportState c window threshold flight mss smoothedRTT in
  let c := syncDeliveryState (c <| cc_state := cc_state c <| cs_MinimumRTT := minimumRTT |> |>) in
  let c := handleEvent (withEvent (prepareEvent c CongestionEventDiagnostics now) (fun e =>
             e <| ce_Diagnostics := zeroDiagnostics |>)) in
  let d := ce_Diagnostics (cc_event c) in
  (c, if negb (customPacing c)
      then mkDiagnostics (cd_DeliveryRate d) (congestionRateValue outside (limitPacingRate c (cc_pacingRate c)))
             (cd_State d) (cd_ApplicationLimited d) (cd_SchedulerLimited d) (cd_SchedulerLimitedEvents d)
      else d).

End Adapter.

(** ** Conservative slow start *)

(** One ACK: its number, the next sequence, the bytes it acknowledged, its RTT
    sample. *)
Definition hyACK : Type := (Z * Z * Z * Z)%type.

Definition roundEnds (h : tcpHyStart) (a : hyACK) : bool :=
  let '(acknowledgement, _, acknowledged, _) := a in
  negb (acknowledged =? 0) && tcpSequenceGreaterEqual acknowledgement (hy_windowEnd h).

Definition hyBytes (acks : list hyACK) : Z := foldr (fun a n => let '(_, _, acknowledged, _) := a in acknowledged + n) 0 acks.

(** A stretch of ACKs that stays in conservative slow start: the state after it,
    the growth it allowed and the rounds it ended; [None] when the phase ends. *)
Fixpoint cssRun (h : tcpHyStart) (acks : list hyACK) : option (tcpHyStart * (Z * Z)) :=
  match acks with
  | [] => Some (h, (0, 0))
  | ((acknowledgement, sendNext, acknowledged, rtt) as a) :: acks =>
      let '(h', (growth, completed)) := hy_onACK h acknowledgement sendNext acknowledged rtt in
      if completed || negb (hy_css h') then None
      else
        '(h'', (total, rounds)) ← cssRun h' acks;
        Some (h'', (growth + total, (if roundEnds h a then 1 else 0) + rounds))
  end.

Definition cssOk (h : tcpHyStart) : Prop :=
  hy_css h = true /\ hy_done h = false /\ 0 <= hy_cssCredit h < hyStartCSSGrowthDivisor /\
  1 <= hy_cssRounds h <= hyStartCSSRounds.

Lemma hy_sample_css h rtt : hy_css (hy_sample h rtt) = hy_css h /\ hy_cssCredit (hy_sample h rtt) = hy_cssCredit h /\
  hy_cssRounds (hy_sample h rtt) = hy_cssRounds h /\ hy_done (hy_sample h rtt) = hy_done h.
Proof. unfold hy_sample. destruct (0 <? rtt); [|done]. cbv zeta. by destruct (_ || _). Qed.

(** A decision in CSS keeps the phase as it is or returns to slow start. *)
Lemma hy_decide_css h : hy_css h = true -> hy_decide h = h \/ hy_css (hy_decide h) = false.
Proof. intros Hc. unfold hy_decide. destruct (_ <=? _); [|by left]. rewrite Hc. destruct (_ <? _); [by right|by left]. Qed.

Lemma hy_onACK_css h acknowledgement sendNext acknowledged rtt h' growth :
  cssOk h -> is_u32 acknowledged -> hy_onACK h acknowledgement sendNext acknowledged rtt = (h', (growth, false)) ->
  hy_css h' = true ->
  cssOk h' /\ 4 * growth + hy_cssCredit h' = hy_cssCredit h + acknowledged /\
  hy_cssRounds h' = hy_cssRounds h + if roundEnds h (acknowledgement, sendNext, acknowledged, rtt) then 1 else 0.
Proof.
  intros (Hc & Hd & Hr & Hn) Ha. unfold hy_onACK, roundEnds. rewrite Hd. cbn [orb].
  destruct (Z.eqb_spec acknowledged 0) as [->|Hz]; [intros [= <- <-] _; unfold cssOk; cbn [negb andb Z.eqb]; split_and!; try done; lia|].
  destruct (hy_round _ _ _) as [h1|] eqn:E1; [|done]. cbn [negb andb].
  assert (hy_css h1 = true /\ hy_done h1 = false /\ hy_cssCredit h1 = hy_cssCredit h /\
    hy_cssRounds h1 = hy_cssRounds h + (if tcpSequenceGreaterEqual acknowledgement (hy_windowEnd h) then 1 else 0) /\
    hy_cssRounds h1 <= hyStartCSSRounds) as (H1 & H2 & H3 & H4 & H5).
  { unfold hy_round in E1. destruct (tcpSequenceGreaterEqual _ _).
    - rewrite Hc in E1. destruct (_ <=? _) eqn:E; [done|]. injection E1 as <-. cbn. rewrite Hc, Hd. split_and!; try done; lia.
    - injection E1 as <-. split_and!; try done; lia. }
  clear E1. destruct (hy_sample_css h1 rtt) as (S1 & S2 & S3 & S4). rewrite <- S1, <- S2, <- S3, <- S4 in *.
  destruct (hy_decide_css _ H1) as [->|Hn']; [|rewrite Hn'; cbn [negb]; intros [= <- <-]; congruence].
  rewrite H1. cbn [negb]. intros [= <- <-] _. cbn. unfold cssOk, hyStartCSSGrowthDivisor, is_u32 in *. cbn.
  rewrite H3 in *. rewrite !u32_id by (unfold is_u32; zlia). destruct (tcpSequenceGreaterEqual _ _); split_and!; try done; zlia.
Qed.

(** C36. Conservative slow start is exact and bounded: while it lasts, however
    the acknowledged bytes are split over ACKs, the window grows by exactly a
    quarter of them (the division carries its remainder), and it does not see
    more round ends than the rounds left to it: after five rounds it has
    ended. *)
Theorem conservative_slow_start_exact acks : forall h h' growth rounds,
  cssOk h -> Forall (fun a => let '(_, _, acknowledged, _) := a in is_u32 acknowledged) acks ->
  cssRun h acks = Some (h', (growth, rounds)) ->
  growth = (hy_cssCredit h + hyBytes acks) / hyStartCSSGrowthDivisor /\
  hy_cssCredit h' = (hy_cssCredit h + hyBytes acks) mod hyStartCSSGrowthDivisor /\
  rounds = hy_cssRounds h' - hy_cssRounds h /\ hy_cssRounds h' <= hyStartCSSRounds.
Proof.
  induction acks as [|[[[acknowledgement sendNext] acknowledged] rtt] acks IH]; intros h h' growth rounds Hok Hu Hrun.
  { injection Hrun as <- <- <-. destruct Hok as (_ & _ & Hr & Hn). cbn [hyBytes foldr]. unfold hyStartCSSGrowthDivisor in *.
    split_and!; zlia. }
  cbn [cssRun] in Hrun. apply list.Forall_cons in Hu as [Ha Hu].
  destruct (hy_onACK _ _ _ _ _) as [h1 [g completed]] eqn:E1. destruct completed; [done|]. cbn [orb] in Hrun.
  destruct (hy_css h1) eqn:Ec; [|done]. cbn [negb] in Hrun.
  destruct (hy_onACK_css _ _ _ _ _ _ _ Hok Ha E1 Ec) as (Hok1 & Hg & Hn).
  destruct (cssRun h1 acks) as [[h2 [total n]]|] eqn:E2; [|done]. injection Hrun as <- <- <-.
  destruct (IH _ _ _ _ Hok1 Hu E2) as (I1 & I2 & I3 & I4).
  cbn [hyBytes foldr]. fold (hyBytes acks). unfold hyStartCSSGrowthDivisor in *.
  replace (hy_cssCredit h + (acknowledged + hyBytes acks)) with (hy_cssCredit h1 + hyBytes acks + g * 4) by lia.
  rewrite Z.div_add, Z_mod_plus_full by done. split_and!; [lia|done|unfold roundEnds in Hn; lia|done].
Qed.

Lemma conservative_slow_start_exact_witness :
  let h := mkHyStart 100 second second 8 true second 1 3 false in
  exists h', cssRun h [(50, 200, 1461, second); (120, 300, 1460, second); (150, 300, 2, second)] = Some (h', (731, 1)) /\
  731 = (3 + 2923) / hyStartCSSGrowthDivisor /\ hy_cssCredit h' = 2.
Proof.
  cbv zeta. eexists. split; [by vm_compute|].
  destruct (conservative_slow_start_exact [(50, 200, 1461, second); (120, 300, 1460, second); (150, 300, 2, second)]
    (mkHyStart 100 second second 8 true second 1 3 false) _ 731 1 ltac:(by vm_compute)
    ltac:(repeat constructor; by vm_compute) ltac:(by vm_compute)) as (Hg & Hc & _).
  split; [exact Hg|]. by vm_compute.
Defined.
