(* ===== verification/LossBased.v ===== *)
(** * The loss-based congestion controllers

    Reno of [congestion_reno.go] and CUBIC of [congestion_cubic.go] as
    instances of the controller interface.  [math.Cbrt] and float conversions
    out of range are parameters. *)

From stdpp Require Import strings.
From S2P Require Import Prelude SeqNum Rtt Windows Scoreboard Float64 DeliveryRate Congestion.

(** ** Reno *)

Module Reno.

Definition renoRecoveryCheckpointValid : Z := Z.shiftl 1 63.

Record renoCongestionControl := mkReno {
  rn_credit : float64;
  rn_recoveryCheckpoint : Z }.

Definition newRenoCongestionControl : renoCongestionControl := mkReno f64_zero 0.

Section Algorithm.

Variable outside : float64 -> Z.

Definition rn_reduceOnLoss (r : renoCongestionControl) (flight mss : Z) : renoCongestionControl * Z :=
  (mkReno f64_zero (rn_recoveryCheckpoint r), congestionThreshold flight mss 1 2).

Definition rn_reduceOnECN (r : renoCongestionControl) (flight mss : Z) : renoCongestionControl * Z :=
  (mkReno f64_zero (rn_recoveryCheckpoint r), congestionThresholdWithFloor flight mss 1 2 1).

Definition rn_reduceOnTimeout (r : renoCongestionControl) (flight mss : Z) : renoCongestionControl * Z :=
  (mkReno f64_zero (rn_recoveryCheckpoint r), congestionThreshold flight mss 1 2).

Definition rn_increaseOnACK (r : renoCongestionControl) (window acknowledged mss flight slowStartThreshold : Z)
    : renoCongestionControl * Z :=
  if negb (congestionWindowLimited window flight mss) then (r, window)
  else
    let '(window, acknowledged) := applySlowStart window acknowledged slowStartThreshold in
    if acknowledged =? 0 then (r, window)
    else
      let '(window, credit) := applyCongestionIncrease outside window (rn_credit r)
                                 (additiveIncrease window acknowledged mss) in
      (mkReno credit (rn_recoveryCheckpoint r), window).

Definition rn_recovery (r : renoCongestionControl) (stage : CongestionRecoveryStage) : renoCongestionControl :=
  match stage with
  | CongestionRecoveryCheckpoint =>
      mkReno (rn_credit r) (float64bits (rn_credit r) .| renoRecoveryCheckpointValid)
  | CongestionRecoveryUndo =>
      mkReno (if negb (rn_recoveryCheckpoint r .& renoRecoveryCheckpointValid =? 0)
              then float64frombits (rn_recoveryCheckpoint r .&^ renoRecoveryCheckpointValid)
              else rn_credit r) 0
  | _ => r
  end.

Definition reno_controller : CongestionController renoCongestionControl := fun r s e =>
  match ce_Type e with
  | CongestionEventACK =>
      let '(r, window) := rn_increaseOnACK r (cs_CongestionWindow s) (ce_Acknowledged e)
                            (cs_MaximumSegmentSize s) (cs_BytesInFlight s) (cs_SlowStartThreshold s) in
      (r, s <| cs_CongestionWindow := window |>, e)
  | CongestionEventLoss =>
      let '(r, threshold) := rn_reduceOnLoss r (cs_BytesInFlight s) (cs_MaximumSegmentSize s) in
      (r, s <| cs_SlowStartThreshold := threshold |>, e)
  | CongestionEventECN =>
      let '(r, threshold) := rn_reduceOnECN r (cs_BytesInFlight s) (cs_MaximumSegmentSize s) in
      (r, s <| cs_SlowStartThreshold := threshold |> <| cs_CongestionWindow := threshold |>, e)
  | CongestionEventTimeout =>
      let '(r, threshold) := rn_reduceOnTimeout r (cs_BytesInFlight s) (cs_MaximumSegmentSize s) in
      (r, s <| cs_SlowStartThreshold := threshold |>, e)
  | CongestionEventRecovery => (rn_recovery r (cr_Stage (ce_Recovery e)), s, e)
  | CongestionEventMTUChanged => (mkReno f64_zero 0, s, e)
  | _ => (r, s, e)
  end.

End Algorithm.

#[export] Existing Instance reno_controller.

End Reno.

(** ** CUBIC *)

Module Cubic.

(** The private state, and what a checkpoint keeps of it. *)
Record cubicEpoch := mkEpoch {
  cu_epochStart : Z;
  cu_lastSend : Z;
  cu_applicationLimited : Z;
  cu_lastMaximum : float64;
  cu_priorWindow : float64;
  cu_estimate : float64;
  cu_origin : float64;
  cu_k : float64;
  cu_credit : float64;
  cu_afterTimeout : bool }.

#[export] Instance cubicEpoch_settable : Settable cubicEpoch := fun c =>
  mkEpoch (cu_epochStart c) (cu_lastSend c) (cu_applicationLimited c) (cu_lastMaximum c) (cu_priorWindow c)
    (cu_estimate c) (cu_origin c) (cu_k c) (cu_credit c) (cu_afterTimeout c).

Definition zeroEpoch : cubicEpoch :=
  mkEpoch 0 0 0 f64_zero f64_zero f64_zero f64_zero f64_zero f64_zero false.

(** The checkpoint is valid or [None]. *)
Record cubicCongestionControl := mkCubic {
  cu_epoch : cubicEpoch;
  cu_recovery : option cubicEpoch }.

#[export] Instance cubicCongestionControl_settable : Settable cubicCongestionControl := fun c =>
  mkCubic (cu_epoch c) (cu_recovery c).

Definition newCUBICCongestionControl : cubicCongestionControl := mkCubic zeroEpoch None.

Section Algorithm.

Variable outside : float64 -> Z.
Variable cbrt : float64 -> float64.

Definition segments (window mss : Z) : float64 := f64_div (f64_of_Z window) (f64_of_Z mss).

Definition saveRecoveryCheckpoint (c : cubicCongestionControl) : cubicCongestionControl :=
  c <| cu_recovery := Some (cu_epoch c) |>.

Definition restoreRecoveryCheckpoint (c : cubicCongestionControl) : cubicCongestionControl :=
  match cu_recovery c with None => c | Some checkpoint => mkCubic checkpoint None end.

Definition cu_onSend (c : cubicEpoch) (now flight : Z) : cubicEpoch :=
  let c :=
    if negb (cu_epochStart c =? 0) then
      let idleSince := if (cu_applicationLimited c =? 0) && (flight =? 0) then cu_lastSend c
                       else cu_applicationLimited c in
      if negb (idleSince =? 0) && (idleSince <? now) then
        let start := cu_epochStart c + timeSub now idleSince in
        c <| cu_epochStart := if now <? start then now else start |>
      else c
    else c in
  c <| cu_applicationLimited := 0 |> <| cu_lastSend := now |>.

Definition cu_onApplicationLimited (c : cubicEpoch) (now : Z) : cubicEpoch :=
  if cu_applicationLimited c =? 0 then c <| cu_applicationLimited := now |> else c.

Definition cu_reduce (c : cubicEpoch) (window mss minimumSegments : Z) : cubicEpoch * Z :=
  let current := segments window mss in
  let lastMaximum := if negb (f64_eq (cu_lastMaximum c) f64_zero) && f64_lt current (cu_lastMaximum c)
                     then f64_mul current (f64_ratio 85 100) else current in
  (c <| cu_lastMaximum := lastMaximum |> <| cu_epochStart := 0 |> <| cu_applicationLimited := 0 |>
     <| cu_priorWindow := current |> <| cu_estimate := f64_zero |> <| cu_credit := f64_zero |>
     <| cu_afterTimeout := false |>,
   congestionThresholdWithFloor window mss 7 10 minimumSegments).

Definition cu_onCongestion (c : cubicEpoch) (window mss : Z) : cubicEpoch * Z := cu_reduce c window mss 2.
Definition cu_onECN (c : cubicEpoch) (window mss : Z) : cubicEpoch * Z := cu_reduce c window mss 1.

Definition cu_onTimeout (window mss : Z) : cubicEpoch * Z :=
  (mkEpoch 0 0 0 f64_zero (segments window mss) f64_zero f64_zero f64_zero f64_zero true,
   congestionThreshold window mss 7 10).

(** The start of a congestion-avoidance epoch. *)
Definition startEpoch (c : cubicEpoch) (current : float64) (now : Z) : cubicEpoch :=
  let c := c <| cu_epochStart := now |> <| cu_estimate := current |> in
  let c := if f64_eq (cu_priorWindow c) f64_zero then c <| cu_priorWindow := current |> else c in
  if cu_afterTimeout c then
    c <| cu_lastMaximum := current |> <| cu_origin := current |> <| cu_k := f64_zero |>
      <| cu_afterTimeout := false |>
  else if f64_lt current (cu_lastMaximum c) then
    c <| cu_origin := cu_lastMaximum c |>
      <| cu_k := cbrt (f64_div (f64_sub (cu_lastMaximum c) current) (f64_ratio 4 10)) |>
  else c <| cu_origin := current |> <| cu_k := f64_zero |>.

(** [0.4 * offset^3 + origin] *)
Definition curveAt (offset origin : float64) : float64 :=
  f64_add (f64_mul (f64_ratio 4 10) (f64_mul (f64_mul offset offset) offset)) origin.

Definition cu_onACK (c : cubicEpoch) (window acknowledged mss now smoothedRTT : Z) : cubicEpoch * Z :=
  if (window =? 0) || (acknowledged =? 0) || (mss <? 1) then (c, window)
  else
    let current := segments window mss in
    let c := if cu_epochStart c =? 0 then startEpoch c current now else c in
    let alpha := if f64_lt f64_zero (cu_priorWindow c) && f64_le (cu_priorWindow c) (cu_estimate c)
                 then f64_of_Z 1 else f64_ratio 9 17 in
    let c := c <| cu_estimate := f64_add (cu_estimate c)
                    (f64_div (f64_mul alpha (f64_of_Z acknowledged)) (f64_of_Z window)) |> in
    let elapsed := durationSeconds (timeSub now (cu_epochStart c)) in
    let elapsed := if f64_lt elapsed f64_zero then f64_zero else elapsed in
    let curve := curveAt (f64_sub elapsed (cu_k c)) (cu_origin c) in
    let target := curveAt (f64_sub (f64_add elapsed (durationSeconds smoothedRTT)) (cu_k c)) (cu_origin c) in
    let maximum := f64_mul (f64_ratio 15 10) current in
    let target := if f64_lt target current then current
                  else if f64_lt maximum target then maximum else target in
    let increment :=
      if f64_lt curve (cu_estimate c) then f64_mul (f64_sub (cu_estimate c) current) (f64_of_Z mss)
      else if f64_lt current target
      then f64_div (f64_mul (f64_of_Z acknowledged) (f64_sub target current)) current
      else f64_zero in
    let '(window, credit) := applyCongestionIncrease outside window (cu_credit c) increment in
    (c <| cu_credit := credit |>, window).

Definition cu_increaseOnACK (c : cubicEpoch) (window acknowledged mss now smoothedRTT flight slowStartThreshold : Z)
    : cubicEpoch * Z :=
  if negb (congestionWindowLimited window flight mss) then (cu_onApplicationLimited c now, window)
  else
    let '(window, acknowledged) := applySlowStart window acknowledged slowStartThreshold in
    if acknowledged =? 0 then (c, window) else cu_onACK c window acknowledged mss now smoothedRTT.

Definition cubic_controller : CongestionController cubicCongestionControl := fun c s e =>
  let set epoch := c <| cu_epoch := epoch |> in
  match ce_Type e with
  | CongestionEventACK =>
      let '(epoch, window) := cu_increaseOnACK (cu_epoch c) (cs_CongestionWindow s) (ce_Acknowledged e)
                                (cs_MaximumSegmentSize s) (ce_Time e) (cs_SmoothedRTT s) (cs_BytesInFlight s)
                                (cs_SlowStartThreshold s) in
      (set epoch, s <| cs_CongestionWindow := window |>, e)
  | CongestionEventLoss =>
      let '(epoch, threshold) := cu_onCongestion (cu_epoch c) (cs_CongestionWindow s) (cs_MaximumSegmentSize s) in
      (set epoch, s <| cs_SlowStartThreshold := threshold |>, e)
  | CongestionEventECN =>
      let '(epoch, threshold) := cu_onECN (cu_epoch c) (cs_CongestionWindow s) (cs_MaximumSegmentSize s) in
      (set epoch, s <| cs_SlowStartThreshold := threshold |> <| cs_CongestionWindow := threshold |>, e)
  | CongestionEventTimeout =>
      let '(epoch, threshold) := cu_onTimeout (cs_CongestionWindow s) (cs_MaximumSegmentSize s) in
      (set epoch, s <| cs_SlowStartThreshold := threshold |>, e)
  | CongestionEventPacketSent => (set (cu_onSend (cu_epoch c) (ce_Time e) (cs_BytesInFlight s)), s, e)
  | CongestionEventRecovery =>
      (match cr_Stage (ce_Recovery e) with
       | CongestionRecoveryCheckpoint => saveRecoveryCheckpoint c
       | CongestionRecoveryUndo => restoreRecoveryCheckpoint c
       | _ => c
       end, s, e)
  | CongestionEventMTUChanged => (newCUBICCongestionControl, s, e)
  | _ => (c, s, e)
  end.

End Algorithm.

#[export] Existing Instance cubic_controller.

End Cubic.
