(* ===== verification/ReceiveWindow.v ===== *)
(** * The advertised receive window

    [tcpReceiveWindow] of [tcp.go]: the right edge promised to the peer and the
    wire window computed from the free storage, with the receiver side of
    silly-window avoidance; and [tcpBufferAutoTune], the measurement behind
    automatic buffer growth. *)

From S2P Require Import Prelude SeqNum Rtt Float64.

Definition tcpMaximumWindowScale : Z := 14.
Definition tcpAutoTuneMinimumInterval : Z := 10 * millisecond.

(** ** The window *)

Record tcpReceiveWindow := mkReceiveWindow {
  rw_right : Z;
  rw_shift : Z;
  rw_quantumReserve : Z }.

#[export] Instance tcpReceiveWindow_settable : Settable tcpReceiveWindow := fun w =>
  mkReceiveWindow (rw_right w) (rw_shift w) (rw_quantumReserve w).

Definition newTCPReceiveWindow (receiveNext initial : Z) (scaled initialScaled : bool) (scale : Z)
    : tcpReceiveWindow :=
  let shift := if scaled then (if tcpMaximumWindowScale <? scale then tcpMaximumWindowScale else scale) else 0 in
  let initialBytes := if initialScaled then u32 (initial * 2 ^ shift) else initial in
  mkReceiveWindow (receiveNext ⊞ initialBytes) shift 0.

(** The loop of [tcpReceiveWindowScaleFor], [fuel] more scales to try. *)
Fixpoint scaleLoop (fuel : nat) (scale maximum : Z) : Z :=
  match fuel with
  | O => scale
  | S fuel => if (scale <? tcpMaximumWindowScale) && (65535 * 2 ^ scale <? maximum)
              then scaleLoop fuel (scale + 1) maximum else scale
  end.

Definition tcpReceiveWindowScaleFor (maximum : Z) : Z :=
  if maximum <=? 65535 then 0 else scaleLoop 15 0 maximum.

(** The step that may move the edge to the free storage. *)
Definition regularEdge (w : tcpReceiveWindow) (desired minimumIncrease : Z) : Z * Z :=
  if tcpSequenceGreater desired (rw_right w) then
    let increase := desired ⊟ rw_right w in
    let minimumIncrease := if minimumIncrease <? 0 then 0 else minimumIncrease in
    if u32 minimumIncrease <=? increase then (desired, 0) else (rw_right w, rw_quantumReserve w)
  else (rw_right w, rw_quantumReserve w).

(** The scaled zero window that reopens by one quantum. *)
Definition reopenedEdge (w : tcpReceiveWindow) (receiveNext available minimumIncrease : Z) (edge : Z * Z) : Z * Z :=
  let '(rightEdge, reserve) := edge in
  let quantum := 2 ^ rw_shift w in
  if negb (rw_shift w =? 0) && (0 <? minimumIncrease) && (minimumIncrease <=? available) then
    let advertisedBytes := if negb (tcpSequenceLess rightEdge receiveNext) then rightEdge ⊟ receiveNext else 0 in
    if advertisedBytes <? quantum then
      let candidateRight := receiveNext ⊞ quantum in
      if tcpSequenceGreater candidateRight rightEdge
      then (candidateRight, if u32 available <? quantum then u16 (quantum - u32 available) else 0)
      else (rightEdge, reserve)
    else (rightEdge, reserve)
  else (rightEdge, reserve).

(** The wire window, the right edge and the reserve. *)
Definition rw_next (w : tcpReceiveWindow) (receiveNext available minimumIncrease : Z) : Z * Z * Z :=
  let available := if available <? 0 then 0 else available in
  let maximum := u32 (65535 * 2 ^ rw_shift w) in
  let available := if maximum <? u64 available then maximum else available in
  let quantum := u32 (2 ^ rw_shift w) in
  let desired := receiveNext ⊞ (u32 (available / 2 ^ rw_shift w) * quantum) in
  let '(rightEdge, reserve) :=
    reopenedEdge w receiveNext available minimumIncrease (regularEdge w desired minimumIncrease) in
  if tcpSequenceLess rightEdge receiveNext then (0, rightEdge, 0)
  else
    let reserve := if rightEdge =? receiveNext then 0 else reserve in
    (u16 ((rightEdge ⊟ receiveNext) / 2 ^ rw_shift w), rightEdge, reserve).

Definition rw_size (w : tcpReceiveWindow) (receiveNext : Z) : Z :=
  if tcpSequenceLess (rw_right w) receiveNext then 0 else rw_right w ⊟ receiveNext.

Definition tcpReceiveWindowIncrease (capacity mss : Z) : Z :=
  if capacity <? 1 then 0
  else
    let threshold := Z.quot capacity 2 + Z.rem capacity 2 in
    if (0 <? mss) && (mss <? threshold) then mss else threshold.

(** ** Automatic buffer growth *)

Record tcpBufferAutoTune := mkAutoTune { at_updated : Z; at_bytes : Z }.

(** [outside] is the value of a float conversion out of range. *)
Definition at_target (outside : float64 -> Z) (t : tcpBufferAutoTune) (now rtt total maximum : Z)
    : tcpBufferAutoTune * Z :=
  if rtt <=? 0 then (t, 0)
  else if at_updated t =? 0 then (mkAutoTune now total, 0)
  else
    let elapsed := timeSub now (at_updated t) in
    let interval := if rtt <? tcpAutoTuneMinimumInterval then tcpAutoTuneMinimumInterval else rtt in
    if elapsed <? interval then (t, 0)
    else
      let delta := u64 (total - at_bytes t) in
      let t := mkAutoTune now total in
      if delta =? 0 then (t, 0)
      else
        let perRTT :=
          if rtt <? elapsed
          then f64_to_uint64 outside (f64_div (f64_mul (f64_of_Z delta) (f64_of_Z rtt)) (f64_of_Z elapsed))
          else delta in
        if maximum <=? 0 then (t, 0)
        else
          let perRTT := if Z.quot maximum 2 <? perRTT then Z.quot maximum 2 else perRTT in
          (t, perRTT * 2).

(** ** The promise

    In stream offsets: the edge [rw_right] and the next byte are the 32-bit
    images of [R] and [N]; a consumed FIN may pass the edge by one. *)

Record promiseOk (base R N : Z) (w : tcpReceiveWindow) : Prop := {
  po_right : rw_right w = base ⊞ R;
  po_shift : 0 <= rw_shift w <= tcpMaximumWindowScale;
  po_order : N - 1 <= R;
  po_span : R - N <= 65535 * 2 ^ rw_shift w;
  po_reserve : 0 <= rw_quantumReserve w < 2 ^ rw_shift w }.

Lemma quantum_bounds shift : 0 <= shift <= tcpMaximumWindowScale -> 1 <= 2 ^ shift <= 16384.
Proof.
  intros H. unfold tcpMaximumWindowScale in H. split; [pose proof (Z.pow_pos_nonneg 2 shift ltac:(lia) ltac:(lia)); lia|].
  change 16384 with (2 ^ 14). apply Z.pow_le_mono_r; lia.
Qed.

Lemma greater_offsets b i j :
  -2147483648 < i - j < 2147483648 -> tcpSequenceGreater (b ⊞ i) (b ⊞ j) = (j <? i).
Proof. intros H. unfold tcpSequenceGreater. apply less_offsets. lia. Qed.

Lemma sub_offsets b i j : 0 <= i - j < 4294967296 -> (b ⊞ i) ⊟ (b ⊞ j) = i - j.
Proof. intros H. word. Qed.

Lemma add_offset b i j : (b ⊞ i) ⊞ j = b ⊞ (i + j).
Proof. word. Qed.

(** The regular step keeps the edge or moves it to whole quanta of storage. *)
Lemma regularEdge_spec base R N w k minimumIncrease :
  promiseOk base R N w -> 0 <= k <= 65535 -> minimumIncrease <= 65535 ->
  exists R', regularEdge w ((base ⊞ N) ⊞ (k * 2 ^ rw_shift w)) minimumIncrease
    = (base ⊞ R', if decide (R' = R) then rw_quantumReserve w else 0) /\
  R <= R' /\ (R' = R \/ (R' = N + k * 2 ^ rw_shift w /\ R < R')) /\
  (R < N + k * 2 ^ rw_shift w -> minimumIncrease <= N + k * 2 ^ rw_shift w - R -> R' = N + k * 2 ^ rw_shift w) /\
  (R' = R \/ minimumIncrease <= R' - R).
Proof.
  intros [Hr Hs Ho Hp Hq] Hk Hm. pose proof (quantum_bounds _ Hs) as Hb. set (q := 2 ^ rw_shift w) in *. clearbody q.
  assert (0 <= k * q <= 65535 * 16384) as Hkq by nia. assert (-1 <= R - N <= 65535 * 16384) as Hd by nia.
  unfold regularEdge. rewrite Hr, add_offset. rewrite greater_offsets by lia.
  destruct (Z.ltb_spec R (N + k * q)); [|exists R; rewrite decide_True by done; split_and!; lia || done].
  rewrite sub_offsets by lia. set (m := if minimumIncrease <? 0 then 0 else minimumIncrease).
  assert (m = Z.max 0 minimumIncrease) as Em by (subst m; split_ifs; lia). clearbody m. subst m.
  rewrite u32_id by (unfold is_u32; lia). destruct (Z.leb_spec (Z.max 0 minimumIncrease) (N + k * q - R)).
  - exists (N + k * q). rewrite decide_False by lia. split_and!; lia || done.
  - exists R. rewrite decide_True by done. split_and!; lia || done.
Qed.

(** Reopening moves the edge by at most one quantum, and records what storage
    does not back. *)
Lemma reopenedEdge_spec base R N w available minimumIncrease reserve :
  0 <= rw_shift w <= tcpMaximumWindowScale -> N - 1 <= R -> R - N <= 65535 * 2 ^ rw_shift w ->
  0 <= available <= 65535 * 2 ^ rw_shift w -> 0 <= reserve < 2 ^ rw_shift w ->
  exists R' reserve', reopenedEdge w (base ⊞ N) available minimumIncrease (base ⊞ R, reserve) = (base ⊞ R', reserve') /\
  R <= R' /\ 0 <= reserve' < 2 ^ rw_shift w /\
  ((R' = R /\ reserve' = reserve) \/
   (R' = N + 2 ^ rw_shift w /\ R - N < 2 ^ rw_shift w /\ 2 ^ rw_shift w <= available + reserve')) /\
  (rw_shift w <> 0 -> 0 < minimumIncrease <= available -> N + 2 ^ rw_shift w <= R').
Proof.
  intros Hs Ho Hp Ha Hr. pose proof (quantum_bounds _ Hs) as Hb. unfold reopenedEdge. set (q := 2 ^ rw_shift w) in *.
  assert (q = 2 ^ rw_shift w) as Eq by done. clearbody q.
  assert (-1 <= R - N <= 65535 * 16384 /\ 0 <= available < 2 ^ 32) as [Hd Hav] by nia.
  destruct (negb (rw_shift w =? 0) && (0 <? minimumIncrease) && (minimumIncrease <=? available)) eqn:E.
  - rewrite less_offsets by lia. set (a := if negb _ then _ else _).
    assert (a = Z.max 0 (R - N)) as Ea.
    { subst a. destruct (Z.ltb_spec R N); cbn [negb]; [lia|]. rewrite sub_offsets by lia. lia. }
    clearbody a. subst a. rewrite add_offset, greater_offsets by lia.
    destruct (Z.ltb_spec (Z.max 0 (R - N)) q); [|exists R, reserve; split_and!; try done; lia].
    destruct (Z.ltb_spec R (N + q)); [|exists R, reserve; split_and!; try done; lia].
    rewrite (u32_id available) by (unfold is_u32; lia).
    exists (N + q). eexists. split; [done|]. destruct (Z.ltb_spec available q).
    + assert (0 < available) by lia. assert (u16 (q - available) = q - available) as -> by word. split_and!; lia.
    + split_and!; lia.
  - exists R, reserve. split_and!; try done; try lia.
Qed.

(** The wire field denotes the promise to within one quantum. *)
Lemma wire_spec d q : 1 <= q -> 0 <= d <= 65535 * q ->
  0 <= u16 (d / q) <= 65535 /\ u16 (d / q) * q <= d < u16 (d / q) * q + q /\ (q <= d -> 0 < u16 (d / q)).
Proof.
  intros Hq Hd. pose proof (Z.div_mod d q ltac:(lia)) as Hw. pose proof (Z.mod_pos_bound d q ltac:(lia)) as Hb.
  assert (0 <= d / q <= 65535) as Hk by (split; [apply Z.div_pos; lia|apply Z.div_le_upper_bound; lia]).
  unfold u16. rewrite Z.mod_small by lia. split; [done|]. split; [lia|]. intros Hl.
  apply Z.div_str_pos. lia.
Qed.

(** ** The property *)

(** C13. The receive window never takes back a promise and never promises more
    than storage plus its recorded reserve: the advertised edge only advances,
    the wire window denotes it to within one scale quantum, an advance is
    silly-window free (at least the threshold, or out of a window below one
    quantum), and whenever the threshold of storage is free the peer is shown a
    nonzero window. *)
Theorem receive_window_promise base R N w available minimumIncrease :
  promiseOk base R N w -> available < 2 ^ 63 -> minimumIncrease <= 65535 ->
  let '(wire, right_, reserve) := rw_next w (base ⊞ N) available minimumIncrease in
  let q := 2 ^ rw_shift w in
  exists R', right_ = base ⊞ R' /\ R <= R' /\ promiseOk base R' N (mkReceiveWindow right_ (rw_shift w) reserve) /\
  (R' = R \/ R' - N <= Z.max 0 available + reserve) /\
  (R' = R \/ R - N < q \/ minimumIncrease <= R' - R) /\
  0 <= wire <= 65535 /\ wire * q <= Z.max 0 (R' - N) < wire * q + q /\
  (0 < minimumIncrease <= available -> 0 < wire).
Proof.
  intros Hok Hav Hm. pose proof Hok as [Hr Hs Ho Hp Hq]. pose proof (quantum_bounds _ Hs) as Hb.
  unfold rw_next. cbv zeta. set (q := 2 ^ rw_shift w) in *.
  rewrite (u32_id (65535 * q)), (u32_id q) by (unfold is_u32; nia).
  set (a := if available <? 0 then 0 else available). assert (a = Z.max 0 available) as Ea by (subst a; split_ifs; lia).
  clearbody a. subst a. assert (u64 (Z.max 0 available) = Z.max 0 available) as -> by word.
  set (a := if _ <? _ then _ else _). assert (a = Z.min (65535 * q) (Z.max 0 available)) as Ea by (subst a; split_ifs; lia).
  clearbody a. assert (0 <= a <= 65535 * q) as Ha by lia.
  pose proof (Z.div_mod a q ltac:(lia)) as Hdm. pose proof (Z.mod_pos_bound a q ltac:(lia)) as Hmb.
  assert (0 <= a / q <= 65535) as Hk by (split; [apply Z.div_pos; lia|apply Z.div_le_upper_bound; lia]).
  rewrite (u32_id (a / q)) by (unfold is_u32; lia).
  pose proof (regularEdge_spec base R N w (a / q) minimumIncrease Hok Hk Hm) as Hreg. fold q in Hreg.
  destruct Hreg as (R1 & -> & M1 & Hc1 & Hc2 & Hc3). set (k := a / q) in *. clearbody k.
  set (reserve := if decide (R1 = R) then _ else _).
  assert (0 <= reserve < q) as Hres by (subst reserve; destruct (decide _); lia). clearbody reserve.
  destruct (reopenedEdge_spec base R1 N w a minimumIncrease reserve Hs) as (R2 & reserve' & -> & M2 & Hres' & Hc4 & Hc5);
    [lia|fold q; nia|lia|done|]. fold q in Hres', Hc4, Hc5.
  assert (-1 <= R2 - N <= 65535 * q) as Hd by nia. assert (65535 * q <= 65535 * 16384) by nia.
  rewrite less_offsets by lia. destruct (Z.ltb_spec R2 N) as [Hlt|Hge].
  - exists R2. split_and!; try done; try lia; [split; cbn; fold q; try done; lia|].
    intros Hfree. exfalso. assert (0 < minimumIncrease <= a) as Hfa by nia.
    destruct (decide (rw_shift w = 0)) as [Hz|Hz]; [|specialize (Hc5 Hz Hfa); lia].
    assert (q = 1) by (subst q; by rewrite Hz). assert (k * q = a) by nia. lia.
  - rewrite sub_offsets by lia.
    destruct (wire_spec (R2 - N) q ltac:(lia) ltac:(lia)) as (Hwk & Hw & Hwp). set (wire := u16 _) in *. clearbody wire.
    set (final := if _ =? _ then _ else _). assert ((final = reserve' \/ (R2 = N /\ final = 0)) /\ 0 <= final < q) as [Hf Hfb].
    { subst final. destruct (Z.eqb_spec (base ⊞ R2) (base ⊞ N)) as [E|E]; [|by split; [left|]].
      split; [right|lia]. split; [|done]. clear -E Hd Hge Hb. subst q. word. }
    exists R2. split; [done|]. split; [lia|]. split; [split; cbn; fold q; (done || lia)|].
    assert (R2 = R \/ R2 - N <= Z.max 0 available + final) as Hback.
    { clear Hc5 Hc3 Hc2 Hw Hwp Hwk. destruct Hf as [->|[E ->]]; [|right; lia].
      destruct Hc4 as [[-> _]|(-> & _ & ?)]; [|right; lia]. destruct Hc1 as [->|[-> _]]; [by left|right; lia]. }
    assert (R2 = R \/ R - N < q \/ minimumIncrease <= R2 - R) as Hsws.
    { clear Hc5 Hc2 Hw Hwp Hwk Hdm Hmb Hf Hback. destruct Hc4 as [[-> _]|(-> & ? & _)]; [tauto|].
      destruct Hc1 as [->|[-> ?]]; lia. }
    split; [exact Hback|]. split; [exact Hsws|]. split; [exact Hwk|]. split; [rewrite Z.max_r by lia; exact Hw|].
    intros Hfree. apply Hwp. assert (0 < minimumIncrease <= a) as Hfa by lia. clear Hf Hback Hsws Hw Hwp.
    destruct (decide (rw_shift w = 0)) as [Hz|Hz]; [|specialize (Hc5 Hz Hfa); lia].
    assert (q = 1) as Hq1 by (subst q; by rewrite Hz). clear Hc5. clearbody q. subst q. lia.
Qed.

Lemma receive_window_promise_witness :
  promiseOk 4294967000 500 400 (mkReceiveWindow (4294967000 ⊞ 500) 7 0) /\
  exists R', snd (fst (rw_next (mkReceiveWindow (4294967000 ⊞ 500) 7 0) (4294967000 ⊞ 400) 100 90)) = 4294967000 ⊞ R' /\
             500 <= R' /\ R' - 400 <= 100 + snd (rw_next (mkReceiveWindow (4294967000 ⊞ 500) 7 0) (4294967000 ⊞ 400) 100 90).
Proof.
  assert (promiseOk 4294967000 500 400 (mkReceiveWindow (4294967000 ⊞ 500) 7 0)) as Hok
    by (split; cbn; unfold tcpMaximumWindowScale; lia || done).
  split; [exact Hok|].
  pose proof (receive_window_promise 4294967000 500 400 _ 100 90 Hok ltac:(lia) ltac:(lia)) as H.
  assert (rw_next (mkReceiveWindow (4294967000 ⊞ 500) 7 0) (4294967000 ⊞ 400) 100 90 = (1, 4294967000 ⊞ 528, 28)) as E
    by (by vm_compute). rewrite E in *. cbv zeta in H. destruct H as (R' & H1 & H2 & _ & H3 & _).
  exists R'. cbn [fst snd]. split; [exact H1|]. split; [exact H2|]. lia.
Defined.
