(* ===== verification/Recovery.v ===== *)
(** * Spurious-recovery detection and undo

    [tcpRecoveryUndo], [tcpRecoveryTransportState] and
    [tcpRetransmissionHistory] of [tcp.go]: the checkpoint of a recovery
    episode, Eifel detection by timestamps, DSACK correlation with the ranges
    retransmitted, and the congestion state an undo restores. *)

From stdpp Require Import strings.
From S2P Require Import Prelude SeqNum Rtt Windows Scoreboard Float64 DeliveryRate Congestion.

Definition tcpRetransmissionHistoryLimit : Z := 128.

(** ** Data *)

(** [tcpFRTOState] *)
Inductive tcpFRTOState :=
| tcpFRTOInactive
| tcpFRTOTimeoutPending
| tcpFRTOAwaitingACK
| tcpFRTOProbePending
| tcpFRTOProbeSent
| tcpFRTOFallbackPending.

#[export] Instance tcpFRTOState_eq_dec : EqDecision tcpFRTOState.
Proof. solve_decision. Defined.

Record tcpUndoRange := mkUndoRange {
  ur_sequence : Z;
  ur_end : Z;
  ur_duplicated : bool }.

Record tcpRecoveryTransportState := mkTransport {
  ts_phase : CongestionPhase;
  ts_recoveryPoint : Z;
  ts_rtoRecoveryPoint : Z;
  ts_ecnRecoveryPoint : Z;
  ts_prrPriorFlight : Z;
  ts_prrDelivered : Z;
  ts_prrOut : Z;
  ts_rtoAttempts : Z;
  ts_frtoProbeBudget : Z;
  ts_fastRecovery : bool;
  ts_rtoRecovery : bool;
  ts_frtoState : tcpFRTOState;
  ts_sackRenegingRecovery : bool;
  ts_ecnRecoveryActive : bool;
  ts_captured : bool }.

Definition zeroTransport : tcpRecoveryTransportState :=
  mkTransport CongestionPhaseUnknown 0 0 0 0 0 0 0 0 false false tcpFRTOInactive false false false.

(** The pointer [transport] is [None] while nil. *)
Record tcpRecoveryUndo := mkUndo {
  un_active : bool;
  un_timeout : bool;
  un_eifelChecked : bool;
  un_dsackDisabled : bool;
  un_retransmitTimestamp : Z;
  un_point : Z;
  un_priorThreshold : Z;
  un_priorFlight : Z;
  un_spuriousUndos : Z;
  un_priorSRTT : Z;
  un_priorRTTVar : Z;
  un_ranges : list tcpUndoRange;
  un_transport : option tcpRecoveryTransportState }.

#[export] Instance tcpRecoveryUndo_settable : Settable tcpRecoveryUndo := fun u =>
  mkUndo (un_active u) (un_timeout u) (un_eifelChecked u) (un_dsackDisabled u) (un_retransmitTimestamp u)
    (un_point u) (un_priorThreshold u) (un_priorFlight u) (un_spuriousUndos u) (un_priorSRTT u)
    (un_priorRTTVar u) (un_ranges u) (un_transport u).

(** [new(tcpRecoveryUndo)] *)
Definition zeroUndo : tcpRecoveryUndo := mkUndo false false false false 0 0 0 0 0 0 0 [] None.

Record tcpRetransmissionRecord := mkRetransmission {
  rr_sequence : Z;
  rr_end : Z;
  rr_count : Z }.

(** [tcpRetransmissionHistory] is its [ranges]. *)
Definition tcpRetransmissionHistory : Type := list tcpRetransmissionRecord.

(** ** The undo record *)

Section Undo.

Context {A : Type} `{CongestionController A}.

Definition un_begin (u : tcpRecoveryUndo) (timeout : bool) (point window threshold flight : Z)
    (controller : tcpCongestionController A) (rtt : rttEstimator) (observedAt : Z)
    : tcpRecoveryUndo * tcpCongestionController A :=
  let controller := checkpointRecovery controller observedAt window threshold flight
                      (cs_MaximumSegmentSize (cc_state controller)) in
  (mkUndo true timeout false false 0 point threshold flight (un_spuriousUndos u) (rt_srtt rtt)
     (rt_variation rtt) []
     (match un_transport u with Some _ => Some zeroTransport | None => None end), controller).

(** The window and threshold after the undo. *)
Definition un_restore (u : tcpRecoveryUndo) (currentWindow flight acknowledged mss : Z)
    (current : tcpCongestionController A) (now : Z) (phase : CongestionPhase)
    : tcpRecoveryUndo * tcpCongestionController A * (Z * Z) :=
  let initial := initialTCPWindow mss in
  let credit := if initial <? acknowledged then initial else acknowledged in
  let window := growCongestionWindow flight credit in
  let window := if window <? u32 mss then u32 mss else window in
  let threshold := if un_priorFlight u <? un_priorThreshold u then un_priorThreshold u else un_priorFlight u in
  let '(current, result) := undoRecovery current now currentWindow window threshold flight mss phase in
  (u <| un_active := false |>, current, result).

End Undo.

Definition setTransport (u : tcpRecoveryUndo) (transport : tcpRecoveryTransportState) : tcpRecoveryUndo :=
  if negb (ts_captured transport) then u else u <| un_transport := Some transport |>.

Definition sameRange (sequence stop : Z) (r : tcpUndoRange) : bool :=
  (ur_sequence r =? sequence) && (ur_end r =? stop).

Definition un_recordRetransmission (u : tcpRecoveryUndo) (sequence stop timestamp : Z) (repeated : bool)
    : tcpRecoveryUndo :=
  if negb (un_active u) then u
  else
    let u := if repeated then u <| un_dsackDisabled := true |> else u in
    let u := if un_retransmitTimestamp u =? 0 then u <| un_retransmitTimestamp := timestamp |> else u in
    if existsb (sameRange sequence stop) (un_ranges u) then u
    else u <| un_ranges := un_ranges u ++ [mkUndoRange sequence stop false] |>.

Definition detectEifel (u : tcpRecoveryUndo) (timestampEcho : Z) (currentDSACK priorDSACK : bool)
    (acknowledgement : Z) : tcpRecoveryUndo * bool :=
  if negb (un_active u) || un_eifelChecked u || (un_retransmitTimestamp u =? 0) || (timestampEcho =? 0)
  then (u, false)
  else
    let u := u <| un_eifelChecked := true |> in
    if negb (tcpSequenceLess timestampEcho (un_retransmitTimestamp u)) || currentDSACK then (u, false)
    else (u, priorDSACK || tcpSequenceLess acknowledgement (un_point u)).

Definition blockCovers (block : TCPSACKBlock) (sequence stop : Z) : bool :=
  tcpSequenceLessEqual (LeftEdge block) sequence && tcpSequenceGreaterEqual (RightEdge block) stop.

Definition markDuplicated (block : TCPSACKBlock) (r : tcpUndoRange) : tcpUndoRange :=
  if blockCovers block (ur_sequence r) (ur_end r) then mkUndoRange (ur_sequence r) (ur_end r) true else r.

Definition observeDSACK (u : tcpRecoveryUndo) (block : TCPSACKBlock) (acknowledgement sendUnacknowledged : Z)
    (scoreboardEmpty : bool) : tcpRecoveryUndo * bool :=
  if negb (un_active u) || un_dsackDisabled u then (u, false)
  else if scoreboardEmpty && (LeftEdge block =? sendUnacknowledged)
  then (u <| un_dsackDisabled := true |>, false)
  else
    let matched := existsb (fun r => blockCovers block (ur_sequence r) (ur_end r)) (un_ranges u) in
    let u := u <| un_ranges := map (markDuplicated block) (un_ranges u) |> in
    if negb matched then (u <| un_dsackDisabled := true |>, false)
    else if zlen (un_ranges u) =? 0 then (u, false)
    else (u, forallb (fun r => ur_duplicated r && negb (tcpSequenceLess acknowledgement (ur_end r))) (un_ranges u)).

Definition eifelRTOResponse (u : tcpRecoveryUndo) : tcpEifelRTOResponse :=
  if negb (un_timeout u) then mkEifel 0 0 0 false
  else mkEifel (un_point u) (un_priorSRTT u + 2 * tcpEifelClockGranularity) (un_priorRTTVar u) true.

Definition recoveryPhaseAt (t : option tcpRecoveryTransportState) (acknowledgement : Z) : CongestionPhase :=
  match t with
  | None => CongestionPhaseOpen
  | Some t =>
      if negb (ts_captured t) then CongestionPhaseOpen
      else
        match ts_phase t with
        | CongestionPhaseRecovery =>
            if negb (ts_fastRecovery t) || tcpSequenceGreaterEqual acknowledgement (ts_recoveryPoint t)
            then CongestionPhaseOpen else ts_phase t
        | CongestionPhaseLoss =>
            if negb (ts_rtoRecovery t)
               || (bool_decide (ts_frtoState t = tcpFRTOInactive)
                   && tcpSequenceGreaterEqual acknowledgement (ts_rtoRecoveryPoint t))
            then CongestionPhaseOpen else ts_phase t
        | CongestionPhaseCWR =>
            if ts_ecnRecoveryActive t && tcpSequenceGreaterEqual acknowledgement (ts_ecnRecoveryPoint t)
            then CongestionPhaseOpen else ts_phase t
        | phase => phase
        end
  end.

(** ** The retransmission history *)

(** The backward search of [record]: the newest record of the same range. *)
Fixpoint bumpRange (sequence stop : Z) (h : tcpRetransmissionHistory) : option tcpRetransmissionHistory :=
  match h with
  | [] => None
  | r :: h =>
      match bumpRange sequence stop h with
      | Some h => Some (r :: h)
      | None =>
          if (rr_sequence r =? sequence) && (rr_end r =? stop)
          then Some (mkRetransmission (rr_sequence r) (rr_end r) (rr_count r + 1) :: h) else None
      end
  end.

Definition overlapsRecord (sequence stop : Z) (r : tcpRetransmissionRecord) : bool :=
  tcpSequenceLess sequence (rr_end r) && tcpSequenceLess (rr_sequence r) stop.

Definition ambiguousRecord (sequence stop : Z) (r : tcpRetransmissionRecord) : tcpRetransmissionRecord :=
  if overlapsRecord sequence stop r && (rr_count r <? 2)
  then mkRetransmission (rr_sequence r) (rr_end r) 2 else r.

Definition hi_record (h : tcpRetransmissionHistory) (sequence stop : Z) : tcpRetransmissionHistory :=
  match bumpRange sequence stop h with
  | Some h => h
  | None =>
      let repeated := existsb (overlapsRecord sequence stop) h in
      let h := map (ambiguousRecord sequence stop) h in
      let h := if zlen h =? tcpRetransmissionHistoryLimit then drop 1 h else h in
      h ++ [mkRetransmission sequence stop (if repeated then 2 else 1)]
  end.

(** Whether a DSACK covers a known retransmission, and a repeated one. *)
Definition hi_match (h : tcpRetransmissionHistory) (block : TCPSACKBlock) : bool * bool :=
  fold_left (fun '(matched, repeated) r =>
    if blockCovers block (rr_sequence r) (rr_end r) then (true, repeated || (1 <? rr_count r))
    else (matched, repeated)) h (false, false).

(** ** DSACK undo

    One recovery episode as the events its undo record sees. *)

Inductive undoEvent :=
| UndoRetransmit (sequence stop timestamp : Z) (repeated : bool)
| UndoDSACK (block : TCPSACKBlock) (acknowledgement sendUnacknowledged : Z) (scoreboardEmpty : bool).

Definition undoStep (u : tcpRecoveryUndo) (e : undoEvent) : tcpRecoveryUndo :=
  match e with
  | UndoRetransmit sequence stop timestamp repeated => un_recordRetransmission u sequence stop timestamp repeated
  | UndoDSACK block acknowledgement sendUnacknowledged empty =>
      fst (observeDSACK u block acknowledgement sendUnacknowledged empty)
  end.

Definition undoRun (u : tcpRecoveryUndo) (l : list undoEvent) : tcpRecoveryUndo := foldl undoStep u l.

(** The range was retransmitted in [l]. *)
Definition retransmittedIn (l : list undoEvent) (sequence stop : Z) : Prop :=
  exists timestamp repeated, UndoRetransmit sequence stop timestamp repeated ∈ l.

(** No range was retransmitted twice, and every DSACK names a range that had
    been retransmitted and not the head of a wholly lost window. *)
Inductive unambiguous : list undoEvent -> Prop :=
| unambiguous_nil : unambiguous []
| unambiguous_retransmit l sequence stop timestamp :
    unambiguous l -> unambiguous (l ++ [UndoRetransmit sequence stop timestamp false])
| unambiguous_dsack l block acknowledgement sendUnacknowledged empty sequence stop :
    unambiguous l -> (empty = true -> LeftEdge block <> sendUnacknowledged) ->
    retransmittedIn l sequence stop -> blockCovers block sequence stop = true ->
    unambiguous (l ++ [UndoDSACK block acknowledgement sendUnacknowledged empty]).

(** A DSACK reported the range after its retransmission. *)
Inductive accounted (sequence stop : Z) : list undoEvent -> Prop :=
| accounted_now l block acknowledgement sendUnacknowledged empty :
    retransmittedIn l sequence stop -> blockCovers block sequence stop = true ->
    accounted sequence stop (l ++ [UndoDSACK block acknowledgement sendUnacknowledged empty])
| accounted_before l e : accounted sequence stop l -> accounted sequence stop (l ++ [e]).

(** A fresh episode, as [begin] leaves it. *)
Definition freshEpisode (u : tcpRecoveryUndo) : Prop :=
  un_active u = true /\ un_dsackDisabled u = false /\ un_ranges u = [].

(** The record tells the history of the episode. *)
Record undoOk (l : list undoEvent) (u : tcpRecoveryUndo) : Prop := {
  uo_active : un_active u = true;
  uo_unambiguous : un_dsackDisabled u = false <-> unambiguous l;
  uo_ranges : un_dsackDisabled u = false -> forall sequence stop,
    retransmittedIn l sequence stop <-> exists d, mkUndoRange sequence stop d ∈ un_ranges u;
  uo_duplicated : un_dsackDisabled u = false -> forall sequence stop d,
    mkUndoRange sequence stop d ∈ un_ranges u -> (d = true <-> accounted sequence stop l) }.

Lemma unambiguous_snoc l e : unambiguous (l ++ [e]) ->
  unambiguous l /\
  match e with
  | UndoRetransmit _ _ _ repeated => repeated = false
  | UndoDSACK block _ sendUnacknowledged empty =>
      (empty = true -> LeftEdge block <> sendUnacknowledged) /\
      exists sequence stop, retransmittedIn l sequence stop /\ blockCovers block sequence stop = true
  end.
Proof.
  intros H. inversion H as [E|l' s t ts Hl E|l' b a una em s t Hl Hem Hr Hb E]; [by destruct l| |];
    apply app_inj_tail in E as [-> <-]; eauto 6.
Qed.

Lemma accounted_snoc sequence stop l e : accounted sequence stop (l ++ [e]) <->
  accounted sequence stop l \/
  match e with
  | UndoRetransmit _ _ _ _ => False
  | UndoDSACK block _ _ _ => retransmittedIn l sequence stop /\ blockCovers block sequence stop = true
  end.
Proof.
  split.
  - intros H. inversion H as [l' b a una em Hr Hb E|l' e' Hl E]; apply app_inj_tail in E as [-> <-]; auto.
  - intros [H|H]; [by constructor|]. destruct e; [done|]. destruct H. by constructor.
Qed.

Lemma retransmittedIn_snoc l e sequence stop : retransmittedIn (l ++ [e]) sequence stop <->
  retransmittedIn l sequence stop \/ (exists timestamp repeated, e = UndoRetransmit sequence stop timestamp repeated).
Proof.
  unfold retransmittedIn. split.
  - intros (ts & r & H). apply elem_of_app in H as [H|H]; [left; eauto|right]. apply list_elem_of_singleton in H. eauto.
  - intros [(ts & r & H)|(ts & r & ->)]; exists ts, r; apply elem_of_app; [by left|right; by apply list_elem_of_singleton].
Qed.

Lemma markDuplicated_elem block ranges sequence stop d :
  mkUndoRange sequence stop d ∈ map (markDuplicated block) ranges <->
  exists d', mkUndoRange sequence stop d' ∈ ranges /\ d = d' || blockCovers block sequence stop.
Proof.
  rewrite list_elem_of_fmap. unfold markDuplicated. split.
  - intros ([s e d'] & Heq & Hin). cbn in Heq. destruct (blockCovers block s e) eqn:E; injection Heq as -> -> ->;
      exists d'; rewrite E; split; try done; by destruct d'.
  - intros (d' & Hin & ->). exists (mkUndoRange sequence stop d'). split; [|done]. cbn.
    destruct (blockCovers block sequence stop); by destruct d'.
Qed.

Lemma existsb_sameRange sequence stop ranges :
  existsb (sameRange sequence stop) ranges = true <-> exists d, mkUndoRange sequence stop d ∈ ranges.
Proof.
  rewrite existsb_exists. setoid_rewrite <- list_elem_of_In. unfold sameRange. split.
  - intros ([s e d] & Hin & Hs). cbn in Hs. exists d. assert (s = sequence /\ e = stop) as [-> ->] by lia. done.
  - intros (d & Hin). exists (mkUndoRange sequence stop d). split; [done|]. cbn. lia.
Qed.

Lemma existsb_covered block ranges :
  existsb (fun r => blockCovers block (ur_sequence r) (ur_end r)) ranges = true <->
  exists sequence stop d, mkUndoRange sequence stop d ∈ ranges /\ blockCovers block sequence stop = true.
Proof.
  rewrite existsb_exists. setoid_rewrite <- list_elem_of_In. split.
  - intros ([s e d] & Hin & Hs). eauto.
  - intros (s & e & d & Hin & Hs). by exists (mkUndoRange s e d).
Qed.

Lemma undoOk_retransmit l u sequence stop timestamp repeated :
  undoOk l u -> undoOk (l ++ [UndoRetransmit sequence stop timestamp repeated])
                  (un_recordRetransmission u sequence stop timestamp repeated).
Proof.
  intros [Ha Hu Hr Hd]. unfold un_recordRetransmission. rewrite Ha. cbn [negb]. cbv zeta.
  set (u1 := if repeated then _ else u). set (u2 := if _ =? 0 then _ else u1).
  assert (un_active u2 = true /\ un_dsackDisabled u2 = un_dsackDisabled u || repeated /\ un_ranges u2 = un_ranges u)
    as (A2 & D2 & R2) by (subst u2 u1; destruct repeated, (_ =? 0); cbn; rewrite ?orb_true_r, ?orb_false_r; done).
  clearbody u2. clear u1. set (u' := if existsb _ _ then _ else _).
  assert (un_active u' = true /\ un_dsackDisabled u' = un_dsackDisabled u || repeated /\
    forall s e d, mkUndoRange s e d ∈ un_ranges u' <-> mkUndoRange s e d ∈ un_ranges u \/
      (s = sequence /\ e = stop /\ d = false /\ ~ exists d', mkUndoRange sequence stop d' ∈ un_ranges u))
    as (A' & D' & R').
  { subst u'. destruct (existsb _ _) eqn:E; rewrite R2 in E; cbn; split_and!; try done; intros s e d.
    - apply existsb_sameRange in E. rewrite R2. tauto.
    - rewrite R2, elem_of_app, list_elem_of_singleton. rewrite <- existsb_sameRange, E.
      split; [intros [H|[= -> -> ->]]|intros [H|(-> & -> & -> & _)]]; tauto || (right; auto). }
  clearbody u'. clear u2 A2 D2 R2. split; [done| | |].
  - rewrite D'. split.
    + intros [E ->]%orb_false_iff. constructor. by apply Hu.
    + intros [H ->]%unambiguous_snoc. apply Hu in H. by rewrite H.
  - rewrite D'. intros [E _]%orb_false_iff s e. rewrite retransmittedIn_snoc, (Hr E). split.
    + intros [(d & H)|(ts & r & [= <- <- <- <-])]; [exists d; apply R'; by left|].
      destruct (existsb (sameRange sequence stop) (un_ranges u)) eqn:Ee.
      * apply existsb_sameRange in Ee as (d & H). exists d. apply R'. by left.
      * exists false. apply R'. right. rewrite <- existsb_sameRange, Ee. split_and!; done.
    + intros (d & H). apply R' in H as [H|(-> & -> & _)]; [left; eauto|right; eauto].
  - rewrite D'. intros [E _]%orb_false_iff s e d H. rewrite accounted_snoc. apply R' in H as [H|(-> & -> & -> & Hn)].
    + rewrite (Hd E _ _ _ H). tauto.
    + split; [done|]. intros [Hacc|[]]. exfalso. apply Hn, (Hr E). clear -Hacc.
      induction Hacc as [l b a una em Hin _|l e _ IH]; rewrite retransmittedIn_snoc; auto.
Qed.

Lemma undoOk_dsack l u block acknowledgement sendUnacknowledged empty :
  undoOk l u -> undoOk (l ++ [UndoDSACK block acknowledgement sendUnacknowledged empty])
                  (fst (observeDSACK u block acknowledgement sendUnacknowledged empty)).
Proof.
  intros [Ha Hu Hr Hd]. unfold observeDSACK. rewrite Ha. cbn [negb orb].
  assert (forall v, un_active v = true -> un_dsackDisabled v = true -> ~ unambiguous (l ++ [UndoDSACK block acknowledgement sendUnacknowledged empty]) ->
    undoOk (l ++ [UndoDSACK block acknowledgement sendUnacknowledged empty]) v) as Hbad.
  { intros v Hv Hv' Hn. split; [done| | |]; rewrite Hv'; [by split|done|done]. }
  destruct (un_dsackDisabled u) eqn:E.
  { apply Hbad; [done..|]. intros [H _]%unambiguous_snoc. apply Hu in H. congruence. }
  destruct (empty && (LeftEdge block =? sendUnacknowledged)) eqn:Eh.
  { apply Hbad; [done..|]. intros [_ [H _]]%unambiguous_snoc. apply andb_true_iff in Eh as [-> Eq]. apply (H eq_refl). lia. }
  cbv zeta. destruct (existsb _ _) eqn:Em; cbn [negb].
  - apply existsb_covered in Em as (s & e & d & Hin & Hc).
    assert (retransmittedIn l s e) as Hrt by (apply (Hr eq_refl); eauto).
    set (u' := u <| un_ranges := _ |>). enough (undoOk (l ++ [UndoDSACK block acknowledgement sendUnacknowledged empty]) u')
      by (destruct (_ =? 0); done).
    split; [done| | |]; subst u'; cbn.
    + rewrite E. split; [|done]. intros _. apply (unambiguous_dsack _ _ _ _ _ s e); [by apply Hu| |done..].
      intros ->. cbn [andb] in Eh. lia.
    + intros _ s' e'. rewrite retransmittedIn_snoc, (Hr eq_refl). split.
      * intros [(d' & H)|(? & ? & [=])]. exists (d' || blockCovers block s' e'). apply markDuplicated_elem. eauto.
      * intros (d' & H). apply markDuplicated_elem in H as (d'' & H & _). eauto.
    + intros _ s' e' d' H. apply markDuplicated_elem in H as (d'' & H & ->). rewrite accounted_snoc, orb_true_iff.
      rewrite (Hd eq_refl _ _ _ H). split; [intros [H'|H']; [by left|right; split; [|done]; apply (Hr eq_refl); eauto]|].
      intros [H'|[_ H']]; auto.
  - apply Hbad; [done..|]. intros [_ (_ & s & e & H & Hc)]%unambiguous_snoc. apply (Hr eq_refl) in H as (d & H).
    assert (existsb (fun r => blockCovers block (ur_sequence r) (ur_end r)) (un_ranges u) = true); [|congruence].
    apply existsb_covered. eauto.
Qed.

Lemma undoRun_ok u l : freshEpisode u -> undoOk l (undoRun u l).
Proof.
  intros (Ha & Hd & Hr). induction l as [|e l IH] using rev_ind.
  - split; cbn; [done| | |].
    + split; [constructor|done].
    + intros _ s e. rewrite Hr. split; [intros (? & ? & H); by apply not_elem_of_nil in H|intros (? & H); by apply not_elem_of_nil in H].
    + intros _ s e d H. rewrite Hr in H. by apply not_elem_of_nil in H.
  - unfold undoRun. rewrite foldl_app. cbn [foldl]. destruct e; [by apply undoOk_retransmit|by apply undoOk_dsack].
Qed.

(** C14. DSACK undo is exact: a DSACK undoes the episode when and only when the
    history is unambiguous (nothing retransmitted twice, every DSACK naming a
    range this sender retransmitted, no wholly lost window), something was
    retransmitted, and every retransmitted range has been reported duplicated
    after its retransmission and is cumulatively acknowledged. *)
Theorem dsack_undo_exact u l block acknowledgement sendUnacknowledged empty :
  freshEpisode u ->
  let l' := l ++ [UndoDSACK block acknowledgement sendUnacknowledged empty] in
  snd (observeDSACK (undoRun u l) block acknowledgement sendUnacknowledged empty) = true <->
  unambiguous l' /\ forall sequence stop, retransmittedIn l sequence stop ->
    accounted sequence stop l' /\ tcpSequenceLess acknowledgement stop = false.
Proof.
  intros Hf. cbv zeta. pose proof (undoRun_ok u l Hf) as Hok.
  pose proof (undoOk_dsack _ _ block acknowledgement sendUnacknowledged empty Hok) as [_ Hu Hr Hd].
  destruct Hok as [Ha _ Hr0 _]. unfold observeDSACK in *. rewrite Ha in *. cbn [negb orb] in *.
  destruct (un_dsackDisabled (undoRun u l)) eqn:E.
  { split; [done|]. intros [H _]. cbn [fst] in Hu. apply Hu in H. congruence. }
  destruct (empty && _) eqn:Eh. { split; [done|]. intros [H _]. by apply Hu in H. }
  cbv zeta in *. destruct (existsb _ _) eqn:Em; cbn [negb] in *; [|split; [done|]; intros [H _]; by apply Hu in H].
  apply existsb_covered in Em as (s & e & d & Hin & Hc). set (u' := _ <| un_ranges := _ |>) in *.
  assert (zlen (un_ranges u') =? 0 = false) as Ez.
  { apply Z.eqb_neq. subst u'. cbn [set_field un_ranges]. unfold zlen. rewrite length_map.
    destruct (un_ranges (undoRun u l)); [by apply not_elem_of_nil in Hin|cbn [length]; lia]. }
  rewrite Ez in *. cbn [fst snd] in *. assert (un_dsackDisabled u' = false) as E' by done. rewrite E' in *.
  specialize (Hr eq_refl). specialize (Hd eq_refl). rewrite forallb_forall. setoid_rewrite <- list_elem_of_In. split.
  - intros H. split; [by apply Hu|]. intros s' e' Hrt.
    destruct (proj1 (Hr s' e') ltac:(rewrite retransmittedIn_snoc; by left)) as (d' & Hin').
    pose proof (H _ Hin') as Hx. cbn in Hx. apply andb_true_iff in Hx as [-> Hx]. split; [by apply (Hd _ _ _ Hin')|].
    by apply negb_true_iff in Hx.
  - intros [_ H] [s' e' d'] Hin'. cbn. assert (retransmittedIn l s' e') as Hrt.
    { destruct (proj2 (Hr s' e') ltac:(eauto)) as (ts & r & Hx). apply elem_of_app in Hx as [Hx|Hx]; [by exists ts, r|].
      by apply list_elem_of_singleton in Hx. }
    destruct (H _ _ Hrt) as [Hacc ->]. by rewrite (proj2 (Hd _ _ _ Hin') Hacc).
Qed.

(** Two ranges retransmitted once each; the second DSACK completes the proof. *)
Definition sampleEpisode : list undoEvent :=
  [UndoRetransmit 1000 2460 7 false; UndoRetransmit 2460 3920 7 false; UndoDSACK (mkBlock 1000 2460) 3920 3920 false].

Lemma dsack_undo_exact_witness :
  let u := zeroUndo <| un_active := true |> in
  freshEpisode u /\ snd (observeDSACK (undoRun u sampleEpisode) (mkBlock 2460 3920) 3920 3920 false) = true /\
  unambiguous (sampleEpisode ++ [UndoDSACK (mkBlock 2460 3920) 3920 3920 false]).
Proof.
  cbv zeta. assert (freshEpisode (zeroUndo <| un_active := true |>)) as Hf by done.
  assert (snd (observeDSACK (undoRun (zeroUndo <| un_active := true |>) sampleEpisode) (mkBlock 2460 3920) 3920 3920 false)
    = true) as Ht by (by vm_compute).
  split; [exact Hf|]. split; [exact Ht|].
  exact (proj1 (proj1 (dsack_undo_exact _ sampleEpisode (mkBlock 2460 3920) 3920 3920 false Hf) Ht)).
Defined.
