(* ===== verification/LossBasedLaws.v ===== *)
(** * Laws of the loss-based controllers

    The rules by which Reno and CUBIC move window and threshold, the adapter
    over either as a refinement of an abstract sender that follows them, and the
    undo of a spurious recovery. *)

From stdpp Require Import strings.
From S2P Require Import Prelude SeqNum Rtt Windows Scoreboard Float64 FloatBounds DeliveryRate Congestion LossBased Recovery.

(** ** The rules *)

Definition windowOk (s : CongestionState) : Prop :=
  0 <= cs_CongestionWindow s <= tcpMaximumScaledWindow /\ is_u32 (cs_SlowStartThreshold s) /\
  0 <= cs_BytesInFlight s <= tcpMaximumScaledWindow /\ 1 <= cs_MaximumSegmentSize s <= 65535.

(** The threshold after a signal with a floor of so many segments, and the
    window congestion avoidance may reach from a window for acknowledged bytes. *)
Record windowRules := mkRules {
  wr_decrease : forall window flight mss floor : Z, Z;
  wr_growth : forall mss window acknowledged reached : Z, Prop }.

(** RFC 5681: half the flight, and a segment for a window of acknowledged bytes:
    at least its whole bytes, and at most two bytes more for rounding and carried
    credit. *)
Definition renoRules : windowRules :=
  mkRules (fun window flight mss k => Z.max (k * mss) (flight / 2))
    (fun mss window acknowledged reached =>
       Z.min tcpMaximumScaledWindow (window + acknowledged * mss / window) <= reached
         <= window + (acknowledged * mss + window - 1) / window + 1).

(** RFC 9438: seven tenths of the window; growth follows the curve. *)
Definition cubicRules : windowRules :=
  mkRules (fun window flight mss k => Z.max (k * mss) (window * 7 / 10)) (fun _ _ _ _ => True).

Definition decreased (rules : windowRules) (s : CongestionState) (k : Z) : Z :=
  wr_decrease rules (cs_CongestionWindow s) (cs_BytesInFlight s) (cs_MaximumSegmentSize s) k.

(** The bytes of an ACK that slow start spends, and the window it reaches. *)
Definition slowStartBytes (s : CongestionState) (acknowledged : Z) : Z :=
  Z.min acknowledged (Z.max 0 (cs_SlowStartThreshold s - cs_CongestionWindow s)).

Definition slowStartWindow (s : CongestionState) (acknowledged : Z) : Z :=
  Z.min tcpMaximumScaledWindow (cs_CongestionWindow s + slowStartBytes s acknowledged).

(** What an ACK does to the window: nothing below the window limit, else slow
    start up to the threshold, byte for byte, and growth for the bytes left. *)
Definition ackResponse (rules : windowRules) (s : CongestionState) (acknowledged w : Z) : Prop :=
  if negb (congestionWindowLimited (cs_CongestionWindow s) (cs_BytesInFlight s) (cs_MaximumSegmentSize s))
  then w = cs_CongestionWindow s
  else
    slowStartWindow s acknowledged <= w <= tcpMaximumScaledWindow /\
    (slowStartBytes s acknowledged = acknowledged -> w = slowStartWindow s acknowledged) /\
    wr_growth rules (cs_MaximumSegmentSize s) (slowStartWindow s acknowledged) (acknowledged - slowStartBytes s acknowledged) w.

(** An algorithm that follows the rules while its private state is [ok]. *)
Class LossBased (A : Type) `{CongestionController A} (rules : windowRules) (ok : A -> Prop) : Prop := {
  lb_ack : forall a s e, ok a -> ce_Type e = CongestionEventACK -> windowOk s -> 0 < cs_CongestionWindow s -> is_u32 (ce_Acknowledged e) ->
    exists a' w, HandleCongestionEvent a s e = (a', s <| cs_CongestionWindow := w |>, e) /\ ok a' /\
                 ackResponse rules s (ce_Acknowledged e) w;
  lb_loss : forall a s e, ok a -> ce_Type e = CongestionEventLoss \/ ce_Type e = CongestionEventTimeout -> windowOk s ->
    exists a', HandleCongestionEvent a s e = (a', s <| cs_SlowStartThreshold := decreased rules s 2 |>, e) /\ ok a';
  lb_ecn : forall a s e, ok a -> ce_Type e = CongestionEventECN -> windowOk s ->
    exists a', HandleCongestionEvent a s e
      = (a', s <| cs_SlowStartThreshold := decreased rules s 1 |> <| cs_CongestionWindow := decreased rules s 1 |>, e) /\ ok a';
  lb_other : forall a s e, ok a ->
    ~ (ce_Type e = CongestionEventACK \/ ce_Type e = CongestionEventLoss \/ ce_Type e = CongestionEventECN \/
       ce_Type e = CongestionEventTimeout \/ ce_Type e = CongestionEventRecovery) ->
    exists a', HandleCongestionEvent a s e = (a', s, e) /\ ok a';
  lb_decrease : forall s k, windowOk s -> 1 <= k <= 2 -> 0 <= decreased rules s k <= tcpMaximumScaledWindow }.

(** ** Lemmas: the window arithmetic *)

Lemma threshold_exact window mss p q k : 0 <= window <= tcpMaximumScaledWindow -> 1 <= mss <= 65535 -> 1 <= p <= q -> q <= 10 -> 1 <= k <= 2 ->
  congestionThresholdWithFloor window mss p q k = Z.max (k * mss) (window * p / q).
Proof.
  intros Hr Hm Hp Hq Hk. unfold congestionThresholdWithFloor. rewrite tcpMaximumScaledWindow_value in *.
  assert (u64 (window * p) = window * p) as -> by (unfold u64; apply Z.mod_small; nia).
  assert (0 <= window * p / q <= window) as Hd.
  { split; [apply Z.div_pos; nia|]. apply Z.div_le_upper_bound; nia. }
  rewrite (u32_id (window * p / q)) by (unfold is_u32; lia). rewrite (u32_id (k * _)) by (unfold is_u32; nia).
  destruct (_ <? _) eqn:E; lia.
Qed.

Lemma slowStart_split s acknowledged : windowOk s -> is_u32 acknowledged ->
  applySlowStart (cs_CongestionWindow s) acknowledged (cs_SlowStartThreshold s)
  = (slowStartWindow s acknowledged, acknowledged - slowStartBytes s acknowledged) /\
  cs_CongestionWindow s <= slowStartWindow s acknowledged <= tcpMaximumScaledWindow /\
  0 <= slowStartBytes s acknowledged <= acknowledged.
Proof.
  intros (Hw & Ht & _) Ha. unfold applySlowStart, slowStartWindow, slowStartBytes, is_u32 in *.
  set (window := cs_CongestionWindow s) in *. set (threshold := cs_SlowStartThreshold s) in *.
  destruct (Z.leb_spec threshold window); [split; [f_equal; lia|lia]|]. rewrite tcpMaximumScaledWindow_value in *.
  rewrite (u32_id (threshold - window)) by (unfold is_u32; lia).
  set (growth := if _ <? _ then _ else _).
  assert (growth = Z.min acknowledged (threshold - window)) as Hg by (subst growth; split_ifs; lia). clearbody growth. subst growth.
  rewrite grow_min by (unfold is_u32; lia). rewrite tcpMaximumScaledWindow_value.
  rewrite u32_id by (unfold is_u32; lia). split; [f_equal; lia|lia].
Qed.

Lemma increase_grows outside window credit increment :
  0 <= window <= tcpMaximumScaledWindow ->
  window <= fst (applyCongestionIncrease outside window credit increment) <= tcpMaximumScaledWindow.
Proof.
  intros Hw. unfold applyCongestionIncrease. destruct (_ || _); [cbn; lia|].
  set (whole := f64_to_uint64 _ _). assert (0 <= whole < 2 ^ 64) as Hr.
  { subst whole. unfold f64_to_uint64. destruct (f64_trunc _) as [n|]; [destruct (_ && _) eqn:E; [lia|]|]; word. }
  clearbody whole. destruct (_ =? 0); [cbn; lia|]. cbn -[Z.mul].
  set (g := if _ <? whole then _ else _).
  assert (0 <= g <= tcpMaximumScaledWindow) as Hg by (subst g; rewrite tcpMaximumScaledWindow_value; split_ifs; lia).
  clearbody g. rewrite tcpMaximumScaledWindow_value in *. rewrite u32_id by (unfold is_u32; lia).
  rewrite grow_min by (unfold is_u32; lia).
  rewrite tcpMaximumScaledWindow_value. lia.
Qed.

(** An increment between [lo] and [n] adds at least [lo] bytes, and at most [n]
    and one from the credit. *)
Lemma increase_bounded outside window credit increment lo n :
  0 <= window <= tcpMaximumScaledWindow -> 0 <= lo <= n -> n < 2 ^ 52 -> atMost credit 1 -> between increment lo n ->
  let '(w, credit') := applyCongestionIncrease outside window credit increment in
  Z.min tcpMaximumScaledWindow (window + lo) <= w <= window + n + 1 /\ atMost credit' 1.
Proof.
  intros Hw Hlo Hn Hc Hi. unfold applyCongestionIncrease. destruct (_ || _) eqn:Eg.
  { split; [|done]. assert (lo <= 0); [|lia]. destruct increment as [| | |[] m e]; cbn in Hi; done. }
  pose proof (add_between credit increment 0 lo 1 n ltac:(lia) ltac:(lia) ltac:(lia) Hc Hi) as Ha.
  set (sum := f64_add credit increment) in *. clearbody sum.
  destruct (trunc_between sum (0 + lo) (1 + n) ltac:(lia) Ha) as (k & Ht & Hk & Hb).
  assert (f64_to_uint64 outside sum = k) as -> by (unfold f64_to_uint64; rewrite Ht; by replace (_ && _) with true by lia).
  destruct (Z.eqb_spec k 0) as [->|Hne].
  { split; [lia|]. destruct sum as [| | |[] m e]; cbn in Ha; try done. cbn. destruct Ha as [He _]. split; [done|lia]. }
  split; [|apply (sub_whole sum (1 + n)); [lia|by apply (between_mono _ (0 + lo) (1 + n)); [lia..|]|done|lia] ].
  set (g := if _ <? k then _ else _).
  assert (0 <= g <= tcpMaximumScaledWindow /\ g = Z.min k tcpMaximumScaledWindow) as [Hg Hgk]
    by (subst g; rewrite tcpMaximumScaledWindow_value in *; split_ifs; lia).
  clearbody g. rewrite tcpMaximumScaledWindow_value in *. rewrite u32_id by (unfold is_u32; lia).
  rewrite grow_min by (unfold is_u32; lia). rewrite tcpMaximumScaledWindow_value. lia.
Qed.

(** Reno's increment: the segment's share of the acknowledged bytes. *)
Lemma additive_bounded window acknowledged mss : 0 < window <= tcpMaximumScaledWindow -> is_u32 acknowledged -> 1 <= mss <= 65535 ->
  let lo := acknowledged * mss / window in
  let n := (acknowledged * mss + window - 1) / window in
  0 <= lo <= n /\ n < 2 ^ 52 /\ between (additiveIncrease window acknowledged mss) lo n.
Proof.
  intros Hw Ha Hm. cbv zeta. rewrite tcpMaximumScaledWindow_value in Hw. unfold is_u32 in Ha.
  assert (0 <= acknowledged * mss < 2 ^ 48) as Hp by nia.
  pose proof (Z.div_le_mono (acknowledged * mss) (acknowledged * mss + window - 1) window ltac:(lia) ltac:(lia)) as Hln.
  pose proof (Z.div_pos (acknowledged * mss) window ltac:(lia) ltac:(lia)) as Hl0.
  pose proof (Z.mul_div_le (acknowledged * mss) window ltac:(lia)) as Hl.
  set (lo := acknowledged * mss / window) in *. clearbody lo. set (n := (_ - 1) / window) in *. assert (acknowledged * mss <= n * window) as Hn
    by (unfold n; pose proof (Z.mod_pos_bound (acknowledged * mss + window - 1) window ltac:(lia));
        pose proof (Z.div_mod (acknowledged * mss + window - 1) window ltac:(lia)); lia).
  assert (n < 2 ^ 52) as Hr by (unfold n; apply Z.div_lt_upper_bound; nia).
  split; [lia|]. split; [done|]. unfold additiveIncrease.
  apply (div_between _ _ (acknowledged * mss) (acknowledged * mss) window); [lia..| |by apply of_Z_exact; lia].
  apply mul_between; [lia|lia|lia|by apply of_Z_between; lia|by apply of_Z_between; lia].
Qed.

Lemma unlimited_response rules s acknowledged :
  congestionWindowLimited (cs_CongestionWindow s) (cs_BytesInFlight s) (cs_MaximumSegmentSize s) = false ->
  ackResponse rules s acknowledged (cs_CongestionWindow s).
Proof. intros Hl. unfold ackResponse. by rewrite Hl. Qed.

Lemma limited_response (rules : windowRules) s acknowledged w :
  congestionWindowLimited (cs_CongestionWindow s) (cs_BytesInFlight s) (cs_MaximumSegmentSize s) = true ->
  slowStartWindow s acknowledged <= w <= tcpMaximumScaledWindow ->
  (slowStartBytes s acknowledged = acknowledged -> w = slowStartWindow s acknowledged) ->
  wr_growth rules (cs_MaximumSegmentSize s) (slowStartWindow s acknowledged) (acknowledged - slowStartBytes s acknowledged) w ->
  ackResponse rules s acknowledged w.
Proof. intros Hl H1 H2 H3. unfold ackResponse. by rewrite Hl. Qed.

Lemma state_window_id s : s <| cs_CongestionWindow := cs_CongestionWindow s |> = s.
Proof. by destruct s. Qed.

(** ** Reno and CUBIC follow their rules *)

Module RenoLaws.
Import Reno.

(** The carried credit stays within one byte. *)
Definition creditOk (r : renoCongestionControl) : Prop := atMost (rn_credit r) 1.

#[export] Instance reno_loss_based outside : @LossBased renoCongestionControl (reno_controller outside) renoRules creditOk.
Proof.
  split.
  - intros r s e Hr He Hs Hpos Ha. unfold HandleCongestionEvent, reno_controller. rewrite He. unfold rn_increaseOnACK.
    destruct (slowStart_split s _ Hs Ha) as (E & Hw1 & Hb).
    destruct (congestionWindowLimited _ _ _) eqn:El; cbn [negb]; [|eexists _, _; split; [done|split; [done|by apply unlimited_response]]].
    rewrite E. set (acknowledged := ce_Acknowledged e) in *. set (start := slowStartWindow s acknowledged) in *.
    set (rest := acknowledged - slowStartBytes s acknowledged). assert (is_u32 rest) as Hrest by (unfold is_u32 in *; lia).
    destruct (Z.eqb_spec rest 0) as [E0|E0].
    { eexists _, _. split; [done|]. split; [done|]. apply limited_response; [done|lia|done|]. cbn -[Z.min]. fold acknowledged start rest.
      rewrite E0, Z.mul_0_l, Z.add_0_l, Z.div_0_l, Z.div_small by lia. lia. }
    destruct (additive_bounded start rest (cs_MaximumSegmentSize s) ltac:(lia) Hrest (proj2 (proj2 (proj2 Hs)))) as (Hl & Hn & Hi).
    pose proof (increase_grows outside start (rn_credit r) (additiveIncrease start rest (cs_MaximumSegmentSize s)) ltac:(lia)) as Hg.
    pose proof (increase_bounded outside start (rn_credit r) _ _ _ ltac:(lia) Hl Hn Hr Hi) as Hbound.
    destruct (applyCongestionIncrease _ _ _ _) as [w credit]. cbn [fst] in Hg. eexists _, _. split; [done|]. split; [apply Hbound|].
    apply limited_response; [done|fold acknowledged start; lia|fold acknowledged; lia|]. cbn. fold acknowledged start rest. lia.
  - intros r s e Hr He (Hw & Ht & Hf & Hm). unfold HandleCongestionEvent, reno_controller.
    destruct He as [-> | ->]; unfold rn_reduceOnLoss, rn_reduceOnTimeout, congestionThreshold; rewrite threshold_exact by lia;
      (eexists; rewrite Z.mul_1_r; split; [done|done]).
  - intros r s e Hr He (Hw & Ht & Hf & Hm). unfold HandleCongestionEvent, reno_controller. rewrite He.
    unfold rn_reduceOnECN. rewrite threshold_exact by lia. eexists. rewrite Z.mul_1_r. split; [done|done].
  - intros r s e Hr He. unfold HandleCongestionEvent, reno_controller.
    destruct (ce_Type e); try (by eexists); destruct He; tauto.
  - intros s k (Hw & Ht & Hf & Hm) Hk. rewrite tcpMaximumScaledWindow_value in *.
    assert (0 <= k * cs_MaximumSegmentSize s <= 131070) by nia. cbn -[Z.mul Z.div]. zlia.
Qed.

End RenoLaws.

Module CubicLaws.
Import Cubic.

Lemma cubic_ack_grows outside cbrt c window acknowledged mss now srtt :
  0 <= window <= tcpMaximumScaledWindow ->
  window <= snd (cu_onACK outside cbrt c window acknowledged mss now srtt) <= tcpMaximumScaledWindow.
Proof.
  intros Hw. unfold cu_onACK. destruct (_ || _); [cbn; lia|]. cbv zeta.
  lazymatch goal with |- context [applyCongestionIncrease outside window ?credit ?i] =>
    pose proof (increase_grows outside window credit i Hw) as H; destruct (applyCongestionIncrease outside window credit i) end.
  exact H.
Qed.

#[export] Instance cubic_loss_based outside cbrt :
  @LossBased cubicCongestionControl (cubic_controller outside cbrt) cubicRules (fun _ => True).
Proof.
  split.
  - intros c s e _ He Hs _ Ha. unfold HandleCongestionEvent, cubic_controller. rewrite He. unfold cu_increaseOnACK.
    destruct (slowStart_split s _ Hs Ha) as (E & Hw1 & Hb).
    destruct (congestionWindowLimited _ _ _) eqn:El; cbn [negb]; [|eexists _, _; split; [done|split; [done|by apply unlimited_response]]].
    rewrite E. set (acknowledged := ce_Acknowledged e) in *. set (start := slowStartWindow s acknowledged) in *.
    set (rest := acknowledged - slowStartBytes s acknowledged).
    destruct (Z.eqb_spec rest 0) as [E0|E0].
    { eexists _, _. split; [done|]. split; [done|]. by apply limited_response; [|lia|..]. }
    destruct Hs as (Hw & _).
    pose proof (cubic_ack_grows outside cbrt (cu_epoch c) start rest (cs_MaximumSegmentSize s) (ce_Time e) (cs_SmoothedRTT s) ltac:(lia)) as Hi.
    destruct (cu_onACK _ _ _ _ _ _ _ _) as [epoch w]. eexists _, _. split; [done|]. split; [done|].
    apply limited_response; [done|exact Hi|fold acknowledged; lia|done].
  - intros c s e _ He (Hw & Ht & Hf & Hm). unfold HandleCongestionEvent, cubic_controller.
    destruct He as [-> | ->]; unfold cu_onCongestion, cu_onTimeout, cu_reduce, congestionThreshold; rewrite threshold_exact by lia;
      (eexists; split; [done|done]).
  - intros c s e _ He (Hw & Ht & Hf & Hm). unfold HandleCongestionEvent, cubic_controller. rewrite He.
    unfold cu_onECN, cu_reduce. rewrite threshold_exact by lia. eexists. split; [done|done].
  - intros c s e _ He. unfold HandleCongestionEvent, cubic_controller. destruct (ce_Type e); try (by eexists);
      destruct He; tauto.
  - intros s k (Hw & Ht & Hf & Hm) Hk. rewrite tcpMaximumScaledWindow_value in *.
    assert (0 <= k * cs_MaximumSegmentSize s <= 131070) by nia. cbn -[Z.mul Z.div]. zlia.
Qed.

End CubicLaws.

(** ** The adapter over a loss-based algorithm *)

(** The features of the built-in loss-based controllers. *)
Definition standardFeatures {A} (c : tcpCongestionController A) : Prop :=
  usesDeliveryRate c = false /\ customRecovery c = false /\ usesLossEvents c = false /\ customPacing c = false.

(** The calls TCP makes: one ACK, the start of a loss recovery, an ECN echo, a
    timeout, the ACKs of a recovery and its end, a change of phase, an original
    transmission, a retransmission, a change of the segment size, and the pacing
    calls. *)
Inductive ccCall :=
| CallACK (mss acknowledged acknowledgementNumber now smoothedRTT minimumRTT sampleRTT flight : Z) (limited : bool)
| CallLoss (mss flight now : Z) (sack : bool)
| CallECN (mss flight now : Z)
| CallTimeout (mss flight now : Z)
| CallPartialACK (mss acknowledged flight now : Z)
| CallDuplicateACK (mss flight now : Z)
| CallExit (flight now : Z) (sack : bool)
| CallPhase (phase : CongestionPhase) (now : Z)
| CallSend (bytes mss now stamp packetsOut flight smoothedRTT : Z)
| CallRetransmit (bytes mss now stamp flight packetsOut smoothedRTT : Z)
| CallMTU (mss clock : Z)
| CallPacing (now bytes flight mss smoothedRTT : Z)
| CallWake (now flight : Z)
| CallCancelWake (clock : Z).

Definition mssOk (mss : Z) : Prop := 1 <= mss <= 65535.
Definition flightOk (flight : Z) : Prop := 0 <= flight <= tcpMaximumScaledWindow.

Definition callOk (call : ccCall) : Prop :=
  match call with
  | CallACK mss acknowledged _ _ _ _ _ flight _ => mssOk mss /\ is_u32 acknowledged /\ flightOk flight
  | CallPartialACK mss acknowledged flight _ => mssOk mss /\ is_u32 acknowledged /\ flightOk flight
  | CallLoss mss flight _ _ | CallECN mss flight _ | CallTimeout mss flight _
  | CallDuplicateACK mss flight _ => mssOk mss /\ flightOk flight
  | _ => True
  end.

(** The sender's window and threshold beside the adapter. *)
Record ccSender {A : Type} := mkSender {
  sn_controller : tcpCongestionController A;
  sn_window : Z;
  sn_threshold : Z }.
Arguments ccSender A : clear implicits.
Arguments mkSender {A}.

Section Sender.

Context {A : Type} `{CongestionController A} (outside : float64 -> Z).

(** What TCP makes of each call's result.  After a timeout the window is one
    segment, which [prepareRetransmission] sets itself (tcp.go:9874). *)
Definition senderCall (sn : ccSender A) (call : ccCall) : ccSender A :=
  let c := sn_controller sn in
  let window := sn_window sn in
  let threshold := sn_threshold sn in
  match call with
  | CallACK mss acknowledged number now smoothedRTT minimumRTT sampleRTT flight limited =>
      let '(c, (w, t)) := onACKWithThreshold c window acknowledged number mss now smoothedRTT minimumRTT sampleRTT
                            flight threshold limited in mkSender c w t
  | CallLoss mss flight now sack =>
      let '(c, (t, w)) := cc_onCongestion c window flight threshold mss now in
      let '(c, w) := recoveryWindow c now w flight t mss sack in mkSender c w t
  | CallECN mss flight now =>
      let '(c, (t, w)) := cc_onECN c window flight threshold mss now in mkSender c w t
  | CallTimeout mss flight now =>
      let '(c, t) := cc_onTimeout c window flight threshold mss now in mkSender c (u32 mss) t
  | CallPartialACK mss acknowledged flight now =>
      let '(c, w) := partialACKWindow c now window acknowledged flight mss in mkSender c w threshold
  | CallDuplicateACK mss flight now =>
      let '(c, w) := duplicateACKWindow c now window flight mss in mkSender c w threshold
  | CallExit flight now sack =>
      let '(c, w) := exitRecoveryWindow c now window threshold flight sack in mkSender c w threshold
  | CallPhase phase now => mkSender (setCongestionPhase c phase now) window threshold
  | CallSend bytes mss now stamp packetsOut flight smoothedRTT =>
      let '(c, (_, w)) := onDataSend outside c bytes mss now stamp packetsOut window flight smoothedRTT threshold in
      mkSender c w threshold
  | CallRetransmit bytes mss now stamp flight packetsOut smoothedRTT =>
      let '(c, _) := onRetransmit outside c bytes mss now stamp window flight packetsOut smoothedRTT threshold in
      mkSender c window threshold
  | CallMTU mss clock => mkSender (onMTUChange c window threshold mss clock) window threshold
  | CallPacing now bytes flight mss smoothedRTT =>
      mkSender (fst (pacingDelay c now bytes window flight mss smoothedRTT threshold)) window threshold
  | CallWake now flight => mkSender (onPacingWake c now flight) window threshold
  | CallCancelWake clock => mkSender (cancelPacingWake c clock) window threshold
  end.

(** Pacing by the window touches neither the algorithm nor the features. *)
Lemma advance_frame (c : tcpCongestionController A) bytes mss now window flight srtt threshold catchUp :
  let c' := advanceWindowPacing outside c bytes mss now window flight srtt threshold catchUp in
  cc_algorithm c' = cc_algorithm c /\ cc_features c' = cc_features c.
Proof.
  cbv zeta. unfold advanceWindowPacing. destruct (_ <=? 0); [done|]. cbv zeta. destruct (_ || _); [done|].
  set (modelRate := if cs_UsePacingRate _ then _ else _). clearbody modelRate. destruct (_ || _); [done|].
  by destruct (negb _).
Qed.

End Sender.

Section Composition.

Context {A : Type} `{CongestionController A} {rules : windowRules} {ok : A -> Prop} `{!LossBased A rules ok}.
Context (outside : float64 -> Z).

Implicit Type c : tcpCongestionController A.

Definition standard c : Prop := standardFeatures c /\ ok (cc_algorithm c).

(** The features stay, and the algorithm stays in its invariant. *)
Definition sameAdapter c c' : Prop := cc_features c' = cc_features c /\ (ok (cc_algorithm c) -> ok (cc_algorithm c')).

Lemma sameAdapter_trans c1 c2 c3 : sameAdapter c1 c2 -> sameAdapter c2 c3 -> sameAdapter c1 c3.
Proof. unfold sameAdapter. intros [] []. split; [congruence|auto]. Qed.

Lemma standard_same c c' : sameAdapter c c' -> standard c -> standard c'.
Proof.
  intros [Hf Ho] [Hs Hok]. split; [|auto]. unfold standardFeatures, usesDeliveryRate, customRecovery, usesLossEvents, customPacing in *.
  by rewrite Hf.
Qed.

(** An event handled by an algorithm that leaves the event alone. *)
Lemma handle_plain c algorithm state :
  standard c -> HandleCongestionEvent (cc_algorithm c) (cc_state c) (cc_event c) = (algorithm, state, cc_event c) -> ok algorithm ->
  cc_state (handleEvent c) = state /\ sameAdapter c (handleEvent c).
Proof.
  intros [(Hd & _) _] Hh Hok. unfold handleEvent. rewrite Hh. cbv zeta.
  assert (forall a s e, usesDeliveryRate (c <| cc_algorithm := a |> <| cc_state := s |> <| cc_event := e |>) = false)
    as E by (intros; exact Hd).
  rewrite E, !andb_false_r. cbn [orb andb]. rewrite E, !andb_false_r. cbn [orb]. by split.
Qed.

(** An event outside the rules changes nothing TCP sees. *)
Lemma handle_other c : standard c ->
  ~ (ce_Type (cc_event c) = CongestionEventACK \/ ce_Type (cc_event c) = CongestionEventLoss \/ ce_Type (cc_event c) = CongestionEventECN \/
     ce_Type (cc_event c) = CongestionEventTimeout \/ ce_Type (cc_event c) = CongestionEventRecovery) ->
  cc_state (handleEvent c) = cc_state c /\ sameAdapter c (handleEvent c).
Proof.
  intros Hs Ht. destruct (lb_other (cc_algorithm c) (cc_state c) (cc_event c) (proj2 Hs) Ht) as (a & Hh & Ha).
  by apply (handle_plain c a).
Qed.

(** A change of phase changes the phase and nothing else TCP sees. *)
Lemma phase_plain c phase now :
  standard c ->
  cc_state (setCongestionPhase c phase now) = cc_state c <| cs_Phase := phase |> /\
  sameAdapter c (setCongestionPhase c phase now).
Proof.
  intros Hs. unfold setCongestionPhase. case_bool_decide as Hp; [subst phase; split; [by destruct (cc_state c)|done]|].
  cbv zeta. destruct (cc_initialized c) eqn:Ei; cbn [negb set_field cc_initialized]; rewrite ?Ei; cbn [negb]; [|done].
  set (c1 := withEvent _ _). assert (standard c1) as Hs1 by exact Hs.
  destruct (handle_other c1 Hs1) as [-> Hsame]; [cbn; intuition discriminate|]. done.
Qed.

(** The abstract sender: what each call may do to window and threshold. *)
Definition view (window threshold flight mss : Z) : CongestionState :=
  zeroCongestionState <| cs_CongestionWindow := window |> <| cs_SlowStartThreshold := threshold |>
    <| cs_BytesInFlight := flight |> <| cs_MaximumSegmentSize := mss |>.

(** Calls that leave both alone. *)
Definition isQuiet (call : ccCall) : bool :=
  match call with
  | CallPhase _ _ | CallSend _ _ _ _ _ _ _ | CallRetransmit _ _ _ _ _ _ _ | CallMTU _ _ | CallPacing _ _ _ _ _ | CallWake _ _
  | CallCancelWake _ => true
  | _ => false
  end.

Inductive windowStep : Z * Z -> ccCall -> Z * Z -> Prop :=
| step_ack w t w' mss acknowledged number now srtt minRTT sample flight limited :
    (if (w =? 0) || (acknowledged =? 0) then w' = w else ackResponse rules (view w t flight mss) acknowledged w') ->
    windowStep (w, t) (CallACK mss acknowledged number now srtt minRTT sample flight limited) (w', t)
| step_loss w t t' mss flight now (sack : bool) :
    t' = decreased rules (view w t flight mss) 2 ->
    windowStep (w, t) (CallLoss mss flight now sack)
      (if sack then t' else Z.min tcpMaximumScaledWindow (t' + 3 * mss), t')
| step_ecn w t t' mss flight now :
    t' = decreased rules (view w t flight mss) 1 -> windowStep (w, t) (CallECN mss flight now) (t', t')
| step_timeout w t t' mss flight now :
    t' = decreased rules (view w t flight mss) 2 -> windowStep (w, t) (CallTimeout mss flight now) (mss, t')
| step_partial w t mss acknowledged flight now :
    windowStep (w, t) (CallPartialACK mss acknowledged flight now)
      (Z.max mss (Z.min tcpMaximumScaledWindow
         (Z.max 0 (w - acknowledged) + if mss <=? acknowledged then mss else 0)), t)
| step_duplicate w t mss flight now :
    windowStep (w, t) (CallDuplicateACK mss flight now) (Z.min tcpMaximumScaledWindow (w + mss), t)
| step_exit w t flight now sack : windowStep (w, t) (CallExit flight now sack) (t, t)
| step_quiet w t call : isQuiet call = true -> windowStep (w, t) call (w, t).

Inductive windowRun : Z * Z -> list ccCall -> Z * Z -> Prop :=
| run_nil v : windowRun v [] v
| run_cons v call v' calls v'' :
    windowStep v call v' -> windowRun v' calls v'' -> windowRun v (call :: calls) v''.

(** The threshold starts unlimited: the end of a recovery needs a reduction
    before it. *)
Definition reduces (call : ccCall) : bool :=
  match call with CallLoss _ _ _ _ | CallECN _ _ _ | CallTimeout _ _ _ => true | _ => false end.

Definition isExit (call : ccCall) : bool := match call with CallExit _ _ _ => true | _ => false end.

Fixpoint disciplined (lossSeen : bool) (calls : list ccCall) : Prop :=
  match calls with
  | [] => True
  | call :: calls =>
      callOk call /\ (isExit call = true -> lossSeen = true) /\ disciplined (lossSeen || reduces call) calls
  end.

Definition boundsOk (lossSeen : bool) (v : Z * Z) : Prop :=
  0 <= fst v <= tcpMaximumScaledWindow /\ is_u32 (snd v) /\ (lossSeen = true -> snd v <= tcpMaximumScaledWindow).

Lemma max_window_big : 262140 <= tcpMaximumScaledWindow /\ tcpMaximumScaledWindow < 2 ^ 32.
Proof. by vm_compute. Qed.

Lemma view_ok w t flight mss : 0 <= w <= tcpMaximumScaledWindow -> is_u32 t -> flightOk flight -> mssOk mss -> windowOk (view w t flight mss).
Proof. intros H1 H2 H3 H4. exact (conj H1 (conj H2 (conj H3 H4))). Qed.

Lemma windowStep_bounds lossSeen v call v' :
  callOk call -> (isExit call = true -> lossSeen = true) ->
  boundsOk lossSeen v -> windowStep v call v' -> boundsOk (lossSeen || reduces call) v'.
Proof.
  pose proof max_window_big as Hb. unfold boundsOk, is_u32.
  intros Hc Hd (Hw & Ht & Hl) Hs.
  assert (forall mss flight k, mssOk mss -> flightOk flight -> 1 <= k <= 2 ->
    0 <= decreased rules (view (fst v) (snd v) flight mss) k <= tcpMaximumScaledWindow) as Hdec
    by (intros mss flight k Hm Hf Hk; apply lb_decrease; [by apply view_ok|done]).
  destruct Hs as [w t w' mss acked number now srtt minRTT sample flight limited Ha|w t t' mss flight now sack ->|w t t' mss flight now ->|w t t' mss flight now ->| | | |w t call Hq];
    cbn [fst snd callOk reduces isExit] in *; rewrite ?orb_true_r, ?orb_false_r in *.
  - destruct (_ || _); [subst w'; split_and!; try done; lia|]. unfold ackResponse in Ha. destruct (negb _); [change (w' = w) in Ha; subst w'; split_and!; try done; lia|].
    destruct Ha as (Ha & _). unfold slowStartWindow, slowStartBytes in Ha. cbn -[Z.min Z.max] in Ha. destruct Hc as (? & ? & ?). unfold is_u32 in *.
    split_and!; try done; lia.
  - destruct Hc as [Hm Hf]. specialize (Hdec mss flight 2 Hm Hf ltac:(lia)). unfold mssOk in Hm. destruct sack; split_and!; lia.
  - destruct Hc as [Hm Hf]. specialize (Hdec mss flight 1 Hm Hf ltac:(lia)). split_and!; lia.
  - destruct Hc as [Hm Hf]. specialize (Hdec mss flight 2 Hm Hf ltac:(lia)). unfold mssOk in Hm. split_and!; lia.
  - destruct Hc as (Hm & Ha & Hf). unfold mssOk, is_u32 in *. split_ifs; split_and!; try done; lia.
  - destruct Hc as (Hm & Hf). unfold mssOk, is_u32 in *. split_and!; try done; lia.
  - specialize (Hl (Hd eq_refl)). split_and!; try done; lia.
  - assert (reduces call = false) as -> by (by destruct call). rewrite orb_false_r. split_and!; try done; lia.
Qed.

(** *** The adapter refines the abstract sender *)

Lemma windowOk_phase c window threshold flight mss phase :
  0 <= window <= tcpMaximumScaledWindow -> is_u32 threshold -> flightOk flight -> mssOk mss ->
  windowOk (cc_state (syncTransport c window threshold flight mss) <| cs_Phase := phase |>).
Proof. intros H1 H2 H3 H4. exact (conj H1 (conj H2 (conj H3 H4))). Qed.

Lemma handle_ack c acknowledged :
  standard c -> windowOk (cc_state c) -> 0 < cs_CongestionWindow (cc_state c) -> ce_Type (cc_event c) = CongestionEventACK ->
  ce_Acknowledged (cc_event c) = acknowledged -> is_u32 acknowledged ->
  exists w, cc_state (handleEvent c) = cc_state c <| cs_CongestionWindow := w |> /\
            ackResponse rules (cc_state c) acknowledged w /\ sameAdapter c (handleEvent c).
Proof.
  intros Hs Hw Hp Ht Ha Hu.
  destruct (lb_ack (cc_algorithm c) (cc_state c) (cc_event c) (proj2 Hs)) as (a & w & Hh & Ho & Hr); [done..|by rewrite Ha|].
  destruct (handle_plain c _ _ Hs Hh Ho) as [He Hsame]. exists w. by rewrite <- Ha.
Qed.

Lemma handle_loss c :
  standard c -> windowOk (cc_state c) ->
  ce_Type (cc_event c) = CongestionEventLoss \/ ce_Type (cc_event c) = CongestionEventTimeout ->
  cc_state (handleEvent c) = cc_state c <| cs_SlowStartThreshold := decreased rules (cc_state c) 2 |> /\ sameAdapter c (handleEvent c).
Proof.
  intros Hs Hw Ht. destruct (lb_loss (cc_algorithm c) (cc_state c) (cc_event c) (proj2 Hs)) as (a & Hh & Ho); [done..|].
  by apply (handle_plain c a).
Qed.

Lemma handle_ecn c :
  standard c -> windowOk (cc_state c) -> ce_Type (cc_event c) = CongestionEventECN ->
  cc_state (handleEvent c) = cc_state c <| cs_SlowStartThreshold := decreased rules (cc_state c) 1 |>
                                        <| cs_CongestionWindow := decreased rules (cc_state c) 1 |> /\ sameAdapter c (handleEvent c).
Proof.
  intros Hs Hw Ht. destruct (lb_ecn (cc_algorithm c) (cc_state c) (cc_event c) (proj2 Hs)) as (a & Hh & Ho); [done..|].
  by apply (handle_plain c a).
Qed.

(** The state a congestion signal is handled in, and what it shows the algorithm. *)
Lemma signalled c window threshold flight mss phase now t :
  standard c ->
  let c' := prepareEvent (setCongestionPhase (syncTransport c window threshold flight mss) phase now) t now in
  cc_state c' = cc_state (syncTransport c window threshold flight mss) <| cs_Phase := phase |> /\
  standard c' /\ ce_Type (cc_event c') = t /\ sameAdapter c c'.
Proof.
  intros Hs. set (c1 := syncTransport c window threshold flight mss). assert (sameAdapter c c1) as Hs1 by done.
  pose proof (standard_same _ _ Hs1 Hs) as H1. clearbody c1.
  destruct (phase_plain c1 phase now H1) as [Hst Hsame]. cbv zeta. set (c2 := setCongestionPhase _ _ _) in *.
  clearbody c2. pose proof (standard_same _ _ Hsame H1) as H2.
  split; [exact Hst|]. split; [exact H2|]. split; [done|]. by apply (sameAdapter_trans _ c1); [|apply (sameAdapter_trans _ c2)].
Qed.

Lemma partial_window window acknowledged mss :
  0 <= window <= tcpMaximumScaledWindow -> is_u32 acknowledged -> mssOk mss ->
  newRenoPartialACKWindow window acknowledged mss
    = Z.max mss (Z.min tcpMaximumScaledWindow
        (Z.max 0 (window - acknowledged) + if mss <=? acknowledged then mss else 0)).
Proof.
  unfold mssOk, is_u32. intros Hw Ha Hm. unfold newRenoPartialACKWindow. pose proof max_window_big.
  rewrite (u32_id mss) by (unfold is_u32; lia). cbv zeta.
  set (w := if window <=? acknowledged then _ else _).
  assert (w = Z.max 0 (window - acknowledged)) as -> by (subst w; split_ifs; [lia|rewrite u32_id; unfold is_u32; lia]).
  destruct (mss <=? acknowledged); rewrite ?grow_min by (unfold is_u32; lia); split_ifs; lia.
Qed.

Lemma ack_refines c window threshold mss acknowledged number now srtt minRTT sample flight limited :
  standard c -> 0 <= window <= tcpMaximumScaledWindow -> is_u32 threshold ->
  mssOk mss -> is_u32 acknowledged -> flightOk flight ->
  exists c' w', onACKWithThreshold c window acknowledged number mss now srtt minRTT sample flight threshold limited
                  = (c', (w', threshold)) /\ sameAdapter c c' /\
    (if (window =? 0) || (acknowledged =? 0) then w' = window
     else ackResponse rules (view window threshold flight mss) acknowledged w').
Proof.
  intros Hs Hw Ht Hm Ha Hf. unfold onACKWithThreshold. replace (mss <? 1) with false by (unfold mssOk in Hm; lia).
  rewrite orb_false_r. destruct (_ || _) eqn:E; [by exists c, window|]. cbv zeta.
  match goal with |- context [handleEvent ?x] => set (c1 := x) end.
  destruct (handle_ack c1 acknowledged) as (w & Hst & Hr & Hsame); [done|exact (view_ok window threshold flight mss Hw Ht Hf Hm)|cbn; lia|done..|].
  exists (handleEvent c1), w. rewrite Hst. done.
Qed.

(** The window recovery starts with. *)
Lemma recoveryWindow_plain c now current flight threshold mss (sack : bool) :
  standard c -> mssOk mss -> 0 <= threshold ->
  exists c', recoveryWindow c now current flight threshold mss sack
    = (c', if sack then threshold else Z.min tcpMaximumScaledWindow (threshold + 3 * mss)) /\ sameAdapter c c'.
Proof.
  intros Hs Hm Ht. unfold recoveryWindow. cbv zeta.
  assert ((if negb sack then growCongestionWindow threshold (u32 (3 * mss)) else threshold)
    = if sack then threshold else Z.min tcpMaximumScaledWindow (threshold + 3 * mss)) as ->.
  { unfold mssOk in Hm. destruct sack; [done|]. cbn [negb].
    by rewrite (u32_id (3 * mss)), grow_min by (unfold is_u32; lia). }
  set (w := if sack then _ else _). set (c2 := syncTransport _ _ _ _ _). assert (sameAdapter c c2) as H1 by done. clearbody c2.
  pose proof (standard_same _ _ H1 Hs) as H2. destruct (phase_plain c2 CongestionPhaseRecovery now H2) as [_ Hs2].
  set (c3 := setCongestionPhase _ _ _) in *. clearbody c3. destruct (standard_same _ _ Hs2 H2) as [(_ & -> & _) _].
  cbn [negb]. exists c3. split; [done|]. by eapply sameAdapter_trans.
Qed.

Lemma onCongestion_plain c window threshold mss flight now :
  standard c -> 0 <= window <= tcpMaximumScaledWindow -> is_u32 threshold -> mssOk mss -> flightOk flight ->
  exists c', cc_onCongestion c window flight threshold mss now = (c', (decreased rules (cc_state (syncTransport c window threshold flight mss) <| cs_Phase := CongestionPhaseRecovery |>) 2, window)) /\
    sameAdapter c c'.
Proof.
  intros Hs Hw Ht Hm Hf. unfold cc_onCongestion. cbv zeta.
  destruct (signalled c window threshold flight mss CongestionPhaseRecovery now CongestionEventLoss Hs) as (H1 & H2 & H3 & H0).
  set (c1 := prepareEvent _ _ _) in *. clearbody c1.
  destruct (handle_loss c1 H2) as (Hst & Hsame); [rewrite H1; apply windowOk_phase; assumption|by left|].
  rewrite Hst, H1 in *. exists (handleEvent c1). split; [done|]. by eapply sameAdapter_trans.
Qed.

Lemma onTimeout_plain c window threshold mss flight now :
  standard c -> 0 <= window <= tcpMaximumScaledWindow -> is_u32 threshold -> mssOk mss -> flightOk flight ->
  exists c', cc_onTimeout c window flight threshold mss now = (c', decreased rules (cc_state (syncTransport c window threshold flight mss) <| cs_Phase := CongestionPhaseLoss |>) 2) /\
    sameAdapter c c'.
Proof.
  intros Hs Hw Ht Hm Hf. unfold cc_onTimeout. cbv zeta.
  destruct (signalled c window threshold flight mss CongestionPhaseLoss now CongestionEventTimeout Hs) as (H1 & H2 & H3 & H0).
  set (c1 := prepareEvent _ _ _) in *. clearbody c1.
  destruct (handle_loss c1 H2) as (Hst & Hsame); [rewrite H1; apply windowOk_phase; assumption|by right|].
  rewrite Hst, H1 in *. exists (handleEvent c1). split; [done|]. by eapply sameAdapter_trans.
Qed.

Lemma onECN_plain c window threshold mss flight now :
  standard c -> 0 <= window <= tcpMaximumScaledWindow -> is_u32 threshold -> mssOk mss -> flightOk flight ->
  exists c', cc_onECN c window flight threshold mss now
    = (c', (decreased rules (cc_state (syncTransport c window threshold flight mss) <| cs_Phase := CongestionPhaseCWR |>) 1,
            decreased rules (cc_state (syncTransport c window threshold flight mss) <| cs_Phase := CongestionPhaseCWR |>) 1)) /\
    sameAdapter c c'.
Proof.
  intros Hs Hw Ht Hm Hf. unfold cc_onECN. cbv zeta.
  destruct (signalled c window threshold flight mss CongestionPhaseCWR now CongestionEventECN Hs) as (H1 & H2 & H3 & H0).
  set (c1 := prepareEvent _ _ _) in *. clearbody c1.
  destruct (handle_ecn c1 H2) as (Hst & Hsame); [rewrite H1; apply windowOk_phase; assumption|done|].
  rewrite Hst, H1 in *. exists (handleEvent c1). split; [done|]. by eapply sameAdapter_trans.
Qed.

Lemma exit_plain c window threshold flight now sack :
  standard c ->
  exists c', exitRecoveryWindow c now window threshold flight sack = (c', threshold) /\ sameAdapter c c'.
Proof.
  intros Hs. unfold exitRecoveryWindow. cbv zeta. set (c1 := c <| cc_state := _ |>).
  assert (sameAdapter c c1) as H1 by done. clearbody c1. pose proof (standard_same _ _ H1 Hs) as H2.
  pose proof H2 as [(? & Hc & ?) _]. rewrite Hc. cbn [negb]. eexists. split; [done|].
  eapply sameAdapter_trans; [done|]. by apply phase_plain.
Qed.

(** Sending, and what follows it. *)
Lemma frame_same c c' : cc_algorithm c' = cc_algorithm c /\ cc_features c' = cc_features c -> sameAdapter c c'.
Proof. intros [H1 H2]. unfold sameAdapter. by rewrite H1, H2. Qed.

Lemma send_plain c bytes mss now stamp packetsOut window flight srtt threshold : standard c ->
  exists c' snapshot, onDataSend outside c bytes mss now stamp packetsOut window flight srtt threshold = (c', (snapshot, window)) /\ sameAdapter c c'.
Proof.
  intros Hs. pose proof Hs as [(Hd & _ & _ & Hp) _]. unfold onDataSend. cbv zeta.
  set (c1 := c <| cc_packetState := 0 |>). assert (sameAdapter c c1) as S1 by done. pose proof (standard_same _ _ S1 Hs) as H1.
  assert (usesDeliveryRate c1 = false) as -> by exact Hd. clearbody c1.
  assert (exists c2, (if usesTransmissionEvents c1 then
      let c := c1 <| cc_state := cc_state c1 <| cs_CongestionWindow := window |> <| cs_BytesInFlight := flight |> |> in
      let c := handleEvent (withEvent (prepareEvent c CongestionEventPacketSent now) (fun e =>
                 e <| ce_PacketBytes := bytes |> <| ce_OutstandingBytes := packetsOut |>)) in
      (c <| cc_packetState := ce_PacketState (cc_event c) |>, cs_CongestionWindow (cc_state c))
    else (c1, window)) = (c2, window) /\ sameAdapter c1 c2) as (c2 & E & S2).
  { destruct (usesTransmissionEvents c1); [|by exists c1]. cbv zeta. set (c2 := withEvent _ _).
    assert (standard c2) as H2 by exact H1. destruct (handle_other c2 H2) as [Hst Hsame]; [cbn; intuition discriminate|].
    rewrite Hst. eexists. split; [reflexivity|]. exact Hsame. }
  cbv zeta in E. rewrite E. pose proof (standard_same _ _ S2 H1) as [(_ & _ & _ & Hp2) _]. rewrite Hp2.
  eexists _, _. split; [reflexivity|]. apply (sameAdapter_trans _ c1); [done|]. apply (sameAdapter_trans _ c2); [done|].
  apply frame_same, advance_frame.
Qed.

Lemma retransmit_plain c bytes mss now stamp window flight packetsOut srtt threshold : standard c ->
  exists c' snapshot, onRetransmit outside c bytes mss now stamp window flight packetsOut srtt threshold = (c', snapshot) /\ sameAdapter c c'.
Proof.
  intros Hs. pose proof Hs as [(Hd & _ & _ & Hp) _]. unfold onRetransmit. cbv zeta.
  set (c1 := c <| cc_packetState := 0 |>). assert (sameAdapter c c1) as S1 by done. pose proof (standard_same _ _ S1 Hs) as H1.
  assert (usesDeliveryRate c1 = false) as -> by exact Hd. clearbody c1.
  match goal with |- context [if usesTransmissionEvents c1 then ?x else c1] => set (c2 := if usesTransmissionEvents c1 then x else c1) end.
  assert (sameAdapter c1 c2) as S2.
  { unfold c2. destruct (usesTransmissionEvents c1); [|done]. set (c3 := withEvent _ _).
    assert (standard c3) as H3 by exact H1. destruct (handle_other c3 H3) as [_ Hsame]; [cbn; intuition discriminate|]. exact Hsame. }
  clearbody c2. pose proof (standard_same _ _ S2 H1) as [(_ & _ & _ & Hp2) _]. rewrite Hp2.
  eexists _, _. split; [reflexivity|]. apply (sameAdapter_trans _ c1); [done|]. apply (sameAdapter_trans _ c2); [done|].
  apply frame_same, advance_frame.
Qed.

Lemma mtu_plain c window threshold mss clock : standard c -> sameAdapter c (onMTUChange c window threshold mss clock).
Proof.
  intros Hs. unfold onMTUChange. cbv zeta. set (c1 := withEvent _ _). assert (standard c1) as H1 by exact Hs.
  destruct (handle_other c1 H1) as [_ Hsame]; [cbn; intuition discriminate|]. exact Hsame.
Qed.

(** The adapter over any loss-based algorithm implements the abstract sender. *)
Lemma senderCall_refines c window threshold call :
  standard c -> 0 <= window <= tcpMaximumScaledWindow -> is_u32 threshold -> callOk call ->
  let sn' := senderCall outside (mkSender c window threshold) call in
  windowStep (window, threshold) call (sn_window sn', sn_threshold sn') /\ standard (sn_controller sn').
Proof.
  intros Hs Hw Ht Hc. pose proof Hs as [(Hd & Hcr & _ & Hcp) _].
  destruct call; cbn [senderCall sn_controller sn_window sn_threshold callOk] in *; destruct_and?.
  - destruct (ack_refines c window threshold mss acknowledged acknowledgementNumber now smoothedRTT minimumRTT
      sampleRTT flight limited) as (c' & w & -> & Hsame & Hr); [done..|]. cbn. split; [by constructor|by eapply standard_same].
  - destruct (onCongestion_plain c window threshold mss flight now) as (c' & -> & Hsame); [done..|].
    pose proof (standard_same _ _ Hsame Hs) as Hs'.
    destruct (recoveryWindow_plain c' now window flight (decreased rules (cc_state (syncTransport c window threshold flight mss) <| cs_Phase := CongestionPhaseRecovery |>) 2) mss sack)
      as (c2 & -> & Hsame2); [done|done|apply lb_decrease; [by apply windowOk_phase|lia]|].
    cbn [sn_window sn_threshold sn_controller]. split; [|by eapply standard_same].
    by apply step_loss.
  - destruct (onECN_plain c window threshold mss flight now) as (c' & -> & Hsame); [done..|].
    cbn [sn_window sn_threshold sn_controller]. split; [by apply step_ecn|by eapply standard_same].
  - destruct (onTimeout_plain c window threshold mss flight now) as (c' & -> & Hsame); [done..|].
    cbn [sn_window sn_threshold sn_controller]. rewrite u32_id by (unfold mssOk, is_u32 in *; lia).
    split; [by apply step_timeout|by eapply standard_same].
  - unfold partialACKWindow. rewrite Hcr. cbn. split; [|done]. rewrite partial_window by done. constructor.
  - unfold duplicateACKWindow. rewrite Hcr. cbn. split; [|done].
    unfold mssOk in *. rewrite u32_id, grow_min by (unfold is_u32; lia). constructor.
  - destruct (exit_plain c window threshold flight now sack) as (c' & -> & Hsame); [done..|].
    cbn. split; [by constructor|by eapply standard_same].
  - cbn. split; [by constructor|]. eapply standard_same; [|done]. by apply phase_plain.
  - destruct (send_plain c bytes mss now stamp packetsOut window flight smoothedRTT threshold Hs) as (c' & sn & -> & Hsame).
    cbn. split; [by constructor|by eapply standard_same].
  - destruct (retransmit_plain c bytes mss now stamp window flight packetsOut smoothedRTT threshold Hs) as (c' & sn & -> & Hsame).
    cbn. split; [by constructor|by eapply standard_same].
  - cbn. split; [by constructor|]. eapply standard_same; [|done]. by apply mtu_plain.
  - unfold pacingDelay. rewrite Hcp. cbn. split; [by constructor|]. by destruct (_ || _).
  - unfold onPacingWake. rewrite Hcp. by split; [constructor|].
  - unfold cancelPacingWake. rewrite Hcp. by split; [constructor|].
Qed.

Lemma run_refines (calls : list ccCall) : forall c window threshold lossSeen,
  standard c -> boundsOk lossSeen (window, threshold) -> disciplined lossSeen calls ->
  let sn := foldl (senderCall outside) (mkSender c window threshold) calls in
  windowRun (window, threshold) calls (sn_window sn, sn_threshold sn) /\
  0 <= sn_window sn <= tcpMaximumScaledWindow /\ is_u32 (sn_threshold sn).
Proof.
  induction calls as [|call calls IH]; intros c window threshold lossSeen Hs Hb Hd.
  { cbn. split; [constructor|]. by destruct Hb as (? & ? & _). }
  destruct Hd as (Hc & He & Hd). cbn [foldl]. destruct (Hb) as (Hw & Ht & _).
  destruct (senderCall_refines c window threshold call) as [Hstep Hs']; [done..|].
  pose proof (windowStep_bounds _ _ _ _ Hc He Hb Hstep) as Hb'.
  destruct (senderCall outside (mkSender c window threshold) call) as [c' w' t'].
  destruct (IH c' w' t' _ Hs' Hb' Hd) as [Hrun Hend]. split; [by econstructor|done].
Qed.

End Composition.

(** ** Undoing a spurious recovery *)

(** An algorithm whose private state [core] a checkpoint saves and an undo
    restores. *)
Class Undoable (A : Type) `{CongestionController A} {S : Type} (core : A -> S) (saved : A -> option S)
    (sane : A -> Prop) : Prop := {
  un_checkpoint : forall a s e, ce_Type e = CongestionEventRecovery ->
    cr_Stage (ce_Recovery e) = CongestionRecoveryCheckpoint -> sane a ->
    saved (HandleCongestionEvent a s e).1.1 = Some (core a);
  un_undo : forall a s e x, ce_Type e = CongestionEventRecovery ->
    cr_Stage (ce_Recovery e) = CongestionRecoveryUndo -> saved a = Some x ->
    core (HandleCongestionEvent a s e).1.1 = x;
  un_phase : forall a s e, ce_Type e = CongestionEventStateChanged -> (HandleCongestionEvent a s e).1.1 = a;
  un_keep : forall a s e, ce_Type e <> CongestionEventMTUChanged ->
    (ce_Type e = CongestionEventRecovery -> cr_Stage (ce_Recovery e) <> CongestionRecoveryCheckpoint /\
                                            cr_Stage (ce_Recovery e) <> CongestionRecoveryUndo) ->
    saved (HandleCongestionEvent a s e).1.1 = saved a }.

Section Undo.

Context {A S : Type} {core : A -> S} {saved : A -> option S} {sane : A -> Prop}.
Context `{CongestionController A} `{!Undoable A core saved sane}.
Context (outside : float64 -> Z).

Implicit Type c : tcpCongestionController A.

Lemma handle_algorithm c :
  cc_algorithm (handleEvent c) = (HandleCongestionEvent (cc_algorithm c) (cc_state c) (cc_event c)).1.1.
Proof.
  unfold handleEvent. destruct (HandleCongestionEvent _ _ _) as [ [a s] e]. cbv zeta.
  unfold syncDeliveryState. by repeat case_match.
Qed.

Lemma handle_features c : cc_features (handleEvent c) = cc_features c.
Proof.
  unfold handleEvent. destruct (HandleCongestionEvent _ _ _) as [ [a s] e]. cbv zeta.
  unfold syncDeliveryState. by repeat case_match.
Qed.

(** What the calls of a recovery leave alone. *)
Definition kept c : option S * Z := (saved (cc_algorithm c), cc_features c).

Lemma phase_algorithm c phase now : cc_algorithm (setCongestionPhase c phase now) = cc_algorithm c.
Proof.
  unfold setCongestionPhase. destruct (bool_decide _); [done|]. cbv zeta. destruct (negb _); [done|].
  rewrite handle_algorithm. by apply un_phase.
Qed.

Lemma handle_keeps c :
  ce_Type (cc_event c) <> CongestionEventMTUChanged ->
  (ce_Type (cc_event c) = CongestionEventRecovery ->
     cr_Stage (ce_Recovery (cc_event c)) <> CongestionRecoveryCheckpoint /\
     cr_Stage (ce_Recovery (cc_event c)) <> CongestionRecoveryUndo) ->
  kept (handleEvent c) = kept c.
Proof. intros H1 H2. unfold kept. rewrite handle_algorithm, handle_features. f_equal. by apply un_keep. Qed.

Lemma phase_keeps c phase now : kept (setCongestionPhase c phase now) = kept c.
Proof.
  unfold kept. rewrite phase_algorithm. f_equal. unfold setCongestionPhase. destruct (bool_decide _); [done|].
  cbv zeta. destruct (negb _); [done|]. by rewrite handle_features.
Qed.

(** An event of a signal, after the phase it sets. *)
Lemma signal_keeps c phase now t :
  t = CongestionEventLoss \/ t = CongestionEventECN \/ t = CongestionEventTimeout ->
  kept (handleEvent (prepareEvent (setCongestionPhase c phase now) t now)) = kept c.
Proof.
  intros Ht. rewrite handle_keeps by (destruct Ht as [-> | [-> | -> ] ]; done).
  exact (phase_keeps c phase now).
Qed.

Lemma frame_kept c c' : cc_algorithm c' = cc_algorithm c /\ cc_features c' = cc_features c -> kept c' = kept c.
Proof. intros [H1 H2]. unfold kept. by rewrite H1, H2. Qed.

Lemma send_keeps c bytes mss now stamp packetsOut window flight srtt threshold :
  kept (fst (onDataSend outside c bytes mss now stamp packetsOut window flight srtt threshold)) = kept c.
Proof.
  unfold onDataSend. cbv zeta. set (c1 := c <| cc_packetState := 0 |>). change (kept c) with (kept c1). clearbody c1.
  match goal with |- context [if usesDeliveryRate c1 then ?x else ?y] =>
    assert (kept (fst (if usesDeliveryRate c1 then x else y)) = kept c1) as E1
      by (destruct (usesDeliveryRate c1); [by destruct (onDeliveryDataSent _ _ _ _)|done]);
    destruct (if usesDeliveryRate c1 then x else y) as [c2 [snapshot w]] end.
  cbn [fst] in E1. rewrite <- E1. clear c1 E1.
  match goal with |- context [if usesTransmissionEvents c2 then ?x else ?y] =>
    assert (kept (fst (if usesTransmissionEvents c2 then x else y)) = kept c2) as E2
      by (destruct (usesTransmissionEvents c2); [|done]; cbn [fst]; etrans; [by apply handle_keeps|done]);
    destruct (if usesTransmissionEvents c2 then x else y) as [c3 w'] end.
  cbn [fst] in E2. rewrite <- E2. destruct (customPacing c3); [done|]. cbn [fst]. apply frame_kept, advance_frame.
Qed.

Lemma retransmit_keeps c bytes mss now stamp window flight packetsOut srtt threshold :
  kept (fst (onRetransmit outside c bytes mss now stamp window flight packetsOut srtt threshold)) = kept c.
Proof.
  unfold onRetransmit. cbv zeta. set (c1 := c <| cc_packetState := 0 |>). change (kept c) with (kept c1). clearbody c1.
  match goal with |- context [if usesDeliveryRate c1 then ?x else ?y] =>
    assert (kept (fst (if usesDeliveryRate c1 then x else y)) = kept c1) as E1
      by (destruct (usesDeliveryRate c1); [by destruct (onDeliveryRetransmit _ _ _)|done]);
    destruct (if usesDeliveryRate c1 then x else y) as [c2 snapshot] end.
  cbn [fst] in E1. rewrite <- E1. clear c1 E1.
  match goal with |- context [if usesTransmissionEvents c2 then ?x else ?y] =>
    assert (kept (if usesTransmissionEvents c2 then x else y) = kept c2) as E2
      by (destruct (usesTransmissionEvents c2); [|done]; etrans; [by apply handle_keeps|done]);
    set (c3 := if usesTransmissionEvents c2 then x else y) in * end.
  clearbody c3. rewrite <- E2. destruct (customPacing c3); [done|]. cbn [fst]. apply frame_kept, advance_frame.
Qed.

Definition isMTU (call : ccCall) : bool := match call with CallMTU _ _ => true | _ => false end.

(** The calls of a recovery keep the checkpoint, a change of the segment size
    apart. *)
Lemma senderCall_keeps sn call : isMTU call = false ->
  kept (sn_controller (senderCall outside sn call)) = kept (sn_controller sn).
Proof.
  intros Hm. destruct sn as [c window threshold]. destruct call; cbn [senderCall sn_controller sn_window sn_threshold].
  - unfold onACKWithThreshold. destruct (_ || _); [done|]. cbn [sn_controller]. by rewrite handle_keeps.
  - unfold cc_onCongestion, recoveryWindow. cbv zeta. set (c1 := handleEvent _).
    assert (kept c1 = kept c) as E1 by (subst c1; rewrite signal_keeps; auto).
    set (c2 := setCongestionPhase (syncTransport c1 _ _ _ _) _ _).
    assert (kept c2 = kept c1) as E2 by (subst c2; by rewrite phase_keeps).
    clearbody c2. clearbody c1. destruct (negb (customRecovery c2)); cbn [sn_controller]; [by rewrite E2|].
    unfold recoveryEvent. rewrite handle_keeps by done. by rewrite <- E1, <- E2.
  - unfold cc_onECN. cbn [sn_controller]. rewrite signal_keeps; auto.
  - unfold cc_onTimeout. cbn [sn_controller]. rewrite signal_keeps; auto.
  - unfold partialACKWindow. cbv zeta. destruct (negb _); [done|]. cbn [sn_controller]. unfold recoveryEvent. by rewrite handle_keeps.
  - unfold duplicateACKWindow. cbv zeta. destruct (negb _); [done|]. cbn [sn_controller]. unfold recoveryEvent. by rewrite handle_keeps.
  - unfold exitRecoveryWindow. cbv zeta. destruct (negb _); cbn [sn_controller]; rewrite phase_keeps; [done|].
    unfold recoveryEvent. by rewrite handle_keeps.
  - cbn [sn_controller]. by rewrite phase_keeps.
  - pose proof (send_keeps c bytes mss now stamp packetsOut window flight smoothedRTT threshold) as E.
    by destruct (onDataSend _ _ _ _ _ _ _ _ _ _ _) as [c' [snapshot w]].
  - pose proof (retransmit_keeps c bytes mss now stamp window flight packetsOut smoothedRTT threshold) as E.
    by destruct (onRetransmit _ _ _ _ _ _ _ _ _ _ _) as [c' snapshot].
  - discriminate Hm.
  - unfold pacingDelay. destruct (customPacing c); [cbn [fst]; by rewrite handle_keeps|by destruct (_ || _)].
  - unfold onPacingWake. destruct (customPacing c); [by rewrite handle_keeps|done].
  - unfold cancelPacingWake. destruct (customPacing c); [by rewrite handle_keeps|done].
Qed.

Lemma run_keeps calls : Forall (fun call => isMTU call = false) calls -> forall sn,
  kept (sn_controller (foldl (senderCall outside) sn calls)) = kept (sn_controller sn).
Proof.
  induction 1 as [|call calls Hc _ IH]; intros sn; [done|]. cbn [foldl]. by rewrite IH, senderCall_keeps.
Qed.

(** What an episode keeps in the undo record. *)
Lemma undoRun_priors u l : un_priorThreshold (undoRun u l) = un_priorThreshold u /\ un_priorFlight (undoRun u l) = un_priorFlight u.
Proof.
  revert u. induction l as [|e l IH]; intros u; [done|]. change (undoRun u (e :: l)) with (undoRun (undoStep u e) l).
  destruct (IH (undoStep u e)) as [-> ->]. destruct e; cbn [undoStep].
  - unfold un_recordRetransmission. by repeat case_match.
  - unfold observeDSACK. by repeat case_match.
Qed.

Lemma initial_u32 mss : 1 <= mss <= 65535 -> 0 < initialTCPWindow mss /\ is_u32 (initialTCPWindow mss).
Proof. intros Hm. unfold initialTCPWindow. rewrite u32_id by (unfold is_u32; split_ifs; lia). unfold is_u32. split_ifs; lia. Qed.

(** One episode: the checkpoint of [begin], the calls and the events of the undo
    record in between, and [restore]. *)
Lemma episode_undone (u : tcpRecoveryUndo) timeout point window threshold flight (c : tcpCongestionController A) rtt observedAt
    (calls : list ccCall) (events : list undoEvent) currentWindow flight' acknowledged mss now phase :
  sane (cc_algorithm c) -> customRecovery c = false -> Forall (fun call => isMTU call = false) calls ->
  is_u32 acknowledged -> flightOk flight' -> mssOk mss ->
  let '(u1, c1) := un_begin u timeout point window threshold flight c rtt observedAt in
  let sn := foldl (senderCall outside) (mkSender c1 window threshold) calls in
  let '(u2, c2, (w, t)) := un_restore (undoRun u1 events) currentWindow flight' acknowledged mss (sn_controller sn) now phase in
  core (cc_algorithm c2) = core (cc_algorithm c) /\ un_active u2 = false /\
  t = Z.max threshold flight /\
  w = Z.max mss (Z.min tcpMaximumScaledWindow (flight' + Z.min acknowledged (initialTCPWindow mss))).
Proof.
  intros Hsane Hf Hcalls Ha Hfl Hm. unfold un_begin. cbv zeta. set (c1 := checkpointRecovery _ _ _ _ _ _).
  assert (kept c1 = (Some (core (cc_algorithm c)), cc_features c)) as H1.
  { subst c1. unfold checkpointRecovery, kept. rewrite handle_algorithm, handle_features. f_equal. by apply un_checkpoint. }
  pose proof (run_keeps calls Hcalls (mkSender c1 window threshold)) as H2. cbn [sn_controller] in H2. rewrite H1 in H2.
  set (c2 := sn_controller _) in *. clearbody c2. apply pair_eq in H2 as [H2 H3]. unfold un_restore. cbv zeta.
  match goal with |- context [undoRun ?u0 events] => destruct (undoRun_priors u0 events) as [-> ->] end. cbn [un_priorThreshold un_priorFlight].
  unfold undoRecovery. cbv zeta. set (c3 := recoveryEvent _ _ _).
  assert (core (cc_algorithm c3) = core (cc_algorithm c)) as H4.
  { subst c3. unfold recoveryEvent. rewrite handle_algorithm. by apply un_undo. }
  assert (customRecovery c3 = false) as ->.
  { rewrite <- Hf. subst c3. unfold customRecovery, recoveryEvent. rewrite handle_features. by rewrite <- H3. }
  clearbody c3. rewrite phase_algorithm. cbn [cc_algorithm]. split; [exact H4|]. split; [done|]. unfold mssOk, flightOk, is_u32 in *.
  destruct (initial_u32 mss Hm) as [Hi0 Hi]. unfold is_u32 in Hi. split; [split_ifs; lia|].
  set (credit := if _ <? acknowledged then _ else acknowledged).
  assert (credit = Z.min acknowledged (initialTCPWindow mss)) as -> by (unfold credit; split_ifs; lia).
  rewrite grow_min by (unfold is_u32; lia). rewrite u32_id by (unfold is_u32; lia). split_ifs; lia.
Qed.

End Undo.

(** *** Reno and CUBIC undo *)

Lemma reno_increase_checkpoint outside r window acknowledged mss flight threshold :
  Reno.rn_recoveryCheckpoint (Reno.rn_increaseOnACK outside r window acknowledged mss flight threshold).1
    = Reno.rn_recoveryCheckpoint r.
Proof.
  unfold Reno.rn_increaseOnACK. destruct (negb _); [done|]. destruct (applySlowStart _ _ _) as [w rest].
  destruct (rest =? 0); [done|]. by destruct (applyCongestionIncrease _ _ _ _).
Qed.

#[export] Instance reno_undoable outside :
  @Undoable Reno.renoCongestionControl (Reno.reno_controller outside) float64 (fun r => SFabs (Reno.rn_credit r))
    (fun r => if negb (Reno.rn_recoveryCheckpoint r .& Reno.renoRecoveryCheckpointValid =? 0)
              then Some (SFabs (float64frombits (Reno.rn_recoveryCheckpoint r .&^ Reno.renoRecoveryCheckpointValid)))
              else None)
    (fun r => f64_valid (Reno.rn_credit r)).
Proof.
  change Reno.renoRecoveryCheckpointValid with (2 ^ 63).
  split; unfold HandleCongestionEvent, Reno.reno_controller.
  - intros r s e -> Hst Hv. unfold Reno.rn_recovery. rewrite Hst. cbn [fst Reno.rn_recoveryCheckpoint].
    change Reno.renoRecoveryCheckpointValid with (2 ^ 63).
    replace ((float64bits (Reno.rn_credit r) .| 2 ^ 63) .& 2 ^ 63 =? 0) with false
      by (by rewrite land_lor_same).
    cbn [negb]. rewrite ldiff_lor, bits_abs by done. by destruct (Reno.rn_credit r).
  - intros r s e x -> Hst. unfold Reno.rn_recovery. rewrite Hst. cbn [fst Reno.rn_credit].
    change Reno.renoRecoveryCheckpointValid with (2 ^ 63). destruct (negb _); [by intros [= ->]|done].
  - by intros r s e ->.
  - intros r s e Hm Hr. destruct (ce_Type e); try done.
    + pose proof (reno_increase_checkpoint outside r (cs_CongestionWindow s) (ce_Acknowledged e)
        (cs_MaximumSegmentSize s) (cs_BytesInFlight s) (cs_SlowStartThreshold s)) as Hk.
      destruct (Reno.rn_increaseOnACK _ _ _ _ _ _ _) as [r' w]. cbn [fst] in *. by rewrite Hk.
    + destruct (Hr eq_refl) as [H1 H2]. unfold Reno.rn_recovery. by destruct (cr_Stage _).
Qed.

#[export] Instance cubic_undoable outside cbrt :
  @Undoable Cubic.cubicCongestionControl (Cubic.cubic_controller outside cbrt) Cubic.cubicEpoch Cubic.cu_epoch
    Cubic.cu_recovery (fun _ => True).
Proof.
  split; unfold HandleCongestionEvent, Cubic.cubic_controller.
  - intros c s e -> -> _. done.
  - intros c s e x -> -> Hx. cbn [fst]. unfold Cubic.restoreRecoveryCheckpoint. by rewrite Hx.
  - by intros c s e ->.
  - intros c s e Hm Hr. destruct (ce_Type e); try done.
    + by destruct (Cubic.cu_increaseOnACK _ _ _ _ _ _ _ _ _ _).
    + destruct (Hr eq_refl) as [H1 H2]. by destruct (cr_Stage _).
Qed.

(** ** Properties *)

(** C33. Reno and CUBIC under the adapter refine an abstract sender, for every
    sequence of the calls a connection makes: ACKs, entering recovery, ECN echoes,
    timeouts, partial and duplicate ACKs, leaving recovery, transmissions,
    retransmissions, changes of the segment size, pacing.  A loss or a timeout
    sets the threshold to exactly half the flight (Reno) or seven tenths of the
    window (CUBIC) with a floor of two segments, an ECN echo sets window and
    threshold likewise with a floor of one.  An ACK grows nothing below the window
    limit; slow start takes exactly the acknowledged bytes up to the threshold;
    in congestion avoidance Reno adds at least the whole bytes of the segment's
    share of the acknowledged bytes and at most two more, CUBIC never shrinks
    (how fast its curve grows is not bounded here).  Partial and duplicate ACKs
    and the end of a recovery set the window RFC 5681 and RFC 6582 give; the other
    calls move neither value; the window stays representable. *)
Theorem adapter_refines_window_rules (outside : float64 -> Z) (cbrt : float64 -> float64) (calls : list ccCall)
    (window threshold : Z) (lossSeen : bool) :
  boundsOk lossSeen (window, threshold) -> disciplined lossSeen calls ->
  (forall c : tcpCongestionController Reno.renoCongestionControl,
     standardFeatures c -> RenoLaws.creditOk (cc_algorithm c) ->
     let sn := foldl (@senderCall _ (Reno.reno_controller outside) outside) (mkSender c window threshold) calls in
     windowRun (rules := renoRules) (window, threshold) calls (sn_window sn, sn_threshold sn) /\
     0 <= sn_window sn <= tcpMaximumScaledWindow /\ is_u32 (sn_threshold sn)) /\
  (forall c : tcpCongestionController Cubic.cubicCongestionControl,
     standardFeatures c ->
     let sn := foldl (@senderCall _ (Cubic.cubic_controller outside cbrt) outside) (mkSender c window threshold) calls in
     windowRun (rules := cubicRules) (window, threshold) calls (sn_window sn, sn_threshold sn) /\
     0 <= sn_window sn <= tcpMaximumScaledWindow /\ is_u32 (sn_threshold sn)).
Proof.
  intros Hb Hd. split.
  - intros c Hs Hc. pose proof (RenoLaws.reno_loss_based outside).
    by apply (run_refines (H := Reno.reno_controller outside) (ok := RenoLaws.creditOk) outside calls c window threshold lossSeen).
  - intros c Hs. pose proof (CubicLaws.cubic_loss_based outside cbrt).
    by apply (run_refines (H := Cubic.cubic_controller outside cbrt) (ok := fun _ => True) outside calls c window threshold lossSeen).
Qed.

(** A connection of either kind: an ACK in slow start, a loss, a retransmission,
    a duplicate ACK, the end of the recovery, an ACK in congestion avoidance. *)
Definition cubicDefinition : CongestionControlDefinition Cubic.cubicCongestionControl :=
  mkDefinition "cubic" (Some (fun _ => Cubic.newCUBICCongestionControl)) CongestionControlFeatureTransmissionEvents 0.

Definition cubicAdapter : tcpCongestionController Cubic.cubicCongestionControl :=
  mkController cubicDefinition Cubic.newCUBICCongestionControl CongestionControlFeatureTransmissionEvents 0 true
    zeroEstimator zeroCongestionState zeroEvent 0 0 f64_zero 0 0.

Definition renoDefinition : CongestionControlDefinition Reno.renoCongestionControl :=
  mkDefinition "reno" (Some (fun _ => Reno.newRenoCongestionControl)) 0 0.

Definition renoAdapter : tcpCongestionController Reno.renoCongestionControl :=
  mkController renoDefinition Reno.newRenoCongestionControl 0 0 true
    zeroEstimator zeroCongestionState zeroEvent 0 0 f64_zero 0 0.

Definition sampleCalls : list ccCall :=
  [CallACK 1460 2920 5 second second second second 14600 false; CallLoss 1460 14600 second true;
   CallRetransmit 1460 1460 second second 14600 10 second; CallDuplicateACK 1460 14600 second; CallExit 8000 second true].

Lemma adapter_refines_window_rules_witness :
  let outside := fun _ : float64 => 0 in let cbrt := fun x : float64 => x in
  let calls := sampleCalls ++ [CallACK 1460 2920 6 second second second second 14600 false] in
  let reno := foldl (@senderCall _ (Reno.reno_controller outside) outside) (mkSender renoAdapter 14600 (2 ^ 32 - 1)) calls in
  let cubic := foldl (@senderCall _ (Cubic.cubic_controller outside cbrt) outside) (mkSender cubicAdapter 14600 (2 ^ 32 - 1)) calls in
  (0 <= sn_window reno <= tcpMaximumScaledWindow /\ 0 <= sn_window cubic <= tcpMaximumScaledWindow) /\
  (sn_window reno, sn_threshold reno) = (7884, 7300) /\ (sn_window cubic, sn_threshold cubic) = (12448, 12264).
Proof.
  cbv zeta. split; [|by vm_compute].
  destruct (adapter_refines_window_rules (fun _ => 0) (fun x => x)
    (sampleCalls ++ [CallACK 1460 2920 6 second second second second 14600 false]) 14600 (2 ^ 32 - 1) false) as [Hr Hc].
  - unfold boundsOk, is_u32. rewrite tcpMaximumScaledWindow_value. cbn. lia.
  - unfold sampleCalls. cbn -[flightOk mssOk is_u32]. unfold is_u32, mssOk, flightOk.
    rewrite tcpMaximumScaledWindow_value. lia.
  - destruct (Hr renoAdapter) as (_ & H1 & _); [by vm_compute|by vm_compute|].
    destruct (Hc cubicAdapter) as (_ & H2 & _); [by vm_compute|]. exact (conj H1 H2).
Defined.

(** C34. Undoing a spurious recovery.  From the start of an episode, which
    records threshold and flight and checkpoints the algorithm, through whatever
    calls the connection makes (retransmissions and signals included; a change of
    the segment size is excluded, since it discards the checkpoint) and whatever
    retransmissions and DSACKs the undo record sees, to the undo: CUBIC's whole
    growth epoch and Reno's carried credit (whose sign bit the checkpoint reuses)
    are those of the start, the record is closed, the threshold is the larger of
    the recorded threshold and flight, and the window is what is in flight plus
    at most an initial window of the acknowledged bytes, never below a segment. *)
Theorem undo_restores_algorithm (outside : float64 -> Z) (cbrt : float64 -> float64) (u : tcpRecoveryUndo)
    (timeout : bool) (point window threshold flight : Z) (rtt : rttEstimator) (observedAt : Z)
    (calls : list ccCall) (events : list undoEvent) (currentWindow flight' acknowledged mss now : Z)
    (phase : CongestionPhase) :
  Forall (fun call => isMTU call = false) calls -> is_u32 acknowledged -> flightOk flight' -> mssOk mss ->
  let restored :=
    (Z.max mss (Z.min tcpMaximumScaledWindow (flight' + Z.min acknowledged (initialTCPWindow mss))),
     Z.max threshold flight) in
  (forall c : tcpCongestionController Reno.renoCongestionControl,
     f64_valid (Reno.rn_credit (cc_algorithm c)) -> customRecovery c = false ->
     let controller := Reno.reno_controller outside in
     let '(u1, c1) := @un_begin _ controller u timeout point window threshold flight c rtt observedAt in
     let sn := foldl (@senderCall _ controller outside) (mkSender c1 window threshold) calls in
     let '(u2, c2, values) := @un_restore _ controller (undoRun u1 events) currentWindow flight' acknowledged mss
                                (sn_controller sn) now phase in
     SFabs (Reno.rn_credit (cc_algorithm c2)) = SFabs (Reno.rn_credit (cc_algorithm c)) /\
     un_active u2 = false /\ values = restored) /\
  (forall c : tcpCongestionController Cubic.cubicCongestionControl, customRecovery c = false ->
     let controller := Cubic.cubic_controller outside cbrt in
     let '(u1, c1) := @un_begin _ controller u timeout point window threshold flight c rtt observedAt in
     let sn := foldl (@senderCall _ controller outside) (mkSender c1 window threshold) calls in
     let '(u2, c2, values) := @un_restore _ controller (undoRun u1 events) currentWindow flight' acknowledged mss
                                (sn_controller sn) now phase in
     Cubic.cu_epoch (cc_algorithm c2) = Cubic.cu_epoch (cc_algorithm c) /\
     un_active u2 = false /\ values = restored).
Proof.
  intros Hcalls Ha Hf Hm. cbv zeta. split.
  - intros c Hv Hr.
    pose proof (episode_undone (H := Reno.reno_controller outside) outside u timeout point window threshold flight c rtt
      observedAt calls events currentWindow flight' acknowledged mss now phase Hv Hr Hcalls Ha Hf Hm) as E.
    destruct (un_begin _ _ _ _ _ _ _ _ _) as [u1 c1]. cbv zeta in E.
    destruct (un_restore _ _ _ _ _ _ _ _) as [ [u2 c2] [w t] ]. destruct E as (E1 & E2 & -> & ->). done.
  - intros c Hr.
    pose proof (episode_undone (H := Cubic.cubic_controller outside cbrt) outside u timeout point window threshold flight c rtt
      observedAt calls events currentWindow flight' acknowledged mss now phase I Hr Hcalls Ha Hf Hm) as E.
    destruct (un_begin _ _ _ _ _ _ _ _ _) as [u1 c1]. cbv zeta in E.
    destruct (un_restore _ _ _ _ _ _ _ _) as [ [u2 c2] [w t] ]. destruct E as (E1 & E2 & -> & ->). done.
Qed.

(** An epoch in progress. *)
Definition cubicRunning : tcpCongestionController Cubic.cubicCongestionControl :=
  cubicAdapter <| cc_algorithm := Cubic.mkCubic
    (Cubic.mkEpoch second (2 * second) 0 (f64_of_Z 20) (f64_of_Z 20) (f64_of_Z 12) (f64_of_Z 20) (f64_of_Z 2)
       (f64_ratio 3 4) false) None |>.

Lemma undo_restores_algorithm_witness :
  let controller := Cubic.cubic_controller (fun _ => 0) (fun x => x) in
  let '(u1, c1) := @un_begin _ controller zeroUndo false 9000 14600 20000 14600 cubicRunning (newRTTEstimator second) second in
  let sn := foldl (@senderCall _ controller (fun _ => 0)) (mkSender c1 14600 20000) (tl sampleCalls) in
  let '(u2, c2, values) := @un_restore _ controller (undoRun u1 [UndoRetransmit 1000 2460 7 false]) 12264 8000
                             2920 1460 (sn_controller sn) second CongestionPhaseOpen in
  Cubic.cu_epoch (cc_algorithm c2) = Cubic.cu_epoch (cc_algorithm cubicRunning) /\ un_active u2 = false /\
  values = (10920, 20000).
Proof.
  exact (proj2 (undo_restores_algorithm (fun _ => 0) (fun x => x) zeroUndo false 9000 14600 20000 14600 (newRTTEstimator second) second
    (tl sampleCalls) [UndoRetransmit 1000 2460 7 false] 12264 8000 2920 1460 second CongestionPhaseOpen
    ltac:(by repeat constructor) ltac:(by vm_compute) ltac:(by vm_compute) ltac:(by vm_compute)) cubicRunning eq_refl).
Defined.
