(* ===== verification/HeaderOptions.v ===== *)
(** * TCP header options

    The semantic option codec of [tcp.go]: [TCPHeaderOption] with its typed
    accessors, [HeaderOptions], [SetHeaderOptions] and the option framing check
    [tcpOptionsContentLength]. *)

From S2P Require Import Prelude SeqNum Scoreboard.

Definition TCPHeaderOptionEnd : Z := 0.
Definition TCPHeaderOptionNOP : Z := 1.
Definition TCPHeaderOptionMSS : Z := 2.
Definition TCPHeaderOptionWindowScale : Z := 3.
Definition TCPHeaderOptionSACKPermitted : Z := 4.
Definition TCPHeaderOptionSACK : Z := 5.
Definition TCPHeaderOptionTimestamp : Z := 8.

Record TCPHeaderOption := mkOption { op_Kind : Z; op_Data : list Z }.

#[global] Instance TCPHeaderOption_eq : EqDecision TCPHeaderOption.
Proof. solve_decision. Defined.

(** A single-byte option. *)
Definition bareKind (kind : Z) : bool :=
  (kind =? TCPHeaderOptionEnd) || (kind =? TCPHeaderOptionNOP).

(** Zero reports malformed framing; [uint(length-2) > uint(len(option)-2)]. *)
Definition tcpHeaderOptionLength (option : list Z) : Z :=
  match option with
  | _ :: length :: _ => if u64 (zlen option - 2) <? u64 (length - 2) then 0 else length
  | _ => 0
  end.

(** ** Decoding *)

(** One round of the loop of [HeaderOptions]; the result of the loop is an
    error or the descriptors. *)
Definition headerOptionsBody (options : list Z) (s : Z * list TCPHeaderOption)
    : option ((Z * list TCPHeaderOption) + (errno + list TCPHeaderOption)) :=
  let '(offset, result) := s in
  if offset <? zlen options then
    kind ← idx options offset;
    if kind =? TCPHeaderOptionEnd then Some (inr (inr (result ++ [mkOption kind []])))
    else if kind =? TCPHeaderOptionNOP then Some (inl (offset + 1, result ++ [mkOption kind []]))
    else
      rest ← slice options offset (zlen options);
      let length := tcpHeaderOptionLength rest in
      if length =? 0 then Some (inr (inl EINVAL))
      else
        data ← slice options (offset + 2) (offset + length);
        Some (inl (offset + length, result ++ [mkOption kind data]))
  else Some (inr (inr result)).

Definition HeaderOptions (options : list Z) : outcome (list TCPHeaderOption) :=
  if 40 <? zlen options then Fail EMSGSIZE
  else
    match loop (S (length options)) (headerOptionsBody options) (0, []) with
    | Some (inr result) => Ret result
    | Some (inl e) => Fail e
    | None => Panic
    end.

(** ** Encoding *)

(** The validation loop of [SetHeaderOptions]. *)
Fixpoint optionsSize (size : Z) (ended : bool) (options : list TCPHeaderOption) : outcome Z :=
  match options with
  | [] => Ret size
  | o :: options =>
      if ended then Fail EINVAL
      else if bareKind (op_Kind o) then
        if negb (zlen (op_Data o) =? 0) then Fail EINVAL
        else if 40 <? size + 1 then Fail EMSGSIZE
        else optionsSize (size + 1) (op_Kind o =? TCPHeaderOptionEnd) options
      else if 253 <? zlen (op_Data o) then Fail EINVAL
      else if 40 <? size + (2 + zlen (op_Data o)) then Fail EMSGSIZE
      else optionsSize (size + (2 + zlen (op_Data o))) ended options
  end.

Definition encodeOption (o : TCPHeaderOption) : list Z :=
  if bareKind (op_Kind o) then [op_Kind o]
  else op_Kind o :: u8 (2 + zlen (op_Data o)) :: op_Data o.

Definition SetHeaderOptions (options : list TCPHeaderOption) : outcome (list Z) :=
  _ ← optionsSize 0 false options;
  Ret (concat (map encodeOption options)).

(** ** Framing check *)

Definition contentLengthBody (options : list Z) (offset : Z) : option (Z + option Z) :=
  if offset <? zlen options then
    kind ← idx options offset;
    if kind =? TCPHeaderOptionEnd then Some (inr (Some (offset + 1)))
    else if kind =? TCPHeaderOptionNOP then Some (inl (offset + 1))
    else if zlen options - offset <? 2 then Some (inr None)
    else
      length ← idx options (offset + 1);
      if (length <? 2) || (zlen options - offset <? length) then Some (inr None)
      else Some (inl (offset + length))
  else Some (inr (Some (zlen options))).

(** [Some None] is the verdict invalid. *)
Definition tcpOptionsContentLength (options : list Z) : option (option Z) :=
  loop (S (length options)) (contentLengthBody options) 0.

(** ** Typed accessors *)

Definition MaximumSegmentSize (o : TCPHeaderOption) : option Z :=
  if (op_Kind o =? TCPHeaderOptionMSS) && (zlen (op_Data o) =? 2)
  then Some (be_val (op_Data o)) else None.

Definition SetMaximumSegmentSize (value : Z) : TCPHeaderOption :=
  mkOption TCPHeaderOptionMSS (be_bytes 2 value).

Definition WindowScale (o : TCPHeaderOption) : option Z :=
  if (op_Kind o =? TCPHeaderOptionWindowScale) && (zlen (op_Data o) =? 1)
  then idx (op_Data o) 0 else None.

Definition SetWindowScale (value : Z) : TCPHeaderOption :=
  mkOption TCPHeaderOptionWindowScale [value].

Definition IsSACKPermitted (o : TCPHeaderOption) : bool :=
  (op_Kind o =? TCPHeaderOptionSACKPermitted) && (zlen (op_Data o) =? 0).

Definition SetSACKPermitted : TCPHeaderOption := mkOption TCPHeaderOptionSACKPermitted [].

Definition Timestamp (o : TCPHeaderOption) : option (Z * Z) :=
  if (op_Kind o =? TCPHeaderOptionTimestamp) && (zlen (op_Data o) =? 8)
  then value ← be32 (op_Data o) 0; echo ← be32 (op_Data o) 4; Some (value, echo) else None.

Definition SetTimestamp (value echo : Z) : TCPHeaderOption :=
  mkOption TCPHeaderOptionTimestamp (be_bytes 4 value ++ be_bytes 4 echo).

(** The blocks of eight-byte groups. *)
Definition blockOf (data : list Z) (index : Z) : option TCPSACKBlock :=
  left ← be32 data (index * 8);
  right ← be32 data (index * 8 + 4);
  Some (mkBlock left right).

Definition SACKBlocks (o : TCPHeaderOption) : option (list TCPSACKBlock) :=
  if (op_Kind o =? TCPHeaderOptionSACK) && (8 <=? zlen (op_Data o)) && (zlen (op_Data o) <=? 32)
     && (zlen (op_Data o) mod 8 =? 0)
  then mapM (fun i => blockOf (op_Data o) (Z.of_nat i))
            (seq 0 (Z.to_nat (zlen (op_Data o) / 8)))
  else None.

Definition encodeBlock (b : TCPSACKBlock) : list Z :=
  be_bytes 4 (LeftEdge b) ++ be_bytes 4 (RightEdge b).

Definition SetSACKBlocks (blocks : list TCPSACKBlock) : outcome TCPHeaderOption :=
  if (zlen blocks <? 1) || (4 <? zlen blocks) then Fail EINVAL
  else Ret (mkOption TCPHeaderOptionSACK (concat (map encodeBlock blocks))).

(** ** Specification *)

(** The grammar of an option area: single-byte options, length-bearing
    options, and an End option after which everything is padding. *)
Inductive framed : list Z -> list TCPHeaderOption -> Prop :=
| framed_nil : framed [] []
| framed_end rest : framed (TCPHeaderOptionEnd :: rest) [mkOption TCPHeaderOptionEnd []]
| framed_nop l os :
    framed l os -> framed (TCPHeaderOptionNOP :: l) (mkOption TCPHeaderOptionNOP [] :: os)
| framed_tlv kind data l os :
    bareKind kind = false -> zlen data <= 253 -> framed l os ->
    framed (kind :: (2 + zlen data) :: data ++ l) (mkOption kind data :: os).

(** ** Lemmas *)

Lemma bareKind_false kind :
  bareKind kind = false ->
  (kind =? TCPHeaderOptionEnd) = false /\ (kind =? TCPHeaderOptionNOP) = false.
Proof. apply orb_false_iff. Qed.

(** A length byte is accepted exactly when it covers the prefix and fits. *)
Lemma headerOptionLength_ok kind n l :
  is_u8 n -> zlen l <= 38 ->
  tcpHeaderOptionLength (kind :: n :: l) = if (2 <=? n) && (n - 2 <=? zlen l) then n else 0.
Proof.
  unfold is_u8. intros Hn Hl. unfold tcpHeaderOptionLength. rewrite !zlen_cons.
  pose proof (zlen_nonneg l). rewrite (u64_small (1 + (1 + zlen l) - 2)) by lia.
  destruct (2 <=? n) eqn:E; simpl.
  - rewrite u64_small by lia. split_ifs; lia.
  - replace (u64 (n - 2)) with (n - 2 + 18446744073709551616) by word.
    split_ifs; lia.
Qed.

(** An option area is framed or ends in a malformed option. *)
Inductive malformed : list Z -> Prop :=
| malformed_nop l : malformed l -> malformed (TCPHeaderOptionNOP :: l)
| malformed_tlv kind data l :
    bareKind kind = false -> zlen data <= 253 -> malformed l ->
    malformed (kind :: (2 + zlen data) :: data ++ l)
| malformed_short kind : bareKind kind = false -> malformed [kind]
| malformed_length kind n l :
    bareKind kind = false -> n < 2 \/ zlen l < n - 2 -> malformed (kind :: n :: l).

Lemma framed_or_malformed n l :
  bytes_ok l -> (length l <= n)%nat -> (exists os, framed l os) \/ malformed l.
Proof.
  revert l. induction n as [|n IH]; intros l Hb Hn.
  { destruct l; [left; eexists; constructor|simpl in Hn; lia]. }
  destruct l as [|kind l]; [left; eexists; constructor|].
  apply Forall_cons_iff in Hb as [Hk Hb]. simpl in Hn.
  destruct (kind =? TCPHeaderOptionEnd) eqn:E0.
  { apply Z.eqb_eq in E0. subst. left. eexists. constructor. }
  destruct (kind =? TCPHeaderOptionNOP) eqn:E1.
  { apply Z.eqb_eq in E1. subst. destruct (IH l Hb ltac:(lia)) as [[os H]|H].
    - left. eexists. by constructor.
    - right. by constructor. }
  assert (bareKind kind = false) as Hbare by (unfold bareKind; by rewrite E0, E1).
  destruct l as [|m l]; [right; by constructor|].
  apply Forall_cons_iff in Hb as [Hm Hb]. unfold is_u8 in Hm. simpl in Hn.
  destruct (Z_lt_dec m 2); [right; constructor; auto|].
  destruct (Z_lt_dec (zlen l) (m - 2)); [right; constructor; auto|].
  rewrite <- (take_drop (Z.to_nat (m - 2)) l). set (data := take _ l).
  assert (zlen data = m - 2) as Hd by (subst data; rewrite zlen_take; lia).
  destruct (IH (drop (Z.to_nat (m - 2)) l)) as [[os H]|H];
    [auto with mips|rewrite length_drop; lia| |];
    revert H; generalize (drop (Z.to_nat (m - 2)) l); intros rest H;
    clearbody data; replace m with (2 + zlen data) by lia.
  - left. eexists. constructor; [done|lia|exact H].
  - right. constructor; [done|lia|exact H].
Qed.

(** One round of the loops at the boundary of two options. *)
Lemma headerOptions_done pre acc :
  headerOptionsBody pre (zlen pre, acc) = Some (inr (inr acc)).
Proof. unfold headerOptionsBody. by rewrite Z.ltb_irrefl. Qed.

Lemma headerOptions_end pre rest acc :
  headerOptionsBody (pre ++ TCPHeaderOptionEnd :: rest) (zlen pre, acc)
  = Some (inr (inr (acc ++ [mkOption TCPHeaderOptionEnd []]))).
Proof.
  unfold headerOptionsBody. rewrite idx_at, zlen_app, zlen_cons. pose proof (zlen_nonneg rest).
  by replace (_ <? _) with true by lia.
Qed.

Lemma headerOptions_nop pre l acc :
  headerOptionsBody (pre ++ TCPHeaderOptionNOP :: l) (zlen pre, acc)
  = Some (inl (zlen (pre ++ [TCPHeaderOptionNOP]), acc ++ [mkOption TCPHeaderOptionNOP []])).
Proof.
  unfold headerOptionsBody. rewrite idx_at, !zlen_app, zlen_cons. pose proof (zlen_nonneg l).
  by replace (_ <? _) with true by lia.
Qed.

Lemma headerOptions_tlv pre kind data l acc :
  bareKind kind = false -> zlen data <= 253 -> zlen (data ++ l) <= 38 ->
  headerOptionsBody (pre ++ kind :: (2 + zlen data) :: data ++ l) (zlen pre, acc)
  = Some (inl (zlen (pre ++ kind :: (2 + zlen data) :: data), acc ++ [mkOption kind data])).
Proof.
  intros Hk Hd Hl. destruct (bareKind_false kind Hk) as [E0 E1]. unfold headerOptionsBody.
  pose proof (zlen_nonneg data). pose proof (zlen_nonneg l).
  rewrite idx_at, slice_tail, zlen_app, !zlen_cons. rewrite zlen_app in *.
  replace (_ <? _) with true by lia. cbn [mbind option_bind]. rewrite E0, E1.
  rewrite headerOptionLength_ok by (unfold is_u8; rewrite ?zlen_app; lia).
  rewrite zlen_app. replace (_ && _) with true by lia. replace (_ =? 0) with false by lia.
  replace (zlen pre + 2) with (zlen (pre ++ [kind; 2 + zlen data])) by len.
  replace (zlen pre + (2 + zlen data)) with (zlen (pre ++ [kind; 2 + zlen data]) + zlen data) by len.
  replace (pre ++ kind :: (2 + zlen data) :: data ++ l)
    with ((pre ++ [kind; 2 + zlen data]) ++ data ++ l) by (by rewrite <- app_assoc).
  rewrite slice_mid. simpl. do 3 f_equal. len.
Qed.

Lemma headerOptions_bad pre kind l acc :
  bareKind kind = false -> zlen l <= 39 ->
  (l = [] \/ exists n l', l = n :: l' /\ is_u8 n /\ (n < 2 \/ zlen l' < n - 2)) ->
  headerOptionsBody (pre ++ kind :: l) (zlen pre, acc) = Some (inr (inl EINVAL)).
Proof.
  intros Hk Hl Hbad. destruct (bareKind_false kind Hk) as [E0 E1]. unfold headerOptionsBody.
  pose proof (zlen_nonneg l). rewrite idx_at, slice_tail, zlen_app, zlen_cons.
  replace (_ <? _) with true by lia. cbn [mbind option_bind]. rewrite E0, E1.
  destruct Hbad as [-> |(n & l' & -> & Hn & Hb)]; [done|]. rewrite zlen_cons in Hl.
  rewrite headerOptionLength_ok by (done || lia). by replace (_ && _) with false by lia.
Qed.

Lemma headerOptions_framed l os :
  framed l os -> zlen l <= 40 -> forall pre acc fuel, (length l < fuel)%nat ->
  loop fuel (headerOptionsBody (pre ++ l)) (zlen pre, acc) = Some (inr (acc ++ os)).
Proof.
  intros H. induction H as [|rest|l os H IH|kind data l os Hk Hd H IH];
    intros Hl pre acc [|fuel] Hf; try (simpl in Hf; lia); cbn [loop].
  - by rewrite !app_nil_r, headerOptions_done.
  - by rewrite headerOptions_end.
  - rewrite headerOptions_nop. cbn [mbind option_bind]. rewrite zlen_cons in Hl. simpl in Hf.
    rewrite (cons_middle _ pre), app_assoc, IH by lia. by rewrite <- app_assoc.
  - rewrite !zlen_cons in Hl. pose proof (zlen_nonneg data). rewrite headerOptions_tlv by lia || done.
    cbn [mbind option_bind]. simpl in Hf. rewrite length_app in Hf. rewrite zlen_app in Hl.
    replace (pre ++ kind :: (2 + zlen data) :: data ++ l)
      with ((pre ++ kind :: (2 + zlen data) :: data) ++ l) by (by rewrite <- app_assoc).
    rewrite IH by lia. by rewrite <- app_assoc.
Qed.

Lemma headerOptions_malformed l :
  malformed l -> bytes_ok l -> zlen l <= 40 -> forall pre acc fuel, (length l < fuel)%nat ->
  loop fuel (headerOptionsBody (pre ++ l)) (zlen pre, acc) = Some (inl EINVAL).
Proof.
  intros H. induction H as [l H IH|kind data l Hk Hd H IH|kind Hk|kind n l Hk Hn];
    intros Hb Hl pre acc [|fuel] Hf; try (simpl in Hf; lia); cbn [loop];
    apply Forall_cons_iff in Hb as [Hkb Hb]; rewrite zlen_cons in Hl; simpl in Hf.
  - rewrite headerOptions_nop. cbn [mbind option_bind].
    rewrite (cons_middle _ pre), app_assoc. apply IH; [done|lia|lia].
  - apply Forall_cons_iff in Hb as [Hnb Hb]. rewrite zlen_cons in Hl.
    pose proof (zlen_nonneg data). rewrite headerOptions_tlv by lia || done.
    cbn [mbind option_bind]. simpl in Hf. rewrite length_app in Hf. rewrite zlen_app in Hl.
    apply Forall_app in Hb as [_ Hb].
    replace (pre ++ kind :: (2 + zlen data) :: data ++ l)
      with ((pre ++ kind :: (2 + zlen data) :: data) ++ l) by (by rewrite <- app_assoc).
    apply IH; [done|lia|lia].
  - rewrite headerOptions_bad; [done|done|lia|auto].
  - apply Forall_cons_iff in Hb as [Hnb Hb].
    rewrite headerOptions_bad; [done|done|lia|]. right. eauto.
Qed.

(** One round of the framing check. *)
Lemma contentLength_tlv pre kind data l :
  bareKind kind = false ->
  contentLengthBody (pre ++ kind :: (2 + zlen data) :: data ++ l) (zlen pre)
  = Some (inl (zlen (pre ++ kind :: (2 + zlen data) :: data))).
Proof.
  intros Hk. destruct (bareKind_false kind Hk) as [E0 E1]. unfold contentLengthBody.
  pose proof (zlen_nonneg data). pose proof (zlen_nonneg l).
  rewrite idx_at, idx_at1, !zlen_app, !zlen_cons, zlen_app. replace (_ <? _) with true by lia.
  cbn [mbind option_bind]. rewrite E0, E1. replace (_ <? 2) with false by lia.
  replace (_ || _) with false by lia. do 2 f_equal. lia.
Qed.

Lemma contentLength_done pre : contentLengthBody pre (zlen pre) = Some (inr (Some (zlen pre))).
Proof. unfold contentLengthBody. by rewrite Z.ltb_irrefl. Qed.

Lemma contentLength_end pre rest :
  contentLengthBody (pre ++ TCPHeaderOptionEnd :: rest) (zlen pre)
  = Some (inr (Some (zlen pre + 1))).
Proof.
  unfold contentLengthBody. rewrite idx_at, zlen_app, zlen_cons. pose proof (zlen_nonneg rest).
  by replace (_ <? _) with true by lia.
Qed.

Lemma contentLength_bad pre kind l :
  bareKind kind = false ->
  (l = [] \/ exists n l', l = n :: l' /\ (n < 2 \/ zlen l' < n - 2)) ->
  contentLengthBody (pre ++ kind :: l) (zlen pre) = Some (inr None).
Proof.
  intros Hk Hbad. destruct (bareKind_false kind Hk) as [E0 E1]. unfold contentLengthBody.
  pose proof (zlen_nonneg l). rewrite idx_at, zlen_app, zlen_cons.
  replace (_ <? _) with true by lia. cbn [mbind option_bind]. rewrite E0, E1.
  destruct Hbad as [-> |(n & l' & -> & Hb)]; [by rewrite zlen_nil; replace (_ <? 2) with true by lia|].
  rewrite idx_at1, zlen_cons in *. pose proof (zlen_nonneg l').
  replace (_ <? 2) with false by lia. cbn [mbind option_bind]. by replace (_ || _) with true by lia.
Qed.

Lemma contentLength_nop pre l :
  contentLengthBody (pre ++ TCPHeaderOptionNOP :: l) (zlen pre)
  = Some (inl (zlen (pre ++ [TCPHeaderOptionNOP]))).
Proof.
  unfold contentLengthBody. rewrite idx_at, !zlen_app, zlen_cons. pose proof (zlen_nonneg l).
  by replace (_ <? _) with true by lia.
Qed.

Lemma contentLength_framed l os :
  framed l os -> forall pre fuel, (length l < fuel)%nat ->
  loop fuel (contentLengthBody (pre ++ l)) (zlen pre)
  = Some (Some (zlen pre + zlen (concat (map encodeOption os)))).
Proof.
  intros H. induction H as [|rest|l os H IH|kind data l os Hk Hd H IH];
    intros pre [|fuel] Hf; try (simpl in Hf; lia); cbn [loop]; simpl in Hf.
  - by rewrite app_nil_r, contentLength_done, Z.add_0_r.
  - by rewrite contentLength_end.
  - rewrite contentLength_nop. cbn [mbind option_bind].
    rewrite (cons_middle _ pre), app_assoc, IH by lia. do 2 f_equal. simpl. len.
  - rewrite contentLength_tlv by done. cbn [mbind option_bind]. rewrite length_app in Hf.
    replace (pre ++ kind :: (2 + zlen data) :: data ++ l)
      with ((pre ++ kind :: (2 + zlen data) :: data) ++ l) by (by rewrite <- app_assoc).
    rewrite IH by lia. do 2 f_equal. simpl. unfold encodeOption at 2. simpl. rewrite Hk. len.
Qed.

Lemma contentLength_malformed l :
  malformed l -> forall pre fuel, (length l < fuel)%nat ->
  loop fuel (contentLengthBody (pre ++ l)) (zlen pre) = Some None.
Proof.
  intros H. induction H as [l H IH|kind data l Hk Hd H IH|kind Hk|kind n l Hk Hn];
    intros pre [|fuel] Hf; try (simpl in Hf; lia); cbn [loop]; simpl in Hf.
  - rewrite contentLength_nop. cbn [mbind option_bind].
    rewrite (cons_middle _ pre), app_assoc. apply IH. lia.
  - rewrite contentLength_tlv by done. cbn [mbind option_bind]. rewrite length_app in Hf.
    replace (pre ++ kind :: (2 + zlen data) :: data ++ l)
      with ((pre ++ kind :: (2 + zlen data) :: data) ++ l) by (by rewrite <- app_assoc).
    apply IH. lia.
  - by rewrite contentLength_bad by auto.
  - by rewrite contentLength_bad by eauto 10.
Qed.

(** What the encoder accepts is framed. *)
Lemma optionsSize_ok size ended os n :
  0 <= size <= 40 -> optionsSize size ended os = Ret n ->
  n = size + zlen (concat (map encodeOption os)) /\ n <= 40 /\
  framed (concat (map encodeOption os)) os /\ (ended = true -> os = []).
Proof.
  revert size ended. induction os as [|o os IH]; intros size ended Hs H; simpl in *.
  { injection H as <-. rewrite zlen_nil. split_and!; try lia; [constructor|done]. }
  destruct ended; [done|]. destruct o as [kind data]. unfold encodeOption at 1 3. simpl in *.
  pose proof (zlen_nonneg data). pose proof (zlen_nonneg (concat (map encodeOption os))).
  destruct (bareKind kind) eqn:Ek.
  - destruct (negb (zlen data =? 0)) eqn:Ed; [done|]. destruct (40 <? size + 1) eqn:E4; [done|].
    assert (data = []) as -> by (apply zlen_zero; lia).
    destruct (IH (size + 1) _ ltac:(lia) H) as (I1 & I2 & I3 & I4). simpl. rewrite zlen_cons.
    split_and!; try done; [lia|].
    unfold bareKind in Ek. destruct (kind =? TCPHeaderOptionEnd) eqn:E0.
    + apply Z.eqb_eq in E0. subst kind. rewrite I4 by done. constructor.
    + simpl in Ek. apply Z.eqb_eq in Ek. subst kind. by constructor.
  - destruct (253 <? zlen data) eqn:Ed; [done|]. destruct (40 <? _) eqn:E4; [done|].
    destruct (IH (size + (2 + zlen data)) false ltac:(lia) H) as (I1 & I2 & I3 & _).
    replace (u8 (2 + zlen data)) with (2 + zlen data) by (unfold u8; rewrite Z.mod_small; lia).
    simpl. rewrite !zlen_cons, zlen_app. split_and!; try done; [lia|]. constructor; done || lia.
Qed.

(** What is framed within 40 bytes the encoder accepts. *)
Lemma framed_encodable l os :
  framed l os -> forall size, 0 <= size -> size + zlen l <= 40 ->
  exists rest, l = concat (map encodeOption os) ++ rest /\
    optionsSize size false os = Ret (size + zlen (concat (map encodeOption os))).
Proof.
  intros H. induction H as [|rest|l os H IH|kind data l os Hk Hd H IH]; intros size Hs Hl.
  - exists []. simpl. by rewrite zlen_nil, Z.add_0_r.
  - exists rest. rewrite zlen_cons in Hl. pose proof (zlen_nonneg rest). split; [done|]. simpl.
    by replace (40 <? size + 1) with false by lia.
  - rewrite zlen_cons in Hl. pose proof (zlen_nonneg l).
    destruct (IH (size + 1) ltac:(lia) ltac:(lia)) as (rest & E & Hsz). exists rest. simpl.
    split; [by rewrite E at 1|]. replace (40 <? size + 1) with false by lia.
    change (TCPHeaderOptionNOP =? TCPHeaderOptionEnd) with false. rewrite Hsz, zlen_cons.
    f_equal. lia.
  - rewrite !zlen_cons, zlen_app in Hl. pose proof (zlen_nonneg l). pose proof (zlen_nonneg data).
    destruct (IH (size + (2 + zlen data)) ltac:(lia) ltac:(lia)) as (rest & E & Hsz). exists rest.
    simpl. unfold encodeOption at 1 3. simpl. rewrite Hk.
    replace (u8 (2 + zlen data)) with (2 + zlen data) by (unfold u8; rewrite Z.mod_small; lia).
    split; [simpl; rewrite E at 1; by rewrite app_assoc|].
    replace (253 <? zlen data) with false by lia. replace (40 <? _) with false by lia.
    rewrite Hsz. f_equal. len.
Qed.

(** The loops from the start of an option area. *)
Lemma loops_framed l os :
  framed l os -> zlen l <= 40 ->
  loop (S (length l)) (headerOptionsBody l) (0, []) = Some (inr os) /\
  tcpOptionsContentLength l = Some (Some (zlen (concat (map encodeOption os)))).
Proof.
  intros H Hl. split.
  - exact (headerOptions_framed l os H Hl [] [] (S (length l)) ltac:(lia)).
  - exact (contentLength_framed l os H [] (S (length l)) ltac:(lia)).
Qed.

Lemma loops_malformed l :
  malformed l -> bytes_ok l -> zlen l <= 40 ->
  loop (S (length l)) (headerOptionsBody l) (0, []) = Some (inl EINVAL) /\
  tcpOptionsContentLength l = Some None.
Proof.
  intros H Hb Hl. split.
  - exact (headerOptions_malformed l H Hb Hl [] [] (S (length l)) ltac:(lia)).
  - exact (contentLength_malformed l H [] (S (length l)) ltac:(lia)).
Qed.

Lemma zlen_encodeBlock b : zlen (encodeBlock b) = 8.
Proof. unfold encodeBlock. by rewrite zlen_app, !zlen_be_bytes. Qed.

Lemma zlen_encodeBlocks bs : zlen (concat (map encodeBlock bs)) = 8 * zlen bs.
Proof.
  induction bs as [|b bs IH]; [done|]. cbn [map concat]. rewrite zlen_app, zlen_encodeBlock, IH, zlen_cons. lia.
Qed.

Definition blockOk (b : TCPSACKBlock) : Prop := is_u32 (LeftEdge b) /\ is_u32 (RightEdge b).

Lemma blockOf_at pre b todo :
  blockOk b -> blockOf (concat (map encodeBlock (pre ++ b :: todo))) (zlen pre) = Some b.
Proof.
  intros [Hl Hr]. unfold blockOf. rewrite map_app, concat_app. cbn [map concat].
  unfold encodeBlock at 2 5.
  rewrite <- !app_assoc, Z.mul_comm, <- zlen_encodeBlocks.
  rewrite be32_at by done. cbn [mbind option_bind].
  rewrite (app_assoc _ (be_bytes 4 _)).
  replace (zlen _ + 4) with (zlen (concat (map encodeBlock pre) ++ be_bytes 4 (LeftEdge b))) by len.
  rewrite be32_at by done. by destruct b.
Qed.

Lemma mapM_blocks pre todo :
  Forall blockOk todo ->
  mapM (fun i => blockOf (concat (map encodeBlock (pre ++ todo))) (Z.of_nat i))
       (seq (length pre) (length todo)) = Some todo.
Proof.
  revert pre. induction todo as [|b todo IH]; intros pre H; [done|].
  apply Forall_cons_iff in H as [Hb H]. cbn [length seq mapM].
  change (Z.of_nat (length pre)) with (zlen pre). rewrite blockOf_at by done.
  cbn [mbind option_bind]. rewrite (cons_middle b), app_assoc.
  replace (S (length pre)) with (length (pre ++ [b])) by (rewrite length_app; simpl; lia).
  rewrite IH by done. done.
Qed.

(** ** Properties *)

(** C28. Encoding a list of header options and decoding the bytes returns the
    list, in at most forty bytes that the framing check accepts in full. *)
Theorem header_options_roundtrip (os : list TCPHeaderOption) (enc : list Z) :
  SetHeaderOptions os = Ret enc ->
  HeaderOptions enc = Ret os /\ zlen enc <= 40 /\
  tcpOptionsContentLength enc = Some (Some (zlen enc)).
Proof.
  unfold SetHeaderOptions. destruct (optionsSize 0 false os) as [n| |] eqn:E; simpl; try done.
  intros [= <-]. destruct (optionsSize_ok 0 false os n ltac:(lia) E) as (Hn & Hle & Hf & _).
  set (enc := concat _) in *. destruct (loops_framed enc os Hf ltac:(lia)) as [H1 H2].
  unfold HeaderOptions. replace (40 <? zlen enc) with false by lia. rewrite H1, H2.
  subst enc. split; [done|]. split; [lia|done].
Qed.

Lemma header_options_roundtrip_witness :
  HeaderOptions [1; 3; 3; 7; 254; 4; 9; 9; 0]
  = Ret [mkOption 1 []; SetWindowScale 7; mkOption 254 [9; 9]; mkOption 0 []] /\
  zlen [1; 3; 3; 7; 254; 4; 9; 9; 0] <= 40 /\
  tcpOptionsContentLength [1; 3; 3; 7; 254; 4; 9; 9; 0] = Some (Some 9).
Proof.
  apply (header_options_roundtrip
    [mkOption 1 []; SetWindowScale 7; mkOption 254 [9; 9]; mkOption 0 []]
    [1; 3; 3; 7; 254; 4; 9; 9; 0]). by vm_compute.
Defined.

(** Decoding never panics and is canonical on every byte sequence: it
    returns the options that encode exactly the bytes up to the end of the
    option list, or an error for an area above forty bytes or one the framing
    check rejects. *)
Theorem header_options_canonical (l : list Z) :
  bytes_ok l ->
  match HeaderOptions l with
  | Ret os => exists enc rest, SetHeaderOptions os = Ret enc /\ l = enc ++ rest /\
                tcpOptionsContentLength l = Some (Some (zlen enc))
  | Fail EMSGSIZE => 40 < zlen l
  | Fail EINVAL => zlen l <= 40 /\ tcpOptionsContentLength l = Some None
  | _ => False
  end.
Proof.
  intros Hb. unfold HeaderOptions. destruct (40 <? zlen l) eqn:E; [lia|].
  destruct (framed_or_malformed (length l) l Hb ltac:(lia)) as [[os H]|H].
  - destruct (loops_framed l os H ltac:(lia)) as [-> ->].
    destruct (framed_encodable l os H 0 ltac:(lia) ltac:(lia)) as (rest & E1 & E2).
    exists (concat (map encodeOption os)), rest. unfold SetHeaderOptions. by rewrite E2.
  - destruct (loops_malformed l H Hb ltac:(lia)) as [-> ->]. split; [lia|done].
Qed.

Lemma header_options_canonical_witness :
  match HeaderOptions [2; 4; 5; 180; 0; 77] with
  | Ret os => exists enc rest, SetHeaderOptions os = Ret enc /\ [2; 4; 5; 180; 0; 77] = enc ++ rest /\
                tcpOptionsContentLength [2; 4; 5; 180; 0; 77] = Some (Some (zlen enc))
  | Fail EMSGSIZE => 40 < zlen [2; 4; 5; 180; 0; 77]
  | Fail EINVAL => zlen [2; 4; 5; 180; 0; 77] <= 40 /\
                   tcpOptionsContentLength [2; 4; 5; 180; 0; 77] = Some None
  | _ => False
  end.
Proof.
  apply (header_options_canonical [2; 4; 5; 180; 0; 77]). repeat constructor; unfold is_u8; lia.
Defined.

(** Every typed option accessor returns what its setter stored; a SACK
    option holds one to four blocks. *)
Theorem option_accessors_roundtrip (mss scale value echo : Z) (blocks : list TCPSACKBlock) :
  is_u16 mss -> is_u8 scale -> is_u32 value -> is_u32 echo -> Forall blockOk blocks ->
  MaximumSegmentSize (SetMaximumSegmentSize mss) = Some mss /\
  WindowScale (SetWindowScale scale) = Some scale /\
  IsSACKPermitted SetSACKPermitted = true /\
  Timestamp (SetTimestamp value echo) = Some (value, echo) /\
  (if (1 <=? zlen blocks) && (zlen blocks <=? 4)
   then exists o, SetSACKBlocks blocks = Ret o /\ SACKBlocks o = Some blocks
   else SetSACKBlocks blocks = Fail EINVAL).
Proof.
  intros Hm Hs Hv He Hb. split; [|split; [done|split; [done|split]]].
  - unfold MaximumSegmentSize, SetMaximumSegmentSize. cbn [op_Kind op_Data].
    rewrite zlen_be_bytes, be_val_be_bytes. simpl. unfold is_u16 in Hm. by rewrite Z.mod_small.
  - unfold Timestamp, SetTimestamp. cbn [op_Kind op_Data]. rewrite zlen_app, !zlen_be_bytes.
    replace (_ && _) with true by done. pose proof (be32_at [] (be_bytes 4 echo) value Hv) as H1.
    pose proof (be32_at (be_bytes 4 value) [] echo He) as H2. rewrite app_nil_r in H2.
    change (zlen []) with 0 in H1. change (zlen (be_bytes 4 value)) with 4 in H2.
    change ([] ++ be_bytes 4 value ++ be_bytes 4 echo) with (be_bytes 4 value ++ be_bytes 4 echo) in H1.
    rewrite H1, H2. done.
  - unfold SetSACKBlocks. destruct (_ && _) eqn:E; [|by replace (_ || _) with true by lia].
    replace (_ || _) with false by lia. eexists. split; [reflexivity|]. unfold SACKBlocks.
    cbn [op_Kind op_Data]. rewrite zlen_encodeBlocks. replace (_ && _ && _ && _) with true by zlia.
    replace (Z.to_nat (8 * zlen blocks / 8)) with (length blocks) by (unfold zlen; zlia).
    exact (mapM_blocks [] blocks Hb).
Qed.

Lemma option_accessors_roundtrip_witness :
  MaximumSegmentSize (SetMaximumSegmentSize 1460) = Some 1460 /\
  WindowScale (SetWindowScale 7) = Some 7 /\ IsSACKPermitted SetSACKPermitted = true /\
  Timestamp (SetTimestamp 4000000000 17) = Some (4000000000, 17) /\
  (if (1 <=? zlen [mkBlock 10 20]) && (zlen [mkBlock 10 20] <=? 4)
   then exists o, SetSACKBlocks [mkBlock 10 20] = Ret o /\ SACKBlocks o = Some [mkBlock 10 20]
   else SetSACKBlocks [mkBlock 10 20] = Fail EINVAL).
Proof.
  apply (option_accessors_roundtrip 1460 7 4000000000 17 [mkBlock 10 20]);
    unfold is_u16, is_u8, is_u32; try lia.
  repeat constructor; unfold is_u32; simpl; lia.
Defined.
