(* ===== verification/IpPacket.v ===== *)
(** * The IP packet codec

    [IPPacket] of [packet.go]: parsing and serialisation of complete IPv4 and
    IPv6 packets, the IPv6 extension-header walk, the IPv4 option codec and the
    sender normalisation of options and extension headers. *)

From stdpp Require Import strings.
From S2P Require Import Prelude Addr Checksum SeqNum Scoreboard HeaderOptions.

Definition ProtocolTCP : Z := 6.
Definition ProtocolNoNextHeader : Z := 59.
Definition IPv4HeaderOptionEnd : Z := 0.
Definition IPv4HeaderOptionNOP : Z := 1.
Definition IPv4HeaderOptionLooseSourceRoute : Z := 131.
Definition IPv4HeaderOptionStrictSourceRoute : Z := 137.
Definition IPv6ExtensionHeaderHopByHop : Z := 0.
Definition IPv6ExtensionHeaderRouting : Z := 43.
Definition IPv6ExtensionHeaderFragment : Z := 44.
Definition IPv6ExtensionHeaderAuthentication : Z := 51.
Definition IPv6ExtensionHeaderDestination : Z := 60.
Definition IPv6ExtensionHeaderMobility : Z := 135.
Definition IPv6ExtensionOptionPad1 : Z := 0.
Definition IPv6ExtensionOptionPadN : Z := 1.
Definition IPv6ExtensionOptionJumboPayload : Z := 194.
Definition IPv6ExtensionOptionHomeAddress : Z := 201.
Definition ipv6MaximumFlowLabel : Z := 1048575.

Record IPPacket := mkIPPacket {
  ip_Source : Addr;
  ip_Destination : Addr;
  ip_Protocol : Z;
  ip_HopLimit : Z;
  ip_TrafficClass : Z;
  ip_FlowLabel : Z;
  ip_Identification : Z;
  ip_DontFragment : bool;
  ip_MoreFragments : bool;
  ip_FragmentOffset : Z;
  ip_IPv4Options : list Z;
  ip_Payload : list Z }.

#[global] Instance IPPacket_eq : EqDecision IPPacket.
Proof. solve_decision. Defined.

(** ** IPv4 options

    The option codec repeats the TCP one on its own fields. *)

Definition ipv4HeaderOptionLength (option : list Z) : Z := tcpHeaderOptionLength option.

Definition ipv4OptionsContentLength (options : list Z) : option (option Z) :=
  loop (S (length options)) (contentLengthBody options) 0.

Definition validIPv4OptionsForCodec (options : list Z) : option bool :=
  valid ← ipv4OptionsContentLength options;
  Some (match valid with Some _ => true | None => false end).

Definition IPv4HeaderOptions (p : IPPacket) : outcome (list TCPHeaderOption) :=
  if negb (is4 (unmap (ip_Source p))) || negb (is4 (unmap (ip_Destination p)))
  then Fail EAFNOSUPPORT else HeaderOptions (ip_IPv4Options p).

Definition withIPv4Options (p : IPPacket) (options : list Z) : IPPacket :=
  mkIPPacket (ip_Source p) (ip_Destination p) (ip_Protocol p) (ip_HopLimit p) (ip_TrafficClass p)
    (ip_FlowLabel p) (ip_Identification p) (ip_DontFragment p) (ip_MoreFragments p)
    (ip_FragmentOffset p) options (ip_Payload p).

Definition SetIPv4HeaderOptions (p : IPPacket) (options : list TCPHeaderOption)
    : outcome IPPacket :=
  if negb (is4 (unmap (ip_Source p))) || negb (is4 (unmap (ip_Destination p)))
  then Fail EAFNOSUPPORT
  else encoded ← SetHeaderOptions options; Ret (withIPv4Options p encoded).

Definition sourceRouteBody (options : list Z) (offset : Z) : option (Z + bool) :=
  if offset <? zlen options then
    kind ← idx options offset;
    if kind =? IPv4HeaderOptionEnd then Some (inr false)
    else if kind =? IPv4HeaderOptionNOP then Some (inl (offset + 1))
    else
      rest ← slice options offset (zlen options);
      let length := ipv4HeaderOptionLength rest in
      if length =? 0 then Some (inr false)
      else if (kind =? IPv4HeaderOptionLooseSourceRoute)
              || (kind =? IPv4HeaderOptionStrictSourceRoute) then
        if length <? 3 then Some (inr true)
        else
          pointer ← idx options (offset + 2);
          if (pointer <? 4) || (pointer <=? length) then Some (inr true)
          else Some (inl (offset + length))
      else Some (inl (offset + length))
  else Some (inr false).

Definition hasActiveIPv4SourceRoute (options : list Z) : option bool :=
  loop (S (length options)) (sourceRouteBody options) 0.

(** ** Fragment fields *)

Definition validFragmentPayload (offset : Z) (more : bool) (payloadSize maximum : Z) : bool :=
  if (offset <? 0) || (65528 <? offset) || negb (Z.land offset 7 =? 0) || (payloadSize <? 0)
     || (maximum <? 0) then false
  else if (negb (offset =? 0) || more) && (payloadSize =? 0) then false
  else if more && negb (Z.land payloadSize 7 =? 0) then false
  else (payloadSize <=? maximum) && (offset <=? maximum - payloadSize).

(** ** IPv6 extension headers *)

Definition isTraversableIPv6ExtensionHeader (headerType : Z) : bool :=
  (headerType =? IPv6ExtensionHeaderHopByHop) || (headerType =? IPv6ExtensionHeaderRouting)
  || (headerType =? IPv6ExtensionHeaderFragment)
  || (headerType =? IPv6ExtensionHeaderAuthentication)
  || (headerType =? IPv6ExtensionHeaderDestination)
  || (headerType =? IPv6ExtensionHeaderMobility).

Definition ipv6ExtensionHeaderUnit8LengthField (lengthField : Z) : Z := (lengthField + 1) * 8.

Definition ipv6AuthenticationHeaderLength (lengthField : Z) : Z :=
  if (lengthField <? 2) || negb (Z.land lengthField 1 =? 0) then 0 else (lengthField + 2) * 4.

Definition ipv6ExtensionHeaderLengthField (headerType lengthField : Z) : Z :=
  if headerType =? IPv6ExtensionHeaderAuthentication then ipv6AuthenticationHeaderLength lengthField
  else if (headerType =? IPv6ExtensionHeaderHopByHop) || (headerType =? IPv6ExtensionHeaderRouting)
          || (headerType =? IPv6ExtensionHeaderDestination)
          || (headerType =? IPv6ExtensionHeaderMobility)
  then ipv6ExtensionHeaderUnit8LengthField lengthField
  else 0.

(** The length and whether the header is complete. *)
Definition ipv6ExtensionHeaderLength (headerType : Z) (header : list Z) : Z * bool :=
  if headerType =? IPv6ExtensionHeaderFragment then (8, 8 <=? zlen header)
  else
    match header with
    | _ :: lengthField :: _ =>
        let length := ipv6ExtensionHeaderLengthField headerType lengthField in
        (length, negb (length =? 0) && (length <=? zlen header))
    | _ => (0, false)
    end.

Definition ipv6ExtensionOptionLength (optionType : Z) (remaining : list Z) : Z * bool :=
  if optionType =? IPv6ExtensionOptionPad1 then (1, true)
  else
    match remaining with
    | _ :: n :: _ => (2 + n, 2 + n <=? zlen remaining)
    | _ => (0, false)
    end.

(** One round of [inspectIPv6OptionBytesForCodec]; the result is the pair of
    the home-address and jumbo-payload flags, or invalid framing. *)
Definition inspectBody (options : list Z) (s : Z * bool * bool)
    : option (Z * bool * bool + option (bool * bool)) :=
  let '(offset, homeAddress, jumboPayload) := s in
  if offset <? zlen options then
    optionType ← idx options offset;
    if optionType =? IPv6ExtensionOptionPad1
    then Some (inl (offset + 1, homeAddress, jumboPayload))
    else if zlen options - offset <? 2 then Some (inr None)
    else
      n ← idx options (offset + 1);
      if zlen options - offset <? n + 2 then Some (inr None)
      else Some (inl (offset + (n + 2),
                      homeAddress || (optionType =? IPv6ExtensionOptionHomeAddress),
                      jumboPayload || (optionType =? IPv6ExtensionOptionJumboPayload)))
  else Some (inr (Some (homeAddress, jumboPayload))).

Definition inspectIPv6OptionBytesForCodec (options : list Z) : option (option (bool * bool)) :=
  loop (S (length options)) (inspectBody options) (0, false, false).

Definition inspectIPv6OptionsForCodec (header : list Z) : option (option (bool * bool)) :=
  if (zlen header <? 8) || negb (zlen header mod 8 =? 0) then Some None
  else options ← slice header 2 (zlen header); inspectIPv6OptionBytesForCodec options.

(** ** The extension-header walk *)

Record walkState := mkWalk {
  wk_next : Z;
  wk_offset : Z;
  wk_seenHop : bool;
  wk_seenFragment : bool;
  wk_unsafe : bool }.

(** The final protocol, the bytes above it, whether the base addresses are
    unsafe in a pseudo-header, and whether the packet is a true fragment. *)
Record upperLayerResult := mkUpper {
  up_protocol : Z;
  up_payload : list Z;
  up_unsafe : bool;
  up_fragment : bool }.

(** The per-type checks of one header: [None] rejects the chain, [inr] ends the
    walk at a fragment, [inl] continues with the flags. *)
Definition walkHeader (s : walkState) (header rest : list Z)
    : option (option ((bool * bool) + upperLayerResult)) :=
  let headerType := wk_next s in
  if (headerType =? IPv6ExtensionHeaderHopByHop) || (headerType =? IPv6ExtensionHeaderDestination)
  then
    verdict ← inspectIPv6OptionsForCodec header;
    match verdict with
    | None => Some None
    | Some (homeAddress, jumboPayload) =>
        if (jumboPayload : bool) then Some None
        else Some (Some (inl (wk_unsafe s || homeAddress, wk_seenFragment s)))
    end
  else if headerType =? IPv6ExtensionHeaderRouting then
    segments ← idx header 3;
    Some (Some (inl (wk_unsafe s || negb (segments =? 0), wk_seenFragment s)))
  else if headerType =? IPv6ExtensionHeaderFragment then
    if wk_seenFragment s then Some None
    else
      field ← be16 header 2;
      let fragmentOffset := Z.land field 65528 in
      let more := negb (Z.land field 1 =? 0) in
      if negb (validFragmentPayload fragmentOffset more (zlen rest) 65535) then Some None
      else if negb (fragmentOffset =? 0) || more then
        next ← idx header 0;
        Some (Some (inr (mkUpper next rest (wk_unsafe s) true)))
      else Some (Some (inl (wk_unsafe s, true)))
  else Some (Some (inl (wk_unsafe s, wk_seenFragment s))).

Definition walkBody (payload : list Z) (s : walkState)
    : option (walkState + option upperLayerResult) :=
  if wk_next s =? ProtocolNoNextHeader
  then Some (inr (Some (mkUpper (wk_next s) [] (wk_unsafe s) false)))
  else
    remaining ← slice payload (wk_offset s) (zlen payload);
    if negb (isTraversableIPv6ExtensionHeader (wk_next s))
    then Some (inr (Some (mkUpper (wk_next s) remaining (wk_unsafe s) false)))
    else if (wk_next s =? IPv6ExtensionHeaderHopByHop)
            && (negb (wk_offset s =? 0) || wk_seenHop s) then Some (inr None)
    else
      let '(length, valid) := ipv6ExtensionHeaderLength (wk_next s) remaining in
      if negb valid then Some (inr None)
      else
        header ← slice payload (wk_offset s) (wk_offset s + length);
        rest ← slice payload (wk_offset s + length) (zlen payload);
        step ← walkHeader s header rest;
        match step with
        | None => Some (inr None)
        | Some (inr upper) => Some (inr (Some upper))
        | Some (inl (unsafe, seenFragment)) =>
            next ← idx header 0;
            Some (inl (mkWalk next (wk_offset s + length)
                         (wk_seenHop s || (wk_next s =? IPv6ExtensionHeaderHopByHop))
                         seenFragment unsafe))
        end.

(** [Some None] is the verdict invalid. *)
Definition walkIPv6UpperLayer (first : Z) (payload : list Z) : option (option upperLayerResult) :=
  loop (S (length payload)) (walkBody payload) (mkWalk first 0 false false false).

(** ** Parsing *)

Definition parseIPv4 (bigEndian : bool) (packet : list Z) : outcome IPPacket :=
  if zlen packet <? 20 then Fail EINVAL
  else
    b0 ← need (idx packet 0);
    let headerSize := Z.land b0 15 * 4 in
    totalSize ← need (be16 packet 2);
    fragment ← need (be16 packet 6);
    let fragmentOffset := Z.land fragment 8191 * 8 in
    let moreFragments := negb (Z.land fragment 8192 =? 0) in
    if (headerSize <? 20) || (totalSize <? headerSize) || (zlen packet <? totalSize)
       || negb (Z.land fragment 32768 =? 0)
       || (negb (Z.land fragment 16383 =? 0)
           && negb (validFragmentPayload fragmentOffset moreFragments (totalSize - headerSize)
                      (65535 - 20)))
    then Fail EINVAL
    else
      header ← need (slice packet 0 headerSize);
      if negb (checksum bigEndian header =? 0) then Fail EINVAL
      else
        options ← need (slice packet 20 headerSize);
        valid ← need (validIPv4OptionsForCodec options);
        if negb valid then Fail EINVAL
        else
          source ← need (slice packet 12 16);
          destination ← need (slice packet 16 20);
          protocol ← need (idx packet 9);
          hopLimit ← need (idx packet 8);
          trafficClass ← need (idx packet 1);
          identification ← need (be16 packet 4);
          payload ← need (slice packet headerSize totalSize);
          Ret (mkIPPacket (Addr4 source) (Addr4 destination) protocol hopLimit trafficClass 0
                 identification (negb (Z.land fragment 16384 =? 0)) moreFragments fragmentOffset
                 options payload).

Definition parseIPv6 (packet : list Z) : outcome IPPacket :=
  if zlen packet <? 40 then Fail EINVAL
  else
    payloadSize ← need (be16 packet 4);
    let stop := 40 + payloadSize in
    if zlen packet <? stop then Fail EINVAL
    else
      source ← need (slice packet 8 24);
      destination ← need (slice packet 24 40);
      let source := Addr6 source noZone in
      let destination := Addr6 destination noZone in
      if is4In6 source || is4In6 destination then Fail EINVAL
      else
        protocol ← need (idx packet 6);
        hopLimit ← need (idx packet 7);
        b0 ← need (idx packet 0);
        b1 ← need (idx packet 1);
        low ← need (be16 packet 2);
        payload ← need (slice packet 40 stop);
        verdict ← need (walkIPv6UpperLayer protocol payload);
        match verdict with
        | None => Fail EINVAL
        | Some _ =>
            Ret (mkIPPacket source destination protocol hopLimit
                   (Z.lor (Z.shiftl (Z.land b0 15) 4) (Z.shiftr b1 4))
                   (Z.lor (Z.shiftl (Z.land b1 15) 16) low)
                   0 false false 0 [] payload)
        end.

Definition ParseIPPacket (bigEndian : bool) (packet : list Z) : outcome IPPacket :=
  match packet with
  | [] => Fail EINVAL
  | b0 :: _ =>
      if Z.shiftr b0 4 =? 4 then parseIPv4 bigEndian packet
      else if Z.shiftr b0 4 =? 6 then parseIPv6 packet
      else Fail EINVAL
  end.

(** ** The upper layer *)

(** The final protocol, its bytes and whether the pseudo-header is safe. *)
Definition upperLayer (p : IPPacket) : outcome (Z * list Z * bool) :=
  let source := unmap (ip_Source p) in
  let destination := unmap (ip_Destination p) in
  if negb (isValid source) || negb (isValid destination)
     || negb (bool_decide (zoneOf (ip_Source p) = noZone))
     || negb (bool_decide (zoneOf (ip_Destination p) = noZone))
     || negb (Bool.eqb (is4 source) (is4 destination))
     || (ip_Protocol p <? 0) || (255 <? ip_Protocol p)
  then Fail EINVAL
  else if is4 source then
    if ip_MoreFragments p || negb (ip_FragmentOffset p =? 0) || (40 <? zlen (ip_IPv4Options p))
    then Fail EINVAL
    else
      valid ← need (validIPv4OptionsForCodec (ip_IPv4Options p));
      if negb valid then Fail EINVAL
      else
        active ← need (hasActiveIPv4SourceRoute (ip_IPv4Options p));
        Ret (ip_Protocol p, ip_Payload p, negb active)
  else if negb (ip_Identification p =? 0) || ip_DontFragment p || ip_MoreFragments p
          || negb (ip_FragmentOffset p =? 0) || negb (zlen (ip_IPv4Options p) =? 0)
  then Fail EINVAL
  else
    verdict ← need (walkIPv6UpperLayer (u8 (ip_Protocol p)) (ip_Payload p));
    match verdict with
    | None => Fail EINVAL
    | Some up => if up_fragment up then Fail EINVAL
                 else Ret (up_protocol up, up_payload up, negb (up_unsafe up))
    end.

Definition upperLayerForProtocol (p : IPPacket) (protocol : Z) : outcome (list Z * bool) :=
  '(actual, payload, pseudoHeaderSafe) ← upperLayer p;
  if negb (actual =? protocol) then Fail EPROTONOSUPPORT else Ret (payload, pseudoHeaderSafe).

(** ** Serialisation *)

Definition withAddresses (p : IPPacket) (source destination : Addr) : IPPacket :=
  mkIPPacket source destination (ip_Protocol p) (ip_HopLimit p) (ip_TrafficClass p)
    (ip_FlowLabel p) (ip_Identification p) (ip_DontFragment p) (ip_MoreFragments p)
    (ip_FragmentOffset p) (ip_IPv4Options p) (ip_Payload p).

Definition ipv4Layout (p : IPPacket) (strict : bool) : outcome (IPPacket * Z * Z) :=
  if negb (ip_FlowLabel p =? 0) || (40 <? zlen (ip_IPv4Options p)) then Fail EINVAL
  else
    valid ← (if strict then need (validIPv4OptionsForCodec (ip_IPv4Options p)) else Ret true);
    if negb valid then Fail EINVAL
    else
      let headerSize := 20 + align4 (zlen (ip_IPv4Options p)) in
      if 65535 - headerSize <? zlen (ip_Payload p) then Fail EMSGSIZE
      else if strict
              && negb (validFragmentPayload (ip_FragmentOffset p) (ip_MoreFragments p)
                         (zlen (ip_Payload p)) (65535 - 20)) then Fail EINVAL
      else if negb strict
              && ((ip_FragmentOffset p <? 0) || (65528 <? ip_FragmentOffset p)
                  || negb (Z.land (ip_FragmentOffset p) 7 =? 0)) then Fail EINVAL
      else Ret (p, headerSize, headerSize + zlen (ip_Payload p)).

Definition ipv6Layout (p : IPPacket) (strict : bool) : outcome (IPPacket * Z * Z) :=
  if (ipv6MaximumFlowLabel <? ip_FlowLabel p) || negb (ip_Identification p =? 0)
     || ip_DontFragment p || ip_MoreFragments p || negb (ip_FragmentOffset p =? 0)
     || negb (zlen (ip_IPv4Options p) =? 0) then Fail EINVAL
  else if 65535 <? zlen (ip_Payload p) then Fail EMSGSIZE
  else
    verdict ← (if strict then need (walkIPv6UpperLayer (u8 (ip_Protocol p)) (ip_Payload p))
               else Ret (Some (mkUpper 0 [] false false)));
    match verdict with
    | None => Fail EINVAL
    | Some _ => Ret (p, 40, 40 + zlen (ip_Payload p))
    end.

Definition wireLayout (p : IPPacket) (strict : bool) : outcome (IPPacket * Z * Z) :=
  if negb (bool_decide (zoneOf (ip_Source p) = noZone))
     || negb (bool_decide (zoneOf (ip_Destination p) = noZone)) then Fail EINVAL
  else
    let p := withAddresses p (unmap (ip_Source p)) (unmap (ip_Destination p)) in
    if negb (isValid (ip_Source p)) || negb (isValid (ip_Destination p))
       || negb (Bool.eqb (is4 (ip_Source p)) (is4 (ip_Destination p)))
       || (ip_Protocol p <? 0) || (255 <? ip_Protocol p)
       || (ip_HopLimit p <? 0) || (255 <? ip_HopLimit p)
       || (ip_TrafficClass p <? 0) || (255 <? ip_TrafficClass p) then Fail EINVAL
    else if is4 (ip_Source p) then ipv4Layout p strict else ipv6Layout p strict.

(** The option area of the header: the content through End, zero padding. *)
Definition optionArea (content : list Z) (size : Z) : list Z :=
  content ++ replicate (Z.to_nat (size - zlen content)) 0.

(** The IPv4 header without its checksum. *)
Definition ipv4Fields (p : IPPacket) (headerSize totalSize checksumField : Z) : list Z :=
  [Z.lor 64 (u8 (headerSize / 4)); u8 (ip_TrafficClass p)]
  ++ be_bytes 2 totalSize ++ be_bytes 2 (ip_Identification p)
  ++ be_bytes 2 (Z.lor (Z.lor (u16 (ip_FragmentOffset p / 8))
                          (if ip_DontFragment p then 16384 else 0))
                   (if ip_MoreFragments p then 8192 else 0))
  ++ [u8 (ip_HopLimit p); u8 (ip_Protocol p)]
  ++ be_bytes 2 checksumField ++ asSlice (ip_Source p) ++ asSlice (ip_Destination p).

Definition marshalIPv4 (bigEndian : bool) (p : IPPacket) (headerSize : Z) (normalize : bool)
    : option (list Z) :=
  content ← (if normalize then
               size ← ipv4OptionsContentLength (ip_IPv4Options p);
               slice (ip_IPv4Options p) 0 (default 0 size)
             else Some (ip_IPv4Options p));
  let options := optionArea content (headerSize - 20) in
  let totalSize := headerSize + zlen (ip_Payload p) in
  let header := ipv4Fields p headerSize totalSize 0 ++ options in
  Some (ipv4Fields p headerSize totalSize (checksum bigEndian header)
        ++ options ++ ip_Payload p).

(** ** Normalisation of IPv6 extension headers *)

(** The inner loop: PadN data is cleared; the flag is false when malformed
    framing ends the function. *)
Definition padNBody (s : Z * list Z) : option (Z * list Z + list Z * bool) :=
  let '(offset, options) := s in
  if offset <? zlen options then
    optionType ← idx options offset;
    rest ← slice options offset (zlen options);
    let '(length, valid) := ipv6ExtensionOptionLength optionType rest in
    if negb valid then Some (inr (options, false))
    else
      options ← (if optionType =? IPv6ExtensionOptionPadN
                 then splice options (offset + 2) (replicate (Z.to_nat (length - 2)) 0)
                 else Some options);
      Some (inl (offset + length, options))
  else Some (inr (options, true)).

Definition clearPadN (options : list Z) : option (list Z * bool) :=
  loop (S (length options)) padNBody (0, options).

Definition normalizeBody (s : Z * Z * list Z) : option (Z * Z * list Z + list Z) :=
  let '(next, offset, payload) := s in
  if negb (isTraversableIPv6ExtensionHeader next) then Some (inr payload)
  else
    remaining ← slice payload offset (zlen payload);
    let '(length, valid) := ipv6ExtensionHeaderLength next remaining in
    if negb valid then Some (inr payload)
    else
      header ← slice payload offset (offset + length);
      following ← idx header 0;
      if (next =? IPv6ExtensionHeaderHopByHop) || (next =? IPv6ExtensionHeaderDestination) then
        options ← slice header 2 length;
        '(options, framed) ← clearPadN options;
        payload ← splice payload (offset + 2) options;
        if negb framed then Some (inr payload)
        else Some (inl (following, offset + length, payload))
      else if next =? IPv6ExtensionHeaderFragment then
        field ← be16 header 2;
        payload ← splice payload (offset + 1) (0 :: be_bytes 2 (Z.ldiff field 6));
        if negb (Z.land field 65529 =? 0) then Some (inr payload)
        else Some (inl (following, offset + length, payload))
      else Some (inl (following, offset + length, payload)).

Definition normalizeIPv6ExtensionFields (first : Z) (payload : list Z) : option (list Z) :=
  loop (S (length payload)) normalizeBody (first, 0, payload).

Definition ipv6BaseHeader (p : IPPacket) (protocol payloadSize : Z) : list Z :=
  [Z.lor 96 (Z.shiftr (u8 (ip_TrafficClass p)) 4);
   Z.lor (u8 (Z.shiftl (u8 (ip_TrafficClass p)) 4)) (u8 (Z.shiftr (ip_FlowLabel p) 16))]
  ++ be_bytes 2 (u16 (ip_FlowLabel p)) ++ be_bytes 2 (u16 payloadSize)
  ++ [protocol; u8 (ip_HopLimit p)] ++ asSlice (ip_Source p) ++ asSlice (ip_Destination p).

Definition marshalPublicIPPacket (bigEndian : bool) (p : IPPacket) (headerSize : Z)
    (normalize : bool) : option (list Z) :=
  if is4 (ip_Source p) then marshalIPv4 bigEndian p headerSize normalize
  else
    payload ← (if normalize
               then normalizeIPv6ExtensionFields (u8 (ip_Protocol p)) (ip_Payload p)
               else Some (ip_Payload p));
    Some (ipv6BaseHeader p (u8 (ip_Protocol p)) (zlen payload) ++ payload).

Definition MarshalBinary (bigEndian : bool) (p : IPPacket) : outcome (list Z) :=
  '(normalized, headerSize, _) ← wireLayout p true;
  need (marshalPublicIPPacket bigEndian normalized headerSize true).

Definition MarshalRawBinary (bigEndian : bool) (p : IPPacket) : outcome (list Z) :=
  '(normalized, headerSize, _) ← wireLayout p false;
  need (marshalPublicIPPacket bigEndian normalized headerSize false).

(** ** Lemmas: the walks return *)

Lemma ipv4Content_total l :
  bytes_ok l -> zlen l <= 40 ->
  (exists os, framed l os /\
     ipv4OptionsContentLength l = Some (Some (zlen (concat (map encodeOption os))))) \/
  ipv4OptionsContentLength l = Some None.
Proof.
  intros Hb Hl. destruct (framed_or_malformed (length l) l Hb ltac:(lia)) as [[os H]|H].
  - left. exists os. split; [done|]. by destruct (loops_framed l os H Hl).
  - right. by destruct (loops_malformed l H Hb Hl).
Qed.

Lemma validOptions_total l :
  bytes_ok l -> zlen l <= 40 -> exists b, validIPv4OptionsForCodec l = Some b.
Proof.
  intros Hb Hl. unfold validIPv4OptionsForCodec.
  destruct (ipv4Content_total l Hb Hl) as [(os & _ & ->)| ->]; simpl; eauto.
Qed.

Lemma validOptions_framed l :
  bytes_ok l -> zlen l <= 40 ->
  validIPv4OptionsForCodec l = Some true <-> exists os, framed l os.
Proof.
  intros Hb Hl. unfold validIPv4OptionsForCodec. split.
  - destruct (ipv4Content_total l Hb Hl) as [(os & H & ->)| ->]; simpl; [eauto|done].
  - intros [os H]. destruct (loops_framed l os H Hl) as [_ H2].
    change (ipv4OptionsContentLength l) with (tcpOptionsContentLength l). by rewrite H2.
Qed.

(** Zero padding keeps an option area framed. *)
Lemma framed_padding l os n :
  framed l os -> exists os', framed (l ++ replicate n 0) os'.
Proof.
  intros H. induction H as [|rest|l os H [os' IH]|kind data l os Hk Hd H [os' IH]].
  - destruct n; simpl; eexists; constructor.
  - eexists. simpl. constructor.
  - eexists. simpl. constructor. exact IH.
  - eexists. simpl. rewrite <- app_assoc. constructor; [done|done|exact IH].
Qed.

Lemma headerOptionLength_range l :
  bytes_ok l -> zlen l <= 40 ->
  tcpHeaderOptionLength l = 0 \/ 2 <= tcpHeaderOptionLength l <= zlen l.
Proof.
  intros Hb Hl. destruct l as [|kind [|n l]]; [by left|by left|].
  apply Forall_cons_iff in Hb as [_ Hb]. apply Forall_cons_iff in Hb as [Hn _].
  rewrite !zlen_cons in *. rewrite headerOptionLength_ok by (done || lia). split_ifs; lia.
Qed.

Lemma sourceRoute_total l :
  bytes_ok l -> zlen l <= 40 -> exists b, hasActiveIPv4SourceRoute l = Some b.
Proof.
  intros Hb Hl. unfold hasActiveIPv4SourceRoute.
  destruct (loop_total (fun o => 0 <= o) (fun o => Z.to_nat (zlen l - o)) (fun _ => True)
    (sourceRouteBody l)) with (fuel := S (length l)) (s := 0) as (b & E & _);
    [|lia|unfold zlen; lia|by exists b].
  intros offset Ho. unfold sourceRouteBody. destruct (offset <? zlen l) eqn:Ei; [|by eexists].
  destruct (idx_some l offset) as [kind ->]; [lia|]. cbn [mbind option_bind].
  destruct (_ =? _); [by eexists|]. destruct (_ =? _); [eexists; split; [done|simpl; lia]|].
  rewrite slice_eq by lia. cbn [mbind option_bind]. set (rest := take _ _).
  assert (bytes_ok rest /\ zlen rest = zlen l - offset) as [Hrb Hrl]
    by (subst rest; split; [auto with mips|len]).
  destruct (headerOptionLength_range rest Hrb ltac:(lia)) as [H0|H0]; unfold ipv4HeaderOptionLength.
  { rewrite H0. by eexists. }
  replace (_ =? 0) with false by lia.
  destruct (_ || _); [|eexists; split; [done|simpl; lia]].
  destruct (_ <? 3) eqn:E3; [by eexists|].
  destruct (idx_some l (offset + 2)) as [pointer ->]; [lia|]. cbn [mbind option_bind].
  destruct (_ || _); [by eexists|]. eexists. split; [done|simpl; lia].
Qed.

Lemma inspect_total l : bytes_ok l -> exists v, inspectIPv6OptionBytesForCodec l = Some v.
Proof.
  intros Hb. unfold inspectIPv6OptionBytesForCodec.
  destruct (loop_total (fun s : Z * bool * bool => 0 <= fst (fst s))
    (fun s => Z.to_nat (zlen l - fst (fst s))) (fun _ => True)
    (inspectBody l)) with (fuel := S (length l)) (s := (0, false, false)) as (v & E & _);
    [|simpl; lia|unfold zlen; simpl; lia|by exists v].
  intros [[offset home] jumbo] Ho. simpl in Ho. unfold inspectBody.
  destruct (offset <? zlen l) eqn:Ei; [|by eexists].
  destruct (idx_some l offset) as [kind ->]; [lia|]. cbn [mbind option_bind].
  destruct (_ =? _); [eexists; split; [done|simpl; lia]|]. destruct (_ <? 2) eqn:E2; [by eexists|].
  destruct (idx_some l (offset + 1)) as [n En]; [lia|]. rewrite En. cbn [mbind option_bind].
  pose proof (idx_u8 _ _ _ Hb En) as Hn. unfold is_u8 in Hn.
  destruct (_ <? n + 2); [by eexists|]. eexists. split; [done|simpl; lia].
Qed.

Lemma extensionLength_range headerType l :
  bytes_ok l -> let '(n, valid) := ipv6ExtensionHeaderLength headerType l in
  valid = true -> 8 <= n <= zlen l.
Proof.
  intros Hb. unfold ipv6ExtensionHeaderLength. destruct (_ =? IPv6ExtensionHeaderFragment); [lia|].
  destruct l as [|a [|b l]]; try done. apply Forall_cons_iff in Hb as [_ Hb].
  apply Forall_cons_iff in Hb as [Hn _]. unfold is_u8 in Hn.
  unfold ipv6ExtensionHeaderLengthField, ipv6AuthenticationHeaderLength,
    ipv6ExtensionHeaderUnit8LengthField. split_ifs; lia.
Qed.

Lemma walkHeader_total s header rest :
  bytes_ok header -> 8 <= zlen header -> exists r, walkHeader s header rest = Some r.
Proof.
  intros Hb Hl. unfold walkHeader.
  destruct (_ || _).
  - unfold inspectIPv6OptionsForCodec. destruct (_ || _); [by eexists|].
    rewrite slice_eq by lia. cbn [mbind option_bind].
    match goal with |- context [inspectIPv6OptionBytesForCodec ?l] =>
      destruct (inspect_total l ltac:(auto with mips)) as [[[h j]|] ->] end; [|by eexists].
    cbn [mbind option_bind]. destruct j; by eexists.
  - destruct (_ =? _); [destruct (idx_some header 3) as [x ->]; [lia|]; by eexists|].
    destruct (_ =? _); [|by eexists]. destruct (wk_seenFragment s); [by eexists|].
    unfold be16. destruct (slice_some header 2 (2 + 2)) as (f & -> & _); [lia..|].
    cbn [mbind option_bind fmap option_fmap option_map]. destruct (negb _); [by eexists|].
    destruct (_ || _); [|by eexists]. destruct (idx_some header 0) as [x ->]; [lia|]. by eexists.
Qed.

Lemma walk_total first payload :
  bytes_ok payload -> exists r, walkIPv6UpperLayer first payload = Some r.
Proof.
  intros Hb. unfold walkIPv6UpperLayer.
  destruct (loop_total (fun s => 0 <= wk_offset s <= zlen payload)
    (fun s => Z.to_nat (zlen payload - wk_offset s)) (fun _ => True) (walkBody payload))
    with (fuel := S (length payload)) (s := mkWalk first 0 false false false) as (r & E & _);
    [|simpl; pose proof (zlen_nonneg payload); lia|unfold zlen; simpl; lia|by exists r].
  intros [next offset seenHop seenFragment unsafe] Ho. cbn [wk_offset] in Ho. unfold walkBody.
  cbn [wk_next wk_offset wk_seenHop wk_seenFragment wk_unsafe].
  destruct (next =? ProtocolNoNextHeader); [by eexists|].
  rewrite slice_eq by lia. cbn [mbind option_bind]. destruct (negb _); [by eexists|].
  destruct (_ && _); [by eexists|].
  match goal with |- context [ipv6ExtensionHeaderLength next ?l] =>
    pose proof (extensionLength_range next l ltac:(auto with mips)) as Hn;
    assert (zlen l = zlen payload - offset) as Hl by len;
    destruct (ipv6ExtensionHeaderLength next l) as [n valid] end.
  destruct valid; [|by eexists]. specialize (Hn eq_refl). cbn [negb]. rewrite Hl in Hn.
  destruct (slice_some payload offset (offset + n)) as (header & Eh & Hh); [lia..|]. rewrite Eh.
  rewrite slice_eq by lia. cbn [mbind option_bind].
  destruct (walkHeader_total (mkWalk next offset seenHop seenFragment unsafe) header
    (take (Z.to_nat (zlen payload - (offset + n))) (drop (Z.to_nat (offset + n)) payload)))
    as [step ->]; [eauto with mips|lia|].
  cbn [mbind option_bind]. destruct step as [[[unsafe' seen']|upper]|]; try by eexists.
  destruct (idx_some header 0) as [x ->]; [lia|]. cbn [mbind option_bind].
  eexists. split; [done|]. simpl. lia.
Qed.

Lemma need_total {A} (o : option A) : (exists a, o = Some a) -> exists a, need o = Ret a.
Proof. intros [a ->]. by exists a. Qed.

(** Reading steps of a parser that knows the length of its input. *)
Ltac step_need :=
  lazymatch goal with
  | |- mbind _ (need (idx ?l ?i)) <> _ =>
      let x := fresh "x" in let E := fresh "E" in
      destruct (idx_some l i) as [x E]; [lia|]; rewrite E
  | |- mbind _ (need (be16 ?l ?i)) <> _ =>
      let x := fresh "v" in let E := fresh "E" in
      destruct (be16_total l i) as [x E]; [lia|lia|]; rewrite E
  | |- mbind _ (need (slice ?l ?a ?b)) <> _ =>
      let x := fresh "s" in let E := fresh "E" in let H := fresh "H" in
      destruct (slice_some l a b) as (x & E & H); [lia|lia|lia|]; rewrite E
  end; cbn [need mbind outcome_bind].

Lemma parseIPv4_total be packet : bytes_ok packet -> parseIPv4 be packet <> Panic.
Proof.
  intros Hb. unfold parseIPv4. destruct (_ <? 20) eqn:E20; [done|].
  step_need. step_need. step_need.
  destruct (_ || _) eqn:Ec; [done|].
  assert (0 <= Z.land x 15 <= 15) as Hx by (mask_low x 4; zlia).
  assert (20 <= Z.land x 15 * 4 <= v /\ v <= zlen packet) as [H1 H2] by lia. clear Ec.
  step_need. destruct (negb _); [done|]. step_need.
  destruct (validOptions_total s0) as [valid ->]; [eauto with mips|lia|].
  cbn [need mbind outcome_bind]. destruct (negb valid); [done|].
  do 7 step_need. done.
Qed.

Lemma parseIPv6_total packet : bytes_ok packet -> parseIPv6 packet <> Panic.
Proof.
  intros Hb. unfold parseIPv6. destruct (_ <? 40) eqn:E40; [done|].
  step_need. destruct (zlen packet <? 40 + v) eqn:El; [done|].
  do 2 step_need. destruct (_ || _); [done|].
  do 5 step_need.
  assert (0 <= v) as Hv.
  { unfold be16 in E. destruct (slice packet 4 (4 + 2)) as [w|] eqn:Ew; [|done].
    injection E as <-. apply be_val_bound. eauto with mips. }
  step_need. destruct (walk_total x s1) as [r ->]; [eauto with mips|].
  cbn [need mbind outcome_bind]. by destruct r.
Qed.

(** ** Lemmas: IPv4 round trip *)

Lemma be_val2 v : is_u16 v -> be_val [v / 256 mod 256; v mod 256] = v.
Proof. unfold is_u16, be_val. simpl. intros. zlia. Qed.

(** The fragment field and its three parts. *)
Definition fragmentField (offset : Z) (df mf : bool) : Z :=
  Z.lor (Z.lor (u16 (offset / 8)) (if df then 16384 else 0)) (if mf then 8192 else 0).

Lemma fragmentField_sum offset df mf :
  0 <= offset <= 65528 ->
  fragmentField offset df mf
  = offset / 8 + (if df then 16384 else 0) + (if mf then 8192 else 0).
Proof.
  intros Ho. unfold fragmentField, u16. rewrite Z.mod_small by zlia.
  assert (Z.lor (offset / 8) (if df then 16384 else 0) = offset / 8 + (if df then 16384 else 0)) as ->.
  { apply lor_add. destruct df; [|apply Z.land_0_r]. mask_bit (offset / 8) 14. zlia. }
  apply lor_add. destruct mf; [|apply Z.land_0_r].
  mask_bit (offset / 8 + (if df then 16384 else 0)) 13. destruct df; zlia.
Qed.

Lemma fragmentField_parts offset df mf :
  0 <= offset <= 65528 -> offset mod 8 = 0 ->
  let f := fragmentField offset df mf in
  is_u16 f /\ Z.land f 8191 * 8 = offset /\ negb (Z.land f 8192 =? 0) = mf /\
  negb (Z.land f 16384 =? 0) = df /\ Z.land f 32768 = 0.
Proof.
  intros Ho H8. cbn zeta. rewrite fragmentField_sum by done. unfold is_u16.
  set (f := offset / 8 + _ + _). assert (f = offset / 8 + (if df then 16384 else 0) + (if mf then 8192 else 0))
    as Hf by done. clearbody f.
  mask_low f 13. mask_bit f 13. mask_bit f 14. mask_bit f 15.
  destruct df, mf; split_and!; try zlia.
Qed.

Definition optionsOk (options : list Z) : Prop :=
  bytes_ok options /\ zlen options <= 40 /\ zlen options mod 4 = 0 /\
  exists os, framed options os.

(** The IPv4 fields a parsed packet can have. *)
Definition ipv4Ok (p : IPPacket) : Prop :=
  (exists s d, ip_Source p = Addr4 s /\ ip_Destination p = Addr4 d /\
     length s = 4%nat /\ length d = 4%nat /\ bytes_ok s /\ bytes_ok d) /\
  is_u8 (ip_Protocol p) /\ is_u8 (ip_HopLimit p) /\ is_u8 (ip_TrafficClass p) /\
  ip_FlowLabel p = 0 /\ is_u16 (ip_Identification p) /\
  validFragmentPayload (ip_FragmentOffset p) (ip_MoreFragments p) (zlen (ip_Payload p)) 65515 = true.

Lemma validFragment_offset offset more n :
  validFragmentPayload offset more n 65515 = true -> 0 <= offset <= 65528 /\ offset mod 8 = 0.
Proof.
  unfold validFragmentPayload. mask_low offset 3. destruct (_ || _) eqn:E; [done|]. intros _. lia.
Qed.

Lemma versionByte headerSize :
  0 <= headerSize <= 60 -> Z.lor 64 (u8 (headerSize / 4)) = 64 + headerSize / 4.
Proof.
  intros H. unfold u8. rewrite Z.mod_small by zlia. apply lor_add. rewrite Z.land_comm.
  mask_bit (headerSize / 4) 6. zlia.
Qed.

Lemma ipv4Fields_ok p headerSize totalSize c :
  ipv4Ok p -> 0 <= headerSize <= 60 ->
  bytes_ok (ipv4Fields p headerSize totalSize c) /\
  zlen (ipv4Fields p headerSize totalSize c) = 20.
Proof.
  intros ((s & d & Es & Ed & Ls & Ld & Bs & Bd) & _) Hh. unfold ipv4Fields. rewrite Es, Ed.
  cbn [asSlice]. split.
  - rewrite !bytes_ok_app. split_and!; auto with mips.
    + rewrite versionByte by done.
      constructor; [unfold is_u8; zlia|constructor; [apply u8_range|constructor]].
    + constructor; [apply u8_range|constructor; [apply u8_range|constructor]].
  - rewrite !zlen_app, !zlen_be_bytes. unfold zlen. rewrite Ls, Ld. done.
Qed.

(** The header checksum of a serialised packet verifies. *)
Lemma ipv4Header_verifies be p headerSize totalSize options :
  ipv4Ok p -> 0 <= headerSize <= 60 -> bytes_ok options -> zlen options <= 40 ->
  checksum be (ipv4Fields p headerSize totalSize
     (checksum be (ipv4Fields p headerSize totalSize 0 ++ options)) ++ options) = 0.
Proof.
  intros Hp Hh Hb Hl. pose proof (zlen_nonneg options).
  destruct (ipv4Fields_ok p headerSize totalSize 0 Hp Hh) as [Hf _].
  assert (forall c, ipv4Fields p headerSize totalSize c ++ options
    = take 10 (ipv4Fields p headerSize totalSize 0) ++ be_bytes 2 c
      ++ (asSlice (ip_Source p) ++ asSlice (ip_Destination p) ++ options)) as E
    by (intros c; unfold ipv4Fields; rewrite <- !app_assoc; reflexivity).
  rewrite !E. unfold ipv4Fields in Hf. rewrite !bytes_ok_app in Hf.
  destruct Hf as (_ & _ & _ & _ & _ & _ & Hs & Hd).
  apply checksum_insert.
  - apply bytes_ok_take. by apply ipv4Fields_ok.
  - rewrite !bytes_ok_app. auto.
  - reflexivity.
  - destruct Hp as ((s & d & -> & -> & Ls & Ld & _) & _). rewrite !zlen_app. cbn [asSlice].
    unfold zlen in *. rewrite Ls, Ld. rewrite length_take. lia.
Qed.

(** Parsing a verified header of twenty explicit bytes, its options and a
    payload. *)
Lemma parse_explicit_ipv4 be x0 x1 x2 x3 x4 x5 x6 x7 x8 x9 x10 x11 s0 s1 s2 s3 d0 d1 d2 d3
    options payload f total :
  let X := [x0; x1; x2; x3; x4; x5; x6; x7; x8; x9; x10; x11; s0; s1; s2; s3; d0; d1; d2; d3] in
  optionsOk options -> x0 = 64 + (20 + zlen options) / 4 -> be_val [x2; x3] = total ->
  total = 20 + zlen options + zlen payload -> be_val [x6; x7] = f ->
  checksum be (X ++ options) = 0 -> Z.land f 32768 = 0 ->
  validFragmentPayload (Z.land f 8191 * 8) (negb (Z.land f 8192 =? 0)) (zlen payload) 65515 = true ->
  ParseIPPacket be (X ++ options ++ payload)
  = Ret (mkIPPacket (Addr4 [s0; s1; s2; s3]) (Addr4 [d0; d1; d2; d3]) x9 x8 x1 0
           (be_val [x4; x5]) (negb (Z.land f 16384 =? 0)) (negb (Z.land f 8192 =? 0))
           (Z.land f 8191 * 8) options payload).
Proof.
  intros X (Ob & Ol & O4 & Of) E0 Et Et' Ef Hck Hres Hfrag.
  pose proof (zlen_nonneg options). pose proof (zlen_nonneg payload).
  set (wire := X ++ options ++ payload).
  assert (zlen wire = total) as Hw by (subst wire X; len).
  assert (slice wire 0 (20 + zlen options) = Some (X ++ options)) as S1
    by (subst wire; rewrite app_assoc; replace (20 + zlen options) with (zlen (X ++ options)) by (subst X; len);
        apply slice_app_l).
  assert (slice wire 20 (20 + zlen options) = Some options) as S2
    by exact (slice_mid X options payload).
  assert (slice wire (20 + zlen options) total = Some payload) as S3.
  { subst wire. rewrite app_assoc. replace (20 + zlen options) with (zlen (X ++ options)) by (subst X; len).
    replace total with (zlen (X ++ options) + zlen payload) by (subst X; len). apply slice_app_r. }
  assert (forall a b, 0 <= a <= b -> b <= 20 -> slice wire a b
    = Some (take (Z.to_nat (b - a)) (drop (Z.to_nat a) wire))) as S4 by (intros; apply slice_eq; lia).
  unfold ParseIPPacket. change wire with (x0 :: tail wire) at 1. cbn iota beta.
  assert (Z.shiftr x0 4 = 4) as -> by (rewrite Z.shiftr_div_pow2 by lia; change (2 ^ 4) with 16; zlia).
  change (4 =? 4) with true. cbn iota. unfold parseIPv4. rewrite Hw.
  replace (total <? 20) with false by lia. change (idx wire 0) with (Some x0).
  unfold be16. rewrite !S4 by lia. cbn [need mbind outcome_bind fmap option_fmap option_map].
  mask_low x0 4. replace (x0 mod 16 * 4) with (20 + zlen options) by zlia.
  change (be_val (take (Z.to_nat (2 + 2 - 2)) (drop (Z.to_nat 2) wire))) with (be_val [x2; x3]).
  change (be_val (take (Z.to_nat (6 + 2 - 6)) (drop (Z.to_nat 6) wire))) with (be_val [x6; x7]).
  rewrite Et, Ef, Hres. replace (total - (20 + zlen options)) with (zlen payload) by lia.
  change (65535 - 20) with 65515. rewrite Hfrag, andb_false_r.
  replace (_ || _) with false by lia. cbn iota. rewrite S1. cbn [need mbind outcome_bind].
  rewrite Hck. cbn [negb Z.eqb]. rewrite S2. cbn [need mbind outcome_bind].
  rewrite (proj2 (validOptions_framed options Ob Ol) Of), S3.
  reflexivity.
Qed.

(** Parsing a serialised IPv4 packet returns its fields. *)
Lemma parse_marshal_ipv4 be p options :
  ipv4Ok p -> optionsOk options -> let headerSize := 20 + zlen options in
  headerSize + zlen (ip_Payload p) <= 65535 ->
  let totalSize := headerSize + zlen (ip_Payload p) in
  ParseIPPacket be (ipv4Fields p headerSize totalSize
     (checksum be (ipv4Fields p headerSize totalSize 0 ++ options)) ++ options ++ ip_Payload p)
  = Ret (withIPv4Options p options).
Proof.
  intros Hp Ho headerSize Ht totalSize. pose proof Ho as (Ob & Ol & O4 & Of).
  pose proof (zlen_nonneg options). pose proof (zlen_nonneg (ip_Payload p)).
  assert (20 <= headerSize <= 60 /\ headerSize mod 4 = 0) as [Hh Hh4] by (subst headerSize; zlia).
  pose proof (ipv4Header_verifies be p headerSize totalSize options Hp ltac:(lia) Ob Ol) as Hv.
  destruct (ipv4Fields_ok p headerSize totalSize 0 Hp ltac:(lia)) as [Hfb Hfl].
  pose proof (checksum_range be (ipv4Fields p headerSize totalSize 0 ++ options)
    ltac:(apply bytes_ok_app; done) ltac:(rewrite zlen_app; lia)) as Hc.
  set (c := checksum be (ipv4Fields p headerSize totalSize 0 ++ options)) in *. clearbody c.
  destruct Hp as ((s & d & Es & Ed & Ls & Ld & Bs & Bd) & Hproto & Hhop & Htc & Hfl0 & Hid & Hfrag).
  destruct (validFragment_offset _ _ _ Hfrag) as [Fo F8].
  destruct (fragmentField_parts _ (ip_DontFragment p) (ip_MoreFragments p) Fo F8)
    as (Ff & F1 & F2 & F3 & F4).
  unfold ipv4Fields in Hv |- *. rewrite versionByte in Hv |- * by lia.
  fold (fragmentField (ip_FragmentOffset p) (ip_DontFragment p) (ip_MoreFragments p)) in Hv |- *.
  set (f := fragmentField _ _ _) in *. clearbody f.
  rewrite Es, Ed in Hv |- *. cbn [asSlice] in Hv |- *.
  destruct s as [|s0 [|s1 [|s2 [|s3 [|]]]]]; try done.
  destruct d as [|d0 [|d1 [|d2 [|d3 [|]]]]]; try done. clear Ls Ld.
  cbn [app be_bytes] in Hv |- *.
  etrans; [eapply (parse_explicit_ipv4 be _ _ _ _ _ _ _ _ _ _ _ _ s0 s1 s2 s3 d0 d1 d2 d3
    options (ip_Payload p) f totalSize)|]; try done.
  - apply be_val2. unfold is_u16. lia.
  - by apply be_val2.
  - by rewrite F1, F2.
  - rewrite F1, F2, F3, be_val2 by done. unfold u8, is_u8 in *. rewrite !Z.mod_small by lia.
    unfold withIPv4Options. destruct p; simpl in *; congruence.
Qed.

(** ** Lemmas: IPv6 round trip *)

(** The IPv6 fields a parsed packet can have. *)
Definition ipv6Ok (p : IPPacket) : Prop :=
  (exists s d, ip_Source p = Addr6 s noZone /\ ip_Destination p = Addr6 d noZone /\
     length s = 16%nat /\ length d = 16%nat /\
     is4In6 (Addr6 s noZone) = false /\ is4In6 (Addr6 d noZone) = false) /\
  is_u8 (ip_Protocol p) /\ is_u8 (ip_HopLimit p) /\ is_u8 (ip_TrafficClass p) /\
  0 <= ip_FlowLabel p <= ipv6MaximumFlowLabel /\
  ip_Identification p = 0 /\ ip_DontFragment p = false /\ ip_MoreFragments p = false /\
  ip_FragmentOffset p = 0 /\ ip_IPv4Options p = [].

Lemma firstBytes tc fl :
  is_u8 tc -> 0 <= fl <= ipv6MaximumFlowLabel ->
  Z.lor 96 (Z.shiftr (u8 tc) 4) = 96 + tc / 16 /\
  Z.lor (u8 (Z.shiftl (u8 tc) 4)) (u8 (Z.shiftr fl 16)) = tc mod 16 * 16 + fl / 65536.
Proof.
  unfold is_u8, ipv6MaximumFlowLabel. intros Ht Hf.
  assert (u8 tc = tc) as -> by (unfold u8; apply Z.mod_small; lia).
  rewrite !Z.shiftr_div_pow2, Z.shiftl_mul_pow2 by lia. change (2 ^ 4) with 16. change (2 ^ 16) with 65536.
  split.
  - change 96 with (Z.shiftl 6 4) at 1. rewrite lor_shiftl_add; [done|lia|simpl; zlia].
  - replace (u8 (tc * 16)) with (Z.shiftl (tc mod 16) 4)
      by (rewrite Z.shiftl_mul_pow2 by lia; change (2 ^ 4) with 16; unfold u8; zlia).
    replace (u8 (fl / 65536)) with (fl / 65536) by (unfold u8; zlia).
    rewrite lor_shiftl_add; [done|lia|simpl; zlia].
Qed.

Lemma ipv6BaseHeader_len p protocol n :
  ipv6Ok p -> zlen (ipv6BaseHeader p protocol n) = 40.
Proof.
  intros ((s & d & Es & Ed & Ls & Ld & _) & _). unfold ipv6BaseHeader. rewrite Es, Ed.
  rewrite !zlen_app, !zlen_be_bytes. cbn [asSlice]. unfold zlen. by rewrite Ls, Ld.
Qed.

(** Parsing forty header bytes and a payload. *)
Lemma parse_explicit_ipv6 be b0 b1 b2 b3 b4 b5 b6 b7 s d payload :
  length s = 16%nat -> length d = 16%nat ->
  is4In6 (Addr6 s noZone) = false -> is4In6 (Addr6 d noZone) = false ->
  b0 / 16 = 6 -> be_val [b4; b5] = zlen payload ->
  (exists up, walkIPv6UpperLayer b6 payload = Some (Some up)) ->
  ParseIPPacket be ([b0; b1; b2; b3; b4; b5; b6; b7] ++ s ++ d ++ payload)
  = Ret (mkIPPacket (Addr6 s noZone) (Addr6 d noZone) b6 b7
           (Z.lor (Z.shiftl (Z.land b0 15) 4) (Z.shiftr b1 4))
           (Z.lor (Z.shiftl (Z.land b1 15) 16) (be_val [b2; b3])) 0 false false 0 [] payload).
Proof.
  intros Ls Ld Ms Md H0 Hn [up Hw]. set (X := [b0; b1; b2; b3; b4; b5; b6; b7]).
  pose proof (zlen_nonneg payload). set (wire := X ++ s ++ d ++ payload).
  assert (zlen wire = 40 + zlen payload) as Hl
    by (subst wire X; rewrite !zlen_app; unfold zlen at 1 2 3; rewrite Ls, Ld; simpl; lia).
  assert (slice wire 8 24 = Some s) as S1.
  { replace 24 with (zlen X + zlen s) by (unfold zlen; rewrite Ls; done).
    exact (slice_mid X s (d ++ payload)). }
  assert (slice wire 24 40 = Some d) as S2.
  { pose proof (slice_mid (X ++ s) d payload) as E. rewrite <- app_assoc in E.
    replace (zlen (X ++ s)) with 24 in E by (rewrite zlen_app; unfold zlen; rewrite Ls; done).
    replace (zlen d) with 16 in E by (unfold zlen; rewrite Ld; done). exact E. }
  assert (slice wire 40 (40 + zlen payload) = Some payload) as S3.
  { pose proof (slice_app_r (X ++ s ++ d) payload) as E. rewrite <- !app_assoc in E.
    replace (zlen (X ++ s ++ d)) with 40 in E
      by (rewrite !zlen_app; unfold zlen; rewrite Ls, Ld; done). exact E. }
  assert (forall a b, 0 <= a <= b -> b <= 8 -> slice wire a b
    = Some (take (Z.to_nat (b - a)) (drop (Z.to_nat a) wire))) as S4 by (intros; apply slice_eq; lia).
  assert (be16 wire 4 = Some (be_val [b4; b5])) as W4 by (unfold be16; rewrite S4 by lia; reflexivity).
  assert (be16 wire 2 = Some (be_val [b2; b3])) as W2 by (unfold be16; rewrite S4 by lia; reflexivity).
  unfold ParseIPPacket. change wire with (b0 :: tail wire) at 1. cbn iota beta.
  rewrite Z.shiftr_div_pow2 by lia. change (2 ^ 4) with 16. rewrite H0.
  change (6 =? 4) with false. change (6 =? 6) with true. cbn iota. unfold parseIPv6. rewrite Hl.
  replace (_ <? 40) with false by lia. rewrite W4, W2, Hn. cbn [need mbind outcome_bind].
  rewrite Z.ltb_irrefl, S1, S2, S3. cbn [need mbind outcome_bind].
  rewrite Ms, Md. cbn [orb]. change (idx wire 6) with (Some b6). change (idx wire 7) with (Some b7).
  change (idx wire 0) with (Some b0). change (idx wire 1) with (Some b1).
  cbn [need mbind outcome_bind]. by rewrite Hw.
Qed.

Lemma parse_marshal_ipv6 be p :
  ipv6Ok p -> zlen (ip_Payload p) <= 65535 ->
  (exists up, walkIPv6UpperLayer (ip_Protocol p) (ip_Payload p) = Some (Some up)) ->
  ParseIPPacket be (ipv6BaseHeader p (u8 (ip_Protocol p)) (zlen (ip_Payload p)) ++ ip_Payload p)
  = Ret p.
Proof.
  intros ((s & d & Es & Ed & Ls & Ld & Ms & Md) & Hp & Hh & Ht & Hf & Z1 & Z2 & Z3 & Z4 & Z5) Hl Hw.
  destruct (firstBytes _ _ Ht Hf) as [F1 F2]. pose proof (zlen_nonneg (ip_Payload p)).
  unfold ipv6BaseHeader. rewrite F1, F2, Es, Ed. rewrite <- !app_assoc. cbn [asSlice be_bytes app].
  assert (u16 (zlen (ip_Payload p)) = zlen (ip_Payload p)) as En
    by (unfold u16; apply Z.mod_small; lia).
  assert (forall x, is_u8 x -> u8 x = x) as H8 by (unfold is_u8, u8; intros; apply Z.mod_small; lia).
  rewrite En, (H8 _ Hp), (H8 _ Hh). unfold is_u8, ipv6MaximumFlowLabel in *.
  etrans; [apply (parse_explicit_ipv6 be _ _ _ _ _ _ _ _ s d (ip_Payload p)); try done|].
  - zlia.
  - apply be_val2. unfold is_u16. lia.
  - rewrite be_val2 by apply u16_range.
    mask_low (96 + ip_TrafficClass p / 16) 4.
    mask_low (ip_TrafficClass p mod 16 * 16 + ip_FlowLabel p / 65536) 4.
    rewrite Z.shiftr_div_pow2 by lia. change (2 ^ 4) with 16.
    rewrite !lor_shiftl_add by (try apply u16_range; try (simpl; zlia); lia).
    change (2 ^ 4) with 16. change (2 ^ 16) with 65536. unfold u16.
    replace ((96 + ip_TrafficClass p / 16) mod 16 * 16
      + (ip_TrafficClass p mod 16 * 16 + ip_FlowLabel p / 65536) / 16) with (ip_TrafficClass p) by zlia.
    replace ((ip_TrafficClass p mod 16 * 16 + ip_FlowLabel p / 65536) mod 16 * 65536
      + ip_FlowLabel p mod 65536) with (ip_FlowLabel p) by zlia.
    destruct p; simpl in *; congruence.
Qed.

(** ** Lemmas: parsed packets are well formed *)

(** Inversion of a reading step of a parser that returned. *)
Ltac inv_need H :=
  lazymatch type of H with
  | mbind _ (need ?m) = Ret _ =>
      let E := fresh "R" in destruct m eqn:E; cbn [need mbind outcome_bind] in H; [|discriminate H]
  end.

Lemma slice_length (l w : list Z) a b n :
  slice l a b = Some w -> b - a = Z.of_nat n -> length w = n.
Proof. intros H Hn. apply slice_inv in H as (_ & _ & _ & Hl & _). unfold zlen in Hl. lia. Qed.

Lemma parseIPv4_wf be packet p :
  bytes_ok packet -> parseIPv4 be packet = Ret p ->
  ipv4Ok p /\ optionsOk (ip_IPv4Options p) /\ bytes_ok (ip_Payload p) /\
  20 + zlen (ip_IPv4Options p) + zlen (ip_Payload p) <= 65535.
Proof.
  intros Hb H. unfold parseIPv4 in H. destruct (_ <? 20) eqn:E20; [done|].
  inv_need H. inv_need H. inv_need H. destruct (_ || _) eqn:Ec; [done|].
  inv_need H. destruct (negb (checksum _ _ =? 0)); [done|]. inv_need H. inv_need H.
  destruct b; cbn [negb] in H; [|discriminate H].
  do 7 inv_need H. injection H as <-. cbn.
  pose proof (be16_range _ _ _ Hb R0) as Htot. unfold is_u16 in Htot.
  assert (0 <= Z.land z 15 <= 15) as Hz by (mask_low z 4; zlia).
  assert (Z.land z1 16383 = 0 -> Z.land z1 8191 = 0 /\ Z.land z1 8192 = 0) as Hf0
    by (mask_low z1 14; mask_low z1 13; mask_bit z1 13; zlia).
  assert (validFragmentPayload (Z.land z1 8191 * 8) (negb (Z.land z1 8192 =? 0))
    (z0 - Z.land z 15 * 4) 65515 = true) as Hfrag.
  { destruct (Z.land z1 16383 =? 0) eqn:Ez.
    - destruct Hf0 as [-> ->]; [lia|]. assert (0 <= z0 - Z.land z 15 * 4 <= 65515) as Hn by lia.
      revert Hn. generalize (z0 - Z.land z 15 * 4). intros n Hn. unfold validFragmentPayload.
      change (0 * 8) with 0. change (Z.land 0 7) with 0. simpl. replace (n <? 0) with false by lia.
      simpl. lia.
    - cbn [negb andb] in Ec. destruct (validFragmentPayload _ _ _ _) eqn:Ev in Ec; [done|].
      rewrite orb_true_r in Ec. discriminate Ec. }
  apply slice_inv in R3 as (_ & _ & _ & Lo & Wo). apply slice_inv in R11 as (_ & _ & _ & Lp & Wp).
  assert (optionsOk l0) as Hopt.
  { assert (bytes_ok l0) by (rewrite Wo; auto with mips). unfold optionsOk.
    split; [done|]. split; [lia|]. split; [zlia|].
    apply (validOptions_framed l0); [done|lia|done]. }
  split; [|split; [done|split; [rewrite Wp; auto with mips|lia]]].
  split; [|cbn; rewrite Lp; split_and!; try done].
  - exists l1, l2. cbn. split; [done|]. split; [done|].
    split; [by apply (slice_length _ _ _ _ 4%nat R5)|]. split; [by apply (slice_length _ _ _ _ 4%nat R6)|].
    split; eauto with mips.
  - by apply (idx_u8 _ _ _ Hb R7).
  - by apply (idx_u8 _ _ _ Hb R8).
  - by apply (idx_u8 _ _ _ Hb R9).
  - by apply (be16_range _ _ _ Hb R10).
Qed.

Lemma parseIPv6_wf packet p :
  bytes_ok packet -> parseIPv6 packet = Ret p ->
  ipv6Ok p /\ bytes_ok (ip_Payload p) /\ zlen (ip_Payload p) <= 65535 /\
  (exists up, walkIPv6UpperLayer (ip_Protocol p) (ip_Payload p) = Some (Some up)).
Proof.
  intros Hb H. unfold parseIPv6 in H. destruct (_ <? 40) eqn:E40; [done|].
  inv_need H. destruct (zlen packet <? 40 + z) eqn:El; [done|]. inv_need H. inv_need H.
  destruct (is4In6 (Addr6 l noZone)) eqn:Ms; [done|].
  destruct (is4In6 (Addr6 l0 noZone)) eqn:Md; [done|]. cbn [orb] in H. do 7 inv_need H.
  destruct o as [up|]; [|discriminate H]. injection H as <-. cbn.
  pose proof (be16_range _ _ _ Hb R) as Hn. unfold is_u16 in Hn.
  pose proof (idx_u8 _ _ _ Hb R4) as H0. pose proof (idx_u8 _ _ _ Hb R5) as H1.
  pose proof (be16_range _ _ _ Hb R6) as H2. unfold is_u8, is_u16 in *.
  apply slice_inv in R7 as (_ & _ & _ & Lp & Wp).
  split; [|split; [rewrite Wp; auto with mips|split; [lia|eauto]]].
  assert (0 <= z2 mod 16 < 16 /\ 0 <= z3 / 16 < 16 /\ 0 <= z3 mod 16 < 16) as (B1 & B2 & B3) by zlia.
  split; [|cbn; split_and!; try done].
  - exists l, l0. cbn. split; [done|]. split; [done|].
    split; [by apply (slice_length _ _ _ _ 16%nat R0)|].
    split; [by apply (slice_length _ _ _ _ 16%nat R1)|]. done.
  - by apply (idx_u8 _ _ _ Hb R2).
  - by apply (idx_u8 _ _ _ Hb R3).
  - mask_low z2 4. rewrite Z.shiftr_div_pow2 by lia. change (2 ^ 4) with 16.
    rewrite lor_shiftl_add by (simpl; lia). change (2 ^ 4) with 16. unfold is_u8. lia.
  - mask_low z3 4. rewrite lor_shiftl_add by (simpl; lia). change (2 ^ 16) with 65536. lia.
  - mask_low z3 4. rewrite lor_shiftl_add by (simpl; lia). change (2 ^ 16) with 65536.
    unfold ipv6MaximumFlowLabel. lia.
Qed.

(** Any value of the Go types. *)
Definition packetOk (p : IPPacket) : Prop :=
  addrOk (ip_Source p) /\ addrOk (ip_Destination p) /\ is_u32 (ip_FlowLabel p) /\
  is_u16 (ip_Identification p) /\ bytes_ok (ip_IPv4Options p) /\ bytes_ok (ip_Payload p).

Lemma optionArea_ok content os size :
  bytes_ok content -> framed content os -> zlen content <= size <= 40 -> size mod 4 = 0 ->
  optionsOk (optionArea content size) /\ zlen (optionArea content size) = size.
Proof.
  intros Hb Hf Hl H4. unfold optionArea.
  assert (zlen (content ++ replicate (Z.to_nat (size - zlen content)) 0) = size) as Hz.
  { rewrite zlen_app. unfold zlen at 2. rewrite length_replicate. lia. }
  split; [|done]. unfold optionsOk. rewrite Hz. split; [|split; [lia|split; [done|]]].
  - apply bytes_ok_app. split; [done|]. apply Forall_replicate. unfold is_u8. lia.
  - by apply (framed_padding content os).
Qed.

Lemma unmap_4 a b : addrOk a -> unmap a = Addr4 b -> length b = 4%nat /\ bytes_ok b.
Proof. intros Ha E. pose proof (unmap_ok a Ha) as H. rewrite E in H. exact H. Qed.

Lemma unmap_6 a b z :
  addrOk a -> zoneOf a = noZone -> unmap a = Addr6 b z ->
  z = noZone /\ length b = 16%nat /\ is4In6 (Addr6 b noZone) = false.
Proof.
  intros Ha Hz E. pose proof (unmap_ok a Ha) as H. rewrite E in H.
  destruct a as [|c|c y]; try discriminate E. unfold unmap in E.
  destruct (is4In6 (Addr6 c y)) eqn:Em; [discriminate E|]. injection E as -> ->.
  cbn in Hz. subst z. split; [done|]. split; [apply H|done].
Qed.

(** What a strict layout guarantees. *)
Inductive laidOut (q : IPPacket) (headerSize total : Z) : Prop :=
| laidOut4 os :
    ipv4Ok q -> framed (ip_IPv4Options q) os -> bytes_ok (ip_IPv4Options q) ->
    zlen (ip_IPv4Options q) <= 40 -> headerSize = 20 + align4 (zlen (ip_IPv4Options q)) ->
    total = headerSize + zlen (ip_Payload q) -> total <= 65535 -> laidOut q headerSize total
| laidOut6 up :
    ipv6Ok q -> walkIPv6UpperLayer (ip_Protocol q) (ip_Payload q) = Some (Some up) ->
    headerSize = 40 -> total = 40 + zlen (ip_Payload q) -> zlen (ip_Payload q) <= 65535 ->
    laidOut q headerSize total.

Lemma ipv4Layout_strict q q' s d headerSize total :
  ip_Source q = Addr4 s -> ip_Destination q = Addr4 d ->
  length s = 4%nat /\ bytes_ok s -> length d = 4%nat /\ bytes_ok d ->
  is_u8 (ip_Protocol q) -> is_u8 (ip_HopLimit q) -> is_u8 (ip_TrafficClass q) ->
  is_u16 (ip_Identification q) -> bytes_ok (ip_IPv4Options q) ->
  ipv4Layout q true = Ret (q', headerSize, total) -> q' = q /\ laidOut q headerSize total.
Proof.
  intros Es Ed [Ls Bs] [Ld Bd] U1 U2 U3 U4 Ho H. unfold ipv4Layout in H.
  pose proof (zlen_nonneg (ip_IPv4Options q)). pose proof (zlen_nonneg (ip_Payload q)).
  destruct (_ || _) eqn:Eo in H; [done|].
  destruct (validIPv4OptionsForCodec _) as [[|]|] eqn:Ev in H; cbn in H; try done.
  destruct (_ <? _) eqn:El in H; [done|].
  destruct (validFragmentPayload _ _ _ _) eqn:Ef in H; cbn in H; [|done]. injection H as <- <- <-.
  split; [done|]. apply validOptions_framed in Ev as [os Hos]; [|done|lia].
  apply (laidOut4 _ _ _ os); try done; [|lia|lia].
  split; [exists s, d; done|]. split_and!; try done; lia.
Qed.

Lemma ipv6Layout_strict q q' s d headerSize total :
  ip_Source q = Addr6 s noZone -> ip_Destination q = Addr6 d noZone ->
  length s = 16%nat /\ is4In6 (Addr6 s noZone) = false ->
  length d = 16%nat /\ is4In6 (Addr6 d noZone) = false ->
  is_u8 (ip_Protocol q) -> is_u8 (ip_HopLimit q) -> is_u8 (ip_TrafficClass q) ->
  is_u32 (ip_FlowLabel q) ->
  ipv6Layout q true = Ret (q', headerSize, total) -> q' = q /\ laidOut q headerSize total.
Proof.
  intros Es Ed [Ls Ms] [Ld Md] U1 U2 U3 U4 H. unfold ipv6Layout in H.
  destruct (_ || _) eqn:Eo in H; [done|]. destruct (65535 <? _) eqn:El in H; [done|].
  replace (u8 (ip_Protocol q)) with (ip_Protocol q) in H
    by (unfold u8, is_u8 in *; rewrite Z.mod_small; lia).
  destruct (walkIPv6UpperLayer _ _) as [[up|]|] eqn:Ew in H; cbn in H; try done.
  injection H as <- <- <-. split; [done|]. unfold is_u32 in U4.
  repeat (apply orb_false_iff in Eo as [Eo ?]).
  apply (laidOut6 _ _ _ up); try done; [|lia].
  split; [exists s, d; done|]. split_and!; try done; try lia.
  - apply zlen_zero. lia.
Qed.

Lemma wireLayout_strict p q headerSize total :
  packetOk p -> wireLayout p true = Ret (q, headerSize, total) ->
  q = withAddresses p (unmap (ip_Source p)) (unmap (ip_Destination p)) /\ laidOut q headerSize total.
Proof.
  intros (Hs & Hd & Hfl & Hid & Ho & Hp) H. unfold wireLayout in H.
  destruct (bool_decide (zoneOf (ip_Source p) = noZone)) eqn:Zs; [|done].
  destruct (bool_decide (zoneOf (ip_Destination p) = noZone)) eqn:Zd; [|done].
  apply bool_decide_eq_true in Zs, Zd. cbn [negb orb] in H.
  set (q' := withAddresses _ _ _) in *. destruct (_ || _) eqn:Ec in H; [done|].
  assert (is_u8 (ip_Protocol q') /\ is_u8 (ip_HopLimit q') /\ is_u8 (ip_TrafficClass q'))
    as (U1 & U2 & U3) by (unfold is_u8; lia).
  assert (ip_Source q' = unmap (ip_Source p) /\ ip_Destination q' = unmap (ip_Destination p))
    as [Es Ed] by done. rewrite Es, Ed in *.
  destruct (unmap (ip_Source p)) as [|s|s z] eqn:Es', (unmap (ip_Destination p)) as [|d|d z'] eqn:Ed';
    try (cbn in Ec; discriminate Ec).
  - pose proof (unmap_4 _ _ Hs Es'). pose proof (unmap_4 _ _ Hd Ed').
    by apply (ipv4Layout_strict q' q s d) in H as [-> H].
  - destruct (unmap_6 _ _ _ Hs Zs Es') as (-> & L1). destruct (unmap_6 _ _ _ Hd Zd Ed') as (-> & L2).
    by apply (ipv6Layout_strict q' q s d) in H as [-> H].
Qed.

(** A strict layout is also a raw layout. *)
Lemma wireLayout_raw p r : wireLayout p true = Ret r -> wireLayout p false = Ret r.
Proof.
  unfold wireLayout. destruct (_ || negb (bool_decide (zoneOf (ip_Destination p) = _))); [done|].
  set (q := withAddresses _ _ _). destruct (_ || (255 <? ip_TrafficClass q)); [done|].
  destruct (is4 _).
  - unfold ipv4Layout. destruct (_ || _); [done|].
    destruct (validIPv4OptionsForCodec _) as [[|]|]; cbn; try done.
    destruct (_ <? _); [done|]. destruct (validFragmentPayload _ _ _ _) eqn:Ef; cbn; [|done].
    intros H. unfold validFragmentPayload in Ef. destruct (_ || (65535 - 20 <? 0)) eqn:E in Ef; [done|].
    destruct (_ || negb (Z.land _ 7 =? 0)) eqn:E2; [lia|done].
  - unfold ipv6Layout. destruct (_ || _); [done|]. destruct (_ <? _); [done|].
    destruct (walkIPv6UpperLayer _ _) as [[|]|]; cbn; done.
Qed.

(** The area a packet's options occupy on the wire. *)
Definition wireOptions (q : IPPacket) (content : list Z) : list Z :=
  optionArea content (align4 (zlen (ip_IPv4Options q))).

(** Serialising and parsing one laid out IPv4 packet with option content
    [content]. *)
Lemma roundtrip_content be q headerSize total content os :
  ipv4Ok q -> bytes_ok content -> framed content os ->
  zlen content <= zlen (ip_IPv4Options q) <= 40 ->
  headerSize = 20 + align4 (zlen (ip_IPv4Options q)) ->
  total = headerSize + zlen (ip_Payload q) -> total <= 65535 ->
  let options := wireOptions q content in
  let wire := ipv4Fields q headerSize total
      (checksum be (ipv4Fields q headerSize total 0 ++ options)) ++ options ++ ip_Payload q in
  zlen wire = total /\ ParseIPPacket be wire = Ret (withIPv4Options q options).
Proof.
  intros Hq Hb Hf Hl -> -> Ht options wire. pose proof (zlen_nonneg content).
  destruct (align4_spec (zlen (ip_IPv4Options q)) ltac:(lia)) as [A1 A2].
  assert (align4 (zlen (ip_IPv4Options q)) <= 40) as A3 by zlia.
  destruct (optionArea_ok content os (align4 (zlen (ip_IPv4Options q)))) as [Ho Hz]; [done..|lia|done|].
  fold (wireOptions q content) in Ho, Hz. fold options in Ho, Hz. split.
  - subst wire. rewrite !zlen_app, Hz.
    match goal with |- context [zlen (ipv4Fields q ?h ?t ?c)] =>
      destruct (ipv4Fields_ok q h t c Hq ltac:(lia)) as [_ ->] end. lia.
  - subst wire. rewrite <- Hz. apply parse_marshal_ipv4; [done|done|lia].
Qed.

(** Both encoders on a laid out IPv4 packet. *)
Lemma marshal_ipv4_roundtrip be q headerSize total os :
  ipv4Ok q -> framed (ip_IPv4Options q) os -> bytes_ok (ip_IPv4Options q) ->
  zlen (ip_IPv4Options q) <= 40 -> headerSize = 20 + align4 (zlen (ip_IPv4Options q)) ->
  total = headerSize + zlen (ip_Payload q) -> total <= 65535 ->
  (exists wire, marshalPublicIPPacket be q headerSize false = Some wire /\ zlen wire = total /\
     ParseIPPacket be wire = Ret (withIPv4Options q (wireOptions q (ip_IPv4Options q)))) /\
  (exists wire rest, marshalPublicIPPacket be q headerSize true = Some wire /\
     zlen wire = total /\ IPv4HeaderOptions q = Ret os /\ ip_IPv4Options q = concat (map encodeOption os) ++ rest /\
     ParseIPPacket be wire = Ret (withIPv4Options q (wireOptions q (concat (map encodeOption os))))).
Proof.
  intros Hq Hf Hb Ho Hh Ht Hmax. unfold marshalPublicIPPacket, marshalIPv4.
  assert (is4 (ip_Source q) = true) as -> by (by destruct Hq as ((s & d & -> & _) & _)).
  assert (headerSize - 20 = align4 (zlen (ip_IPv4Options q))) as Hsz by lia.
  destruct (loops_framed _ os Hf Ho) as [Hd Hc].
  assert (IPv4HeaderOptions q = Ret os) as Hos
    by (unfold IPv4HeaderOptions, HeaderOptions; destruct Hq as ((s & d & -> & -> & _) & _); cbn [is4 unmap negb orb];
        replace (40 <? _) with false by lia; by rewrite Hd).
  destruct (framed_encodable _ os Hf 0 ltac:(lia) ltac:(lia)) as (rest & Erest & Esz).
  set (content := concat (map encodeOption os)) in *.
  destruct (optionsSize_ok 0 false os _ ltac:(lia) Esz) as (_ & _ & Hcf & _).
  change (framed content os) in Hcf. pose proof (zlen_nonneg rest).
  assert (slice (ip_IPv4Options q) 0 (zlen content) = Some content) as Hs
    by (rewrite Erest; apply slice_app_l).
  change (ipv4OptionsContentLength (ip_IPv4Options q))
    with (tcpOptionsContentLength (ip_IPv4Options q)).
  rewrite Hc. cbn [mbind option_bind default from_option id]. rewrite Hs. cbn [mbind option_bind].
  rewrite Hsz, <- Ht. split.
  - eexists. split; [reflexivity|]. by apply (roundtrip_content be q headerSize total _ os).
  - assert (zlen content <= zlen (ip_IPv4Options q)) by (rewrite Erest, zlen_app; lia).
    assert (bytes_ok content) by (rewrite Erest in Hb; apply bytes_ok_app in Hb as [Hb _]; done).
    eexists _, rest. split; [reflexivity|].
    by destruct (roundtrip_content be q headerSize total content os).
Qed.

(** Well-formed packets pass strict validation unchanged. *)
Lemma layout_ipv4 p :
  ipv4Ok p -> optionsOk (ip_IPv4Options p) ->
  20 + zlen (ip_IPv4Options p) + zlen (ip_Payload p) <= 65535 ->
  exists total, wireLayout p true = Ret (p, 20 + zlen (ip_IPv4Options p), total).
Proof.
  intros ((s & d & Es & Ed & _) & U1 & U2 & U3 & Hfl & Hid & Hf) (Ob & Ol & O4 & Of) Hl.
  pose proof (zlen_nonneg (ip_IPv4Options p)). pose proof (zlen_nonneg (ip_Payload p)).
  unfold wireLayout. rewrite Es, Ed. cbn [zoneOf unmap]. rewrite bool_decide_true by done.
  assert (withAddresses p (Addr4 s) (Addr4 d) = p) as -> by (rewrite <- Es, <- Ed; by destruct p).
  rewrite Es, Ed. cbn [isValid is4 negb orb Bool.eqb]. unfold is_u8 in *.
  replace (_ || _) with false by lia. cbn iota. unfold ipv4Layout. rewrite Hfl.
  replace (_ || _) with false by lia. rewrite (proj2 (validOptions_framed _ Ob Ol) Of).
  destruct (align4_spec (zlen (ip_IPv4Options p)) ltac:(lia)) as [A1 A2].
  assert (align4 (zlen (ip_IPv4Options p)) = zlen (ip_IPv4Options p)) as -> by zlia.
  cbn [need mbind outcome_bind negb andb]. replace (_ <? _) with false by lia.
  change (65535 - 20) with 65515. rewrite Hf. cbn [negb]. by eexists.
Qed.

Lemma layout_ipv6 p up :
  ipv6Ok p -> walkIPv6UpperLayer (ip_Protocol p) (ip_Payload p) = Some (Some up) ->
  zlen (ip_Payload p) <= 65535 -> exists total, wireLayout p true = Ret (p, 40, total).
Proof.
  intros ((s & d & Es & Ed & _ & _ & Ms & Md) & U1 & U2 & U3 & Hfl & Z1 & Z2 & Z3 & Z4 & Z5) Hw Hl.
  unfold wireLayout. rewrite Es, Ed. cbn [zoneOf]. rewrite bool_decide_true by done.
  cbn [unmap]. rewrite Ms, Md.
  assert (withAddresses p (Addr6 s noZone) (Addr6 d noZone) = p) as ->
    by (rewrite <- Es, <- Ed; by destruct p).
  rewrite Es, Ed. cbn [isValid is4 negb orb Bool.eqb]. unfold is_u8 in *.
  replace (_ || _) with false by lia. cbn iota. unfold ipv6Layout. rewrite Z1, Z2, Z3, Z4, Z5.
  replace (ipv6MaximumFlowLabel <? _) with false by lia. change (zlen []) with 0.
  cbn [negb orb Z.eqb]. replace (65535 <? _) with false by lia.
  replace (u8 (ip_Protocol p)) with (ip_Protocol p) by (unfold u8; rewrite Z.mod_small; lia).
  rewrite Hw. cbn [need mbind outcome_bind]. by eexists.
Qed.

(** ** Properties *)

(** Parsing is safe on arbitrary bytes: it never panics, a packet it returns
    has fields in range, and serialising that packet and parsing again returns
    it unchanged. *)
Theorem ip_parse_safe (be : bool) (packet : list Z) :
  bytes_ok packet ->
  ParseIPPacket be packet <> Panic /\
  (forall p, ParseIPPacket be packet = Ret p ->
     bytes_ok (ip_Payload p) /\ (ipv4Ok p \/ ipv6Ok p) /\
     exists wire, MarshalRawBinary be p = Ret wire /\ ParseIPPacket be wire = Ret p).
Proof.
  intros Hb. unfold ParseIPPacket at 1 2. destruct packet as [|b0 rest]; [done|].
  pose proof (parseIPv4_total be (b0 :: rest) Hb). pose proof (parseIPv6_total (b0 :: rest) Hb).
  unfold MarshalRawBinary.
  destruct (_ =? 4); [split; [done|]|destruct (_ =? 6); [split; [done|]|done]]; intros p Hp.
  - destruct (parseIPv4_wf be _ p Hb Hp) as (W1 & W2 & W3 & W4). split; [done|]. split; [by left|].
    destruct (layout_ipv4 p W1 W2 W4) as [total Hl]. rewrite (wireLayout_raw _ _ Hl).
    cbn [mbind outcome_bind]. destruct W2 as (Ob & Ol & O4 & os & Of).
    pose proof (zlen_nonneg (ip_IPv4Options p)).
    destruct (align4_spec (zlen (ip_IPv4Options p)) ltac:(lia)) as [A1 A2].
    assert (align4 (zlen (ip_IPv4Options p)) = zlen (ip_IPv4Options p)) as Ha by zlia.
    destruct (marshal_ipv4_roundtrip be p (20 + zlen (ip_IPv4Options p))
      (20 + zlen (ip_IPv4Options p) + zlen (ip_Payload p)) os) as [(w & M1 & M2 & M3) _]; try done; [lia|].
    exists w. rewrite M1. split; [done|]. rewrite M3. unfold wireOptions, optionArea.
    rewrite Ha, Z.sub_diag, app_nil_r. by destruct p.
  - destruct (parseIPv6_wf _ p Hb Hp) as (W1 & W2 & W3 & [up W4]). split; [done|]. split; [by right|].
    destruct (layout_ipv6 p up W1 W4 W3) as [total Hl]. rewrite (wireLayout_raw _ _ Hl).
    cbn [mbind outcome_bind]. unfold marshalPublicIPPacket.
    assert (is4 (ip_Source p) = false) as -> by (by destruct W1 as ((s & d & -> & _) & _)).
    cbn [need mbind option_bind]. eexists. split; [reflexivity|]. apply parse_marshal_ipv6; eauto.
Qed.

Definition sampleIPv6 : list Z :=
  [96; 0; 0; 0; 0; 1; 59; 64] ++ replicate 16 1 ++ replicate 16 2 ++ [7].

Lemma ip_parse_safe_witness :
  (exists p, ParseIPPacket true sampleIPv6 = Ret p) /\ ParseIPPacket true sampleIPv6 <> Panic /\
  (forall p, ParseIPPacket true sampleIPv6 = Ret p ->
     bytes_ok (ip_Payload p) /\ (ipv4Ok p \/ ipv6Ok p) /\
     exists wire, MarshalRawBinary true p = Ret wire /\ ParseIPPacket true wire = Ret p).
Proof.
  split; [by eexists; vm_compute|].
  apply (ip_parse_safe true sampleIPv6). repeat constructor; unfold is_u8; lia.
Defined.
