(* ===== verification/IpRoundTrip.v ===== *)
(** * Round trip of the IP packet codec

    What sender normalisation does to IPv6 extension headers, as a relation
    between the bytes before and after, and the theorem that serialised packets
    parse back, for both encoders and both families. *)

From stdpp Require Import strings.
From S2P Require Import Prelude Addr Checksum HeaderOptions IpPacket.

(** ** Options of an extension header *)

(** PadN data is zeroed; everything else stays. *)
Inductive optionsCleaned : list Z -> list Z -> Prop :=
| oc_nil : optionsCleaned [] []
| oc_pad1 l l' :
    optionsCleaned l l' -> optionsCleaned (IPv6ExtensionOptionPad1 :: l) (IPv6ExtensionOptionPad1 :: l')
| oc_padN data l l' :
    optionsCleaned l l' ->
    optionsCleaned (IPv6ExtensionOptionPadN :: zlen data :: data ++ l)
                   (IPv6ExtensionOptionPadN :: zlen data :: replicate (length data) 0 ++ l')
| oc_other kind data l l' :
    kind <> IPv6ExtensionOptionPad1 -> kind <> IPv6ExtensionOptionPadN -> optionsCleaned l l' ->
    optionsCleaned (kind :: zlen data :: data ++ l) (kind :: zlen data :: data ++ l').

Lemma optionsCleaned_len l l' : optionsCleaned l l' -> zlen l' = zlen l.
Proof.
  induction 1; autorewrite with zlen in *; unfold zlen in *; rewrite ?length_replicate; lia.
Qed.

Lemma optionsCleaned_idem l l' : optionsCleaned l l' -> optionsCleaned l' l'.
Proof.
  induction 1 as [|l l' _ IH|data l l' _ IH|kind data l l' H1 H2 _ IH]; try by constructor.
  pose proof (oc_padN (replicate (length data) 0) l' l' IH) as H. unfold zlen in *. by rewrite length_replicate in H.
Qed.

Lemma optionsCleaned_bytes l l' : optionsCleaned l l' -> bytes_ok l -> bytes_ok l'.
Proof.
  induction 1 as [|l l' _ IH|data l l' _ IH|kind data l l' H1 H2 _ IH]; intros Hb; [done|..];
    repeat (apply Forall_cons_iff in Hb as [? Hb]).
  - constructor; [done|by apply IH].
  - apply bytes_ok_app in Hb as [Hd Hl]. do 2 (constructor; [done|]). apply bytes_ok_app. split; [|auto].
    apply Forall_replicate. unfold is_u8. lia.
  - apply bytes_ok_app in Hb as [Hd Hl]. do 2 (constructor; [done|]). apply bytes_ok_app. auto.
Qed.

(** One option at the loop's position. *)
Lemma inspect_tlv pre kind data l home jumbo o : zlen pre = o -> kind <> IPv6ExtensionOptionPad1 ->
  inspectBody (pre ++ kind :: zlen data :: data ++ l) (o, home, jumbo)
  = Some (inl (o + (zlen data + 2), home || (kind =? IPv6ExtensionOptionHomeAddress),
               jumbo || (kind =? IPv6ExtensionOptionJumboPayload))).
Proof.
  intros <- Hk. unfold inspectBody. pose proof (zlen_nonneg pre). pose proof (zlen_nonneg data). pose proof (zlen_nonneg l).
  autorewrite with zlen. replace (_ <? _) with true by lia. rewrite idx_at. cbn [mbind option_bind].
  replace (kind =? _) with false by lia. replace (_ <? 2) with false by lia. rewrite idx_at1. cbn [mbind option_bind].
  by replace (_ <? _) with false by lia.
Qed.

Lemma inspect_pad1 pre l home jumbo o : zlen pre = o ->
  inspectBody (pre ++ IPv6ExtensionOptionPad1 :: l) (o, home, jumbo) = Some (inl (o + 1, home, jumbo)).
Proof.
  intros <-. unfold inspectBody. pose proof (zlen_nonneg pre). pose proof (zlen_nonneg l). autorewrite with zlen.
  replace (_ <? _) with true by lia. by rewrite idx_at.
Qed.

Lemma inspect_end pre home jumbo o : zlen pre = o -> inspectBody (pre ++ []) (o, home, jumbo) = Some (inr (Some (home, jumbo))).
Proof. intros <-. rewrite app_nil_r. unfold inspectBody. by rewrite Z.ltb_irrefl. Qed.

Lemma tlv_split (pre l data : list Z) kind n :
  pre ++ kind :: n :: data ++ l = (pre ++ kind :: n :: data) ++ l.
Proof. by rewrite <- app_assoc. Qed.

Lemma cons_split (pre l : list Z) x : pre ++ x :: l = (pre ++ [x]) ++ l.
Proof. by rewrite <- app_assoc. Qed.

Lemma inspect_framed pre kind l home jumbo o : zlen pre = o -> kind <> IPv6ExtensionOptionPad1 -> bytes_ok l ->
  inspectBody (pre ++ kind :: l) (o, home, jumbo) = Some (inr None) \/
  exists data rest, l = zlen data :: data ++ rest.
Proof.
  intros <- Hk Hb. unfold inspectBody. pose proof (zlen_nonneg pre). pose proof (zlen_nonneg l). autorewrite with zlen.
  replace (zlen pre <? _) with true by lia. rewrite idx_at. cbn [mbind option_bind]. replace (kind =? _) with false by lia.
  destruct (_ <? 2) eqn:E2; [by left|]. destruct l as [|n l]; [autorewrite with zlen in E2; lia|].
  rewrite idx_at1. cbn [mbind option_bind]. apply Forall_cons_iff in Hb as [Hn Hb]. unfold is_u8 in Hn.
  destruct (_ <? n + 2) eqn:En; [by left|]. right. autorewrite with zlen in En.
  exists (take (Z.to_nat n) l), (drop (Z.to_nat n) l). rewrite take_drop. f_equal. unfold zlen in *. rewrite length_take. lia.
Qed.

(** What inspection accepts is a list of options. *)
Lemma inspect_cleaned fuel pre l home jumbo o r : zlen pre = o -> bytes_ok l ->
  loop fuel (inspectBody (pre ++ l)) (o, home, jumbo) = Some (Some r) -> exists l', optionsCleaned l l'.
Proof.
  revert pre l home jumbo o. induction fuel as [|fuel IH]; intros pre l home jumbo o Ho Hb H; [done|]. cbn [loop] in H.
  destruct l as [|kind l]; [exists []; constructor|].
  apply Forall_cons_iff in Hb as [Hk Hb]. destruct (decide (kind = IPv6ExtensionOptionPad1)) as [->|Hne].
  { rewrite inspect_pad1 in H by done. cbn [mbind option_bind] in H. rewrite (cons_split pre) in H.
    apply IH in H as [l' H]; [|len|done]. eexists. constructor. exact H. }
  destruct (inspect_framed pre kind l home jumbo o Ho Hne Hb) as [E|(data & rest & ->)]; [rewrite E in H; discriminate H|].
  rewrite inspect_tlv in H by done. cbn [mbind option_bind] in H. rewrite tlv_split in H.
  apply Forall_cons_iff in Hb as [_ Hb]. apply bytes_ok_app in Hb as [_ Hb]. apply IH in H as [l' H]; [|len|done].
  destruct (decide (kind = IPv6ExtensionOptionPadN)) as [->|]; eexists; [by apply oc_padN|by apply oc_other].
Qed.

Lemma zlen_zeros (data : list Z) : zlen (replicate (length data) 0) = zlen data.
Proof. unfold zlen. by rewrite length_replicate. Qed.

(** Inspection does not read what cleaning changes. *)
Lemma cleaned_inspect l l' : optionsCleaned l l' -> forall fuel pre pre' home jumbo o, zlen pre = o -> zlen pre' = o ->
  loop fuel (inspectBody (pre' ++ l')) (o, home, jumbo) = loop fuel (inspectBody (pre ++ l)) (o, home, jumbo).
Proof.
  induction 1 as [|l l' _ IH|data l l' _ IH|kind data l l' H1 H2 _ IH]; intros [|fuel] pre pre' home jumbo o Hp Hp'; try done; cbn [loop].
  - by rewrite (inspect_end pre'), (inspect_end pre).
  - rewrite (inspect_pad1 pre'), (inspect_pad1 pre) by done. cbn [mbind option_bind].
    rewrite (cons_split pre'), (cons_split pre). apply IH; len.
  - rewrite <- (zlen_zeros data) at 1. rewrite (inspect_tlv pre'), (inspect_tlv pre), zlen_zeros by done. cbn [mbind option_bind].
    rewrite (tlv_split pre'), (tlv_split pre). apply IH; autorewrite with zlen; rewrite ?zlen_zeros; lia.
  - rewrite (inspect_tlv pre'), (inspect_tlv pre) by done. cbn [mbind option_bind].
    rewrite (tlv_split pre'), (tlv_split pre). apply IH; len.
Qed.

(** ** Clearing *)

Lemma splice_mid (pre x y l : list Z) o : zlen pre = o -> zlen y = zlen x -> splice (pre ++ x ++ l) o y = Some (pre ++ y ++ l).
Proof.
  intros <- Hy. pose proof (zlen_nonneg pre). pose proof (zlen_nonneg l). unfold splice. autorewrite with zlen.
  replace (_ && _) with true by lia. f_equal. unfold zlen in *. rewrite Nat2Z.id, take_app_length. do 2 f_equal.
  rewrite drop_app_add, drop_app_length'; [done|lia].
Qed.

Lemma pad_step pre kind data l o : zlen pre = o -> kind <> IPv6ExtensionOptionPad1 ->
  padNBody (o, pre ++ kind :: zlen data :: data ++ l)
  = Some (inl (o + (2 + zlen data),
      pre ++ kind :: zlen data :: (if kind =? IPv6ExtensionOptionPadN then replicate (length data) 0 else data) ++ l)).
Proof.
  intros Hp Hk. unfold padNBody. pose proof (zlen_nonneg pre). pose proof (zlen_nonneg data). pose proof (zlen_nonneg l).
  set (tail := kind :: zlen data :: data ++ l).
  assert (zlen (pre ++ tail) = o + 2 + zlen data + zlen l) as Hl by (subst tail; len).
  replace (o <? zlen (pre ++ tail)) with true by lia. rewrite <- Hp. subst tail. rewrite idx_at, slice_tail.
  cbn [mbind option_bind]. unfold ipv6ExtensionOptionLength. replace (kind =? IPv6ExtensionOptionPad1) with false by lia.
  replace (2 + zlen data <=? zlen (kind :: zlen data :: data ++ l)) with true by (autorewrite with zlen; lia).
  cbn [negb]. destruct (kind =? IPv6ExtensionOptionPadN) eqn:E; [|done].
  replace (Z.to_nat (2 + zlen data - 2)) with (length data) by (unfold zlen; lia).
  rewrite (cons_split pre), (cons_split (pre ++ [kind])).
  rewrite (splice_mid ((pre ++ [kind]) ++ [zlen data]) data) by (rewrite ?zlen_zeros; len).
  cbn [mbind option_bind]. by rewrite <- !app_assoc.
Qed.

Lemma pad_step1 pre l o : zlen pre = o ->
  padNBody (o, pre ++ IPv6ExtensionOptionPad1 :: l) = Some (inl (o + 1, pre ++ IPv6ExtensionOptionPad1 :: l)).
Proof.
  intros <-. unfold padNBody. pose proof (zlen_nonneg pre). pose proof (zlen_nonneg l).
  replace (zlen pre <? _) with true by len. rewrite idx_at, slice_tail. done.
Qed.

Lemma pad_end pre o : zlen pre = o -> padNBody (o, pre ++ []) = Some (inr (pre, true)).
Proof. intros <-. rewrite app_nil_r. unfold padNBody. by rewrite Z.ltb_irrefl. Qed.

Lemma cleaned_clear_at l l' : optionsCleaned l l' -> forall fuel pre o, zlen pre = o -> (length l < fuel)%nat ->
  loop fuel padNBody (o, pre ++ l) = Some (pre ++ l', true).
Proof.
  induction 1 as [|l l' _ IH|data l l' _ IH|kind data l l' H1 H2 _ IH]; intros [|fuel] pre o Hp Hf; try (simpl in Hf; lia); cbn [loop].
  - by rewrite (pad_end pre), app_nil_r.
  - rewrite (pad_step1 pre) by done. cbn [mbind option_bind]. rewrite (cons_split pre), IH; [by rewrite <- app_assoc|len|simpl in Hf; lia].
  - rewrite (pad_step pre) by done. cbn [mbind option_bind]. replace (_ =? _) with true by lia.
    rewrite <- (zlen_zeros data) at 2 3. rewrite (tlv_split pre l), IH;
      [by rewrite (tlv_split pre l'), !zlen_zeros|rewrite <- Hp; autorewrite with zlen; rewrite ?zlen_zeros; lia|].
    simpl in Hf. rewrite length_app in Hf. lia.
  - rewrite (pad_step pre) by done. cbn [mbind option_bind]. replace (_ =? _) with false by lia.
    rewrite (tlv_split pre l), IH; [by rewrite (tlv_split pre l')|len|]. simpl in Hf. rewrite length_app in Hf. lia.
Qed.

Lemma cleaned_clear l l' : optionsCleaned l l' -> clearPadN l = Some (l', true).
Proof. intros H. exact (cleaned_clear_at l l' H (S (length l)) [] 0 eq_refl ltac:(lia)). Qed.

(** ** Extension headers *)

(** One header: options lose their PadN data, a Fragment header its reserved
    byte and bits, and the other types stay. *)
Inductive headerCleaned (next : Z) : list Z -> list Z -> Prop :=
| hd_options following n options options' :
    next = IPv6ExtensionHeaderHopByHop \/ next = IPv6ExtensionHeaderDestination ->
    optionsCleaned options options' ->
    headerCleaned next (following :: n :: options) (following :: n :: options')
| hd_fragment following reserved a b identification :
    next = IPv6ExtensionHeaderFragment -> zlen identification = 4 ->
    headerCleaned next (following :: reserved :: a :: b :: identification)
                       (following :: 0 :: be_bytes 2 (Z.ldiff (be_val [a; b]) 6) ++ identification)
| hd_plain header :
    next = IPv6ExtensionHeaderRouting \/ next = IPv6ExtensionHeaderAuthentication
      \/ next = IPv6ExtensionHeaderMobility ->
    headerCleaned next header header.

(** A complete header of its type. *)
Definition wholeHeader (next : Z) (header : list Z) : Prop :=
  isTraversableIPv6ExtensionHeader next = true /\ 8 <= zlen header /\
  ipv6ExtensionHeaderLength next header = (zlen header, true).

(** Everything above a true fragment's header is opaque. *)
Definition trueFragment (next : Z) (header : list Z) : bool :=
  (next =? IPv6ExtensionHeaderFragment)
  && negb (Z.land (default 0 (be16 header 2)) 65529 =? 0).

Inductive headersCleaned : Z -> list Z -> list Z -> Prop :=
| hc_upper next l : isTraversableIPv6ExtensionHeader next = false -> headersCleaned next l l
| hc_fragment next header header' rest :
    wholeHeader next header -> trueFragment next header = true -> headerCleaned next header header' ->
    headersCleaned next (header ++ rest) (header' ++ rest)
| hc_header next header header' rest rest' :
    wholeHeader next header -> trueFragment next header = false -> headerCleaned next header header' ->
    headersCleaned (hd 0 header) rest rest' ->
    headersCleaned next (header ++ rest) (header' ++ rest').

(** The mask of the reserved bits, on the bytes of the field. *)
Lemma be_val_u16 a b : is_u8 a -> is_u8 b -> is_u16 (be_val [a; b]).
Proof. unfold is_u8, is_u16, be_val. simpl. lia. Qed.

Lemma ldiff6 v : is_u16 v ->
  is_u16 (Z.ldiff v 6) /\ Z.land (Z.ldiff v 6) 65528 = Z.land v 65528 /\ Z.land (Z.ldiff v 6) 1 = Z.land v 1 /\
  Z.land (Z.ldiff v 6) 65529 = Z.land v 65529 /\ Z.ldiff (Z.ldiff v 6) 6 = Z.ldiff v 6.
Proof.
  intros Hv. unfold is_u16 in *.
  assert (forall m, Z.land m 6 = 0 -> Z.land (Z.ldiff v 6) m = Z.land v m) as Hm.
  { intros m Hm. apply Z.bits_inj'. intros n Hn. assert (Z.testbit (Z.land m 6) n = false) as E by (rewrite Hm; apply Z.bits_0).
    rewrite Z.land_spec in E. rewrite !Z.land_spec, Z.ldiff_spec.
    destruct (Z.testbit v n), (Z.testbit m n), (Z.testbit 6 n); done. }
  split; [|split; [by apply Hm|split; [by apply Hm|split; [by apply Hm|]]]].
  - assert (Z.ldiff (Z.ldiff v 6) v = 0) as E0
      by (apply Z.bits_inj'; intros n Hn; rewrite !Z.ldiff_spec, Z.bits_0; by destruct (Z.testbit v n), (Z.testbit 6 n)).
    pose proof (Z.ldiff_le (Z.ldiff v 6) v ltac:(lia) E0). lia.
  - apply Z.bits_inj'. intros n Hn. rewrite !Z.ldiff_spec. by destruct (Z.testbit v n), (Z.testbit 6 n).
Qed.

Lemma headerCleaned_len next header header' : headerCleaned next header header' -> zlen header' = zlen header.
Proof.
  destruct 1 as [f n l l' _ Hl|f r a b i _ Hi|]; [|by autorewrite with zlen; len|done].
  autorewrite with zlen. by rewrite (optionsCleaned_len _ _ Hl).
Qed.

Lemma headerCleaned_hd next header header' : headerCleaned next header header' -> hd 0 header' = hd 0 header.
Proof. by destruct 1. Qed.

Lemma headerCleaned_bytes next header header' : headerCleaned next header header' -> bytes_ok header -> bytes_ok header'.
Proof.
  destruct 1 as [f n l l' _ Hl|f r a b i _ Hi|]; intros Hb; [| |done].
  - apply Forall_cons_iff in Hb as [H1 Hb]. apply Forall_cons_iff in Hb as [H2 Hb].
    do 2 (constructor; [done|]). by apply (optionsCleaned_bytes l).
  - do 4 (apply Forall_cons_iff in Hb as [? Hb]). constructor; [done|]. constructor; [unfold is_u8; lia|].
    apply bytes_ok_app. split; [auto with mips|done].
Qed.

Lemma be16_frag (f r a b : Z) i : be16 (f :: r :: a :: b :: i) 2 = Some (be_val [a; b]).
Proof. exact (f_equal _ (slice_mid [f; r] [a; b] i)). Qed.

Lemma be16_frag' (f v : Z) i : is_u16 v -> be16 (f :: 0 :: be_bytes 2 v ++ i) 2 = Some v.
Proof. intros Hv. change (be_bytes 2 v) with [v / 256 mod 256; v mod 256]. cbn [app]. rewrite be16_frag. by rewrite be_val2. Qed.

Lemma headerCleaned_fragment next header header' : headerCleaned next header header' -> bytes_ok header ->
  trueFragment next header' = trueFragment next header.
Proof.
  destruct 1 as [f n l l' Hn Hl|f r a b i Hn Hi|]; intros Hb; [| |done]; unfold trueFragment.
  - by destruct Hn as [-> | ->].
  - do 4 (apply Forall_cons_iff in Hb as [? Hb]). subst next. pose proof (be_val_u16 a b ltac:(done) ltac:(done)) as Hv.
    destruct (ldiff6 _ Hv) as (L1 & _ & _ & L2 & _). rewrite be16_frag, be16_frag' by done. simpl. by rewrite L2.
Qed.

Lemma headerCleaned_whole next header header' : headerCleaned next header header' ->
  wholeHeader next header -> wholeHeader next header'.
Proof.
  intros H (H1 & H2 & H3). split; [done|]. rewrite (headerCleaned_len _ _ _ H). split; [done|].
  pose proof (headerCleaned_len _ _ _ H) as Hl. rewrite <- H3. unfold ipv6ExtensionHeaderLength. rewrite Hl.
  destruct (_ =? _) eqn:Ef; [done|].
  destruct H as [| f r a b i Hn Hi|]; [done| |done]. subst next. discriminate Ef.
Qed.

Lemma headerCleaned_idem next header header' : headerCleaned next header header' -> bytes_ok header ->
  headerCleaned next header' header'.
Proof.
  destruct 1 as [f n l l' Hn Hl|f r a b i Hn Hi|]; intros Hb; [| |by constructor].
  - constructor; [done|]. by apply (optionsCleaned_idem l).
  - do 4 (apply Forall_cons_iff in Hb as [? Hb]). pose proof (be_val_u16 a b ltac:(done) ltac:(done)) as Hv.
    destruct (ldiff6 _ Hv) as (L1 & _ & _ & _ & L3).
    pose proof (hd_fragment next f 0 (Z.ldiff (be_val [a; b]) 6 / 256 mod 256) (Z.ldiff (be_val [a; b]) 6 mod 256) i Hn Hi) as E.
    rewrite be_val2, L3 in E by done. exact E.
Qed.

Lemma headersCleaned_len next l l' : headersCleaned next l l' -> zlen l' = zlen l.
Proof.
  induction 1 as [|next h h' r Hw Ht Hc|next h h' r r' Hw Ht Hc _ IH]; [done| |];
    rewrite !zlen_app, (headerCleaned_len _ _ _ Hc); lia.
Qed.

Lemma headersCleaned_bytes next l l' : headersCleaned next l l' -> bytes_ok l -> bytes_ok l'.
Proof.
  induction 1 as [|next h h' r Hw Ht Hc|next h h' r r' Hw Ht Hc _ IH]; intros Hb; [done| |];
    apply bytes_ok_app in Hb as [Hh Hr]; apply bytes_ok_app.
  - split; [exact (headerCleaned_bytes next h h' Hc Hh)|done].
  - split; [exact (headerCleaned_bytes next h h' Hc Hh)|auto].
Qed.

Lemma headersCleaned_idem next l l' : headersCleaned next l l' -> bytes_ok l -> headersCleaned next l' l'.
Proof.
  induction 1 as [|next h h' r Hw Ht Hc|next h h' r r' Hw Ht Hc _ IH]; intros Hb; [by constructor| |];
    apply bytes_ok_app in Hb as [Hh Hr].
  - apply hc_fragment; [by apply (headerCleaned_whole _ h)|by rewrite (headerCleaned_fragment _ h)|by apply (headerCleaned_idem _ h)].
  - apply hc_header; [by apply (headerCleaned_whole _ h)|by rewrite (headerCleaned_fragment _ h)|by apply (headerCleaned_idem _ h)|].
    rewrite (headerCleaned_hd _ _ _ Hc). auto.
Qed.

(** ** One step of the walk and of the normaliser *)

Lemma whole_app next header rest : wholeHeader next header ->
  ipv6ExtensionHeaderLength next (header ++ rest) = (zlen header, true).
Proof.
  intros (_ & H8 & H). pose proof (zlen_nonneg rest). destruct header as [|f [|n header]]; [by unfold zlen in H8|by unfold zlen in H8|].
  revert H. unfold ipv6ExtensionHeaderLength. rewrite zlen_app. destruct (_ =? _).
  - intros H. pose proof (f_equal fst H) as E. cbn [fst] in E. rewrite <- E. f_equal. lia.
  - intros H. pose proof (f_equal fst H) as E. pose proof (f_equal snd H) as E2. cbn [fst snd app] in E, E2 |- *.
    rewrite E in E2 |- *. f_equal. lia.
Qed.

Lemma normalize_step next pre header header' rest o : zlen pre = o -> bytes_ok header ->
  wholeHeader next header -> headerCleaned next header header' ->
  normalizeBody (next, o, pre ++ header ++ rest)
  = Some (if trueFragment next header then inr (pre ++ header' ++ rest)
          else inl (hd 0 header, o + zlen header, pre ++ header' ++ rest)).
Proof.
  intros Ho Hb Hw Hc. pose proof (whole_app next header rest Hw) as Hl. destruct Hw as (Ht & H8 & _).
  unfold normalizeBody. rewrite Ht. rewrite <- Ho, slice_tail. cbn [negb mbind option_bind]. rewrite Hl. cbn [negb].
  rewrite slice_mid. cbn [mbind option_bind]. unfold trueFragment.
  destruct Hc as [f n l l' Hn Hlc|f r a b i Hn Hi|h Hn].
  - change (idx (f :: n :: l) 0) with (Some f). cbn [mbind option_bind].
    replace (_ || _) with true by (destruct Hn as [-> | ->]; done).
    replace (slice (f :: n :: l) 2 _) with (Some l)
      by (symmetry; exact (slice_tail [f; n] l)).
    cbn [mbind option_bind]. rewrite (cleaned_clear _ _ Hlc). cbn [mbind option_bind].
    replace (pre ++ (f :: n :: l) ++ rest) with ((pre ++ [f; n]) ++ l ++ rest) by by rewrite <- app_assoc.
    rewrite (splice_mid (pre ++ [f; n]) l l') by (rewrite ?(optionsCleaned_len _ _ Hlc); len). cbn [mbind option_bind negb].
    rewrite <- app_assoc. by destruct Hn as [-> | ->].
  - subst next. change (idx (f :: r :: a :: b :: i) 0) with (Some f). cbn [mbind option_bind].
    rewrite be16_frag. cbn [default from_option id]. change (_ || _) with false. cbn iota.
    change (IPv6ExtensionHeaderFragment =? _) with true. cbn [mbind option_bind andb].
    replace (pre ++ (f :: r :: a :: b :: i) ++ rest) with ((pre ++ [f]) ++ [r; a; b] ++ i ++ rest) by by rewrite <- app_assoc.
    rewrite (splice_mid (pre ++ [f]) [r; a; b]) by len. cbn [mbind option_bind].
    rewrite <- !app_assoc. by destruct (negb _).
  - destruct h as [|f h]; [by unfold zlen in H8|]. change (idx (f :: h) 0) with (Some f). cbn [mbind option_bind].
    by destruct Hn as [-> |[-> | ->] ].
Qed.

Lemma cleaned_normalize_at next l l' : headersCleaned next l l' -> forall fuel pre o, zlen pre = o -> bytes_ok l ->
  (length l < fuel)%nat -> loop fuel normalizeBody (next, o, pre ++ l) = Some (pre ++ l').
Proof.
  induction 1 as [next l Hu|next h h' r Hw Ht Hc|next h h' r r' Hw Ht Hc _ IH]; intros [|fuel] pre o Ho Hb Hf;
    try (simpl in Hf; lia); cbn [loop].
  - unfold normalizeBody. by rewrite Hu.
  - apply bytes_ok_app in Hb as [Hh Hr]. by rewrite (normalize_step _ _ _ h'), Ht by done.
  - apply bytes_ok_app in Hb as [Hh Hr]. rewrite (normalize_step _ _ _ h'), Ht by done. cbn [mbind option_bind].
    rewrite (app_assoc pre h'), IH; [by rewrite app_assoc|rewrite <- Ho, zlen_app, (headerCleaned_len _ _ _ Hc); lia|done|].
    destruct Hw as (_ & H8 & _). unfold zlen in H8. rewrite length_app in Hf. lia.
Qed.

Lemma cleaned_normalize next l l' : headersCleaned next l l' -> bytes_ok l -> normalizeIPv6ExtensionFields next l = Some l'.
Proof. intros H Hb. exact (cleaned_normalize_at next l l' H (S (length l)) [] 0 eq_refl Hb ltac:(lia)). Qed.

(** The walk at a complete header. *)
Lemma walk_step s pre header rest : zlen pre = wk_offset s -> wholeHeader (wk_next s) header ->
  walkBody (pre ++ header ++ rest) s
  = (if (wk_next s =? IPv6ExtensionHeaderHopByHop) && (negb (wk_offset s =? 0) || wk_seenHop s) then Some (inr None)
     else step ← walkHeader s header rest;
       match step with
       | None => Some (inr None)
       | Some (inr upper) => Some (inr (Some upper))
       | Some (inl (unsafe, seenFragment)) =>
           Some (inl (mkWalk (hd 0 header) (wk_offset s + zlen header)
                        (wk_seenHop s || (wk_next s =? IPv6ExtensionHeaderHopByHop)) seenFragment unsafe))
       end).
Proof.
  intros Ho Hw. pose proof (whole_app _ _ rest Hw) as Hl. destruct Hw as (Ht & H8 & _). unfold walkBody.
  destruct (_ =? ProtocolNoNextHeader) eqn:E; [unfold ProtocolNoNextHeader in E; apply Z.eqb_eq in E; rewrite E in Ht; discriminate Ht|].
  rewrite <- Ho, slice_tail. cbn [mbind option_bind]. rewrite Ht. cbn [negb].
  destruct (_ && _); [done|]. rewrite Hl. cbn [negb]. rewrite slice_mid. cbn [mbind option_bind].
  replace (slice (pre ++ header ++ rest) (zlen pre + zlen header) _) with (Some rest)
    by (rewrite (app_assoc pre header rest), <- zlen_app; symmetry; apply slice_tail).
  cbn [mbind option_bind]. destruct (walkHeader _ _ _) as [[[ [u sf]|up]|]|]; try done. cbn [mbind option_bind].
  destruct header as [|f header]; [by unfold zlen in H8|]. done.
Qed.

Lemma mask_split v : (Z.land v 65529 =? 0) = (Z.land v 65528 =? 0) && (Z.land v 1 =? 0).
Proof.
  change 65529 with (Z.lor 65528 1). rewrite Z.land_lor_distr_r. apply eq_true_iff_eq.
  rewrite andb_true_iff, !Z.eqb_eq. apply Z.lor_eq_0_iff.
Qed.

Lemma walkHeader_frag s header rest : wk_next s = IPv6ExtensionHeaderFragment ->
  walkHeader s header rest
  = if wk_seenFragment s then Some None
    else field ← be16 header 2;
      if negb (validFragmentPayload (Z.land field 65528) (negb (Z.land field 1 =? 0)) (zlen rest) 65535) then Some None
      else if negb (Z.land field 65529 =? 0)
      then next ← idx header 0; Some (Some (inr (mkUpper next rest (wk_unsafe s) true)))
      else Some (Some (inl (wk_unsafe s, true))).
Proof.
  intros Hn. unfold walkHeader. rewrite Hn.
  change ((IPv6ExtensionHeaderFragment =? IPv6ExtensionHeaderHopByHop)
          || (IPv6ExtensionHeaderFragment =? IPv6ExtensionHeaderDestination)) with false. cbn iota.
  change (IPv6ExtensionHeaderFragment =? IPv6ExtensionHeaderRouting) with false. cbn iota. rewrite Z.eqb_refl.
  destruct (wk_seenFragment s); [done|]. destruct (be16 header 2) as [v|]; [|done]. cbn [mbind option_bind].
  by rewrite mask_split, negb_andb.
Qed.

(** Cleaning does not change what the walk reads of a header. *)
Lemma walkHeader_cleaned s header header' rest : headerCleaned (wk_next s) header header' -> bytes_ok header ->
  walkHeader s header' rest = walkHeader s header rest.
Proof.
  intros Hc Hb. destruct Hc as [f n l l' Hn Hl|f r a b i Hn Hi|h Hn]; [| |done].
  - unfold walkHeader. replace (_ || _) with true by (destruct Hn as [-> | ->]; done). f_equal.
    unfold inspectIPv6OptionsForCodec. autorewrite with zlen. rewrite (optionsCleaned_len _ _ Hl).
    destruct (_ || _); [done|].
    assert (forall k, zlen k = zlen l -> slice (f :: n :: k) 2 (1 + (1 + zlen l)) = Some k) as Hs
      by (intros k Hk; rewrite <- Hk; pose proof (slice_tail [f; n] k) as E; rewrite zlen_app in E;
          change (zlen [f; n]) with 2 in E; replace (1 + (1 + zlen k)) with (2 + zlen k) by lia; exact E).
    rewrite !Hs by (done || by apply optionsCleaned_len). cbn [mbind option_bind]. unfold inspectIPv6OptionBytesForCodec.
    pose proof (optionsCleaned_len _ _ Hl) as E. unfold zlen in E. replace (length l') with (length l) by lia.
    exact (cleaned_inspect _ _ Hl (S (length l)) [] [] false false 0 eq_refl eq_refl).
  - do 4 (apply Forall_cons_iff in Hb as [? Hb]). pose proof (be_val_u16 a b ltac:(done) ltac:(done)) as Hv.
    destruct (ldiff6 _ Hv) as (L1 & L2 & L3 & L4 & _).
    rewrite !walkHeader_frag by done.
    rewrite be16_frag, be16_frag' by done. cbn [mbind option_bind]. by rewrite L2, L3, L4.
Qed.

(** A true fragment ends the walk; another header passes the bytes above it on
    unread. *)
Lemma walkHeader_last s header rest r : trueFragment (wk_next s) header = true ->
  walkHeader s header rest <> Some (Some (inl r)).
Proof.
  intros Ht. unfold trueFragment in Ht. apply andb_true_iff in Ht as [Hf Ht]. apply Z.eqb_eq in Hf.
  rewrite walkHeader_frag by done. destruct (wk_seenFragment s); [done|].
  destruct (be16 header 2) as [v|]; [|done]. cbn [mbind option_bind default from_option id] in *.
  destruct (negb (validFragmentPayload _ _ _ _)); [done|]. rewrite Ht. by destruct (idx header 0).
Qed.

Lemma walkHeader_more s header rest rest' : trueFragment (wk_next s) header = false -> zlen rest' = zlen rest ->
  walkHeader s header rest' = walkHeader s header rest /\ forall up, walkHeader s header rest <> Some (Some (inr up)).
Proof.
  intros Ht Hl. unfold trueFragment in Ht. apply andb_false_iff in Ht.
  destruct (wk_next s =? IPv6ExtensionHeaderFragment) eqn:Hf.
  - apply Z.eqb_eq in Hf. destruct Ht as [?|Ht]; [done|]. rewrite !walkHeader_frag by done.
    destruct (wk_seenFragment s); [done|]. destruct (be16 header 2) as [v|]; [|done].
    cbn [mbind option_bind default from_option id] in *. rewrite Hl, Ht. by destruct (negb (validFragmentPayload _ _ _ _)).
  - unfold walkHeader. rewrite Hf. split; [done|]. intros up.
    destruct (_ || _); [|destruct (wk_next s =? IPv6ExtensionHeaderRouting); [by destruct (idx header 3)|intros H; discriminate H] ].
    destruct (inspectIPv6OptionsForCodec header) as [[ [h j]|]|]; [destruct j| |]; intros H; discriminate H.
Qed.

Lemma walk_cleaned next l l' : headersCleaned next l l' -> forall fuel pre pre' o seenHop seenFragment unsafe,
  zlen pre = o -> zlen pre' = o -> bytes_ok l ->
  loop fuel (walkBody (pre' ++ l')) (mkWalk next o seenHop seenFragment unsafe)
  = loop fuel (walkBody (pre ++ l)) (mkWalk next o seenHop seenFragment unsafe).
Proof.
  induction 1 as [next l Hu|next h h' r Hw Ht Hc|next h h' r r' Hw Ht Hc Hcr IH]; intros [|fuel] pre pre' o sh sf u Hp Hp' Hb;
    try done; cbn [loop].
  - unfold walkBody. cbn [wk_next wk_offset wk_unsafe]. destruct (next =? _); [done|].
    assert (slice (pre' ++ l) o (zlen (pre' ++ l)) = Some l) as -> by (rewrite <- Hp'; apply slice_tail).
    assert (slice (pre ++ l) o (zlen (pre ++ l)) = Some l) as -> by (rewrite <- Hp; apply slice_tail).
    cbn [mbind option_bind]. by rewrite Hu.
  - apply bytes_ok_app in Hb as [Hh Hr]. pose proof (headerCleaned_whole _ _ _ Hc Hw) as Hw'.
    set (s := mkWalk next o sh sf u). rewrite (walk_step s pre'), (walk_step s pre) by done.
    rewrite (walkHeader_cleaned s h h' r Hc Hh). destruct (_ && _); [done|].
    destruct (walkHeader s h r) as [[[r0|up]|]|] eqn:E; try done. by apply walkHeader_last in E.
  - apply bytes_ok_app in Hb as [Hh Hr]. pose proof (headerCleaned_whole _ _ _ Hc Hw) as Hw'.
    set (s := mkWalk next o sh sf u). rewrite (walk_step s pre'), (walk_step s pre) by done.
    rewrite (walkHeader_cleaned s h h' r' Hc Hh).
    destruct (walkHeader_more s h r r' Ht (headersCleaned_len _ _ _ Hcr)) as [-> Hm]. destruct (_ && _); [done|].
    destruct (walkHeader s h r) as [[[ [u' sf']|up]|]|] eqn:E; try done. cbn [mbind option_bind].
    rewrite (headerCleaned_hd _ _ _ Hc), (headerCleaned_len _ _ _ Hc), !app_assoc.
    apply IH; [cbn; rewrite zlen_app; lia|cbn; rewrite zlen_app, (headerCleaned_len _ _ _ Hc); lia|done].
Qed.

(** ** What the walk accepts *)

(** A complete header at the walk's position is one the cleaner knows. *)
Lemma walkHeader_known s header rest r : wholeHeader (wk_next s) header -> bytes_ok header ->
  walkHeader s header rest = Some (Some r) -> exists header', headerCleaned (wk_next s) header header'.
Proof.
  intros (Ht & H8 & Hl) Hb H. unfold isTraversableIPv6ExtensionHeader in Ht.
  destruct (decide (wk_next s = IPv6ExtensionHeaderFragment)) as [Hf|Hf].
  { rewrite Hf in Hl. injection Hl as Hz.
    destruct header as [|f [|x [|a [|b i]]]]; try (autorewrite with zlen in H8; lia). eexists. apply hd_fragment; [done|].
    autorewrite with zlen in Hz. lia. }
  destruct (decide (wk_next s = IPv6ExtensionHeaderHopByHop \/ wk_next s = IPv6ExtensionHeaderDestination)) as [Ho|Ho].
  - destruct header as [|f [|n l]]; try (autorewrite with zlen in H8; lia).
    unfold walkHeader in H. replace (_ || _) with true in H by (destruct Ho as [-> | ->]; done).
    unfold inspectIPv6OptionsForCodec in H. destruct (_ || _) in H; [done|].
    pose proof (slice_tail [f; n] l) as Hs. change (zlen [f; n]) with 2 in Hs. cbn [app] in Hs. rewrite Hs in H.
    cbn [mbind option_bind] in H. destruct (inspectIPv6OptionBytesForCodec l) as [[v|]|] eqn:E; try done.
    do 2 (apply Forall_cons_iff in Hb as [? Hb]).
    destruct (inspect_cleaned (S (length l)) [] l false false 0 v eq_refl Hb E) as [l' Hc].
    eexists. apply hd_options; [done|exact Hc].
  - eexists. apply hd_plain. lia.
Qed.

Lemma walk_known fuel pre l next o seenHop seenFragment unsafe up : zlen pre = o -> bytes_ok l ->
  loop fuel (walkBody (pre ++ l)) (mkWalk next o seenHop seenFragment unsafe) = Some (Some up) ->
  exists l', headersCleaned next l l'.
Proof.
  revert pre l next o seenHop seenFragment unsafe.
  induction fuel as [|fuel IH]; intros pre l next o sh sf u Ho Hb H; [done|]. cbn [loop] in H.
  destruct (isTraversableIPv6ExtensionHeader next) eqn:Ht; [|exists l; by constructor].
  destruct (ipv6ExtensionHeaderLength next l) as [n valid] eqn:El. pose proof (extensionLength_range next l Hb) as Hn. rewrite El in Hn.
  destruct valid; cycle 1.
  { exfalso. unfold walkBody in H. cbn [wk_next wk_offset wk_seenHop] in H.
    destruct (next =? ProtocolNoNextHeader) eqn:E; [apply Z.eqb_eq in E; subst next; discriminate Ht|].
    rewrite <- Ho, slice_tail in H. cbn [mbind option_bind] in H. rewrite Ht in H. cbn [negb] in H.
    destruct (_ && _) in H; [done|]. rewrite El in H. done. }
  specialize (Hn eq_refl). set (h := take (Z.to_nat n) l). set (r := drop (Z.to_nat n) l).
  assert (l = h ++ r) as Hl by (symmetry; apply take_drop).
  assert (zlen h = n) as Hz by (subst h; unfold zlen in *; rewrite length_take; lia). clearbody h r. subst l n.
  assert (wholeHeader next h) as Hw.
  { split; [done|]. split; [lia|]. pose proof (zlen_nonneg r). revert El. unfold ipv6ExtensionHeaderLength.
    destruct h as [|f [|k h]]; try (autorewrite with zlen in Hn; lia). cbn [app]. destruct (_ =? _).
    - intros H1. pose proof (f_equal fst H1) as E1. cbn [fst] in E1. rewrite E1. f_equal. lia.
    - intros H1. pose proof (f_equal fst H1) as E1. pose proof (f_equal snd H1) as E2. cbn [fst snd] in E1, E2.
      rewrite E1 in E2 |- *. f_equal. lia. }
  set (s := mkWalk next o sh sf u) in H. rewrite (walk_step s) in H by done. destruct (_ && _) in H; [done|].
  apply bytes_ok_app in Hb as [Hh Hr].
  destruct (walkHeader s h r) as [[v|]|] eqn:E; try done. cbn [mbind option_bind] in H.
  destruct (walkHeader_known s h r v Hw Hh E) as [h' Hc].
  destruct (trueFragment next h) eqn:Hf; [eexists; by apply hc_fragment|].
  destruct v as [ [u' sf']|up']; cbn [mbind option_bind] in H.
  - rewrite app_assoc in H. apply IH in H as [r' H]; [|cbn; rewrite zlen_app; lia|done]. eexists. by apply hc_header.
  - destruct (walkHeader_more s h r r Hf eq_refl) as [_ Hm]. by destruct (Hm up').
Qed.

(** ** Normalisation of a packet the walk accepts *)

Lemma normalize_accepted next l up : bytes_ok l -> walkIPv6UpperLayer next l = Some (Some up) ->
  exists l', headersCleaned next l l' /\ normalizeIPv6ExtensionFields next l = Some l' /\ bytes_ok l' /\ zlen l' = zlen l /\
    headersCleaned next l' l' /\ walkIPv6UpperLayer next l' = walkIPv6UpperLayer next l.
Proof.
  intros Hb H. destruct (walk_known (S (length l)) [] l next 0 false false false up eq_refl Hb H) as [l' Hc].
  pose proof (headersCleaned_len _ _ _ Hc) as Hl. exists l'. split; [done|].
  split; [by apply cleaned_normalize|]. split; [by apply (headersCleaned_bytes next l)|]. split; [done|].
  split; [by apply (headersCleaned_idem next l)|]. unfold walkIPv6UpperLayer.
  replace (length l') with (length l) by (unfold zlen in Hl; lia).
  exact (walk_cleaned next l l' Hc (S (length l)) [] [] 0 false false false eq_refl eq_refl Hb).
Qed.

Definition withPayload (p : IPPacket) (payload : list Z) : IPPacket :=
  mkIPPacket (ip_Source p) (ip_Destination p) (ip_Protocol p) (ip_HopLimit p) (ip_TrafficClass p)
    (ip_FlowLabel p) (ip_Identification p) (ip_DontFragment p) (ip_MoreFragments p)
    (ip_FragmentOffset p) (ip_IPv4Options p) payload.

Lemma upperLayer_walk p payload : unmap (ip_Source p) = ip_Source p -> is4 (ip_Source p) = false -> is_u8 (ip_Protocol p) ->
  walkIPv6UpperLayer (ip_Protocol p) payload = walkIPv6UpperLayer (ip_Protocol p) (ip_Payload p) ->
  upperLayer (withPayload p payload) = upperLayer p.
Proof.
  intros Hu H4 H8 H. unfold upperLayer, withPayload. cbn -[walkIPv6UpperLayer u8 unmap zlen]. rewrite Hu, H4. cbn iota.
  replace (u8 (ip_Protocol p)) with (ip_Protocol p) by (unfold u8, is_u8 in *; rewrite Z.mod_small; lia).
  by rewrite H.
Qed.

(** The strict encoder on a laid out IPv6 packet. *)
Lemma marshal_ipv6_roundtrip be q up : ipv6Ok q -> bytes_ok (ip_Payload q) ->
  walkIPv6UpperLayer (ip_Protocol q) (ip_Payload q) = Some (Some up) -> zlen (ip_Payload q) <= 65535 ->
  exists wire payload, marshalPublicIPPacket be q 40 true = Some wire /\ zlen wire = 40 + zlen (ip_Payload q) /\
    headersCleaned (ip_Protocol q) (ip_Payload q) payload /\ headersCleaned (ip_Protocol q) payload payload /\
    ParseIPPacket be wire = Ret (withPayload q payload) /\ upperLayer (withPayload q payload) = upperLayer q.
Proof.
  intros Hq Hb Hw Hl. destruct (normalize_accepted _ _ _ Hb Hw) as (l' & Hc & Hn & Hb' & Hl' & Hi & Hw').
  pose proof Hq as ((s & d & Es & Ed & Ls & Ld & Ms & Md) & H8 & Hrest).
  unfold marshalPublicIPPacket. assert (is4 (ip_Source q) = false) as -> by by rewrite Es.
  replace (u8 (ip_Protocol q)) with (ip_Protocol q) by (unfold u8, is_u8 in *; rewrite Z.mod_small; lia).
  rewrite Hn. cbn [mbind option_bind]. eexists _, l'. split; [reflexivity|].
  split; [by rewrite zlen_app, ipv6BaseHeader_len, Hl'|]. split; [done|]. split; [done|]. split.
  - assert (ipv6Ok (withPayload q l')) as Hq' by exact Hq.
    pose proof (parse_marshal_ipv6 be (withPayload q l') Hq') as E. cbn [ip_Payload withPayload ip_Protocol] in E.
    replace (u8 (ip_Protocol q)) with (ip_Protocol q) in E by (unfold u8, is_u8 in *; rewrite Z.mod_small; lia).
    apply E; [lia|]. exists up. by rewrite Hw'.
  - apply upperLayer_walk; [|by rewrite Es|done|done]. rewrite Es. cbn [unmap]. by rewrite Ms.
Qed.

(** ** Properties *)

(** C27. Serialisation followed by parsing is the identity up to normalisation.
    Whatever strict validation admits, with IPv4-mapped addresses unmapped, is
    serialised without panic in exactly the announced number of bytes by either
    encoder.  The bytes of the raw encoder parse to the packet, its IPv4 option
    area zero-padded to the header.  The bytes of the strict IPv4 encoder parse
    to the packet whose options are the encoding of exactly the options it had
    up to End, zero-padded.  The bytes of the strict IPv6 encoder parse to the
    packet whose extension headers are cleaned and nothing else changed: PadN
    data and the reserved bits of Fragment headers are zero, what lies above the
    headers or a true fragment is untouched, cleaning again changes nothing, and
    the upper layer is read as before. *)
Theorem ip_packet_roundtrip (be : bool) (p q : IPPacket) (headerSize total : Z) :
  packetOk p -> wireLayout p true = Ret (q, headerSize, total) ->
  q = withAddresses p (unmap (ip_Source p)) (unmap (ip_Destination p)) /\
  (exists wire, MarshalRawBinary be p = Ret wire /\ zlen wire = total /\
     ParseIPPacket be wire = Ret (withIPv4Options q (wireOptions q (ip_IPv4Options q)))) /\
  (is4 (ip_Source q) = true ->
   exists wire os rest, MarshalBinary be p = Ret wire /\ zlen wire = total /\ IPv4HeaderOptions q = Ret os /\
     ip_IPv4Options q = concat (map encodeOption os) ++ rest /\
     ParseIPPacket be wire = Ret (withIPv4Options q (wireOptions q (concat (map encodeOption os))))) /\
  (is4 (ip_Source q) = false ->
   exists wire payload, MarshalBinary be p = Ret wire /\ zlen wire = total /\
     headersCleaned (ip_Protocol q) (ip_Payload q) payload /\ headersCleaned (ip_Protocol q) payload payload /\
     ParseIPPacket be wire = Ret (withPayload q payload) /\ upperLayer (withPayload q payload) = upperLayer q).
Proof.
  intros Hp Hlay. pose proof (wireLayout_raw p _ Hlay) as Hraw.
  destruct (wireLayout_strict p q headerSize total Hp Hlay) as [Hq0 Hl]. split; [done|].
  assert (bytes_ok (ip_Payload q)) as Hb by (rewrite Hq0; apply Hp).
  unfold MarshalRawBinary, MarshalBinary. rewrite Hraw, Hlay. cbn [mbind outcome_bind].
  clear Hlay Hraw Hp Hq0. destruct Hl as [os Hq Hf Hbo Ho Hh Ht Hmax|up Hq Hw Hh Ht Hmax].
  - destruct (marshal_ipv4_roundtrip be q headerSize total os) as [(w & W1 & W2 & W3) (w' & r & V1 & V2)]; try done.
    rewrite W1, V1. split; [by exists w|]. split; [intros _; by exists w', os, r|].
    intros E. exfalso. by destruct Hq as ((s & d & Es & _) & _); rewrite Es in E.
  - assert (is4 (ip_Source q) = false) as H4 by (by destruct Hq as ((s & d & -> & _) & _)). rewrite H4.
    subst headerSize total. split; [|split; [done|intros _]].
    + unfold marshalPublicIPPacket. rewrite H4. cbn [need mbind option_bind]. eexists. split; [reflexivity|].
      rewrite zlen_app, ipv6BaseHeader_len by done. split; [lia|].
      rewrite parse_marshal_ipv6 by eauto. f_equal. destruct Hq as (_ & _ & _ & _ & _ & _ & _ & _ & _ & Ho). unfold wireOptions.
      destruct q; simpl in *. by subst.
    + destruct (marshal_ipv6_roundtrip be q up Hq Hb Hw Hmax) as (w & l' & -> & V). by exists w, l'.
Qed.

Definition samplePacket : IPPacket :=
  mkIPPacket (Addr4 [192; 0; 2; 1]) (Addr6 (mappedPrefix ++ [192; 0; 2; 9]) noZone)
    17 64 0 0 4660 true false 0 [1; 148; 4; 0; 0] [1; 2; 3].

(** Hop-by-Hop with dirty padding, then an atomic Fragment header with its
    reserved bits set. *)
Definition samplePacket6 : IPPacket :=
  mkIPPacket (Addr6 (replicate 16 32) noZone) (Addr6 (replicate 16 33) noZone)
    0 64 3 74565 0 false false 0 [] ([44; 0; 1; 4; 9; 9; 9; 9] ++ [17; 5; 0; 6; 1; 2; 3; 4] ++ [7; 8]).

Lemma ip_packet_roundtrip_witness :
  (exists q, wireLayout samplePacket true = Ret (q, 28, 31) /\ is4 (ip_Source q) = true /\
   exists wire os rest, MarshalBinary false samplePacket = Ret wire /\ zlen wire = 31 /\ IPv4HeaderOptions q = Ret os /\
     ip_IPv4Options q = concat (map encodeOption os) ++ rest /\
     ParseIPPacket false wire = Ret (withIPv4Options q (wireOptions q (concat (map encodeOption os))))) /\
  (wireLayout samplePacket6 true = Ret (samplePacket6, 40, 58) /\ is4 (ip_Source samplePacket6) = false /\
   exists wire payload, MarshalBinary true samplePacket6 = Ret wire /\ zlen wire = 58 /\
     headersCleaned 0 (ip_Payload samplePacket6) payload /\ headersCleaned 0 payload payload /\
     ParseIPPacket true wire = Ret (withPayload samplePacket6 payload) /\
     upperLayer (withPayload samplePacket6 payload) = upperLayer samplePacket6).
Proof.
  split.
  - exists (withAddresses samplePacket (Addr4 [192; 0; 2; 1]) (Addr4 [192; 0; 2; 9])).
    split; [by vm_compute|]. split; [done|].
    apply (ip_packet_roundtrip false samplePacket
      (withAddresses samplePacket (Addr4 [192; 0; 2; 1]) (Addr4 [192; 0; 2; 9])) 28 31); [|by vm_compute|done].
    split_and!; cbn; try (split; [done|]); unfold is_u32, is_u16; try lia; repeat constructor; unfold is_u8; lia.
  - split; [by vm_compute|]. split; [done|].
    apply (ip_packet_roundtrip true samplePacket6 samplePacket6 40 58); [|by vm_compute|done].
    split_and!; cbn; try (split; [done|]); unfold is_u32, is_u16; try lia; repeat constructor; unfold is_u8; lia.
Defined.

(** What the strict encoder makes of the second sample. *)
Example samplePacket6_cleaned :
  normalizeIPv6ExtensionFields 0 (ip_Payload samplePacket6)
  = Some ([44; 0; 1; 4; 0; 0; 0; 0] ++ [17; 0; 0; 0; 1; 2; 3; 4] ++ [7; 8]).
Proof. vm_compute. reflexivity. Qed.
