(* ===== verification/TcpOptions.v ===== *)
(** * TCP options of the connection actors

    The SYN, timestamp and SACK options of [tcp.go]: the option areas a
    connection writes, the parsers its actor runs on received segments, the
    selection of reported ranges (RFC 2018) and of duplicate ranges (RFC 2883). *)

From S2P Require Import Prelude SeqNum Rtt Addr Windows TcpReceive Scoreboard HeaderOptions.

(** ** Writers *)

Definition tcpPassiveSYNOptions (mss : Z) (sack windowScaling timestamp : bool)
    (windowScale timestampValue timestampEcho : Z) : list Z :=
  [TCPHeaderOptionMSS; 4; u8 (Z.shiftr mss 8); u8 mss]
  ++ (if sack then [TCPHeaderOptionSACKPermitted; 2] else [])
  ++ (if windowScaling then [TCPHeaderOptionNOP; TCPHeaderOptionWindowScale; 3; windowScale] else [])
  ++ (if timestamp
      then [TCPHeaderOptionNOP; TCPHeaderOptionNOP; TCPHeaderOptionTimestamp; 10]
           ++ be_bytes 4 timestampValue ++ be_bytes 4 timestampEcho
      else []).

Definition tcpSYNOptions (mss windowScale timestamp : Z) : list Z :=
  tcpPassiveSYNOptions mss true true true windowScale timestamp 0.

Definition appendTCPTimestampOptions (dst : list Z) (value echo : Z) : list Z :=
  dst ++ [TCPHeaderOptionNOP; TCPHeaderOptionNOP; TCPHeaderOptionTimestamp; 10]
      ++ be_bytes 4 value ++ be_bytes 4 echo.

Definition tcpTimestampOptions (value echo : Z) : list Z := appendTCPTimestampOptions [] value echo.

(** ** Framing

    Every parser of this file walks the option area in the same way. *)

Inductive framing :=
| FrEnd
| FrNop
| FrBad
| FrOption (kind length : Z).

Definition nextOption (options : list Z) (offset : Z) : option framing :=
  kind ← idx options offset;
  if kind =? TCPHeaderOptionEnd then Some FrEnd
  else if kind =? TCPHeaderOptionNOP then Some FrNop
  else if zlen options - offset <? 2 then Some FrBad
  else
    length ← idx options (offset + 1);
    if (length <? 2) || (zlen options - offset <? length) then Some FrBad
    else Some (FrOption kind length).

(** The loop of a parser: [handle] treats one length-bearing option and either
    continues with a new state or returns. *)
Definition walkOptionsBody {S R} (options : list Z)
    (handle : Z -> Z -> Z -> S -> option (S + R)) (finish : S -> R)
    (s : Z * S) : option (Z * S + R) :=
  let '(offset, st) := s in
  if offset <? zlen options then
    step ← nextOption options offset;
    match step with
    | FrEnd | FrBad => Some (inr (finish st))
    | FrNop => Some (inl (offset + 1, st))
    | FrOption kind length =>
        r ← handle offset kind length st;
        Some (match r with inl st => inl (offset + length, st) | inr v => inr v end)
    end
  else Some (inr (finish st)).

Definition walkOptions {S R} (options : list Z)
    (handle : Z -> Z -> Z -> S -> option (S + R)) (finish : S -> R) (st : S) : option R :=
  loop (Datatypes.S (length options)) (walkOptionsBody options handle finish) (0, st).

(** ** Parsers *)

Record synOptions := mkSynOptions {
  so_mss : Z;
  so_scale : Z;
  so_windowScaling : bool;
  so_sack : bool;
  so_timestamp : bool;
  so_timestampValue : Z }.

(** The shift of RFC 7323 is at most fourteen. *)
Definition capScale (scale : Z) : Z := if 14 <? scale then 14 else scale.

Definition handleSYNOption (options : list Z) (offset kind length : Z) (o : synOptions)
    : option (synOptions + synOptions) :=
  if kind =? TCPHeaderOptionMSS then
    if length =? 4 then
      value ← be16 options (offset + 2);
      Some (inl (if negb (value =? 0)
                 then mkSynOptions value (so_scale o) (so_windowScaling o) (so_sack o)
                        (so_timestamp o) (so_timestampValue o)
                 else o))
    else Some (inl o)
  else if kind =? TCPHeaderOptionWindowScale then
    if length =? 3 then
      scale ← idx options (offset + 2);
      Some (inl (mkSynOptions (so_mss o) (capScale scale) true (so_sack o) (so_timestamp o)
                   (so_timestampValue o)))
    else Some (inl o)
  else if kind =? TCPHeaderOptionSACKPermitted then
    Some (inl (mkSynOptions (so_mss o) (so_scale o) (so_windowScaling o) (length =? 2)
                 (so_timestamp o) (so_timestampValue o)))
  else if kind =? TCPHeaderOptionTimestamp then
    if length =? 10 then
      value ← be32 options (offset + 2);
      Some (inl (mkSynOptions (so_mss o) (so_scale o) (so_windowScaling o) (so_sack o) true value))
    else Some (inl o)
  else Some (inl o).

Definition parseTCPOptions (options : list Z) (fallback localMaximum : Z) : option synOptions :=
  o ← walkOptions options (handleSYNOption options) (fun o => o)
        (mkSynOptions fallback 0 false false false 0);
  Some (mkSynOptions (clampMSS (so_mss o) localMaximum) (so_scale o) (so_windowScaling o)
          (so_sack o) (so_timestamp o) (so_timestampValue o)).

(** TSval and TSecr of the first well-formed timestamp option. *)
Definition parseTCPTimestamp (options : list Z) : option (option (Z * Z)) :=
  walkOptions options
    (fun offset kind length (_ : unit) =>
       if (kind =? TCPHeaderOptionTimestamp) && (length =? 10) then
         value ← be32 options (offset + 2);
         echo ← be32 options (offset + 6);
         Some (inr (Some (value, echo)))
       else Some (inl tt))
    (fun _ => None) tt.

Definition sackShape (kind length : Z) : bool :=
  (kind =? TCPHeaderOptionSACK) && (10 <=? length) && (Z.rem (length - 2) 8 =? 0).

(** The verdict on the first SACK block of a SACK option at [offset]. *)
Definition dsackVerdict (options : list Z) (offset length acknowledged sendNext history : Z)
    : option (option TCPSACKBlock) :=
  left ← be32 options (offset + 2);
  right ← be32 options (offset + 6);
  let block := mkBlock left right in
  if negb (tcpSequenceLess left right) then Some None
  else if tcpSequenceLessEqual right acknowledged
  then Some (if acknowledged ⊟ left <=? history then Some block else None)
  else if 18 <=? length then
    secondLeft ← be32 options (offset + 10);
    secondRight ← be32 options (offset + 14);
    let leftDistance := secondLeft ⊟ acknowledged in
    let rightDistance := secondRight ⊟ acknowledged in
    let secondLength := secondRight ⊟ secondLeft in
    Some (if (leftDistance <? rightDistance) && (rightDistance <=? sendNext ⊟ acknowledged)
             && (left ⊟ secondLeft <? secondLength) && (right ⊟ secondLeft <=? secondLength)
          then Some block else None)
  else Some None.

Definition parseTCPDSACKOption (options : list Z) (acknowledged sendNext history : Z)
    : option (option TCPSACKBlock) :=
  walkOptions options
    (fun offset kind length (_ : unit) =>
       if sackShape kind length then
         verdict ← dsackVerdict options offset length acknowledged sendNext history;
         Some (inr verdict)
       else Some (inl tt))
    (fun _ => None) tt.

Definition sackValid (acknowledged window : Z) (b : TCPSACKBlock) : bool :=
  let leftDistance := LeftEdge b ⊟ acknowledged in
  let rightDistance := RightEdge b ⊟ acknowledged in
  (leftDistance <? rightDistance) && (rightDistance <=? window).

(** The blocks of one SACK option that lie in the send window. *)
Fixpoint sackBlocksAt (options : list Z) (blockOffset : Z) (n : nat) (acknowledged window : Z)
    (blocks : list TCPSACKBlock) : option (list TCPSACKBlock) :=
  match n with
  | O => Some blocks
  | S n =>
      left ← be32 options blockOffset;
      right ← be32 options (blockOffset + 4);
      sackBlocksAt options (blockOffset + 8) n acknowledged window
        (if sackValid acknowledged window (mkBlock left right)
         then blocks ++ [mkBlock left right] else blocks)
  end.

(** [sort.Slice] by the distance of the left edge; the order of equal keys does
    not matter to the merge that follows. *)
Definition blockBefore (acknowledged : Z) (b c : TCPSACKBlock) : bool :=
  LeftEdge b ⊟ acknowledged <? LeftEdge c ⊟ acknowledged.

Definition mergeBlock (merged : list TCPSACKBlock) (block : TCPSACKBlock) : list TCPSACKBlock :=
  match list.last merged with
  | None => merged ++ [block]
  | Some previous =>
      if tcpSequenceLess (RightEdge previous) (LeftEdge block) then merged ++ [block]
      else if tcpSequenceGreater (RightEdge block) (RightEdge previous)
      then removelast merged ++ [mkBlock (LeftEdge previous) (RightEdge block)]
      else merged
  end.

Definition parseTCPSACKOptions (options : list Z) (acknowledged sendNext : Z)
    : option (list TCPSACKBlock) :=
  let window := sendNext ⊟ acknowledged in
  blocks ← walkOptions options
    (fun offset kind length blocks =>
       if sackShape kind length then
         blocks ← sackBlocksAt options (offset + 2) (Z.to_nat ((length - 2) / 8)) acknowledged
                    window blocks;
         Some (inl blocks)
       else Some (inl blocks))
    (fun blocks => blocks) [];
  Some (fold_left mergeBlock (sortBy (blockBefore acknowledged) blocks) []).

(** ** Reported ranges *)

Fixpoint sackLimitLoop (blocks : nat) (timestampSize budget : Z) : Z :=
  match blocks with
  | O => 0
  | S n => if align4 (timestampSize + 2 + 8 * Z.of_nat blocks) <=? budget then Z.of_nat blocks
           else sackLimitLoop n timestampSize budget
  end.

Definition tcpSACKBlockLimit (mtu : Z) (address : Addr) (timestamp : bool) (reservePayload : Z) : Z :=
  let ipHeader := if is4 address then 20 else 40 in
  let budget := mtu - ipHeader - tcpHeaderSize - reservePayload in
  let budget := if 40 <? budget then 40 else budget in
  if budget <? 0 then 0
  else if timestamp then sackLimitLoop 3 tcpTimestampOptionSize budget
  else sackLimitLoop 4 0 budget.

(** The sequence number after a retained piece. *)
Definition pieceRight (piece : tcpReceivedPiece) : Z :=
  let right := pc_sequence piece ⊞ zlen (pc_payload piece) in
  if pc_fin piece then right ⊞ 1 else right.

Fixpoint extendForward (right : Z) (rest : list tcpReceivedPiece) (index : Z) : Z * Z :=
  match rest with
  | [] => (right, index)
  | piece :: rest =>
      if tcpSequenceGreater (pc_sequence piece) right then (right, index)
      else extendForward
             (if tcpSequenceGreater (pieceRight piece) right then pieceRight piece else right)
             rest (index + 1)
  end.

Definition tcpReceivedSACKBlockForward (pieces : list tcpReceivedPiece) (index : Z)
    : option (TCPSACKBlock * Z) :=
  piece ← idx pieces index;
  let '(edge, next) := extendForward (pieceRight piece) (drop (Z.to_nat (index + 1)) pieces)
                          (index + 1) in
  Some (mkBlock (pc_sequence piece) edge, next).

(** [before] are the pieces below the index, nearest first. *)
Fixpoint extendBackward (left right : Z) (before : list tcpReceivedPiece) (index : Z)
    : Z * Z * Z :=
  match before with
  | [] => (left, right, index)
  | piece :: before =>
      if tcpSequenceGreater left (pieceRight piece) then (left, right, index)
      else extendBackward (pc_sequence piece)
             (if tcpSequenceGreater (pieceRight piece) right then pieceRight piece else right)
             before (index - 1)
  end.

Definition tcpReceivedSACKBlockBackward (pieces : list tcpReceivedPiece) (index : Z)
    : option (TCPSACKBlock * Z) :=
  piece ← idx pieces index;
  let '(lower, upper, previous) :=
    extendBackward (pc_sequence piece) (pieceRight piece) (rev (take (Z.to_nat index) pieces))
      (index - 1) in
  Some (mkBlock lower upper, previous).

(** The search for the range of the segment that triggered the report. *)
Definition recentBody (pieces : list tcpReceivedPiece) (recent index : Z)
    : option (Z + option TCPSACKBlock) :=
  if index <? zlen pieces then
    '(block, next) ← tcpReceivedSACKBlockForward pieces index;
    if tcpSequenceGreaterEqual recent (LeftEdge block) && tcpSequenceLess recent (RightEdge block)
    then Some (inr (Some block))
    else Some (inl next)
  else Some (inr None).

Definition blockEqb (a b : TCPSACKBlock) : bool :=
  (LeftEdge a =? LeftEdge b) && (RightEdge a =? RightEdge b).

(** The descending loop that fills the remaining blocks. *)
Definition olderBody (pieces : list tcpReceivedPiece) (recentBlock : option TCPSACKBlock)
    (maximumBlocks : Z) (s : Z * list TCPSACKBlock)
    : option (Z * list TCPSACKBlock + list TCPSACKBlock) :=
  let '(index, ordered) := s in
  if (0 <=? index) && (zlen ordered <? maximumBlocks) then
    '(block, previous) ← tcpReceivedSACKBlockBackward pieces index;
    if match recentBlock with Some r => blockEqb block r | None => false end
    then Some (inl (previous, ordered))
    else Some (inl (previous, ordered ++ [block]))
  else Some (inr ordered).

Definition tcpSACKOptions (pieces : list tcpReceivedPiece) (recent maximumBlocks : Z)
    (dsack : option TCPSACKBlock) : option (list Z) :=
  if maximumBlocks <? 1 then Some []
  else
    let maximumBlocks := if 4 <? maximumBlocks then 4 else maximumBlocks in
    recentBlock ← loop (S (length pieces)) (recentBody pieces recent) 0;
    let ordered := match dsack with Some d => [d] | None => [] end in
    let ordered := match recentBlock with
                   | Some r => if zlen ordered <? maximumBlocks then ordered ++ [r] else ordered
                   | None => ordered
                   end in
    ordered ← loop (S (length pieces)) (olderBody pieces recentBlock maximumBlocks)
                (zlen pieces - 1, ordered);
    if zlen ordered =? 0 then Some []
    else Some ([TCPHeaderOptionSACK; u8 (2 + 8 * zlen ordered)] ++ concat (map encodeBlock ordered)).

(** ** Duplicate ranges *)

(** The overlap of [[incomingStart, incomingEnd)] with the first retained piece
    it meets. *)
Fixpoint duplicateOverlap (receiveNext incomingStart incomingEnd : Z)
    (pieces : list tcpReceivedPiece) : option TCPSACKBlock :=
  match pieces with
  | [] => None
  | piece :: pieces =>
      let pieceStart := pc_sequence piece ⊟ receiveNext in
      let pieceEnd := pieceStart ⊞ zlen (pc_payload piece) in
      let pieceEnd := if pc_fin piece then pieceEnd ⊞ 1 else pieceEnd in
      let left := if incomingStart <? pieceStart then pieceStart else incomingStart in
      let right := if pieceEnd <? incomingEnd then pieceEnd else incomingEnd in
      if left <? right then Some (mkBlock (receiveNext ⊞ left) (receiveNext ⊞ right))
      else duplicateOverlap receiveNext incomingStart incomingEnd pieces
  end.

Definition tcpDuplicateSACKBlock (sequence payloadLength : Z) (fin : bool) (receiveNext : Z)
    (pieces : list tcpReceivedPiece) : option TCPSACKBlock :=
  let length := u32 payloadLength in
  let length := if fin then length ⊞ 1 else length in
  if length =? 0 then None
  else
    let stop := sequence ⊞ length in
    let overlap (sequence : Z) :=
      let incomingStart := sequence ⊟ receiveNext in
      let incomingEnd := stop ⊟ receiveNext in
      if incomingEnd <=? incomingStart then None
      else duplicateOverlap receiveNext incomingStart incomingEnd pieces in
    if tcpSequenceLess sequence receiveNext then
      let right := if tcpSequenceGreater stop receiveNext then receiveNext else stop in
      if tcpSequenceGreater right sequence then Some (mkBlock sequence right)
      else overlap receiveNext
    else overlap sequence.

(** ** Lemmas: walking *)

Lemma nextOption_ok options offset :
  bytes_ok options -> 0 <= offset < zlen options ->
  exists step, nextOption options offset = Some step /\
    match step with
    | FrOption kind length => 2 <= length /\ offset + length <= zlen options
    | _ => True
    end.
Proof.
  intros Hb Ho. unfold nextOption. destruct (idx_some options offset) as [kind ->]; [lia|].
  cbn [mbind option_bind]. destruct (_ =? _); [by eexists|]. destruct (_ =? _); [by eexists|].
  destruct (_ <? 2) eqn:E2; [by eexists|].
  destruct (idx_some options (offset + 1)) as [n ->]; [lia|]. cbn [mbind option_bind].
  destruct (_ || _) eqn:E; [by eexists|]. eexists. split; [done|]. cbn. lia.
Qed.

(** A walk whose handler returns and keeps an invariant returns. *)
Lemma walkOptions_total {S R} options (handle : Z -> Z -> Z -> S -> option (S + R)) finish
    (I : S -> Prop) (Q : R -> Prop) st :
  bytes_ok options -> I st -> (forall s, I s -> Q (finish s)) ->
  (forall offset kind length s, 0 <= offset -> 2 <= length -> offset + length <= zlen options ->
     I s -> exists r, handle offset kind length s = Some r /\
                      match r with inl s => I s | inr v => Q v end) ->
  exists v, walkOptions options handle finish st = Some v /\ Q v.
Proof.
  intros Hb Hst Hfin Hh. unfold walkOptions.
  apply (loop_total (fun s => 0 <= fst s /\ I (snd s)) (fun s => Z.to_nat (zlen options - fst s)) Q);
    [|split; [simpl; lia|done]|simpl; unfold zlen; lia].
  intros [offset s] [Ho Hs]. cbn [fst snd] in *. unfold walkOptionsBody.
  destruct (offset <? zlen options) eqn:E; [|eexists; split; [done|]; by apply Hfin].
  destruct (nextOption_ok options offset Hb ltac:(lia)) as (step & -> & Hstep).
  cbn [mbind option_bind].
  destruct step as [| | |kind length]; try (eexists; split; [done|]; by apply Hfin).
  - eexists. split; [done|]. cbn. split; [split; [lia|done]|lia].
  - destruct (Hh offset kind length s) as (r & -> & Hr); try done; try lia.
    cbn [mbind option_bind]. eexists. split; [done|].
    destruct r as [s'|v]; [|done]. cbn. split; [split; [lia|done]|lia].
Qed.

(** A walk over an encoded option list at a boundary. *)
Lemma walk_nop {S R} pre l (handle : Z -> Z -> Z -> S -> option (S + R)) finish st :
  walkOptionsBody (pre ++ TCPHeaderOptionNOP :: l) handle finish (zlen pre, st)
  = Some (inl (zlen (pre ++ [TCPHeaderOptionNOP]), st)).
Proof.
  unfold walkOptionsBody, nextOption. rewrite idx_at, !zlen_app, zlen_cons.
  pose proof (zlen_nonneg l). by replace (_ <? _) with true by lia.
Qed.

Lemma walk_tlv {S R} pre kind data l (handle : Z -> Z -> Z -> S -> option (S + R)) finish st :
  bareKind kind = false ->
  walkOptionsBody (pre ++ kind :: (2 + zlen data) :: data ++ l) handle finish (zlen pre, st)
  = r ← handle (zlen pre) kind (2 + zlen data) st;
    Some (match r with
          | inl st => inl (zlen (pre ++ kind :: (2 + zlen data) :: data), st)
          | inr v => inr v
          end).
Proof.
  intros Hk. destruct (bareKind_false kind Hk) as [E0 E1]. unfold walkOptionsBody, nextOption.
  pose proof (zlen_nonneg data). pose proof (zlen_nonneg l).
  rewrite idx_at, idx_at1, !zlen_app, !zlen_cons, zlen_app. replace (_ <? _) with true by lia.
  cbn [mbind option_bind]. rewrite E0, E1. replace (_ <? 2) with false by lia.
  replace (_ || _) with false by lia. cbn [mbind option_bind].
  destruct (handle _ _ _ _) as [[s|v]|]; try done. cbn [mbind option_bind]. do 3 f_equal. lia.
Qed.

(** ** Lemmas: merging SACK blocks

    Blocks are intervals of distances from the cumulative acknowledgement. *)

Section Merging.
Context (ack window : Z) (Hack : is_u32 ack) (Hwindow : window < 2147483648).

Definition leftOf (b : TCPSACKBlock) : Z := LeftEdge b ⊟ ack.
Definition rightOf (b : TCPSACKBlock) : Z := RightEdge b ⊟ ack.
Definition interval (b : TCPSACKBlock) : Z * Z := (leftOf b, rightOf b).

Definition inWindow (b : TCPSACKBlock) : Prop :=
  blockOk b /\ 0 <= leftOf b /\ leftOf b < rightOf b /\ rightOf b <= window.

Definition sackCovers (bs : list TCPSACKBlock) (x : Z) : Prop :=
  Exists (fun b => leftOf b <= x < rightOf b) bs.

(** Left to right with a gap between neighbours, all above [lo]. *)
Fixpoint separated (lo : Z) (bs : list TCPSACKBlock) : Prop :=
  match bs with
  | [] => True
  | b :: bs => lo < leftOf b /\ separated (rightOf b) bs
  end.

Definition endOf (lo : Z) (bs : list TCPSACKBlock) : Z :=
  match list.last bs with Some b => rightOf b | None => lo end.

Lemma separated_snoc lo bs b :
  separated lo (bs ++ [b]) <-> separated lo bs /\ endOf lo bs < leftOf b.
Proof.
  revert lo. induction bs as [|c bs IH]; intros lo; [cbn; tauto|].
  cbn [app separated]. rewrite IH. unfold endOf. destruct bs as [|d bs]; [cbn; tauto|].
  change (list.last (c :: d :: bs)) with (list.last (d :: bs)).
  destruct (list.last (d :: bs)) eqn:E; [tauto|]. by apply last_None in E.
Qed.

Lemma sackValid_inWindow b : blockOk b -> sackValid ack window b = true <-> inWindow b.
Proof.
  unfold sackValid, inWindow, leftOf, rightOf. intros Hb.
  pose proof (u32_range (LeftEdge b - ack)) as [].
  cbn zeta. rewrite andb_true_iff, Z.ltb_lt, Z.leb_le. intuition lia.
Qed.

Lemma blockAt_interval b : blockOk b -> blockAt ack (interval b) = b.
Proof.
  destruct b as [l r]. intros [Hl Hr]. unfold blockAt, interval, leftOf, rightOf.
  cbn [fst snd LeftEdge RightEdge] in *. by rewrite <- !seq_offset.
Qed.

Lemma less_edges b c : inWindow b -> inWindow c ->
  tcpSequenceLess (RightEdge b) (LeftEdge c) = (rightOf b <? leftOf c) /\
  tcpSequenceLess (RightEdge b) (RightEdge c) = (rightOf b <? rightOf c).
Proof.
  intros ([? Hb] & ? & ? & ?) ([Hl Hr] & ? & ? & ?).
  rewrite (seq_offset ack (RightEdge b)), (seq_offset ack (LeftEdge c)),
    (seq_offset ack (RightEdge c)) by done.
  unfold leftOf, rightOf in *. rewrite !less_offsets by lia. done.
Qed.

Record mergedOk (bs : list TCPSACKBlock) (m : Z) (merged : list TCPSACKBlock) : Prop := {
  mg_window : Forall inWindow merged;
  mg_separated : separated (-1) merged;
  mg_last : forall b, list.last merged = Some b -> leftOf b <= m;
  mg_covers : forall x, sackCovers merged x <-> sackCovers bs x;
  mg_length : zlen merged <= zlen bs }.

Lemma mergeBlock_ok bs m merged b :
  mergedOk bs m merged -> inWindow b -> m <= leftOf b ->
  mergedOk (bs ++ [b]) (leftOf b) (mergeBlock merged b).
Proof.
  intros [W S L C N] Hb Hm. unfold mergeBlock.
  destruct (list.last merged) as [p|] eqn:E.
  - specialize (L p eq_refl). apply last_Some in E as [init ->].
    apply Forall_app in W as [W Hp]. apply Forall_inv in Hp.
    apply separated_snoc in S as [S S']. destruct (less_edges p b Hp Hb) as [-> E2].
    unfold tcpSequenceGreater. rewrite E2.
    destruct (rightOf p <? leftOf b) eqn:E1; [|destruct (rightOf p <? rightOf b) eqn:E3].
    + split.
      * rewrite !Forall_app. auto.
      * rewrite separated_snoc. split; [by apply separated_snoc|].
        unfold endOf. rewrite last_snoc. lia.
      * intros c. rewrite last_snoc. intros [= <-]. lia.
      * intros x. specialize (C x). unfold sackCovers in *. rewrite !Exists_app in *. tauto.
      * len.
    + rewrite removelast_last. destruct Hp as ([? ?] & ? & ? & ?), Hb as ([? ?] & ? & ? & ?).
      split.
      * rewrite Forall_app. split; [done|]. constructor; [|constructor].
        unfold inWindow, blockOk, leftOf, rightOf in *. cbn [LeftEdge RightEdge].
        split_and!; done || lia.
      * by apply separated_snoc.
      * intros c. rewrite last_snoc. intros [= <-].
        unfold leftOf in *. cbn [LeftEdge]. lia.
      * intros x. specialize (C x). unfold sackCovers in *. rewrite !Exists_app in *.
        rewrite <- C, !Exists_cons, !Exists_nil.
        change (leftOf (mkBlock (LeftEdge p) (RightEdge b))) with (leftOf p).
        change (rightOf (mkBlock (LeftEdge p) (RightEdge b))) with (rightOf b).
        split; [intros [?|[?|[]]]|intros [[?|[?|[]]]|[?|[]]]]; [tauto| |tauto|right; left; lia..].
        destruct (decide (x < rightOf p)); [left; right; left; lia|right; left; lia].
      * len.
    + split.
      * rewrite !Forall_app. auto.
      * by apply separated_snoc.
      * intros c. rewrite last_snoc. intros [= <-]. lia.
      * intros x. specialize (C x). unfold sackCovers in *. rewrite !Exists_app in *.
        rewrite <- C, !Exists_cons, !Exists_nil.
        split; [tauto|]. intros [?|[?|[]]]; [done|]. right. left. lia.
      * len.
  - apply last_None in E as ->. cbn [app]. split.
    + by repeat constructor; apply Hb.
    + cbn. destruct Hb as (_ & ? & _). split; [lia|done].
    + intros c [= <-]. lia.
    + intros x. specialize (C x). unfold sackCovers in *. rewrite Exists_app, Exists_nil in *. tauto.
    + len.
Qed.

Definition leftLe (b c : TCPSACKBlock) : Prop := leftOf b <= leftOf c.

#[global] Instance leftLe_trans : Transitive leftLe.
Proof. intros b c d. unfold leftLe. lia. Qed.

Lemma sortBlocks_sorted bs : StronglySorted leftLe (sortBy (blockBefore ack) bs).
Proof. apply (sortBy_sorted _ leftLe); intros b c; unfold blockBefore, leftLe, leftOf; lia. Qed.

Lemma mergeAll_ok l bs m merged :
  mergedOk bs m merged -> Forall inWindow l -> StronglySorted leftLe l ->
  Forall (fun b => m <= leftOf b) l ->
  exists m', mergedOk (bs ++ l) m' (fold_left mergeBlock l merged).
Proof.
  revert bs m merged. induction l as [|b l IH]; intros bs m merged H Hw Hs Hm.
  - rewrite app_nil_r. by exists m.
  - apply Forall_cons_iff in Hw as [Hb Hw]. apply Forall_cons_iff in Hm as [Hmb _].
    inversion_clear Hs as [|? ? Hs' Hl]. rewrite (cons_middle b), app_assoc.
    by apply (IH (bs ++ [b]) (leftOf b)); [by apply (mergeBlock_ok bs m)|..].
Qed.

Lemma mergeSorted_ok bs :
  Forall inWindow bs -> exists m, mergedOk bs m (fold_left mergeBlock (sortBy (blockBefore ack) bs) []).
Proof.
  intros H. pose proof (sortBy_perm (blockBefore ack) bs) as Hp.
  destruct (mergeAll_ok (sortBy (blockBefore ack) bs) [] (-1) []) as (m & [W S L C N]).
  - split; cbn; try done; lia.
  - by rewrite Hp.
  - apply sortBlocks_sorted.
  - rewrite Hp. eapply Forall_impl; [|exact H]. unfold inWindow. simpl. lia.
  - exists m. split; try done.
    + intros x. rewrite C. unfold sackCovers. cbn [app]. by rewrite Hp.
    + apply Permutation_length in Hp. unfold zlen in *. cbn [app] in N. lia.
Qed.

Lemma interval_inStream bs n :
  Forall inWindow bs -> window = n -> Forall (inStream n) (map interval bs).
Proof.
  intros H ->. apply Forall_map. eapply Forall_impl; [|exact H]. intros b (_ & ? & ? & ?).
  unfold inStream. cbn [interval fst snd]. lia.
Qed.

Lemma blockAt_intervals bs : Forall inWindow bs -> map (blockAt ack) (map interval bs) = bs.
Proof.
  induction 1 as [|b bs [Hb _] _ IH]; [done|]. cbn [map]. by rewrite IH, blockAt_interval.
Qed.

Lemma valid_inWindow bs :
  Forall blockOk bs -> Forall inWindow (List.filter (sackValid ack window) bs).
Proof.
  induction 1 as [|b bs Hb _ IH]; [constructor|]. cbn [List.filter].
  destruct (sackValid ack window b) eqn:E; [|done]. constructor; [by apply sackValid_inWindow|done].
Qed.

(** The blocks read from one SACK option. *)
Lemma sackBlocksAt_total options offset n blocks :
  bytes_ok options -> 0 <= offset -> offset + 8 * Z.of_nat n <= zlen options ->
  Forall inWindow blocks ->
  exists blocks', sackBlocksAt options offset n ack window blocks = Some blocks' /\
                  Forall inWindow blocks'.
Proof.
  intros Hb. revert offset blocks. induction n as [|n IH]; intros offset blocks Ho Hl H; [by eexists|].
  cbn [sackBlocksAt].
  destruct (be32_total options offset) as [left El]; [lia..|].
  destruct (be32_total options (offset + 4)) as [right Er]; [lia..|].
  rewrite El, Er. cbn [mbind option_bind]. apply IH; [lia..|].
  destruct (sackValid _ _ _) eqn:E; [|done]. apply Forall_app. split; [done|].
  constructor; [|constructor]. apply sackValid_inWindow; [|done].
  split; cbn; by eapply be32_range.
Qed.

Lemma encodeBlock_at pre b rest :
  blockOk b -> be32 (pre ++ encodeBlock b ++ rest) (zlen pre) = Some (LeftEdge b) /\
               be32 (pre ++ encodeBlock b ++ rest) (zlen pre + 4) = Some (RightEdge b).
Proof.
  intros [Hl Hr]. unfold encodeBlock. rewrite <- (app_assoc (be_bytes 4 (LeftEdge b))). split; [by apply be32_at|].
  rewrite (app_assoc pre).
  replace (zlen pre + 4) with (zlen (pre ++ be_bytes 4 (LeftEdge b))) by len. by apply be32_at.
Qed.

Lemma sackBlocksAt_encoded pre bs rest blocks :
  Forall blockOk bs ->
  sackBlocksAt (pre ++ concat (map encodeBlock bs) ++ rest) (zlen pre) (length bs) ack window blocks
  = Some (blocks ++ List.filter (sackValid ack window) bs).
Proof.
  revert pre blocks. induction bs as [|b bs IH]; intros pre blocks H; [by rewrite app_nil_r|].
  apply Forall_cons_iff in H as [[Hl Hr] H].
  cbn [length sackBlocksAt map concat List.filter]. rewrite <- (app_assoc (encodeBlock b)).
  destruct (encodeBlock_at pre b (concat (map encodeBlock bs) ++ rest)) as [-> ->]; [done..|].
  cbn [mbind option_bind]. replace (mkBlock (LeftEdge b) (RightEdge b)) with b by by destruct b.
  rewrite (app_assoc pre).
  replace (zlen pre + 8) with (zlen (pre ++ encodeBlock b)) by (rewrite zlen_app, zlen_encodeBlock; lia).
  rewrite IH by done. destruct (sackValid ack window b); [|done]. by rewrite <- app_assoc.
Qed.
End Merging.

(** ** Lemmas: walking an encoded area *)

Section Steps.
Context {S R : Type} (options : list Z) (handle : Z -> Z -> Z -> S -> option (S + R)) (finish : S -> R).

Lemma loop_nop n pre l o st :
  options = pre ++ TCPHeaderOptionNOP :: l -> o = zlen pre ->
  loop (Datatypes.S n) (walkOptionsBody options handle finish) (o, st)
  = loop n (walkOptionsBody options handle finish) (o + 1, st).
Proof. intros -> ->. cbn [loop]. rewrite walk_nop. cbn [mbind option_bind]. do 3 f_equal. len. Qed.

Lemma loop_tlv n pre kind data l o st :
  options = pre ++ kind :: (2 + zlen data) :: data ++ l -> bareKind kind = false -> o = zlen pre ->
  loop (Datatypes.S n) (walkOptionsBody options handle finish) (o, st)
  = r ← handle o kind (2 + zlen data) st;
    match r with
    | inl st => loop n (walkOptionsBody options handle finish) (o + (2 + zlen data), st)
    | inr v => Some v
    end.
Proof.
  intros -> Hk ->. cbn [loop]. rewrite walk_tlv by done.
  destruct (handle _ _ _ _) as [[s|v]|]; try done. cbn [mbind option_bind]. do 3 f_equal. len.
Qed.

Lemma loop_stop n pre padding o st :
  options = pre ++ repeat TCPHeaderOptionEnd padding -> o = zlen pre ->
  loop (Datatypes.S n) (walkOptionsBody options handle finish) (o, st) = Some (finish st).
Proof.
  intros -> ->. cbn [loop]. unfold walkOptionsBody, nextOption. destruct padding as [|p].
  - cbn [repeat]. rewrite app_nil_r. by rewrite Z.ltb_irrefl.
  - cbn [repeat]. pose proof (zlen_nonneg (repeat TCPHeaderOptionEnd p)).
    rewrite zlen_app, zlen_cons, idx_at. by replace (_ <? _) with true by lia.
Qed.
End Steps.

(** A timestamp option, one SACK option and the padding. *)
Definition timestampOf (timestamp : option (Z * Z)) : list Z :=
  match timestamp with Some (v, e) => tcpTimestampOptions v e | None => [] end.

Definition optionArea (timestamp : option (Z * Z)) (bs : list TCPSACKBlock) (padding : nat) : list Z :=
  timestampOf timestamp
  ++ TCPHeaderOptionSACK :: (2 + zlen (concat (map encodeBlock bs))) :: concat (map encodeBlock bs)
  ++ repeat TCPHeaderOptionEnd padding.

Lemma walk_area {S R} timestamp bs padding (handle : Z -> Z -> Z -> S -> option (S + R)) finish st st' :
  (forall o s, handle o TCPHeaderOptionTimestamp 10 s = Some (inl s)) ->
  handle (zlen (timestampOf timestamp)) TCPHeaderOptionSACK
    (2 + zlen (concat (map encodeBlock bs))) st = Some (inl st') ->
  walkOptions (optionArea timestamp bs padding) handle finish st = Some (finish st').
Proof.
  intros Ht Hs. unfold walkOptions.
  set (options := optionArea timestamp bs padding).
  set (data := concat (map encodeBlock bs)) in *.
  assert (forall n o, (2 <= n)%nat -> o = zlen (timestampOf timestamp) ->
    loop n (walkOptionsBody options handle finish) (o, st) = Some (finish st')) as Hend.
  { intros [|[|n]] o Hn ->; [lia..|].
    rewrite (loop_tlv _ _ _ _ (timestampOf timestamp) TCPHeaderOptionSACK data
      (repeat TCPHeaderOptionEnd padding)) by done.
    rewrite Hs. cbn [mbind option_bind].
    apply (loop_stop _ _ _ _ (timestampOf timestamp ++ TCPHeaderOptionSACK :: (2 + zlen data) :: data) padding).
    - unfold options, optionArea. by rewrite <- app_assoc.
    - len. }
  destruct timestamp as [[v e]|]; 
    [|apply Hend; [unfold options, optionArea; cbn [timestampOf app length]; lia|done]].
  set (rest := TCPHeaderOptionSACK :: (2 + zlen data) :: data ++ repeat TCPHeaderOptionEnd padding).
  assert (options = [TCPHeaderOptionNOP; TCPHeaderOptionNOP] ++ TCPHeaderOptionTimestamp
    :: (2 + zlen (be_bytes 4 v ++ be_bytes 4 e)) :: (be_bytes 4 v ++ be_bytes 4 e) ++ rest) as E.
  { rewrite zlen_app, !zlen_be_bytes. unfold options, optionArea, timestampOf, tcpTimestampOptions,
      appendTCPTimestampOptions. cbn [app]. by rewrite <- !app_assoc. }
  assert (exists n, Datatypes.S (length options) = Datatypes.S (Datatypes.S (Datatypes.S n)) /\ (2 <= n)%nat)
    as (n & -> & Hn).
  { rewrite E. cbn [app length]. rewrite !length_app, !length_be_bytes. eexists. split; [done|lia]. }
  rewrite (loop_nop _ _ _ _ [] _ 0 st E) by done.
  rewrite (loop_nop _ _ _ _ [TCPHeaderOptionNOP] _ 1 st E) by done.
  rewrite (loop_tlv _ _ _ _ _ _ _ _ 2 st E) by done.
  rewrite zlen_app, !zlen_be_bytes. rewrite Ht. cbn [mbind option_bind].
  apply Hend; [done|]. unfold timestampOf, tcpTimestampOptions, appendTCPTimestampOptions. len.
Qed.

(** ** Lemmas: reported ranges

    Offsets are distances from RCV.NXT. *)

Section Reports.
Context (next : Z) (Hnext : is_u32 next).

(** What the receive path keeps of every retained piece, the sequence space it
    occupies (the FIN included), and the blocks that stay inside. *)
Definition pieceIn (p : tcpReceivedPiece) : Prop :=
  is_u32 (pc_sequence p) /\ pieceEnd next p <= windowLimit.

Definition spanEnd (p : tcpReceivedPiece) : Z :=
  pieceEnd next p + (if pc_fin p then 1 else 0).

Definition retains (pieces : list tcpReceivedPiece) (x : Z) : Prop :=
  Exists (fun p => offsetFrom next p <= x < spanEnd p) pieces.

Definition heldRange (pieces : list tcpReceivedPiece) (lo hi : Z) : Prop :=
  0 <= lo /\ lo <= hi /\ hi <= windowLimit + 1 /\ forall x, lo <= x < hi -> retains pieces x.

Lemma span_facts p : pieceIn p ->
  0 <= offsetFrom next p /\ offsetFrom next p <= spanEnd p /\ spanEnd p <= windowLimit + 1 /\
  pc_sequence p = next ⊞ offsetFrom next p /\ pieceRight p = next ⊞ spanEnd p.
Proof.
  intros [Hs He]. pose proof (u32_range (pc_sequence p - next)) as []. pose proof (zlen_nonneg (pc_payload p)).
  unfold spanEnd, pieceEnd, offsetFrom in *. split_and!; [lia|destruct (pc_fin p); lia..| |].
  - by apply seq_offset.
  - unfold pieceRight. clear. destruct (pc_fin p); word.
Qed.

Lemma greater_at a b :
  -2147483648 < a - b < 2147483648 -> tcpSequenceGreater (next ⊞ a) (next ⊞ b) = (b <? a).
Proof. intros H. unfold tcpSequenceGreater. apply less_offsets. lia. Qed.

Lemma less_base d :
  -2147483648 < d < 2147483648 ->
  tcpSequenceLess (next ⊞ d) next = (d <? 0) /\ tcpSequenceGreater (next ⊞ d) next = (0 <? d).
Proof.
  intros Hd. unfold tcpSequenceGreater.
  pose proof (less_offsets next d 0 ltac:(lia)) as H1. pose proof (less_offsets next 0 d ltac:(lia)) as H2.
  rewrite Z.add_0_r, (u32_id next Hnext) in H1, H2. done.
Qed.

(** The scan upwards extends a held range and passes only ranges it covers. *)
Lemma extendForward_ok rest r index :
  Forall pieceIn rest -> 0 <= r <= windowLimit + 1 ->
  exists r' n, extendForward (next ⊞ r) rest index = (next ⊞ r', index + n) /\
    r <= r' <= windowLimit + 1 /\ 0 <= n <= zlen rest /\
    (forall x, r <= x < r' -> retains rest x) /\
    (forall x, retains rest x -> x < r' \/ retains (drop (Z.to_nat n) rest) x).
Proof.
  revert r index. induction rest as [|p rest IH]; intros r index Hp Hr.
  - exists r, 0. cbn [extendForward]. rewrite Z.add_0_r. pose proof (zlen_nonneg (@nil tcpReceivedPiece)).
    split_and!; [done|lia..| |auto]. intros x; lia.
  - apply Forall_cons_iff in Hp as [Hp Hps].
    destruct (span_facts p Hp) as (? & ? & ? & Es & Er). pose proof (zlen_nonneg rest).
    cbn [extendForward]. rewrite Es, Er, !greater_at by (unfold windowLimit in *; lia).
    destruct (r <? offsetFrom next p) eqn:E.
    + exists r, 0. rewrite Z.add_0_r, zlen_cons. split_and!; [done|lia..| |auto]. intros x; lia.
    + replace (if _ : bool then _ else _) with (next ⊞ Z.max r (spanEnd p))
        by (split_ifs; do 2 f_equal; lia).
      destruct (IH (Z.max r (spanEnd p)) (index + 1) Hps ltac:(lia)) as (r' & n & E' & ? & ? & Hc & Hk).
      exists r', (1 + n). rewrite E', zlen_cons. split_and!; [f_equal; lia|lia..| |].
      * intros x Hx. unfold retains. rewrite Exists_cons.
        destruct (decide (x < spanEnd p)); [left; lia|right]. apply Hc. lia.
      * intros x. unfold retains. rewrite Exists_cons. replace (Z.to_nat (1 + n)) with (S (Z.to_nat n)) by lia.
        cbn [drop]. intros [Hx|Hx]; [left; lia|]. apply (Hk x Hx).
Qed.

(** The scan downwards over pieces in order, nearest first. *)
Lemma extendBackward_ok before lo hi index :
  Forall pieceIn before -> 0 <= lo -> lo <= hi -> hi <= windowLimit + 1 ->
  StronglySorted (fun p q => offsetFrom next q <= offsetFrom next p) before ->
  Forall (fun p => offsetFrom next p <= lo) before ->
  exists lo' hi' n, extendBackward (next ⊞ lo) (next ⊞ hi) before index
                    = (next ⊞ lo', next ⊞ hi', index - n) /\
    0 <= lo' /\ lo' <= lo /\ hi <= hi' /\ hi' <= windowLimit + 1 /\ 0 <= n <= zlen before /\
    (forall x, lo' <= x < hi' -> lo <= x < hi \/ retains before x).
Proof.
  revert lo hi index. induction before as [|p before IH]; intros lo hi index Hp Hlo Hle Hhi Hs Hb.
  - exists lo, hi, 0. cbn [extendBackward]. rewrite Z.sub_0_r. pose proof (zlen_nonneg (@nil tcpReceivedPiece)).
    split_and!; try done; try lia; auto.
  - apply Forall_cons_iff in Hp as [Hp Hps]. apply Forall_cons_iff in Hb as [Hb _].
    inversion_clear Hs as [|? ? Hs' Hps'].
    destruct (span_facts p Hp) as (? & ? & ? & Es & Er). pose proof (zlen_nonneg before).
    cbn [extendBackward]. rewrite Es, Er, !greater_at by (unfold windowLimit in *; lia).
    destruct (spanEnd p <? lo) eqn:E.
    + exists lo, hi, 0. rewrite Z.sub_0_r, zlen_cons. split_and!; try done; try lia; auto.
    + replace (if _ : bool then _ else _) with (next ⊞ Z.max hi (spanEnd p))
        by (split_ifs; do 2 f_equal; lia).
      destruct (IH (offsetFrom next p) (Z.max hi (spanEnd p)) (index - 1))
        as (lo' & hi' & n & E' & ? & ? & ? & ? & ? & Hc); [done|lia..|done|done|].
      exists lo', hi', (1 + n). rewrite E', zlen_cons. split_and!; [f_equal; lia|lia..|].
      intros x Hx. unfold retains. rewrite Exists_cons.
      destruct (Hc x Hx) as [?|?]; [|by right; right].
      destruct (decide (lo <= x < hi)); [by left|]. right. left. lia.
Qed.
Definition heldBlock (pieces : list tcpReceivedPiece) (b : TCPSACKBlock) : Prop :=
  exists lo hi, b = mkBlock (next ⊞ lo) (next ⊞ hi) /\ heldRange pieces lo hi.

Definition inOrder (pieces : list tcpReceivedPiece) : Prop :=
  Forall pieceIn pieces /\
  StronglySorted (fun p q => offsetFrom next p <= offsetFrom next q) pieces.

Lemma retains_mid pre p rest x :
  retains (pre ++ p :: rest) x <->
  retains pre x \/ offsetFrom next p <= x < spanEnd p \/ retains rest x.
Proof. unfold retains. by rewrite Exists_app, Exists_cons. Qed.

Lemma sorted_mid {A} (R : A -> A -> Prop) pre p rest :
  StronglySorted R (pre ++ p :: rest) ->
  StronglySorted (fun a b => R b a) (rev pre) /\ Forall (fun q => R q p) (rev pre) /\
  Forall (R p) rest.
Proof.
  induction pre as [|q pre IH]; cbn [app rev]; intros H; inversion_clear H as [|? ? Hs Hq].
  - split_and!; [constructor|constructor|done].
  - destruct (IH Hs) as (H1 & H2 & H3). apply Forall_app in Hq as [Hq Hq'].
    apply Forall_cons_iff in Hq' as [Hqp _].
    split_and!; [|apply Forall_app; split; [done|by constructor]|done].
    clear -H1 Hq. apply Forall_rev in Hq. revert H1 Hq.
    induction (rev pre) as [|a l IH]; intros H1 Hq; [by repeat constructor|].
    inversion_clear H1 as [|? ? Hs Ha]. apply Forall_cons_iff in Hq as [Hqa Hq]. cbn [app].
    constructor; [by apply IH|]. apply Forall_app. split; [done|by constructor].
Qed.

Lemma forward_ok pre p rest :
  inOrder (pre ++ p :: rest) ->
  exists b n, tcpReceivedSACKBlockForward (pre ++ p :: rest) (zlen pre) = Some (b, zlen pre + n) /\
    0 < n <= zlen (p :: rest) /\ heldBlock (pre ++ p :: rest) b /\
    forall x, retains (p :: rest) x ->
      leftOf next b <= x < rightOf next b \/ retains (drop (Z.to_nat n) (p :: rest)) x.
Proof.
  intros [Hp Hs]. apply Forall_app in Hp as [_ Hp]. apply Forall_cons_iff in Hp as [Hp Hps].
  apply sorted_mid in Hs as (_ & _ & Hs).
  destruct (span_facts p Hp) as (? & ? & ? & Es & Er). pose proof (zlen_nonneg pre).
  unfold tcpReceivedSACKBlockForward. rewrite idx_at. cbn [mbind option_bind].
  replace (drop _ _) with rest.
  2: { replace (Z.to_nat (zlen pre + 1)) with (length pre + 1)%nat by (unfold zlen; lia).
       by rewrite drop_app_add. }
  destruct (extendForward_ok rest (spanEnd p) (zlen pre + 1) Hps ltac:(lia))
    as (r' & n & E & ? & ? & Hc & Hk).
  rewrite Er, E, Es. exists (mkBlock (next ⊞ offsetFrom next p) (next ⊞ r')), (1 + n).
  split_and!; [do 2 f_equal; lia|lia|rewrite zlen_cons; lia| |].
  - exists (offsetFrom next p), r'. split; [done|]. split_and!; [lia..|].
    intros x Hx. rewrite retains_mid. right.
    destruct (decide (x < spanEnd p)); [left; lia|right]. apply Hc. lia.
  - intros x Hx. unfold leftOf, rightOf. cbn [LeftEdge RightEdge].
    replace (_ ⊟ next) with (offsetFrom next p) by (unfold offsetFrom; clear; word).
    replace (next ⊞ r' ⊟ next) with r' by (unfold windowLimit in *; word).
    replace (Z.to_nat (1 + n)) with (S (Z.to_nat n)) by lia. cbn [drop].
    unfold retains in Hx. rewrite Exists_cons in Hx. destruct Hx as [Hx|Hx]; [left; lia|].
    destruct (Hk x Hx) as [Hx'|Hx']; [left|by right]. split; [|done].
    apply Exists_exists in Hx as (q & Hq & Hx). rewrite Forall_forall in Hs.
    specialize (Hs q Hq). simpl in Hs. lia.
Qed.

Lemma backward_ok pre p rest :
  inOrder (pre ++ p :: rest) ->
  exists b n, tcpReceivedSACKBlockBackward (pre ++ p :: rest) (zlen pre) = Some (b, zlen pre - n) /\
    0 < n <= zlen pre + 1 /\ heldBlock (pre ++ p :: rest) b.
Proof.
  intros [Hp Hs]. apply Forall_app in Hp as [Hpre Hp]. apply Forall_cons_iff in Hp as [Hp Hps].
  apply sorted_mid in Hs as (Hs & Hle & _).
  destruct (span_facts p Hp) as (? & ? & ? & Es & Er).
  unfold tcpReceivedSACKBlockBackward. rewrite idx_at. cbn [mbind option_bind].
  replace (take _ _) with pre.
  2: { replace (Z.to_nat (zlen pre)) with (length pre) by (unfold zlen; lia). by rewrite take_app_length. }
  destruct (extendBackward_ok (rev pre) (offsetFrom next p) (spanEnd p) (zlen pre - 1))
    as (lo & hi & n & E & ? & ? & ? & ? & ? & Hc); [by apply Forall_rev|lia..|done|done|].
  assert (zlen (rev pre) = zlen pre) as El by (unfold zlen; by rewrite length_rev).
  rewrite <- Es, <- Er in E. rewrite E. exists (mkBlock (next ⊞ lo) (next ⊞ hi)), (1 + n).
  split_and!; [do 2 f_equal; lia|lia|lia|].
  exists lo, hi. split; [done|]. split_and!; [lia..|].
  intros x Hx. rewrite retains_mid. destruct (Hc x Hx) as [?|Hr]; [right; left; lia|].
  left. unfold retains in *. apply Exists_rev in Hr. by rewrite rev_involutive in Hr.
Qed.
Lemma split_at {A} (l : list A) i :
  0 <= i < zlen l -> exists pre x rest, l = pre ++ x :: rest /\ zlen pre = i.
Proof.
  intros Hi. destruct (lookup_lt_is_Some_2 l (Z.to_nat i)) as [x Hx]; [unfold zlen in *; lia|].
  exists (take (Z.to_nat i) l), x, (drop (S (Z.to_nat i)) l). split; [by rewrite take_drop_middle|].
  rewrite zlen_take. lia.
Qed.

Lemma block_test pieces b x :
  heldBlock pieces b -> 0 <= x <= windowLimit ->
  tcpSequenceGreaterEqual (next ⊞ x) (LeftEdge b) && tcpSequenceLess (next ⊞ x) (RightEdge b)
  = (leftOf next b <=? x) && (x <? rightOf next b).
Proof.
  intros (lo & hi & -> & Hlo & Hle & Hhi & _) Hx. unfold leftOf, rightOf. cbn [LeftEdge RightEdge].
  unfold tcpSequenceGreaterEqual. rewrite !less_offsets by (unfold windowLimit in *; lia).
  replace (next ⊞ lo ⊟ next) with lo by (unfold windowLimit in *; word).
  replace (next ⊞ hi ⊟ next) with hi by (unfold windowLimit in *; word).
  destruct (x <? hi); [|by rewrite !andb_false_r]. destruct (lo <=? x) eqn:E; simpl; lia.
Qed.

(** The range reported first holds the segment that triggered the report. *)
Lemma recent_ok pieces x :
  inOrder pieces -> 0 <= x <= windowLimit ->
  exists r, loop (S (length pieces)) (recentBody pieces (next ⊞ x)) 0 = Some r /\
    (forall b, r = Some b -> heldBlock pieces b /\ leftOf next b <= x < rightOf next b) /\
    (retains pieces x -> r <> None).
Proof.
  intros Ho Hx.
  apply (loop_total
    (fun i => 0 <= i /\ (retains pieces x -> retains (drop (Z.to_nat i) pieces) x))
    (fun i => Z.to_nat (zlen pieces - i))
    (fun r => (forall b, r = Some b -> heldBlock pieces b /\ leftOf next b <= x < rightOf next b) /\
              (retains pieces x -> r <> None))); [|by cbn|unfold zlen; lia].
  intros i [Hi Hr]. unfold recentBody. destruct (i <? zlen pieces) eqn:Ei.
  - destruct (split_at pieces i) as (pre & p & rest & -> & <-); [lia|].
    destruct (forward_ok pre p rest Ho) as (b & n & E & Hn & Hb & Hk).
    rewrite E. cbn [mbind option_bind]. rewrite (block_test _ b x Hb Hx).
    replace (drop (Z.to_nat (zlen pre)) _) with (p :: rest) in Hr
      by (unfold zlen; rewrite Nat2Z.id; by rewrite drop_app_length).
    destruct ((leftOf next b <=? x) && _) eqn:Et; eexists; (split; [done|]).
    + split; [|done]. intros c [= <-]. split; [done|lia].
    + split; [|unfold zlen in *; lia]. split; [lia|]. intros H.
      destruct (Hk x (Hr H)) as [?|H']; [lia|].
      rewrite Z2Nat.inj_add by (pose proof (zlen_nonneg pre); lia).
      unfold zlen at 1. rewrite Nat2Z.id, drop_app_add. done.
  - eexists. split; [done|]. split; [done|]. intros H. specialize (Hr H).
    rewrite drop_ge in Hr by (unfold zlen in *; lia). by apply Exists_nil in Hr.
Qed.

(** The remaining ranges are held, and what was placed first stays first. *)
Lemma older_ok pieces recentBlock maximumBlocks (init : list TCPSACKBlock) :
  inOrder pieces ->
  exists ordered, loop (S (length pieces)) (olderBody pieces recentBlock maximumBlocks)
                    (zlen pieces - 1, init) = Some (init ++ ordered) /\
    Forall (heldBlock pieces) ordered /\ zlen (init ++ ordered) <= Z.max (zlen init) maximumBlocks.
Proof.
  intros Ho.
  destruct (loop_total
    (fun s => -1 <= fst s < zlen pieces /\ exists ordered, snd s = init ++ ordered /\
       Forall (heldBlock pieces) ordered /\ zlen (snd s) <= Z.max (zlen init) maximumBlocks)
    (fun s => Z.to_nat (fst s + 1))
    (fun r => exists ordered, r = init ++ ordered /\
       Forall (heldBlock pieces) ordered /\ zlen r <= Z.max (zlen init) maximumBlocks)
    (olderBody pieces recentBlock maximumBlocks))
    with (fuel := S (length pieces)) (s := (zlen pieces - 1, init))
    as (r & E & ordered & -> & H1 & H2).
  - intros [i l] [Hi H]. cbn [fst snd] in *. destruct H as (ordered & -> & Hf & Hm). unfold olderBody.
    destruct ((0 <=? i) && _) eqn:Et; [|eexists; split; [done|]; by exists ordered].
    destruct (split_at pieces i) as (pre & p & rest & -> & <-); [lia|].
    destruct (backward_ok pre p rest Ho) as (b & n & E & Hn & Hb). rewrite E.
    cbn [mbind option_bind]. pose proof (zlen_nonneg pre).
    destruct (match recentBlock with Some r => blockEqb b r | None => false end);
      (eexists; split; [done|]); cbn [fst snd]; (split; [|lia]); (split; [lia|]).
    + by exists ordered.
    + exists (ordered ++ [b]). rewrite app_assoc. split_and!; [done| |len].
      apply Forall_app. split; [done|]. by constructor.
  - cbn [fst snd]. pose proof (zlen_nonneg pieces). split; [lia|]. exists [].
    rewrite app_nil_r. split_and!; [done|constructor|lia].
  - cbn [fst]. unfold zlen. lia.
  - by exists ordered.
Qed.

Lemma disjoint_inOrder lo pieces :
  disjointFrom next lo pieces -> Forall pieceIn pieces -> inOrder pieces.
Proof.
  intros Hd Hp. split; [done|]. revert lo Hd. induction Hp as [|p l Hp Hl IH]; intros lo Hd; [constructor|].
  destruct Hd as [_ Hd]. constructor; [by apply (IH _ Hd)|]. clear IH.
  assert (offsetFrom next p <= pieceEnd next p) as Hge
    by (unfold pieceEnd; pose proof (zlen_nonneg (pc_payload p)); lia).
  revert Hd Hge. generalize (pieceEnd next p). intros e. revert e.
  induction Hl as [|q l Hq Hl IH]; intros e Hd Hge; [constructor|].
  destruct Hd as [Hd1 Hd2]. constructor; [lia|]. apply (IH _ Hd2).
  unfold pieceEnd. pose proof (zlen_nonneg (pc_payload q)). lia.
Qed.
(** The first overlap with a retained piece. *)
Lemma duplicateOverlap_ok a b pieces :
  Forall pieceIn pieces -> 0 <= a -> a <= b -> b < 2147483648 ->
  match duplicateOverlap next a b pieces with
  | Some block => exists lo hi, block = mkBlock (next ⊞ lo) (next ⊞ hi) /\
      a <= lo /\ lo < hi /\ hi <= b /\ forall x, lo <= x < hi -> retains pieces x
  | None => forall x, a <= x < b -> ~ retains pieces x
  end.
Proof.
  intros Hp Ha Hab Hb. induction Hp as [|p pieces Hp Hps IH]; cbn [duplicateOverlap].
  { intros x _ H. by apply Exists_nil in H. }
  destruct (span_facts p Hp) as (? & ? & ? & _ & _). fold (offsetFrom next p).
  replace (if pc_fin p then _ else _) with (spanEnd p).
  2: { unfold spanEnd in *. unfold pieceEnd in *. pose proof (zlen_nonneg (pc_payload p)).
       rewrite (u32_id (offsetFrom next p + zlen _)) by (unfold is_u32, windowLimit in *; destruct (pc_fin p); lia).
       destruct (pc_fin p); [rewrite u32_id; [done|unfold is_u32, windowLimit in *; lia]|lia]. }
  replace (if a <? _ then _ else _) with (Z.max a (offsetFrom next p)) by (split_ifs; lia).
  replace (if spanEnd p <? _ then _ else _) with (Z.min b (spanEnd p)) by (split_ifs; lia).
  destruct (_ <? _) eqn:E.
  - do 2 eexists. split_and!; [done|lia..|]. intros x Hx. left. lia.
  - destruct (duplicateOverlap next a b pieces) as [block|].
    + destruct IH as (lo & hi & -> & ? & ? & ? & Hx). exists lo, hi. split_and!; [done|lia..|].
      intros x Hr. right. by apply Hx.
    + intros x Hx H'. apply Exists_cons in H' as [H'|H']; [lia|by apply (IH x)].
Qed.
End Reports.

(** ** Properties *)

(** The SACK parser returns on every byte string, and what it returns is
    normalised: blocks inside the send window, in order, with a gap between
    neighbours. *)
Theorem sack_parse_normalized (options : list Z) (ack sendNext : Z) :
  bytes_ok options -> is_u32 ack -> sendNext ⊟ ack < 2147483648 ->
  exists merged, parseTCPSACKOptions options ack sendNext = Some merged /\
    Forall (inWindow ack (sendNext ⊟ ack)) merged /\ separated ack (-1) merged.
Proof.
  intros Hb Ha Hw. unfold parseTCPSACKOptions.
  destruct (walkOptions_total options
    (fun offset kind length blocks =>
       if sackShape kind length then
         blocks ← sackBlocksAt options (offset + 2) (Z.to_nat ((length - 2) / 8)) ack
                    (sendNext ⊟ ack) blocks;
         Some (inl blocks)
       else Some (inl blocks)) (fun blocks => blocks)
    (Forall (inWindow ack (sendNext ⊟ ack))) (Forall (inWindow ack (sendNext ⊟ ack))) [])
    as (blocks & -> & H); [done|constructor|done| |].
  - intros o kind n blocks Ho Hn Hl H. destruct (sackShape kind n) eqn:E; [|by eexists].
    destruct (sackBlocksAt_total ack (sendNext ⊟ ack) options (o + 2) (Z.to_nat ((n - 2) / 8)) blocks)
      as (blocks' & -> & H'); [done|lia|zlia|done|]. by eexists.
  - cbn [mbind option_bind]. destruct (mergeSorted_ok ack (sendNext ⊟ ack) Hw blocks H) as (m & [W S _ _ _]).
    by eexists.
Qed.

Lemma sack_parse_normalized_witness :
  exists merged,
    parseTCPSACKOptions [1; 5; 18; 0; 0; 0; 2; 0; 0; 0; 5; 255; 255; 255; 252; 0; 0; 0; 3] 4294967290 10
    = Some merged /\
    Forall (inWindow 4294967290 (10 ⊟ 4294967290)) merged /\ separated 4294967290 (-1) merged.
Proof.
  apply sack_parse_normalized; [|unfold is_u32; lia|vm_compute; reflexivity].
  repeat constructor; lia.
Defined.

(** C9. A SACK option of the peer is applied exactly: after parsing the option
    area and marking the scoreboard, the marked bytes are those that were marked
    and those of the reported blocks that lie in the send window; within the
    split budget none of them is missed. *)
Theorem sack_report_marks (timestamp : option (Z * Z)) (bs : list TCPSACKBlock) (padding : nat)
    (ack sendNext epoch : Z) (l : list sentTCPSegment) :
  Forall blockOk bs -> bs <> [] -> is_u32 ack -> contig ack 0 l ->
  total l = sendNext ⊟ ack -> total l <= maxFlight ->
  exists merged, parseTCPSACKOptions (optionArea timestamp bs padding) ack sendNext = Some merged /\
    let l' := sr_outstanding (fst (applyTCPSACK l merged epoch)) in
    let reported := sackCovers ack (List.filter (sackValid ack (sendNext ⊟ ack)) bs) in
    contig ack 0 l' /\ total l' = total l /\
    (forall x, sackedAt 0 l' x = true -> sackedAt 0 l x = true \/ reported x) /\
    (splitRangesOf l + 4 * zlen bs <= tcpMaximumSACKSplitRanges ->
     forall x, sackedAt 0 l x = true \/ reported x -> sackedAt 0 l' x = true).
Proof.
  intros Hb Hne Ha Hc Ht Hm. set (w := sendNext ⊟ ack) in *.
  set (valid := List.filter (sackValid ack w) bs).
  assert (zlen bs <> 0) as Hlen by (intros E; by apply zlen_zero in E). pose proof (zlen_nonneg bs).
  assert (Forall (inWindow ack w) valid) as Hv.
  { by apply valid_inWindow. }
  unfold parseTCPSACKOptions. fold w. rewrite (walk_area timestamp bs padding _ _ [] valid).
  2: { done. }
  2: { rewrite zlen_encodeBlocks. unfold sackShape. replace (_ && _ && _) with true by zlia.
       replace (Z.to_nat _) with (length bs) by (unfold zlen; zlia).
       unfold optionArea. 
       replace (zlen (timestampOf timestamp) + 2) with (zlen (timestampOf timestamp
         ++ [TCPHeaderOptionSACK; 2 + zlen (concat (map encodeBlock bs))])) by len.
       replace (timestampOf timestamp ++ _) with ((timestampOf timestamp
         ++ [TCPHeaderOptionSACK; 2 + zlen (concat (map encodeBlock bs))])
         ++ concat (map encodeBlock bs) ++ repeat TCPHeaderOptionEnd padding) by by rewrite <- app_assoc.
       by rewrite sackBlocksAt_encoded. }
  cbn [mbind option_bind]. eexists. split; [done|].
  destruct (mergeSorted_ok ack w ltac:(unfold maxFlight in *; lia) valid Hv) as (m & [W _ _ C N]).
  set (merged := fold_left _ _ _) in *.
  pose proof (fold_applyBlock_spec ack epoch (map (interval ack) merged) (total l)
    (mkSackResult l 0 false zeroRack []) true Hc eq_refl Hm
    (interval_inStream ack w ltac:(unfold maxFlight in *; lia) merged (total l) W (eq_sym Ht))) as (S1 & S2 & S3 & S4 & S5).
  rewrite (blockAt_intervals ack w) in S1, S2, S3, S4, S5 by done.
  split_and!; [done..| |]; clear S1 S2.
  - intros x Hx. destruct (S4 x Hx) as [|E]; [by left|]. right. apply C. by apply Exists_map in E.
  - intros Hbudget x [Hx|Hx]; [by apply S3|]. apply S5; [|by apply Exists_map, C].
    assert (zlen valid <= zlen bs) by (unfold zlen, valid; pose proof (filter_length_le (sackValid ack w) bs); lia).
    unfold zlen in *. rewrite length_map. cbn [sr_outstanding]. lia.
Qed.

Lemma sack_report_marks_witness :
  exists merged,
    parseTCPSACKOptions (optionArea (Some (7, 9)) [mkBlock 4294967100 904] 2) 4294967000 1705
    = Some merged /\
    let l' := sr_outstanding (fst (applyTCPSACK sampleFlight merged 0)) in
    let reported := sackCovers 4294967000
      (List.filter (sackValid 4294967000 (1705 ⊟ 4294967000)) [mkBlock 4294967100 904]) in
    contig 4294967000 0 l' /\ total l' = total sampleFlight /\
    (forall x, sackedAt 0 l' x = true -> sackedAt 0 sampleFlight x = true \/ reported x) /\
    (splitRangesOf sampleFlight + 4 * zlen [mkBlock 4294967100 904] <= tcpMaximumSACKSplitRanges ->
     forall x, sackedAt 0 sampleFlight x = true \/ reported x -> sackedAt 0 l' x = true).
Proof.
  apply sack_report_marks; try done.
  repeat constructor; done.
Defined.

Lemma syn_options_parse (mss windowScale value echo fallback maximum : Z)
    (sack windowScaling timestamp : bool) :
  is_u16 mss -> is_u8 windowScale -> is_u32 value -> is_u32 echo ->
  parseTCPOptions (tcpPassiveSYNOptions mss sack windowScaling timestamp windowScale value echo)
    fallback maximum
  = Some (mkSynOptions (clampMSS (if mss =? 0 then fallback else mss) maximum)
            (if windowScaling then Z.min windowScale 14 else 0) windowScaling sack timestamp
            (if timestamp then value else 0)) /\
  parseTCPTimestamp (tcpTimestampOptions value echo) = Some (Some (value, echo)) /\
  zlen (tcpPassiveSYNOptions mss sack windowScaling timestamp windowScale value echo) <= 22.
Proof.
  intros Hm Hs Hv He.
  assert (be_val [u8 (Z.shiftr mss 8); u8 mss] = mss) as Emss.
  { unfold be_val, u8. cbn [fold_left]. rewrite Z.shiftr_div_pow2 by done. unfold is_u16 in Hm. zlia. }
  assert (forall v, is_u32 v -> be_val (be_bytes 4 v) = v) as Hbe.
  { intros v H. rewrite be_val_be_bytes. by apply u32_id. }
  pose proof (Hbe value Hv) as Ev. pose proof (Hbe echo He) as Ee. clear Hbe.
  unfold tcpTimestampOptions, appendTCPTimestampOptions, tcpPassiveSYNOptions.
  cbn [be_bytes app] in *.
  generalize dependent (u8 (Z.shiftr mss 8)). intros m1. generalize dependent (u8 mss). intros m0 Emss.
  replace (Z.min windowScale 14) with (capScale windowScale) by (unfold capScale; split_ifs; lia).
  split_and!.
  - assert (be_val [m1; m0] = 0 /\ mss = 0 \/ exists p, be_val [m1; m0] = Zpos p /\ mss = Zpos p)
      as [[E ->]|(p & E & ->)].
    { unfold is_u16 in Hm. destruct mss as [|p|p]; [by left|right; by exists p|lia]. }
    all: destruct sack, windowScaling, timestamp; lazy -[be_val capScale clampMSS Z.modulo Z.div];
      rewrite ?E, ?Ev; reflexivity.
  - lazy -[be_val Z.modulo Z.div]. by rewrite Ev, Ee.
  - by destruct sack, windowScaling, timestamp.
Qed.

(** The options of a SYN survive the wire: parsing what
    [tcpPassiveSYNOptions] writes returns the announced MSS clamped to the local
    maximum (the fallback for an announced zero), the window scale capped at
    fourteen, and each extension exactly when it was offered; a timestamp option
    returns its value and echo. *)
Theorem syn_options_roundtrip (mss windowScale value echo fallback maximum : Z)
    (sack windowScaling timestamp : bool) :
  is_u16 mss -> is_u8 windowScale -> is_u32 value -> is_u32 echo ->
  parseTCPOptions (tcpPassiveSYNOptions mss sack windowScaling timestamp windowScale value echo)
    fallback maximum
  = Some (mkSynOptions (clampMSS (if mss =? 0 then fallback else mss) maximum)
            (if windowScaling then Z.min windowScale 14 else 0) windowScaling sack timestamp
            (if timestamp then value else 0)) /\
  parseTCPTimestamp (tcpTimestampOptions value echo) = Some (Some (value, echo)) /\
  zlen (tcpPassiveSYNOptions mss sack windowScaling timestamp windowScale value echo) <= 22.
Proof. apply syn_options_parse. Qed.

Lemma syn_options_roundtrip_witness :
  parseTCPOptions (tcpPassiveSYNOptions 1460 true true true 15 7 9) 536 1400
  = Some (mkSynOptions (clampMSS 1460 1400) (Z.min 15 14) true true true 7) /\
  parseTCPTimestamp (tcpTimestampOptions 7 9) = Some (Some (7, 9)) /\
  zlen (tcpPassiveSYNOptions 1460 true true true 15 7 9) <= 22.
Proof.
  apply (syn_options_roundtrip 1460 15 7 9 536 1400 true true true);
    unfold is_u16, is_u8, is_u32; lia.
Defined.

Ltac some_blocks :=
  cbn; repeat match goal with |- Forall _ (_ :: _) => apply Forall_cons_iff; split; [by auto|] end;
  constructor.

(** C39. What a receiver reports it holds: from every state of the receive path
    the SACK option is built without panic, has at most four and at most the
    allowed number of blocks, starts with the duplicate block when there is one,
    and every other block is a range of retained sequence space; the first
    ordinary block contains the segment that triggered the report when that is
    retained and there is room. *)
Theorem sack_report_sound (good : Z -> Z -> Prop) (gf : Z -> Prop) (rn : Z) (s : recvState)
    (x maximumBlocks : Z) (dsack : option TCPSACKBlock) :
  recvOk good gf rn s -> 0 <= x <= windowLimit ->
  exists ordered,
    tcpSACKOptions (rs_pieces s) (rs_next s ⊞ x) maximumBlocks dsack
    = Some (if zlen ordered =? 0 then []
            else [TCPHeaderOptionSACK; u8 (2 + 8 * zlen ordered)] ++ concat (map encodeBlock ordered)) /\
    zlen ordered <= Z.max 0 (Z.min maximumBlocks 4) /\
    Forall (fun b => dsack = Some b \/ heldBlock (rs_next s) (rs_pieces s) b) ordered /\
    (1 <= maximumBlocks -> forall d, dsack = Some d -> ordered !! 0%nat = Some d) /\
    (zlen (option_list dsack) < maximumBlocks -> retains (rs_next s) (rs_pieces s) x ->
     exists b, ordered !! length (option_list dsack) = Some b /\
               leftOf (rs_next s) b <= x < rightOf (rs_next s) b).
Proof.
  intros [Hn _ Hp Hd _] Hx. set (next := rs_next s) in *. set (pieces := rs_pieces s) in *.
  assert (inOrder next pieces) as Ho.
  { apply (disjoint_inOrder next 0); [done|]. eapply Forall_impl; [|exact Hp].
    intros p [H1 H2 _ _]. by split. }
  unfold tcpSACKOptions. destruct (maximumBlocks <? 1) eqn:E1.
  { exists []. split_and!; [done|len|constructor|lia|]. pose proof (zlen_nonneg (option_list dsack)). lia. }
  destruct (recent_ok next Hn pieces x Ho Hx) as (r & -> & Hr & Hsome). cbn [mbind option_bind].
  set (maxB := if 4 <? maximumBlocks then 4 else maximumBlocks).
  assert (maxB = Z.min maximumBlocks 4) as Emax by (unfold maxB; split_ifs; lia). clearbody maxB.
  set (init := match r with Some _ => _ | None => _ end).
  assert (zlen init <= maxB /\ Forall (fun b => dsack = Some b \/ heldBlock next pieces b) init /\
    (forall d, dsack = Some d -> init !! 0%nat = Some d) /\
    (zlen (option_list dsack) < maximumBlocks -> retains next pieces x ->
     exists b, init !! length (option_list dsack) = Some b /\ leftOf next b <= x < rightOf next b))
    as (I1 & I2 & I3 & I4).
  { unfold init. destruct r as [b|].
    - destruct (Hr b eq_refl) as [Hb Hin].
      destruct dsack as [d|]; cbn [option_list app].
      + change (zlen [d]) with 1. destruct (1 <? maxB) eqn:E.
        * split_and!; [len|some_blocks|by intros ? [= ->]|by exists b].
        * change (zlen (option_list (Some d))) with 1.
          split_and!; [len|some_blocks|by intros ? [= ->]|intros; lia].
      + change (zlen []) with 0. destruct (0 <? maxB) eqn:E; [|lia].
        split_and!; [len|some_blocks|done|by exists b].
    - split_and!; [destruct dsack; len|destruct dsack; some_blocks|by intros ? ->|].
      intros _ H. by destruct (Hsome H). }
  destruct (older_ok next pieces r maxB init Ho) as (ordered & -> & Hf & Hm). cbn [mbind option_bind].
  exists (init ++ ordered). split_and!.
  - by split_ifs.
  - lia.
  - apply Forall_app. split; [done|]. eapply Forall_impl; [|exact Hf]. auto.
  - intros _ d Ed. apply lookup_app_l_Some. by apply I3.
  - intros H1 H2. destruct (I4 H1 H2) as (b & Hb & ?). exists b. split; [|done].
    by apply lookup_app_l_Some.
Qed.

(** A retained piece with a FIN behind a hole. *)
Lemma demo1_recvOk : recvOk (honest demoStream) (stops demoStream) 0 demo1.
Proof.
  assert (is_u32 4294967295) as Hi by (unfold is_u32; lia).
  by destruct (reach_ok _ _ _ _ _ _ _ _ Hi demo1_reach) as [H _ _ _ _ _ _ _ _]; apply (H eq_refl).
Qed.

Lemma sack_report_sound_witness :
  exists ordered,
    tcpSACKOptions (rs_pieces demo1) (rs_next demo1 ⊞ 2) 3 (Some (mkBlock 5 6))
    = Some (if zlen ordered =? 0 then []
            else [TCPHeaderOptionSACK; u8 (2 + 8 * zlen ordered)] ++ concat (map encodeBlock ordered)) /\
    zlen ordered <= Z.max 0 (Z.min 3 4) /\
    Forall (fun b => Some (mkBlock 5 6) = Some b \/ heldBlock (rs_next demo1) (rs_pieces demo1) b) ordered /\
    (1 <= 3 -> forall d, Some (mkBlock 5 6) = Some d -> ordered !! 0%nat = Some d) /\
    (1 < 3 -> retains (rs_next demo1) (rs_pieces demo1) 2 ->
     exists b, ordered !! 1%nat = Some b /\ leftOf (rs_next demo1) b <= 2 < rightOf (rs_next demo1) b).
Proof.
  apply (sack_report_sound _ _ _ demo1 2 3 (Some (mkBlock 5 6)) demo1_recvOk).
  unfold windowLimit. lia.
Defined.

(** A duplicate report is exact: for a segment in the receive window the
    reported range lies inside the segment and was received before (below
    RCV.NXT or retained), and nothing is reported only when no octet of the
    segment was received before. *)
Theorem duplicate_report_exact (good : Z -> Z -> Prop) (gf : Z -> Prop) (rn : Z) (s : recvState)
    (d payloadLength : Z) (fin : bool) :
  recvOk good gf rn s -> 0 <= payloadLength <= 65535 -> -1073741824 <= d <= 1073741824 ->
  let segmentEnd := d + payloadLength + (if fin then 1 else 0) in
  let received x := x < 0 \/ retains (rs_next s) (rs_pieces s) x in
  match tcpDuplicateSACKBlock (rs_next s ⊞ d) payloadLength fin (rs_next s) (rs_pieces s) with
  | Some b => exists lo hi, b = mkBlock (rs_next s ⊞ lo) (rs_next s ⊞ hi) /\
      d <= lo /\ lo < hi /\ hi <= segmentEnd /\ forall x, lo <= x < hi -> received x
  | None => forall x, d <= x < segmentEnd -> ~ received x
  end.
Proof.
  intros [Hn _ Hp _ _] Hl Hd segmentEnd received. set (next := rs_next s) in *.
  assert (Forall (pieceIn next) (rs_pieces s)) as Hps.
  { eapply Forall_impl; [|exact Hp]. intros p [H1 H2 _ _]. by split. }
  clear Hp. unfold tcpDuplicateSACKBlock.
  set (n := payloadLength + if fin then 1 else 0).
  replace (if fin then _ else _) with n
    by (unfold n; rewrite (u32_id payloadLength) by (unfold is_u32; lia);
        destruct fin; [rewrite u32_id by (unfold is_u32; lia)|]; lia).
  assert (segmentEnd = d + n /\ 0 <= n <= 65536) as [Es Hnn] by (unfold segmentEnd, n; destruct fin; lia).
  clearbody n segmentEnd. subst segmentEnd.
  destruct (n =? 0) eqn:E0; [intros x; lia|].
  replace (next ⊞ d ⊞ n) with (next ⊞ (d + n)) by (autorewrite with words; f_equal; lia).
  destruct (less_base next Hn d ltac:(lia)) as [-> _].
  destruct (less_base next Hn (d + n) ltac:(lia)) as [_ ->]. destruct (d <? 0) eqn:Ed.
  - replace (if 0 <? d + n then next else next ⊞ (d + n)) with (next ⊞ Z.min 0 (d + n)).
    2: { split_ifs; [|f_equal; lia]. rewrite Z.min_l by lia. rewrite Z.add_0_r. by apply u32_id. }
    rewrite greater_at by lia. replace (d <? Z.min 0 (d + n)) with true by lia.
    exists d, (Z.min 0 (d + n)). split_and!; [done|lia..|]. intros x Hx. left. lia.
  - replace (next ⊞ d ⊟ next) with d by word.
    replace (next ⊞ (d + n) ⊟ next) with (d + n) by word.
    replace (d + n <=? d) with false by lia.
    pose proof (duplicateOverlap_ok next d (d + n) (rs_pieces s) Hps ltac:(lia) ltac:(lia) ltac:(lia)) as H.
    destruct (duplicateOverlap _ _ _ _) as [b|].
    + destruct H as (lo & hi & -> & ? & ? & ? & Hx). exists lo, hi. split_and!; [done|lia..|].
      intros x Hr. right. by apply Hx.
    + intros x Hx [?|Hr]; [lia|]. by apply (H x).
Qed.

Lemma duplicate_report_exact_witness :
  exists lo hi,
    mkBlock 0 1 = mkBlock (rs_next demo1 ⊞ lo) (rs_next demo1 ⊞ hi) /\
    0 <= lo /\ lo < hi /\ hi <= 0 + 2 + 0 /\
    forall x, lo <= x < hi -> x < 0 \/ retains (rs_next demo1) (rs_pieces demo1) x.
Proof.
  apply (duplicate_report_exact _ _ _ demo1 0 2 false demo1_recvOk); lia.
Defined.

(** What a DSACK verdict promises about its block. *)
Definition dsackOk (acknowledged sendNext history : Z) (b : TCPSACKBlock) : Prop :=
  blockOk b /\ tcpSequenceLess (LeftEdge b) (RightEdge b) = true /\
  (tcpSequenceLessEqual (RightEdge b) acknowledged = true /\ acknowledged ⊟ LeftEdge b <= history \/
   tcpSequenceLessEqual (RightEdge b) acknowledged = false /\
   exists c, inWindow acknowledged (sendNext ⊟ acknowledged) c /\
     LeftEdge b ⊟ LeftEdge c < RightEdge c ⊟ LeftEdge c /\
     RightEdge b ⊟ LeftEdge c <= RightEdge c ⊟ LeftEdge c).

Lemma dsackVerdict_ok options offset length ack sendNext history :
  bytes_ok options -> 0 <= offset -> 10 <= length -> offset + length <= zlen options ->
  exists v, dsackVerdict options offset length ack sendNext history = Some v /\
            forall b, v = Some b -> dsackOk ack sendNext history b.
Proof.
  intros Hb Ho Hn Hl. unfold dsackVerdict, dsackOk.
  destruct (be32_total options (offset + 2)) as [l El]; [lia..|].
  destruct (be32_total options (offset + 6)) as [r Er]; [lia..|].
  pose proof (be32_range _ _ _ Hb El). pose proof (be32_range _ _ _ Hb Er).
  rewrite El, Er. cbn [mbind option_bind]. destruct (tcpSequenceLess l r) eqn:E1; cbn [negb]; [|by eexists].
  destruct (tcpSequenceLessEqual r ack) eqn:E2.
  { eexists. split; [done|]. intros b. destruct (_ <=? _) eqn:E; [|done]. intros [= <-]. cbn [LeftEdge RightEdge].
    split_and!; [done..|]. left. split; [done|lia]. }
  destruct (18 <=? length) eqn:E3; [|by eexists].
  destruct (be32_total options (offset + 10)) as [l2 El2]; [lia..|].
  destruct (be32_total options (offset + 14)) as [r2 Er2]; [lia..|].
  pose proof (be32_range _ _ _ Hb El2). pose proof (be32_range _ _ _ Hb Er2).
  rewrite El2, Er2. cbn [mbind option_bind]. eexists. split; [done|]. intros b.
  destruct (_ && _) eqn:E; [|done]. intros [= <-]. cbn [LeftEdge RightEdge]. split_and!; [done..|].
  right. split; [done|]. exists (mkBlock l2 r2). unfold inWindow, leftOf, rightOf. cbn [LeftEdge RightEdge].
  pose proof (u32_range (l2 - ack)) as []. split_and!; [done|lia..].
Qed.

(** What [parseTCPOptions] returns. *)
Definition synOptionsOk (maximum : Z) (o : synOptions) : Prop :=
  0 <= so_scale o <= 14 /\ so_mss o <= maximum /\ is_u32 (so_timestampValue o) /\
  (so_windowScaling o = false -> so_scale o = 0) /\
  (so_timestamp o = false -> so_timestampValue o = 0).

Lemma parseTCPOptions_ok options fallback maximum :
  bytes_ok options -> exists o, parseTCPOptions options fallback maximum = Some o /\ synOptionsOk maximum o.
Proof.
  intros Hb. unfold synOptionsOk.
  unfold parseTCPOptions.
  set (I := fun o => 0 <= so_scale o <= 14 /\ is_u32 (so_timestampValue o) /\
    (so_windowScaling o = false -> so_scale o = 0) /\
    (so_timestamp o = false -> so_timestampValue o = 0)).
  destruct (walkOptions_total options (handleSYNOption options) (fun o => o) I I
    (mkSynOptions fallback 0 false false false 0)) as (o & -> & H); [done| |done| |].
  - unfold I. cbn. unfold is_u32. split_and!; done || lia.
  - intros o k n st Ho Hn Hl Hi. unfold handleSYNOption.
    destruct (k =? TCPHeaderOptionMSS).
    { destruct (n =? 4) eqn:En; [|by eexists].
      destruct (be16_total options (o + 2)) as [m ->]; [lia..|]. eexists. split; [done|].
      by destruct (negb _). }
    destruct (k =? TCPHeaderOptionWindowScale).
    { destruct (n =? 3) eqn:En; [|by eexists].
      destruct (idx_some options (o + 2)) as [c Ec]; [lia|]. pose proof (idx_u8 _ _ _ Hb Ec) as [].
      rewrite Ec. eexists. split; [done|]. unfold I in *. cbn. unfold capScale.
      destruct Hi as (? & ? & ? & ?). split_and!; try done; split_ifs; lia. }
    destruct (k =? TCPHeaderOptionSACKPermitted); [eexists; by split|].
    destruct (k =? TCPHeaderOptionTimestamp); [|by eexists].
    destruct (n =? 10) eqn:En; [|by eexists].
    destruct (be32_total options (o + 2)) as [v Ev]; [lia..|]. pose proof (be32_range _ _ _ Hb Ev).
    rewrite Ev. eexists. split; [done|]. unfold I in *. cbn. by destruct Hi as (? & ? & ? & ?).
  - cbn [mbind option_bind]. eexists. split; [done|]. destruct H as (? & ? & ? & ?).
    cbn. split_and!; try done; try lia. unfold clampMSS. split_ifs; lia.
Qed.

Lemma parseTCPTimestamp_ok options :
  bytes_ok options ->
  exists v, parseTCPTimestamp options = Some v /\
    forall value echo, v = Some (value, echo) -> is_u32 value /\ is_u32 echo.
Proof.
  intros Hb.
  apply (walkOptions_total options _ _ (fun _ => True)); try done.
  intros o k n st Ho Hn Hl _. destruct (_ && _) eqn:E; [|by eexists].
  destruct (be32_total options (o + 2)) as [v Ev]; [lia..|].
  destruct (be32_total options (o + 6)) as [e Ee]; [lia..|].
  rewrite Ev, Ee. eexists. split; [done|]. intros ? ? [= <- <-].
  split; by eapply be32_range.
Qed.

Lemma parseTCPDSACKOption_ok options ack sendNext history :
  bytes_ok options ->
  exists v, parseTCPDSACKOption options ack sendNext history = Some v /\
    forall b, v = Some b -> dsackOk ack sendNext history b.
Proof.
  intros Hb.
  apply (walkOptions_total options _ _ (fun _ => True)); try done.
  intros o k n st Ho Hn Hl _. destruct (sackShape k n) eqn:E; [|by eexists].
  unfold sackShape in E.
  destruct (dsackVerdict_ok options o n ack sendNext history) as (v & -> & Hv); [done|lia..|].
  by eexists.
Qed.

(** The option parsers accept any bytes: none of them panics, a window
    scale is at most fourteen, an MSS respects the local maximum, timestamps are
    32-bit words, and a DSACK block is either acknowledged data within the
    history or lies inside a block of the send window. *)
Theorem option_parsers_safe (options : list Z) (fallback maximum ack sendNext history : Z) :
  bytes_ok options ->
  (exists o, parseTCPOptions options fallback maximum = Some o /\
     0 <= so_scale o <= 14 /\ so_mss o <= maximum /\ is_u32 (so_timestampValue o) /\
     (so_windowScaling o = false -> so_scale o = 0) /\
     (so_timestamp o = false -> so_timestampValue o = 0)) /\
  (exists v, parseTCPTimestamp options = Some v /\
     forall value echo, v = Some (value, echo) -> is_u32 value /\ is_u32 echo) /\
  (exists v, parseTCPDSACKOption options ack sendNext history = Some v /\
     forall b, v = Some b -> dsackOk ack sendNext history b).
Proof.
  intros Hb. split_and!.
  - by apply parseTCPOptions_ok.
  - by apply parseTCPTimestamp_ok.
  - by apply parseTCPDSACKOption_ok.
Qed.

Lemma option_parsers_safe_witness :
  (exists o, parseTCPOptions [2; 4; 5; 180; 3; 3; 20; 8; 255] 536 1400 = Some o /\
     0 <= so_scale o <= 14 /\ so_mss o <= 1400 /\ is_u32 (so_timestampValue o) /\
     (so_windowScaling o = false -> so_scale o = 0) /\
     (so_timestamp o = false -> so_timestampValue o = 0)) /\
  (exists v, parseTCPTimestamp [2; 4; 5; 180; 3; 3; 20; 8; 255] = Some v /\
     forall value echo, v = Some (value, echo) -> is_u32 value /\ is_u32 echo) /\
  (exists v, parseTCPDSACKOption [2; 4; 5; 180; 3; 3; 20; 8; 255] 5 10 3 = Some v /\
     forall b, v = Some b -> dsackOk 5 10 3 b).
Proof.
  apply (option_parsers_safe [2; 4; 5; 180; 3; 3; 20; 8; 255] 536 1400 5 10 3).
  repeat constructor; lia.
Defined.

(** The number of SACK blocks is the largest that fits: the IP and TCP
    headers, the timestamps, the option with that many blocks and the reserved
    payload stay within the MTU and the forty bytes of option space, and one
    block more would not. *)
Theorem sack_block_limit_maximal (mtu : Z) (address : Addr) (timestamp : bool) (reserve : Z) :
  let limit := tcpSACKBlockLimit mtu address timestamp reserve in
  let size n := align4 ((if timestamp then 12 else 0) + 2 + 8 * n) in
  let room := Z.min 40 (mtu - (if is4 address then 20 else 40) - 20 - reserve) in
  0 <= limit <= 4 /\
  (0 < limit -> size limit <= room) /\
  (forall n, limit < n -> room < size n).
Proof.
  intros limit size room.
  assert (forall n, 0 <= n -> (if timestamp then 12 else 0) + 2 + 8 * n <= size n) as Hsize.
  { intros n Hn. unfold size. destruct timestamp; apply align4_spec; lia. }
  unfold limit, tcpSACKBlockLimit. set (budget := mtu - _ - _ - _).
  replace (if 40 <? budget then 40 else budget) with room
    by (unfold room, budget; change tcpHeaderSize with 20; split_ifs; lia).
  assert (room <= 40) as Hroom by (unfold room; lia). clearbody room. clear budget.
  destruct (room <? 0) eqn:E0.
  { split_and!; [lia..|]. intros n Hn. specialize (Hsize n ltac:(lia)). destruct timestamp; lia. }
  assert (size 1 = if timestamp then 24 else 12) as S1 by (unfold size; by destruct timestamp).
  assert (size 2 = if timestamp then 32 else 20) as S2 by (unfold size; by destruct timestamp).
  assert (size 3 = if timestamp then 40 else 28) as S3 by (unfold size; by destruct timestamp).
  assert (size 4 = if timestamp then 48 else 36) as S4 by (unfold size; by destruct timestamp).
  assert (forall n, 4 < n -> 42 <= size n) as S5
    by (intros n Hn; specialize (Hsize n ltac:(lia)); destruct timestamp; lia).
  assert (forall n, 0 < n -> n = 1 \/ n = 2 \/ n = 3 \/ n = 4 \/ 4 < n) as Hcases by lia.
  clearbody size. clear Hsize.
  destruct timestamp; cbn [sackLimitLoop]; 
    repeat match goal with |- context [align4 ?e <=? room] =>
      let v := eval vm_compute in (align4 e) in change (align4 e) with v end;
    split_ifs; lazy [Z.of_nat Pos.of_succ_nat Pos.succ]; split_and!; try lia; intros;
    try (match goal with H : _ < ?n |- _ < size ?n =>
      destruct (Hcases n ltac:(lia)) as [->|[->|[->|[->|?H]]]]; try lia; specialize (S5 n); lia end).
Qed.
