(* ===== verification/Fragment.v ===== *)
(** * Fragment planning and reassembly

    The part of [fragment.go] that is independent of the wire format:
    [fragmentRangeCursor], which cuts a payload into fragment ranges, and
    [ipPacketReassemblyState], the single-datagram machine shared by the public
    reassembler and the stack's fragment table. *)

From stdpp Require Import strings.
From S2P Require Import Prelude Addr Checksum.

(** ** Planning *)

Definition fragmentMaximumDatagram : Z := 65535.

Record fragmentRangeCursor := mkCursor {
  cu_total : Z;
  cu_capacity : Z;
  cu_alignedCapacity : Z;
  cu_offset : Z }.

Definition newFragmentRangeCursor (total capacity : Z) : option fragmentRangeCursor :=
  let alignedCapacity := Z.ldiff capacity 7 in
  if (total <=? 0) || (alignedCapacity <? 8) then None
  else Some (mkCursor total capacity alignedCapacity 0).

Record fragmentRange := mkRange { fr_offset : Z; fr_size : Z; fr_more : bool }.

(** [None] is the result [ok = false]. *)
Definition cursorNext (c : fragmentRangeCursor) : option (fragmentRange * fragmentRangeCursor) :=
  if cu_total c <=? cu_offset c then None
  else
    let offset := cu_offset c in
    let size := cu_total c - offset in
    let size := if cu_capacity c <? size then cu_alignedCapacity c else size in
    Some (mkRange offset size (cu_offset c + size <? cu_total c),
          mkCursor (cu_total c) (cu_capacity c) (cu_alignedCapacity c) (cu_offset c + size)).

(** The loop every caller runs: [next] until it reports the end. *)
Definition cursorBody (s : fragmentRangeCursor * list fragmentRange)
    : option (fragmentRangeCursor * list fragmentRange + list fragmentRange) :=
  let '(c, out) := s in
  match cursorNext c with
  | None => Some (inr out)
  | Some (r, c) => Some (inl (c, out ++ [r]))
  end.

Definition fragmentRanges (c : fragmentRangeCursor) : option (list fragmentRange) :=
  loop (S (Z.to_nat (cu_total c))) cursorBody (c, []).

(** ** State of one datagram *)

Record fragmentPiece := mkFragmentPiece { fp_offset : Z; fp_data : list Z }.

(** A validated fragment. The flag [owned] only decides whether the machine
    copies the bytes it keeps and has no field. *)
Record ipPacketReassemblyFragment := mkFragment {
  fg_source : Addr;
  fg_target : Addr;
  fg_protocol : Z;
  fg_offset : Z;
  fg_more : bool;
  fg_payload : list Z;
  fg_identifier : Z;
  fg_v6 : bool;
  fg_ecn : Z;
  fg_maximum : Z;
  fg_packetSize : Z;
  fg_df : bool;
  fg_header : list Z;
  fg_nextHeader : Z;
  fg_original : list Z }.

(** The parts of the state that a fragment changes together are grouped: the
    datagram's identity, its progress, and what the first fragment supplies. *)
Record ipPacketReassemblyState := mkReassembly {
  ra_source : Addr;
  ra_target : Addr;
  ra_identifier : Z;
  ra_v6 : bool;
  ra_pieces : list fragmentPiece;
  ra_total : Z;
  ra_bytes : Z;
  ra_ecnMask : Z;
  ra_maxSize : Z;
  ra_maxDFSize : Z;
  ra_protocol : Z;
  ra_maximum : Z;
  ra_nextHeader : Z;
  ra_header : list Z;
  ra_firstPacket : list Z }.

Definition startReassembly (f : ipPacketReassemblyFragment) : ipPacketReassemblyState :=
  mkReassembly (fg_source f) (fg_target f) (fg_identifier f) (fg_v6 f) [] (-1) 0
    (u8 (Z.shiftl 1 (fg_ecn f))) 0 0 (fg_protocol f)
    (if fg_v6 f || (fg_offset f =? 0) then fg_maximum f else fragmentMaximumDatagram - 20) 0 [] [].

Definition reassemblyMatches (r : ipPacketReassemblyState) (f : ipPacketReassemblyFragment) : bool :=
  Bool.eqb (ra_v6 r) (fg_v6 f) && bool_decide (ra_source r = fg_source f)
  && bool_decide (ra_target r = fg_target f) && (ra_identifier r =? fg_identifier f)
  && (ra_v6 r || (ra_protocol r =? fg_protocol f)).

Definition withTotal (r : ipPacketReassemblyState) (total : Z) : ipPacketReassemblyState :=
  mkReassembly (ra_source r) (ra_target r) (ra_identifier r) (ra_v6 r) (ra_pieces r) total
    (ra_bytes r) (ra_ecnMask r) (ra_maxSize r) (ra_maxDFSize r) (ra_protocol r) (ra_maximum r)
    (ra_nextHeader r) (ra_header r) (ra_firstPacket r).

Definition withFirst (r : ipPacketReassemblyState) (protocol maximum nextHeader : Z)
    : ipPacketReassemblyState :=
  mkReassembly (ra_source r) (ra_target r) (ra_identifier r) (ra_v6 r) (ra_pieces r) (ra_total r)
    (ra_bytes r) (ra_ecnMask r) (ra_maxSize r) (ra_maxDFSize r) protocol maximum
    nextHeader (ra_header r) (ra_firstPacket r).

Definition withECN (r : ipPacketReassemblyState) (ecnMask : Z) : ipPacketReassemblyState :=
  mkReassembly (ra_source r) (ra_target r) (ra_identifier r) (ra_v6 r) (ra_pieces r) (ra_total r)
    (ra_bytes r) ecnMask (ra_maxSize r) (ra_maxDFSize r) (ra_protocol r) (ra_maximum r)
    (ra_nextHeader r) (ra_header r) (ra_firstPacket r).

Definition withPacket (r : ipPacketReassemblyState) (header firstPacket : list Z)
    : ipPacketReassemblyState :=
  mkReassembly (ra_source r) (ra_target r) (ra_identifier r) (ra_v6 r) (ra_pieces r) (ra_total r)
    (ra_bytes r) (ra_ecnMask r) (ra_maxSize r) (ra_maxDFSize r) (ra_protocol r) (ra_maximum r)
    (ra_nextHeader r) header firstPacket.

Definition withPiece (r : ipPacketReassemblyState) (pieces : list fragmentPiece)
    (bytes maxSize maxDFSize : Z) : ipPacketReassemblyState :=
  mkReassembly (ra_source r) (ra_target r) (ra_identifier r) (ra_v6 r) pieces (ra_total r)
    bytes (ra_ecnMask r) maxSize maxDFSize (ra_protocol r) (ra_maximum r)
    (ra_nextHeader r) (ra_header r) (ra_firstPacket r).

(** ** Ranges *)

Definition pieceStop (p : fragmentPiece) : Z := fp_offset p + zlen (fp_data p).

(** The scan from the first piece that ends after [start]. *)
Fixpoint coverScan (cursor stop : Z) (pieces : list fragmentPiece) : bool * bool :=
  match pieces with
  | [] => (false, true)
  | piece :: pieces =>
      if stop <=? fp_offset piece then (false, true)
      else if cursor <? fp_offset piece then (false, true)
      else if stop <=? pieceStop piece then (true, true)
      else coverScan (pieceStop piece) stop pieces
  end.

(** Whether the pieces cover [[start, stop)], and whether they meet it. *)
Definition fragmentRangeState (pieces : list fragmentPiece) (start stop : Z) : option (bool * bool) :=
  if stop <=? start then Some (false, false)
  else
    first ← goSearch (zlen pieces) (fun index =>
              piece ← idx pieces index; Some (start <? pieceStop piece));
    if first =? zlen pieces then Some (false, false)
    else
      piece ← idx pieces first;
      if stop <=? fp_offset piece then Some (false, false)
      else Some (coverScan start stop (drop (Z.to_nat first) pieces)).

Definition insertPieceAt (pieces : list fragmentPiece) (piece : fragmentPiece)
    : option (list fragmentPiece) :=
  insertAt ← goSearch (zlen pieces) (fun index =>
               p ← idx pieces index; Some (fp_offset piece <? fp_offset p));
  Some (take (Z.to_nat insertAt) pieces ++ piece :: drop (Z.to_nat insertAt) pieces).

(** ** Completion *)

(** The ECN bits to add to the header of the first fragment. *)
Definition fragmentECN (mask : Z) : option Z :=
  if (mask =? 1) || (mask =? 2) || (mask =? 4) || (mask =? 6) then Some 0
  else if (mask =? 8) || (mask =? 10) || (mask =? 12) || (mask =? 14) then Some 3
  else None.

Definition complete (r : ipPacketReassemblyState) : bool :=
  let overhead := zlen (ra_header r) in
  let overhead := if ra_v6 r && negb (overhead =? 0) then overhead + 8 else overhead in
  (0 <=? ra_total r) && (ra_bytes r - overhead =? ra_total r).

(** [copy(dst[offset:], src)], which stops at the end of the destination. *)
Definition copyAt (dst : list Z) (offset : Z) (src : list Z) : option (list Z) :=
  if (0 <=? offset) && (offset <=? zlen dst)
  then splice dst offset (take (Z.to_nat (zlen dst - offset)) src) else None.

Fixpoint copyPieces (packet : list Z) (base : Z) (pieces : list fragmentPiece) : option (list Z) :=
  match pieces with
  | [] => Some packet
  | piece :: pieces =>
      packet ← copyAt packet (base + fp_offset piece) (fp_data piece);
      copyPieces packet base pieces
  end.

Definition orByte (packet : list Z) (at_ bits : Z) : option (list Z) :=
  b ← idx packet at_;
  store packet at_ (Z.lor b bits).

Definition make (n : Z) : list Z := replicate (Z.to_nat n) 0.

(** The inner option is the nil result, the outer one a panic. *)
Definition buildReassembledPacket (bigEndian : bool) (r : ipPacketReassemblyState)
    (dontFragment : bool) (ecn : Z) : option (option (list Z)) :=
  let headerSize := zlen (ra_header r) in
  if negb (ra_v6 r) then
    if (headerSize <? 20) || (65535 <? headerSize + ra_total r) then Some None
    else
      packet ← copyAt (make (headerSize + ra_total r)) 0 (ra_header r);
      packet ← orByte packet 1 ecn;
      packet ← copyPieces packet headerSize (ra_pieces r);
      packet ← splice packet 2 (be_bytes 2 (u16 (zlen packet)));
      packet ← splice packet 6 (be_bytes 2 (if dontFragment then 16384 else 0));
      packet ← splice packet 10 [0; 0];
      header ← slice packet 0 headerSize;
      packet ← splice packet 10 (be_bytes 2 (checksum bigEndian header));
      Some (Some packet)
  else if (headerSize <? 40) || (ra_nextHeader r <? 0) || (headerSize <=? ra_nextHeader r)
          || (65535 <? headerSize - 40 + ra_total r) then Some None
  else
    packet ← copyAt (make (headerSize + ra_total r)) 0 (ra_header r);
    packet ← orByte packet 1 (u8 (Z.shiftl ecn 4));
    packet ← store packet (ra_nextHeader r) (ra_protocol r);
    packet ← copyPieces packet headerSize (ra_pieces r);
    packet ← splice packet 4 (be_bytes 2 (u16 (zlen packet - 40)));
    Some (Some packet).

Definition finishWire (bigEndian : bool) (r : ipPacketReassemblyState) : option (option (list Z)) :=
  match fragmentECN (ra_ecnMask r) with
  | None => Some None
  | Some ecn =>
      let dontFragment := negb (ra_v6 r) && negb (ra_maxDFSize r =? 0)
                          && (ra_maxDFSize r =? ra_maxSize r) in
      buildReassembledPacket bigEndian r dontFragment ecn
  end.

(** ** One fragment *)

Inductive addResult :=
| Rejected (e : errno)
| Pending (added : bool)
| Complete (wire : list Z).

(** IPv4 accepts a non-final fragment whose length is not a multiple of eight
    and drops the tail. *)
Definition trimFragment (f : ipPacketReassemblyFragment) : option ipPacketReassemblyFragment :=
  if negb (fg_v6 f) && fg_more f && negb (Z.rem (zlen (fg_payload f)) 8 =? 0) then
    let trimmed := Z.ldiff (zlen (fg_payload f)) 7 in
    let discarded := zlen (fg_payload f) - trimmed in
    payload ← slice (fg_payload f) 0 trimmed;
    original ← slice (fg_original f) 0 (zlen (fg_original f) - discarded);
    Some (mkFragment (fg_source f) (fg_target f) (fg_protocol f) (fg_offset f) (fg_more f) payload
            (fg_identifier f) (fg_v6 f) (fg_ecn f) (fg_maximum f) (fg_packetSize f - discarded)
            (fg_df f) (fg_header f) (fg_nextHeader f) original)
  else Some f.

Definition beyond (limit : Z) (pieces : list fragmentPiece) : bool :=
  existsb (fun p => limit <? pieceStop p) pieces.

(** The wire image of the first fragment. *)
Definition firstImageOk (f : ipPacketReassemblyFragment) : bool :=
  negb ((zlen (fg_original f) =? 0) || (zlen (fg_header f) <? 20)
        || (zlen (fg_original f) <? zlen (fg_header f))
        || (zlen (fg_original f) - zlen (fg_header f) <? zlen (fg_payload f))).

(** From the ECN test to the end: the fragment is retained. *)
Definition retainFragment (bigEndian : bool) (r : ipPacketReassemblyState)
    (f : ipPacketReassemblyFragment) : option (ipPacketReassemblyState * addResult) :=
  let first := fg_offset f =? 0 in
  if first && negb (firstImageOk f) then Some (r, Rejected EINVAL)
  else
    let retainedBytes := if first then zlen (fg_original f) else zlen (fg_payload f) in
    '(r, data) ← (if first then
                    header ← slice (fg_original f) 0 (zlen (fg_header f));
                    data ← slice (fg_original f) (zlen (fg_original f) - zlen (fg_payload f))
                             (zlen (fg_original f));
                    Some (withPacket r header (fg_original f), data)
                  else Some (r, fg_payload f));
    pieces ← insertPieceAt (ra_pieces r) (mkFragmentPiece (fg_offset f) data);
    let maxSize := if ra_maxSize r <? fg_packetSize f then fg_packetSize f else ra_maxSize r in
    let maxDFSize := if fg_df f && (ra_maxDFSize r <? fg_packetSize f) then fg_packetSize f
                     else ra_maxDFSize r in
    let r := withPiece r pieces (ra_bytes r + retainedBytes) maxSize maxDFSize in
    if negb (complete r) then Some (r, Pending true)
    else
      wire ← finishWire bigEndian r;
      Some (r, match wire with None => Rejected EINVAL | Some wire => Complete wire end).

(** From the duplicate test: what the first fragment sets, the piece budget and
    the ECN codepoints. *)
Definition admitFragment (bigEndian : bool) (r : ipPacketReassemblyState)
    (f : ipPacketReassemblyFragment) (maximumPieces : Z)
    : option (ipPacketReassemblyState * addResult) :=
  let first := fg_offset f =? 0 in
  let r := if first then withFirst r (fg_protocol f) (fg_maximum f) (fg_nextHeader f) else r in
  if first && ((ra_maximum r <? ra_total r) || beyond (ra_maximum r) (ra_pieces r))
  then Some (r, Rejected EINVAL)
  else if (0 <? maximumPieces) && (maximumPieces <=? zlen (ra_pieces r))
  then Some (r, Rejected ErrResourceLimit)
  else
    let candidateECN := Z.lor (ra_ecnMask r) (u8 (Z.shiftl 1 (fg_ecn f))) in
    if negb (Z.land candidateECN 1 =? 0) && negb (candidateECN =? 1)
    then Some (r, Rejected EINVAL)
    else retainFragment bigEndian (withECN r candidateECN) f.

Definition addFragment (bigEndian : bool) (r : ipPacketReassemblyState)
    (f : ipPacketReassemblyFragment) (maximumPieces : Z)
    : option (ipPacketReassemblyState * addResult) :=
  f ← trimFragment f;
  let stop := fg_offset f + zlen (fg_payload f) in
  if (zlen (fg_payload f) =? 0) || (ra_maximum r <? stop) || (ra_maximum r <? ra_total r)
     || ((0 <=? ra_total r) && (ra_total r <? stop))
  then Some (r, Rejected EINVAL)
  else
    '(duplicate, overlaps) ← fragmentRangeState (ra_pieces r) (fg_offset f) stop;
    if (overlaps : bool) && negb duplicate then Some (r, Rejected EINVAL)
    else if negb (fg_more f) && (0 <=? ra_total r) && negb (ra_total r =? stop)
    then Some (r, Rejected EINVAL)
    else
      let r := if fg_more f then r else withTotal r stop in
      if negb (fg_more f) && beyond (ra_total r) (ra_pieces r) then Some (r, Rejected EINVAL)
      else if (duplicate : bool) then Some (r, Pending false)
      else admitFragment bigEndian r f maximumPieces.

(** ** Lemmas: planning *)

(** Consecutive ranges from [o] to [total] that respect the capacity; all but
    the last are multiples of eight. *)
Fixpoint plan (total capacity o : Z) (rs : list fragmentRange) : Prop :=
  match rs with
  | [] => o = total
  | r :: rs =>
      fr_offset r = o /\ 0 < fr_size r <= capacity /\ fr_more r = (o + fr_size r <? total) /\
      (fr_more r = true -> fr_size r mod 8 = 0) /\
      o + fr_size r <= total /\ plan total capacity (o + fr_size r) rs
  end.

Lemma align8 n : n - 7 <= Z.ldiff n 7 <= n /\ Z.ldiff n 7 mod 8 = 0.
Proof. mask_clear n 3. zlia. Qed.

Lemma cursor_loop fuel c out :
  cu_alignedCapacity c = Z.ldiff (cu_capacity c) 7 -> 8 <= cu_alignedCapacity c ->
  0 <= cu_offset c <= cu_total c -> cu_total c - cu_offset c < Z.of_nat fuel ->
  exists rest, loop fuel cursorBody (c, out) = Some (out ++ rest) /\
               plan (cu_total c) (cu_capacity c) (cu_offset c) rest.
Proof.
  revert c out. induction fuel as [|fuel IH]; intros c out Ha H8 Ho Hf; [lia|].
  cbn [loop]. destruct (cu_total c <=? cu_offset c) eqn:E.
  { exists []. unfold cursorBody, cursorNext. rewrite E, app_nil_r. split; [done|]. cbn. lia. }
  destruct (align8 (cu_capacity c)) as [H1 H2]. rewrite <- Ha in H1, H2.
  assert (exists size, 0 < size <= cu_capacity c /\ cu_offset c + size <= cu_total c /\
    (cu_offset c + size < cu_total c -> size mod 8 = 0) /\
    cursorBody (c, out) = Some (inl
      (mkCursor (cu_total c) (cu_capacity c) (cu_alignedCapacity c) (cu_offset c + size),
       out ++ [mkRange (cu_offset c) size (cu_offset c + size <? cu_total c)])))
    as (size & Hs & Ht & Hm & ->).
  { exists (if cu_capacity c <? cu_total c - cu_offset c then cu_alignedCapacity c
            else cu_total c - cu_offset c).
    unfold cursorBody, cursorNext. rewrite E. split_ifs; split_and!; done || lia. }
  cbn [mbind option_bind].
  destruct (IH (mkCursor (cu_total c) (cu_capacity c) (cu_alignedCapacity c) (cu_offset c + size))
    (out ++ [mkRange (cu_offset c) size (cu_offset c + size <? cu_total c)])) as (rest & -> & Hp);
    cbn [cu_total cu_capacity cu_alignedCapacity cu_offset] in *; [done|lia..|].
  rewrite <- app_assoc. eexists. split; [done|]. cbn [plan fr_offset fr_size fr_more app].
  split_and!; try done; try lia.
Qed.

(** ** Lemmas: pieces *)

(** In order, without overlap, each nonempty. *)
Fixpoint chain (lo : Z) (pieces : list fragmentPiece) : Prop :=
  match pieces with
  | [] => True
  | p :: pieces => lo <= fp_offset p /\ 0 < zlen (fp_data p) /\ chain (pieceStop p) pieces
  end.

Definition inPiece (p : fragmentPiece) (x : Z) : Prop := fp_offset p <= x < pieceStop p.
Definition inPieces (pieces : list fragmentPiece) (x : Z) : Prop := Exists (fun p => inPiece p x) pieces.

Definition sizeOf (pieces : list fragmentPiece) : Z :=
  foldr (fun p n => zlen (fp_data p) + n) 0 pieces.

Lemma chain_weaken lo lo' pieces : lo' <= lo -> chain lo pieces -> chain lo' pieces.
Proof. destruct pieces; cbn; [done|]. intros ? (? & ? & ?). split_and!; try done. lia. Qed.

Lemma chain_app lo a b :
  chain lo (a ++ b) <-> chain lo a /\ chain (foldl (fun _ p => pieceStop p) lo a) b.
Proof. revert lo. induction a as [|p a IH]; intros lo; cbn; [tauto|]. rewrite IH. tauto. Qed.

Lemma chain_above lo pieces x : chain lo pieces -> inPieces pieces x -> lo <= x.
Proof.
  unfold inPieces, inPiece, pieceStop. revert lo. induction pieces as [|p ps IH]; intros lo Hc H.
  - by apply Exists_nil in H.
  - destruct Hc as (H1 & H2 & H3). apply Exists_cons in H as [H|H]; [lia|].
    specialize (IH _ H3 H). unfold pieceStop in IH. lia.
Qed.

(** Both ends of the pieces grow with the index. *)
Lemma chain_mono lo pieces i j p q :
  chain lo pieces -> idx pieces i = Some p -> idx pieces j = Some q -> i < j ->
  pieceStop p <= fp_offset q /\ 0 < zlen (fp_data p) /\ 0 < zlen (fp_data q).
Proof.
  revert lo i j. induction pieces as [|r ps IH]; intros lo i j Hc Hi Hj Hij.
  - apply idx_range in Hi. change (zlen []) with 0 in Hi. lia.
  - destruct Hc as (H1 & H2 & H3). pose proof (idx_range _ _ _ Hi).
    rewrite idx_cons_S in Hj by lia. destruct (decide (i = 0)) as [->|Hn].
    + injection Hi as ->. clear IH. revert H3 Hj. generalize (j - 1) (pieceStop p). clear -H2.
      intros k lo. revert k lo. induction ps as [|s ps IH]; intros k lo Hc Hk.
      { apply idx_range in Hk. change (zlen []) with 0 in Hk. lia. }
      destruct Hc as (H3 & H4 & H5). pose proof (idx_range _ _ _ Hk).
      destruct (decide (k = 0)) as [->|Hn]; [injection Hk as ->; by split_and!|].
      rewrite idx_cons_S in Hk by lia. destruct (IH _ _ H5 Hk) as (? & ? & ?).
      split_and!; [unfold pieceStop in *; lia|done|done].
    + rewrite idx_cons_S in Hi by lia. by apply (IH _ (i - 1) (j - 1) H3); [..|lia].
Qed.

Lemma coverScan_ok cursor stop pieces :
  chain cursor pieces \/ (exists p ps, pieces = p :: ps /\ 0 < zlen (fp_data p) /\ cursor < pieceStop p /\ chain (pieceStop p) ps) ->
  cursor < stop ->
  (fst (coverScan cursor stop pieces) = true <-> forall x, cursor <= x < stop -> inPieces pieces x) /\
  snd (coverScan cursor stop pieces) = true.
Proof.
  revert cursor. induction pieces as [|p ps IH]; intros cursor H Hs.
  { cbn. split; [|done]. split; [done|]. intros Hx. specialize (Hx cursor ltac:(lia)). by apply Exists_nil in Hx. }
  assert (0 < zlen (fp_data p) /\ cursor < pieceStop p /\ chain (pieceStop p) ps) as (Hp & Hc & Hch).
  { destruct H as [(H1 & H2 & H3)|(p' & ps' & E & H1 & H2 & H3)]; [unfold pieceStop in *; split_and!; try done; lia|].
    by injection E as <- <-. }
  cbn [coverScan]. unfold inPieces in *.
  destruct (stop <=? fp_offset p) eqn:E1; [|destruct (cursor <? fp_offset p) eqn:E2; [|destruct (stop <=? pieceStop p) eqn:E3]].
  1, 2: cbn; split; [|done]; split; [done|]; intros Hx; exfalso;
    specialize (Hx cursor ltac:(lia)); apply Exists_cons in Hx as [Hx|Hx];
    [unfold inPiece in Hx; lia|apply (chain_above _ _ _ Hch) in Hx; lia].
  - cbn. split; [|done]. split; [|done]. intros _ x Hx. left. unfold inPiece. lia.
  - destruct (IH (pieceStop p)) as [I1 I2]; [by left|lia|]. split; [|done]. rewrite I1. split.
    + intros Hx x Hr. destruct (decide (x < pieceStop p)); [left; unfold inPiece; lia|right; apply Hx; lia].
    + intros Hx x Hr. specialize (Hx x ltac:(lia)). apply Exists_cons in Hx as [Hx|Hx]; [unfold inPiece in Hx; lia|done].
Qed.

Lemma chain_split lo pieces k :
  chain lo pieces ->
  chain lo (take k pieces) /\ (exists m, lo <= m /\ chain m (drop k pieces)).
Proof.
  intros H. revert lo k H. induction pieces as [|p ps IH]; intros lo [|k] H; cbn [take drop].
  - split; [done|by exists lo].
  - split; [done|by exists lo].
  - split; [done|by exists lo].
  - destruct H as (H1 & H2 & H3). destruct (IH (pieceStop p) k H3) as (H4 & m & H5 & H6).
    split; [by split_and!|]. exists m. unfold pieceStop in H5. split; [lia|done].
Qed.

(** The search splits the pieces at a position. *)
Lemma pieces_search lo pieces (P : fragmentPiece -> bool) :
  chain lo pieces ->
  (forall p q, P p = true -> pieceStop p <= fp_offset q -> 0 < zlen (fp_data p) ->
     0 < zlen (fp_data q) -> P q = true) ->
  exists k, goSearch (zlen pieces) (fun index => p ← idx pieces index; Some (P p)) = Some k /\
    0 <= k <= zlen pieces /\
    Forall (fun p => P p = false) (take (Z.to_nat k) pieces) /\
    Forall (fun p => P p = true) (drop (Z.to_nat k) pieces).
Proof.
  intros Hc HP.
  set (Q i := match idx pieces i with Some p => P p | None => false end).
  destruct (goSearch_ok (zlen pieces) (fun index => p ← idx pieces index; Some (P p)) Q)
    as (k & E & Hk & H1 & H2).
  - apply zlen_nonneg.
  - intros i Hi. unfold Q. destruct (idx_some pieces i Hi) as [p ->]. done.
  - intros i j Hi Hij Hj. unfold Q. destruct (decide (i = j)) as [->|Hne]; [done|].
    destruct (idx_some pieces i ltac:(lia)) as [p Ep]. destruct (idx_some pieces j ltac:(lia)) as [q Eq].
    rewrite Ep, Eq. intros Hp. destruct (chain_mono _ _ _ _ _ _ Hc Ep Eq ltac:(lia)) as (? & ? & ?).
    by apply (HP p q).
  - exists k. split_and!; [done|lia|lia| |]; apply Forall_lookup; intros i p Hi.
    + rewrite lookup_take_Some in Hi. destruct Hi as [Hi Hlt].
      assert (idx pieces (Z.of_nat i) = Some p) as Ei.
      { rewrite idx_lookup by (clear; lia). by rewrite Nat2Z.id. }
      specialize (H1 (Z.of_nat i) ltac:(lia)). unfold Q in H1. by rewrite Ei in H1.
    + rewrite lookup_drop in Hi.
      assert (idx pieces (k + Z.of_nat i) = Some p) as Ei.
      { rewrite idx_lookup by (clear -Hk; lia).
        by replace (Z.to_nat (k + Z.of_nat i)) with (Z.to_nat k + i)%nat by (clear -Hk; lia). }
      pose proof (idx_range _ _ _ Ei).
      specialize (H2 (k + Z.of_nat i) ltac:(lia)). unfold Q in H2. by rewrite Ei in H2.
Qed.

Lemma fragmentRangeState_ok lo pieces start stop :
  chain lo pieces -> start < stop ->
  exists covered overlaps, fragmentRangeState pieces start stop = Some (covered, overlaps) /\
    (covered = true <-> forall x, start <= x < stop -> inPieces pieces x) /\
    (overlaps = true <-> exists x, start <= x < stop /\ inPieces pieces x).
Proof.
  intros Hc Hs. unfold fragmentRangeState. replace (stop <=? start) with false by lia.
  destruct (pieces_search lo pieces (fun p => start <? pieceStop p) Hc) as (k & -> & Hk & Hlow & Hhigh).
  { cbv beta. intros p q Hp Hq Hp0 Hq0. unfold pieceStop in *. lia. }
  cbn [mbind option_bind].
  assert (forall x, start <= x -> inPieces (take (Z.to_nat k) pieces) x -> False) as Hbelow.
  { intros x Hx H. unfold inPieces in H. apply Exists_exists in H as (p & Hin & Hp).
    rewrite Forall_forall in Hlow. specialize (Hlow p Hin). unfold inPiece in Hp. simpl in Hlow. lia. }
  assert (forall x, start <= x -> inPieces pieces x <-> inPieces (drop (Z.to_nat k) pieces) x) as Hin.
  { intros x Hx. unfold inPieces at 1. rewrite <- (take_drop (Z.to_nat k) pieces) at 1.
    rewrite Exists_app. specialize (Hbelow x Hx). unfold inPieces in *. tauto. }
  destruct (chain_split lo pieces (Z.to_nat k) Hc) as (_ & m & _ & Hd).
  destruct (k =? zlen pieces) eqn:E.
  { exists false, false. split; [done|].
    assert (forall x, start <= x -> ~ inPieces pieces x) as Hno.
    { intros x Hx H. apply Hin in H; [|done]. rewrite drop_ge in H by (unfold zlen in *; lia).
      by apply Exists_nil in H. }
    split; (split; [done|]).
    - intros H. exfalso. apply (Hno start ltac:(lia)), H. lia.
    - intros (x & Hx & H). exfalso. by apply (Hno x ltac:(lia)). }
  destruct (idx_split pieces k ltac:(lia)) as (p & Ep & Edrop).
  rewrite Ep. cbn [mbind option_bind]. rewrite Edrop in Hd, Hhigh, Hin |- *.
  destruct Hd as (Hd1 & Hd2 & Hd3). apply Forall_cons_iff in Hhigh as [Hp _]. simpl in Hp.
  destruct (stop <=? fp_offset p) eqn:E1.
  { exists false, false. split; [done|].
    assert (forall x, start <= x < stop -> ~ inPieces pieces x) as Hno.
    { intros x Hx H. apply Hin in H; [|lia]. apply Exists_cons in H as [H|H].
      - unfold inPiece in H. lia.
      - apply (chain_above _ _ _ Hd3) in H. unfold pieceStop in H. lia. }
    split; (split; [done|]).
    - intros H. exfalso. apply (Hno start ltac:(lia)), H. lia.
    - intros (x & Hx & H). exfalso. by apply (Hno x Hx). }
  destruct (coverScan_ok start stop (p :: drop (Z.to_nat (k + 1)) pieces)) as [C1 C2];
    [right; exists p; eexists; split_and!; done || lia|done|].
  destruct (coverScan _ _ _) as [c o]. cbn [fst snd] in *. subst o. exists c, true. split_and!; [done| |].
  - rewrite C1. split; intros H x Hx; (apply Hin; [lia|by apply H]).
  - split; [|done]. intros _. exists (Z.max start (fp_offset p)). split; [lia|].
    apply Hin; [lia|]. left. unfold inPiece, pieceStop in *. lia.
Qed.

Lemma chain_end lo hi a :
  lo <= hi -> Forall (fun p => pieceStop p <= hi) a -> foldl (fun _ p => pieceStop p) lo a <= hi.
Proof.
  intros Hl Ha. revert lo Hl. induction Ha as [|p a Hp _ IH]; intros lo Hl; cbn; [done|]. by apply IH.
Qed.

(** A piece that meets no other goes to its place. *)
Lemma insertPieceAt_ok pieces p :
  chain 0 pieces -> 0 <= fp_offset p -> 0 < zlen (fp_data p) ->
  (forall x, inPiece p x -> ~ inPieces pieces x) ->
  exists pieces', insertPieceAt pieces p = Some pieces' /\ pieces' ≡ₚ p :: pieces /\ chain 0 pieces'.
Proof.
  intros Hc Ho Hp Hno. unfold insertPieceAt.
  destruct (pieces_search 0 pieces (fun q => fp_offset p <? fp_offset q) Hc) as (k & -> & Hk & Hlow & Hhigh).
  { cbv beta. intros q q' Hq Hs Hq0 Hq0'. unfold pieceStop in *. lia. }
  cbn [mbind option_bind]. eexists. split; [done|]. split.
  { rewrite <- Permutation_middle. by rewrite take_drop. }
  destruct (chain_split 0 pieces (Z.to_nat k) Hc) as (Htake & m & _ & Hdrop).
  assert (forall q, q ∈ pieces -> 0 < zlen (fp_data q)) as Hpos.
  { clear -Hc. revert Hc. generalize 0 at 1. induction pieces as [|q ps IH]; intros lo Hc q' Hin.
    - by apply elem_of_nil in Hin.
    - destruct Hc as (H1 & H2 & H3). apply elem_of_cons in Hin as [->|Hin]; [done|by apply (IH (pieceStop q))]. }
  assert (forall q, q ∈ pieces -> pieceStop q <= fp_offset p \/ pieceStop p <= fp_offset q) as Hsep.
  { intros q Hq. specialize (Hpos q Hq).
    destruct (decide (pieceStop q <= fp_offset p)); [by left|].
    destruct (decide (pieceStop p <= fp_offset q)); [by right|]. exfalso.
    apply (Hno (Z.max (fp_offset p) (fp_offset q))).
    - unfold inPiece, pieceStop in *. lia.
    - unfold inPieces. apply list.Exists_exists. exists q. split; [done|]. unfold inPiece, pieceStop in *. lia. }
  rewrite list.Forall_forall in Hlow. rewrite list.Forall_forall in Hhigh.
  apply chain_app. split; [done|]. split_and!.
  - apply chain_end; [done|]. apply list.Forall_forall. intros q Hq.
    specialize (Hlow q Hq). simpl in Hlow. apply elem_of_take in Hq as (i & Hq & _).
    apply list_elem_of_lookup_2 in Hq. specialize (Hpos q Hq). destruct (Hsep q Hq); [done|].
    unfold pieceStop in *. lia.
  - done.
  - destruct (drop (Z.to_nat k) pieces) as [|q rest] eqn:Ed; [done|].
    destruct Hdrop as (H1 & H2 & H3). split_and!; [|done|done].
    specialize (Hhigh q ltac:(left)). simpl in Hhigh.
    assert (q ∈ pieces) as Hq.
    { rewrite <- (take_drop (Z.to_nat k) pieces), Ed. apply elem_of_app. right. left. }
    specialize (Hpos q Hq). destruct (Hsep q Hq); [|done]. unfold pieceStop in *. lia.
Qed.

Fixpoint contiguous (lo : Z) (pieces : list fragmentPiece) (hi : Z) : Prop :=
  match pieces with
  | [] => lo = hi
  | p :: pieces => fp_offset p = lo /\ contiguous (pieceStop p) pieces hi
  end.

(** Pieces whose sizes add up to the whole interval leave no hole. *)
Lemma chain_full lo hi pieces :
  chain lo pieces -> Forall (fun p => pieceStop p <= hi) pieces -> lo <= hi ->
  0 <= sizeOf pieces <= hi - lo /\ (sizeOf pieces = hi - lo -> contiguous lo pieces hi).
Proof.
  revert lo. induction pieces as [|p ps IH]; intros lo Hc Hb Hl; cbn [sizeOf foldr contiguous]; [lia|].
  destruct Hc as (H1 & H2 & H3). apply Forall_cons_iff in Hb as [Hp Hb].
  destruct (IH (pieceStop p) H3 Hb Hp) as [I1 I2]. fold (sizeOf ps). unfold pieceStop in *.
  split; [lia|]. intros H. split; [lia|]. apply I2. lia.
Qed.

Lemma copyAt_end pre mid src rest :
  zlen mid = zlen src -> copyAt (pre ++ mid ++ rest) (zlen pre) src = Some (pre ++ src ++ rest).
Proof.
  intros Hl. unfold copyAt, splice. pose proof (zlen_nonneg pre). pose proof (zlen_nonneg rest).
  pose proof (zlen_nonneg src). rewrite !zlen_app.
  replace (_ && _) with true by lia. rewrite take_ge by (unfold zlen in *; lia).
  replace (_ && _) with true by lia. f_equal.
  replace (Z.to_nat (zlen pre)) with (length pre) by (unfold zlen; lia).
  rewrite take_app_length, <- drop_drop, drop_app_length, drop_app_length' by (unfold zlen in *; lia). done.
Qed.

Lemma copyPieces_ok pieces lo hi pre mid base :
  contiguous lo pieces hi -> Forall (fun p => 0 < zlen (fp_data p)) pieces ->
  zlen pre = base + lo -> zlen mid = hi - lo ->
  copyPieces (pre ++ mid) base pieces = Some (pre ++ concat (map fp_data pieces)).
Proof.
  revert lo pre mid. induction pieces as [|p ps IH]; intros lo pre mid Hc Hp Hpre Hmid.
  - cbn in *. subst. rewrite (zlen_zero mid) by lia. done.
  - destruct Hc as [Ho Hc]. apply Forall_cons_iff in Hp as [Hp Hps]. cbn [copyPieces map concat].
    assert (pieceStop p <= hi) as Hhi.
    { clear -Hc Hps. revert Hc. generalize (pieceStop p). induction Hps as [|q qs Hq Hqs IH]; intros m Hc; cbn in Hc; [lia|].
      destruct Hc as [H1 H2]. apply IH in H2. unfold pieceStop in H2. lia. }
    rewrite <- (take_drop (length (fp_data p)) mid).
    rewrite Ho, <- Hpre, copyAt_end.
    2: { unfold pieceStop, zlen in *. rewrite length_take. lia. }
    cbn [mbind option_bind]. rewrite app_assoc. rewrite (IH (pieceStop p)); [by rewrite app_assoc|done|done| |].
    + rewrite zlen_app. unfold pieceStop. lia.
    + rewrite zlen_drop. unfold pieceStop, zlen in *. lia.
Qed.

(** ** Lemmas: the state of one datagram *)

(** What the parsers guarantee of a fragment. *)
Record fragmentOk (f : ipPacketReassemblyFragment) : Prop := {
  fk_offset : 0 <= fg_offset f;
  fk_ecn : 0 <= fg_ecn f <= 3;
  fk_maximum : fg_maximum f <= fragmentMaximumDatagram;
  fk_bytes : bytes_ok (fg_payload f) /\ bytes_ok (fg_header f) /\ is_u8 (fg_protocol f);
  fk_image : fg_offset f = 0 \/ (fg_v6 f = false /\ fg_more f = true /\ Z.rem (zlen (fg_payload f)) 8 <> 0) ->
    exists gap, fg_original f = fg_header f ++ gap ++ fg_payload f /\
                zlen gap = if fg_v6 f then 8 else 0;
  fk_own : fg_offset f = 0 -> zlen (fg_payload f) <= fg_maximum f;
  fk_first : fg_offset f = 0 ->
    if fg_v6 f
    then 40 <= zlen (fg_header f) /\ fg_maximum f = 65575 - zlen (fg_header f) /\
         6 <= fg_nextHeader f < zlen (fg_header f)
    else 20 <= zlen (fg_header f) /\ fg_maximum f = 65535 - zlen (fg_header f) }.

Definition fragmentStop (f : ipPacketReassemblyFragment) : Z := fg_offset f + zlen (fg_payload f).
Definition pieceOf (f : ipPacketReassemblyFragment) : fragmentPiece :=
  mkFragmentPiece (fg_offset f) (fg_payload f).

(** [f'] is [f] without a tail that is not a multiple of eight. *)
Record trimmed (f f' : ipPacketReassemblyFragment) : Prop := {
  tr_same : fg_offset f' = fg_offset f /\ fg_more f' = fg_more f /\ fg_v6 f' = fg_v6 f /\
    fg_ecn f' = fg_ecn f /\ fg_maximum f' = fg_maximum f /\ fg_header f' = fg_header f /\
    fg_protocol f' = fg_protocol f /\ fg_nextHeader f' = fg_nextHeader f;
  tr_payload : exists n, fg_payload f' = take n (fg_payload f);
  tr_aligned : (fg_v6 f = true \/ fg_more f = false \/ Z.rem (zlen (fg_payload f)) 8 = 0) -> f' = f }.

Lemma trimFragment_ok f :
  fragmentOk f -> exists f', trimFragment f = Some f' /\ fragmentOk f' /\ trimmed f f'.
Proof.
  intros Hf. unfold trimFragment. destruct (_ && _ && _) eqn:E.
  - destruct (fg_v6 f) eqn:Ev; [done|]. destruct (fg_more f) eqn:Em; [|done]. cbn in E.
    destruct (align8 (zlen (fg_payload f))) as [H1 H2]. set (t := Z.ldiff _ 7) in *.
    pose proof (zlen_nonneg (fg_payload f)). assert (0 <= t) as Ht by (clearbody t; zlia).
    destruct (fk_image f Hf) as (gap & Eo & Eg); [right; split_and!; [done|done|lia]|].
    rewrite Ev in Eg. apply zlen_zero in Eg as ->. cbn [app] in Eo.
    clearbody t. rewrite (slice_eq (fg_payload f)) by lia. cbn [mbind option_bind].
    rewrite Eo, slice_eq by len. cbn [mbind option_bind]. eexists. split; [done|].
    rewrite Z.sub_0_r. change (Z.to_nat 0) with 0%nat. rewrite !drop_0.
    replace (take (Z.to_nat _) (fg_header f ++ fg_payload f))
      with (fg_header f ++ take (Z.to_nat t) (fg_payload f)).
    2: { rewrite take_app. f_equal; [rewrite take_ge; [done|]|f_equal]; len; unfold zlen in *; lia. }
    split.
    + destruct Hf as [F1 F2 F3 (F4 & F5 & F6) F7 Fo F8]. split; cbn; try done.
      * split_and!; [by apply bytes_ok_take|done|done].
      * intros _. by exists [].
      * intros Hz. specialize (Fo Hz). rewrite zlen_take. lia.
      * rewrite Ev in F8. done.
    + split; cbn; [by rewrite Em|by eexists|]. intros [H'|[H'|H']]; [congruence..|lia].
  - exists f. split; [done|]. split; [done|]. split; [by split_and!| |done].
    exists (length (fg_payload f)). by rewrite take_ge.
Qed.

Definition validMask (mask : Z) : Prop :=
  mask = 1 \/ (Z.land mask 1 = 0 /\ 0 < mask < 16).

Definition overhead (r : ipPacketReassemblyState) : Z :=
  if zlen (ra_header r) =? 0 then 0 else zlen (ra_header r) + if ra_v6 r then 8 else 0.

(** The header comes from the retained first fragment. *)
Definition firstOf (r : ipPacketReassemblyState) (f : ipPacketReassemblyFragment) : Prop :=
  fg_offset f = 0 /\ ra_header r = fg_header f /\ ra_protocol r = fg_protocol f /\
  ra_maximum r = fg_maximum f /\ ra_nextHeader r = fg_nextHeader f.

Record reassemblyOk (r : ipPacketReassemblyState) (added : list ipPacketReassemblyFragment) : Prop := {
  ro_chain : chain 0 (ra_pieces r);
  ro_limit : Forall (fun p => pieceStop p <= ra_maximum r) (ra_pieces r);
  ro_maximum : ra_maximum r <= fragmentMaximumDatagram;
  ro_total : ra_total r = -1 \/
    (0 < ra_total r <= ra_maximum r /\ Forall (fun p => pieceStop p <= ra_total r) (ra_pieces r));
  ro_added : ra_pieces r ≡ₚ map pieceOf added;
  ro_fragments : Forall (fun f => fragmentOk f /\ fg_v6 f = ra_v6 r) added;
  ro_first : (ra_header r = [] /\ Forall (fun f => fg_offset f <> 0) added) \/
             (exists f, f ∈ added /\ firstOf r f);
  ro_bytes : ra_bytes r = sizeOf (ra_pieces r) + overhead r;
  ro_ecn : validMask (ra_ecnMask r) }.

Lemma ecnBit f : 0 <= fg_ecn f <= 3 -> validMask (u8 (Z.shiftl 1 (fg_ecn f))).
Proof.
  intros H. assert (fg_ecn f = 0 \/ fg_ecn f = 1 \/ fg_ecn f = 2 \/ fg_ecn f = 3) as E by lia.
  unfold validMask. destruct E as [->|[->|[->| ->]]]; [by left|by right; vm_compute..].
Qed.

Lemma evenMask m :
  Z.land m 1 = 0 /\ 0 < m < 16 ->
  m = 2 \/ m = 4 \/ m = 6 \/ m = 8 \/ m = 10 \/ m = 12 \/ m = 14.
Proof. mask_low m 1. intros [H1 H2]. zlia. Qed.

Lemma candidate_valid mask e :
  validMask mask -> 0 <= e <= 3 ->
  let c := Z.lor mask (u8 (Z.shiftl 1 e)) in
  negb (Z.land c 1 =? 0) && negb (c =? 1) = false -> validMask c.
Proof.
  intros Hm He c Hc. unfold validMask. apply andb_false_iff in Hc as [Hc|Hc]; [|left; lia].
  destruct (decide (c = 1)); [by left|]. right. split; [lia|].
  assert (forall m, validMask m -> In m [1; 2; 4; 6; 8; 10; 12; 14]) as Hall.
  { intros m [->|H]; [by left|]. apply evenMask in H. cbn. lia. }
  assert (e = 0 \/ e = 1 \/ e = 2 \/ e = 3) as Ee by lia.
  specialize (Hall mask Hm). unfold c in *. cbn [In] in Hall.
  repeat destruct Hall as [<-|Hall]; try done; destruct Ee as [->|[->|[->| ->]]]; vm_compute; by split.
Qed.

Lemma fragmentECN_valid mask : validMask mask -> exists ecn, fragmentECN mask = Some ecn /\ (ecn = 0 \/ ecn = 3).
Proof.
  intros [->|E]; [by exists 0; auto|]. apply evenMask in E. unfold fragmentECN. destruct E as [->|[->|[->|[->|[->|[->| ->]]]]]]; cbn; eauto.
Qed.

(** ** Lemmas: the finished packet *)

Lemma be16_idx l o a b : idx l o = Some a -> idx l (o + 1) = Some b -> be16 l o = Some (a * 256 + b).
Proof.
  intros Ha Hb. pose proof (idx_range _ _ _ Ha). pose proof (idx_range _ _ _ Hb). unfold be16.
  rewrite slice_eq by lia. replace (Z.to_nat (o + 2 - o)) with 2%nat by lia.
  destruct (idx_split l o) as (a' & Ea & ->); [lia|]. destruct (idx_split l (o + 1)) as (b' & Eb & ->); [lia|].
  rewrite Ha in Ea. rewrite Hb in Eb. injection Ea as <-. injection Eb as <-. done.
Qed.

Lemma splice_be16 l o v l' : is_u16 v -> splice l o (be_bytes 2 v) = Some l' -> be16 l' o = Some v.
Proof.
  intros Hv E. apply splice_idx in E as (_ & _ & _ & H & _).
  rewrite (be16_idx l' o ((v / 256) mod 256) (v mod 256)).
  - f_equal. unfold is_u16 in Hv. zlia.
  - rewrite H by (change (zlen (be_bytes 2 v)) with 2; lia). by rewrite Z.sub_diag.
  - rewrite H by (change (zlen (be_bytes 2 v)) with 2; lia).
    by replace (o + 1 - o) with 1 by lia.
Qed.

Lemma splice_be16_other l o src l' i : splice l o src = Some l' -> i + 2 <= o \/ o + zlen src <= i ->
  forall v, be16 l i = Some v -> be16 l' i = Some v.
Proof.
  intros E Hi v Hv. apply splice_idx in E as (_ & _ & _ & _ & H).
  unfold be16 in Hv. destruct (slice l i (i + 2)) as [w|] eqn:Es; [|done].
  pose proof (slice_inv _ _ _ _ Es) as (? & ? & ? & _).
  destruct (idx_some l i) as [a Ea]; [lia|]. destruct (idx_some l (i + 1)) as [b Eb]; [lia|].
  assert (be16 l i = Some (a * 256 + b)) as E2 by (by apply be16_idx).
  unfold be16 in E2. rewrite Es in E2. rewrite Hv in E2. rewrite E2.
  apply be16_idx; rewrite H by lia; done.
Qed.

(** The header of the finished packet: every byte of the first fragment's
    header outside the listed positions is kept. *)
Definition keepsOutside (positions : list Z) (header hdr : list Z) : Prop :=
  zlen hdr = zlen header /\ forall i, ~ In i positions -> idx hdr i = idx header i.

Lemma keeps_splice positions header hdr o src hdr' :
  keepsOutside positions header hdr -> splice hdr o src = Some hdr' ->
  (forall i, o <= i < o + zlen src -> In i positions) -> keepsOutside positions header hdr'.
Proof.
  intros [Hl Hk] E Hin. apply splice_idx in E as (_ & _ & E1 & _ & E2). split; [lia|].
  intros i Hi. rewrite E2, Hk; [done|done|].
  destruct (decide (i < o)); [by left|]. right. destruct (decide (o + zlen src <= i)); [done|].
  exfalso. apply Hi, Hin. lia.
Qed.

Definition restored4 (be : bool) (r : ipPacketReassemblyState) (df : bool) (ecn : Z) (hdr : list Z) : Prop :=
  keepsOutside [1; 2; 3; 6; 7; 10; 11] (ra_header r) hdr /\
  (forall b, idx (ra_header r) 1 = Some b -> idx hdr 1 = Some (Z.lor b ecn)) /\
  be16 hdr 2 = Some (zlen hdr + ra_total r) /\
  be16 hdr 6 = Some (if df then 16384 else 0) /\ checksum be hdr = 0.

Definition restored6 (r : ipPacketReassemblyState) (ecn : Z) (hdr : list Z) : Prop :=
  keepsOutside [1; 4; 5; ra_nextHeader r] (ra_header r) hdr /\
  (forall b, idx (ra_header r) 1 = Some b -> idx hdr 1 = Some (Z.lor b (u8 (Z.shiftl ecn 4)))) /\
  be16 hdr 4 = Some (zlen hdr - 40 + ra_total r) /\ idx hdr (ra_nextHeader r) = Some (ra_protocol r).

Lemma contiguous_size lo pieces hi :
  contiguous lo pieces hi -> zlen (concat (map fp_data pieces)) = hi - lo.
Proof.
  revert lo. induction pieces as [|p ps IH]; intros lo Hc; cbn [contiguous map concat] in *; [change (zlen []) with 0; lia|].
  destruct Hc as [Ho Hc]. rewrite zlen_app, (IH _ Hc). unfold pieceStop. lia.
Qed.

Lemma contiguous_slice lo pieces hi p :
  contiguous lo pieces hi -> p ∈ pieces ->
  slice (concat (map fp_data pieces)) (fp_offset p - lo) (pieceStop p - lo) = Some (fp_data p).
Proof.
  intros Hc Hin. apply list_elem_of_In, in_split in Hin as (a & b & ->).
  rewrite map_app, concat_app. cbn [map concat].
  assert (zlen (concat (map fp_data a)) = fp_offset p - lo) as E.
  { clear -Hc. revert lo Hc. induction a as [|q a IH]; intros lo Hc; cbn [app contiguous map concat] in *.
    - change (zlen []) with 0. lia.
    - destruct Hc as [Ho Hc]. rewrite zlen_app, (IH _ Hc). unfold pieceStop. lia. }
  pose proof (slice_mid (concat (map fp_data a)) (fp_data p) (concat (map fp_data b))) as H.
  rewrite E in H. unfold pieceStop. by replace (fp_offset p + zlen (fp_data p) - lo)
    with (fp_offset p - lo + zlen (fp_data p)) by lia.
Qed.

Lemma contiguous_member lo pieces hi x :
  contiguous lo pieces hi -> lo <= x < hi -> exists p, p ∈ pieces /\ inPiece p x.
Proof.
  revert lo. induction pieces as [|p ps IH]; intros lo Hc Hx; cbn in Hc; [lia|].
  destruct Hc as [Ho Hc]. destruct (decide (x < pieceStop p)).
  - exists p. split; [left|]. unfold inPiece. lia.
  - destruct (IH _ Hc ltac:(lia)) as (q & Hq & Hx'). exists q. split; [by right|done].
Qed.

Lemma make_app a b : 0 <= a -> 0 <= b -> make (a + b) = make a ++ make b.
Proof. intros. unfold make. rewrite <- replicate_add. f_equal. lia. Qed.

Lemma zlen_make n : 0 <= n -> zlen (make n) = n.
Proof. intros. unfold make, zlen. rewrite length_replicate. lia. Qed.

(** The bytes above the header are written by the pieces alone. *)
Lemma pieces_over (header hdr : list Z) pieces total :
  contiguous 0 pieces total -> Forall (fun p => 0 < zlen (fp_data p)) pieces -> 0 <= total ->
  zlen hdr = zlen header ->
  copyPieces (hdr ++ make total) (zlen header) pieces = Some (hdr ++ concat (map fp_data pieces)).
Proof.
  intros Hc Hp Ht Hl. apply (copyPieces_ok pieces 0 total); [done|done|lia|]. rewrite zlen_make by done. lia.
Qed.

Lemma orByte_ok (hdr rest : list Z) at_ bits b :
  idx hdr at_ = Some b ->
  exists hdr', orByte (hdr ++ rest) at_ bits = Some (hdr' ++ rest) /\
               splice hdr at_ [Z.lor b bits] = Some hdr'.
Proof.
  intros Hb. pose proof (idx_range _ _ _ Hb). unfold orByte. rewrite idx_app_l by lia. rewrite Hb.
  cbn [mbind option_bind]. unfold store.
  destruct (splice_some hdr [Z.lor b bits] at_) as (h & E & _); [lia|change (zlen [_]) with 1; lia|].
  exists h. split; [by apply splice_app_l|done].
Qed.

Lemma splice_single (hdr hdr' : list Z) o v : splice hdr o [v] = Some hdr' -> idx hdr' o = Some v.
Proof.
  intros E. apply splice_idx in E as (_ & _ & _ & E & _). rewrite E by (change (zlen [v]) with 1; lia).
  by rewrite Z.sub_diag.
Qed.

(** Storing the checksum of a header whose field is zero makes it verify. *)
Lemma splice_checksum be h h0 h1 :
  bytes_ok h -> 12 <= zlen h <= 65535 -> splice h 10 [0; 0] = Some h0 ->
  splice h0 10 (be_bytes 2 (checksum be h0)) = Some h1 -> checksum be h1 = 0.
Proof.
  intros Hb Hl E0 E1. unfold splice in E0. destruct (_ && _); [|done]. injection E0 as <-.
  change (Z.to_nat 10 + length [0; 0])%nat with 12%nat in E1. change (Z.to_nat 10) with 10%nat in E1.
  assert (zlen (take 10 h) = 10) as Lt by (rewrite zlen_take; lia).
  unfold splice in E1. destruct (_ && _); [|done]. injection E1 as <-.
  change (Z.to_nat 10) with 10%nat.
  rewrite take_app_length', drop_app_ge by (unfold zlen in *; lia).
  replace (12 - length (take 10 h))%nat with 2%nat by (unfold zlen in *; lia). cbn [drop].
  apply (checksum_insert be (take 10 h) (drop 12 h)); [auto with mips|auto with mips|by rewrite Lt|].
  rewrite zlen_drop. lia.
Qed.

Lemma build4_ok be r df ecn :
  ra_v6 r = false -> 20 <= zlen (ra_header r) -> 0 <= ra_total r ->
  zlen (ra_header r) + ra_total r <= 65535 -> bytes_ok (ra_header r) -> is_u8 ecn ->
  contiguous 0 (ra_pieces r) (ra_total r) -> Forall (fun p => 0 < zlen (fp_data p)) (ra_pieces r) ->
  exists hdr, buildReassembledPacket be r df ecn = Some (Some (hdr ++ concat (map fp_data (ra_pieces r)))) /\
              restored4 be r df ecn hdr.
Proof.
  intros Hv Hh Ht Hmax Hb He Hc Hp. unfold buildReassembledPacket, restored4. rewrite Hv. cbn [negb].
  remember (ra_header r) as header eqn:Eh. remember (ra_total r) as total eqn:Etot. clear Eh Etot.
  replace (_ || _) with false by lia.
  rewrite make_app by lia.
  assert (copyAt (make (zlen header) ++ make total) 0 header = Some (header ++ make total)) as ->
    by (apply (copyAt_end []), zlen_make; lia).
  cbn [mbind option_bind app].
  destruct (idx_some header 1) as [b Eb]; [lia|].
  destruct (orByte_ok header (make total) 1 ecn b Eb) as (h1 & -> & S1). cbn [mbind option_bind].
  pose proof (splice_idx _ _ _ _ S1) as (_ & _ & L1 & _ & _).
  rewrite (pieces_over header h1) by done. cbn [mbind option_bind].
  assert (zlen (concat (map fp_data (ra_pieces r))) = total) as Hd
    by (rewrite (contiguous_size 0 _ total) by done; lia).
  set (data := concat (map fp_data (ra_pieces r))) in *. clearbody data.
  assert (zlen (h1 ++ data) = zlen header + total) as Hlen by (rewrite zlen_app; lia). rewrite Hlen.
  replace (u16 _) with (zlen header + total) by (unfold u16; rewrite Z.mod_small; lia).
  destruct (splice_some h1 (be_bytes 2 (zlen header + total)) 2) as (h2 & S2 & L2);
    [lia|change (zlen (be_bytes 2 _)) with 2; lia|].
  rewrite (splice_app_l _ data _ _ _ S2). cbn [mbind option_bind].
  set (field := if df then 16384 else 0). assert (is_u16 field) as Hfield by (unfold field, is_u16; destruct df; lia).
  destruct (splice_some h2 (be_bytes 2 field) 6) as (h3 & S3 & L3);
    [lia|change (zlen (be_bytes 2 _)) with 2; lia|].
  rewrite (splice_app_l _ data _ _ _ S3). cbn [mbind option_bind].
  destruct (splice_some h3 [0; 0] 10) as (h4 & S4 & L4); [lia|change (zlen [0; 0]) with 2; lia|].
  rewrite (splice_app_l _ data _ _ _ S4). cbn [mbind option_bind].
  assert (slice (h4 ++ data) 0 (zlen header) = Some h4) as ->
    by (replace (zlen header) with (zlen h4) by lia; apply slice_app_l).
  cbn [mbind option_bind].
  destruct (splice_some h4 (be_bytes 2 (checksum be h4)) 10) as (h5 & S5 & L5);
    [lia|change (zlen (be_bytes 2 _)) with 2; lia|].
  rewrite (splice_app_l _ data _ _ _ S5). cbn [mbind option_bind]. exists h5. split; [done|].
  split_and!.
  - eapply keeps_splice; [eapply keeps_splice; [eapply keeps_splice; [eapply keeps_splice;
      [eapply keeps_splice; [|exact S1|]|exact S2|]|exact S3|]|exact S4|]|exact S5|].
    1: by split.
    all: intros i; change (zlen (be_bytes 2 _)) with 2; change (zlen [_; _]) with 2;
      change (zlen [_]) with 1; cbn [In]; lia.
  - intros b' Eb'. rewrite Eb in Eb'. injection Eb' as <-.
    apply splice_idx in S5 as (_ & _ & _ & _ & ->); [|left; lia].
    apply splice_idx in S4 as (_ & _ & _ & _ & ->); [|left; lia].
    apply splice_idx in S3 as (_ & _ & _ & _ & ->); [|left; lia].
    apply splice_idx in S2 as (_ & _ & _ & _ & ->); [|left; lia].
    by apply (splice_single header).
  - apply (splice_be16_other _ _ _ _ _ S5); [by left|].
    apply (splice_be16_other _ _ _ _ _ S4); [by left|].
    apply (splice_be16_other _ _ _ _ _ S3); [by left|].
    assert (is_u16 (zlen header + total)) as Ht16 by (unfold is_u16; lia).
    rewrite (splice_be16 _ _ _ _ Ht16 S2). f_equal. lia.
  - apply (splice_be16_other _ _ _ _ _ S5); [by left|].
    apply (splice_be16_other _ _ _ _ _ S4); [by left|].
    by rewrite (splice_be16 _ _ _ _ Hfield S3).
  - apply (splice_checksum be h3 h4 h5); [|lia|done|done].
    apply (splice_bytes _ _ _ _ S3); [|auto with mips]. apply (splice_bytes _ _ _ _ S2); [|auto with mips].
    apply (splice_bytes _ _ _ _ S1); [done|]. constructor; [|constructor].
    pose proof (idx_u8 _ _ _ Hb Eb). apply (lor_bound b ecn 8); [done|done|done].
Qed.

Lemma build6_ok be r df ecn :
  ra_v6 r = true -> 40 <= zlen (ra_header r) -> 6 <= ra_nextHeader r < zlen (ra_header r) ->
  0 <= ra_total r -> zlen (ra_header r) - 40 + ra_total r <= 65535 ->
  contiguous 0 (ra_pieces r) (ra_total r) -> Forall (fun p => 0 < zlen (fp_data p)) (ra_pieces r) ->
  exists hdr, buildReassembledPacket be r df ecn = Some (Some (hdr ++ concat (map fp_data (ra_pieces r)))) /\
              restored6 r ecn hdr.
Proof.
  intros Hv Hh Hn Ht Hmax Hc Hp. unfold buildReassembledPacket, restored6. rewrite Hv. cbn [negb].
  remember (ra_header r) as header eqn:Eh. remember (ra_total r) as total eqn:Etot.
  remember (ra_nextHeader r) as nextHeader eqn:Enh. clear Eh Etot Enh.
  replace (_ || _) with false by lia. rewrite make_app by lia.
  assert (copyAt (make (zlen header) ++ make total) 0 header = Some (header ++ make total)) as ->
    by (apply (copyAt_end []), zlen_make; lia).
  cbn [mbind option_bind app].
  destruct (idx_some header 1) as [b Eb]; [lia|].
  destruct (orByte_ok header (make total) 1 (u8 (Z.shiftl ecn 4)) b Eb) as (h1 & -> & S1). cbn [mbind option_bind].
  pose proof (splice_idx _ _ _ _ S1) as (_ & _ & L1 & _ & _).
  destruct (splice_some h1 [ra_protocol r] nextHeader) as (h2 & S2 & L2); [lia|change (zlen [_]) with 1; lia|].
  unfold store. rewrite (splice_app_l _ (make total) _ _ _ S2). cbn [mbind option_bind].
  rewrite (pieces_over header h2) by (done || lia). cbn [mbind option_bind].
  assert (zlen (concat (map fp_data (ra_pieces r))) = total) as Hd
    by (rewrite (contiguous_size 0 _ total) by done; lia).
  set (data := concat (map fp_data (ra_pieces r))) in *. clearbody data.
  assert (zlen (h2 ++ data) = zlen header + total) as Hlen by (rewrite zlen_app; lia). rewrite Hlen.
  assert (u16 (zlen header + total - 40) = zlen header - 40 + total) as ->
    by (unfold u16; rewrite Z.mod_small; lia).
  destruct (splice_some h2 (be_bytes 2 (zlen header - 40 + total)) 4) as (h3 & S3 & L3);
    [lia|change (zlen (be_bytes 2 _)) with 2; lia|].
  rewrite (splice_app_l _ data _ _ _ S3). cbn [mbind option_bind]. exists h3. split; [done|].
  split_and!.
  - eapply keeps_splice; [eapply keeps_splice; [eapply keeps_splice; [|exact S1|]|exact S2|]|exact S3|].
    1: by split.
    all: intros i; change (zlen (be_bytes 2 _)) with 2; change (zlen [_]) with 1; cbn [In]; lia.
  - intros b' Eb'. rewrite Eb in Eb'. injection Eb' as <-.
    apply splice_idx in S3 as (_ & _ & _ & _ & ->); [|left; lia].
    apply splice_idx in S2 as (_ & _ & _ & _ & ->); [|left; lia].
    by apply (splice_single header).
  - assert (is_u16 (zlen header - 40 + total)) as Ht16 by (unfold is_u16; lia).
    rewrite (splice_be16 _ _ _ _ Ht16 S3). f_equal. lia.
  - apply splice_idx in S3 as (_ & _ & _ & _ & ->); [|right; change (zlen (be_bytes 2 _)) with 2; lia].
    by apply (splice_single h1).
Qed.

Definition finished (be : bool) (r : ipPacketReassemblyState) (wire : list Z) : Prop :=
  contiguous 0 (ra_pieces r) (ra_total r) /\
  exists hdr df ecn, wire = hdr ++ concat (map fp_data (ra_pieces r)) /\
    if ra_v6 r then restored6 r ecn hdr else restored4 be r df ecn hdr.

Lemma ok_positive r added : reassemblyOk r added -> Forall (fun p => 0 < zlen (fp_data p)) (ra_pieces r).
Proof.
  intros [Hc _ _ _ _ _ _ _ _]. revert Hc. generalize 0 at 1.
  induction (ra_pieces r) as [|p ps IH]; intros lo Hc; [constructor|].
  destruct Hc as (_ & H2 & H3). constructor; [done|by apply (IH (pieceStop p))].
Qed.

Lemma complete_sizes r added :
  reassemblyOk r added -> complete r = ((0 <=? ra_total r) && (sizeOf (ra_pieces r) =? ra_total r)).
Proof.
  intros H. unfold complete. rewrite (ro_bytes _ _ H). unfold overhead. pose proof (zlen_nonneg (ra_header r)).
  destruct (zlen (ra_header r) =? 0) eqn:E, (ra_v6 r); cbn [negb andb]; f_equal; f_equal; lia.
Qed.

Lemma complete_contiguous r added :
  reassemblyOk r added -> complete r = true -> 0 < ra_total r /\ contiguous 0 (ra_pieces r) (ra_total r).
Proof.
  intros H Hc. rewrite (complete_sizes r added H) in Hc.
  destruct (ro_total _ _ H) as [E|[Ht Hf]]; [lia|]. split; [lia|].
  apply (chain_full 0 (ra_total r)); [apply H|done|lia|lia].
Qed.

(** A machine whose ranges are complete finishes. *)
Lemma finish_ok be r added :
  reassemblyOk r added -> complete r = true ->
  exists wire, finishWire be r = Some (Some wire) /\ finished be r wire.
Proof.
  intros H Hc. destruct (complete_contiguous r added H Hc) as [Ht Hcon].
  pose proof (ok_positive r added H) as Hpos.
  destruct (ro_first _ _ H) as [[Eh Hno]|(f & Hin & Hz & Eh & Ep & Em & En)].
  { exfalso. pose proof (ro_added _ _ H) as Hp. destruct (ra_pieces r) as [|p ps]; [cbn in Hcon; lia|].
    destruct Hcon as [Ho _]. assert (p ∈ map pieceOf added) as Hp' by (rewrite <- Hp; left).
    apply list_elem_of_In, in_map_iff in Hp' as (f & <- & Hf). rewrite list.Forall_forall in Hno.
    by apply (Hno f), Ho; apply list_elem_of_In. }
  pose proof (ro_fragments _ _ H) as Hfs. rewrite list.Forall_forall in Hfs. destruct (Hfs f Hin) as [Hf Hv].
  pose proof (fk_first f Hf Hz) as Hfirst. pose proof (fk_bytes f Hf) as (_ & Hb & _).
  destruct (fragmentECN_valid _ (ro_ecn _ _ H)) as (ecn & Ee & Hecn).
  destruct (ro_total _ _ H) as [|[Hmax _]]; [lia|]. rewrite <- Eh in *. rewrite Hv, <- Em in Hfirst.
  unfold finishWire, finished. rewrite Ee.
  set (df := negb (ra_v6 r) && _ && _). clearbody df. destruct (ra_v6 r) eqn:Ev.
  - destruct Hfirst as (H1 & H2 & H3).
    destruct (build6_ok be r df ecn) as (hdr & -> & Hr); try done; try lia.
    eexists. split; [done|]. split; [done|]. by exists hdr, df, ecn.
  - destruct Hfirst as (H1 & H2).
    destruct (build4_ok be r df ecn) as (hdr & -> & Hr); try done; try lia; [unfold is_u8; lia|].
    eexists. split; [done|]. split; [done|]. by exists hdr, df, ecn.
Qed.

Lemma sizeOf_perm a b : a ≡ₚ b -> sizeOf a = sizeOf b.
Proof. unfold sizeOf. induction 1; cbn [foldr] in *; lia. Qed.

Definition apart (r : ipPacketReassemblyState) (f : ipPacketReassemblyFragment) : Prop :=
  forall x, fg_offset f <= x < fragmentStop f -> ~ inPieces (ra_pieces r) x.

(** What holds of a fragment that passes every check. *)
Record fits (r : ipPacketReassemblyState) (added : list ipPacketReassemblyFragment)
    (f : ipPacketReassemblyFragment) : Prop := {
  ft_payload : 0 < zlen (fg_payload f);
  ft_v6 : fg_v6 f = ra_v6 r;
  ft_limit : fragmentStop f <= ra_maximum r;
  ft_total : ra_total r = -1 \/ fragmentStop f <= ra_total r;
  ft_apart : apart r f;
  ft_first : fg_offset f = 0 -> ra_header r = [] /\ Forall (fun g => fg_offset g <> 0) added /\
    ra_protocol r = fg_protocol f /\ ra_maximum r = fg_maximum f /\ ra_nextHeader r = fg_nextHeader f }.

Lemma withPiece_ok r added f header firstPacket pieces bytes m1 m2 :
  reassemblyOk r added -> fragmentOk f -> fits r added f ->
  pieces ≡ₚ pieceOf f :: ra_pieces r -> chain 0 pieces ->
  (if fg_offset f =? 0
   then header = fg_header f /\ bytes = ra_bytes r + zlen (fg_payload f) + zlen (fg_header f) + (if ra_v6 r then 8 else 0)
   else header = ra_header r /\ bytes = ra_bytes r + zlen (fg_payload f)) ->
  reassemblyOk (withPiece (withPacket r header firstPacket) pieces bytes m1 m2) (added ++ [f]).
Proof.
  intros [Hc Hl Hm Ht Ha Hf H1 Hb He] Hfk [Fp Fv Fl Ft Fa F1] Hp Hch Hhead.
  assert (sizeOf pieces = zlen (fg_payload f) + sizeOf (ra_pieces r)) as Hsize
    by (by rewrite (sizeOf_perm _ _ Hp)).
  split; cbn [ra_pieces ra_maximum ra_total ra_v6 ra_header ra_bytes ra_ecnMask withPiece withPacket].
  - done.
  - rewrite Hp. by constructor.
  - done.
  - destruct Ht as [Ht|[Ht Hs]]; [by left|right]. split; [done|]. rewrite Hp. constructor; [|done].
    destruct Ft as [Ft|Ft]; [lia|done].
  - rewrite Hp, Ha, map_app. cbn [map]. by rewrite Permutation_app_comm.
  - apply Forall_app. split; [done|]. constructor; [done|constructor].
  - destruct (fg_offset f =? 0) eqn:E0.
    + right. exists f. destruct Hhead as [-> _]. destruct (F1 ltac:(lia)) as (_ & _ & P1 & P2 & P3).
      split; [apply elem_of_app; right; left|]. by split_and!; [lia|..].
    + destruct Hhead as [-> _]. destruct H1 as [[H1 H1']|(g & Hg & H1)].
      * left. split; [done|]. apply Forall_app. split; [done|]. constructor; [lia|constructor].
      * right. exists g. split; [apply elem_of_app; by left|]. exact H1.
  - rewrite Hsize. unfold overhead in *. cbn [ra_header ra_v6 withPiece withPacket].
    destruct (fg_offset f =? 0) eqn:E0; destruct Hhead as [-> ->]; [|lia].
    destruct (F1 ltac:(lia)) as (Eh & _). rewrite Eh in Hb. change (zlen []) with 0 in Hb. change (0 =? 0) with true in Hb.
    pose proof (fk_first f Hfk ltac:(lia)) as Hff.
    assert (20 <= zlen (fg_header f)) by (destruct (fg_v6 f); lia).
    destruct (zlen (fg_header f) =? 0) eqn:E, (ra_v6 r); lia.
  - done.
Qed.

(** The fields retention leaves alone. *)
Definition kept (r r' : ipPacketReassemblyState) : Prop :=
  ra_total r' = ra_total r /\ ra_v6 r' = ra_v6 r /\ ra_ecnMask r' = ra_ecnMask r /\
  ra_maximum r' = ra_maximum r.

Lemma retain_ok be r added f :
  reassemblyOk r added -> fragmentOk f -> fits r added f ->
  exists r' res, retainFragment be r f = Some (r', res) /\ reassemblyOk r' (added ++ [f]) /\
    kept r r' /\
    ((complete r' = false /\ res = Pending true) \/
     (complete r' = true /\ exists wire, res = Complete wire /\ finished be r' wire)).
Proof.
  intros H Hf Hfit. unfold retainFragment.
  destruct (insertPieceAt_ok (ra_pieces r) (pieceOf f)) as (pieces & Hins & Hp & Hch);
    [apply H|apply Hf|apply Hfit|exact (ft_apart _ _ _ Hfit)|].
  assert (forall header firstPacket bytes m1 m2,
    (if fg_offset f =? 0
     then header = fg_header f /\ bytes = ra_bytes r + zlen (fg_payload f) + zlen (fg_header f) + (if ra_v6 r then 8 else 0)
     else header = ra_header r /\ bytes = ra_bytes r + zlen (fg_payload f)) ->
    let r' := withPiece (withPacket r header firstPacket) pieces bytes m1 m2 in
    exists r'' res, (if negb (complete r') then Some (r', Pending true)
      else wire ← finishWire be r'; Some (r', match wire with None => Rejected EINVAL | Some w => Complete w end))
      = Some (r'', res) /\ reassemblyOk r'' (added ++ [f]) /\ kept r r'' /\
      ((complete r'' = false /\ res = Pending true) \/
       (complete r'' = true /\ exists wire, res = Complete wire /\ finished be r'' wire))) as Hend.
  { intros header firstPacket bytes m1 m2 Hhead r'.
    pose proof (withPiece_ok r added f header firstPacket pieces bytes m1 m2 H Hf Hfit Hp Hch Hhead) as Hok.
    fold r' in Hok. destruct (complete r') eqn:Ec; cbn [negb].
    - destruct (finish_ok be r' _ Hok Ec) as (wire & -> & Hfin). cbn [mbind option_bind].
      do 2 eexists. split; [done|]. split; [done|]. split; [done|]. right. split; [done|]. by exists wire.
    - do 2 eexists. split; [done|]. split; [done|]. split; [done|]. by left. }
  destruct (fg_offset f =? 0) eqn:E0; cbn [andb].
  - apply Z.eqb_eq in E0. destruct (fk_image f Hf) as (gap & Eo & Eg); [by left|].
    pose proof (fk_first f Hf E0) as Hff. pose proof (zlen_nonneg gap).
    pose proof (zlen_nonneg (fg_payload f)).
    assert (20 <= zlen (fg_header f)) as H20 by (destruct (fg_v6 f); lia).
    assert (firstImageOk f = true) as ->.
    { unfold firstImageOk. rewrite Eo, !zlen_app. by replace (_ || _) with false by lia. }
    cbn [negb]. rewrite Eo, slice_app_l. cbn [mbind option_bind].
    replace (slice _ _ _) with (Some (fg_payload f)).
    2: { rewrite (app_assoc (fg_header f)).
         replace (_ - zlen (fg_payload f)) with (zlen (fg_header f ++ gap))
           by (rewrite (zlen_app (_ ++ _)); lia).
         by rewrite slice_tail. }
    cbn [mbind option_bind]. cbn [ra_pieces withPacket]. unfold pieceOf in Hins. rewrite Hins. cbn [mbind option_bind].
    apply Hend. split; [done|]. cbn [ra_bytes withPacket]. rewrite <- (ft_v6 _ _ _ Hfit), !zlen_app. lia.
  - cbn [mbind option_bind]. unfold pieceOf in Hins. rewrite Hins. cbn [mbind option_bind].
    specialize (Hend (ra_header r) (ra_firstPacket r)). destruct r. apply Hend. done.
Qed.

Lemma beyond_false limit pieces :
  beyond limit pieces = false -> Forall (fun p => pieceStop p <= limit) pieces.
Proof.
  unfold beyond. induction pieces as [|p ps IH]; cbn; intros H; [constructor|].
  apply orb_false_iff in H as [H1 H2]. constructor; [lia|by apply IH].
Qed.

Lemma beyond_true limit pieces :
  beyond limit pieces = true -> exists p, p ∈ pieces /\ limit < pieceStop p.
Proof.
  unfold beyond. intros H. apply existsb_exists in H as (p & Hin & Hp).
  exists p. split; [by apply list_elem_of_In|lia].
Qed.

(** Why a fragment (after trimming) ends the datagram. *)
Definition totalWith (r : ipPacketReassemblyState) (f : ipPacketReassemblyFragment) : Z :=
  if fg_more f then ra_total r else fragmentStop f.

Definition rejects (r : ipPacketReassemblyState) (f : ipPacketReassemblyFragment)
    (maximumPieces : Z) (e : errno) : Prop :=
  (e = EINVAL /\
   (zlen (fg_payload f) = 0 \/ ra_maximum r < fragmentStop f \/
    0 <= ra_total r < fragmentStop f \/
    (* a partial overlap *)
    ((exists x, fg_offset f <= x < fragmentStop f /\ inPieces (ra_pieces r) x) /\
     (exists x, fg_offset f <= x < fragmentStop f /\ ~ inPieces (ra_pieces r) x)) \/
    (* a second final length *)
    (fg_more f = false /\ 0 <= ra_total r /\ ra_total r <> fragmentStop f) \/
    (* data past the end *)
    (fg_more f = false /\ exists p, p ∈ ra_pieces r /\ fragmentStop f < pieceStop p) \/
    (* too long for the header of the first fragment *)
    (fg_offset f = 0 /\ (fg_maximum f < totalWith r f \/
       exists p, p ∈ ra_pieces r /\ fg_maximum f < pieceStop p)) \/
    (* not ECN capable and ECN capable *)
    (let c := Z.lor (ra_ecnMask r) (u8 (Z.shiftl 1 (fg_ecn f))) in Z.land c 1 <> 0 /\ c <> 1))) \/
  (e = ErrResourceLimit /\ 0 < maximumPieces <= zlen (ra_pieces r)).

Lemma withTotal_ok r added total :
  reassemblyOk r added -> 0 < total <= ra_maximum r ->
  Forall (fun p => pieceStop p <= total) (ra_pieces r) -> reassemblyOk (withTotal r total) added.
Proof. intros [Hc Hl Hm Ht Ha Hf H1 Hb He] Hr Hs. split; try done. by right. Qed.

Lemma withECN_ok r added c : reassemblyOk r added -> validMask c -> reassemblyOk (withECN r c) added.
Proof. intros [Hc Hl Hm Ht Ha Hf H1 Hb He] Hv. by split. Qed.

(** A new first fragment finds no other. *)
Lemma apart_first r added f :
  reassemblyOk r added -> 0 < zlen (fg_payload f) -> apart r f -> fg_offset f = 0 ->
  ra_header r = [] /\ Forall (fun g => fg_offset g <> 0) added.
Proof.
  intros H Hp Hap Hz. destruct (ro_first _ _ H) as [?|(g & Hg & Hgz & _)]; [done|exfalso].
  apply (Hap 0); [unfold fragmentStop; lia|]. unfold inPieces. apply list.Exists_exists.
  exists (pieceOf g). assert (pieceOf g ∈ ra_pieces r) as Hin.
  { rewrite (ro_added _ _ H). apply list_elem_of_In, in_map, list_elem_of_In, Hg. }
  split; [done|]. pose proof (ok_positive r added H) as Hpos. rewrite list.Forall_forall in Hpos.
  specialize (Hpos _ Hin). unfold inPiece, pieceStop, pieceOf in *. cbn [fp_offset fp_data] in *. lia.
Qed.

Lemma withFirst_ok r added f :
  reassemblyOk r added -> ra_header r = [] /\ Forall (fun g => fg_offset g <> 0) added ->
  fg_maximum f <= fragmentMaximumDatagram -> ra_total r <= fg_maximum f ->
  Forall (fun p => pieceStop p <= fg_maximum f) (ra_pieces r) ->
  reassemblyOk (withFirst r (fg_protocol f) (fg_maximum f) (fg_nextHeader f)) added.
Proof.
  intros [Hc Hl Hm Ht Ha Hf H1 Hb He] Hno Hmx Htm Hs. split; cbn; try done.
  - destruct Ht as [Ht|[Ht Hts]]; [by left|right]. split; [lia|done].
  - by left.
Qed.

Definition grown (r : ipPacketReassemblyState) (f : ipPacketReassemblyFragment) (r' : ipPacketReassemblyState) : Prop :=
  apart r f /\ ra_v6 r' = ra_v6 r /\ ra_ecnMask r' = Z.lor (ra_ecnMask r) (u8 (Z.shiftl 1 (fg_ecn f))) /\
  ra_maximum r' = if fg_offset f =? 0 then fg_maximum f else ra_maximum r.

Lemma admit_ok be r added f maximumPieces :
  reassemblyOk r added -> fragmentOk f -> fg_v6 f = ra_v6 r -> 0 < zlen (fg_payload f) ->
  fragmentStop f <= ra_maximum r -> (ra_total r = -1 \/ fragmentStop f <= ra_total r) -> apart r f ->
  exists r' res, admitFragment be r f maximumPieces = Some (r', res) /\
    match res with
    | Rejected e =>
        (e = EINVAL /\
         ((fg_offset f = 0 /\ (fg_maximum f < ra_total r \/
             exists p, p ∈ ra_pieces r /\ fg_maximum f < pieceStop p)) \/
          (let c := Z.lor (ra_ecnMask r) (u8 (Z.shiftl 1 (fg_ecn f))) in Z.land c 1 <> 0 /\ c <> 1))) \/
        (e = ErrResourceLimit /\ 0 < maximumPieces <= zlen (ra_pieces r))
    | Pending added' => added' = true /\ complete r' = false /\ reassemblyOk r' (added ++ [f]) /\
        grown r f r' /\ ra_total r' = ra_total r
    | Complete wire => complete r' = true /\ reassemblyOk r' (added ++ [f]) /\ finished be r' wire /\
        grown r f r' /\ ra_total r' = ra_total r
    end.
Proof.
  intros H Hf Hv Hp Hl Ht Hap. unfold admitFragment.
  pose proof (fk_offset f Hf).
  set (first := fg_offset f =? 0).
  set (r1 := if first then _ else r).
  assert (ra_pieces r1 = ra_pieces r /\ ra_ecnMask r1 = ra_ecnMask r /\ ra_total r1 = ra_total r /\
          ra_v6 r1 = ra_v6 r /\ (first = true -> ra_maximum r1 = fg_maximum f)) as (E1 & E2 & E3 & E4 & E5)
    by (unfold r1; destruct first; done).
  destruct (first && _) eqn:Erej.
  { do 2 eexists. split; [done|]. left. split; [done|]. left. apply andb_true_iff in Erej as [Ef Er].
    specialize (E5 Ef). split; [unfold first in Ef; lia|]. apply orb_true_iff in Er as [Er|Er]; [left; lia|right].
    apply beyond_true in Er as (p & Hin & Hpp). rewrite E1 in Hin. exists p. split; [done|lia]. }
  rewrite E1, E2. destruct ((0 <? maximumPieces) && _) eqn:Ebud.
  { do 2 eexists. split; [done|]. right. split; [done|lia]. }
  cbv zeta. set (c := Z.lor _ _). destruct (negb (Z.land c 1 =? 0) && negb (c =? 1)) eqn:Ec.
  { do 2 eexists. split; [done|]. left. split; [done|]. right. fold c. lia. }
  assert (reassemblyOk (withECN r1 c) added) as Hok.
  { apply withECN_ok; [|by apply (candidate_valid _ _ (ro_ecn _ _ H) (fk_ecn f Hf))].
    unfold r1 in *. destruct first eqn:Ef; [|done]. cbn [andb] in Erej. apply orb_false_iff in Erej as [Er1 Er2].
    apply withFirst_ok; [done|apply (apart_first r added f); [done..|unfold first in Ef; lia]|apply Hf| |].
    - specialize (E5 eq_refl). lia.
    - rewrite E1, E5 in Er2 by done. by apply beyond_false. }
  destruct (retain_ok be (withECN r1 c) added f Hok Hf) as (r' & res & E & Hr' & Et & Hres).
  { split; try done.
    - cbn. congruence.
    - cbn. unfold r1 in *. destruct first eqn:Ef; [|done]. cbn.
      unfold first in Ef. apply Z.eqb_eq in Ef. unfold fragmentStop. rewrite Ef. by apply fk_own.
    - cbn. by rewrite E3.
    - intros x Hx. cbn. rewrite E1. by apply Hap.
    - intros Hz. cbn. unfold r1 in *. replace first with true by (unfold first; lia).
      destruct (apart_first r added f H Hp Hap Hz). by split_and!. }
  exists r', res. split; [done|]. destruct Et as (Et & Ev & Ee & Em). cbn in Et, Ev, Ee, Em.
  rewrite E3 in Et. rewrite E4 in Ev.
  assert (grown r f r') as Hg.
  { split_and!; try done. rewrite Em. unfold r1, first. by destruct (fg_offset f =? 0). }
  destruct Hres as [[Hc ->]|(Hc & wire & -> & Hfin)]; by split_and!.
Qed.

(** A range is covered or has an uncovered point. *)
Lemma uncovered_point pieces lo hi :
  (forall x, lo <= x < hi -> inPieces pieces x) \/ (exists x, lo <= x < hi /\ ~ inPieces pieces x).
Proof.
  assert (forall x, inPieces pieces x \/ ~ inPieces pieces x) as Hdec.
  { intros x. unfold inPieces, inPiece. induction pieces as [|p ps IH].
    - right. intros H. by apply Exists_nil in H.
    - rewrite Exists_cons. destruct (decide (fp_offset p <= x)), (decide (x < pieceStop p)); [by left; left| | |];
        (destruct IH as [IH|IH]; [by left; right|right; intros [H|H]; [lia|done]]). }
  assert (forall n : nat, (forall x, lo <= x < lo + Z.of_nat n -> inPieces pieces x) \/
            exists x, lo <= x < lo + Z.of_nat n /\ ~ inPieces pieces x) as Hn.
  { induction n as [|n [IH|(x & Hx & Hno)]]; [left; lia| |right; exists x; split; [lia|done]].
    destruct (Hdec (lo + Z.of_nat n)) as [Hin|Hno]; [left|right; exists (lo + Z.of_nat n); split; [lia|done]].
    intros x Hx. destruct (decide (x = lo + Z.of_nat n)) as [->|]; [done|apply IH; lia]. }
  destruct (Hn (Z.to_nat (hi - lo))) as [Hall|(x & Hx & Hno)].
  - left. intros x Hx. apply Hall. lia.
  - right. exists x. split; [lia|done].
Qed.

(** What one call does to a datagram. *)
Definition addOutcome (be : bool) (r : ipPacketReassemblyState) (added : list ipPacketReassemblyFragment)
    (f : ipPacketReassemblyFragment) (maximumPieces : Z) (r' : ipPacketReassemblyState) (res : addResult) : Prop :=
  match res with
  | Rejected e => rejects r f maximumPieces e
  | Pending false => reassemblyOk r' added /\ ra_total r' = totalWith r f /\ ra_v6 r' = ra_v6 r /\
      complete r' = complete (withTotal r (totalWith r f)) /\
      ra_pieces r' = ra_pieces r /\ ra_maximum r' = ra_maximum r /\ ra_ecnMask r' = ra_ecnMask r /\
      (forall x, fg_offset f <= x < fragmentStop f -> inPieces (ra_pieces r) x)
  | Pending true => complete r' = false /\ reassemblyOk r' (added ++ [f]) /\ grown r f r' /\
      ra_total r' = totalWith r f
  | Complete wire => complete r' = true /\ reassemblyOk r' (added ++ [f]) /\ finished be r' wire /\
      grown r f r' /\ ra_total r' = totalWith r f
  end.

Lemma addFragment_ok be r added f maximumPieces :
  reassemblyOk r added -> fragmentOk f -> fg_v6 f = ra_v6 r ->
  exists f' r' res, trimFragment f = Some f' /\ fragmentOk f' /\ trimmed f f' /\
    addFragment be r f maximumPieces = Some (r', res) /\ addOutcome be r added f' maximumPieces r' res.
Proof.
  intros H Hf0 Hv0. unfold addFragment.
  destruct (trimFragment_ok f Hf0) as (f' & -> & Hf & Htr). cbn [mbind option_bind].
  assert (fg_v6 f' = ra_v6 r) as Hv by (destruct (tr_same _ _ Htr) as (_ & _ & -> & _); done).
  exists f'. clear Hf0 Hv0. cbv zeta. fold (fragmentStop f').
  assert (forall r' res, Some (r', res) = Some (r', res) /\ addOutcome be r added f' maximumPieces r' res ->
    exists r'' res', Some f' = Some f' /\ fragmentOk f' /\ trimmed f f' /\ Some (r', res) = Some (r'', res') /\
      addOutcome be r added f' maximumPieces r'' res') as Hret by (intros r' res [_ Ho]; by exists r', res).
  pose proof (zlen_nonneg (fg_payload f')) as Hnn.
  pose proof (fk_offset f' Hf) as Hoff.
  assert (fragmentStop f' = fg_offset f' + zlen (fg_payload f')) as Estop by done.
  destruct (_ || _ || _ || _) eqn:E1.
  { apply Hret. split; [done|]. left. split; [done|].
    rewrite !orb_true_iff in E1. destruct E1 as [[[E1|E1]|E1]|E1]; [left; lia|right; left; lia| |right; right; left; lia].
    right. left. destruct (ro_total _ _ H) as [|[? _]]; lia. }
  rewrite !orb_false_iff in E1. destruct E1 as [[[E1 E2] E3] E4].
  destruct (fragmentRangeState_ok 0 (ra_pieces r) (fg_offset f') (fragmentStop f') (ro_chain _ _ H) ltac:(lia))
    as (dup & ov & -> & Hdup & Hov). cbn [mbind option_bind].
  destruct (ov && negb dup) eqn:Eov.
  { apply Hret. split; [done|]. left. split; [done|]. do 3 right. left.
    destruct ov, dup; try done. split; [by apply Hov|].
    destruct (uncovered_point (ra_pieces r) (fg_offset f') (fragmentStop f')) as [Hall|Hx]; [|done].
    by apply Hdup in Hall. }
  destruct (negb (fg_more f') && (0 <=? ra_total r) && _) eqn:Efin.
  { apply Hret. split; [done|]. left. split; [done|]. do 4 right. left.
    destruct (fg_more f'); [done|]. cbn in Efin. split_and!; [done|lia|lia]. }
  set (r1 := if fg_more f' then r else _).
  assert (ra_pieces r1 = ra_pieces r /\ ra_maximum r1 = ra_maximum r /\ ra_ecnMask r1 = ra_ecnMask r /\
          ra_v6 r1 = ra_v6 r /\ ra_total r1 = totalWith r f') as (P1 & P2 & P3 & P4 & P5)
    by (unfold r1, totalWith; by destruct (fg_more f')).
  destruct (negb (fg_more f') && beyond _ _) eqn:Ebey.
  { apply Hret. split; [done|]. left. split; [done|]. do 5 right. left.
    apply andb_true_iff in Ebey as [Em Eb]. apply negb_true_iff in Em. split; [done|].
    apply beyond_true in Eb as (p & Hin & Hp). rewrite P1 in Hin. exists p. split; [done|].
    rewrite P5 in Hp. unfold totalWith in Hp. by rewrite Em in Hp. }
  assert (reassemblyOk r1 added) as Hok.
  { unfold r1. destruct (fg_more f') eqn:Em; [done|]. apply withTotal_ok; [done|lia|].
    cbn [negb andb] in Ebey. unfold r1 in Ebey. by apply beyond_false in Ebey. }
  destruct dup eqn:Ed.
  { apply (Hret r1 (Pending false)). split; [done|]. split_and!; try done; [|by apply Hdup].
    unfold r1, totalWith. by destruct (fg_more f'), r. }
  assert (ov = false) as -> by (by destruct ov).
  assert (apart r1 f') as Hap.
  { intros x Hx Hin. rewrite P1 in Hin. assert (false = true) as Hcontra by (apply Hov; by exists x). done. }
  destruct (admit_ok be r1 added f' maximumPieces Hok Hf) as (r' & res & E & Hres); [congruence|lia|lia| |done|].
  { destruct (fg_more f') eqn:Em; unfold totalWith in P5; rewrite Em in P5; [|right; lia].
    destruct (ro_total _ _ H); [left; lia|right; lia]. }
  exists r', res. split_and!; try done. destruct res as [e|[|]|wire]; cbn.
  - rewrite P1, P3, P5 in Hres. destruct Hres as [[-> [Hr|Hr]]|Hr]; [left|left|by right].
    + split; [done|]. do 6 right. by left.
    + split; [done|]. by do 7 right.
  - destruct Hres as (_ & ? & ? & Hg & ?). split_and!; try done; [|congruence].
    unfold grown, apart in *. rewrite P1, P2, P3, P4 in Hg. done.
  - by destruct Hres as [? _].
  - destruct Hres as (? & ? & ? & Hg & ?). split_and!; try done; [|congruence].
    unfold grown, apart in *. rewrite P1, P2, P3, P4 in Hg. done.
Qed.

Lemma start_ok f : fragmentOk f -> reassemblyOk (startReassembly f) [].
Proof.
  intros Hf. split.
  - done.
  - constructor.
  - cbn. pose proof (fk_maximum f Hf). unfold fragmentMaximumDatagram in *.
    destruct (fg_v6 f), (fg_offset f =? 0); cbn; lia.
  - by left.
  - done.
  - constructor.
  - left. split; [done|constructor].
  - done.
  - apply ecnBit, Hf.
Qed.

(** ** Reassembly of a planned payload *)

(** The calls of one datagram until it ends. *)
Fixpoint feed (be : bool) (maximumPieces : Z) (r : ipPacketReassemblyState)
    (fs : list ipPacketReassemblyFragment) : option addResult :=
  match fs with
  | [] => Some (Pending false)
  | f :: fs =>
      '(r, res) ← addFragment be r f maximumPieces;
      match res with
      | Pending _ => feed be maximumPieces r fs
      | _ => Some res
      end
  end.

Definition rangeStop (r : fragmentRange) : Z := fr_offset r + fr_size r.

Lemma plan_range total capacity o rs r :
  plan total capacity o rs -> r ∈ rs ->
  o <= fr_offset r /\ 0 < fr_size r /\ rangeStop r <= total /\ fr_more r = (rangeStop r <? total).
Proof.
  unfold rangeStop. revert o. induction rs as [|q rs IH]; intros o Hp Hin; [by apply elem_of_nil in Hin|].
  destruct Hp as (H1 & H2 & H3 & _ & H5 & H6). apply elem_of_cons in Hin as [->|Hin].
  - split_and!; [lia|lia|lia|]. by rewrite H1.
  - destruct (IH _ H6 Hin) as (? & ? & ? & ?). split_and!; try done; lia.
Qed.

Lemma plan_aligned total capacity o rs r :
  plan total capacity o rs -> r ∈ rs -> fr_more r = true -> fr_size r mod 8 = 0.
Proof.
  revert o. induction rs as [|q rs IH]; intros o Hp Hin; [by apply elem_of_nil in Hin|].
  destruct Hp as (_ & _ & _ & H4 & _ & H6). apply elem_of_cons in Hin as [->|Hin]; [done|by apply (IH _ H6)].
Qed.

Lemma plan_cover total capacity o rs x :
  plan total capacity o rs -> o <= x < total -> exists r, r ∈ rs /\ fr_offset r <= x < rangeStop r.
Proof.
  unfold rangeStop. revert o. induction rs as [|q rs IH]; intros o Hp Hx; [cbn in Hp; lia|].
  destruct Hp as (H1 & H2 & H3 & _ & H5 & H6).
  destruct (decide (x < o + fr_size q)).
  - exists q. split; [left|lia].
  - destruct (IH _ H6 ltac:(lia)) as (r & Hr & ?). exists r. split; [by right|done].
Qed.

Lemma plan_unique total capacity o rs r q x :
  plan total capacity o rs -> r ∈ rs -> q ∈ rs ->
  fr_offset r <= x < rangeStop r -> fr_offset q <= x < rangeStop q -> r = q.
Proof.
  unfold rangeStop. revert o. induction rs as [|p rs IH]; intros o Hp Hr Hq Hxr Hxq; [by apply elem_of_nil in Hr|].
  destruct Hp as (H1 & H2 & H3 & _ & H5 & H6).
  apply elem_of_cons in Hr as [->|Hr]; apply elem_of_cons in Hq as [->|Hq]; [done| | |by apply (IH _ H6)].
  - destruct (plan_range _ _ _ _ _ H6 Hq). lia.
  - destruct (plan_range _ _ _ _ _ H6 Hr). lia.
Qed.

Lemma contiguous_concat data lo hi pieces :
  contiguous lo pieces hi -> 0 <= lo -> hi = zlen data ->
  Forall (fun p => slice data (fp_offset p) (pieceStop p) = Some (fp_data p)) pieces ->
  slice data lo hi = Some (concat (map fp_data pieces)).
Proof.
  intros Hc Hlo Hhi Hf. revert lo Hlo Hc. induction Hf as [|p ps Hp Hps IH]; intros lo Hlo Hc; cbn in Hc |- *.
  - subst lo. rewrite slice_eq by lia. rewrite Z.sub_diag. done.
  - destruct Hc as [Ho Hc]. pose proof (slice_inv _ _ _ _ Hp) as (? & ? & ? & ? & Hd).
    specialize (IH (pieceStop p) ltac:(lia) Hc).
    pose proof (slice_inv _ _ _ _ IH) as (? & ? & ? & ? & Hd').
    rewrite slice_eq by lia. f_equal. rewrite Hd, Hd', Ho.
    replace (Z.to_nat (hi - lo)) with (Z.to_nat (pieceStop p - lo) + Z.to_nat (hi - pieceStop p))%nat by lia.
    rewrite <- take_take_drop, drop_drop. do 3 f_equal. lia.
Qed.

Lemma NoDup_app_snoc {A} (l : list A) x : List.NoDup l -> ~ In x l -> List.NoDup (l ++ [x]).
Proof.
  intros Hl Hx. apply (Permutation_NoDup (l := x :: l)); [|by constructor].
  apply Permutation_cons_append.
Qed.

(** Pieces that cover an interval add up to it. *)
Lemma covered_size lo hi pieces :
  chain lo pieces -> lo <= hi -> Forall (fun p => pieceStop p <= hi) pieces ->
  (forall x, lo <= x < hi -> inPieces pieces x) -> sizeOf pieces = hi - lo.
Proof.
  unfold inPieces, inPiece. revert lo. induction pieces as [|p ps IH]; intros lo Hc Hl Hb Hcov; cbn [sizeOf foldr].
  - destruct (decide (lo = hi)); [lia|]. specialize (Hcov lo ltac:(lia)). by apply Exists_nil in Hcov.
  - destruct Hc as (H1 & H2 & H3). apply Forall_cons_iff in Hb as [Hp Hb]. fold (sizeOf ps).
    assert (fp_offset p = lo) as Ho.
    { destruct (decide (fp_offset p = lo)); [done|]. unfold pieceStop in *.
      specialize (Hcov lo ltac:(lia)). apply Exists_cons in Hcov as [Hcov|Hcov]; [lia|].
      apply (chain_above _ _ lo H3) in Hcov. unfold pieceStop in Hcov. lia. }
    rewrite (IH (pieceStop p) H3 Hp Hb).
    + unfold pieceStop. lia.
    + intros x Hx. specialize (Hcov x ltac:(unfold pieceStop in *; lia)).
      apply Exists_cons in Hcov as [Hcov|Hcov]; [lia|done].
Qed.

Section Planned.
Context (be : bool) (data : list Z) (capacity : Z) (ranges : list fragmentRange) (maximumPieces : Z)
  (make : fragmentRange -> ipPacketReassemblyFragment) (v6 : bool) (ecn : Z)
  (Hplan : plan (zlen data) capacity 0 ranges)
  (Hbudget : maximumPieces <= 0 \/ zlen ranges < maximumPieces)
  (Hmake : forall r, r ∈ ranges -> fragmentOk (make r) /\
     fg_offset (make r) = fr_offset r /\ fg_more (make r) = fr_more r /\
     slice data (fr_offset r) (rangeStop r) = Some (fg_payload (make r)) /\
     fg_v6 (make r) = v6 /\ fg_ecn (make r) = ecn /\ zlen data <= fg_maximum (make r) /\
     (v6 = true \/ fr_more r = false \/ fr_size r mod 8 = 0)).

Lemma make_stop r : r ∈ ranges -> fragmentStop (make r) = rangeStop r /\ zlen (fg_payload (make r)) = fr_size r.
Proof.
  intros Hr. destruct (Hmake r Hr) as (_ & Ho & _ & Hs & _). apply slice_inv in Hs as (_ & _ & _ & Hl & _).
  unfold fragmentStop, rangeStop in *. lia.
Qed.

(** The state after the ranges [S] have arrived. *)
Record plannedState (r : ipPacketReassemblyState) (S : list fragmentRange) : Prop := {
  ps_ok : reassemblyOk r (map make S);
  ps_v6 : ra_v6 r = v6;
  ps_subset : S ⊆ ranges;
  ps_fresh : List.NoDup S;
  ps_total : ra_total r = -1 \/ ra_total r = zlen data;
  ps_final : forall q, q ∈ S -> fr_more q = false -> ra_total r = zlen data;
  ps_maximum : zlen data <= ra_maximum r;
  ps_ecn : ra_ecnMask r = u8 (Z.shiftl 1 ecn);
  ps_open : complete r = false }.

Lemma planned_piece r S p :
  plannedState r S -> p ∈ ra_pieces r -> exists q, q ∈ S /\ p = pieceOf (make q) /\ q ∈ ranges.
Proof.
  intros H Hp. rewrite (ro_added _ _ (ps_ok _ _ H)), map_map in Hp.
  apply list_elem_of_In, in_map_iff in Hp as (q & <- & Hq). apply list_elem_of_In in Hq.
  exists q. split_and!; [done|done|by apply (ps_subset _ _ H)].
Qed.

Lemma planned_inPieces r S x :
  plannedState r S -> inPieces (ra_pieces r) x <-> exists q, q ∈ S /\ fr_offset q <= x < rangeStop q.
Proof.
  intros H. unfold inPieces. rewrite list.Exists_exists. split.
  - intros (p & Hp & Hx). destruct (planned_piece r S p H Hp) as (q & Hq & -> & Hqr).
    exists q. split; [done|]. destruct (make_stop q Hqr) as [E _]. destruct (Hmake q Hqr) as (_ & Ho & _).
    unfold inPiece, pieceOf, pieceStop, fragmentStop in *. cbn [fp_offset fp_data] in *. lia.
  - intros (q & Hq & Hx). pose proof (ps_subset _ _ H q Hq) as Hqr. exists (pieceOf (make q)). split.
    + rewrite (ro_added _ _ (ps_ok _ _ H)), map_map. apply list_elem_of_In, in_map_iff.
      exists q. split; [done|by apply list_elem_of_In].
    + destruct (make_stop q Hqr) as [E _]. destruct (Hmake q Hqr) as (_ & Ho & _).
      unfold inPiece, pieceOf, pieceStop, fragmentStop in *. cbn [fp_offset fp_data] in *. lia.
Qed.

Lemma ecn_same b : validMask b -> Z.lor b b = b /\ ~ (Z.land b 1 <> 0 /\ b <> 1).
Proof.
  intros Hb. rewrite Z.lor_diag. split; [done|]. intros [H1 H2]. destruct Hb as [->|[H _]]; done.
Qed.

(** A range of the plan is never refused. *)
Lemma planned_accepts r S q e :
  plannedState r S -> q ∈ ranges -> ~ rejects r (make q) maximumPieces e.
Proof.
  intros H Hq Hr. destruct (plan_range _ _ _ _ _ Hplan Hq) as (R1 & R2 & R3 & R4).
  destruct (make_stop q Hq) as [Es El]. destruct (Hmake q Hq) as (Hf & Ho & Hm & _ & _ & He & Hx & _).
  pose proof (ps_maximum _ _ H). pose proof (ps_total _ _ H) as Ht. pose proof (zlen_nonneg data).
  assert (forall p, p ∈ ra_pieces r -> pieceStop p <= zlen data) as Hpieces.
  { intros p Hp. destruct (planned_piece r S p H Hp) as (q' & _ & -> & Hq').
    destruct (make_stop q' Hq') as [E' _]. destruct (plan_range _ _ _ _ _ Hplan Hq') as (_ & _ & ? & _).
    unfold pieceOf, pieceStop, fragmentStop in *. cbn [fp_offset fp_data]. lia. }
  destruct Hr as [[_ Hr]|[_ Hr]].
  - destruct Hr as [Hr|[Hr|[Hr|[Hr|[Hr|[Hr|[Hr|Hr]]]]]]].
    + lia.
    + lia.
    + lia.
    + destruct Hr as ((x & Hx1 & Hx2) & (y & Hy1 & Hy2)). apply (planned_inPieces r S x H) in Hx2 as (q' & Hq' & Hx2).
      assert (q = q') as <- by (apply (plan_unique _ _ _ _ _ _ x Hplan Hq); [by apply (ps_subset _ _ H)|lia|lia]).
      apply Hy2, (planned_inPieces r S y H). exists q. split; [done|lia].
    + destruct Hr as (X1 & X2 & X3). rewrite Hm, R4 in X1. lia.
    + destruct Hr as (X1 & p & Hp & X3). specialize (Hpieces p Hp). rewrite Hm, R4 in X1. lia.
    + destruct Hr as (X1 & [X2|(p & Hp & X3)]); [|specialize (Hpieces p Hp); lia].
      unfold totalWith in X2. destruct (fg_more (make q)); lia.
    + cbv zeta in Hr. rewrite (ps_ecn _ _ H), He in Hr.
      assert (validMask (u8 (Z.shiftl 1 ecn))) as Hmask by (rewrite <- He; apply ecnBit, Hf).
      destruct (ecn_same _ Hmask) as [E1 E2]. by rewrite E1 in Hr.
  - assert (zlen (ra_pieces r) <= zlen ranges); [|lia].
    pose proof (ro_added _ _ (ps_ok _ _ H)) as Hp. apply Permutation_length in Hp. rewrite !length_map in Hp.
    unfold zlen. rewrite Hp. apply Nat2Z.inj_le. apply NoDup_incl_length; [apply H|].
    intros x Hin. apply list_elem_of_In, (ps_subset _ _ H), list_elem_of_In, Hin.
Qed.

Lemma planned_step r S q :
  plannedState r S -> q ∈ ranges ->
  exists r' res, addFragment be r (make q) maximumPieces = Some (r', res) /\
    match res with
    | Rejected _ => False
    | Pending false => plannedState r' S /\ q ∈ S
    | Pending true => plannedState r' (S ++ [q])
    | Complete wire => exists hdr, wire = hdr ++ data /\ zlen hdr = zlen (ra_header r')
    end.
Proof.
  intros H Hq. destruct (Hmake q Hq) as (Hf & Ho & Hm & Hs & Hv & He & Hx & Hal).
  destruct (make_stop q Hq) as [Es El]. destruct (plan_range _ _ _ _ _ Hplan Hq) as (R1 & R2 & R3 & R4).
  destruct (addFragment_ok be r (map make S) (make q) maximumPieces (ps_ok _ _ H) Hf)
    as (f' & r' & res & _ & _ & Htr & E & Hout); [by rewrite Hv, (ps_v6 _ _ H)|].
  assert (f' = make q) as ->.
  { apply (tr_aligned _ _ Htr). rewrite Hv, Hm, El. destruct Hal as [->|[->|Hal]]; [by left|by right; left|].
    right. right. rewrite Z.rem_mod_nonneg by lia. done. }
  exists r', res. split; [done|].
  assert (totalWith r (make q) = ra_total r \/ totalWith r (make q) = zlen data) as Htw.
  { unfold totalWith. rewrite Hm, R4, Es. destruct (rangeStop q <? zlen data) eqn:El'; [by left|right; lia]. }
  assert (fr_more q = false -> totalWith r (make q) = zlen data) as Hfin.
  { unfold totalWith. rewrite Hm. intros Hmq. rewrite Hmq, Es. rewrite Hmq in R4. lia. }
  destruct res as [e|[|]|wire]; cbn [addOutcome] in Hout.
  - by apply (planned_accepts r S q e H Hq).
  - destruct Hout as (Hc & Hok & (Hap & Hv' & He' & Hm') & Ht).
    assert (~ q ∈ S) as Hnew.
    { intros Hin. apply (Hap (fr_offset q)); [unfold rangeStop in *; lia|]. apply (planned_inPieces r S _ H).
      exists q. split; [done|]. unfold rangeStop in *. lia. }
    split.
    + by rewrite map_app.
    + rewrite Hv'. by apply (ps_v6 _ _ H).
    + intros x Hin. apply elem_of_app in Hin as [Hin|Hin]; [by apply (ps_subset _ _ H)|].
      apply list_elem_of_singleton in Hin as ->. done.
    + apply NoDup_app_snoc; [apply H|]. by rewrite <- list_elem_of_In.
    + rewrite Ht. destruct Htw as [-> | ->]; [apply H|by right].
    + intros x Hin Hmx. rewrite Ht. apply elem_of_app in Hin as [Hin|Hin].
      * pose proof (ps_final _ _ H x Hin Hmx) as Hf'. destruct Htw as [-> | ->]; done.
      * apply list_elem_of_singleton in Hin as ->. by apply Hfin.
    + rewrite Hm'. destruct (fg_offset (make q) =? 0); [done|apply H].
    + rewrite He', (ps_ecn _ _ H), He.
      assert (validMask (u8 (Z.shiftl 1 ecn))) as Hmask by (rewrite <- He; apply ecnBit, Hf).
      by destruct (ecn_same _ Hmask) as [-> _].
    + done.
  - destruct Hout as (Hok & Ht & Hv' & Hc & Hp & Hmx & Hen & Hcov).
    assert (q ∈ S) as Hin.
    { specialize (Hcov (fr_offset q) ltac:(unfold rangeStop in *; lia)).
      apply (planned_inPieces r S _ H) in Hcov as (q' & Hq' & Hx').
      assert (q = q') as ->; [|done].
      apply (plan_unique _ _ _ _ _ _ (fr_offset q) Hplan Hq); [by apply (ps_subset _ _ H)| |done].
      unfold rangeStop in *. lia. }
    assert (ra_total r' = ra_total r) as Et.
    { rewrite Ht. unfold totalWith. rewrite Hm. destruct (fr_more q) eqn:Em; [done|].
      rewrite (ps_final _ _ H q Hin Em). specialize (Hfin eq_refl). unfold totalWith in Hfin. by rewrite Hm in Hfin. }
    split; [|done]. split; try done.
    + rewrite Hv'. apply H.
    + apply H.
    + apply H.
    + rewrite Et. apply H.
    + rewrite Et. apply H.
    + rewrite Hmx. apply H.
    + rewrite Hen. apply H.
    + rewrite Hc, <- Ht, Et. rewrite <- (ps_open _ _ H). by destruct r.
  - destruct Hout as (Hc & Hok & (Hcon & hdr & df & ecn' & -> & Hr) & _ & Ht).
    exists hdr. split.
    + f_equal.
      destruct (complete_contiguous r' _ Hok Hc) as [Hpos _].
      assert (ra_total r' = zlen data) as Etot.
      { rewrite Ht in *. destruct Htw as [E'|E']; [|done]. rewrite E' in *.
        destruct (ps_total _ _ H) as [E2|E2]; lia. }
      rewrite Etot in Hcon.
      pose proof (contiguous_concat data 0 (zlen data) (ra_pieces r') Hcon ltac:(lia) eq_refl) as Hcc.
      rewrite slice_full in Hcc. assert (Some data = Some (concat (map fp_data (ra_pieces r')))) as Hd.
      { apply Hcc. apply list.Forall_forall. intros p Hp.
        rewrite (ro_added _ _ Hok) in Hp. apply list_elem_of_In, in_map_iff in Hp as (g & <- & Hg).
        apply in_app_or in Hg. assert (exists q', q' ∈ ranges /\ g = make q') as (q' & Hq' & ->).
        { destruct Hg as [Hg|[<-|[]]]; [|by exists q]. apply in_map_iff in Hg as (q' & <- & Hg).
          exists q'. split; [|done]. apply (ps_subset _ _ H). by apply list_elem_of_In. }
        destruct (Hmake q' Hq') as (_ & Ho' & _ & Hs' & _). destruct (make_stop q' Hq') as [Es' _].
        unfold pieceOf, pieceStop, fragmentStop in *. cbn [fp_offset fp_data] in *. by rewrite Es', Ho'. }
      congruence.
    + destruct (ra_v6 r').
      * by destruct Hr as ((E1 & _) & _).
      * by destruct Hr as ((E1 & _) & _).
Qed.

(** Enough ranges arrive, so the datagram completes. *)
Lemma planned_feed r S todo :
  plannedState r S -> todo ⊆ ranges -> (forall q, q ∈ ranges -> q ∈ S \/ q ∈ todo) -> 0 < zlen data ->
  exists hdr, feed be maximumPieces r (map make todo) = Some (Complete (hdr ++ data)).
Proof.
  revert r S. induction todo as [|q todo IH]; intros r S H Hsub Hall Hpos.
  - exfalso. pose proof (ps_open _ _ H) as Hopen. rewrite (complete_sizes r _ (ps_ok _ _ H)) in Hopen.
    destruct (plan_cover _ _ _ _ (zlen data - 1) Hplan ltac:(lia)) as (q & Hq & Hx).
    destruct (plan_range _ _ _ _ _ Hplan Hq) as (_ & _ & R3 & R4).
    assert (q ∈ S) as HqS by (destruct (Hall q Hq) as [|Hn]; [done|by apply elem_of_nil in Hn]).
    assert (ra_total r = zlen data) as Et by (apply (ps_final _ _ H q HqS); rewrite R4; lia).
    assert (sizeOf (ra_pieces r) = zlen data) as Esz; [|lia].
    rewrite (covered_size 0 (zlen data) (ra_pieces r)); [lia|apply H|lia| |].
    + destruct (ro_total _ _ (ps_ok _ _ H)) as [|[_ Hf]]; [lia|by rewrite Et in Hf].
    + intros x Hx'. apply (planned_inPieces r S x H).
      destruct (plan_cover _ _ _ _ x Hplan Hx') as (q' & Hq' & ?). exists q'. split; [|done].
      destruct (Hall q' Hq') as [|Hn]; [done|by apply elem_of_nil in Hn].
  - cbn [map feed]. assert (q ∈ ranges) as Hq by (apply Hsub; left).
    assert (todo ⊆ ranges) as Hsub' by (intros x Hx; apply Hsub; by right).
    destruct (planned_step r S q H Hq) as (r' & res & -> & Hres). cbn [mbind option_bind].
    destruct res as [e|[|]|wire]; [done| | |].
    + apply (IH r' (S ++ [q]) Hres); [done| |done]. intros x Hx.
      destruct (Hall x Hx) as [|Hn]; [left; apply elem_of_app; by left|].
      apply elem_of_cons in Hn as [->|Hn]; [left; apply elem_of_app; right; left|by right].
    + destruct Hres as [Hres Hin]. apply (IH r' S Hres); [done| |done]. intros x Hx.
      destruct (Hall x Hx) as [|Hn]; [by left|]. apply elem_of_cons in Hn as [->|Hn]; [by left|by right].
    + destruct Hres as (hdr & -> & _). by exists hdr.
Qed.
End Planned.

(** ** Properties *)

(** Datagrams in progress: the retained fragments and the state. *)
Inductive reassembling (be : bool) (maximumPieces : Z)
    : list ipPacketReassemblyFragment -> ipPacketReassemblyState -> Prop :=
| reassembly_start f : fragmentOk f -> reassembling be maximumPieces [] (startReassembly f)
| reassembly_add added r f f' r' isNew :
    reassembling be maximumPieces added r -> fragmentOk f -> fg_v6 f = ra_v6 r ->
    trimFragment f = Some f' -> addFragment be r f maximumPieces = Some (r', Pending isNew) ->
    reassembling be maximumPieces (if isNew then added ++ [f'] else added) r'.

Lemma reassembling_ok be maximumPieces added r :
  reassembling be maximumPieces added r -> reassemblyOk r added.
Proof.
  induction 1 as [f Hf|added r f f' r' isNew _ IH Hf Hv Ht E]; [by apply start_ok|].
  destruct (addFragment_ok be r added f maximumPieces IH Hf Hv) as (g & r2 & res & Eg & _ & _ & E2 & Hout).
  rewrite Ht in Eg. injection Eg as <-. rewrite E in E2. injection E2 as <- <-.
  destruct isNew; cbn [addOutcome] in Hout; apply Hout.
Qed.

(** [wire] is the payload of the fragments [fs], each verbatim at its offset and
    nothing else, behind the restored header of the first one. *)
Definition assembles (be : bool) (r : ipPacketReassemblyState) (fs : list ipPacketReassemblyFragment)
    (wire : list Z) : Prop :=
  exists hdr payload df ecn,
    wire = hdr ++ payload /\ zlen payload = ra_total r /\
    (forall g, g ∈ fs -> slice payload (fg_offset g) (fragmentStop g) = Some (fg_payload g)) /\
    (forall x, 0 <= x < zlen payload -> exists g, g ∈ fs /\ fg_offset g <= x < fragmentStop g) /\
    (exists g, g ∈ fs /\ firstOf r g) /\
    if ra_v6 r then restored6 r ecn hdr else restored4 be r df ecn hdr.

Lemma finished_assembles be r added wire :
  complete r = true -> reassemblyOk r added -> finished be r wire -> assembles be r added wire.
Proof.
  intros Hc Hok (Hcon & hdr & df & ecn & -> & Hh).
  destruct (complete_contiguous r _ Hok Hc) as [Hpos _].
  exists hdr, (concat (map fp_data (ra_pieces r))), df, ecn.
  pose proof (contiguous_size 0 _ _ Hcon) as Hsz.
  assert (forall g, g ∈ added -> pieceOf g ∈ ra_pieces r) as Hpiece.
  { intros g Hg. rewrite (ro_added _ _ Hok). by apply list_elem_of_In, in_map, list_elem_of_In. }
  split_and!; [done|lia| | | |done].
  - intros g Hg. pose proof (contiguous_slice 0 _ _ _ Hcon (Hpiece g Hg)) as Hs.
    unfold pieceOf, pieceStop in Hs. cbn [fp_offset fp_data] in Hs. by rewrite !Z.sub_0_r in Hs.
  - intros x Hx. destruct (contiguous_member 0 (ra_pieces r) (ra_total r) x Hcon) as (p & Hp & Hx'); [lia|].
    rewrite (ro_added _ _ Hok) in Hp. apply list_elem_of_In, in_map_iff in Hp as (g & <- & Hg).
    exists g. split; [by apply list_elem_of_In|exact Hx'].
  - destruct (ro_first _ _ Hok) as [[_ Hno]|(g & Hg & Hfirst)]; [exfalso|by exists g].
    destruct (contiguous_member 0 (ra_pieces r) (ra_total r) 0 Hcon) as (p & Hp & Hx'); [lia|].
    rewrite (ro_added _ _ Hok) in Hp. apply list_elem_of_In, in_map_iff in Hp as (g & <- & Hg).
    rewrite list.Forall_forall in Hno. pose proof (ro_fragments _ _ Hok) as Hfs.
    rewrite list.Forall_forall in Hfs. apply list_elem_of_In in Hg.
    destruct (Hfs g Hg) as [Hgf _]. pose proof (fk_offset g Hgf).
    apply (Hno g Hg). unfold inPiece, pieceOf in Hx'. cbn [fp_offset] in Hx'. lia.
Qed.

(** C4. Reassembly is exact for an arbitrary peer: every call returns; a
    rejection has one of the listed reasons; a duplicate was covered already;
    and a packet is delivered only when the retained fragments cover it, with
    each of them verbatim at its offset, behind the restored header of the
    first fragment. *)
Theorem reassembly_exact (be : bool) (maximumPieces : Z) (added : list ipPacketReassemblyFragment)
    (r : ipPacketReassemblyState) (f : ipPacketReassemblyFragment) :
  reassembling be maximumPieces added r -> fragmentOk f -> fg_v6 f = ra_v6 r ->
  exists f' r' res, trimFragment f = Some f' /\ addFragment be r f maximumPieces = Some (r', res) /\
    match res with
    | Rejected e => rejects r f' maximumPieces e
    | Pending false => forall x, fg_offset f' <= x < fragmentStop f' -> inPieces (ra_pieces r) x
    | Pending true => apart r f' /\ complete r' = false
    | Complete wire => apart r f' /\ assembles be r' (added ++ [f']) wire
    end.
Proof.
  intros Hr Hf Hv. pose proof (reassembling_ok _ _ _ _ Hr) as H.
  destruct (addFragment_ok be r added f maximumPieces H Hf Hv) as (f' & r' & res & Et & _ & _ & E & Hout).
  exists f', r', res. split; [done|]. split; [done|].
  destruct res as [e|[|]|wire]; cbn [addOutcome] in Hout; [done| | |].
  - destruct Hout as (Hc & _ & (Hap & _) & _). done.
  - apply Hout.
  - destruct Hout as (Hc & Hok & Hfin & (Hap & _) & _). split; [done|]. by apply finished_assembles.
Qed.

(** C5. Fragmentation and reassembly are inverse: the planner returns ranges
    that cut the payload without gap or overlap within the capacity, on
    eight-byte boundaries except at the end; and fragments of these ranges, in
    any order and with any repetition, reassemble to exactly that payload. *)
Theorem fragments_reassemble (be : bool) (data : list Z) (capacity maximumPieces : Z)
    (cursor : fragmentRangeCursor) :
  newFragmentRangeCursor (zlen data) capacity = Some cursor ->
  exists ranges, fragmentRanges cursor = Some ranges /\ plan (zlen data) capacity 0 ranges /\
    (maximumPieces <= 0 \/ zlen ranges < maximumPieces ->
     forall (make : fragmentRange -> ipPacketReassemblyFragment) (ecn : Z) (v6 : bool) (q : fragmentRange)
            (arrivals : list fragmentRange),
       (forall r, r ∈ ranges -> fragmentOk (make r) /\
          fg_offset (make r) = fr_offset r /\ fg_more (make r) = fr_more r /\
          slice data (fr_offset r) (rangeStop r) = Some (fg_payload (make r)) /\
          fg_v6 (make r) = v6 /\ fg_ecn (make r) = ecn /\ zlen data <= fg_maximum (make r)) ->
       zlen data <= 65515 -> (forall r, r ∈ q :: arrivals <-> r ∈ ranges) ->
       exists hdr, feed be maximumPieces (startReassembly (make q)) (map make (q :: arrivals))
                   = Some (Complete (hdr ++ data))).
Proof.
  intros Hnew. unfold newFragmentRangeCursor in Hnew. destruct (_ || _) eqn:E; [done|].
  injection Hnew as <-. apply orb_false_iff in E as [E1 E2].
  destruct (cursor_loop (S (Z.to_nat (zlen data)))
    (mkCursor (zlen data) capacity (Z.ldiff capacity 7) 0) []) as (ranges & El & Hplan);
    cbn [cu_total cu_capacity cu_alignedCapacity cu_offset] in *; try done; try lia.
  exists ranges. split; [exact El|]. split; [done|].
  intros Hbudget make ecn v6 q arrivals Hmake Hsize Hall.
  assert (q ∈ ranges) as Hq by (apply Hall; left).
  assert (forall r, r ∈ ranges -> v6 = true \/ fr_more r = false \/ fr_size r mod 8 = 0) as Hal.
  { intros r Hr. destruct (fr_more r) eqn:Em; [right; right|by right; left]. by apply (plan_aligned _ _ _ _ _ Hplan Hr). }
  apply (planned_feed be data capacity ranges maximumPieces make v6 ecn Hplan Hbudget) with (S := []).
  - intros r Hr. destruct (Hmake r Hr) as (? & ? & ? & ? & ? & ? & ?). split_and!; try done. by apply Hal.
  - destruct (Hmake q Hq) as (Hf & ? & ? & ? & Hv & He & Hm). split; try done.
    + by apply start_ok.
    + intros x Hx. by apply elem_of_nil in Hx.
    + constructor.
    + by left.
    + intros x Hx. by apply elem_of_nil in Hx.
    + cbn. destruct (fg_v6 (make q) || (fg_offset (make q) =? 0)); [done|]. unfold fragmentMaximumDatagram. lia.
    + cbn. by rewrite He.
  - intros x Hx. by apply Hall.
  - intros x Hx. right. by apply Hall.
  - lia.
Qed.

(** ** Witnesses *)

Definition sampleHeader : list Z :=
  [69;0;0;32;0;7;32;0;64;17;0;0;10;0;0;1;10;0;0;2].
Definition sampleData : list Z := [1;2;3;4;5;6;7;8;9;10;11;12].
Definition sampleFragment (q : fragmentRange) : ipPacketReassemblyFragment :=
  let payload := take (Z.to_nat (fr_size q)) (drop (Z.to_nat (fr_offset q)) sampleData) in
  mkFragment (Addr4 [10;0;0;1]) (Addr4 [10;0;0;2]) 17 (fr_offset q) (fr_more q) payload 7 false 0
    (65535 - 20) (20 + zlen payload) false sampleHeader 9
    (if fr_offset q =? 0 then sampleHeader ++ payload else []).
Definition sampleFirst : fragmentRange := mkRange 0 8 true.
Definition sampleLast : fragmentRange := mkRange 8 4 false.
Definition sampleState : ipPacketReassemblyState :=
  match addFragment false (startReassembly (sampleFragment sampleLast)) (sampleFragment sampleLast) 256 with
  | Some (r, _) => r
  | None => startReassembly (sampleFragment sampleLast)
  end.

Lemma sampleFragment_ok q : q ∈ [sampleFirst; sampleLast] -> fragmentOk (sampleFragment q).
Proof.
  intros Hq. apply elem_of_cons in Hq as [-> | Hq]; [|apply list_elem_of_singleton in Hq as ->].
  - split; cbn -[Z.rem]; try lia.
    + vm_compute. discriminate.
    + split_and!; [by apply bytes_check|by apply bytes_check|unfold is_u8; lia].
    + intros _. exists []. split; reflexivity.
    + vm_compute. discriminate.
    + intros _. vm_compute. split; [discriminate|done].
  - split; cbn -[Z.rem]; try lia.
    + vm_compute. discriminate.
    + split_and!; [by apply bytes_check|by apply bytes_check|unfold is_u8; lia].
Qed.

Lemma sampleState_reassembling : reassembling false 256 [sampleFragment sampleLast] sampleState.
Proof.
  change [sampleFragment sampleLast] with (if true then [] ++ [sampleFragment sampleLast] else []).
  apply (reassembly_add false 256 [] (startReassembly (sampleFragment sampleLast)) (sampleFragment sampleLast)).
  - apply reassembly_start, sampleFragment_ok. right. left.
  - apply sampleFragment_ok. right. left.
  - reflexivity.
  - vm_compute. reflexivity.
  - vm_compute. reflexivity.
Qed.

(** The last fragment arrived; the first one completes the datagram. *)
Lemma reassembly_exact_witness :
  reassembling false 256 [sampleFragment sampleLast] sampleState /\
  exists r' wire, addFragment false sampleState (sampleFragment sampleFirst) 256 = Some (r', Complete wire) /\
    apart sampleState (sampleFragment sampleFirst) /\
    exists hdr payload, wire = hdr ++ payload /\ slice payload 8 12 = Some [9;10;11;12].
Proof.
  pose proof sampleState_reassembling as Hr.
  split; [exact Hr|].
  destruct (reassembly_exact false 256 [sampleFragment sampleLast] sampleState (sampleFragment sampleFirst))
    as (f' & r' & res & Et & E & H); [exact Hr|apply sampleFragment_ok; left|reflexivity|].
  injection Et as <-.
  assert (exists wire, res = Complete wire) as (wire & ->).
  { vm_compute in E. injection E as _ <-. eexists. reflexivity. }
  destruct H as (Hap & hdr & payload & df & ecn & Hw & _ & Hs & _).
  exists r', wire. split; [exact E|]. split; [exact Hap|]. exists hdr, payload. split; [exact Hw|].
  apply (Hs (sampleFragment sampleLast)). left.
Defined.

(** Twelve bytes cut at eight, delivered last first and with a repetition. *)
Lemma fragments_reassemble_witness :
  exists hdr, feed false 256 (startReassembly (sampleFragment sampleLast))
                (map sampleFragment [sampleLast; sampleLast; sampleFirst])
              = Some (Complete (hdr ++ sampleData)).
Proof.
  destruct (fragments_reassemble false sampleData 8 256 (mkCursor 12 8 8 0)) as (ranges & E & _ & H);
    [reflexivity|].
  vm_compute in E. injection E as <-.
  change (mkRange 0 8 true) with sampleFirst in H. change (mkRange 8 4 false) with sampleLast in H.
  apply (H (or_intror eq_refl) sampleFragment 0 false sampleLast [sampleLast; sampleFirst]).
  - intros r Hr. split; [by apply sampleFragment_ok|].
    apply elem_of_cons in Hr as [-> | Hr]; [|apply list_elem_of_singleton in Hr as ->];
      vm_compute; split_and!; try reflexivity; discriminate.
  - vm_compute. discriminate.
  - intros r. rewrite !elem_of_cons. tauto.
Defined.
