(* ===== verification/FragmentTable.v ===== *)
(** * The stack's fragment table

    The bounded table of [fragment.go] that holds one reassembly per datagram:
    lookup by key, limits on datagrams and bytes with eviction of the least
    recently extended one, expiry from the first fragment, and pruning.

    The table is reached under a lock, so an operation is a function on its
    state. An entry is stored under one key only and is identified by it. A Go
    map is visited in an arbitrary order, which is the argument [order]. Whether
    the stack accepts a destination or a source depends on its configuration and
    is an argument too. *)

From stdpp Require Import strings gmap.
From S2P Require Import Prelude Addr Checksum Fragment.

(** ** Data *)

Definition fragmentMaximumSets : Z := 128.
Definition fragmentMaximumPieces : Z := 256.
Definition fragmentMaximumBytes : Z := 4 * 1024 * 1024.
Definition fragmentIPv4Lifetime : Z := 30 * second.
Definition fragmentIPv6Lifetime : Z := 60 * second.

Record fragmentKey := mkFragmentKey {
  fk_source : Addr;
  fk_target : Addr;
  fk_identification : Z;
  fk_protocol : Z;
  fk_v6 : bool;
  fk_loopback : bool }.

#[global] Instance fragmentKey_eq : EqDecision fragmentKey.
Proof. solve_decision. Defined.

#[global] Instance fragmentKey_countable : Countable fragmentKey.
Proof.
  refine (inj_countable'
    (fun k => (fk_source k, fk_target k, fk_identification k, fk_protocol k, fk_v6 k, fk_loopback k))
    (fun '(s, t, i, p, v, l) => mkFragmentKey s t i p v l) _).
  by intros [].
Defined.

(** The key of a fragment; only IPv4 includes the protocol. *)
Definition reassemblyKey (f : ipPacketReassemblyFragment) (loopback : bool) : fragmentKey :=
  mkFragmentKey (fg_source f) (fg_target f) (fg_identifier f)
    (if fg_v6 f then 0 else fg_protocol f) (fg_v6 f) loopback.

Record ipPacketReassemblyEntry := mkEntry {
  fe_state : ipPacketReassemblyState;
  fe_created : Z;
  fe_updated : Z;
  fe_accountedBytes : Z }.

(** The part of [Stack] under [fragmentMu], with the two counters. *)
Record fragmentTable := mkTable {
  ft_fragments : gmap fragmentKey ipPacketReassemblyEntry;
  ft_fragmentBytes : Z;
  ft_wake : bool;
  ft_timeouts : Z;
  ft_evictions : Z }.

Definition mapOrder : Type :=
  gmap fragmentKey ipPacketReassemblyEntry -> list (fragmentKey * ipPacketReassemblyEntry).

(** ** Removal and expiry *)

Definition removeFragment (t : fragmentTable) (key : fragmentKey) : fragmentTable :=
  match ft_fragments t !! key with
  | None => t
  | Some entry =>
      mkTable (delete key (ft_fragments t)) (ft_fragmentBytes t - fe_accountedBytes entry) (ft_wake t)
        (ft_timeouts t) (ft_evictions t)
  end.

Definition discardFragment := removeFragment.

Definition fragmentExpiry (entry : ipPacketReassemblyEntry) : Z :=
  fe_created entry + (if ra_v6 (fe_state entry) then fragmentIPv6Lifetime else fragmentIPv4Lifetime).

Definition noteTimeout (t : fragmentTable) : fragmentTable :=
  mkTable (ft_fragments t) (ft_fragmentBytes t) (ft_wake t) (ft_timeouts t + 1) (ft_evictions t).

Definition cleanStep (now : Z) (acc : fragmentTable * list ipPacketReassemblyEntry)
    (item : fragmentKey * ipPacketReassemblyEntry) : fragmentTable * list ipPacketReassemblyEntry :=
  let '(t, expired) := acc in
  let '(key, entry) := item in
  if now <? fragmentExpiry entry then (t, expired)
  else
    (noteTimeout (removeFragment t key),
     if negb (zlen (ra_firstPacket (fe_state entry)) =? 0) then expired ++ [entry] else expired).

Definition cleanFragments (order : mapOrder) (now : Z) (t : fragmentTable)
    : fragmentTable * list ipPacketReassemblyEntry :=
  fold_left (cleanStep now) (order (ft_fragments t)) (t, []).

(** The zero time stands for "none", as in the code. *)
Definition nextStep (next : Z) (item : fragmentKey * ipPacketReassemblyEntry) : Z :=
  let expiry := fragmentExpiry (snd item) in
  if (next =? 0) || (expiry <? next) then expiry else next.

Definition nextFragmentExpiry (order : mapOrder) (t : fragmentTable) : Z * bool :=
  let next := fold_left nextStep (order (ft_fragments t)) 0 in (next, negb (next =? 0)).

(** ** Eviction *)

Definition oldestStep (except : option fragmentKey)
    (oldest : option (fragmentKey * ipPacketReassemblyEntry))
    (item : fragmentKey * ipPacketReassemblyEntry) : option (fragmentKey * ipPacketReassemblyEntry) :=
  if bool_decide (Some (fst item) = except) then oldest
  else
    match oldest with
    | None => Some item
    | Some (_, e) => if fe_updated (snd item) <? fe_updated e then Some item else oldest
    end.

Definition evictOldestFragmentExcept (order : mapOrder) (except : option fragmentKey) (t : fragmentTable)
    : fragmentTable * bool :=
  match fold_left (oldestStep except) (order (ft_fragments t)) None with
  | Some (key, _) =>
      let t := removeFragment t key in
      (mkTable (ft_fragments t) (ft_fragmentBytes t) (ft_wake t) (ft_timeouts t) (ft_evictions t + 1), true)
  | None => (t, false)
  end.

(** [for len(s.fragments) >= fragmentMaximumSets]. *)
Definition makeRoomBody (order : mapOrder) (t : fragmentTable) : option (fragmentTable + fragmentTable) :=
  if fragmentMaximumSets <=? Z.of_nat (size (ft_fragments t))
  then Some (inl (fst (evictOldestFragmentExcept order None t))) else Some (inr t).

(** The byte limit, which spares the datagram being extended. *)
Definition byteRoomBody (order : mapOrder) (key : fragmentKey) (t : fragmentTable)
    : option (fragmentTable + fragmentTable) :=
  if (fragmentMaximumBytes <? ft_fragmentBytes t) && (1 <? Z.of_nat (size (ft_fragments t))) then
    let '(t, evicted) := evictOldestFragmentExcept order (Some key) t in
    Some (if evicted then inl t else inr t)
  else Some (inr t).

(** ** One fragment *)

Definition withFragments (t : fragmentTable) (fragments : gmap fragmentKey ipPacketReassemblyEntry)
    (bytes : Z) (wake : bool) : fragmentTable :=
  mkTable fragments bytes wake (ft_timeouts t) (ft_evictions t).

(** The entry for [key], created when there is none. *)
Definition entryFor (order : mapOrder) (key : fragmentKey) (f : ipPacketReassemblyFragment) (now : Z)
    (t : fragmentTable) : option (fragmentTable * ipPacketReassemblyEntry) :=
  match ft_fragments t !! key with
  | Some entry => Some (t, entry)
  | None =>
      t ← loop (S (size (ft_fragments t))) (makeRoomBody order) t;
      let entry := mkEntry (startReassembly f) now now 0 in
      Some (withFragments t (<[key := entry]> (ft_fragments t)) (ft_fragmentBytes t) true, entry)
  end.

(** What becomes of a fragment; [Delivered] carries the packet. *)
Inductive tableResult := Dropped | Retained | Delivered (wire : list Z).

(** After the state machine accepted the fragment: times and limits. *)
Definition settleEntry (order : mapOrder) (key : fragmentKey) (now : Z) (t : fragmentTable)
    (entry : ipPacketReassemblyEntry) (res : addResult) : option (fragmentTable * tableResult) :=
  match res with
  | Rejected _ => Some (removeFragment t key, Dropped)
  | Pending added =>
      let early := now <? fe_created entry in
      let entry := mkEntry (fe_state entry) (if early then now else fe_created entry)
                     (if (added : bool) && (fe_updated entry <? now) then now else fe_updated entry)
                     (fe_accountedBytes entry) in
      let t := withFragments t (<[key := entry]> (ft_fragments t)) (ft_fragmentBytes t)
                 (ft_wake t || early) in
      t ← loop (S (size (ft_fragments t))) (byteRoomBody order key) t;
      if fragmentMaximumBytes <? ft_fragmentBytes t then Some (removeFragment t key, Dropped)
      else Some (t, Retained)
  | Complete wire =>
      let t := withFragments t (ft_fragments t) (ft_fragmentBytes t) (ft_wake t || (now <? fe_created entry)) in
      Some (removeFragment t key, Delivered wire)
  end.

(** [reassembleParsedFragmentStatus]; the list of expired datagrams goes to
    [sendFragmentTimeouts] when the lock is released. *)
Definition reassembleFragment (order : mapOrder) (bigEndian : bool)
    (acceptsInboundDestination : Addr -> bool -> bool)
    (validInboundFragmentSource : Addr -> Addr -> Z -> bool)
    (closed : bool) (t : fragmentTable) (truncated parameter : bool)
    (f : ipPacketReassemblyFragment) (now : Z) (loopback : bool)
    : option (fragmentTable * list ipPacketReassemblyEntry * tableResult) :=
  if truncated || parameter || negb (acceptsInboundDestination (fg_target f) loopback)
     || negb (validInboundFragmentSource (fg_source f) (fg_target f) (fg_protocol f))
  then Some (t, [], Dropped)
  else
    let key := reassemblyKey f loopback in
    if closed then Some (t, [], Dropped)
    else
      let '(t, expired) := cleanFragments order now t in
      '(t, entry) ← entryFor order key f now t;
      '(r, res) ← addFragment bigEndian (fe_state entry) f fragmentMaximumPieces;
      let bytes := ft_fragmentBytes t + (ra_bytes r - fe_accountedBytes entry) in
      let entry := mkEntry r (fe_created entry) (fe_updated entry) (ra_bytes r) in
      let t := withFragments t (<[key := entry]> (ft_fragments t)) bytes (ft_wake t) in
      '(t, result) ← settleEntry order key now t entry res;
      Some (t, expired, result).

(** ** The cleaner and pruning *)

(** One turn of [runFragmentCleaner] at [now]: the expired datagrams and the
    delay until the next deadline. *)
Definition cleanerTurn (order : mapOrder) (now : Z) (t : fragmentTable)
    : fragmentTable * list ipPacketReassemblyEntry * option Z :=
  let '(t, expired) := cleanFragments order now t in
  let '(next, haveNext) := nextFragmentExpiry order t in
  (t, expired,
   if haveNext then Some (let delay := timeSub next now in if delay <? 0 then 0 else delay) else None).

Definition pruneStep (acceptsInboundDestination : Addr -> bool -> bool) (t : fragmentTable)
    (item : fragmentKey * ipPacketReassemblyEntry) : fragmentTable :=
  let key := fst item in
  if negb (acceptsInboundDestination (fk_target key) (fk_loopback key)) then removeFragment t key else t.

Definition pruneFragments (order : mapOrder) (acceptsInboundDestination : Addr -> bool -> bool)
    (t : fragmentTable) : fragmentTable :=
  fold_left (pruneStep acceptsInboundDestination) (order (ft_fragments t)) t.

(** ** Lemmas: accounting *)

Definition accounted (m : gmap fragmentKey ipPacketReassemblyEntry) : Z :=
  map_fold (fun _ e sum => fe_accountedBytes e + sum) 0 m.

Lemma accounted_insert m k e : m !! k = None -> accounted (<[k := e]> m) = fe_accountedBytes e + accounted m.
Proof.
  intros H. unfold accounted.
  by rewrite (map_fold_insert_L (fun (_ : fragmentKey) e sum => fe_accountedBytes e + sum)) by (done || intros; lia).
Qed.

Lemma accounted_delete m k e : m !! k = Some e -> accounted (delete k m) = accounted m - fe_accountedBytes e.
Proof.
  intros H. rewrite <- (insert_delete_id m k e H) at 2. rewrite accounted_insert; [lia|].
  by rewrite lookup_delete_eq.
Qed.

Lemma accounted_update m k e e' :
  m !! k = Some e -> accounted (<[k := e']> m) = accounted m - fe_accountedBytes e + fe_accountedBytes e'.
Proof.
  intros H. rewrite <- insert_delete_eq, accounted_insert by (by rewrite lookup_delete_eq).
  rewrite (accounted_delete m k e H). lia.
Qed.

(** What the visiting order may be. *)
Definition orderOk (order : mapOrder) : Prop := forall m, order m ≡ₚ map_to_list m.

Lemma order_elem order m k e : orderOk order -> (k, e) ∈ order m <-> m !! k = Some e.
Proof. intros H. by rewrite (H m), elem_of_map_to_list. Qed.

Lemma order_nodup order m : orderOk order -> base.NoDup ((order m).*1).
Proof. intros H. rewrite (H m). apply NoDup_fst_map_to_list. Qed.

(** ** The invariant

    The table stands for a map from keys to the fragments retained so far. *)

Abbreviation historyMap := (gmap fragmentKey (list ipPacketReassemblyFragment)).

Record entryRel (be : bool) (k : fragmentKey) (e : ipPacketReassemblyEntry)
    (added : list ipPacketReassemblyFragment) : Prop := {
  er_state : reassembling be fragmentMaximumPieces added (fe_state e);
  er_accounted : fe_accountedBytes e = ra_bytes (fe_state e);
  er_family : ra_v6 (fe_state e) = fk_v6 k;
  er_key : Forall (fun g => reassemblyKey g (fk_loopback k) = k) added }.

Record tableRel (be : bool) (t : fragmentTable) (h : historyMap) : Prop := {
  tr_entries : forall k, match ft_fragments t !! k, h !! k with
                         | Some e, Some added => entryRel be k e added
                         | None, None => True
                         | _, _ => False
                         end;
  tr_bytes : ft_fragmentBytes t = accounted (ft_fragments t) }.

(** The limits between two calls. *)
Definition tableBounded (t : fragmentTable) : Prop :=
  Z.of_nat (size (ft_fragments t)) <= fragmentMaximumSets /\ ft_fragmentBytes t <= fragmentMaximumBytes.

Lemma sizeOf_nonneg pieces : 0 <= sizeOf pieces.
Proof. unfold sizeOf. induction pieces as [|p ps IH]; cbn [foldr]; [lia|]. pose proof (zlen_nonneg (fp_data p)). lia. Qed.

Lemma entry_bytes be k e added : entryRel be k e added -> 0 <= fe_accountedBytes e.
Proof.
  intros [Hr -> _ _]. apply reassembling_ok in Hr. rewrite (ro_bytes _ _ Hr).
  pose proof (sizeOf_nonneg (ra_pieces (fe_state e))). unfold overhead.
  pose proof (zlen_nonneg (ra_header (fe_state e))). split_ifs; lia.
Qed.

Lemma tableRel_entry be t h k e :
  tableRel be t h -> ft_fragments t !! k = Some e -> exists added, h !! k = Some added /\ entryRel be k e added.
Proof. intros H E. pose proof (tr_entries _ _ _ H k) as Hk. rewrite E in Hk. destruct (h !! k) as [a|]; [by exists a|done]. Qed.

Lemma tableRel_none be t h k : tableRel be t h -> ft_fragments t !! k = None -> h !! k = None.
Proof. intros H E. pose proof (tr_entries _ _ _ H k) as Hk. rewrite E in Hk. by destruct (h !! k). Qed.

Lemma accounted_nonneg be t h : tableRel be t h -> 0 <= accounted (ft_fragments t).
Proof.
  intros H. unfold accounted.
  apply (map_fold_weak_ind (fun r m => (forall k e, m !! k = Some e -> ft_fragments t !! k = Some e) -> 0 <= r)).
  - done.
  - intros k e m r Hk IH Hsub.
    destruct (tableRel_entry be t h k e H) as (a & _ & Ha); [apply Hsub; by rewrite lookup_insert_eq|].
    apply entry_bytes in Ha. enough (0 <= r) by lia. apply IH. intros k' e' E. apply Hsub.
    rewrite lookup_insert_ne; [done|]. intros <-. congruence.
  - done.
Qed.

(** ** Lemmas: removal *)

Lemma remove_fragments t k : ft_fragments (removeFragment t k) = delete k (ft_fragments t).
Proof.
  unfold removeFragment. destruct (ft_fragments t !! k) eqn:E; [done|]. by rewrite delete_id.
Qed.

Lemma tableRel_same be t t' h :
  tableRel be t h -> ft_fragments t' = ft_fragments t -> ft_fragmentBytes t' = ft_fragmentBytes t -> tableRel be t' h.
Proof. intros [H1 H2] Ef Eb. split; [by rewrite Ef|by rewrite Ef, Eb]. Qed.

Lemma remove_rel be t h k : tableRel be t h -> tableRel be (removeFragment t k) (delete k h).
Proof.
  intros H. split.
  - intros k'. rewrite remove_fragments. destruct (decide (k' = k)) as [->|Hn].
    + by rewrite !lookup_delete_eq.
    + rewrite !lookup_delete_ne by done. apply H.
  - rewrite remove_fragments. unfold removeFragment. destruct (ft_fragments t !! k) as [e|] eqn:E; cbn.
    + rewrite (accounted_delete _ _ _ E), (tr_bytes _ _ _ H). lia.
    + rewrite delete_id by done. apply H.
Qed.

Lemma remove_bytes be t h k : tableRel be t h -> ft_fragmentBytes (removeFragment t k) <= ft_fragmentBytes t.
Proof.
  intros H. unfold removeFragment. destruct (ft_fragments t !! k) as [e|] eqn:E; [|lia]. cbn.
  destruct (tableRel_entry _ _ _ _ _ H E) as (a & _ & Ha). apply entry_bytes in Ha. lia.
Qed.

(** Storing an entry together with its history. *)
Lemma put_rel be t h k e e' added w :
  tableRel be t h -> ft_fragments t !! k = Some e -> entryRel be k e' added ->
  tableRel be (withFragments t (<[k := e']> (ft_fragments t))
                 (ft_fragmentBytes t + (fe_accountedBytes e' - fe_accountedBytes e)) w) (<[k := added]> h).
Proof.
  intros H Ek He. split; cbn.
  - intros k'. destruct (decide (k' = k)) as [->|Hn].
    + by rewrite !lookup_insert_eq.
    + rewrite !lookup_insert_ne by done. apply H.
  - rewrite (accounted_update _ _ e) by done. rewrite (tr_bytes _ _ _ H). lia.
Qed.

Lemma put_new_rel be t h k e' added w :
  tableRel be t h -> ft_fragments t !! k = None -> entryRel be k e' added ->
  tableRel be (withFragments t (<[k := e']> (ft_fragments t)) (ft_fragmentBytes t + fe_accountedBytes e') w)
    (<[k := added]> h).
Proof.
  intros H Ek He. split; cbn.
  - intros k'. destruct (decide (k' = k)) as [->|Hn].
    + by rewrite !lookup_insert_eq.
    + rewrite !lookup_insert_ne by done. apply H.
  - rewrite accounted_insert by done. rewrite (tr_bytes _ _ _ H). lia.
Qed.

(** Storing an entry, even a broken one, and removing it again. *)
Lemma put_remove be t h k e e' w :
  tableRel be t h -> ft_fragments t !! k = Some e ->
  let t' := withFragments t (<[k := e']> (ft_fragments t))
              (ft_fragmentBytes t + (fe_accountedBytes e' - fe_accountedBytes e)) w in
  tableRel be (removeFragment t' k) (delete k h) /\
  ft_fragments (removeFragment t' k) ⊆ ft_fragments t /\
  ft_fragmentBytes (removeFragment t' k) <= ft_fragmentBytes t.
Proof.
  intros H Ek t'. destruct (tableRel_entry _ _ _ _ _ H Ek) as (a & _ & Ha). apply entry_bytes in Ha.
  assert (ft_fragments (removeFragment t' k) = delete k (ft_fragments t)) as Ef.
  { rewrite remove_fragments. unfold t'. cbn. by rewrite delete_insert_eq. }
  assert (ft_fragmentBytes (removeFragment t' k) = ft_fragmentBytes t - fe_accountedBytes e) as Eb.
  { unfold removeFragment, t'. cbn. rewrite lookup_insert_eq. cbn. lia. }
  split_and!; [|rewrite Ef; apply delete_subseteq|lia].
  eapply tableRel_same; [by apply (remove_rel be t h k)|by rewrite Ef, remove_fragments|].
  rewrite Eb. unfold removeFragment. by rewrite Ek.
Qed.

(** ** Lemmas: expiry *)

Definition expires (now : Z) (item : fragmentKey * ipPacketReassemblyEntry) : bool :=
  negb (now <? fragmentExpiry (snd item)) && negb (zlen (ra_firstPacket (fe_state (snd item))) =? 0).

Lemma clean_fold be now l t ex h :
  base.NoDup l.*1 -> (forall k e, (k, e) ∈ l -> ft_fragments t !! k = Some e) -> tableRel be t h ->
  exists t' h', fold_left (cleanStep now) l (t, ex) = (t', ex ++ map snd (List.filter (expires now) l)) /\
    tableRel be t' h' /\ h' ⊆ h /\ ft_fragmentBytes t' <= ft_fragmentBytes t /\
    (forall k e, ft_fragments t' !! k = Some e <->
       ft_fragments t !! k = Some e /\ (k ∈ l.*1 -> now < fragmentExpiry e)).
Proof.
  revert t ex h. induction l as [|[k e] l IH]; intros t ex h Hnd Hin Hrel.
  { exists t, h. cbn. rewrite app_nil_r. split_and!; try done. intros k e. split; [|by intros [? _]].
    intros H. split; [done|]. intros Hk. by apply elem_of_nil in Hk. }
  cbn [fmap list_fmap fst] in Hnd. apply list.NoDup_cons in Hnd as [Hk Hnd].
  assert (ft_fragments t !! k = Some e) as Ek by (apply Hin; left).
  cbn [fold_left cleanStep]. destruct (now <? fragmentExpiry e) eqn:E.
  - destruct (IH t ex h Hnd ltac:(intros; apply Hin; by right) Hrel) as (t' & h' & -> & Hr & Hs & Hb & Hl).
    exists t', h'. split_and!; try done.
    + cbn [List.filter]. unfold expires at 2. cbn [snd]. by rewrite E.
    + intros k' e'. rewrite Hl. split; intros [H1 H2]; (split; [done|]).
      * intros Hk'. cbn in Hk'. apply elem_of_cons in Hk' as [->|Hk']; [|by apply H2].
        rewrite Ek in H1. injection H1 as <-. lia.
      * intros Hk'. apply H2. by right.
  - assert (tableRel be (noteTimeout (removeFragment t k)) (delete k h)) as Hrel'.
    { eapply tableRel_same; [by apply (remove_rel be t h k)|done..]. }
    assert (ft_fragments (noteTimeout (removeFragment t k)) = delete k (ft_fragments t)) as Ef by apply remove_fragments.
    destruct (IH (noteTimeout (removeFragment t k))
      (if negb (zlen (ra_firstPacket (fe_state e)) =? 0) then ex ++ [e] else ex) (delete k h) Hnd)
      as (t' & h' & -> & Hr & Hs & Hb & Hl); [|done|].
    { intros k' e' Hk'. rewrite Ef, lookup_delete_ne; [apply Hin; by right|]. intros <-. apply Hk.
      apply list_elem_of_fmap. by exists (k, e'). }
    exists t', h'. split_and!; try done.
    + cbn [List.filter]. unfold expires at 2. cbn [snd]. rewrite E. cbn [negb andb].
      destruct (negb _); [cbn [map]; by rewrite <- app_assoc|done].
    + etransitivity; [exact Hs|]. apply delete_subseteq.
    + pose proof (remove_bytes be t h k Hrel). cbn in Hb. lia.
    + intros k' e'. rewrite Hl, Ef. destruct (decide (k' = k)) as [->|Hn].
      * rewrite lookup_delete_eq. split; [by intros [? _]|]. intros [H1 H2]. rewrite Ek in H1. injection H1 as <-.
        specialize (H2 ltac:(left)). lia.
      * rewrite lookup_delete_ne by done. split; intros [H1 H2]; (split; [done|]); intros Hk'; apply H2.
        -- cbn in Hk'. by apply elem_of_cons in Hk' as [->|Hk'].
        -- by right.
Qed.

Lemma clean_ok be order now t h :
  orderOk order -> tableRel be t h ->
  exists t' h', cleanFragments order now t = (t', map snd (List.filter (expires now) (order (ft_fragments t)))) /\
    tableRel be t' h' /\ h' ⊆ h /\ ft_fragmentBytes t' <= ft_fragmentBytes t /\
    (forall k e, ft_fragments t' !! k = Some e <-> ft_fragments t !! k = Some e /\ now < fragmentExpiry e).
Proof.
  intros Ho Hrel.
  destruct (clean_fold be now (order (ft_fragments t)) t [] h (order_nodup _ _ Ho)) as (t' & h' & E & Hr & Hs & Hb & Hl); [|done|].
  { intros k e. by apply order_elem. }
  exists t', h'. split_and!; try done. intros k e. rewrite Hl. split; intros [H1 H2]; (split; [done|]); [|done].
  apply H2, list_elem_of_fmap. exists (k, e). split; [done|]. by apply order_elem.
Qed.

(** ** Lemmas: eviction *)

Definition candidate (except : option fragmentKey) (item : fragmentKey * ipPacketReassemblyEntry) : Prop :=
  Some (fst item) <> except.

Lemma oldest_fold except l acc :
  match fold_left (oldestStep except) l acc with
  | None => acc = None /\ forall x, x ∈ l -> ~ candidate except x
  | Some x => (x ∈ l /\ candidate except x \/ acc = Some x) /\
      (forall y, y ∈ l -> candidate except y -> fe_updated (snd x) <= fe_updated (snd y)) /\
      (forall y, acc = Some y -> fe_updated (snd x) <= fe_updated (snd y))
  end.
Proof.
  revert acc. induction l as [|x l IH]; intros acc; cbn [fold_left].
  { destruct acc as [y|]; [|split; [done|]; intros x Hx; by apply elem_of_nil in Hx].
    split; [by right|]. split; [intros z Hz; by apply elem_of_nil in Hz|]. intros z [= ->]. lia. }
  set (acc' := oldestStep except acc x). specialize (IH acc').
  assert (~ candidate except x /\ acc' = acc \/
          candidate except x /\ exists y, acc' = Some y /\ (y = x \/ acc = Some y) /\ fe_updated (snd y) <= fe_updated (snd x) /\
            forall z, acc = Some z -> fe_updated (snd y) <= fe_updated (snd z)) as Hacc.
  { unfold acc', oldestStep, candidate. case_bool_decide as E; [left; split; [|done]; intros H; by apply H|].
    right. split; [done|]. destruct acc as [[k e]|]; [|exists x; split_and!; try done; by left].
    destruct (fe_updated (snd x) <? fe_updated e) eqn:El.
    - exists x. split_and!; try done; [by left|]. intros z [= <-]. cbn. lia.
    - exists (k, e). split_and!; try done; [by right|cbn; lia|]. intros z [= <-]. lia. }
  destruct (fold_left _ l acc') as [y|].
  - destruct IH as (H1 & H2 & H3). destruct Hacc as [[Hn E]|(Hc & w & E & Hw & Hle & Hz)]; rewrite E in *.
    + split_and!; [|intros z Hz Hcz; apply elem_of_cons in Hz as [-> | Hz]; [done|by apply H2]|done].
      destruct H1 as [[H1 H1']|H1]; [left; split; [by right|done]|by right].
    + specialize (H3 w eq_refl). split_and!.
      * destruct H1 as [[H1 H1']|[= <-]]; [left; split; [by right|done]|].
        destruct Hw as [->|Hw]; [left; split; [left|done]|by right].
      * intros z Hz' Hcz. apply elem_of_cons in Hz' as [-> | Hz']; [lia|by apply H2].
      * intros z Hz'. specialize (Hz z Hz'). lia.
  - destruct IH as [E H]. destruct Hacc as [[Hn E']|(_ & w & E' & _)]; [|congruence].
    split; [congruence|]. intros z Hz. apply elem_of_cons in Hz as [-> | Hz]; [done|by apply H].
Qed.

(** The entry that was extended longest ago goes, never the exempted one. *)
Lemma evict_ok order except t :
  orderOk order ->
  (exists k e, ft_fragments t !! k = Some e /\ candidate except (k, e) /\
     (forall k' e', ft_fragments t !! k' = Some e' -> candidate except (k', e') -> fe_updated e <= fe_updated e') /\
     let t' := removeFragment t k in
     evictOldestFragmentExcept order except t
     = (mkTable (ft_fragments t') (ft_fragmentBytes t') (ft_wake t') (ft_timeouts t') (ft_evictions t' + 1), true)) \/
  ((forall k e, ft_fragments t !! k = Some e -> ~ candidate except (k, e)) /\
   evictOldestFragmentExcept order except t = (t, false)).
Proof.
  intros Ho. unfold evictOldestFragmentExcept. pose proof (oldest_fold except (order (ft_fragments t)) None) as H.
  destruct (fold_left _ _ None) as [[k e]|].
  - left. exists k, e. destruct H as ([[Hin Hc]|] & Hmin & _); [|done].
    split_and!; [by apply (order_elem order)|done| |done].
    intros k' e' Hk' Hc'. apply (Hmin (k', e')); [by apply order_elem|done].
  - right. split; [|done]. intros k e Hk. apply H. by apply order_elem.
Qed.

(** What the removal of other entries leaves. *)
Record thinned (be : bool) (t : fragmentTable) (h : historyMap) (t' : fragmentTable) (h' : historyMap) : Prop := {
  th_rel : tableRel be t' h';
  th_history : h' ⊆ h;
  th_entries : ft_fragments t' ⊆ ft_fragments t;
  th_bytes : ft_fragmentBytes t' <= ft_fragmentBytes t }.

Lemma thinned_refl be t h : tableRel be t h -> thinned be t h t h.
Proof. by split. Qed.

Lemma thinned_trans be t1 h1 t2 h2 t3 h3 :
  thinned be t1 h1 t2 h2 -> thinned be t2 h2 t3 h3 -> thinned be t1 h1 t3 h3.
Proof. intros [? ? ? ?] [? ? ? ?]. split; [done|by etrans|by etrans|lia]. Qed.

Lemma thinned_remove be t h k : tableRel be t h -> thinned be t h (removeFragment t k) (delete k h).
Proof.
  intros H. split; [by apply remove_rel|apply delete_subseteq| |by eapply remove_bytes].
  rewrite remove_fragments. apply delete_subseteq.
Qed.

Lemma thinned_evict be order except t h t' :
  orderOk order -> tableRel be t h -> evictOldestFragmentExcept order except t = (t', true) ->
  exists h', thinned be t h t' h' /\ size (ft_fragments t') = pred (size (ft_fragments t)) /\ (0 < size (ft_fragments t))%nat /\
    forall k, Some k = except -> ft_fragments t' !! k = ft_fragments t !! k /\ h' !! k = h !! k.
Proof.
  intros Ho H E. destruct (evict_ok order except t Ho) as [(k & e & Hk & Hc & _ & E')|[_ E']]; rewrite E in E'; [|done].
  injection E' as ->. exists (delete k h). split_and!.
  - destruct (thinned_remove be t h k H) as [? ? ? ?]. split; try done. by eapply tableRel_same.
  - cbn. rewrite remove_fragments. by apply map_size_delete_Some.
  - destruct (size (ft_fragments t)) eqn:Es; [|lia]. apply map_size_empty_iff in Es. by rewrite Es in Hk.
  - cbn. rewrite remove_fragments. intros k' Hk'. unfold candidate in Hc. cbn in Hc.
    rewrite !lookup_delete_ne by congruence. done.
Qed.

(** ** Lemmas: room *)

Lemma makeRoom_ok be order t h :
  orderOk order -> tableRel be t h ->
  exists t' h', loop (S (size (ft_fragments t))) (makeRoomBody order) t = Some t' /\ thinned be t h t' h' /\
    Z.of_nat (size (ft_fragments t')) < fragmentMaximumSets.
Proof.
  intros Ho H.
  enough (exists v, loop (S (size (ft_fragments t))) (makeRoomBody order) t = Some v /\
    exists hs, thinned be t h v hs /\ Z.of_nat (size (ft_fragments v)) < fragmentMaximumSets)
    as (v & E & hs & Hth & Hsz) by (by exists v, hs).
  apply (loop_total (fun s => exists hs, thinned be t h s hs) (fun s => size (ft_fragments s)));
    [|exists h; by apply thinned_refl|lia].
  intros s [hs Hs]. unfold makeRoomBody. destruct (Z.leb_spec fragmentMaximumSets (Z.of_nat (size (ft_fragments s)))) as [Hle|Hlt].
  - eexists. split; [done|]. destruct (evictOldestFragmentExcept order None s) as [s' b] eqn:E. cbn [fst].
    assert (b = true) as ->.
    { destruct (evict_ok order None s Ho) as [(k & e & _ & _ & _ & E')|[Hno E']]; rewrite E in E'; injection E'; [done|].
      intros -> ->. exfalso. unfold fragmentMaximumSets in Hle.
      assert (ft_fragments s = ∅) as Em; [|rewrite Em, map_size_empty in Hle; lia].
      apply map_eq. intros k. rewrite lookup_empty. destruct (ft_fragments s !! k) as [e|] eqn:Ek; [|done].
      by destruct (Hno k e Ek). }
    destruct (thinned_evict be order None s hs s' Ho (th_rel _ _ _ _ _ Hs) E) as (h' & Hth & Hsz & Hpos & _).
    split; [exists h'; by eapply thinned_trans|lia].
  - eexists. split; [done|]. by exists hs.
Qed.

Lemma only_key (m : gmap fragmentKey ipPacketReassemblyEntry) k e :
  m !! k = Some e -> (size m <= 1)%nat -> delete k m = ∅.
Proof.
  intros H Hs. apply map_size_empty_iff. rewrite map_size_delete_Some by (by exists e). lia.
Qed.

Lemma byteRoom_ok be order key t h e :
  orderOk order -> tableRel be t h -> ft_fragments t !! key = Some e ->
  exists t' h', loop (S (size (ft_fragments t))) (byteRoomBody order key) t = Some t' /\ thinned be t h t' h' /\
    ft_fragments t' !! key = Some e /\ h' !! key = h !! key /\
    (ft_fragmentBytes t' <= fragmentMaximumBytes \/ delete key (ft_fragments t') = ∅).
Proof.
  intros Ho H Ek.
  set (I := fun s => exists hs, thinned be t h s hs /\ ft_fragments s !! key = Some e /\ hs !! key = h !! key).
  enough (exists v, loop (S (size (ft_fragments t))) (byteRoomBody order key) t = Some v /\
    exists hs, thinned be t h v hs /\ ft_fragments v !! key = Some e /\ hs !! key = h !! key /\
      (ft_fragmentBytes v <= fragmentMaximumBytes \/ delete key (ft_fragments v) = ∅))
    as (v & E & hs & Hall) by (by exists v, hs).
  apply (loop_total I (fun s => size (ft_fragments s))); [|exists h; split_and!; try done; by apply thinned_refl|lia].
  intros s (hs & Hs & Hk & Hh). unfold byteRoomBody.
  destruct ((fragmentMaximumBytes <? _) && _) eqn:Ec.
  - destruct (evictOldestFragmentExcept order (Some key) s) as [s' b] eqn:E. eexists. split; [done|].
    destruct b.
    + destruct (thinned_evict be order (Some key) s hs s' Ho (th_rel _ _ _ _ _ Hs) E) as (h' & Hth & Hsz & Hpos & Hkey).
      destruct (Hkey key eq_refl) as [E1 E2]. split; [|lia]. exists h'. split_and!; [by eapply thinned_trans|congruence..].
    + destruct (evict_ok order (Some key) s Ho) as [(k & e' & _ & _ & _ & E')|[Hno E']]; rewrite E in E'; [done|].
      injection E' as ->. exists hs. split_and!; try done. right. apply map_eq. intros k. rewrite lookup_empty.
      destruct (decide (k = key)) as [->|Hn]; [by rewrite lookup_delete_eq|]. rewrite lookup_delete_ne by done.
      destruct (ft_fragments s !! k) as [e'|] eqn:Ek'; [|done]. destruct (Hno k e' Ek'). unfold candidate. cbn. congruence.
  - eexists. split; [done|]. exists hs. split_and!; try done.
    apply andb_false_iff in Ec as [Ec|Ec]; [left; lia|right]. eapply only_key; [exact Hk|lia].
Qed.

(** ** Lemmas: one fragment *)

Lemma trim_key f f' loopback : trimFragment f = Some f' -> reassemblyKey f' loopback = reassemblyKey f loopback.
Proof.
  unfold trimFragment. destruct (_ && _); [|by intros [= ->]].
  destruct (slice (fg_payload f) _ _); [|done]. cbn [mbind option_bind].
  destruct (slice (fg_original f) _ _); [|done]. by intros [= <-].
Qed.

(** [hist] is what the table held for [key], or nothing when that expired. *)
Definition heldFor (h : historyMap) (key : fragmentKey) (hist : list ipPacketReassemblyFragment) : Prop :=
  hist = [] \/ h !! key = Some hist.

Lemma entryFor_ok be order f now loopback t h :
  let key := reassemblyKey f loopback in
  orderOk order -> tableRel be t h -> tableBounded t -> fragmentOk f ->
  exists t' h' entry hist, entryFor order key f now t = Some (t', entry) /\
    tableRel be t' h' /\ tableBounded t' /\ ft_fragments t' !! key = Some entry /\ h' !! key = Some hist /\
    heldFor h key hist /\ delete key h' ⊆ delete key h.
Proof.
  intros key Ho H [Hb1 Hb2] Hf. unfold entryFor. destruct (ft_fragments t !! key) as [entry|] eqn:Ek.
  - destruct (tableRel_entry _ _ _ _ _ H Ek) as (hist & Eh & _).
    exists t, h, entry, hist. split_and!; try done. by right.
  - destruct (makeRoom_ok be order t h Ho H) as (t1 & h1 & -> & [Hr Hh Hs Hbytes] & Hsz). cbn [mbind option_bind].
    set (entry := mkEntry (startReassembly f) now now 0).
    assert (ft_fragments t1 !! key = None) as Ek1.
    { destruct (ft_fragments t1 !! key) as [e|] eqn:E; [|done]. by rewrite (lookup_weaken _ _ _ _ E Hs) in Ek. }
    assert (entryRel be key entry []) as He by (by split; [apply reassembly_start| | |]).
    pose proof (put_new_rel be t1 h1 key entry [] true Hr Ek1 He) as Hput. cbn [fe_accountedBytes entry] in Hput.
    rewrite Z.add_0_r in Hput.
    eexists _, _, entry, []. split; [reflexivity|]. split; [exact Hput|]. split_and!.
    + split; cbn; [|lia]. rewrite map_size_insert_None by done. lia.
    + cbn. by rewrite lookup_insert_eq.
    + by rewrite lookup_insert_eq.
    + by left.
    + rewrite delete_insert_eq. by apply delete_mono.
Qed.

(** Every byte of [f] lies in one of the fragments. *)
Definition coveredBy (fs : list ipPacketReassemblyFragment) (f : ipPacketReassemblyFragment) : Prop :=
  forall x, fg_offset f <= x < fragmentStop f -> exists g, g ∈ fs /\ fg_offset g <= x < fragmentStop g.

Lemma covered_pieces r added f :
  reassemblyOk r added -> (forall x, fg_offset f <= x < fragmentStop f -> inPieces (ra_pieces r) x) ->
  coveredBy added f.
Proof.
  intros Hok H x Hx. specialize (H x Hx). unfold inPieces in H. apply list.Exists_exists in H as (p & Hp & Hin).
  rewrite (ro_added _ _ Hok) in Hp. apply list_elem_of_In, in_map_iff in Hp as (g & <- & Hg).
  exists g. split; [by apply list_elem_of_In|exact Hin].
Qed.

(** The answer of the table in terms of the retained fragments. *)
Inductive tableStep (be : bool) (h : historyMap) (key : fragmentKey) (f : ipPacketReassemblyFragment)
    : tableResult -> historyMap -> Prop :=
| step_refused : tableStep be h key f Dropped h
| step_dropped h' : h' ⊆ delete key h -> tableStep be h key f Dropped h'
| step_retained h' hist new :
    heldFor h key hist -> new = [f] \/ new = [] /\ coveredBy hist f -> h' !! key = Some (hist ++ new) ->
    delete key h' ⊆ delete key h -> tableStep be h key f Retained h'
| step_delivered h' hist r wire :
    heldFor h key hist -> assembles be r (hist ++ [f]) wire -> h' ⊆ delete key h ->
    tableStep be h key f (Delivered wire) h'.

(** A datagram that waits for more keeps its entry unless the byte limit
    strikes it alone. *)
Lemma settle_pending be order key now t h entry added isNew :
  orderOk order -> tableRel be t h -> Z.of_nat (size (ft_fragments t)) <= fragmentMaximumSets ->
  ft_fragments t !! key = Some entry -> h !! key = Some added ->
  exists t' h' result, settleEntry order key now t entry (Pending isNew) = Some (t', result) /\
    tableRel be t' h' /\ tableBounded t' /\
    (result = Dropped /\ h' ⊆ delete key h \/
     result = Retained /\ h' !! key = Some added /\ h' ⊆ h).
Proof.
  intros Ho H Hsz Ek Eh. cbn [settleEntry].
  set (entry' := mkEntry (fe_state entry) _ _ _). set (t1 := withFragments t _ _ _).
  destruct (tableRel_entry _ _ _ _ _ H Ek) as (added' & Eh' & [R1 R2 R3 R4]). rewrite Eh in Eh'. injection Eh' as <-.
  assert (tableRel be t1 h) as H1.
  { pose proof (put_rel be t h key entry entry' added (ft_wake t || (now <? fe_created entry)) H Ek) as Hput.
    rewrite (insert_id h) in Hput by done. eapply tableRel_same; [apply Hput; by split|done|]. cbn. lia. }
  assert (ft_fragments t1 !! key = Some entry') as Ek1 by (cbn; by rewrite lookup_insert_eq).
  assert (size (ft_fragments t1) = size (ft_fragments t)) as Es1 by (cbn; by rewrite map_size_insert_Some by (by exists entry)).
  destruct (byteRoom_ok be order key t1 h entry' Ho H1 Ek1) as (t2 & h2 & -> & Hth & Ek2 & Eh2 & Hlimit).
  cbn [mbind option_bind]. pose proof (map_subseteq_size _ _ (th_entries _ _ _ _ _ Hth)) as Hsz2.
  destruct (Z.ltb_spec fragmentMaximumBytes (ft_fragmentBytes t2)).
  - destruct Hlimit as [|Honly]; [lia|].
    destruct (thinned_remove be t2 h2 key (th_rel _ _ _ _ _ Hth)) as [Hr3 Hh3 Hs3 Hb3].
    exists (removeFragment t2 key), (delete key h2), Dropped. split; [done|]. split; [done|]. split.
    + split; [apply map_subseteq_size in Hs3; lia|]. rewrite (tr_bytes _ _ _ Hr3), remove_fragments, Honly. done.
    + left. split; [done|]. apply delete_mono, (th_history _ _ _ _ _ Hth).
  - exists t2, h2, Retained. split; [done|]. split; [apply (th_rel _ _ _ _ _ Hth)|]. split; [split; lia|].
    right. split_and!; [done|congruence|apply (th_history _ _ _ _ _ Hth)].
Qed.

Lemma entry_grows be k e added f f' r isNew created updated :
  entryRel be k e added -> fragmentOk f -> trimFragment f = Some f' -> reassemblyKey f (fk_loopback k) = k ->
  addFragment be (fe_state e) f fragmentMaximumPieces = Some (r, Pending isNew) ->
  entryRel be k (mkEntry r created updated (ra_bytes r)) (if isNew then added ++ [f'] else added).
Proof.
  intros [Hr Ha Hv Hk] Hf Ht Hkey E.
  assert (fg_v6 f = ra_v6 (fe_state e)) as Hv6 by (rewrite Hv, <- Hkey; done).
  destruct (addFragment_ok be _ _ f fragmentMaximumPieces (reassembling_ok _ _ _ _ Hr) Hf Hv6)
    as (g & r2 & res & Eg & _ & Htr & E2 & Hout).
  rewrite Ht in Eg. injection Eg as <-. rewrite E in E2. injection E2 as <- <-.
  split; cbn; [by eapply reassembly_add|done| |].
  - destruct isNew; cbn [addOutcome] in Hout; [|destruct Hout as (_ & _ & -> & _); done].
    destruct Hout as (_ & Hok & _). pose proof (ro_fragments _ _ Hok) as Hfs. apply list.Forall_app in Hfs as [_ Hfs].
    apply Forall_cons_iff in Hfs as [[_ <-] _]. destruct (tr_same _ _ Htr) as (_ & _ & -> & _). by rewrite Hv6.
  - destruct isNew; [|done]. apply list.Forall_app. split; [done|]. apply List.Forall_cons; [|apply List.Forall_nil].
    by rewrite (trim_key f f').
Qed.

(** ** Properties *)

(** C23. The fragment table refines a map from datagram keys to the fragments
    retained for them, for any order of visiting the table: every call returns;
    the accounts stay exact, with at most 128 datagrams and 4 MiB; a fragment
    joins the datagram of its own key or repeats it, or that datagram is given
    up; a delivered packet consists of exactly the fragments retained for the
    key; other datagrams are only ever removed, never changed. *)
Theorem fragment_table_refines (be : bool) (order : mapOrder) (accepts : Addr -> bool -> bool)
    (validSource : Addr -> Addr -> Z -> bool) (closed truncated parameter loopback : bool)
    (t : fragmentTable) (h : historyMap) (f : ipPacketReassemblyFragment) (now : Z) :
  orderOk order -> tableRel be t h -> tableBounded t -> fragmentOk f ->
  exists f' t' expired result h',
    trimFragment f = Some f' /\
    reassembleFragment order be accepts validSource closed t truncated parameter f now loopback
      = Some (t', expired, result) /\
    tableRel be t' h' /\ tableBounded t' /\ tableStep be h (reassemblyKey f loopback) f' result h'.
Proof.
  intros Ho H Hb Hf. destruct (trimFragment_ok f Hf) as (f' & Etrim & Hf' & Htr). exists f'.
  unfold reassembleFragment. destruct (_ || _).
  { exists t, [], Dropped, h. split_and!; done || apply step_refused || apply Hb. }
  destruct closed; [exists t, [], Dropped, h; split_and!; done || apply step_refused || apply Hb|].
  destruct (clean_ok be order now t h Ho H) as (t0 & h0 & -> & H0 & Hh0 & Hb0 & Hl0).
  assert (tableBounded t0) as Hbounded.
  { destruct Hb as [B1 B2]. split; [|lia]. assert (ft_fragments t0 ⊆ ft_fragments t) as Hs0
      by (apply map_subseteq_spec; intros k e Hk; by apply Hl0 in Hk as [? _]).
    apply map_subseteq_size in Hs0. lia. }
  set (key := reassemblyKey f loopback).
  destruct (entryFor_ok be order f now loopback t0 h0 Ho H0 Hbounded Hf)
    as (t1 & h1 & entry & hist & E1 & H1 & [Bs1 Bb1] & Ek1 & Eh1 & Hheld & Hh1).
  fold key in E1, Ek1, Eh1, Hheld, Hh1. rewrite E1. cbn [mbind option_bind].
  destruct (tableRel_entry _ _ _ _ _ H1 Ek1) as (hist' & Eh1' & Hentry). rewrite Eh1 in Eh1'. injection Eh1' as <-.
  assert (heldFor h key hist) as Hheld' by (destruct Hheld as [|Hh]; [by left|right; by eapply lookup_weaken]).
  assert (delete key h1 ⊆ delete key h) as Hsub by (etrans; [exact Hh1|by apply delete_mono]).
  assert (reassemblyOk (fe_state entry) hist) as Hok by (eapply reassembling_ok, (er_state _ _ _ _ Hentry)).
  assert (fg_v6 f = ra_v6 (fe_state entry)) as Hv6 by (by rewrite (er_family _ _ _ _ Hentry)).
  destruct (addFragment_ok be _ hist f fragmentMaximumPieces Hok Hf Hv6) as (f2 & r & res & Et2 & _ & _ & E & Hout).
  rewrite Etrim in Et2. injection Et2 as <-. rewrite E. cbn [mbind option_bind].
  set (entry' := mkEntry r (fe_created entry) (fe_updated entry) (ra_bytes r)).
  destruct (put_remove be t1 h1 key entry entry' (ft_wake t1) H1 Ek1) as (P1 & P2 & P3).
  cbn [fe_accountedBytes entry'] in P1, P2, P3. set (t2 := withFragments t1 _ _ _) in *.
  assert (tableBounded (removeFragment t2 key)) as Hbr by (apply map_subseteq_size in P2; split; lia).
  destruct res as [e|isNew|wire].
  - exists (removeFragment t2 key), (map snd (List.filter (expires now) (order (ft_fragments t)))), Dropped, (delete key h1).
    do 2 (split; [done|]). split; [exact P1|]. split; [exact Hbr|]. by apply step_dropped.
  - pose proof (entry_grows be key entry hist f f' r isNew (fe_created entry) (fe_updated entry) Hentry Hf Etrim eq_refl E) as Hgrown.
    pose proof (put_rel be t1 h1 key entry entry' _ (ft_wake t1) H1 Ek1 Hgrown) as Hput.
    destruct (settle_pending be order key now t2 (<[key := if isNew then hist ++ [f'] else hist]> h1) entry'
      (if isNew then hist ++ [f'] else hist) isNew Ho Hput) as (t' & h' & result & Es & Hr & Hbd & Hcase).
    { cbn. rewrite map_size_insert_Some by (by exists entry). done. }
    { cbn. by rewrite lookup_insert_eq. }
    { by rewrite lookup_insert_eq. }
    rewrite Es. cbn [mbind option_bind].
    exists t', (map snd (List.filter (expires now) (order (ft_fragments t)))), result, h'.
    do 4 (split; [done|]).
    destruct Hcase as [[-> Hd]|(-> & Hk & Hd)].
    + apply step_dropped. etrans; [exact Hd|]. by rewrite delete_insert_eq.
    + apply (step_retained _ _ _ _ _ hist (if isNew then [f'] else [])); [done| | |].
      * destruct isNew; [by left|right]. split; [done|]. by apply (covered_pieces (fe_state entry)), Hout.
      * rewrite Hk. destruct isNew; [done|by rewrite app_nil_r].
      * etrans; [by apply delete_mono|]. by rewrite delete_insert_eq.
  - cbn [settleEntry mbind option_bind addOutcome] in *. destruct Hout as (Hc & Hok' & Hfin & _).
    eexists _, (map snd (List.filter (expires now) (order (ft_fragments t)))), (Delivered wire), (delete key h1).
    split; [done|]. split; [reflexivity|]. split; [|split; [split|]].
    + eapply tableRel_same; [exact P1|by rewrite !remove_fragments|]. unfold removeFragment. cbn. by rewrite !lookup_insert_eq.
    + rewrite remove_fragments. destruct Hbr as [B1 _]. by rewrite remove_fragments in B1.
    + destruct Hbr as [_ B2]. unfold removeFragment in *. cbn in *. by rewrite lookup_insert_eq in *.
    + eapply step_delivered; [done|by eapply finished_assembles|done].
Qed.

Lemma next_fold l next :
  (forall x, x ∈ l -> 0 < fragmentExpiry (snd x)) -> 0 <= next ->
  let r := fold_left nextStep l next in
  (r = 0 <-> next = 0 /\ l = []) /\ 0 <= r /\
  (r <> 0 -> (next = r \/ exists x, x ∈ l /\ fragmentExpiry (snd x) = r) /\
             (next <> 0 -> r <= next) /\ forall x, x ∈ l -> r <= fragmentExpiry (snd x)).
Proof.
  revert next. induction l as [|x l IH]; intros next Hpos Hn; cbn [fold_left].
  { split_and!; try tauto. intros H. split_and!; [by left|lia|]. intros x Hx. by apply elem_of_nil in Hx. }
  assert (0 < fragmentExpiry (snd x)) as Hx by (apply Hpos; left).
  set (next' := nextStep next x).
  assert (0 < next' /\ (next' = next \/ next' = fragmentExpiry (snd x)) /\ next' <= fragmentExpiry (snd x) /\
          (next <> 0 -> next' <= next)) as (H1 & H2 & H3 & H4).
  { unfold next', nextStep. cbv zeta. destruct (next =? 0) eqn:E1; destruct (_ <? next) eqn:E2; cbn [orb]; lia. }
  destruct (IH next' ltac:(intros y Hy; apply Hpos; by right) ltac:(lia)) as (R1 & R2 & R3).
  set (r := fold_left nextStep l next') in *.
  assert (r <> 0) as Hr by (intros E; apply R1 in E; lia). specialize (R3 Hr). destruct R3 as (R4 & R5 & R6).
  split_and!; [split; [done|by intros [_ ?]]|done|]. intros _. split_and!.
  - destruct R4 as [R4|(y & Hy & E)]; [|right; exists y; split; [by right|done]].
    destruct H2 as [H2|H2]; [left; congruence|right; exists x; split; [left|congruence]].
  - intros Hn'. specialize (R5 ltac:(lia)). specialize (H4 Hn'). lia.
  - intros y Hy. apply elem_of_cons in Hy as [-> | Hy]; [|by apply R6]. specialize (R5 ltac:(lia)). lia.
Qed.

Lemma prune_fold accepts l t :
  (forall k, ft_fragments (fold_left (pruneStep accepts) l t) !! k =
     if bool_decide (k ∈ l.*1) && negb (accepts (fk_target k) (fk_loopback k)) then None
     else ft_fragments t !! k).
Proof.
  revert t. induction l as [|[k e] l IH]; intros t k'; cbn [fold_left].
  { rewrite bool_decide_eq_false_2; [done|]. intros H. by apply elem_of_nil in H. }
  rewrite IH. unfold pruneStep. cbn [fst fmap list_fmap].
  destruct (decide (k' = k)) as [->|Hn].
  - rewrite (bool_decide_eq_true_2 (k ∈ k :: l.*1)) by left. cbn [andb].
    destruct (accepts _ _); cbn [negb]; [by rewrite andb_false_r|].
    rewrite andb_true_r, remove_fragments, lookup_delete_eq. by destruct (bool_decide _).
  - rewrite (bool_decide_ext (k' ∈ k :: l.*1) (k' ∈ l.*1)) by (rewrite elem_of_cons; split; [by intros [?|?]|by right]).
    destruct (_ && _); [done|]. destruct (negb _); [|done]. by rewrite remove_fragments, lookup_delete_ne.
Qed.

(** Expiry is exact. A turn of the cleaner removes exactly the datagrams
    whose deadline has passed, reports exactly those of them that have their
    first fragment, and asks to be woken at the earliest remaining deadline, or
    not at all when none remains. Pruning removes exactly the datagrams of
    destinations that are no longer accepted. *)
Theorem fragment_expiry_exact (be : bool) (order : mapOrder) (accepts : Addr -> bool -> bool)
    (t : fragmentTable) (h : historyMap) (now : Z) :
  orderOk order -> tableRel be t h ->
  (forall k e, ft_fragments t !! k = Some e -> 0 <= fe_created e) ->
  let '(t', expired, delay) := cleanerTurn order now t in
  (forall k e, ft_fragments t' !! k = Some e <-> ft_fragments t !! k = Some e /\ now < fragmentExpiry e) /\
  (forall e, e ∈ expired <->
     exists k, ft_fragments t !! k = Some e /\ fragmentExpiry e <= now /\ ra_firstPacket (fe_state e) <> []) /\
  match delay with
  | None => ft_fragments t' = ∅
  | Some d => 0 < d /\ exists k e, ft_fragments t' !! k = Some e /\ d = timeSub (fragmentExpiry e) now /\
      forall k' e', ft_fragments t' !! k' = Some e' -> fragmentExpiry e <= fragmentExpiry e'
  end /\
  (forall k, ft_fragments (pruneFragments order accepts t) !! k =
     if accepts (fk_target k) (fk_loopback k) then ft_fragments t !! k else None).
Proof.
  intros Ho H Hpos. unfold cleanerTurn.
  destruct (clean_ok be order now t h Ho H) as (t' & h' & -> & _ & _ & _ & Hl).
  unfold nextFragmentExpiry.
  assert (forall x, x ∈ order (ft_fragments t') -> 0 < fragmentExpiry (snd x)) as Hexp.
  { intros [k e] Hk. apply order_elem in Hk; [|done]. apply Hl in Hk as [Hk _]. specialize (Hpos k e Hk).
    cbn. unfold fragmentExpiry, fragmentIPv4Lifetime, fragmentIPv6Lifetime, second. destruct (ra_v6 _); lia. }
  destruct (next_fold (order (ft_fragments t')) 0 Hexp ltac:(lia)) as (N1 & N2 & N3).
  set (next := fold_left nextStep (order (ft_fragments t')) 0) in *. cbv zeta.
  split; [exact Hl|]. split; [|split].
  - intros e. rewrite list_elem_of_In, in_map_iff. split.
    + intros ([k e'] & <- & Hin). apply filter_In in Hin as [Hin Hx]. apply list_elem_of_In, order_elem in Hin; [|done].
      unfold expires in Hx. cbn [snd] in *. exists k. split_and!; [done|lia|]. intros E. rewrite E in Hx.
      change (zlen (@nil Z) =? 0) with true in Hx. by rewrite andb_false_r in Hx.
    + intros (k & Hk & Hx & Hf). exists (k, e). split; [done|]. apply filter_In. split; [apply list_elem_of_In; by apply order_elem|].
      unfold expires. cbn [snd]. destruct (zlen (ra_firstPacket (fe_state e)) =? 0) eqn:E; [|lia].
      destruct Hf. apply zlen_zero. lia.
  - destruct (next =? 0) eqn:E; cbn [negb].
    + destruct (proj1 N1 ltac:(lia)) as [_ Enil]. apply map_eq. intros k. rewrite lookup_empty.
      destruct (ft_fragments t' !! k) as [e|] eqn:Ek; [|done]. apply (order_elem order) in Ek; [|done].
      rewrite Enil in Ek. by apply elem_of_nil in Ek.
    + destruct (N3 ltac:(lia)) as ([E0|([k e] & Hin & Ee)] & _ & Hmin); [lia|].
      apply order_elem in Hin; [|done]. cbn [snd] in Ee. pose proof (proj1 (Hl k e) Hin) as [_ Hnow].
      assert (0 < timeSub next now) as Hd by (unfold timeSub, minDuration, maxDuration; split_ifs; lia).
      replace (timeSub next now <? 0) with false by lia. split; [done|]. exists k, e. split_and!; [done|by rewrite Ee|].
      intros k' e' Hk'. rewrite Ee. apply (Hmin (k', e')). by apply order_elem.
  - intros k. unfold pruneFragments. rewrite prune_fold. destruct (accepts _ _); cbn [negb]; [by rewrite andb_false_r|].
    rewrite andb_true_r. case_bool_decide as Hk; [done|].
    destruct (ft_fragments t !! k) as [e|] eqn:Ek; [|done]. destruct Hk. apply list_elem_of_fmap. exists (k, e).
    split; [done|]. by apply order_elem.
Qed.

(** ** Witnesses *)

Definition listOrder : mapOrder := map_to_list.

Lemma listOrder_ok : orderOk listOrder.
Proof. by intros m. Defined.

Definition emptyTable : fragmentTable := mkTable ∅ 0 false 0 0.

Lemma empty_rel be : tableRel be emptyTable ∅.
Proof. split; [intros k; cbn; by rewrite !lookup_empty|reflexivity]. Defined.

(** The last fragment of a datagram arrives first and is retained. *)
Lemma fragment_table_refines_witness :
  exists t' expired h',
    reassembleFragment listOrder false (fun _ _ => true) (fun _ _ _ => true) false emptyTable false false
      (sampleFragment sampleLast) (5 * second) false = Some (t', expired, Retained) /\
    tableRel false t' h' /\ tableBounded t' /\
    tableStep false ∅ (reassemblyKey (sampleFragment sampleLast) false) (sampleFragment sampleLast) Retained h'.
Proof.
  destruct (fragment_table_refines false listOrder (fun _ _ => true) (fun _ _ _ => true) false false false false
    emptyTable ∅ (sampleFragment sampleLast) (5 * second)) as (f' & t' & expired & result & h' & Et & E & H & Hb & Hs).
  - apply listOrder_ok.
  - apply empty_rel.
  - vm_compute. split; discriminate.
  - apply sampleFragment_ok. right. left.
  - injection Et as <-. assert (result = Retained) as -> by (pose proof E as E'; vm_compute in E'; by injection E' as _ _ <-).
    exists t', expired, h'. split; [exact E|]. split; [exact H|]. split; [exact Hb|exact Hs].
Defined.

(** One datagram, created at five seconds and examined at thirty-six. *)
Definition sampleKey : fragmentKey := reassemblyKey (sampleFragment sampleLast) false.
Definition oneDatagram : fragmentTable :=
  mkTable {[ sampleKey := mkEntry sampleState (5 * second) (5 * second) (ra_bytes sampleState) ]}
    (ra_bytes sampleState) false 0 0.

Lemma oneDatagram_rel : tableRel false oneDatagram {[ sampleKey := [sampleFragment sampleLast] ]}.
Proof.
  split.
  - intros k. cbn [ft_fragments oneDatagram]. destruct (decide (k = sampleKey)) as [->|Hn].
    + rewrite !lookup_singleton_eq. split; [apply sampleState_reassembling|done..|].
      apply List.Forall_cons; [reflexivity|apply List.Forall_nil].
    + by rewrite !lookup_singleton_ne.
  - vm_compute. reflexivity.
Qed.

Lemma fragment_expiry_exact_witness :
  let '(t', expired, delay) := cleanerTurn listOrder (36 * second) oneDatagram in
  ft_fragments t' = ∅ /\ (forall e, e ∉ expired) /\ delay = None.
Proof.
  pose proof (fragment_expiry_exact false listOrder (fun _ _ => true) oneDatagram
    {[ sampleKey := [sampleFragment sampleLast] ]} (36 * second) listOrder_ok oneDatagram_rel) as H.
  destruct (cleanerTurn listOrder (36 * second) oneDatagram) as [[t' expired] delay] eqn:E.
  destruct H as (_ & _ & H & _).
  - intros k e Hk. cbn in Hk. apply lookup_singleton_Some in Hk as [_ <-]. vm_compute. discriminate.
  - vm_compute in E. injection E as <- <- <-. split; [exact H|]. split; [|reflexivity].
    intros e He. by apply elem_of_nil in He.
Defined.
