(* ===== verification/Ingress.v ===== *)
(** * Validation of inbound packets

    The wire parsers of the stack's ingress path: [parseIPPacket] of [packet.go]
    for unfragmented packets, [parseFragment] of [fragment.go] for fragments,
    and the option scans both rely on. The outer [option] of a result is a
    panic, the inner one the verdict [false]. *)

From stdpp Require Import strings.
From S2P Require Import Prelude Addr Checksum SeqNum Windows Scoreboard HeaderOptions IpPacket Fragment.

Definition IPv4HeaderOptionRecordRoute : Z := 7.
Definition IPv4HeaderOptionTimestamp : Z := 68.
Definition IPv4HeaderOptionRouterAlert : Z := 148.
Definition IPv6ExtensionOptionRouterAlert : Z := 5.
Definition ProtocolICMPv4 : Z := 1.
Definition ProtocolIGMP : Z := 2.
Definition ProtocolUDP : Z := 17.
Definition ProtocolESP : Z := 50.
Definition ProtocolICMPv6 : Z := 58.

(** ** IPv4 options *)

(** Which of the options that may occur once were seen. *)
Record optionsSeen := mkSeen {
  os_sourceRoute : bool;
  os_recordRoute : bool;
  os_timestamp : bool;
  os_routerAlert : bool }.

(** One length-bearing option at [offset]: the offending byte, or what was
    seen. *)
Definition malformedRecordRoute (options : list Z) (offset length : Z) (seen : optionsSeen)
    : option (optionsSeen + Z) :=
  if os_recordRoute seen then Some (inr offset)
  else if length <? 3 then Some (inr (offset + 1))
  else
    pointer ← idx options (offset + 2);
    if pointer <? 4 then Some (inr (offset + 2))
    else if (pointer <=? length) && (length <? pointer + 3) then Some (inr (offset + 2))
    else Some (inl (mkSeen (os_sourceRoute seen) true (os_timestamp seen) (os_routerAlert seen))).

Definition malformedTimestamp (options : list Z) (offset length : Z) (seen : optionsSeen)
    : option (optionsSeen + Z) :=
  if os_timestamp seen then Some (inr offset)
  else if length <? 4 then Some (inr (offset + 1))
  else
    pointer ← idx options (offset + 2);
    if pointer <? 5 then Some (inr (offset + 2))
    else
      overflow ← idx options (offset + 3);
      let flag := Z.land overflow 15 in
      let seen := mkSeen (os_sourceRoute seen) (os_recordRoute seen) true (os_routerAlert seen) in
      if pointer <=? length then
        let required := if (flag =? 1) || (flag =? 3) then 8 else 4 in
        if length <? pointer + required - 1 then Some (inr (offset + 2)) else Some (inl seen)
      else if negb (flag =? 3) && (Z.shiftr overflow 4 =? 15) then Some (inr (offset + 3))
      else Some (inl seen).

Definition malformedOption (options : list Z) (offset kind length : Z) (seen : optionsSeen)
    : option (optionsSeen + Z) :=
  if (kind =? IPv4HeaderOptionLooseSourceRoute) || (kind =? IPv4HeaderOptionStrictSourceRoute) then
    if length <? 3 then Some (inr (offset + 1))
    else
      pointer ← idx options (offset + 2);
      if pointer <? 4 then Some (inr (offset + 2))
      else if os_sourceRoute seen then Some (inr offset)
      else Some (inl (mkSeen true (os_recordRoute seen) (os_timestamp seen) (os_routerAlert seen)))
  else if kind =? IPv4HeaderOptionRecordRoute then malformedRecordRoute options offset length seen
  else if kind =? IPv4HeaderOptionTimestamp then malformedTimestamp options offset length seen
  else if kind =? IPv4HeaderOptionRouterAlert then
    if negb (length =? 4) then Some (inr (offset + 1))
    else if os_routerAlert seen then Some (inr offset)
    else Some (inl (mkSeen (os_sourceRoute seen) (os_recordRoute seen) (os_timestamp seen) true))
  else Some (inl seen).

Definition malformedBody (options : list Z) (s : Z * optionsSeen)
    : option (Z * optionsSeen + option Z) :=
  let '(offset, seen) := s in
  if offset <? zlen options then
    kind ← idx options offset;
    if kind =? IPv4HeaderOptionEnd then Some (inr None)
    else if kind =? IPv4HeaderOptionNOP then Some (inl (offset + 1, seen))
    else
      rest ← slice options offset (zlen options);
      let length := ipv4HeaderOptionLength rest in
      if length =? 0 then Some (inr (Some offset))
      else
        r ← malformedOption options offset kind length seen;
        Some (match r with inl seen => inl (offset + length, seen) | inr at_ => inr (Some at_) end)
  else Some (inr None).

(** The byte a Parameter Problem points at, when an option is malformed. *)
Definition malformedIPv4Option (options : list Z) : option (option Z) :=
  loop (S (length options)) (malformedBody options) (0, mkSeen false false false false).

Definition validateBody (options : list Z) (offset : Z) : option (Z + bool) :=
  if offset <? zlen options then
    kind ← idx options offset;
    if kind =? IPv4HeaderOptionEnd then Some (inr true)
    else if kind =? IPv4HeaderOptionNOP then Some (inl (offset + 1))
    else if (kind =? IPv4HeaderOptionLooseSourceRoute) || (kind =? IPv4HeaderOptionStrictSourceRoute)
    then Some (inr false)
    else if zlen options - offset <? 2 then Some (inr false)
    else
      length ← idx options (offset + 1);
      if (length <? 2) || (zlen options - offset <? length) then Some (inr false)
      else Some (inl (offset + length))
  else Some (inr true).

Definition validateIPv4Options (options : list Z) : option bool :=
  loop (S (length options)) (validateBody options) 0.

Definition routerAlert4Body (options : list Z) (s : Z * bool) : option (Z * bool + bool) :=
  let '(offset, found) := s in
  if offset <? zlen options then
    kind ← idx options offset;
    if kind =? IPv4HeaderOptionEnd then Some (inr found)
    else if kind =? IPv4HeaderOptionNOP then Some (inl (offset + 1, found))
    else
      rest ← slice options offset (zlen options);
      let length := ipv4HeaderOptionLength rest in
      if length =? 0 then Some (inr false)
      else if kind =? IPv4HeaderOptionRouterAlert then
        if (found : bool) || negb (length =? 4) then Some (inr false)
        else
          a ← idx options (offset + 2);
          b ← idx options (offset + 3);
          if negb (a =? 0) || negb (b =? 0) then Some (inr false) else Some (inl (offset + length, true))
      else Some (inl (offset + length, found))
  else Some (inr found).

Definition ipv4RouterAlert (options : list Z) : option bool :=
  loop (S (length options)) (routerAlert4Body options) (0, false).

(** ** IPv6 options *)

(** The verdict, the action bits and the offset of the option. *)
Definition inspectOptionsBody (header : list Z) (offset : Z) : option (Z + bool * Z * Z) :=
  if offset <? zlen header then
    kind ← idx header offset;
    rest ← slice header offset (zlen header);
    let '(length, valid) := ipv6ExtensionOptionLength kind rest in
    if negb valid then Some (inr (false, 0, offset))
    else
      let action := Z.shiftr kind 6 in
      if negb (action =? 0) then Some (inr (false, action, offset)) else Some (inl (offset + length))
  else Some (inr (true, 0, 0)).

Definition inspectIPv6Options (header : list Z) : option (bool * Z * Z) :=
  if zlen header <? 8 then Some (false, 0, 0)
  else loop (S (length header)) (inspectOptionsBody header) 2.

Definition routerAlert6Body (options : list Z) (s : Z * bool) : option (Z * bool + bool) :=
  let '(offset, found) := s in
  if offset <? zlen options then
    optionType ← idx options offset;
    rest ← slice options offset (zlen options);
    let '(length, valid) := ipv6ExtensionOptionLength optionType rest in
    if negb valid then Some (inr false)
    else if optionType =? IPv6ExtensionOptionRouterAlert then
      if (found : bool) || negb (length =? 4) then Some (inr false)
      else
        a ← idx options (offset + 2);
        b ← idx options (offset + 3);
        if negb (a =? 0) || negb (b =? 0) then Some (inr false) else Some (inl (offset + length, true))
    else Some (inl (offset + length, found))
  else Some (inr found).

Definition ipv6RouterAlert (header : list Z) : option bool :=
  if zlen header <? 2 then Some false
  else
    options ← slice header 2 (zlen header);
    loop (S (length options)) (routerAlert6Body options) (0, false).

Definition ipv6ExtensionHeaderUnit8Length (header : list Z) : Z * bool :=
  match header with
  | _ :: lengthField :: _ =>
      let length := ipv6ExtensionHeaderUnit8LengthField lengthField in (length, length <=? zlen header)
  | _ => (0, false)
  end.

Definition ipv6NextHeaderFieldOffset (previous : Z) : Z := if previous <? 0 then 6 else 40 + previous.

(** ** The extension headers of an inbound packet *)

(** Position in the chain: the type, offset and predecessor of the next header. *)
Record chainState := mkChain {
  ch_next : Z;
  ch_offset : Z;
  ch_previous : Z;
  ch_seenHop : bool }.

(** A Hop-by-Hop, Destination or Routing header: rejected, reported by a
    Parameter Problem with code and pointer, or passed. *)
Inductive headerVerdict :=
| HeaderRejected
| HeaderParameter (code pointer : Z)
| HeaderPassed (s : chainState).

Definition ingressHeader (target : Addr) (payload : list Z) (s : chainState) : option headerVerdict :=
  let headerType := ch_next s in
  let headerOffset := ch_offset s in
  if (headerType =? IPv6ExtensionHeaderHopByHop) && (negb (ch_offset s =? 0) || ch_seenHop s)
  then Some (HeaderParameter 1 (ipv6NextHeaderFieldOffset (ch_previous s)))
  else
    remaining ← slice payload (ch_offset s) (zlen payload);
    let '(length, valid) := ipv6ExtensionHeaderUnit8Length remaining in
    if negb valid then Some HeaderRejected
    else
      header ← slice payload (ch_offset s) (ch_offset s + length);
      next ← idx header 0;
      let passed := mkChain next (ch_offset s + length) (ch_offset s)
                      (ch_seenHop s || (headerType =? IPv6ExtensionHeaderHopByHop)) in
      if headerType =? IPv6ExtensionHeaderRouting then
        segments ← idx header 3;
        Some (if negb (segments =? 0) then HeaderParameter 0 (40 + headerOffset + 2)
              else HeaderPassed passed)
      else
        '(valid, action, optionOffset) ← inspectIPv6Options header;
        Some (if valid : bool then HeaderPassed passed
              else if (2 <=? action) && ((action =? 2) || negb (isMulticast target))
              then HeaderParameter 2 (40 + headerOffset + optionOffset)
              else HeaderRejected).

Definition isUnit8Header (headerType : Z) : bool :=
  (headerType =? IPv6ExtensionHeaderHopByHop) || (headerType =? IPv6ExtensionHeaderDestination)
  || (headerType =? IPv6ExtensionHeaderRouting).

(** ** Unfragmented packets *)

Record ipPacket := mkIpPacket {
  pk_source : Addr;
  pk_target : Addr;
  pk_protocol : Z;
  pk_protocolOffset : Z;
  pk_parameterError : bool;
  pk_parameterCode : Z;
  pk_parameterAt : Z;
  pk_ecn : Z;
  pk_hopLimit : Z;
  pk_trafficClass : Z;
  pk_flowLabel : Z;
  pk_payload : list Z;
  pk_original : list Z }.

Definition parseIngress4 (bigEndian : bool) (packet : list Z) (skipChecksum : bool)
    : option (option ipPacket) :=
  if zlen packet <? 20 then Some None
  else
    b0 ← idx packet 0;
    let headerSize := Z.land b0 15 * 4 in
    totalSize ← be16 packet 2;
    field ← be16 packet 6;
    if (headerSize <? 20) || (totalSize <? headerSize) || (zlen packet <? totalSize)
       || negb (Z.land field 49151 =? 0) then Some None
    else
      header ← slice packet 0 headerSize;
      if negb skipChecksum && negb (checksum bigEndian header =? 0) then Some None
      else
        source ← slice packet 12 16;
        target ← slice packet 16 20;
        original ← slice packet 0 totalSize;
        options ← slice packet 20 headerSize;
        malformed ← (if 20 <? headerSize then malformedIPv4Option options else Some None);
        match malformed with
        | Some optionAt =>
            Some (Some (mkIpPacket (Addr4 source) (Addr4 target) 0 0 true 0 (u32 (20 + optionAt)) 0 0 0 0
                          [] original))
        | None =>
            valid ← (if 20 <? headerSize then validateIPv4Options options else Some true);
            if negb valid then Some None
            else
              protocol ← idx packet 9;
              hopLimit ← idx packet 8;
              trafficClass ← idx packet 1;
              payload ← slice packet headerSize totalSize;
              Some (Some (mkIpPacket (Addr4 source) (Addr4 target) protocol 9 false 0 0
                            (Z.land trafficClass 3) hopLimit trafficClass 0 payload original))
        end.

(** The fields of the base header that every IPv6 result carries. *)
Record ipv6Base := mkBase {
  vb_source : Addr;
  vb_target : Addr;
  vb_ecn : Z;
  vb_hopLimit : Z;
  vb_trafficClass : Z;
  vb_flowLabel : Z;
  vb_original : list Z }.

Definition baseResult (b : ipv6Base) (protocol protocolOffset : Z) (parameter : option (Z * Z))
    (payload : list Z) : ipPacket :=
  mkIpPacket (vb_source b) (vb_target b) protocol protocolOffset
    (match parameter with Some _ => true | None => false end)
    (match parameter with Some (code, _) => code | None => 0 end)
    (match parameter with Some (_, pointer) => u32 pointer | None => 0 end)
    (vb_ecn b) (vb_hopLimit b) (vb_trafficClass b) (vb_flowLabel b) payload (vb_original b).

Definition ingress6Body (b : ipv6Base) (payload : list Z) (s : chainState)
    : option (chainState + option ipPacket) :=
  if isUnit8Header (ch_next s) then
    verdict ← ingressHeader (vb_target b) payload s;
    Some (match verdict with
          | HeaderRejected => inr None
          | HeaderParameter code pointer => inr (Some (baseResult b 0 0 (Some (code, pointer)) []))
          | HeaderPassed s => inl s
          end)
  else if ch_next s =? IPv6ExtensionHeaderFragment then
    if zlen payload - ch_offset s <? 8 then Some (inr None)
    else
      header ← slice payload (ch_offset s) (ch_offset s + 8);
      next ← idx header 0;
      field ← be16 header 2;
      if negb (Z.land field 65529 =? 0) then Some (inr None)
      else Some (inl (mkChain next (ch_offset s + 8) (ch_offset s) (ch_seenHop s)))
  else
    rest ← slice payload (ch_offset s) (zlen payload);
    Some (inr (Some (baseResult b (ch_next s) (ipv6NextHeaderFieldOffset (ch_previous s)) None rest))).

Definition parseIngress6 (packet : list Z) : option (option ipPacket) :=
  if zlen packet <? 40 then Some None
  else
    payloadSize ← be16 packet 4;
    let stop := 40 + payloadSize in
    if zlen packet <? stop then Some None
    else
      source ← slice packet 8 24;
      target ← slice packet 24 40;
      let source := Addr6 source noZone in
      let target := Addr6 target noZone in
      if is4In6 source || is4In6 target then Some None
      else
        b0 ← idx packet 0;
        b1 ← idx packet 1;
        low ← be16 packet 2;
        payload ← slice packet 40 stop;
        original ← slice packet 0 stop;
        protocol ← idx packet 6;
        hopLimit ← idx packet 7;
        let b := mkBase source target (Z.land (Z.shiftr b1 4) 3) hopLimit
                   (Z.lor (u8 (Z.shiftl (Z.land b0 15) 4)) (Z.shiftr b1 4))
                   (Z.lor (Z.shiftl (Z.land b1 15) 16) low) original in
        if negb (isUnit8Header protocol || (protocol =? IPv6ExtensionHeaderFragment))
        then Some (Some (baseResult b protocol 6 None payload))
        else loop (S (length payload)) (ingress6Body b payload) (mkChain protocol 0 (-1) false).

Definition parseIPPacket (bigEndian : bool) (packet : list Z) (skipChecksum : bool)
    : option (option ipPacket) :=
  match packet with
  | [] => Some None
  | b0 :: _ =>
      if Z.shiftr b0 4 =? 4 then parseIngress4 bigEndian packet skipChecksum
      else if Z.shiftr b0 4 =? 6 then parseIngress6 packet
      else Some None
  end.

Definition hasRouterAlert (p : ipPacket) : option bool :=
  if is4 (pk_source p) then
    if zlen (pk_original p) <? 20 then Some false
    else
      b0 ← idx (pk_original p) 0;
      let headerSize := Z.land b0 15 * 4 in
      if (20 <=? headerSize) && (headerSize <=? zlen (pk_original p)) then
        options ← slice (pk_original p) 20 headerSize; ipv4RouterAlert options
      else Some false
  else if negb (is6 (pk_source p)) || (zlen (pk_original p) <? 48) then Some false
  else
    next ← idx (pk_original p) 6;
    if negb (next =? IPv6ExtensionHeaderHopByHop) then Some false
    else
      rest ← slice (pk_original p) 40 (zlen (pk_original p));
      let '(length, valid) := ipv6ExtensionHeaderUnit8Length rest in
      if (valid : bool) then header ← slice (pk_original p) 40 (40 + length); ipv6RouterAlert header
      else Some false.

(** The destination, before any other validation. *)
Definition packetDestination (packet : list Z) : option (option Addr) :=
  match packet with
  | [] => Some None
  | b0 :: _ =>
      if Z.shiftr b0 4 =? 4 then
        if zlen packet <? 20 then Some None
        else target ← slice packet 16 20; Some (Some (Addr4 target))
      else if Z.shiftr b0 4 =? 6 then
        if zlen packet <? 40 then Some None
        else target ← slice packet 24 40; Some (Some (Addr6 target noZone))
      else Some None
  end.

(** ** The upper-layer header of a first fragment *)

(** The required size and whether it is complete. *)
Definition ipv6FirstFragmentUpperLayerLength (protocol : Z) (payload : list Z) : option (Z * bool) :=
  let answer required := Some (required, required <=? zlen payload) in
  if protocol =? ProtocolNoNextHeader then Some (0, true)
  else if protocol =? ProtocolTCP then
    if zlen payload <? tcpHeaderSize then Some (0, false)
    else
      b ← idx payload 12;
      let required := Z.shiftr b 4 * 4 in
      answer (if required <? tcpHeaderSize then tcpHeaderSize else required)
  else if (protocol =? ProtocolIGMP) || (protocol =? ProtocolUDP) || (protocol =? ProtocolICMPv4)
          || (protocol =? ProtocolICMPv6) || (protocol =? ProtocolESP) || (protocol =? 136)
  then answer 8
  else if protocol =? 4 then
    if zlen payload <? 20 then Some (0, false)
    else
      b ← idx payload 0;
      let required := Z.land b 15 * 4 in
      answer (if required <? 20 then 20 else required)
  else if protocol =? 33 then
    if zlen payload <? 12 then Some (0, false)
    else
      b ← idx payload 4;
      flags ← idx payload 8;
      let required := b * 4 in
      let minimum := if negb (Z.land flags 1 =? 0) then 16 else 12 in
      answer (if required <? minimum then minimum else required)
  else if protocol =? 41 then answer 40
  else if protocol =? 132 then answer 12
  else Some (0, true).

Definition headerCompleteBody (payload : list Z) (s : Z * Z) : option (Z * Z + bool) :=
  let '(next, offset) := s in
  rest ← slice payload offset (zlen payload);
  if next =? IPv6ExtensionHeaderFragment then Some (inr false)
  else if isTraversableIPv6ExtensionHeader next then
    let '(length, valid) := ipv6ExtensionHeaderLength next rest in
    if negb valid then Some (inr false)
    else following ← idx payload offset; Some (inl (following, offset + length))
  else
    '(_, complete) ← ipv6FirstFragmentUpperLayerLength next rest;
    Some (inr complete).

Definition ipv6FirstFragmentHeaderComplete (next : Z) (payload : list Z) : option bool :=
  loop (S (length payload)) (headerCompleteBody payload) (next, 0).

(** ** Fragments *)

Record parsedFragment := mkParsed {
  pf_fragment : ipPacketReassemblyFragment;
  pf_truncated : bool;
  pf_parameter : bool;
  pf_parameterCode : Z;
  pf_parameterAt : Z }.

(** The zero value with the fields a Parameter Problem needs. *)
Definition reportedFragment (source target : Addr) (protocol offset identifier : Z) (v6 : bool)
    (original : list Z) : ipPacketReassemblyFragment :=
  mkFragment source target protocol offset false [] identifier v6 0 0 0 false [] 0 original.

Definition parseFragment4 (bigEndian : bool) (packet : list Z) (skipChecksum : bool)
    : option (option parsedFragment) :=
  if zlen packet <? 20 then Some None
  else
    b0 ← idx packet 0;
    let headerSize := Z.land b0 15 * 4 in
    totalSize ← be16 packet 2;
    field ← be16 packet 6;
    if (headerSize <? 20) || (totalSize <=? headerSize) || (zlen packet <? totalSize) then Some None
    else
      header ← slice packet 0 headerSize;
      if (negb skipChecksum && negb (checksum bigEndian header =? 0)) || (Z.land field 16383 =? 0)
         || negb (Z.land field 32768 =? 0) then Some None
      else
        source ← slice packet 12 16;
        target ← slice packet 16 20;
        identifier ← be16 packet 4;
        protocol ← idx packet 9;
        original ← slice packet 0 totalSize;
        options ← slice packet 20 headerSize;
        let offset := Z.land field 8191 * 8 in
        malformed ← malformedIPv4Option options;
        match malformed with
        | Some optionAt =>
            Some (Some (mkParsed (reportedFragment (Addr4 source) (Addr4 target) protocol offset identifier
                                    false original) false true 0 (u32 (20 + optionAt))))
        | None =>
            valid ← validateIPv4Options options;
            if negb valid then Some None
            else
              payload ← slice packet headerSize totalSize;
              trafficClass ← idx packet 1;
              Some (Some (mkParsed
                (mkFragment (Addr4 source) (Addr4 target) protocol offset (negb (Z.land field 8192 =? 0))
                   payload identifier false (Z.land trafficClass 3) (fragmentMaximumDatagram - headerSize)
                   totalSize (negb (Z.land field 16384 =? 0)) header 9 original)
                false false 0 0))
        end.

(** The base header and the bytes of the packet up to the end. *)
Record fragment6Base := mkFragment6Base {
  gb_source : Addr;
  gb_target : Addr;
  gb_ecn : Z;
  gb_original : list Z }.

Definition fragment6At (b : fragment6Base) (packet payload6 : list Z) (s : chainState)
    : option (option parsedFragment) :=
  let headerOffset := ch_offset s in
  if zlen payload6 - ch_offset s <? 8 then Some None
  else
    header ← slice payload6 (ch_offset s) (ch_offset s + 8);
    protocol ← idx header 0;
    field ← be16 header 2;
    if Z.land field 65529 =? 0 then Some None
    else
      identifier ← be32 header 4;
      let fragmentOffset := Z.land field 65528 in
      let more := negb (Z.land field 1 =? 0) in
      payload ← slice payload6 (ch_offset s + 8) (zlen payload6);
      let maximum := if fragmentOffset =? 0 then fragmentMaximumDatagram - headerOffset
                     else fragmentMaximumDatagram in
      let overflow := maximum - zlen payload <? fragmentOffset in
      complete ← (if (fragmentOffset =? 0) && more then ipv6FirstFragmentHeaderComplete protocol payload
                  else Some true);
      wireHeader ← slice packet 0 (40 + headerOffset);
      Some (Some (mkParsed
        (mkFragment (gb_source b) (gb_target b) protocol fragmentOffset more payload identifier true
           (gb_ecn b) maximum 0 false wireHeader (ipv6NextHeaderFieldOffset (ch_previous s)) (gb_original b))
        (negb complete) ((more && negb (Z.rem (zlen payload) 8 =? 0)) || overflow) 0
        (if overflow then u32 (40 + headerOffset + 2) else 4))).

Definition fragment6Body (b : fragment6Base) (packet payload6 : list Z) (s : chainState)
    : option (chainState + option parsedFragment) :=
  if isUnit8Header (ch_next s) then
    verdict ← ingressHeader (gb_target b) payload6 s;
    Some (match verdict with
          | HeaderRejected => inr None
          | HeaderParameter code pointer =>
              inr (Some (mkParsed (reportedFragment (gb_source b) (gb_target b) 0 0 0 true (gb_original b))
                           false true code (u32 pointer)))
          | HeaderPassed s => inl s
          end)
  else if ch_next s =? IPv6ExtensionHeaderFragment then
    result ← fragment6At b packet payload6 s; Some (inr result)
  else Some (inr None).

Definition parseFragment6 (packet : list Z) : option (option parsedFragment) :=
  if zlen packet <? 48 then Some None
  else
    payloadSize ← be16 packet 4;
    let stop := 40 + payloadSize in
    if zlen packet <? stop then Some None
    else
      source ← slice packet 8 24;
      target ← slice packet 24 40;
      payload6 ← slice packet 40 stop;
      original ← slice packet 0 stop;
      next ← idx packet 6;
      b1 ← idx packet 1;
      let b := mkFragment6Base (Addr6 source noZone) (Addr6 target noZone) (Z.land (Z.shiftr b1 4) 3) original in
      loop (S (length payload6)) (fragment6Body b packet payload6) (mkChain next 0 (-1) false).

Definition parseFragment (bigEndian : bool) (packet : list Z) (skipChecksum : bool)
    : option (option parsedFragment) :=
  match packet with
  | [] => Some None
  | b0 :: _ =>
      if Z.shiftr b0 4 =? 4 then parseFragment4 bigEndian packet skipChecksum
      else if Z.shiftr b0 4 =? 6 then parseFragment6 packet
      else Some None
  end.

(** ** Lemmas: reading *)

(** Reading in range: the value is named and its equation kept. *)
Ltac read_step :=
  lazymatch goal with
  | |- exists r, mbind _ ?e = Some r /\ _ =>
      lazymatch e with
      | idx ?l ?i =>
          let x := fresh "x" in let E := fresh "Ex" in
          destruct (idx_some l i) as [x E]; [lia|]; rewrite E; cbn [mbind option_bind]
      | be16 ?l ?i =>
          let x := fresh "v" in let E := fresh "Ev" in
          destruct (be16_total l i) as [x E]; [lia|lia|]; rewrite E; cbn [mbind option_bind]
      | be32 ?l ?i =>
          let x := fresh "v" in let E := fresh "Ev" in
          destruct (be32_total l i) as [x E]; [lia|lia|]; rewrite E; cbn [mbind option_bind]
      | slice ?l ?a ?b =>
          let x := fresh "s" in let E := fresh "Es" in let H := fresh "Hs" in
          destruct (slice_some l a b) as (x & E & H); [lia|lia|lia|]; rewrite E; cbn [mbind option_bind]
      end
  end.

(** The guard at the head of the goal. *)
Ltac head_if E :=
  lazymatch goal with |- exists r, (if ?b then _ else _) = Some r /\ _ => destruct b eqn:E end.

Lemma malformedOption_ok options offset kind length seen :
  bytes_ok options -> 0 <= offset -> 2 <= length -> offset + length <= zlen options ->
  exists r, malformedOption options offset kind length seen = Some r /\
            forall at_, r = inr at_ -> offset <= at_ < zlen options.
Proof.
  intros Hb Ho Hl Hlen. unfold malformedOption, malformedRecordRoute, malformedTimestamp.
  repeat match goal with
  | |- exists r, Some _ = Some r /\ _ => eexists; split; [reflexivity|]; intros at_ [= <-]; lia
  | |- exists r, Some _ = Some r /\ _ => eexists; split; [reflexivity|]; intros at_ [=]
  | |- context [if ?b then _ else _] =>
      lazymatch b with context [if _ then _ else _] => fail | _ => destruct b eqn:?; try lia end
  | |- context [mbind _ (idx options ?i)] => read_step
  end.
Qed.

Lemma malformed_ok options :
  bytes_ok options -> zlen options <= 40 ->
  exists r, malformedIPv4Option options = Some r /\ forall at_, r = Some at_ -> 0 <= at_ < zlen options.
Proof.
  intros Hb Hl. unfold malformedIPv4Option.
  apply (loop_total (fun s => 0 <= fst s) (fun s => Z.to_nat (zlen options - fst s))
    (fun r : option Z => forall at_, r = Some at_ -> 0 <= at_ < zlen options)); [|done|simpl; unfold zlen; lia].
  intros [offset seen] Ho. cbn [fst] in Ho. unfold malformedBody. destruct (offset <? zlen options) eqn:E; [|by eexists].
  read_step. destruct (x =? _); [by eexists|]. destruct (x =? _); [eexists; split; [done|simpl; lia]|].
  read_step. pose proof (slice_bytes_ok _ _ _ _ Hb Es) as Hbs.
  unfold ipv4HeaderOptionLength. destruct (headerOptionLength_range s Hbs ltac:(lia)) as [->|Hr].
  { eexists. split; [done|]. intros at_ [= <-]. lia. }
  destruct (tcpHeaderOptionLength s =? 0) eqn:E0; [lia|].
  destruct (malformedOption_ok options offset x (tcpHeaderOptionLength s) seen Hb Ho) as (r & -> & Hat); [lia..|].
  cbn [mbind option_bind]. eexists. split; [done|]. destruct r as [seen'|at_]; [simpl; lia|].
  intros ? [= <-]. specialize (Hat at_ eq_refl). lia.
Qed.

Lemma validate_total options : bytes_ok options -> exists b, validateIPv4Options options = Some b.
Proof.
  intros Hb. unfold validateIPv4Options.
  destruct (loop_total (fun o => 0 <= o) (fun o => Z.to_nat (zlen options - o)) (fun _ => True)
    (validateBody options)) with (fuel := S (length options)) (s := 0) as (b & E & _);
    [|lia|unfold zlen; lia|by exists b].
  intros offset Ho. unfold validateBody. destruct (offset <? zlen options) eqn:E; [|by eexists].
  read_step. repeat (destruct (_ =? _); [eexists; split; [done|simpl; lia]|]).
  cbn [orb]. destruct (_ <? 2) eqn:E2; [by eexists|]. read_step.
  destruct (_ || _) eqn:Ec; [by eexists|]. eexists. split; [done|]. simpl. lia.
Qed.

Lemma optionLength_range kind l : bytes_ok l -> 0 < zlen l ->
  let '(n, valid) := ipv6ExtensionOptionLength kind l in valid = true -> 1 <= n <= zlen l.
Proof.
  intros Hb Hl. unfold ipv6ExtensionOptionLength. destruct (_ =? _); [lia|].
  destruct l as [|a [|b l]]; try done. apply Forall_cons_iff in Hb as [_ Hb].
  apply Forall_cons_iff in Hb as [Hn _]. unfold is_u8 in Hn. lia.
Qed.

(** The inspection returns; an offending option lies in the header. *)
Lemma inspectOptions_ok header : bytes_ok header ->
  exists valid action offset, inspectIPv6Options header = Some (valid, action, offset) /\
    (2 <= action -> 0 <= offset < zlen header).
Proof.
  intros Hb. unfold inspectIPv6Options. destruct (_ <? 8) eqn:E8; [eexists _, _, _; split; [done|lia]|].
  destruct (loop_total (fun o => 2 <= o) (fun o => Z.to_nat (zlen header - o))
    (fun r : bool * Z * Z => 2 <= snd (fst r) -> 0 <= snd r < zlen header) (inspectOptionsBody header))
    with (fuel := S (length header)) (s := 2) as ([[valid action] offset] & E & H);
    [|lia|unfold zlen; lia|by eexists _, _, _].
  intros offset Ho. unfold inspectOptionsBody. destruct (offset <? zlen header) eqn:E; [|eexists; split; [done|simpl; lia]].
  read_step. read_step. pose proof (optionLength_range x s (slice_bytes_ok _ _ _ _ Hb Es) ltac:(lia)) as Hn.
  destruct (ipv6ExtensionOptionLength x s) as [n valid]. destruct valid; cbn [negb].
  - specialize (Hn eq_refl). destruct (negb _); (eexists; split; [done|simpl; lia]).
  - eexists. split; [done|simpl; lia].
Qed.

Lemma unit8_range l : bytes_ok l ->
  let '(n, valid) := ipv6ExtensionHeaderUnit8Length l in valid = true -> 8 <= n <= zlen l.
Proof.
  intros Hb. destruct l as [|a [|b l]]; try done. apply Forall_cons_iff in Hb as [_ Hb].
  apply Forall_cons_iff in Hb as [Hn _]. unfold is_u8 in Hn. simpl. unfold ipv6ExtensionHeaderUnit8LengthField. lia.
Qed.

(** ** Lemmas: the chain *)

Record chainOk (original payload : list Z) (s : chainState) : Prop := {
  co_offset : 0 <= ch_offset s <= zlen payload;
  co_previous : -1 <= ch_previous s < ch_offset s \/ (ch_previous s = -1 /\ ch_offset s = 0);
  co_field : idx original (ipv6NextHeaderFieldOffset (ch_previous s)) = Some (ch_next s) }.

(** The payload of an IPv6 packet inside the packet. *)
Definition payloadOf (original payload : list Z) : Prop :=
  exists base, original = base ++ payload /\ zlen base = 40.

Lemma payload_idx original payload i : payloadOf original payload -> 0 <= i -> idx original (40 + i) = idx payload i.
Proof.
  intros (base & -> & Hb) Hi. rewrite idx_app_r by lia. f_equal. lia.
Qed.

Lemma field_range original payload s : payloadOf original payload -> chainOk original payload s ->
  6 <= ipv6NextHeaderFieldOffset (ch_previous s) < 40 + Z.max (ch_offset s) 0.
Proof. intros (base & -> & Hb) [Ho Hp Hf]. unfold ipv6NextHeaderFieldOffset. destruct (Z.ltb_spec (ch_previous s) 0); lia. Qed.

Lemma chain_advance original payload s n next :
  payloadOf original payload -> chainOk original payload s -> 0 < n -> ch_offset s + n <= zlen payload ->
  idx payload (ch_offset s) = Some next -> forall hop,
  chainOk original payload (mkChain next (ch_offset s + n) (ch_offset s) hop).
Proof.
  intros Hpay [Ho Hp Hf] Hn Hl Hi hop. split; cbn; [lia|lia|].
  unfold ipv6NextHeaderFieldOffset. destruct (Z.ltb_spec (ch_offset s) 0); [lia|]. by rewrite (payload_idx _ payload) by (done || lia).
Qed.

Lemma slice_idx0 {A} (l w : list A) a b x : slice l a b = Some w -> idx w 0 = Some x -> idx l a = Some x.
Proof.
  intros H Hx. apply slice_inv in H as (H1 & H2 & H3 & Hl & Hw). subst w.
  pose proof (idx_range _ _ _ Hx) as Hr. rewrite idx_lookup in Hx by lia. rewrite idx_lookup by lia.
  change (Z.to_nat 0) with 0%nat in Hx. rewrite lookup_take_lt, lookup_drop in Hx by lia. by rewrite Nat.add_0_r in Hx.
Qed.

Lemma ingressHeader_ok target original payload s :
  bytes_ok payload -> payloadOf original payload -> chainOk original payload s -> isUnit8Header (ch_next s) = true ->
  exists v, ingressHeader target payload s = Some v /\
    match v with
    | HeaderRejected => True
    | HeaderParameter _ pointer => 0 <= pointer < zlen original
    | HeaderPassed s' => chainOk original payload s' /\ ch_offset s < ch_offset s'
    end.
Proof.
  intros Hb Hpay Hc Hu. unfold ingressHeader.
  assert (zlen original = 40 + zlen payload) as Hlen by (destruct Hpay as (base & -> & Hbase); len).
  pose proof (co_offset _ _ _ Hc) as Ho.
  destruct (_ && _).
  { eexists. split; [done|]. pose proof (field_range _ _ _ Hpay Hc). pose proof (idx_range _ _ _ (co_field _ _ _ Hc)). cbn. lia. }
  read_step. pose proof (unit8_range s0 (slice_bytes_ok _ _ _ _ Hb Es)) as Hn.
  destruct (ipv6ExtensionHeaderUnit8Length s0) as [n valid]. destruct valid; cbn [negb]; [|by eexists].
  specialize (Hn eq_refl). read_step. read_step. pose proof (slice_idx0 _ _ _ _ _ Es0 Ex) as Hi.
  assert (forall hop, chainOk original payload (mkChain x (ch_offset s + n) (ch_offset s) hop)) as Hadv
    by (apply chain_advance; done || lia).
  destruct (ch_next s =? IPv6ExtensionHeaderRouting).
  - read_step. eexists. split; [done|]. destruct (negb _); [lia|]. split; [apply Hadv|cbn; lia].
  - destruct (inspectOptions_ok s1 (slice_bytes_ok _ _ _ _ Hb Es0)) as (ok & action & o & -> & Hat). cbn [mbind option_bind].
    eexists. split; [done|]. destruct ok; [split; [apply Hadv|cbn; lia]|].
    destruct (_ && _) eqn:E; [|done]. specialize (Hat ltac:(lia)). lia.
Qed.

(** ** Lemmas: unfragmented packets *)

(** A packet the ordinary parser accepts. *)
Record ingressOk (packet : list Z) (p : ipPacket) : Prop := {
  io_original : exists rest, packet = pk_original p ++ rest;
  io_addresses : addrOk (pk_source p) /\ addrOk (pk_target p) /\ is4 (pk_source p) = is4 (pk_target p) /\
                 isValid (pk_source p) = true /\ isValid (pk_target p) = true;
  io_parameter : pk_parameterError p = true -> 0 <= pk_parameterAt p < zlen (pk_original p);
  io_payload : pk_parameterError p = false ->
    (exists front, pk_original p = front ++ pk_payload p /\ pk_protocolOffset p < zlen front) /\
    idx (pk_original p) (pk_protocolOffset p) = Some (pk_protocol p) }.

Lemma slice_prefix {A} (l w : list A) n : slice l 0 n = Some w -> exists rest, l = w ++ rest.
Proof.
  intros H. apply slice_inv in H as (_ & _ & _ & _ & ->). exists (drop (Z.to_nat (n - 0)) l).
  change (Z.to_nat 0) with 0%nat. by rewrite drop_0, take_drop.
Qed.

(** A prefix split at [m]. *)
Lemma slice_split {A} (l w front back : list A) m n :
  slice l 0 n = Some w -> slice l 0 m = Some front -> slice l m n = Some back -> m <= n -> w = front ++ back.
Proof.
  intros H1 H2 H3 Hm. apply slice_inv in H1 as (_ & _ & L1 & _ & ->). apply slice_inv in H2 as (? & ? & _ & _ & ->).
  apply slice_inv in H3 as (_ & _ & _ & _ & ->). change (Z.to_nat 0) with 0%nat. rewrite drop_0, !Z.sub_0_r.
  by rewrite take_take_drop, <- Z2Nat.inj_add, Zplus_minus by lia.
Qed.

Lemma slice_idx {A} (l w : list A) n i : slice l 0 n = Some w -> 0 <= i < n -> idx w i = idx l i.
Proof.
  intros H Hi. apply slice_inv in H as (_ & _ & Hl & _ & ->). change (Z.to_nat 0) with 0%nat. rewrite drop_0, Z.sub_0_r.
  rewrite !idx_lookup by lia. by rewrite lookup_take_lt by lia.
Qed.

Lemma header4_range x : 0 <= Z.land x 15 * 4 <= 60 /\ Z.land x 15 * 4 mod 4 = 0.
Proof. mask_low x 4. zlia. Qed.

Lemma addr_slice packet a b n :
  bytes_ok packet -> slice packet a b = Some n -> b - a = 4 \/ b - a = 16 ->
  (b - a = 4 -> addrOk (Addr4 n)) /\ (b - a = 16 -> addrOk (Addr6 n noZone)).
Proof.
  intros Hb H Hl. pose proof (slice_bytes_ok _ _ _ _ Hb H) as Hn. apply slice_inv in H as (_ & _ & _ & Hlen & _).
  unfold zlen in Hlen. split; intros E; split; try done; lia.
Qed.

Lemma parseIngress4_ok be packet skip :
  bytes_ok packet ->
  exists r, parseIngress4 be packet skip = Some r /\ forall p, r = Some p -> ingressOk packet p.
Proof.
  intros Hb. unfold parseIngress4. destruct (_ <? 20) eqn:E20; [by eexists|]. read_step.
  pose proof (header4_range x) as [Hh _]. set (headerSize := Z.land x 15 * 4) in *. clearbody headerSize.
  read_step. read_step. pose proof (be16_range _ _ _ Hb Ev) as Hv. unfold is_u16 in Hv.
  destruct (_ || _) eqn:Ec; [by eexists|]. apply orb_false_iff in Ec as [Ec _].
  read_step. destruct (_ && _); [by eexists|]. do 4 read_step.
  destruct (addr_slice packet 12 16 s0 Hb Es0 ltac:(lia)) as [A1 _]. destruct (addr_slice packet 16 20 s1 Hb Es1 ltac:(lia)) as [A2 _].
  specialize (A1 eq_refl). specialize (A2 eq_refl).
  pose proof (slice_bytes_ok _ _ _ _ Hb Es3) as Hbo.
  assert (exists m, (if 20 <? headerSize then malformedIPv4Option s3 else Some None) = Some m /\
            forall at_, m = Some at_ -> 0 <= at_ < zlen s3) as (m & -> & Hm).
  { destruct (20 <? headerSize); [apply malformed_ok; [done|lia]|by eexists]. }
  cbn [mbind option_bind]. destruct m as [at_|].
  { eexists. split; [done|]. intros p [= <-]. specialize (Hm at_ eq_refl). split; cbn; [by eapply slice_prefix|done| |done].
    intros _. rewrite u32_id by (unfold is_u32; lia). lia. }
  assert (exists b, (if 20 <? headerSize then validateIPv4Options s3 else Some true) = Some b) as [b ->].
  { destruct (20 <? headerSize); [by apply validate_total|by eexists]. }
  cbn [mbind option_bind]. destruct b; cbn [negb]; [|by eexists]. do 4 read_step.
  eexists. split; [done|]. intros p [= <-]. split; cbn; [by eapply slice_prefix|done|done|]. intros _. split.
  - exists s. split; [by eapply slice_split; try done; lia|lia].
  - by rewrite <- idx_lookup, (slice_idx packet s2 v 9) by (done || lia).
Qed.

Lemma ingress6Body_ok b original payload s :
  bytes_ok payload -> payloadOf original payload -> chainOk original payload s ->
  exists r, ingress6Body b payload s = Some r /\
    match r with
    | inl s' => chainOk original payload s' /\ ch_offset s < ch_offset s'
    | inr None => True
    | inr (Some p) => exists protocol at_ parameter rest, p = baseResult b protocol at_ parameter rest /\
        match parameter with
        | Some (_, pointer) => 0 <= pointer < zlen original
        | None => idx original at_ = Some protocol /\ exists front, original = front ++ rest /\ at_ < zlen front
        end
    end.
Proof.
  intros Hb Hpay Hc. unfold ingress6Body. destruct (isUnit8Header (ch_next s)) eqn:Eu.
  { destruct (ingressHeader_ok (vb_target b) original payload s Hb Hpay Hc Eu) as (v & -> & Hv).
    cbn [mbind option_bind]. eexists. split; [done|]. destruct v as [|code pointer|s']; [exact I| |exact Hv].
    by exists 0, 0, (Some (code, pointer)), []. }
  pose proof (co_offset _ _ _ Hc) as Ho. destruct (_ =? _).
  - destruct (_ <? 8) eqn:E8; [by eexists|]. read_step. read_step. read_step.
    destruct (negb _); [by eexists|]. eexists. split; [done|]. split; [|cbn; lia].
    apply chain_advance; try done; [lia|]. by eapply slice_idx0.
  - read_step. eexists. split; [done|]. eexists _, _, None, _. split; [done|]. split; [apply (co_field _ _ _ Hc)|].
    pose proof (field_range _ _ _ Hpay Hc) as Hf. destruct Hpay as (base & -> & Hbase).
    exists (base ++ take (Z.to_nat (ch_offset s)) payload). split.
    + rewrite <- app_assoc. f_equal. apply slice_inv in Es as (_ & _ & _ & Hl & ->).
      rewrite (firstn_all2 (drop _ _)) by (rewrite length_drop; unfold zlen; lia). by rewrite take_drop.
    + len.
Qed.

Lemma parseIngress6_ok packet :
  bytes_ok packet ->
  exists r, parseIngress6 packet = Some r /\ forall p, r = Some p -> ingressOk packet p.
Proof.
  intros Hb. unfold parseIngress6. destruct (_ <? 40) eqn:E40; [by eexists|]. read_step.
  pose proof (be16_range _ _ _ Hb Ev) as Hv. unfold is_u16 in Hv. destruct (_ <? 40 + v) eqn:Ec; [by eexists|].
  read_step. read_step. destruct (_ || _) eqn:E4; [by eexists|]. apply orb_false_iff in E4 as [_ _].
  do 7 read_step.
  destruct (addr_slice packet 8 24 s Hb Es ltac:(lia)) as [_ A1]. destruct (addr_slice packet 24 40 s0 Hb Es0 ltac:(lia)) as [_ A2].
  specialize (A1 eq_refl). specialize (A2 eq_refl).
  pose proof (slice_bytes_ok _ _ _ _ Hb Es1) as Hbp.
  lazymatch goal with |- context [mkBase ?a ?b ?c ?d ?e ?f ?g] => set (base0 := mkBase a b c d e f g) end.
  destruct (slice_some packet 0 40) as (base & Eb & Hbase); [lia..|].
  assert (payloadOf s2 s1) as Hpay by (exists base; split; [by eapply slice_split; try done; lia|lia]).
  assert (idx s2 6 = Some x1) as H6 by (by rewrite (slice_idx packet s2 (40 + v)) by (done || lia)).
  assert (forall protocol at_ parameter rest,
      match parameter with
      | Some (_, pointer) => 0 <= pointer < zlen s2
      | None => idx s2 at_ = Some protocol /\ exists front, s2 = front ++ rest /\ at_ < zlen front
      end -> ingressOk packet (baseResult base0 protocol at_ parameter rest)) as Hres.
  { intros protocol at_ parameter rest H. split; [by eapply slice_prefix|done| |].
    - destruct parameter as [[code pointer]|]; [|done]. intros _. cbn. rewrite u32_id by (unfold is_u32; lia). lia.
    - destruct parameter as [[code pointer]|]; [done|]. intros _. destruct H as [Hi Hf]. by split. }
  destruct (negb _).
  { eexists. split; [done|]. intros p [= <-]. apply Hres. split; [done|]. exists base. split; [|lia].
    by eapply slice_split; try done; lia. }
  apply (loop_total (chainOk s2 s1) (fun s => Z.to_nat (zlen s1 - ch_offset s))
    (fun r => forall p, r = Some p -> ingressOk packet p)).
  - intros st Hst. destruct (ingress6Body_ok base0 s2 s1 st Hbp Hpay Hst) as (r & -> & Hr). eexists. split; [done|].
    destruct r as [s'|[p|]]; [|intros ? [= <-]|done].
    + destruct Hr as [Hc' Ho]. split; [done|]. pose proof (co_offset _ _ _ Hc'). pose proof (co_offset _ _ _ Hst). lia.
    + destruct Hr as (protocol & at_ & parameter & rest & -> & H). by apply Hres.
  - split; cbn; [unfold zlen; lia|lia|done].
  - cbn. unfold zlen. lia.
Qed.

(** C30. On every sequence of bytes the ingress parser returns without an index
    panic, and a packet it accepts is consistent with the bytes it came from. *)
Theorem ingress_parse_safe bigEndian packet skipChecksum :
  bytes_ok packet ->
  exists r, parseIPPacket bigEndian packet skipChecksum = Some r /\ forall p, r = Some p -> ingressOk packet p.
Proof.
  intros Hb. unfold parseIPPacket. destruct packet as [|b0 packet]; [by exists None|].
  destruct (_ =? 4); [by apply parseIngress4_ok|]. destruct (_ =? 6); [by apply parseIngress6_ok|by exists None].
Qed.


(** What a slice is cut from. *)
Lemma slice_inv_app {A} (l w : list A) a b : slice l a b = Some w -> exists pre post, l = pre ++ w ++ post /\ zlen pre = a.
Proof.
  intros H. apply slice_inv in H as (Ha & Hab & Hb & _ & ->). exists (take (Z.to_nat a) l), (drop (Z.to_nat b) l).
  split; [|len]. replace (Z.to_nat b) with (Z.to_nat a + Z.to_nat (b - a))%nat by lia.
  by rewrite <- drop_drop, !take_drop.
Qed.

(** ** Lemmas: fragments *)

Ltac read_done := repeat first [by eexists | read_step].

Lemma upperLayer_total protocol payload :
  bytes_ok payload -> exists r, ipv6FirstFragmentUpperLayerLength protocol payload = Some r /\ True.
Proof.
  intros Hb. unfold ipv6FirstFragmentUpperLayerLength, tcpHeaderSize.
  repeat match goal with
  | |- exists r, Some _ = Some r /\ _ => by eexists
  | |- exists r, (if ?b then _ else _) = Some r /\ _ => destruct b eqn:?
  | _ => read_step
  end.
Qed.

Lemma headerComplete_total next payload :
  bytes_ok payload -> exists b, ipv6FirstFragmentHeaderComplete next payload = Some b /\ True.
Proof.
  intros Hb. unfold ipv6FirstFragmentHeaderComplete.
  apply (loop_total (fun s => 0 <= snd s <= zlen payload) (fun s => Z.to_nat (zlen payload - snd s)) (fun _ => True)).
  - intros [kind offset] Ho. cbn [snd] in Ho. unfold headerCompleteBody. read_step.
    pose proof (slice_bytes_ok _ _ _ _ Hb Es) as Hs'. destruct (_ =? _); [by eexists|].
    destruct (isTraversableIPv6ExtensionHeader kind).
    + pose proof (extensionLength_range kind s Hs') as Hn. destruct (ipv6ExtensionHeaderLength kind s) as [n valid].
      destruct valid; cbn [negb]; [|by eexists]. specialize (Hn eq_refl). read_step.
      eexists. split; [done|]. cbn. lia.
    + destruct (upperLayer_total kind s Hs') as ([size full] & -> & _). by eexists.
  - cbn. unfold zlen. lia.
  - cbn. unfold zlen. lia.
Qed.

(** What the parser of fragments promises. *)
Definition parsedOk (packet : list Z) (p : parsedFragment) : Prop :=
  (exists rest, packet = fg_original (pf_fragment p) ++ rest) /\
  (pf_parameter p = true -> 0 <= pf_parameterAt p < zlen (fg_original (pf_fragment p))) /\
  (pf_parameter p = false ->
     fragmentOk (pf_fragment p) /\ (fg_more (pf_fragment p) = true \/ fg_offset (pf_fragment p) <> 0) /\
     (fg_v6 (pf_fragment p) = true -> fg_more (pf_fragment p) = true ->
        Z.rem (zlen (fg_payload (pf_fragment p))) 8 = 0)).

Lemma land3_range x : 0 <= Z.land x 3 <= 3.
Proof. mask_low x 2. zlia. Qed.

Lemma field13_range x : 0 <= Z.land x 8191 * 8 <= 65528.
Proof. mask_low x 13. zlia. Qed.

(** The More bit and the offset field are what is left of the masked field. *)
Lemma field14_zero x : Z.land x 8192 = 0 -> Z.land x 8191 = 0 -> Z.land x 16383 = 0.
Proof. intros H1 H2. change 16383 with (Z.lor 8192 8191). by rewrite Z.land_lor_distr_r, H1, H2. Qed.

Lemma field16_zero x : Z.land x 1 = 0 -> Z.land x 65528 = 0 -> Z.land x 65529 = 0.
Proof. intros H1 H2. change 65529 with (Z.lor 1 65528). by rewrite Z.land_lor_distr_r, H1, H2. Qed.

Lemma field16_range x : is_u16 x -> 0 <= Z.land x 65528.
Proof. intros H. apply Z.land_nonneg. lia. Qed.

Lemma parseFragment4_ok be packet skip :
  bytes_ok packet ->
  exists r, parseFragment4 be packet skip = Some r /\ forall p, r = Some p -> parsedOk packet p.
Proof.
  intros Hb. unfold parseFragment4. destruct (_ <? 20) eqn:E20; [by eexists|]. read_step.
  pose proof (header4_range x) as [Hh _]. set (headerSize := Z.land x 15 * 4) in *. clearbody headerSize.
  read_step. read_step. pose proof (be16_range _ _ _ Hb Ev) as Hv. unfold is_u16 in Hv.
  destruct (_ || _) eqn:Ec; [by eexists|]. read_step.
  head_if Ef; [by eexists|]. apply orb_false_iff in Ef as [Ef _]. apply orb_false_iff in Ef as [_ Ef].
  do 6 read_step. pose proof (slice_bytes_ok _ _ _ _ Hb Es3) as Hbo.
  destruct (malformed_ok s3 Hbo ltac:(lia)) as (m & -> & Hm). cbn [mbind option_bind]. destruct m as [at_|].
  { eexists. split; [done|]. intros p [= <-]. specialize (Hm at_ eq_refl).
    split; [by eapply slice_prefix|]. split; [|done]. intros _. cbn. rewrite u32_id by (unfold is_u32; lia). lia. }
  destruct (validate_total s3 Hbo) as [b ->]. cbn [mbind option_bind]. destruct b; cbn [negb]; [|by eexists].
  read_step. read_step. eexists. split; [done|]. intros p [= <-].
  split; [by eapply slice_prefix|]. split; [done|]. intros _. split; [|split; [|done]].
  - pose proof (field13_range v0). split; cbn; [lia|apply land3_range|unfold fragmentMaximumDatagram; lia| | | |].
    + split_and!; [exact (slice_bytes_ok _ _ _ _ Hb Es4)|exact (slice_bytes_ok _ _ _ _ Hb Es)|exact (idx_u8 _ _ _ Hb Ex0)].
    + intros _. exists []. split; [|done]. by eapply slice_split; try done; lia.
    + intros _. unfold fragmentMaximumDatagram. lia.
    + intros _. unfold fragmentMaximumDatagram. lia.
  - cbn. destruct (Z.eqb_spec (Z.land v0 8192) 0) as [E1|E1]; [right|by left].
    intros E2. rewrite field14_zero in Ef by lia. done.
Qed.

Lemma fragment6At_ok b packet original payload6 s :
  bytes_ok original -> bytes_ok payload6 -> payloadOf original payload6 -> chainOk original payload6 s ->
  gb_original b = original -> 0 <= gb_ecn b <= 3 -> (exists rest, packet = original ++ rest) -> zlen original <= 65575 ->
  exists r, fragment6At b packet payload6 s = Some r /\ forall p, r = Some p -> parsedOk packet p.
Proof.
  intros Hbo Hb Hpay Hc Hbase Hecn [tail Hpk] Hlen. unfold fragment6At. pose proof (co_offset _ _ _ Hc) as Ho.
  pose proof (field_range _ _ _ Hpay Hc) as Hf. destruct Hpay as (base & Horig & Hbl).
  assert (zlen packet = zlen original + zlen tail /\ zlen original = 40 + zlen payload6) as [Hlp Hlo] by (subst; len).
  pose proof (zlen_nonneg tail) as Ht. head_if E8; [by eexists|]. do 3 read_step.
  pose proof (slice_bytes_ok _ _ _ _ Hb Es) as Hh. pose proof (be16_range _ _ _ Hh Ev) as Hv.
  head_if Ez; [by eexists|]. do 2 read_step. pose proof (slice_bytes_ok _ _ _ _ Hb Es0) as Hbp.
  assert (exists full, (if (Z.land v 65528 =? 0) && negb (Z.land v 1 =? 0)
            then ipv6FirstFragmentHeaderComplete x s1 else Some true) = Some full) as [full ->].
  { destruct (_ && _); [|by eexists]. destruct (headerComplete_total x s1 Hbp) as (full & -> & _). by eexists. }
  cbn [mbind option_bind]. read_step. eexists. split; [done|]. intros p [= <-].
  unfold parsedOk. cbn [pf_fragment pf_parameter pf_parameterAt fg_original fg_more fg_offset fg_v6 fg_payload].
  rewrite Hbase. split; [by exists tail|]. pose proof (field16_range _ Hv) as Hoff.
  assert (original = s2 ++ s0 ++ s1 /\ zlen s0 = 8) as [Himage Hgap].
  { split; [|lia]. destruct (slice_inv_app _ _ _ _ Es) as (pre & post & Hpre & Hpl).
    assert (s1 = post) as ->.
    { rewrite Hpre, app_assoc in Es0. replace (ch_offset s + 8) with (zlen (pre ++ s0)) in Es0 by (len; lia).
      rewrite slice_tail in Es0. by injection Es0. }
    subst packet original. rewrite Hpre, <- !app_assoc, (app_assoc base) in Es1.
    replace (40 + ch_offset s) with (zlen (base ++ pre)) in Es1 by (len; lia).
    rewrite slice_app_l in Es1. injection Es1 as <-. by rewrite Hpre, <- app_assoc. }
  set (maximum := if Z.land v 65528 =? 0 then _ else _).
  assert (maximum <= fragmentMaximumDatagram /\ (Z.land v 65528 = 0 -> maximum = fragmentMaximumDatagram - ch_offset s))
    as [Hm1 Hm2] by (subst maximum; split; [|intros ->; done]; unfold fragmentMaximumDatagram; destruct (Z.land v 65528 =? 0); lia).
  clearbody maximum. split; [|intros Hp; apply orb_false_iff in Hp as [Hrem Hover]; split; [|split]].
  - intros _. destruct (_ <? Z.land v 65528); [rewrite u32_id by (unfold is_u32; lia)|]; lia.
  - split; cbn; [lia|lia|lia| | | |].
    + split_and!; [exact Hbp| |exact (idx_u8 _ _ _ Hh Ex)].
      rewrite Himage in Hbo. by apply Forall_app in Hbo as [Hbo _].
    + intros _. exists s0. by rewrite Hgap.
    + lia.
    + intros H0. unfold fragmentMaximumDatagram in Hm2. lia.
  - destruct (Z.eqb_spec (Z.land v 1) 0) as [E1|E1]; [right|by left]. intros E2. rewrite field16_zero in Ez by lia. done.
  - intros _ Hmore. rewrite Hmore in Hrem. cbn in Hrem. lia.
Qed.

Lemma fragment6Body_ok b packet original payload6 s :
  bytes_ok original -> bytes_ok payload6 -> payloadOf original payload6 -> chainOk original payload6 s ->
  gb_original b = original -> 0 <= gb_ecn b <= 3 -> (exists rest, packet = original ++ rest) -> zlen original <= 65575 ->
  exists r, fragment6Body b packet payload6 s = Some r /\
    match r with
    | inl s' => chainOk original payload6 s' /\ ch_offset s < ch_offset s'
    | inr r => forall p, r = Some p -> parsedOk packet p
    end.
Proof.
  intros Hbo Hb Hpay Hc Hbase Hecn Htail Hlen. unfold fragment6Body. destruct (isUnit8Header (ch_next s)) eqn:Eu.
  { destruct (ingressHeader_ok (gb_target b) original payload6 s Hb Hpay Hc Eu) as (v & -> & Hv).
    cbn [mbind option_bind]. eexists. split; [done|]. destruct v as [|code pointer|s']; [done| |exact Hv].
    intros p [= <-]. unfold parsedOk. cbn [pf_fragment pf_parameter pf_parameterAt fg_original reportedFragment].
    rewrite Hbase. split; [done|]. split; [|done]. intros _. rewrite u32_id by (unfold is_u32; lia). lia. }
  destruct (_ =? _); [|by eexists].
  destruct (fragment6At_ok b packet original payload6 s Hbo Hb Hpay Hc Hbase Hecn Htail Hlen) as (r & -> & Hr).
  cbn [mbind option_bind]. by eexists.
Qed.

Lemma parseFragment6_ok packet :
  bytes_ok packet ->
  exists r, parseFragment6 packet = Some r /\ forall p, r = Some p -> parsedOk packet p.
Proof.
  intros Hb. unfold parseFragment6. head_if E48; [by eexists|]. read_step.
  pose proof (be16_range _ _ _ Hb Ev) as Hv. unfold is_u16 in Hv. head_if Ec; [by eexists|].
  do 6 read_step. destruct (slice_some packet 0 40) as (base & Eb & Hbase); [lia..|].
  assert (payloadOf s2 s1) as Hpay by (exists base; split; [by eapply slice_split; try done; lia|lia]).
  assert (idx s2 6 = Some x) as H6 by (by rewrite (slice_idx packet s2 (40 + v)) by (done || lia)).
  apply (loop_total (chainOk s2 s1) (fun s => Z.to_nat (zlen s1 - ch_offset s))
    (fun r => forall p, r = Some p -> parsedOk packet p)).
  - intros st Hst.
    destruct (fragment6Body_ok (mkFragment6Base (Addr6 s noZone) (Addr6 s0 noZone) (Z.land (Z.shiftr x0 4) 3) s2)
      packet s2 s1 st) as (r & -> & Hr); try done.
    + exact (slice_bytes_ok _ _ _ _ Hb Es2).
    + exact (slice_bytes_ok _ _ _ _ Hb Es1).
    + cbn. apply land3_range.
    + by eapply slice_prefix.
    + lia.
    + eexists. split; [done|]. destruct r as [s'|r]; [|done]. destruct Hr as [Hc' Ho]. split; [done|].
      pose proof (co_offset _ _ _ Hc'). pose proof (co_offset _ _ _ Hst). lia.
  - split; cbn; [unfold zlen; lia|lia|done].
  - cbn. unfold zlen. lia.
Qed.

(** C29. On every sequence of bytes the fragment parser returns without an index
    panic, and a fragment it accepts has the type the reassembly code assumes:
    its original image, header, offsets and limits are consistent, it is more or
    at a nonzero offset, and a reported pointer is inside the packet. *)
Theorem fragment_parse_typed bigEndian packet skipChecksum :
  bytes_ok packet ->
  exists r, parseFragment bigEndian packet skipChecksum = Some r /\ forall p, r = Some p -> parsedOk packet p.
Proof.
  intros Hb. unfold parseFragment. destruct packet as [|b0 packet]; [by exists None|].
  destruct (_ =? 4); [by apply parseFragment4_ok|]. destruct (_ =? 6); [by apply parseFragment6_ok|by exists None].
Qed.

(** ** Lemmas: the two parsers *)

(** Inverting a run of reads and guards. *)
Ltac unread H :=
  repeat lazymatch type of H with
  | mbind _ ?e = Some _ => let E := fresh "E" in destruct e eqn:E; [|done]; cbn [mbind option_bind] in H
  | (if ?b then _ else _) = Some (Some _) => let E := fresh "E" in destruct b eqn:E; [done|]
  end.

Lemma ingress4_field be packet skip p :
  parseIngress4 be packet skip = Some (Some p) -> exists field, be16 packet 6 = Some field /\ Z.land field 49151 = 0.
Proof. unfold parseIngress4. intros H. unread H. eexists. split; [done|]. lia. Qed.

Lemma fragment4_field be packet skip p :
  parseFragment4 be packet skip = Some (Some p) -> exists field, be16 packet 6 = Some field /\ Z.land field 16383 <> 0.
Proof. unfold parseFragment4. intros H. unread H. eexists. split; [done|]. lia. Qed.

(** One header: both parsers go on, or one of them has rejected or reported. *)
Lemma chain_step_exclusive vb gb packet payload s r r' :
  vb_target vb = gb_target gb ->
  ingress6Body vb payload s = Some r -> fragment6Body gb packet payload s = Some r' ->
  (exists s', r = inl s' /\ r' = inl s') \/
  (forall p, r = inr (Some p) -> pk_parameterError p = true) /\ (exists v, r = inr v) \/ r' = inr None.
Proof.
  intros Ht. unfold ingress6Body, fragment6Body. rewrite Ht. destruct (isUnit8Header (ch_next s)).
  - destruct (ingressHeader (gb_target gb) payload s) as [[|code pointer|s']|]; cbn; intros; simplify_eq.
    + by do 2 right.
    + right; left. split; [|by eexists]. by intros p [= <-].
    + left. by eexists.
  - destruct (_ =? IPv6ExtensionHeaderFragment); [|by intros _ [= <-]; do 2 right]. unfold fragment6At.
    destruct (_ <? 8); [by intros _ [= <-]; do 2 right|]. destruct (slice payload _ (_ + 8)) as [h|]; [|done].
    cbn [mbind option_bind]. destruct (idx h 0); [|done]. cbn [mbind option_bind]. destruct (be16 h 2); [|done].
    cbn [mbind option_bind]. destruct (Z.land _ 65529 =? 0); cbn [negb]; [by intros _ [= <-]; do 2 right|].
    intros [= <-] _. right; left. split; [|by eexists]. by intros p [=].
Qed.

(** Along a chain that both parsers walk, at most one of them accepts without
    a Parameter Problem. *)
Lemma chain_exclusive vb gb packet payload s n p q :
  vb_target vb = gb_target gb ->
  loop n (ingress6Body vb payload) s = Some (Some p) -> pk_parameterError p = false ->
  loop n (fragment6Body gb packet payload) s = Some (Some q) -> False.
Proof.
  intros Ht. revert s. induction n as [|n IH]; [done|]. intros s Hp Hn Hq. cbn [loop] in Hp, Hq.
  destruct (ingress6Body vb payload s) as [r|] eqn:Er; [|done].
  destruct (fragment6Body gb packet payload s) as [r'|] eqn:Er'; [|done]. cbn [mbind option_bind] in Hp, Hq.
  destruct (chain_step_exclusive vb gb packet payload s r r' Ht Er Er') as [(s' & -> & ->)|[[H [v ->]]| ->]]; [by eapply IH| |done].
  injection Hp as ->. by rewrite (H p eq_refl) in Hn.
Qed.

Lemma v6_exclusive packet p q :
  parseIngress6 packet = Some (Some p) -> pk_parameterError p = false -> parseFragment6 packet = Some (Some q) -> False.
Proof.
  unfold parseIngress6, parseFragment6. intros Hp Hn Hq. destruct (_ <? 40); [done|]. destruct (_ <? 48); [done|].
  destruct (be16 packet 4); [|done]. cbn [mbind option_bind] in Hp, Hq. destruct (_ <? _ + _); [done|].
  destruct (slice packet 8 24); [|done]. destruct (slice packet 24 40); [|done]. cbn [mbind option_bind] in Hp, Hq.
  destruct (_ || _); [done|]. unread Hp. unread Hq. simplify_eq.
  destruct (negb _) eqn:Eu.
  - injection Hp as <-. apply negb_true_iff, orb_false_iff in Eu as [Eu Ef].
    cbn [loop] in Hq. destruct (fragment6Body _ _ _ _) as [r|] eqn:Er; [|done]. unfold fragment6Body in Er.
    cbn [ch_next] in Er. rewrite Eu, Ef in Er. by injection Er as <-.
  - by eapply chain_exclusive; [|exact Hp|exact Hn|exact Hq].
Qed.

(** C31. The two ingress parsers never both accept a packet: the bytes the
    ordinary parser accepts without a Parameter Problem are not a fragment. *)
Theorem ingress_parsers_exclusive bigEndian packet skipChecksum p :
  bytes_ok packet ->
  parseIPPacket bigEndian packet skipChecksum = Some (Some p) -> pk_parameterError p = false ->
  parseFragment bigEndian packet skipChecksum = Some None.
Proof.
  intros Hb Hp Hn. destruct packet as [|b0 rest]; [done|]. unfold parseIPPacket in Hp. unfold parseFragment.
  destruct (_ =? 4).
  - destruct (parseFragment4_ok bigEndian (b0 :: rest) skipChecksum Hb) as ([q|] & Hq & _); [|done].
    apply ingress4_field in Hp as (f & Ef & Hf). apply fragment4_field in Hq as (g & Eg & Hg). simplify_eq.
    destruct Hg. change 16383 with (Z.land 49151 16383). by rewrite Z.land_assoc, Hf.
  - destruct (_ =? 6); [|done].
    destruct (parseFragment6_ok (b0 :: rest) Hb) as ([q|] & Hq & _); [|done]. by destruct (v6_exclusive _ p q Hp Hn).
Qed.

(** ** Witnesses *)

Definition samplePacket : list Z :=
  [69; 0; 0; 24; 0; 1; 0; 0; 64; 6; 0; 0; 10; 0; 0; 1; 10; 0; 0; 2; 1; 2; 3; 4].

Definition samplePiece : list Z :=
  [69; 0; 0; 28; 0; 1; 32; 0; 64; 6; 0; 0; 10; 0; 0; 1; 10; 0; 0; 2; 1; 2; 3; 4; 5; 6; 7; 8].

Definition sampleParsed : ipPacket :=
  mkIpPacket (Addr4 [10; 0; 0; 1]) (Addr4 [10; 0; 0; 2]) 6 9 false 0 0 0 64 0 0 [1; 2; 3; 4] samplePacket.

Lemma samplePacket_ok : bytes_ok samplePacket.
Proof. by apply bytes_check. Qed.

Lemma samplePiece_ok : bytes_ok samplePiece.
Proof. by apply bytes_check. Qed.

Lemma ingress_parse_safe_witness :
  bytes_ok samplePacket /\
  exists r, parseIPPacket false samplePacket true = Some r /\ forall p, r = Some p -> ingressOk samplePacket p.
Proof. split; [exact samplePacket_ok|]. apply (ingress_parse_safe false samplePacket true), samplePacket_ok. Defined.

Lemma fragment_parse_typed_witness :
  bytes_ok samplePiece /\ (exists q, parseFragment false samplePiece true = Some (Some q)) /\
  exists r, parseFragment false samplePiece true = Some r /\ forall p, r = Some p -> parsedOk samplePiece p.
Proof.
  split; [exact samplePiece_ok|]. split; [by eexists|].
  apply (fragment_parse_typed false samplePiece true), samplePiece_ok.
Defined.

Lemma ingress_parsers_exclusive_witness :
  parseIPPacket false samplePacket true = Some (Some sampleParsed) /\ pk_parameterError sampleParsed = false /\
  parseFragment false samplePacket true = Some None.
Proof.
  assert (parseIPPacket false samplePacket true = Some (Some sampleParsed)) as H by reflexivity.
  split; [exact H|]. split; [reflexivity|].
  exact (ingress_parsers_exclusive false samplePacket true sampleParsed samplePacket_ok H eq_refl).
Defined.
