(* ===== verification/SipHash.v ===== *)
(** * SipHash-2-4

    [siphash.go], the keyed hash behind initial sequence numbers, SYN cookies,
    port selection and flow labels, and its equivalence with the algorithm as
    its authors define it: padding to a length block, little-endian words, two
    parallel half rounds per round. *)

From S2P Require Import Prelude.

(** ** The code *)

(** [bits.RotateLeft64]. *)
Definition rotateLeft64 (x k : Z) : Z := u64 (Z.shiftl x k) .| Z.shiftr x (64 - k).

Record sipState := mkSip { sip_v0 : Z; sip_v1 : Z; sip_v2 : Z; sip_v3 : Z }.

Definition sipHashRound (s : sipState) : sipState :=
  let '(mkSip v0 v1 v2 v3) := s in
  let v0 := u64 (v0 + v1) in
  let v1 := rotateLeft64 v1 13 in
  let v1 := Z.lxor v1 v0 in
  let v0 := rotateLeft64 v0 32 in
  let v2 := u64 (v2 + v3) in
  let v3 := rotateLeft64 v3 16 in
  let v3 := Z.lxor v3 v2 in
  let v0 := u64 (v0 + v3) in
  let v3 := rotateLeft64 v3 21 in
  let v3 := Z.lxor v3 v0 in
  let v2 := u64 (v2 + v1) in
  let v1 := rotateLeft64 v1 17 in
  let v1 := Z.lxor v1 v2 in
  let v2 := rotateLeft64 v2 32 in
  mkSip v0 v1 v2 v3.

(** [binary.LittleEndian.Uint64] of a subslice. *)
Definition le64 (l : list Z) (o : Z) : option Z := le_val <$> slice l o (o + 8).

Definition sipAbsorb (word : Z) (s : sipState) : sipState :=
  let s := mkSip (sip_v0 s) (sip_v1 s) (sip_v2 s) (Z.lxor (sip_v3 s) word) in
  let s := sipHashRound (sipHashRound s) in
  mkSip (Z.lxor (sip_v0 s) word) (sip_v1 s) (sip_v2 s) (sip_v3 s).

Definition sipInit (key : list Z) : option sipState :=
  k0 ← le64 key 0;
  k1 ← le64 key 8;
  Some (mkSip (Z.lxor 0x736f6d6570736575 k0) (Z.lxor 0x646f72616e646f6d k1)
          (Z.lxor 0x6c7967656e657261 k0) (Z.lxor 0x7465646279746573 k1)).

(** The loop over whole words; it leaves the remaining bytes. *)
Definition sipBody (s : list Z * sipState) : option (list Z * sipState + list Z * sipState) :=
  let '(message, st) := s in
  if 8 <=? zlen message then
    word ← le64 message 0;
    rest ← slice message 8 (zlen message);
    Some (inl (rest, sipAbsorb word st))
  else Some (inr (message, st)).

(** [last |= value << (8 * index)] over the remaining bytes. *)
Fixpoint sipTail (message : list Z) (index last : Z) : Z :=
  match message with
  | [] => last
  | value :: message => sipTail message (index + 1) (last .| u64 (Z.shiftl value (8 * index)))
  end.

Definition sipHash24 (key message : list Z) : option Z :=
  st ← sipInit key;
  '(rest, st) ← loop (S (length message)) sipBody (message, st);
  let last := sipTail rest 0 (u64 (Z.shiftl (zlen message) 56)) in
  let st := sipAbsorb last st in
  let st := mkSip (sip_v0 st) (sip_v1 st) (Z.lxor (sip_v2 st) 255) (sip_v3 st) in
  let st := Nat.iter 4 sipHashRound st in
  Some (Z.lxor (Z.lxor (Z.lxor (sip_v0 st) (sip_v1 st)) (sip_v2 st)) (sip_v3 st)).

(** ** The reference *)

(** A half round with rotations [a] and [b]: two additions side by side, two
    rotations, two exclusive ors, and one rotation by half a word. *)
Definition halfRound (a b : Z) (s : sipState) : sipState :=
  let '(mkSip v0 v1 v2 v3) := s in
  let w0 := u64 (v0 + v1) in
  let w2 := u64 (v2 + v3) in
  let w1 := Z.lxor (rotateLeft64 v1 a) w0 in
  let w3 := Z.lxor (rotateLeft64 v3 b) w2 in
  mkSip (rotateLeft64 w0 32) w1 w2 w3.

Definition swapHalves (s : sipState) : sipState :=
  mkSip (sip_v2 s) (sip_v1 s) (sip_v0 s) (sip_v3 s).

Definition referenceRound (s : sipState) : sipState :=
  swapHalves (halfRound 17 21 (swapHalves (halfRound 13 16 s))).

(** Zeros and the length byte fill the message up to whole words. *)
Definition sipPadded (message : list Z) : list Z :=
  message ++ replicate (Z.to_nat (7 - zlen message mod 8)) 0 ++ [zlen message mod 256].

Fixpoint sipWords (n : nat) (l : list Z) : list Z :=
  match n with
  | O => []
  | S n => le_val (take 8 l) :: sipWords n (drop 8 l)
  end.

Definition compress (c : nat) (s : sipState) (word : Z) : sipState :=
  let s := Nat.iter c referenceRound
             (mkSip (sip_v0 s) (sip_v1 s) (sip_v2 s) (Z.lxor (sip_v3 s) word)) in
  mkSip (Z.lxor (sip_v0 s) word) (sip_v1 s) (sip_v2 s) (sip_v3 s).

Definition siphash (c d : nat) (key message : list Z) : Z :=
  let k0 := le_val (take 8 key) in
  let k1 := le_val (drop 8 key) in
  let s := mkSip (Z.lxor 0x736f6d6570736575 k0) (Z.lxor 0x646f72616e646f6d k1)
             (Z.lxor 0x6c7967656e657261 k0) (Z.lxor 0x7465646279746573 k1) in
  let blocks := sipWords (Z.to_nat (zlen message / 8 + 1)) (sipPadded message) in
  let s := fold_left (compress c) blocks s in
  let s := Nat.iter d referenceRound
             (mkSip (sip_v0 s) (sip_v1 s) (Z.lxor (sip_v2 s) 255) (sip_v3 s)) in
  Z.lxor (Z.lxor (sip_v0 s) (sip_v1 s)) (Z.lxor (sip_v2 s) (sip_v3 s)).

(** ** Lemmas *)

Lemma round_reference s : sipHashRound s = referenceRound s.
Proof. by destruct s. Qed.

Lemma iter_reference n s : Nat.iter n sipHashRound s = Nat.iter n referenceRound s.
Proof. induction n as [|n IH]; [done|]. by rewrite !Nat.iter_succ, IH, round_reference. Qed.

Lemma absorb_compress word s : sipAbsorb word s = compress 2 s word.
Proof. unfold sipAbsorb, compress. cbn [Nat.iter nat_rect]. by rewrite !round_reference. Qed.

Lemma le_val_app l k : le_val (l ++ k) = le_val l + 256 ^ zlen l * le_val k.
Proof.
  induction l as [|x l IH]; [cbn [app le_val]; change (zlen (@nil Z)) with 0; lia|].
  cbn [app le_val]. rewrite IH, zlen_cons, Z.pow_add_r by len. lia.
Qed.

Lemma le_val_zeros n : le_val (replicate n 0) = 0.
Proof. induction n as [|n IH]; [done|]. cbn [replicate le_val]. lia. Qed.

Lemma le_val_bound l : bytes_ok l -> 0 <= le_val l < 256 ^ zlen l.
Proof.
  induction 1 as [|x l Hx _ IH]; [done|]. cbn [le_val]. rewrite zlen_cons, Z.pow_add_r by len.
  unfold is_u8 in Hx. lia.
Qed.

(** Adding bits above a field of width [k] leaves the field alone. *)
Lemma lor_above a v low k : 0 <= k -> 0 <= low < 2 ^ k ->
  Z.lor (a * 2 ^ k + low) (Z.shiftl v k) = Z.lor a v * 2 ^ k + low.
Proof.
  intros Hk Hl. rewrite <- (lor_shiftl_add a low k), <- (lor_shiftl_add (Z.lor a v) low k) by done.
  rewrite Z.shiftl_lor. by rewrite <- !Z.lor_assoc, (Z.lor_comm low).
Qed.

(** The trailing bytes fill the word from below; the length stays on top. *)
Lemma sipTail_ok l i h low :
  bytes_ok l -> 0 <= i -> i + zlen l <= 7 -> 0 <= low < 2 ^ (8 * i) ->
  sipTail l i (h * 2 ^ 56 + low) = h * 2 ^ 56 + (low + 2 ^ (8 * i) * le_val l).
Proof.
  intros Hl. revert i low. induction Hl as [|x l Hx Hl IH]; intros i low Hi Hlen Hlow.
  { cbn [sipTail le_val]. lia. }
  rewrite zlen_cons in Hlen. cbn [sipTail le_val]. len_facts.
  assert (2 ^ (8 * (i + 1)) = 256 * 2 ^ (8 * i)) as Ep.
  { replace (8 * (i + 1)) with (8 + 8 * i) by lia. by rewrite Z.pow_add_r by lia. }
  assert (2 ^ 56 = 2 ^ (56 - 8 * i) * 2 ^ (8 * i)) as E56 by (rewrite <- Z.pow_add_r by lia; f_equal; lia).
  assert (256 * 1 <= 2 ^ (56 - 8 * i)) as Hpow.
  { replace (56 - 8 * i) with (8 + (48 - 8 * i)) by lia. rewrite Z.pow_add_r by lia.
    apply Z.mul_le_mono_nonneg_l; [lia|]. pose proof (Z.pow_pos_nonneg 2 (48 - 8 * i)). lia. }
  unfold is_u8 in Hx.
  assert (u64 (Z.shiftl x (8 * i)) = Z.shiftl x (8 * i)) as ->.
  { apply u64_small. rewrite Z.shiftl_mul_pow2 by lia. change 18446744073709551616 with (256 * 2 ^ 56).
    rewrite E56. pose proof (Z.pow_pos_nonneg 2 (8 * i)). nia. }
  rewrite E56 at 1. rewrite Z.mul_assoc, lor_above by lia.
  rewrite <- (Z.shiftl_mul_pow2 h) by lia.
  rewrite lor_shiftl_add by lia.
  replace ((h * 2 ^ (56 - 8 * i) + x) * 2 ^ (8 * i) + low) with (h * 2 ^ 56 + (low + x * 2 ^ (8 * i)))
    by (rewrite E56; lia).
  rewrite IH; [rewrite Ep; lia|lia|lia|rewrite Ep; nia].
Qed.

Lemma sipWords_app k l r : 8 * Z.of_nat k <= zlen l -> sipWords k (l ++ r) = sipWords k l.
Proof.
  revert l. induction k as [|k IH]; intros l H; [done|]. cbn [sipWords].
  rewrite take_app_le, drop_app_le by (unfold zlen in H; lia). rewrite IH; [done|]. len.
Qed.

Lemma sipWords_snoc k l : sipWords (S k) l = sipWords k l ++ [le_val (take 8 (drop (8 * k) l))].
Proof.
  revert l. induction k as [|k IH]; intros l; [done|].
  cbn [sipWords] in *. rewrite IH, drop_drop. by replace (8 * S k)%nat with (8 + 8 * k)%nat by lia.
Qed.

Lemma le64_head (l : list Z) : 8 <= zlen l -> le64 l 0 = Some (le_val (take 8 l)).
Proof. intros H. unfold le64. by rewrite slice_eq by lia. Qed.

(** The loop absorbs the whole words and leaves fewer than eight bytes. *)
Lemma sipLoop_ok n k l st :
  zlen l / 8 = Z.of_nat k -> (k < n)%nat ->
  loop n sipBody (l, st) = Some (drop (8 * k) l, fold_left (compress 2) (sipWords k l) st).
Proof.
  revert n l st. induction k as [|k IH]; intros [|n] l st Hk Hn; try lia; cbn [loop sipBody].
  - destruct (Z.leb_spec 8 (zlen l)); [zlia|]. done.
  - destruct (Z.leb_spec 8 (zlen l)) as [H|]; [|zlia].
    rewrite le64_head by done. rewrite slice_eq by lia. cbn [mbind option_bind].
    change (Z.to_nat 8) with 8%nat. rewrite (take_ge (drop 8 l)) by (rewrite length_drop; unfold zlen in *; lia).
    rewrite IH; [|len; zlia|lia]. rewrite drop_drop. cbn [sipWords fold_left].
    rewrite absorb_compress. by replace (8 * S k)%nat with (8 + 8 * k)%nat by lia.
Qed.

Lemma sipHash24_total key l : length key = 16%nat -> exists h, sipHash24 key l = Some h.
Proof.
  intros Hk. unfold sipHash24, sipInit. assert (zlen key = 16) as Hz by (unfold zlen; lia).
  rewrite le64_head by lia. unfold le64. rewrite slice_eq by lia. cbn [fmap option_fmap option_map mbind option_bind].
  pose proof (zlen_nonneg l).
  rewrite (sipLoop_ok _ (Z.to_nat (zlen l / 8))) by (unfold zlen in *; zlia). by eexists.
Qed.

(** The last word of the padded message. *)
Lemma sipPadded_last l : bytes_ok l ->
  let k := Z.to_nat (zlen l / 8) in
  le_val (take 8 (drop (8 * k) (sipPadded l))) =
  sipTail (drop (8 * k) l) 0 (u64 (Z.shiftl (zlen l) 56)).
Proof.
  intros Hl k. pose proof (zlen_nonneg l) as H0.
  assert (Z.of_nat k = zlen l / 8) as Ek by (unfold k; zlia).
  assert (zlen (drop (8 * k) l) = zlen l mod 8) as Er by (rewrite zlen_drop; zlia).
  unfold sipPadded. rewrite drop_app_le by (unfold zlen in *; zlia).
  rewrite take_ge by (rewrite !length_app, length_replicate; unfold zlen in *; cbn [length]; zlia).
  rewrite !le_val_app, le_val_zeros. cbn [le_val].
  assert (zlen (replicate (Z.to_nat (7 - zlen l mod 8)) 0) = 7 - zlen l mod 8) as ->
    by (unfold zlen; rewrite length_replicate; zlia).
  rewrite Er. rewrite Z.shiftl_mul_pow2 by lia. unfold u64.
  change 18446744073709551616 with (256 * 2 ^ 56).
  rewrite Z.mul_mod_distr_r by done.
  replace (zlen l mod 256 * 2 ^ 56) with (zlen l mod 256 * 2 ^ 56 + 0) by lia.
  rewrite sipTail_ok; [|by apply bytes_ok_drop|lia|rewrite Er; zlia|simpl; lia].
  assert (256 ^ (zlen l mod 8) * 256 ^ (7 - zlen l mod 8) = 2 ^ 56) as Ep.
  { rewrite <- Z.pow_add_r by zlia. by replace (zlen l mod 8 + (7 - zlen l mod 8)) with 7 by lia. }
  change (2 ^ (8 * 0)) with 1. rewrite Z.mul_0_r, Z.add_0_r, !Z.add_0_l, Z.mul_assoc, Ep. lia.
Qed.

(** ** Properties *)

(** SipHash-2-4 is computed: on every 16-byte key and every message the
    code returns, and the result is that of the reference algorithm with two
    compression and four finalisation rounds; the loop over a shrinking slice,
    the byte-wise tail and the interleaved round agree with blocks, padding and
    half rounds. *)
Theorem sipHash_reference (key message : list Z) :
  length key = 16%nat -> bytes_ok message ->
  sipHash24 key message = Some (siphash 2 4 key message).
Proof.
  intros Hk Hm. unfold sipHash24, sipInit.
  assert (zlen key = 16) as Hz by (unfold zlen; lia).
  rewrite le64_head by lia. unfold le64. rewrite slice_eq by lia. cbn [fmap option_fmap option_map mbind option_bind].
  change (Z.to_nat 8) with 8%nat. rewrite (take_ge (drop 8 key)) by (rewrite length_drop; simpl; lia).
  set (k := Z.to_nat (zlen message / 8)). pose proof (zlen_nonneg message) as H0.
  rewrite (sipLoop_ok _ k) by (unfold k, zlen in *; zlia). cbn [mbind option_bind].
  unfold siphash. replace (Z.to_nat (zlen message / 8 + 1)) with (S k) by (unfold k; zlia).
  rewrite sipWords_snoc, fold_left_app. pose proof (sipPadded_last message Hm) as Hlast. cbv zeta in Hlast. fold k in Hlast.
  rewrite Hlast. unfold sipPadded. rewrite (sipWords_app k message) by (unfold k; zlia).
  cbn [fold_left]. rewrite absorb_compress, iter_reference. by rewrite <- !Z.lxor_assoc.
Qed.

(** The published test vector. *)
Lemma sipHash_reference_witness :
  let key := [0;1;2;3;4;5;6;7;8;9;10;11;12;13;14;15] in
  let message := [0;1;2;3;4;5;6;7;8;9;10;11;12;13;14] in
  sipHash24 key message = Some (siphash 2 4 key message) /\
  siphash 2 4 key message = 0xa129ca6149be45e5.
Proof.
  cbv zeta. split; [|vm_compute; reflexivity].
  apply sipHash_reference; [reflexivity|]. repeat (apply List.Forall_cons; [unfold is_u8; lia|]).
  apply List.Forall_nil.
Defined.
