(* ===== verification/SynCookie.v ===== *)
(** * SYN cookies

    [syn_cookie.go] and the receive-scale memory of [TCPListener] in [tcp.go]:
    the stateless passive handshake. The reply to a SYN encodes the peer's
    options in eight bits of the initial sequence number and authenticates the
    rest with SipHash; the final ACK is checked and the options are recovered.

    The random source is an argument ([None] for its error), and so are the
    configured socket defaults and the clock. *)

From S2P Require Import Prelude SeqNum Rtt Addr Windows TcpReceive Scoreboard HeaderOptions TcpOptions SipHash.

(** ** Data *)

Definition synCookiePeriod : Z := 64 * second.
Definition synCookieDataBits : Z := 8.
Definition synCookieDataMask : Z := 255.
Definition synCookieMSSValues : list Z := [tcpMinimumPeerMSS; 256; 536; 1200; 1220; 1360; 1440; 8960].

Record synCookieOptions := mkCookieOptions {
  co_mss : Z;
  co_windowScale : Z;
  co_localWindowScale : Z;
  co_windowScaling : bool;
  co_sack : bool;
  co_timestamp : bool;
  co_ecn : bool;
  co_timestampNow : Z }.

Record tcpKey := mkTcpKey {
  tk_local : Addr;
  tk_localPort : Z;
  tk_remote : Addr;
  tk_remotePort : Z }.

(** The cookie part of [tcpPassiveState]. *)
Record tcpPassiveState := mkPassive {
  ck_key : list Z;
  ck_set : bool;
  ck_epoch : Z;
  ck_period : Z;
  ck_active : bool }.

(** The cookie part of [TCPListener]. *)
Record cookieListener := mkCookieListener {
  cl_closed : bool;
  cl_generation : Z;
  cl_scale : Z;
  cl_previousScale : Z;
  cl_scaleSet : bool;
  cl_previousSet : bool;
  cl_period : Z;
  cl_previousPeriod : Z }.

(** ** Encoding *)

Fixpoint mssIndexFrom (values : list Z) (index mss mssIndex : Z) : Z :=
  match values with
  | [] => mssIndex
  | value :: values => if mss <? value then mssIndex else mssIndexFrom values (index + 1) mss index
  end.

Definition synCookieMSSIndex (mss : Z) : Z := mssIndexFrom synCookieMSSValues 0 mss 0.

(** The flags SYN, ECE and CWR request ECN. *)
Definition requestsECN (flags : Z) : bool :=
  flags .& (TCPFlagECE .| TCPFlagCWR) =? TCPFlagECE .| TCPFlagCWR.

Definition encodeSYNCookieOptions (syn : tcpSegment) (remoteAddress : Addr)
    : option (synCookieOptions * Z) :=
  o ← parseTCPOptions (sg_options syn) (defaultTCPPeerMSS remoteAddress) 65535;
  let scale := if so_timestamp o then so_scale o else 0 in
  let scaling := so_timestamp o && so_windowScaling o in
  let sack := so_timestamp o && so_sack o in
  let mssIndex := synCookieMSSIndex (so_mss o) in
  let encodedScale := if scaling then scale else 15 in
  let data := mssIndex .| Z.shiftl encodedScale 3 in
  let data := if sack then data .| Z.shiftl 1 7 else data in
  let ecn := so_timestamp o && requestsECN (sg_flags syn) in
  mss ← idx synCookieMSSValues mssIndex;
  Some (mkCookieOptions mss scale 0 scaling sack (so_timestamp o) ecn (so_timestampValue o), data).

(** The outer option is a panic, the inner one the result [false]. *)
Definition decodeSYNCookieOptions (data : Z) : option (option synCookieOptions) :=
  if negb (data .&^ synCookieDataMask =? 0) then Some None
  else
    let mssIndex := data .& 7 in
    let encodedScale := u8 (Z.shiftr data 3 .& 15) in
    mss ← idx synCookieMSSValues mssIndex;
    let sack := negb (data .& Z.shiftl 1 7 =? 0) in
    Some (Some (if negb (encodedScale =? 15)
                then mkCookieOptions mss encodedScale 0 true sack false false 0
                else mkCookieOptions mss 0 0 false sack false false 0)).

Definition synCookieAuthenticatedData (data : Z) (timestamp ecn : bool) : Z :=
  let data := if timestamp then data .| Z.shiftl 1 8 else data in
  if ecn then data .| Z.shiftl 1 9 else data.

Definition synCookiePeriodNumber (now epoch : Z) : Z :=
  let elapsed := timeSub now epoch in
  if elapsed <=? 0 then 0 else u64 (Z.quot elapsed synCookiePeriod).

Definition synCookieInput (key : tcpKey) (generation clientSequence period authenticatedData : Z)
    : list Z :=
  [if is6 (tk_local key) then 6 else 4]
  ++ as16 (tk_local key) ++ as16 (tk_remote key)
  ++ be_bytes 2 (tk_localPort key) ++ be_bytes 2 (tk_remotePort key)
  ++ be_bytes 8 generation ++ be_bytes 4 clientSequence ++ be_bytes 8 period
  ++ be_bytes 2 (u16 authenticatedData).

Definition synCookieSequence (secret : list Z) (key : tcpKey)
    (generation clientSequence period data authenticatedData : Z) : option Z :=
  hash ← sipHash24 secret (synCookieInput key generation clientSequence period authenticatedData);
  let tag := u32 hash .&^ synCookieDataMask in
  Some (tag .| data).

Definition synCookieTimestamp (raw : Z) (ecn : bool) : Z :=
  let timestamp := raw .&^ 1 in
  let timestamp := if ecn then timestamp .| 1 else timestamp in
  if tcpSequenceGreater timestamp raw then timestamp ⊟ 2 else timestamp.

(** ** Shared state *)

(** [random] is what [rand.Read] delivers, when it is called. *)
Definition synCookieKey (state : tcpPassiveState) (now : Z) (random : option (list Z))
    : tcpPassiveState * option (list Z * Z) :=
  if ck_set state then
    (state, Some (ck_key state, synCookiePeriodNumber now (ck_epoch state)))
  else
    match random with
    | None => (state, None)
    | Some bytes =>
        let state := mkPassive bytes true now (ck_period state) (ck_active state) in
        (state, Some (ck_key state, synCookiePeriodNumber now (ck_epoch state)))
    end.

Definition noteSYNCookie (state : tcpPassiveState) (period : Z) : tcpPassiveState :=
  mkPassive (ck_key state) (ck_set state) (ck_epoch state)
    (if negb (ck_active state) || (ck_period state <? period) then period else ck_period state) true.

Definition recentSYNCookieState (state : tcpPassiveState) (now : Z) : option (list Z * Z) :=
  let period := synCookiePeriodNumber now (ck_epoch state) in
  if negb (ck_set state) || negb (ck_active state) || (period <? ck_period state)
     || (1 <? u64 (period - ck_period state))
  then None else Some (ck_key state, period).

Definition recordSYNCookieScale (l : cookieListener) (period scale : Z) : cookieListener * Z :=
  if cl_closed l then (l, scale)
  else
    let l :=
      if negb (cl_scaleSet l) || (cl_period l <? period) then
        mkCookieListener (cl_closed l) (cl_generation l) scale
          (if cl_scaleSet l then cl_scale l else cl_previousScale l) true
          (cl_scaleSet l || cl_previousSet l) period
          (if cl_scaleSet l then cl_period l else cl_previousPeriod l)
      else l in
    (l, cl_scale l).

Definition lookupSYNCookieScale (l : cookieListener) (period : Z) : option Z :=
  if cl_scaleSet l && (cl_period l =? period) then Some (cl_scale l)
  else if cl_previousSet l && (cl_previousPeriod l =? period) then Some (cl_previousScale l)
  else None.

Definition tcpMaximumWindowScale : Z := 14.

Definition scaleForBody (maximum scale : Z) : option (Z + Z) :=
  if (scale <? tcpMaximumWindowScale) && (u64 (Z.shiftl 65535 scale) <? u64 maximum)
  then Some (inl (u8 (scale + 1))) else Some (inr scale).

Definition tcpReceiveWindowScaleFor (maximum : Z) : option Z :=
  if maximum <=? 65535 then Some 0 else loop 15 (scaleForBody maximum) 0.

(** ** The reply to a SYN *)

(** The configuration a reply depends on: the socket defaults with the
    listener's options applied, and the path MTU towards the peer. *)
Record cookieConfig := mkCookieConfig {
  cc_maximumReceiveBuffer : Z;
  cc_receiveBuffer : Z;
  cc_mtu : Z }.

(** The control segment handed to [tryWriteTCPControl]. *)
Record cookieReply := mkCookieReply {
  cr_sequence : Z;
  cr_acknowledgement : Z;
  cr_flags : Z;
  cr_window : Z;
  cr_options : list Z }.

Inductive cookieSent :=
| RandomFailed
| MTUTooSmall
| Sent (reply : cookieReply).

Definition generationOf (listener : option cookieListener) : Z :=
  match listener with Some l => cl_generation l | None => 0 end.

Definition sendSYNCookie (config : cookieConfig) (state : tcpPassiveState)
    (listener : option cookieListener) (key : tcpKey) (syn : tcpSegment)
    (now clock : Z) (random : option (list Z))
    : option (tcpPassiveState * option cookieListener * cookieSent) :=
  configuredScale ← tcpReceiveWindowScaleFor (cc_maximumReceiveBuffer config);
  match synCookieKey state now random with
  | (state, None) => Some (state, listener, RandomFailed)
  | (state, Some (secret, period)) =>
      '(options, data) ← encodeSYNCookieOptions syn (tk_remote key);
      let authenticatedData := synCookieAuthenticatedData data (co_timestamp options) (co_ecn options) in
      sequence ← synCookieSequence secret key (generationOf listener) (sg_sequence syn) period data
                   authenticatedData;
      let localMSS := tcpMSSForMTU (cc_mtu config) (tk_local key) in
      if localMSS <? 1 then Some (state, listener, MTUTooSmall)
      else
        let timestamp := if co_timestamp options then synCookieTimestamp clock (co_ecn options) else clock in
        let '(listener, advertisedScale) :=
          match listener with
          | Some l => let '(l, scale) := recordSYNCookieScale l period configuredScale in (Some l, scale)
          | None => (None, configuredScale)
          end in
        let tcpOptions := tcpPassiveSYNOptions localMSS (co_sack options) (co_windowScaling options)
                            (co_timestamp options) advertisedScale timestamp (co_timestampNow options) in
        let flags := TCPFlagSYN .| TCPFlagACK in
        let flags := if co_ecn options then flags .| TCPFlagECE else flags in
        let receiveWindow := cc_receiveBuffer config in
        let receiveWindow := if 65535 <? receiveWindow then 65535 else receiveWindow in
        Some (noteSYNCookie state period, listener,
              Sent (mkCookieReply sequence (sg_sequence syn ⊞ 1) flags (u16 receiveWindow) tcpOptions))
  end.

(** ** The final ACK *)

(** The states of the Timestamp and ECN options an ACK may stand for. *)
Definition cookieCandidates (timestamp : option (Z * Z)) : list (bool * bool) :=
  match timestamp with
  | Some (_, echo) =>
      if echo =? 0 then [(true, true); (true, false)]
      else [(true, negb (echo .& 1 =? 0))]
  | None => [(true, true); (true, false); (false, false)]
  end.

Record cookieMatch := mkMatch { cm_timestamp : bool; cm_ecn : bool; cm_period : Z }.

(** The inner loop: a later match replaces an earlier one. *)
Fixpoint matchCandidates (secret : list Z) (key : tcpKey)
    (generation clientSequence serverSequence data period : Z) (candidates : list (bool * bool))
    (found : option cookieMatch) : option (option cookieMatch) :=
  match candidates with
  | [] => Some found
  | (timestamp, ecn) :: candidates =>
      expected ← synCookieSequence secret key generation clientSequence period data
                   (synCookieAuthenticatedData data timestamp ecn);
      matchCandidates secret key generation clientSequence serverSequence data period candidates
        (if s32 expected =? s32 serverSequence then Some (mkMatch timestamp ecn period) else found)
  end.

(** The outer loop over the current and the previous period. *)
Fixpoint matchPeriods (n : nat) (attempt : Z) (secret : list Z) (key : tcpKey)
    (generation clientSequence serverSequence data period : Z) (candidates : list (bool * bool))
    (found : option cookieMatch) : option (option cookieMatch) :=
  match n with
  | O => Some found
  | S n =>
      if period <? attempt then Some found
      else
        found ← matchCandidates secret key generation clientSequence serverSequence data
                  (period - attempt) candidates found;
        matchPeriods n (attempt + 1) secret key generation clientSequence serverSequence data period
          candidates found
  end.

Inductive cookieVerdict :=
| NotEligible
| NotAuthentic
| Authentic (serverSequence : Z) (options : synCookieOptions).

(** The options of an authentic ACK; [None] when no scale was promised. *)
Definition recoverOptions (decoded : synCookieOptions) (timestamp : option (Z * Z))
    (found : cookieMatch) (listener : option cookieListener) : option synCookieOptions :=
  let present := match timestamp with Some _ => true | None => false end in
  let timestampNow := if present && cm_timestamp found
                      then match timestamp with Some (value, _) => value | None => 0 end
                      else co_timestampNow decoded in
  localScale ← match listener with
               | Some l => if co_windowScaling decoded then lookupSYNCookieScale l (cm_period found)
                           else Some (co_localWindowScale decoded)
               | None => Some (co_localWindowScale decoded)
               end;
  Some (if present
        then mkCookieOptions (co_mss decoded) (co_windowScale decoded) localScale
               (co_windowScaling decoded) (co_sack decoded) (cm_timestamp found) (cm_ecn found) timestampNow
        else mkCookieOptions (co_mss decoded) 0 0 false false false false timestampNow).

Definition validateSYNCookie (state : tcpPassiveState) (key : tcpKey) (ack : tcpSegment) (now : Z)
    (listener : option cookieListener) : option cookieVerdict :=
  if negb (hasFlag (sg_flags ack) TCPFlagACK) || hasFlag (sg_flags ack) (TCPFlagSYN .| TCPFlagRST)
  then Some NotEligible
  else
    match recentSYNCookieState state now with
    | None => Some NotEligible
    | Some (secret, period) =>
        let serverSequence := sg_acknowledgement ack ⊟ 1 in
        let clientSequence := sg_sequence ack ⊟ 1 in
        let data := serverSequence .& synCookieDataMask in
        timestamp ← parseTCPTimestamp (sg_options ack);
        found ← matchPeriods 2 0 secret key (generationOf listener) clientSequence serverSequence data
                  period (cookieCandidates timestamp) None;
        match found with
        | None => Some NotAuthentic
        | Some found =>
            decoded ← decodeSYNCookieOptions data;
            match decoded with
            | None => Some NotAuthentic
            | Some decoded =>
                Some (match recoverOptions decoded timestamp found listener with
                      | None => NotAuthentic
                      | Some options => Authentic serverSequence options
                      end)
            end
        end
    end.

(** ** Lemmas: encoding *)

(** The table entry for an offer of at least the minimum is the greatest one
    that does not exceed it. *)
Lemma mssIndex_ok mss : tcpMinimumPeerMSS <= mss ->
  let i := synCookieMSSIndex mss in
  0 <= i <= 7 /\ exists v, idx synCookieMSSValues i = Some v /\ v <= mss /\
    (forall w, w ∈ synCookieMSSValues -> w <= mss -> w <= v).
Proof.
  intros Hm. cbv zeta. unfold tcpMinimumPeerMSS in Hm.
  assert (forall v, (forall w, w ∈ synCookieMSSValues -> w <= mss -> w <= v) <->
                    Forall (fun w => w <= mss -> w <= v) synCookieMSSValues) as Hall
    by (intros v; by rewrite list.Forall_forall).
  setoid_rewrite Hall. clear Hall.
  unfold synCookieMSSIndex, synCookieMSSValues, tcpMinimumPeerMSS. cbn [mssIndexFrom].
  split_ifs; (split; [lia|]); eexists; (split; [reflexivity|]); (split; [lia|]);
    repeat (apply List.Forall_cons; [lia|]); apply List.Forall_nil.
Qed.

(** The eight data bits and what is read back from them. *)
Definition cookieData (mssIndex scale : Z) (sack : bool) : Z :=
  let data := mssIndex .| Z.shiftl scale 3 in if sack then data .| Z.shiftl 1 7 else data.

Lemma small_cases (P : Z -> Prop) n : (forall k, (k < n)%nat -> P (Z.of_nat k)) -> forall i, 0 <= i < Z.of_nat n -> P i.
Proof. intros H i Hi. replace i with (Z.of_nat (Z.to_nat i)) by lia. apply H. lia. Qed.

Lemma cookieData_decode mssIndex scale sack :
  0 <= mssIndex <= 7 -> 0 <= scale <= 15 ->
  0 <= cookieData mssIndex scale sack < 256 /\
  decodeSYNCookieOptions (cookieData mssIndex scale sack)
  = (mss ← idx synCookieMSSValues mssIndex;
     Some (Some (if scale =? 15 then mkCookieOptions mss 0 0 false sack false false 0
                 else mkCookieOptions mss scale 0 true sack false false 0))).
Proof.
  intros Hi Hs. assert (0 <= mssIndex < Z.of_nat 8) as Hi' by lia. clear Hi. revert mssIndex Hi'.
  apply (small_cases _ 8). intros k Hk. assert (0 <= scale < Z.of_nat 16) as Hs' by lia. clear Hs. revert scale Hs'.
  apply (small_cases _ 16). intros l Hl.
  do 8 (destruct k as [|k]; [do 16 (destruct l as [|l]; [destruct sack; vm_compute; (split; [split; [discriminate|reflexivity]|reflexivity])|]); lia|]). lia.
Qed.

Lemma parse_mss_min options fallback maximum o :
  parseTCPOptions options fallback maximum = Some o -> tcpMinimumPeerMSS <= maximum ->
  tcpMinimumPeerMSS <= so_mss o.
Proof.
  unfold parseTCPOptions. intros H Hm. destruct (walkOptions _ _ _ _) as [w|]; [|done].
  injection H as <-. cbn [so_mss]. unfold clampMSS. split_ifs; lia.
Qed.

(** The data bits of a SYN give back everything but the timestamp state. *)
Definition storedOptions (o : synCookieOptions) : synCookieOptions :=
  mkCookieOptions (co_mss o) (co_windowScale o) 0 (co_windowScaling o) (co_sack o) false false 0.

Record encodedOptions (flags : Z) (parsed : synOptions) (o : synCookieOptions) (data : Z) : Prop := {
  eo_data : 0 <= data < 256;
  eo_decode : decodeSYNCookieOptions data = Some (Some (storedOptions o));
  eo_mss : co_mss o <= so_mss parsed /\
    (forall w, w ∈ synCookieMSSValues -> w <= so_mss parsed -> w <= co_mss o);
  eo_timestamp : co_timestamp o = so_timestamp parsed /\ co_timestampNow o = so_timestampValue parsed;
  eo_extensions : if so_timestamp parsed
    then co_windowScaling o = so_windowScaling parsed /\ co_windowScale o = so_scale parsed /\
         co_sack o = so_sack parsed /\ co_ecn o = requestsECN flags
    else co_windowScaling o = false /\ co_windowScale o = 0 /\ co_sack o = false /\ co_ecn o = false }.

Lemma encode_ok syn address :
  bytes_ok (sg_options syn) ->
  exists parsed o data,
    parseTCPOptions (sg_options syn) (defaultTCPPeerMSS address) 65535 = Some parsed /\
    encodeSYNCookieOptions syn address = Some (o, data) /\ encodedOptions (sg_flags syn) parsed o data.
Proof.
  intros Hb. destruct (parseTCPOptions_ok (sg_options syn) (defaultTCPPeerMSS address) 65535 Hb)
    as (p & Ep & Hp & _ & _ & Hscale & _).
  pose proof (parse_mss_min _ _ _ _ Ep ltac:(done)) as Hmin.
  destruct (mssIndex_ok (so_mss p) Hmin) as (Hi & v & Ev & Hv & Hmax).
  unfold encodeSYNCookieOptions. rewrite Ep. cbn [mbind option_bind]. rewrite Ev. cbn [mbind option_bind].
  set (i := synCookieMSSIndex (so_mss p)) in *.
  set (scaling := so_timestamp p && so_windowScaling p).
  set (sack := so_timestamp p && so_sack p).
  destruct (cookieData_decode i (if scaling then if so_timestamp p then so_scale p else 0 else 15) sack Hi)
    as (Hd & Hdec); [unfold scaling; destruct (so_timestamp p), (so_windowScaling p); simpl; lia|].
  eexists p, _, _. split; [done|]. split; [reflexivity|]. split; [exact Hd| |by split|done| ].
  - change (if sack then _ else _) with (cookieData i (if scaling then if so_timestamp p then so_scale p else 0 else 15) sack).
    rewrite Hdec, Ev. cbn [mbind option_bind]. do 2 f_equal. unfold scaling, storedOptions.
    destruct (so_timestamp p) eqn:Et, (so_windowScaling p) eqn:Ew; cbn [andb co_mss co_windowScale co_windowScaling co_sack];
      try done; [|by rewrite Hscale].
    destruct (so_scale p =? 15) eqn:E; [lia|done].
  - unfold scaling, sack. destruct (so_timestamp p); cbn [andb co_mss co_windowScale co_windowScaling co_sack co_ecn]; done.
Qed.

(** ** Lemmas: authentication *)

Lemma ldiff_255 x : x .&^ 255 = 256 * (x / 256).
Proof. change 255 with (2 ^ 8 - 1). rewrite ldiff_low by lia. simpl (2 ^ 8). zlia. Qed.

Lemma land_255 x : x .& 255 = x mod 256.
Proof. change 255 with (2 ^ 8 - 1). by rewrite land_low by lia. Qed.

Lemma sequence_ok secret key generation client period data auth :
  length secret = 16%nat -> 0 <= data < 256 ->
  exists t, synCookieSequence secret key generation client period data auth = Some (256 * t + data) /\
            0 <= t < 2 ^ 24.
Proof.
  intros Hs Hd. unfold synCookieSequence, synCookieDataMask.
  destruct (sipHash24_total secret (synCookieInput key generation client period auth) Hs) as [h ->].
  cbn [mbind option_bind]. exists (u32 h / 256). pose proof (u32_range h) as [].
  split; [|change (2 ^ 24) with 16777216; zlia].
  rewrite ldiff_255. f_equal. replace (256 * (u32 h / 256)) with (Z.shiftl (u32 h / 256) 8)
    by (rewrite Z.shiftl_mul_pow2 by lia; lia).
  rewrite lor_shiftl_add, Z.shiftl_mul_pow2 by (simpl; lia). lia.
Qed.

(** Eight data bits always decode. *)
Lemma decode_total data : 0 <= data < 256 ->
  exists o, decodeSYNCookieOptions data = Some (Some o) /\
    co_mss o ∈ synCookieMSSValues /\ 0 <= co_windowScale o <= 14 /\ co_localWindowScale o = 0 /\
    co_timestampNow o = 0 /\ (co_windowScaling o = false -> co_windowScale o = 0).
Proof.
  intros Hd. unfold decodeSYNCookieOptions, synCookieDataMask. rewrite ldiff_255.
  rewrite (Z.div_small data 256) by done. cbn [negb Z.mul Z.eqb].
  assert (data .& 7 = data mod 8) as -> by (change 7 with (2 ^ 3 - 1); by rewrite land_low by lia).
  assert (Z.shiftr data 3 .& 15 = (data / 8) mod 16) as ->.
  { rewrite Z.shiftr_div_pow2 by lia. change 15 with (2 ^ 4 - 1). by rewrite land_low by lia. }
  destruct (idx_some synCookieMSSValues (data mod 8)) as [mss Em];
    [change (zlen synCookieMSSValues) with 8; zlia|].
  rewrite Em. cbn [mbind option_bind].
  assert (mss ∈ synCookieMSSValues) as Hin.
  { rewrite idx_lookup in Em by zlia. by eapply list_elem_of_lookup_2. }
  assert (u8 ((data / 8) mod 16) = (data / 8) mod 16) as -> by (unfold u8; zlia).
  destruct (_ =? 15) eqn:E; cbn [negb]; eexists; (split; [reflexivity|]); cbn; split_and!; try done; zlia.
Qed.

Section Matching.
Context (secret : list Z) (key : tcpKey) (generation client server data : Z).
Context (Hsecret : length secret = 16%nat) (Hserver : is_u32 server) (Hdata : 0 <= data < 256).

(** The tag of [server] is that of the period and the option state. *)
Definition authentic (period : Z) (c : bool * bool) : Prop :=
  synCookieSequence secret key generation client period data
    (synCookieAuthenticatedData data (fst c) (snd c)) = Some server.

Lemma matchCandidates_ok period candidates found :
  exists r, matchCandidates secret key generation client server data period candidates found = Some r /\
    (r = found /\ (forall c, c ∈ candidates -> ~ authentic period c) \/
     exists c, c ∈ candidates /\ authentic period c /\ r = Some (mkMatch (fst c) (snd c) period)).
Proof.
  revert found. induction candidates as [|[ts ecn] cs IH]; intros found; cbn [matchCandidates].
  { eexists. split; [done|]. left. split; [done|]. intros c Hc. by apply elem_of_nil in Hc. }
  destruct (sequence_ok secret key generation client period data (synCookieAuthenticatedData data ts ecn))
    as (t & Et & Ht); [done..|]. rewrite Et. cbn [mbind option_bind].
  assert ((s32 (256 * t + data) =? s32 server) = (256 * t + data =? server)) as Es.
  { unfold is_u32 in Hserver. change (2 ^ 24) with 16777216 in Ht. unfold s32. rewrite !u32_id by (unfold is_u32; lia).
    apply eq_true_iff_eq. rewrite !Z.eqb_eq. split_ifs; lia. }
  rewrite Es. destruct (256 * t + data =? server) eqn:E.
  - assert (authentic period (ts, ecn)) as Ha by (unfold authentic; cbn [fst snd]; rewrite Et; f_equal; lia).
    destruct (IH (Some (mkMatch ts ecn period))) as (r & -> & [[-> Hno]|(c & Hc & Hac & ->)]); eexists; (split; [done|]);
      right; [exists (ts, ecn)|exists c]; (split; [|by split]); [left|by right].
  - assert (~ authentic period (ts, ecn)) as Ha by (unfold authentic; cbn [fst snd]; rewrite Et; intros [=]; lia).
    destruct (IH found) as (r & -> & [[-> Hno]|(c & Hc & Hac & ->)]); eexists; (split; [done|]).
    + left. split; [done|]. intros c Hc. apply elem_of_cons in Hc as [-> | Hc]; [done|by apply Hno].
    + right. exists c. split; [by right|by split].
Qed.

Definition tried (period : Z) (candidates : list (bool * bool)) (q : Z) (c : bool * bool) : Prop :=
  (q = period \/ 1 <= period /\ q = period - 1) /\ c ∈ candidates.

Lemma matchPeriods_ok period candidates : 0 <= period ->
  exists r, matchPeriods 2 0 secret key generation client server data period candidates None = Some r /\
    match r with
    | None => forall q c, tried period candidates q c -> ~ authentic q c
    | Some m => tried period candidates (cm_period m) (cm_timestamp m, cm_ecn m) /\
                authentic (cm_period m) (cm_timestamp m, cm_ecn m)
    end.
Proof.
  intros Hp. cbn [matchPeriods]. destruct (Z.ltb_spec period 0); [lia|].
  destruct (matchCandidates_ok (period - 0) candidates None) as (r1 & -> & H1). rewrite Z.sub_0_r in H1.
  cbn [mbind option_bind]. change (0 + 1) with 1. destruct (Z.ltb_spec period 1).
  - eexists. split; [done|]. destruct H1 as [[-> Hno]|(c & Hc & Ha & ->)].
    + intros q c [[->|[? _]] Hc]; [by apply Hno|lia].
    + cbn [cm_period cm_timestamp cm_ecn]. destruct c. split; [split; [by left|done]|done].
  - destruct (matchCandidates_ok (period - 1) candidates r1) as (r2 & -> & H2).
    cbn [mbind option_bind]. eexists. split; [done|].
    destruct H2 as [[-> Hno2]|(c & Hc & Ha & ->)].
    + destruct H1 as [[-> Hno]|(c & Hc & Ha & ->)].
      * intros q c [[->|[_ ->]] Hc]; [by apply Hno|by apply Hno2].
      * cbn [cm_period cm_timestamp cm_ecn]. destruct c. split; [split; [by left|done]|done].
    + cbn [cm_period cm_timestamp cm_ecn]. destruct c. split; [split; [by right|done]|done].
Qed.
End Matching.

(** ** Lemmas: timestamps and scales *)

(** The low bit of the reply's timestamp carries ECN, and the timestamp is at
    most two ticks behind the clock. *)
Lemma timestamp_ok raw ecn : is_u32 raw ->
  let t := synCookieTimestamp raw ecn in
  is_u32 t /\ negb (t .& 1 =? 0) = ecn /\ raw ⊟ t <= 2.
Proof.
  intros Hr. cbv zeta. unfold synCookieTimestamp.
  assert (forall x, negb (x .& 1 =? 0) = (x mod 2 =? 1)) as Hodd.
  { intros x. change 1 with (2 ^ 1 - 1) at 1. rewrite land_low by lia. simpl (2 ^ 1). zlia. }
  assert (raw .&^ 1 = 2 * (raw / 2)) as ->.
  { change 1 with (2 ^ 1 - 1). rewrite ldiff_low by lia. simpl (2 ^ 1). zlia. }
  assert (2 * (raw / 2) .| 1 = 2 * (raw / 2) + 1) as ->.
  { replace (2 * (raw / 2)) with (Z.shiftl (raw / 2) 1) by (rewrite Z.shiftl_mul_pow2 by lia; lia).
    rewrite lor_shiftl_add by (simpl; lia). rewrite Z.shiftl_mul_pow2 by lia. lia. }
  rewrite Hodd. unfold tcpSequenceGreater, tcpSequenceLess. rewrite s32_negative.
  unfold is_u32 in *. destruct ecn; split_ifs; unfold u32 in *; split_and!; try lia; zlia.
Qed.

Lemma scaleFor_ok maximum : maximum < 9223372036854775808 ->
  exists s, tcpReceiveWindowScaleFor maximum = Some s /\ 0 <= s <= 14 /\
    (maximum <= Z.shiftl 65535 14 -> maximum <= Z.shiftl 65535 s) /\
    (forall k, 0 <= k < s -> Z.shiftl 65535 k < maximum).
Proof.
  intros Hm. unfold tcpReceiveWindowScaleFor. destruct (Z.leb_spec maximum 65535).
  { exists 0. split_and!; try done; intros; lia. }
  apply (loop_total (fun s => 0 <= s <= 14 /\ forall k, 0 <= k < s -> Z.shiftl 65535 k < maximum)
    (fun s => Z.to_nat (14 - s))
    (fun s => 0 <= s <= 14 /\ (maximum <= Z.shiftl 65535 14 -> maximum <= Z.shiftl 65535 s) /\
              forall k, 0 <= k < s -> Z.shiftl 65535 k < maximum)); [|split; [lia|intros; lia]|simpl; lia].
  intros s [Hs Hk]. unfold scaleForBody, tcpMaximumWindowScale.
  assert (0 <= Z.shiftl 65535 s < 18446744073709551616) as Hshift.
  { rewrite Z.shiftl_mul_pow2 by lia. pose proof (Z.pow_pos_nonneg 2 s).
    pose proof (Z.pow_le_mono_r 2 s 14). simpl (2 ^ 14) in *. lia. }
  rewrite !u64_small by lia. destruct ((s <? 14) && (_ <? maximum)) eqn:E; (eexists; split; [done|]).
  - assert (u8 (s + 1) = s + 1) as -> by (unfold u8; zlia). split; [split; [lia|]|lia].
    intros k Hk'. destruct (decide (k = s)) as [->|]; [lia|]. apply Hk. lia.
  - split_and!; try lia; [|done]. intros H14. destruct (decide (s = 14)) as [->|]; [done|]. lia.
Qed.

(** ** Lemmas: state *)

Definition listenerOk (l : cookieListener) : Prop :=
  cl_closed l = false /\ 0 <= cl_scale l <= 14 /\ 0 <= cl_previousScale l <= 14.

(** The scale promised for period [p] can be looked up. *)
Definition promised (p scale : Z) (l : cookieListener) : Prop :=
  cl_scaleSet l = true /\
  (cl_period l = p /\ cl_scale l = scale \/
   cl_period l = p + 1 /\ cl_previousSet l = true /\ cl_previousPeriod l = p /\ cl_previousScale l = scale).

Lemma record_promises l p s l' scale :
  listenerOk l -> 0 <= s <= 14 -> (cl_scaleSet l = true -> cl_period l <= p) ->
  recordSYNCookieScale l p s = (l', scale) ->
  listenerOk l' /\ cl_generation l' = cl_generation l /\ promised p scale l' /\ 0 <= scale <= 14.
Proof.
  intros (Hc & H1 & H2) Hs Hp. unfold recordSYNCookieScale. rewrite Hc. intros [= <- <-].
  destruct (negb (cl_scaleSet l) || (cl_period l <? p)) eqn:E.
  - split_and!; cbn; try done; try lia; [by destruct (cl_scaleSet l)|]. split; [done|]. left. by split.
  - apply orb_false_iff in E as [E1 E2]. apply negb_false_iff in E1. specialize (Hp E1).
    split_and!; try done; try lia. split; [done|]. left. split; [lia|done].
Qed.

Lemma record_keeps l p scale q s l' r :
  listenerOk l -> 0 <= s <= 14 -> promised p scale l -> q <= p + 1 ->
  recordSYNCookieScale l q s = (l', r) ->
  listenerOk l' /\ cl_generation l' = cl_generation l /\ promised p scale l'.
Proof.
  intros (Hc & H1 & H2) Hs (Hset & Hp) Hq. unfold recordSYNCookieScale. rewrite Hc, Hset. intros [= <- <-].
  cbn [negb orb]. destruct (cl_period l <? q) eqn:E; [|by split_and!].
  destruct Hp as [[Hp <-]|(Hp & _)]; [|lia]. unfold listenerOk, promised. cbn.
  split_and!; try done; try lia.
Qed.

Lemma promised_lookup p scale l : promised p scale l -> lookupSYNCookieScale l p = Some scale.
Proof.
  unfold lookupSYNCookieScale. intros (-> & [[-> ->]|(-> & -> & -> & ->)]); cbn [andb].
  - by rewrite Z.eqb_refl.
  - replace (p + 1 =? p) with false by lia. by rewrite Z.eqb_refl.
Qed.

(** A cookie of period [p] can still be validated at [limit]. *)
Record issued (secret : list Z) (epoch p limit : Z) (st : tcpPassiveState) : Prop := {
  is_set : ck_set st = true;
  is_key : ck_key st = secret;
  is_epoch : ck_epoch st = epoch;
  is_active : ck_active st = true;
  is_period : p <= ck_period st <= limit }.

Lemma note_issued secret epoch p limit st q :
  issued secret epoch p limit st -> q <= limit -> issued secret epoch p limit (noteSYNCookie st q).
Proof.
  intros [? ? ? Ha ?] Hq. split; cbn; try done. rewrite Ha. cbn [negb orb]. split_ifs; lia.
Qed.

(** The state a reply leaves: a key is drawn at most once. *)
Definition keyed (st : tcpPassiveState) (now : Z) (random : option (list Z)) : option tcpPassiveState :=
  if ck_set st then Some st
  else match random with
       | None => None
       | Some bytes => Some (mkPassive bytes true now (ck_period st) (ck_active st))
       end.

Lemma send_inv config st L key syn now clock random st' L' out :
  sendSYNCookie config st L key syn now clock random = Some (st', L', out) ->
  match keyed st now random with
  | None => st' = st /\ L' = L /\ out = RandomFailed
  | Some st1 =>
      let p := synCookiePeriodNumber now (ck_epoch st1) in
      exists configured o data sequence,
        tcpReceiveWindowScaleFor (cc_maximumReceiveBuffer config) = Some configured /\
        encodeSYNCookieOptions syn (tk_remote key) = Some (o, data) /\
        synCookieSequence (ck_key st1) key (generationOf L) (sg_sequence syn) p data
          (synCookieAuthenticatedData data (co_timestamp o) (co_ecn o)) = Some sequence /\
        (st' = st1 /\ L' = L /\ out = MTUTooSmall \/
         st' = noteSYNCookie st1 p /\ 1 <= tcpMSSForMTU (cc_mtu config) (tk_local key) /\
         exists scale,
           match L with
           | Some l => exists l', recordSYNCookieScale l p configured = (l', scale) /\ L' = Some l'
           | None => L' = None /\ scale = configured
           end /\
           exists reply, out = Sent reply /\ cr_sequence reply = sequence /\
             cr_acknowledgement reply = sg_sequence syn ⊞ 1 /\
             cr_options reply = tcpPassiveSYNOptions (tcpMSSForMTU (cc_mtu config) (tk_local key))
               (co_sack o) (co_windowScaling o) (co_timestamp o) scale
               (if co_timestamp o then synCookieTimestamp clock (co_ecn o) else clock) (co_timestampNow o) /\
             hasFlag (cr_flags reply) TCPFlagECE = co_ecn o)
  end.
Proof.
  unfold sendSYNCookie, keyed, synCookieKey. intros H.
  destruct (tcpReceiveWindowScaleFor _) as [configured|]; [|done]. cbn [mbind option_bind] in H.
  destruct (ck_set st); [|destruct random as [bytes|]; [|by injection H as <- <- <-]].
  all: destruct (encodeSYNCookieOptions syn (tk_remote key)) as [[o data]|]; [|done]; cbn [mbind option_bind] in H;
    destruct (synCookieSequence _ _ _ _ _ _ _) as [sequence|] eqn:Es; [|done]; cbn [mbind option_bind] in H;
    exists configured, o, data, sequence; (split; [done|]); (split; [done|]); (split; [exact Es|]);
    (destruct (Z.ltb_spec (tcpMSSForMTU (cc_mtu config) (tk_local key)) 1); [left; by injection H as <- <- <-|right]).
  all: destruct L as [l|]; [destruct (recordSYNCookieScale l _ configured) as [l' scale] eqn:El|];
    injection H as <- <- <-; (split; [done|]); (split; [lia|]).
  all: (exists scale; split; [exists l'; by split|]) || (exists configured; split; [done|]).
  all: eexists; (split; [reflexivity|]); split_and!; try done; cbn [cr_flags]; by destruct (co_ecn o).
Qed.

(** ** Traffic between a reply and its ACK *)

Definition configOk (config : cookieConfig) : Prop :=
  cc_maximumReceiveBuffer config < 9223372036854775808.

(** Further cookies of the same passive state, from the listener in question or
    from others, in periods up to [limit]. *)
Inductive cookieTraffic (limit : Z)
    : tcpPassiveState -> cookieListener -> tcpPassiveState -> cookieListener -> Prop :=
| traffic_none st l : cookieTraffic limit st l st l
| traffic_own config key syn now clock random out st l st' l' st2 l2 :
    configOk config -> synCookiePeriodNumber now (ck_epoch st) <= limit ->
    sendSYNCookie config st (Some l) key syn now clock random = Some (st', Some l', out) ->
    cookieTraffic limit st' l' st2 l2 -> cookieTraffic limit st l st2 l2
| traffic_other config key syn now clock random out st l L st' L' st2 l2 :
    synCookiePeriodNumber now (ck_epoch st) <= limit ->
    sendSYNCookie config st L key syn now clock random = Some (st', L', out) ->
    cookieTraffic limit st' l st2 l2 -> cookieTraffic limit st l st2 l2.

Lemma issued_keyed secret epoch p limit st now random :
  issued secret epoch p limit st -> keyed st now random = Some st.
Proof. intros [H _ _ _ _]. unfold keyed. by rewrite H. Qed.

Lemma traffic_keeps secret epoch p scale limit st l st2 l2 :
  limit <= p + 1 -> cookieTraffic limit st l st2 l2 ->
  issued secret epoch p limit st -> listenerOk l -> promised p scale l ->
  issued secret epoch p limit st2 /\ listenerOk l2 /\ promised p scale l2 /\ cl_generation l2 = cl_generation l.
Proof.
  intros Hlimit. induction 1 as [st l|config key syn now clock random out st l st' l' st2 l2 Hc Hp Hsend _ IH
    |config key syn now clock random out st l L st' L' st2 l2 Hp Hsend _ IH]; intros Hi Hl Hs; [done| |].
  - apply send_inv in Hsend. rewrite (issued_keyed _ _ _ _ _ now random Hi) in Hsend.
    destruct Hsend as (configured & o & data & sequence & Hcfg & _ & _ & Hcase).
    destruct (scaleFor_ok _ Hc) as (s' & Hs' & Hr & _). rewrite Hs' in Hcfg. injection Hcfg as ->.
    destruct Hcase as [(-> & [= ->] & _)|(-> & _ & scale' & (l1 & Hrec & [= ->]) & _)]; [by apply IH|].
    destruct (record_keeps _ _ _ _ _ _ _ Hl Hr Hs ltac:(etransitivity; [exact Hp|exact Hlimit]) Hrec) as (Hl1 & Hg & Hs1).
    destruct (IH (note_issued _ _ _ _ _ _ Hi Hp) Hl1 Hs1) as (? & ? & ? & Hg2). by rewrite Hg2, Hg.
  - apply send_inv in Hsend. rewrite (issued_keyed _ _ _ _ _ now random Hi) in Hsend.
    destruct Hsend as (configured & o & data & sequence & _ & _ & _ & Hcase).
    destruct Hcase as [(-> & _)|(-> & _)]; apply IH; try done. by apply note_issued.
Qed.

(** ** Properties *)

(** The ACK echoes the timestamp the peer read from the reply, or lost it. *)
Definition echoes (peer : synOptions) (timestamp : option (Z * Z)) : Prop :=
  match timestamp with
  | Some (_, echo) => so_timestamp peer = true /\ echo = so_timestampValue peer
  | None => True
  end.

(** What a final ACK with this timestamp restores. *)
Definition recovered (o : synCookieOptions) (peer : synOptions) (timestamp : option (Z * Z))
    : synCookieOptions :=
  match timestamp with
  | Some (value, _) =>
      mkCookieOptions (co_mss o) (co_windowScale o) (so_scale peer) (co_windowScaling o) (co_sack o)
        true (co_ecn o) value
  | None => mkCookieOptions (co_mss o) 0 0 false false false false 0
  end.

Lemma candidates_contain clock ecn peer o timestamp :
  is_u32 clock -> (co_timestamp o = false -> co_ecn o = false) ->
  so_timestamp peer = co_timestamp o -> ecn = co_ecn o ->
  (co_timestamp o = true -> so_timestampValue peer = synCookieTimestamp clock ecn) ->
  echoes peer timestamp -> (co_timestamp o, co_ecn o) ∈ cookieCandidates timestamp.
Proof.
  intros Hc Hoff Ht -> Hv He. destruct timestamp as [[value echo]|]; cbn [echoes cookieCandidates] in *.
  - destruct He as [Hp ->]. rewrite Ht in Hp. rewrite (Hv Hp), Hp.
    destruct (timestamp_ok clock (co_ecn o) Hc) as (_ & Hodd & _). rewrite Hodd.
    destruct (synCookieTimestamp clock (co_ecn o) =? 0); [|left]. destruct (co_ecn o); [left|right; left].
  - destruct (co_timestamp o); [|rewrite Hoff by done; right; right; left].
    destruct (co_ecn o); [left|right; left].
Qed.

Lemma noted_issued st now random st0 p limit :
  keyed st now random = Some st0 -> p <= limit -> (ck_active st = true -> ck_period st <= limit) ->
  issued (ck_key st0) (ck_epoch st0) p limit (noteSYNCookie st0 p).
Proof.
  intros Hk Hp Hold. unfold keyed in Hk.
  assert (ck_set st0 = true /\ ck_active st0 = ck_active st /\ ck_period st0 = ck_period st) as (Hset & Ha & Hperiod).
  { destruct (ck_set st) eqn:E; [by injection Hk as <-|]. destruct random; [by injection Hk as <-|done]. }
  split; cbn; try done. rewrite Ha, Hperiod.
  destruct (ck_active st); cbn [negb orb]; [specialize (Hold eq_refl)|lia]. split_ifs; lia.
Qed.

(** The reply and the state a listener's SYN leaves. *)
Lemma reply_ok config st l key syn now clock random st0 :
  configOk config -> bytes_ok (sg_options syn) -> is_u32 clock -> listenerOk l ->
  keyed st now random = Some st0 -> length (ck_key st0) = 16%nat ->
  1 <= tcpMSSForMTU (cc_mtu config) (tk_local key) ->
  let p := synCookiePeriodNumber now (ck_epoch st0) in
  (cl_scaleSet l = true -> cl_period l <= p) ->
  exists l1 reply parsed o data peer,
    sendSYNCookie config st (Some l) key syn now clock random
      = Some (noteSYNCookie st0 p, Some l1, Sent reply) /\
    parseTCPOptions (sg_options syn) (defaultTCPPeerMSS (tk_remote key)) 65535 = Some parsed /\
    encodeSYNCookieOptions syn (tk_remote key) = Some (o, data) /\ encodedOptions (sg_flags syn) parsed o data /\
    (forall fallback maximum, exists mss, parseTCPOptions (cr_options reply) fallback maximum
      = Some (mkSynOptions mss (so_scale peer) (so_windowScaling peer) (so_sack peer) (so_timestamp peer)
                (so_timestampValue peer))) /\
    (so_windowScaling peer, so_sack peer, so_timestamp peer)
      = (co_windowScaling o, co_sack o, co_timestamp o) /\
    (co_timestamp o = true -> so_timestampValue peer = synCookieTimestamp clock (co_ecn o)) /\
    (listenerOk l1 /\ cl_generation l1 = cl_generation l /\
     exists scale, promised p scale l1 /\ so_scale peer = if co_windowScaling o then scale else 0) /\
    cr_acknowledgement reply = sg_sequence syn ⊞ 1 /\
    (is_u32 (cr_sequence reply) /\ cr_sequence reply .& synCookieDataMask = data) /\
    authentic (ck_key st0) key (cl_generation l) (sg_sequence syn) (cr_sequence reply) data p
      (co_timestamp o, co_ecn o).
Proof.
  intros Hcfg Hb Hclock Hl Hk Hkey Hmss p Hperiod.
  destruct (scaleFor_ok _ Hcfg) as (cs & Hcs & Hcsr & _).
  destruct (encode_ok syn (tk_remote key) Hb) as (parsed & o & data & Hparse & Henc & Ho).
  destruct (sequence_ok (ck_key st0) key (cl_generation l) (sg_sequence syn) p data
    (synCookieAuthenticatedData data (co_timestamp o) (co_ecn o)) Hkey (eo_data _ _ _ _ Ho)) as (t & Hseq & Ht).
  destruct (recordSYNCookieScale l p cs) as [l1 scale] eqn:Hrec.
  destruct (record_promises _ _ _ _ _ Hl Hcsr Hperiod Hrec) as (Hl1 & Hg & Hprom & Hscale).
  set (tsval := if co_timestamp o then synCookieTimestamp clock (co_ecn o) else clock).
  set (mss := tcpMSSForMTU (cc_mtu config) (tk_local key)) in *.
  assert (is_u16 mss) as Hm16 by (unfold mss, tcpMSSForMTU, is_u16 in *; split_ifs; lia).
  exists l1, (mkCookieReply (256 * t + data) (sg_sequence syn ⊞ 1)
    (if co_ecn o then TCPFlagSYN .| TCPFlagACK .| TCPFlagECE else TCPFlagSYN .| TCPFlagACK)
    (u16 (if 65535 <? cc_receiveBuffer config then 65535 else cc_receiveBuffer config))
    (tcpPassiveSYNOptions mss (co_sack o) (co_windowScaling o) (co_timestamp o) scale tsval (co_timestampNow o))),
    parsed, o, data,
    (mkSynOptions mss (if co_windowScaling o then scale else 0) (co_windowScaling o) (co_sack o) (co_timestamp o)
      (if co_timestamp o then tsval else 0)).
  destruct (parseTCPOptions_ok (sg_options syn) (defaultTCPPeerMSS (tk_remote key)) 65535 Hb)
    as (parsed' & Hp' & _ & _ & Hnow & _). rewrite Hparse in Hp'. injection Hp' as <-.
  assert (is_u32 tsval) as Hts by (unfold tsval; destruct (co_timestamp o); [by apply timestamp_ok|done]).
  split_and!; try done.
  - unfold sendSYNCookie. rewrite Hcs. cbn [mbind option_bind].
    assert (synCookieKey st now random = (st0, Some (ck_key st0, p))) as ->.
    { unfold keyed in Hk. unfold synCookieKey, p. destruct (ck_set st); [by injection Hk as <-|].
      destruct random as [bytes|]; [|done]. by injection Hk as <-. }
    rewrite Henc. cbn [mbind option_bind]. unfold generationOf. rewrite Hseq. cbn [mbind option_bind].
    fold mss. destruct (Z.ltb_spec mss 1); [lia|]. rewrite Hrec. by destruct (co_ecn o).
  - intros fallback maximum. exists (clampMSS (if mss =? 0 then fallback else mss) maximum). cbn [cr_options].
    destruct (syn_options_parse mss scale tsval (co_timestampNow o) fallback maximum (co_sack o) (co_windowScaling o)
      (co_timestamp o)) as (-> & _); [done|unfold is_u8; lia|done|by rewrite (proj2 (eo_timestamp _ _ _ _ Ho))|].
    cbn. do 2 f_equal. destruct (co_windowScaling o); [lia|done].
  - cbn. unfold tsval. by intros ->.
  - by exists scale.
  - cbn [cr_sequence]. pose proof (eo_data _ _ _ _ Ho). unfold is_u32. change (2 ^ 24) with 16777216 in Ht. lia.
  - cbn [cr_sequence]. pose proof (eo_data _ _ _ _ Ho). change ((256 * t + data) .& 255 = data). rewrite land_255. zlia.
Qed.

(** C24. A SYN cookie is a round trip. A listener answers every SYN; the peer
    reads from the reply exactly the extensions the cookie stores. After any
    further cookies of the same stack, an ACK in the same or the next period
    that echoes the reply's timestamp, or lost it, is authentic: it yields the
    reply's sequence number, the greatest table MSS not above the offer, and the
    options of the SYN with the window scale the peer was promised (without a
    timestamp: only the MSS). The one assumption is that no other period or
    option state has the same 24-bit tag. *)
Theorem syn_cookie_roundtrip (config : cookieConfig) (st : tcpPassiveState) (l : cookieListener)
    (key : tcpKey) (syn : tcpSegment) (now clock : Z) (random : option (list Z)) (st0 : tcpPassiveState) :
  configOk config -> bytes_ok (sg_options syn) -> is_u32 (sg_sequence syn) -> is_u32 clock ->
  listenerOk l -> keyed st now random = Some st0 -> length (ck_key st0) = 16%nat ->
  1 <= tcpMSSForMTU (cc_mtu config) (tk_local key) ->
  let p := synCookiePeriodNumber now (ck_epoch st0) in
  (cl_scaleSet l = true -> cl_period l <= p) ->
  exists st1 l1 reply parsed o data peer,
    sendSYNCookie config st (Some l) key syn now clock random = Some (st1, Some l1, Sent reply) /\
    parseTCPOptions (sg_options syn) (defaultTCPPeerMSS (tk_remote key)) 65535 = Some parsed /\
    encodeSYNCookieOptions syn (tk_remote key) = Some (o, data) /\ encodedOptions (sg_flags syn) parsed o data /\
    (forall fallback maximum, exists mss, parseTCPOptions (cr_options reply) fallback maximum
      = Some (mkSynOptions mss (so_scale peer) (so_windowScaling peer) (so_sack peer) (so_timestamp peer)
                (so_timestampValue peer))) /\
    (so_windowScaling peer, so_sack peer, so_timestamp peer)
      = (co_windowScaling o, co_sack o, co_timestamp o) /\
    forall st2 l2 ack now2 timestamp,
      let limit := synCookiePeriodNumber now2 (ck_epoch st0) in
      cookieTraffic limit st1 l1 st2 l2 -> p <= limit <= p + 1 ->
      (ck_active st = true -> ck_period st <= limit) ->
      hasFlag (sg_flags ack) TCPFlagACK = true -> hasFlag (sg_flags ack) (TCPFlagSYN .| TCPFlagRST) = false ->
      sg_sequence ack = sg_sequence syn ⊞ 1 -> sg_acknowledgement ack = cr_sequence reply ⊞ 1 ->
      parseTCPTimestamp (sg_options ack) = Some timestamp -> echoes peer timestamp ->
      (forall q c, tried limit (cookieCandidates timestamp) q c ->
         authentic (ck_key st0) key (cl_generation l) (sg_sequence syn) (cr_sequence reply) data q c ->
         q = p /\ c = (co_timestamp o, co_ecn o)) ->
      validateSYNCookie st2 key ack now2 (Some l2)
      = Some (Authentic (cr_sequence reply) (recovered o peer timestamp)).
Proof.
  intros Hcfg Hb Hsyn Hclock Hl Hk Hkey Hmss p Hperiod.
  destruct (reply_ok config st l key syn now clock random st0 Hcfg Hb Hclock Hl Hk Hkey Hmss Hperiod)
    as (l1 & reply & parsed & o & data & peer & Hsend & Hparse & Henc & Ho & Hpeer & Hext & Hts & (Hl1 & Hg & scale & Hprom & Hscale)
        & _ & (Hseq & Hdata) & Hauth).
  exists (noteSYNCookie st0 p), l1, reply, parsed, o, data, peer. do 6 (split; [done|]).
  intros st2 l2 ack now2 timestamp limit Htraffic Hlimit Hold Hack Hflags Es Ea Htime Hecho Hunique.
  pose proof (noted_issued st now random st0 p limit Hk (proj1 Hlimit) Hold) as Hi.
  destruct (traffic_keeps _ _ _ _ _ _ _ _ _ (proj2 Hlimit) Htraffic Hi Hl1 Hprom) as ([Hset Hk2 He Ha Hp2] & Hl2 & Hprom2 & Hg2).
  unfold validateSYNCookie, recentSYNCookieState. rewrite Hack, Hflags, Hset, Ha, Hk2, He. cbn [negb orb].
  fold limit. assert (u64 (limit - ck_period st2) = limit - ck_period st2) as -> by (apply u64_small; lia).
  replace (limit <? ck_period st2) with false by lia. replace (1 <? limit - ck_period st2) with false by lia.
  cbn [orb]. rewrite Htime. cbn [mbind option_bind].
  assert (sg_acknowledgement ack ⊟ 1 = cr_sequence reply) as -> by (rewrite Ea; word).
  assert (sg_sequence ack ⊟ 1 = sg_sequence syn) as -> by (rewrite Es; word).
  rewrite Hdata. unfold generationOf. rewrite Hg2, Hg.
  assert (0 <= p) as Hp0 by (unfold p, synCookiePeriodNumber; split_ifs; [lia|]; apply u64_range).
  destruct (matchPeriods_ok (ck_key st0) key (cl_generation l) (sg_sequence syn) (cr_sequence reply) data Hkey Hseq
    (eo_data _ _ _ _ Ho) limit (cookieCandidates timestamp) ltac:(lia)) as (r & -> & Hr). cbn [mbind option_bind].
  assert (tried limit (cookieCandidates timestamp) p (co_timestamp o, co_ecn o)) as Htried.
  { split; [lia|]. injection Hext as _ _ Et. eapply candidates_contain; [exact Hclock| |exact Et|reflexivity|exact Hts|exact Hecho].
    intros E. pose proof (eo_extensions _ _ _ _ Ho) as Hx. rewrite <- (proj1 (eo_timestamp _ _ _ _ Ho)), E in Hx. apply Hx. }
  destruct r as [m|]; [|by destruct (Hr _ _ Htried)]. destruct Hr as [Hm1 Hm2].
  destruct (Hunique _ _ Hm1 Hm2) as [Hq Hc]. injection Hc as Hc1 Hc2.
  rewrite (eo_decode _ _ _ _ Ho). cbn [mbind option_bind]. unfold recoverOptions, storedOptions.
  cbn [co_mss co_windowScale co_localWindowScale co_windowScaling co_sack co_timestampNow].
  rewrite Hq, (promised_lookup _ _ _ Hprom2), Hc1, Hc2. injection Hext as Ew _ Et.
  destruct timestamp as [[value echo]|]; cbn [recovered].
  - destruct Hecho as [Hpt _]. rewrite Et in Hpt. rewrite Hpt, Hscale. cbn [andb]. by destruct (co_windowScaling o).
  - by destruct (co_windowScaling o).
Qed.

(** C25. An accepted ACK is authentic. On any ACK and any listener state the
    check returns. It accepts only a plain ACK while a cookie of the current or
    the previous period is outstanding, whose sequence numbers carry the tag of
    the connection, the listener incarnation and an option state allowed by its
    timestamp; then the MSS is in the table, the scale is legal, an ACK without
    timestamp restores nothing but the MSS, and a local scale is the one the
    listener recorded for that period. An eligible ACK is rejected only when no
    tag matches or no scale was recorded. *)
Theorem syn_cookie_authentic (st : tcpPassiveState) (key : tcpKey) (ack : tcpSegment) (now : Z)
    (listener : option cookieListener) :
  length (ck_key st) = 16%nat -> bytes_ok (sg_options ack) ->
  let period := synCookiePeriodNumber now (ck_epoch st) in
  let server := sg_acknowledgement ack ⊟ 1 in
  let matching timestamp q c := tried period (cookieCandidates timestamp) q c /\
    authentic (ck_key st) key (generationOf listener) (sg_sequence ack ⊟ 1) server
      (server .& synCookieDataMask) q c in
  exists verdict timestamp,
    validateSYNCookie st key ack now listener = Some verdict /\
    parseTCPTimestamp (sg_options ack) = Some timestamp /\
    match verdict with
    | NotEligible =>
        hasFlag (sg_flags ack) TCPFlagACK = false \/ hasFlag (sg_flags ack) (TCPFlagSYN .| TCPFlagRST) = true \/
        recentSYNCookieState st now = None
    | NotAuthentic =>
        (forall q c, ~ matching timestamp q c) \/
        exists l q c, listener = Some l /\ matching timestamp q c /\ lookupSYNCookieScale l q = None
    | Authentic sequence o =>
        hasFlag (sg_flags ack) TCPFlagACK = true /\ hasFlag (sg_flags ack) (TCPFlagSYN .| TCPFlagRST) = false /\
        ck_active st = true /\ ck_period st <= period /\ u64 (period - ck_period st) <= 1 /\
        sequence = server /\ co_mss o ∈ synCookieMSSValues /\ 0 <= co_windowScale o <= 14 /\
        exists q c, matching timestamp q c /\
          match timestamp with
          | None => o = mkCookieOptions (co_mss o) 0 0 false false false false 0
          | Some (value, _) =>
              co_timestamp o = fst c /\ co_ecn o = snd c /\
              (forall l, listener = Some l -> co_windowScaling o = true ->
                 lookupSYNCookieScale l q = Some (co_localWindowScale o))
          end
    end.
Proof.
  intros Hkey Hb period server matching.
  destruct (parseTCPTimestamp_ok (sg_options ack) Hb) as (timestamp & Ht & _).
  unfold validateSYNCookie. fold server.
  destruct (_ || _) eqn:Ef.
  { exists NotEligible, timestamp. split_and!; try done. apply orb_true_iff in Ef as [Ef|Ef]; [|right; by left].
    left. by apply negb_true_iff in Ef. }
  apply orb_false_iff in Ef as [Ef1 Ef2]. apply negb_false_iff in Ef1.
  destruct (recentSYNCookieState st now) as [[secret current]|] eqn:Erecent.
  2: { exists NotEligible, timestamp. split_and!; try done. right. by right. }
  unfold recentSYNCookieState in Erecent. fold period in Erecent.
  destruct (_ || _) eqn:Er; [done|]. injection Erecent as <- <-.
  rewrite Ht. cbn [mbind option_bind].
  apply orb_false_iff in Er as [Er Er4]. apply orb_false_iff in Er as [Er Er3]. apply orb_false_iff in Er as [Er1 Er2].
  apply negb_false_iff in Er1, Er2.
  assert (0 <= period) as Hp0 by (unfold period, synCookiePeriodNumber; split_ifs; [lia|]; apply u64_range).
  set (data := server .& synCookieDataMask) in *.
  assert (0 <= data < 256) as Hd by (unfold data, synCookieDataMask; rewrite land_255; zlia).
  destruct (matchPeriods_ok (ck_key st) key (generationOf listener) (sg_sequence ack ⊟ 1) server data Hkey
    ltac:(apply u32_range) Hd period (cookieCandidates timestamp) Hp0) as (r & -> & Hr). cbn [mbind option_bind].
  destruct r as [m|]; [|exists NotAuthentic, timestamp; split_and!; try done; left; intros q c [H1 H2]; by apply (Hr q c H1)].
  destruct (decode_total data Hd) as (d & Edec & D1 & D2 & D3 & D4 & D5). rewrite Edec. cbn [mbind option_bind].
  destruct (recoverOptions d timestamp m listener) as [o|] eqn:Erec.
  - exists (Authentic server o), timestamp. split; [done|]. split; [done|].
    unfold recoverOptions in Erec.
    destruct (match listener with Some l => _ | None => _ end) as [localScale|] eqn:El; [|done].
    cbn [mbind option_bind] in Erec. injection Erec as <-.
    split_and!; try done; try lia; try (by destruct timestamp as [[]|]); try (destruct timestamp as [[]|]; cbn; lia).
    exists (cm_period m), (cm_timestamp m, cm_ecn m). split; [exact Hr|].
    destruct timestamp as [[value echo]|]; cbn; [|by rewrite D4]. split_and!; try done.
    intros l -> Hw. by rewrite Hw in El.
  - exists NotAuthentic, timestamp. split; [done|]. split; [done|]. right. unfold recoverOptions in Erec.
    destruct listener as [l|]; [|done]. destruct (co_windowScaling d); [|done].
    exists l, (cm_period m), (cm_timestamp m, cm_ecn m). split; [done|]. split; [exact Hr|].
    by destruct (lookupSYNCookieScale l (cm_period m)).
Qed.

(** ** Witnesses *)

Definition cookieKey : tcpKey := mkTcpKey (Addr4 [192;0;2;1]) 443 (Addr4 [198;51;100;7]) 50000.
Definition cookieSYN : tcpSegment :=
  mkSegment 1000 0 (TCPFlagSYN .| TCPFlagECE .| TCPFlagCWR) 64240 0
    (tcpSYNOptions 1460 7 77) [] 0 0.
Definition cookieACK (reply : cookieReply) : tcpSegment :=
  mkSegment 1001 (cr_sequence reply ⊞ 1) TCPFlagACK 502 0 (tcpTimestampOptions 99 499) [] 0 0.
Definition cookieStart : tcpPassiveState := mkPassive [] false 0 0 false.
Definition cookieListen : cookieListener := mkCookieListener false 3 0 0 false false 0 0.
Definition cookieSetup : cookieConfig := mkCookieConfig 4194304 131072 1500.
Definition cookieSecret : list Z := [9;8;7;6;5;4;3;2;1;0;1;2;3;4;5;6].

(** An ECN-capable SYN is answered in period zero and confirmed in period one. *)
Lemma syn_cookie_roundtrip_witness :
  exists st1 l1 reply,
    sendSYNCookie cookieSetup cookieStart (Some cookieListen) cookieKey cookieSYN 5 500 (Some cookieSecret)
      = Some (st1, Some l1, Sent reply) /\
    validateSYNCookie st1 cookieKey (cookieACK reply) (5 + 70 * second) (Some l1)
      = Some (Authentic (cr_sequence reply) (mkCookieOptions 1440 7 7 true true true true 99)).
Proof.
  destruct (syn_cookie_roundtrip cookieSetup cookieStart cookieListen cookieKey cookieSYN 5 500 (Some cookieSecret)
    (mkPassive cookieSecret true 5 0 false)) as (st1 & l1 & reply & parsed & o & data & peer & Hsend & Hparse & Henc & Ho & Hpeer & Hext & H).
  - reflexivity.
  - apply bytes_check. reflexivity.
  - vm_compute. split; [discriminate|reflexivity].
  - vm_compute. split; [discriminate|reflexivity].
  - vm_compute. split_and!; (reflexivity || discriminate).
  - reflexivity.
  - reflexivity.
  - vm_compute. discriminate.
  - discriminate.
  - pose proof Hsend as E. vm_compute in E. injection E as <- <- <-.
    vm_compute in Henc. injection Henc as <- <-.
    destruct (Hpeer 536 1460) as [mss Ep]. vm_compute in Ep. injection Ep as _ E1 E2 E3 E4 E5.
    destruct peer as [pm ps pw pk pt pv]. cbn [so_scale so_windowScaling so_sack so_timestamp so_timestampValue] in *.
    subst ps pw pk pt pv. eexists _, _, _. split; [exact Hsend|].
    apply (H _ _ (cookieACK _) (5 + 70 * second) (Some (99, 499))).
    + apply traffic_none.
    + vm_compute. split; discriminate.
    + discriminate.
    + reflexivity.
    + reflexivity.
    + reflexivity.
    + reflexivity.
    + reflexivity.
    + by split.
    + intros q c [Hq Hc] Ha. vm_compute in Hc. apply list_elem_of_singleton in Hc as ->.
      destruct Hq as [-> | [_ ->]]; [vm_compute in Ha; discriminate Ha|split; reflexivity].
Defined.

(** The ACK of that exchange, checked a period later. *)
Lemma syn_cookie_authentic_witness :
  let st := mkPassive cookieSecret true 5 0 true in
  let l := mkCookieListener false 3 7 0 true false 0 0 in
  let ack := mkSegment 1001 2642335423 TCPFlagACK 502 0 (tcpTimestampOptions 99 499) [] 0 0 in
  length (ck_key st) = 16%nat /\ bytes_ok (sg_options ack) /\
  exists o timestamp q c,
    validateSYNCookie st cookieKey ack (5 + 70 * second) (Some l) = Some (Authentic 2642335422 o) /\
    co_mss o ∈ synCookieMSSValues /\ tried 1 (cookieCandidates timestamp) q c.
Proof.
  cbv zeta. split; [reflexivity|]. split; [apply bytes_check; reflexivity|].
  destruct (syn_cookie_authentic (mkPassive cookieSecret true 5 0 true) cookieKey
    (mkSegment 1001 2642335423 TCPFlagACK 502 0 (tcpTimestampOptions 99 499) [] 0 0) (5 + 70 * second)
    (Some (mkCookieListener false 3 7 0 true false 0 0))) as (verdict & timestamp & E & Et & H);
    [reflexivity|apply bytes_check; reflexivity|].
  pose proof E as E'. vm_compute in E'. injection E' as <-.
  destruct H as (_ & _ & _ & _ & _ & _ & Hm & _ & q & c & [Hq _] & _).
  eexists _, timestamp, q, c. split; [exact E|]. split; [exact Hm|exact Hq].
Defined.
