(* ===== verification/Established.v ===== *)
(** * The established connection's state

    [tcpEstablishedState] of [tcp.go] with its sub-records, the part of
    [TCPConn] its operations read and write, and the operations on it that are
    not ACK processing: derived TCP states, flight accounting, timer deadlines
    and their arming, ACK scheduling, persist state, output readiness and
    congestion-window validation.

    Left out of the record: the backing array and head index of [outstanding]
    (storage only), the physical timer and its channel, and the SACK workspace.
    A [time.Time] is a count of nanoseconds, zero for the zero time; clock reads
    are arguments named [clock]. *)

From stdpp Require Import strings.
From S2P Require Import Prelude SeqNum Rtt SegmentQueue ByteBuffers TcpReceive Addr Windows Scoreboard.
From S2P Require Import Float64 DeliveryRate Congestion TcpOptions ReceiveWindow Recovery.

(** ** Constants *)

Definition tcpMaximumRTOs : Z := 15.
Definition tcpZeroWindowOutstandingTimeout : Z := 2 * tcpMaximumRTO.
Definition tcpDelayedACKTimeout : Z := 25 * millisecond.
Definition tcpMaximumQuickACKs : Z := 16.
Definition tcpMaximumCompressedSACKs : Z := 44.
Definition tcpDefaultReceiveMSS : Z := 536.
Definition tcpTimeWaitDuration : Z := 60 * second.
Definition tcpMaximumSendCapacity : Z := 16 * 1024 * 1024.
Definition tcpMaximumReceiveCapacity : Z := 16 * 1024 * 1024.

(** ** Enumerations *)

Inductive TCPState :=
| TCPStateClosed
| TCPStateSYNReceived
| TCPStateSYNSent
| TCPStateEstablished
| TCPStateFINWait1
| TCPStateFINWait2
| TCPStateCloseWait
| TCPStateClosing
| TCPStateLastACK
| TCPStateTimeWait.

#[export] Instance TCPState_eq_dec : EqDecision TCPState.
Proof. solve_decision. Defined.

Inductive tcpRetransmissionKind :=
| tcpRetransmissionRTO
| tcpRetransmissionProbe
| tcpRetransmissionRACK
| tcpRetransmissionSACKReneging
| tcpRetransmissionPathMTU
| tcpRetransmissionClose.

#[export] Instance tcpRetransmissionKind_eq_dec : EqDecision tcpRetransmissionKind.
Proof. solve_decision. Defined.

Inductive tcpRetransmissionUpdate :=
| tcpRetransmissionPreserve
| tcpRetransmissionReselect
| tcpRetransmissionRestart.

Inductive tcpOrdinaryOutputKind :=
| tcpOrdinaryOutputNone
| tcpOrdinaryOutputData
| tcpOrdinaryOutputFIN
| tcpOrdinaryOutputACK.

(** The errors an established connection ends with; a network error keeps its
    identity only. *)
Inductive tcpError :=
| ErrDeadlineExceeded
| ETIMEDOUT
| NetworkError (identity : Z).

(** ** Sub-records *)

Record KeepAliveConfig := mkKeepAlive {
  ka_Idle : Z;
  ka_Interval : Z;
  ka_Count : Z }.

(** The congestion factory and pacing limit are arguments where they are used. *)
Record tcpSocketOptions := mkSocketOptions {
  so_keepAlive : bool;
  so_keepAliveConfig : KeepAliveConfig;
  so_idleTimeout : Z;
  so_userTimeout : Z;
  so_noDelay : bool }.

Record tcpEstablishedLivenessState := mkLiveness {
  lv_lastKeepAlive : Z;
  lv_lastSoftError : option tcpError;
  lv_keepAliveProbes : Z;
  lv_keepAliveEnabledAt : Z }.

#[export] Instance tcpEstablishedLivenessState_settable : Settable tcpEstablishedLivenessState := fun l =>
  mkLiveness (lv_lastKeepAlive l) (lv_lastSoftError l) (lv_keepAliveProbes l) (lv_keepAliveEnabledAt l).

Definition zeroLiveness : tcpEstablishedLivenessState := mkLiveness 0 None 0 0.

Record tcpEstablishedPathMTUState := mkPathMTU {
  pm_discovery : tcpPLPMTU;
  pm_blackHoleExpiry : Z;
  pm_probes : Z;
  pm_successes : Z;
  pm_failures : Z;
  pm_blackHoleMTU : Z }.

#[export] Instance tcpEstablishedPathMTUState_settable : Settable tcpEstablishedPathMTUState := fun p =>
  mkPathMTU (pm_discovery p) (pm_blackHoleExpiry p) (pm_probes p) (pm_successes p) (pm_failures p)
    (pm_blackHoleMTU p).

Definition zeroPathMTU : tcpEstablishedPathMTUState := mkPathMTU zeroPlpmtu 0 0 0 0 0.

Record tcpSendTimerState := mkSendTimer {
  sm_baseDeadline : Z;
  sm_persistRTO : Z;
  sm_persistSince : Z;
  sm_persistHostQueueToken : Z }.

#[export] Instance tcpSendTimerState_settable : Settable tcpSendTimerState := fun t =>
  mkSendTimer (sm_baseDeadline t) (sm_persistRTO t) (sm_persistSince t) (sm_persistHostQueueToken t).

(** ** The connection and the actor's state *)

Record connState := mkConn {
  cn_mtu : Z;
  cn_local : Addr * Z;
  cn_remote : Addr * Z;
  cn_passive : bool;
  cn_forwarded : bool;
  cn_peerMSS : Z;
  cn_peerWindowScaling : bool;
  cn_peerWindowScale : Z;
  cn_peerSACK : bool;
  cn_peerWindow : Z;
  cn_peerWindowSeq : Z;
  cn_receiveNext : Z;
  cn_receiveWindowScale : Z;
  cn_handshakeTimeout : bool;
  cn_handshakeRTT : Z;
  cn_peerTimestamp : bool;
  cn_recentTimestamp : Z;
  cn_peerECN : bool;
  cn_sendCWR : bool;
  cn_echoCongestion : bool;
  cn_applicationReads : Z;
  cn_receive : recvConn;
  cn_receiveAutoTune : bool;
  cn_receiveMaximum : Z;
  cn_sendBuffer : tcpSendBuffer;
  cn_sendLimited : bool;
  cn_writeClosed : bool;
  cn_sendAutoTune : bool;
  cn_sendCapacity : Z;
  cn_sendMaximum : Z;
  cn_icmpRange : Z * Z;
  cn_lingerDone : bool;
  cn_options : tcpSocketOptions }.

#[export] Instance connState_settable : Settable connState := fun s =>
  mkConn (cn_mtu s) (cn_local s) (cn_remote s) (cn_passive s) (cn_forwarded s) (cn_peerMSS s) (cn_peerWindowScaling s)
    (cn_peerWindowScale s) (cn_peerSACK s) (cn_peerWindow s) (cn_peerWindowSeq s) (cn_receiveNext s)
    (cn_receiveWindowScale s) (cn_handshakeTimeout s) (cn_handshakeRTT s) (cn_peerTimestamp s) (cn_recentTimestamp s)
    (cn_peerECN s) (cn_sendCWR s) (cn_echoCongestion s) (cn_applicationReads s) (cn_receive s) (cn_receiveAutoTune s)
    (cn_receiveMaximum s) (cn_sendBuffer s) (cn_sendLimited s) (cn_writeClosed s) (cn_sendAutoTune s)
    (cn_sendCapacity s) (cn_sendMaximum s) (cn_icmpRange s) (cn_lingerDone s) (cn_options s).


Record tcpEstablishedState (A : Type) := mkEstablished {
  e_connection : connState;
  e_peerMSS : Z;
  e_pathMSS : Z;
  e_receiveMSS : Z;
  e_peerWindow : Z;
  e_peerWindowSequence : Z;
  e_maximumPeerWindow : Z;
  e_bytesAcknowledged : Z;
  e_bytesSent : Z;
  e_bytesReceived : Z;
  e_sendUnacknowledged : Z;
  e_sendNext : Z;
  e_receiveNext : Z;
  e_congestionWindow : Z;
  e_slowStartThreshold : Z;
  e_ecnRecoveryPoint : Z;
  e_outstanding : list sentTCPSegment;
  e_outOfOrder : list tcpReceivedPiece;
  e_outOfOrderBytes : Z;
  e_recentDSACK : TCPSACKBlock;
  e_duplicateACKs : Z;
  e_recoveryPoint : Z;
  e_rtoRecoveryPoint : Z;
  e_prrPriorFlight : Z;
  e_recentSACK : Z;
  e_prrDelivered : Z;
  e_prrOut : Z;
  e_lastACKSent : Z;
  e_tailProbeEnd : Z;
  e_tailProbeBytes : Z;
  e_tailProbeState : Z;
  e_tailProbeRTTSamples : Z;
  e_rtoAttempts : Z;
  e_blackHoleRTOs : Z;
  e_lastTimestampUpdate : Z;
  e_controller : tcpCongestionController A;
  e_rackLatestDelivered : tcpRACKSample;
  e_rackForwardACK : Z;
  e_rackReorderingScale : Z;
  e_rackDSACKRound : Z;
  e_rackReorderPersist : Z;
  e_ecnHoldUntil : Z;
  e_lastTransmission : Z;
  e_cwndUsageStamp : Z;
  e_cwndUsed : Z;
  e_transmissionOrder : Z;
  e_receiveAutoTune : tcpBufferAutoTune;
  e_sendAutoTune : tcpBufferAutoTune;
  e_hyStart : tcpHyStart;
  e_undo : option tcpRecoveryUndo;
  e_eifelRTO : option tcpEifelRTOResponse;
  e_retransmitHistory : option tcpRetransmissionHistory;
  e_sackedRanges : Z;
  e_sackedBytes : Z;
  e_rtt : rttEstimator;
  e_retransmissionDeadline : Z;
  e_sendTimer : tcpSendTimerState;
  e_delayedACKDeadline : Z;
  e_livenessDeadline : Z;
  e_pathMTUDeadline : Z;
  e_pacingDeadline : Z;
  e_deliverySample : option CongestionRateSample;
  e_lastDataReceived : Z;
  e_lastAdvertisedWindow : Z;
  e_lastReceiveSegmentSize : Z;
  e_receiveWindowState : tcpReceiveWindow;
  e_lastActivity : Z;
  e_eventTime : Z;
  e_livenessState : option tcpEstablishedLivenessState;
  e_pathMTUState : option tcpEstablishedPathMTUState;
  e_peerScale : Z;
  e_quickACKBudget : Z;
  e_sackACKs : Z;
  e_compressedSACKs : Z;
  e_frtoProbeBudget : Z;
  e_peerSACK : bool;
  e_haveRecentDSACK : bool;
  e_localFINSent : bool;
  e_localFINAcked : bool;
  e_remoteFINReceived : bool;
  e_timeWaitRequired : bool;
  e_finWaitArmed : bool;
  e_timeWaitArmed : bool;
  e_fastRecovery : bool;
  e_limitedTransmitActive : bool;
  e_tailProbeActive : bool;
  e_tailProbeRetransmit : bool;
  e_rtoRecovery : bool;
  e_sackRenegingRecovery : bool;
  e_ecnRecoveryActive : bool;
  e_ecnDataSeen : bool;
  e_rackForwardACKSet : bool;
  e_rackReorderingSeen : bool;
  e_rackDSACKRoundSet : bool;
  e_seenDSACK : bool;
  e_dsackUndoDisabled : bool;
  e_haveRACKLoss : bool;
  e_retransmit : bool;
  e_persist : bool;
  e_delayedACK : bool;
  e_ackPending : bool;
  e_ackPingPong : bool;
  e_liveness : bool;
  e_pathMTUProbe : bool;
  e_pacing : bool;
  e_retransmissionKind : tcpRetransmissionKind;
  e_frtoState : tcpFRTOState;
  e_persistUnanswered : Z;
  e_persistClosed : Z }.
Arguments mkEstablished {A}.
Arguments e_connection {A}.
Arguments e_peerMSS {A}.
Arguments e_pathMSS {A}.
Arguments e_receiveMSS {A}.
Arguments e_peerWindow {A}.
Arguments e_peerWindowSequence {A}.
Arguments e_maximumPeerWindow {A}.
Arguments e_bytesAcknowledged {A}.
Arguments e_bytesSent {A}.
Arguments e_bytesReceived {A}.
Arguments e_sendUnacknowledged {A}.
Arguments e_sendNext {A}.
Arguments e_receiveNext {A}.
Arguments e_congestionWindow {A}.
Arguments e_slowStartThreshold {A}.
Arguments e_ecnRecoveryPoint {A}.
Arguments e_outstanding {A}.
Arguments e_outOfOrder {A}.
Arguments e_outOfOrderBytes {A}.
Arguments e_recentDSACK {A}.
Arguments e_duplicateACKs {A}.
Arguments e_recoveryPoint {A}.
Arguments e_rtoRecoveryPoint {A}.
Arguments e_prrPriorFlight {A}.
Arguments e_recentSACK {A}.
Arguments e_prrDelivered {A}.
Arguments e_prrOut {A}.
Arguments e_lastACKSent {A}.
Arguments e_tailProbeEnd {A}.
Arguments e_tailProbeBytes {A}.
Arguments e_tailProbeState {A}.
Arguments e_tailProbeRTTSamples {A}.
Arguments e_rtoAttempts {A}.
Arguments e_blackHoleRTOs {A}.
Arguments e_lastTimestampUpdate {A}.
Arguments e_controller {A}.
Arguments e_rackLatestDelivered {A}.
Arguments e_rackForwardACK {A}.
Arguments e_rackReorderingScale {A}.
Arguments e_rackDSACKRound {A}.
Arguments e_rackReorderPersist {A}.
Arguments e_ecnHoldUntil {A}.
Arguments e_lastTransmission {A}.
Arguments e_cwndUsageStamp {A}.
Arguments e_cwndUsed {A}.
Arguments e_transmissionOrder {A}.
Arguments e_receiveAutoTune {A}.
Arguments e_sendAutoTune {A}.
Arguments e_hyStart {A}.
Arguments e_undo {A}.
Arguments e_eifelRTO {A}.
Arguments e_retransmitHistory {A}.
Arguments e_sackedRanges {A}.
Arguments e_sackedBytes {A}.
Arguments e_rtt {A}.
Arguments e_retransmissionDeadline {A}.
Arguments e_sendTimer {A}.
Arguments e_delayedACKDeadline {A}.
Arguments e_livenessDeadline {A}.
Arguments e_pathMTUDeadline {A}.
Arguments e_pacingDeadline {A}.
Arguments e_deliverySample {A}.
Arguments e_lastDataReceived {A}.
Arguments e_lastAdvertisedWindow {A}.
Arguments e_lastReceiveSegmentSize {A}.
Arguments e_receiveWindowState {A}.
Arguments e_lastActivity {A}.
Arguments e_eventTime {A}.
Arguments e_livenessState {A}.
Arguments e_pathMTUState {A}.
Arguments e_peerScale {A}.
Arguments e_quickACKBudget {A}.
Arguments e_sackACKs {A}.
Arguments e_compressedSACKs {A}.
Arguments e_frtoProbeBudget {A}.
Arguments e_peerSACK {A}.
Arguments e_haveRecentDSACK {A}.
Arguments e_localFINSent {A}.
Arguments e_localFINAcked {A}.
Arguments e_remoteFINReceived {A}.
Arguments e_timeWaitRequired {A}.
Arguments e_finWaitArmed {A}.
Arguments e_timeWaitArmed {A}.
Arguments e_fastRecovery {A}.
Arguments e_limitedTransmitActive {A}.
Arguments e_tailProbeActive {A}.
Arguments e_tailProbeRetransmit {A}.
Arguments e_rtoRecovery {A}.
Arguments e_sackRenegingRecovery {A}.
Arguments e_ecnRecoveryActive {A}.
Arguments e_ecnDataSeen {A}.
Arguments e_rackForwardACKSet {A}.
Arguments e_rackReorderingSeen {A}.
Arguments e_rackDSACKRoundSet {A}.
Arguments e_seenDSACK {A}.
Arguments e_dsackUndoDisabled {A}.
Arguments e_haveRACKLoss {A}.
Arguments e_retransmit {A}.
Arguments e_persist {A}.
Arguments e_delayedACK {A}.
Arguments e_ackPending {A}.
Arguments e_ackPingPong {A}.
Arguments e_liveness {A}.
Arguments e_pathMTUProbe {A}.
Arguments e_pacing {A}.
Arguments e_retransmissionKind {A}.
Arguments e_frtoState {A}.
Arguments e_persistUnanswered {A}.
Arguments e_persistClosed {A}.

#[export] Instance tcpEstablishedState_settable A : Settable (tcpEstablishedState A) := fun s =>
  mkEstablished (e_connection s) (e_peerMSS s) (e_pathMSS s) (e_receiveMSS s) (e_peerWindow s)
    (e_peerWindowSequence s) (e_maximumPeerWindow s) (e_bytesAcknowledged s) (e_bytesSent s) (e_bytesReceived s)
    (e_sendUnacknowledged s) (e_sendNext s) (e_receiveNext s) (e_congestionWindow s) (e_slowStartThreshold s)
    (e_ecnRecoveryPoint s) (e_outstanding s) (e_outOfOrder s) (e_outOfOrderBytes s) (e_recentDSACK s)
    (e_duplicateACKs s) (e_recoveryPoint s) (e_rtoRecoveryPoint s) (e_prrPriorFlight s) (e_recentSACK s)
    (e_prrDelivered s) (e_prrOut s) (e_lastACKSent s) (e_tailProbeEnd s) (e_tailProbeBytes s) (e_tailProbeState s)
    (e_tailProbeRTTSamples s) (e_rtoAttempts s) (e_blackHoleRTOs s) (e_lastTimestampUpdate s) (e_controller s)
    (e_rackLatestDelivered s) (e_rackForwardACK s) (e_rackReorderingScale s) (e_rackDSACKRound s)
    (e_rackReorderPersist s) (e_ecnHoldUntil s) (e_lastTransmission s) (e_cwndUsageStamp s) (e_cwndUsed s)
    (e_transmissionOrder s) (e_receiveAutoTune s) (e_sendAutoTune s) (e_hyStart s) (e_undo s) (e_eifelRTO s)
    (e_retransmitHistory s) (e_sackedRanges s) (e_sackedBytes s) (e_rtt s) (e_retransmissionDeadline s)
    (e_sendTimer s) (e_delayedACKDeadline s) (e_livenessDeadline s) (e_pathMTUDeadline s) (e_pacingDeadline s)
    (e_deliverySample s) (e_lastDataReceived s) (e_lastAdvertisedWindow s) (e_lastReceiveSegmentSize s)
    (e_receiveWindowState s) (e_lastActivity s) (e_eventTime s) (e_livenessState s) (e_pathMTUState s) (e_peerScale s)
    (e_quickACKBudget s) (e_sackACKs s) (e_compressedSACKs s) (e_frtoProbeBudget s) (e_peerSACK s)
    (e_haveRecentDSACK s) (e_localFINSent s) (e_localFINAcked s) (e_remoteFINReceived s) (e_timeWaitRequired s)
    (e_finWaitArmed s) (e_timeWaitArmed s) (e_fastRecovery s) (e_limitedTransmitActive s) (e_tailProbeActive s)
    (e_tailProbeRetransmit s) (e_rtoRecovery s) (e_sackRenegingRecovery s) (e_ecnRecoveryActive s) (e_ecnDataSeen s)
    (e_rackForwardACKSet s) (e_rackReorderingSeen s) (e_rackDSACKRoundSet s) (e_seenDSACK s) (e_dsackUndoDisabled s)
    (e_haveRACKLoss s) (e_retransmit s) (e_persist s) (e_delayedACK s) (e_ackPending s) (e_ackPingPong s)
    (e_liveness s) (e_pathMTUProbe s) (e_pacing s) (e_retransmissionKind s) (e_frtoState s) (e_persistUnanswered s)
    (e_persistClosed s).

#[export] Instance e_connection_setter A : Setter (@e_connection A) := ltac:(solve_setter).
#[export] Instance e_peerMSS_setter A : Setter (@e_peerMSS A) := ltac:(solve_setter).
#[export] Instance e_pathMSS_setter A : Setter (@e_pathMSS A) := ltac:(solve_setter).
#[export] Instance e_receiveMSS_setter A : Setter (@e_receiveMSS A) := ltac:(solve_setter).
#[export] Instance e_peerWindow_setter A : Setter (@e_peerWindow A) := ltac:(solve_setter).
#[export] Instance e_peerWindowSequence_setter A : Setter (@e_peerWindowSequence A) := ltac:(solve_setter).
#[export] Instance e_maximumPeerWindow_setter A : Setter (@e_maximumPeerWindow A) := ltac:(solve_setter).
#[export] Instance e_bytesAcknowledged_setter A : Setter (@e_bytesAcknowledged A) := ltac:(solve_setter).
#[export] Instance e_bytesSent_setter A : Setter (@e_bytesSent A) := ltac:(solve_setter).
#[export] Instance e_bytesReceived_setter A : Setter (@e_bytesReceived A) := ltac:(solve_setter).
#[export] Instance e_sendUnacknowledged_setter A : Setter (@e_sendUnacknowledged A) := ltac:(solve_setter).
#[export] Instance e_sendNext_setter A : Setter (@e_sendNext A) := ltac:(solve_setter).
#[export] Instance e_receiveNext_setter A : Setter (@e_receiveNext A) := ltac:(solve_setter).
#[export] Instance e_congestionWindow_setter A : Setter (@e_congestionWindow A) := ltac:(solve_setter).
#[export] Instance e_slowStartThreshold_setter A : Setter (@e_slowStartThreshold A) := ltac:(solve_setter).
#[export] Instance e_ecnRecoveryPoint_setter A : Setter (@e_ecnRecoveryPoint A) := ltac:(solve_setter).
#[export] Instance e_outstanding_setter A : Setter (@e_outstanding A) := ltac:(solve_setter).
#[export] Instance e_outOfOrder_setter A : Setter (@e_outOfOrder A) := ltac:(solve_setter).
#[export] Instance e_outOfOrderBytes_setter A : Setter (@e_outOfOrderBytes A) := ltac:(solve_setter).
#[export] Instance e_recentDSACK_setter A : Setter (@e_recentDSACK A) := ltac:(solve_setter).
#[export] Instance e_duplicateACKs_setter A : Setter (@e_duplicateACKs A) := ltac:(solve_setter).
#[export] Instance e_recoveryPoint_setter A : Setter (@e_recoveryPoint A) := ltac:(solve_setter).
#[export] Instance e_rtoRecoveryPoint_setter A : Setter (@e_rtoRecoveryPoint A) := ltac:(solve_setter).
#[export] Instance e_prrPriorFlight_setter A : Setter (@e_prrPriorFlight A) := ltac:(solve_setter).
#[export] Instance e_recentSACK_setter A : Setter (@e_recentSACK A) := ltac:(solve_setter).
#[export] Instance e_prrDelivered_setter A : Setter (@e_prrDelivered A) := ltac:(solve_setter).
#[export] Instance e_prrOut_setter A : Setter (@e_prrOut A) := ltac:(solve_setter).
#[export] Instance e_lastACKSent_setter A : Setter (@e_lastACKSent A) := ltac:(solve_setter).
#[export] Instance e_tailProbeEnd_setter A : Setter (@e_tailProbeEnd A) := ltac:(solve_setter).
#[export] Instance e_tailProbeBytes_setter A : Setter (@e_tailProbeBytes A) := ltac:(solve_setter).
#[export] Instance e_tailProbeState_setter A : Setter (@e_tailProbeState A) := ltac:(solve_setter).
#[export] Instance e_tailProbeRTTSamples_setter A : Setter (@e_tailProbeRTTSamples A) := ltac:(solve_setter).
#[export] Instance e_rtoAttempts_setter A : Setter (@e_rtoAttempts A) := ltac:(solve_setter).
#[export] Instance e_blackHoleRTOs_setter A : Setter (@e_blackHoleRTOs A) := ltac:(solve_setter).
#[export] Instance e_lastTimestampUpdate_setter A : Setter (@e_lastTimestampUpdate A) := ltac:(solve_setter).
#[export] Instance e_controller_setter A : Setter (@e_controller A) := ltac:(solve_setter).
#[export] Instance e_rackLatestDelivered_setter A : Setter (@e_rackLatestDelivered A) := ltac:(solve_setter).
#[export] Instance e_rackForwardACK_setter A : Setter (@e_rackForwardACK A) := ltac:(solve_setter).
#[export] Instance e_rackReorderingScale_setter A : Setter (@e_rackReorderingScale A) := ltac:(solve_setter).
#[export] Instance e_rackDSACKRound_setter A : Setter (@e_rackDSACKRound A) := ltac:(solve_setter).
#[export] Instance e_rackReorderPersist_setter A : Setter (@e_rackReorderPersist A) := ltac:(solve_setter).
#[export] Instance e_ecnHoldUntil_setter A : Setter (@e_ecnHoldUntil A) := ltac:(solve_setter).
#[export] Instance e_lastTransmission_setter A : Setter (@e_lastTransmission A) := ltac:(solve_setter).
#[export] Instance e_cwndUsageStamp_setter A : Setter (@e_cwndUsageStamp A) := ltac:(solve_setter).
#[export] Instance e_cwndUsed_setter A : Setter (@e_cwndUsed A) := ltac:(solve_setter).
#[export] Instance e_transmissionOrder_setter A : Setter (@e_transmissionOrder A) := ltac:(solve_setter).
#[export] Instance e_receiveAutoTune_setter A : Setter (@e_receiveAutoTune A) := ltac:(solve_setter).
#[export] Instance e_sendAutoTune_setter A : Setter (@e_sendAutoTune A) := ltac:(solve_setter).
#[export] Instance e_hyStart_setter A : Setter (@e_hyStart A) := ltac:(solve_setter).
#[export] Instance e_undo_setter A : Setter (@e_undo A) := ltac:(solve_setter).
#[export] Instance e_eifelRTO_setter A : Setter (@e_eifelRTO A) := ltac:(solve_setter).
#[export] Instance e_retransmitHistory_setter A : Setter (@e_retransmitHistory A) := ltac:(solve_setter).
#[export] Instance e_sackedRanges_setter A : Setter (@e_sackedRanges A) := ltac:(solve_setter).
#[export] Instance e_sackedBytes_setter A : Setter (@e_sackedBytes A) := ltac:(solve_setter).
#[export] Instance e_rtt_setter A : Setter (@e_rtt A) := ltac:(solve_setter).
#[export] Instance e_retransmissionDeadline_setter A : Setter (@e_retransmissionDeadline A) := ltac:(solve_setter).
#[export] Instance e_sendTimer_setter A : Setter (@e_sendTimer A) := ltac:(solve_setter).
#[export] Instance e_delayedACKDeadline_setter A : Setter (@e_delayedACKDeadline A) := ltac:(solve_setter).
#[export] Instance e_livenessDeadline_setter A : Setter (@e_livenessDeadline A) := ltac:(solve_setter).
#[export] Instance e_pathMTUDeadline_setter A : Setter (@e_pathMTUDeadline A) := ltac:(solve_setter).
#[export] Instance e_pacingDeadline_setter A : Setter (@e_pacingDeadline A) := ltac:(solve_setter).
#[export] Instance e_deliverySample_setter A : Setter (@e_deliverySample A) := ltac:(solve_setter).
#[export] Instance e_lastDataReceived_setter A : Setter (@e_lastDataReceived A) := ltac:(solve_setter).
#[export] Instance e_lastAdvertisedWindow_setter A : Setter (@e_lastAdvertisedWindow A) := ltac:(solve_setter).
#[export] Instance e_lastReceiveSegmentSize_setter A : Setter (@e_lastReceiveSegmentSize A) := ltac:(solve_setter).
#[export] Instance e_receiveWindowState_setter A : Setter (@e_receiveWindowState A) := ltac:(solve_setter).
#[export] Instance e_lastActivity_setter A : Setter (@e_lastActivity A) := ltac:(solve_setter).
#[export] Instance e_eventTime_setter A : Setter (@e_eventTime A) := ltac:(solve_setter).
#[export] Instance e_livenessState_setter A : Setter (@e_livenessState A) := ltac:(solve_setter).
#[export] Instance e_pathMTUState_setter A : Setter (@e_pathMTUState A) := ltac:(solve_setter).
#[export] Instance e_peerScale_setter A : Setter (@e_peerScale A) := ltac:(solve_setter).
#[export] Instance e_quickACKBudget_setter A : Setter (@e_quickACKBudget A) := ltac:(solve_setter).
#[export] Instance e_sackACKs_setter A : Setter (@e_sackACKs A) := ltac:(solve_setter).
#[export] Instance e_compressedSACKs_setter A : Setter (@e_compressedSACKs A) := ltac:(solve_setter).
#[export] Instance e_frtoProbeBudget_setter A : Setter (@e_frtoProbeBudget A) := ltac:(solve_setter).
#[export] Instance e_peerSACK_setter A : Setter (@e_peerSACK A) := ltac:(solve_setter).
#[export] Instance e_haveRecentDSACK_setter A : Setter (@e_haveRecentDSACK A) := ltac:(solve_setter).
#[export] Instance e_localFINSent_setter A : Setter (@e_localFINSent A) := ltac:(solve_setter).
#[export] Instance e_localFINAcked_setter A : Setter (@e_localFINAcked A) := ltac:(solve_setter).
#[export] Instance e_remoteFINReceived_setter A : Setter (@e_remoteFINReceived A) := ltac:(solve_setter).
#[export] Instance e_timeWaitRequired_setter A : Setter (@e_timeWaitRequired A) := ltac:(solve_setter).
#[export] Instance e_finWaitArmed_setter A : Setter (@e_finWaitArmed A) := ltac:(solve_setter).
#[export] Instance e_timeWaitArmed_setter A : Setter (@e_timeWaitArmed A) := ltac:(solve_setter).
#[export] Instance e_fastRecovery_setter A : Setter (@e_fastRecovery A) := ltac:(solve_setter).
#[export] Instance e_limitedTransmitActive_setter A : Setter (@e_limitedTransmitActive A) := ltac:(solve_setter).
#[export] Instance e_tailProbeActive_setter A : Setter (@e_tailProbeActive A) := ltac:(solve_setter).
#[export] Instance e_tailProbeRetransmit_setter A : Setter (@e_tailProbeRetransmit A) := ltac:(solve_setter).
#[export] Instance e_rtoRecovery_setter A : Setter (@e_rtoRecovery A) := ltac:(solve_setter).
#[export] Instance e_sackRenegingRecovery_setter A : Setter (@e_sackRenegingRecovery A) := ltac:(solve_setter).
#[export] Instance e_ecnRecoveryActive_setter A : Setter (@e_ecnRecoveryActive A) := ltac:(solve_setter).
#[export] Instance e_ecnDataSeen_setter A : Setter (@e_ecnDataSeen A) := ltac:(solve_setter).
#[export] Instance e_rackForwardACKSet_setter A : Setter (@e_rackForwardACKSet A) := ltac:(solve_setter).
#[export] Instance e_rackReorderingSeen_setter A : Setter (@e_rackReorderingSeen A) := ltac:(solve_setter).
#[export] Instance e_rackDSACKRoundSet_setter A : Setter (@e_rackDSACKRoundSet A) := ltac:(solve_setter).
#[export] Instance e_seenDSACK_setter A : Setter (@e_seenDSACK A) := ltac:(solve_setter).
#[export] Instance e_dsackUndoDisabled_setter A : Setter (@e_dsackUndoDisabled A) := ltac:(solve_setter).
#[export] Instance e_haveRACKLoss_setter A : Setter (@e_haveRACKLoss A) := ltac:(solve_setter).
#[export] Instance e_retransmit_setter A : Setter (@e_retransmit A) := ltac:(solve_setter).
#[export] Instance e_persist_setter A : Setter (@e_persist A) := ltac:(solve_setter).
#[export] Instance e_delayedACK_setter A : Setter (@e_delayedACK A) := ltac:(solve_setter).
#[export] Instance e_ackPending_setter A : Setter (@e_ackPending A) := ltac:(solve_setter).
#[export] Instance e_ackPingPong_setter A : Setter (@e_ackPingPong A) := ltac:(solve_setter).
#[export] Instance e_liveness_setter A : Setter (@e_liveness A) := ltac:(solve_setter).
#[export] Instance e_pathMTUProbe_setter A : Setter (@e_pathMTUProbe A) := ltac:(solve_setter).
#[export] Instance e_pacing_setter A : Setter (@e_pacing A) := ltac:(solve_setter).
#[export] Instance e_retransmissionKind_setter A : Setter (@e_retransmissionKind A) := ltac:(solve_setter).
#[export] Instance e_frtoState_setter A : Setter (@e_frtoState A) := ltac:(solve_setter).
#[export] Instance e_persistUnanswered_setter A : Setter (@e_persistUnanswered A) := ltac:(solve_setter).
#[export] Instance e_persistClosed_setter A : Setter (@e_persistClosed A) := ltac:(solve_setter).

(** Reading a field of an updated record: [get] rewrites [f (s <| g := v |>)]. *)
Ltac get_set :=
  repeat match goal with
  | |- context [?f (@set_field _ _ ?g ?i ?v ?s)] =>
      let _ := constr:(_ : Setter f) in
      first [ constr_eq f g; change (f (@set_field _ _ g i v s)) with v
            | change (f (@set_field _ _ g i v s)) with (f s) ]
  end.

(** [monotonicStamp] zero is "never". *)
Definition isSet (deadline : Z) : bool := negb (deadline =? 0).

Section Established.

Context {A : Type} `{CongestionController A}.

(** The value of a float conversion out of range, and the stack's timestamp
    epoch. *)
Variable outside : float64 -> Z.
Variable epoch : Z.

Implicit Type s : tcpEstablishedState A.

Notation estate := (tcpEstablishedState A).

(** Updating the connection behind the state. *)
Definition withConn s (f : connState -> connState) : estate := s <| e_connection := f (e_connection s) |>.

Definition head_has s (flag : Z) : bool :=
  match e_outstanding s with [] => false | segment :: _ => hasState segment flag end.

Definition noOutstanding s : bool := zlen (e_outstanding s) =? 0.

Definition ensureLivenessState s : tcpEstablishedLivenessState := default zeroLiveness (e_livenessState s).
Definition ensurePathMTUState s : tcpEstablishedPathMTUState := default zeroPathMTU (e_pathMTUState s).

(** ** Flight *)

Definition ordinaryFlight s : Z :=
  let flight := e_sendNext s ⊟ e_sendUnacknowledged s in
  if flight <? e_sackedBytes s then 0 else flight ⊟ e_sackedBytes s.

Definition congestionFlight s : Z :=
  if e_peerSACK s && e_fastRecovery s then sackRecoveryPipe (e_outstanding s) (e_peerMSS s)
  else ordinaryFlight s.

Definition recountSACK s : estate :=
  let '(ranges, bytes) := tcpSACKedState (e_outstanding s) in
  s <| e_sackedRanges := ranges |> <| e_sackedBytes := bytes |>.

Definition recordRetransmission s (start stop : Z) : estate :=
  s <| e_retransmitHistory := Some (hi_record (default [] (e_retransmitHistory s)) start stop) |>.

(** [clock] is read when [observedAt] is zero. *)
Definition recordProvenLosses s (duringACK : bool) (observedAt clock : Z) : estate :=
  if negb (usesLossEvents (e_controller s)) then
    let '(outstanding, losses) := recordProvenTCPLosses (e_outstanding s) (e_peerMSS s) in
    s <| e_outstanding := outstanding |>
      <| e_controller := cc_noteLoss (e_controller s) losses duringACK |>
  else
    let observedAt := if isSet observedAt then observedAt else clock in
    let '(outstanding, _, reports) := recordProvenTCPLossesWith (e_outstanding s) (e_peerMSS s) in
    let flight := congestionFlight s in
    s <| e_outstanding := outstanding |>
      <| e_controller := foldl (fun c '(segment, bytes) =>
           notePacketLoss c (Some segment) bytes duringACK true observedAt (e_congestionWindow s)
             (e_slowStartThreshold s) flight (e_peerMSS s) (rt_srtt (e_rtt s))) (e_controller s) reports |>.

(** ** The public TCP state *)

Definition connectionState s : TCPState :=
  if e_timeWaitArmed s then TCPStateTimeWait
  else if negb (e_localFINSent s) && e_remoteFINReceived s then TCPStateCloseWait
  else if negb (e_localFINSent s) then TCPStateEstablished
  else if negb (e_localFINAcked s) && negb (e_timeWaitRequired s) then TCPStateLastACK
  else if negb (e_localFINAcked s) && e_remoteFINReceived s then TCPStateClosing
  else if negb (e_localFINAcked s) then TCPStateFINWait1
  else if negb (e_remoteFINReceived s) then TCPStateFINWait2
  else TCPStateClosed.

Definition acceptsResetException s (sequence receiveWindow : Z) : bool :=
  if sequence =? e_receiveNext s then false
  else if (e_remoteFINReceived s && (sequence =? e_receiveNext s ⊟ 1))
          && match connectionState s with
             | TCPStateCloseWait | TCPStateLastACK | TCPStateClosing => true
             | _ => false
             end
  then true
  else if negb (e_peerSACK s) || (zlen (e_outOfOrder s) =? 0)
          || (receiveWindow <? sequence ⊟ e_receiveNext s) then false
  else
    match idx (e_outOfOrder s) (zlen (e_outOfOrder s) - 1) with
    | None => false
    | Some piece => sequence =? pieceRight piece
    end.

(** ** Receive window *)

Definition nextAdvertisedReceiveWindow s : Z * Z * Z :=
  let '(available, capacity) := receiveSpace (cn_receive (e_connection s)) (e_outOfOrderBytes s) in
  rw_next (e_receiveWindowState s) (e_receiveNext s) available (tcpReceiveWindowIncrease capacity (e_receiveMSS s)).

(** [routeMTU] is the stack's route MTU for the peer. *)
Definition effectivePathMTU s (routeMTU : Z) : Z :=
  match e_pathMTUState s with
  | Some p => if (0 <? pm_blackHoleMTU p) && (pm_blackHoleMTU p <? routeMTU) then pm_blackHoleMTU p else routeMTU
  | None => routeMTU
  end.

Definition armPacingAt s (deadline : Z) : estate :=
  s <| e_pacing := true |> <| e_pacingDeadline := deadline |>.

(** [sendState]: queued bytes and the write side. *)
Definition sendTotal s : Z := sb_size (cn_sendBuffer (e_connection s)).

Definition keepAliveEligible s : bool :=
  if negb (noOutstanding s) then false
  else
    let offset := e_sendNext s ⊟ e_sendUnacknowledged s in
    (sendTotal s <=? offset) && (negb (cn_writeClosed (e_connection s)) || e_localFINSent s).

(** ** Deadlines; zero is no deadline *)

Definition firstSentAt s (index : Z) : Z :=
  match idx (e_outstanding s) index with Some segment => epoch + st_firstSent segment | None => 0 end.

Definition userTimeoutDeadline s (timeout : Z) : Z :=
  if timeout <=? 0 then 0
  else
    let oldest :=
      if negb (noOutstanding s)
      then firstSentAt s (if negb (e_sackedRanges s =? 0) then firstUnsackedSegment (e_outstanding s) else 0)
      else 0 in
    let oldest :=
      if noOutstanding s && (e_peerWindow s =? 0) && negb (sm_persistSince (e_sendTimer s) =? 0)
      then stampTime (sm_persistSince (e_sendTimer s)) epoch else oldest in
    if isSet oldest then oldest + timeout else 0.

Definition zeroWindowDeadline s (userTimeout : Z) : Z :=
  if negb (e_peerWindow s =? 0) || noOutstanding s then 0
  else
    let started := firstSentAt s 0 in
    if 0 <? userTimeout then started + userTimeout
    else
      let started := if isSet (e_lastActivity s) && (started <? e_lastActivity s) then e_lastActivity s else started in
      started + tcpZeroWindowOutstandingTimeout.

Definition ageRACKReordering s : estate :=
  if e_rackReorderPersist s <=? 0 then s
  else
    let s := s <| e_rackReorderPersist := e_rackReorderPersist s - 1 |> in
    if e_rackReorderPersist s =? 0 then s <| e_rackReorderingScale := 1 |> else s.

Definition observeRACKReordering s (stop : Z) (retransmitted : bool) : estate :=
  let '(forward, set, seen) := rackAdvanceForwardACK (e_rackForwardACK s) (e_rackForwardACKSet s) stop retransmitted in
  let s := s <| e_rackForwardACK := forward |> <| e_rackForwardACKSet := set |> in
  if seen then s <| e_rackReorderingSeen := true |> else s.

(** The window RACK waits for reordering. *)
Definition currentReorderingWindow s : Z :=
  if negb (e_rackReorderingSeen s)
     && (e_fastRecovery s || e_rtoRecovery s || (tcpDuplicateACKThreshold <=? e_sackedRanges s))
  then 0
  else rackReorderingWindow (rt_minimum (e_rtt s)) (rt_srtt (e_rtt s)) (e_rackReorderingScale s).

Definition rackDeadline s (now : Z) (haveSACKed : bool) : option Z :=
  if negb (e_peerSACK s) || noOutstanding s
     || (negb haveSACKed && negb (rk_retransmitted (e_rackLatestDelivered s))) then None
  else
    let '(delay, exists_) := rackLossDelay (e_outstanding s) (e_rackLatestDelivered s) now
                               (currentReorderingWindow s) epoch in
    if exists_ then Some (now + delay) else None.

Definition armClose s (startedAt duration clock : Z) : estate :=
  let startedAt := if isSet startedAt then startedAt else clock in
  s <| e_retransmissionDeadline := startedAt + duration |> <| e_retransmit := true |>
    <| e_retransmissionKind := tcpRetransmissionClose |>
    <| e_sendTimer := e_sendTimer s <| sm_baseDeadline := 0 |> |>.

Definition refreshTimeWaitTimer s (handledAt clock : Z) : estate :=
  let handledAt := if isSet handledAt then handledAt else clock in
  s <| e_retransmissionDeadline := handledAt + tcpTimeWaitDuration |>.

(** ** Acknowledgement policy *)

Definition clearDelayedACK s : estate :=
  s <| e_delayedACK := false |> <| e_delayedACKDeadline := 0 |> <| e_ackPending := false |>
    <| e_compressedSACKs := 0 |>.

Definition replenishQuickACK s (maximum : Z) : estate :=
  let quickACKs :=
    if 0 <? e_receiveMSS s then
      let n := rw_size (e_receiveWindowState s) (e_receiveNext s) / u32 (2 * u32 (e_receiveMSS s)) in
      if n =? 0 then 2 else n
    else 2 in
  let quickACKs := if maximum <? quickACKs then maximum else quickACKs in
  if e_quickACKBudget s <? u8 quickACKs then s <| e_quickACKBudget := u8 quickACKs |> else s.

Definition enterQuickACK s (maximum : Z) : estate :=
  replenishQuickACK s maximum <| e_ackPingPong := false |>.

Definition observeReceivedData s (receivedAt : Z) : estate :=
  let stamp := monotonicStampAt epoch receivedAt in
  let s :=
    if (e_lastDataReceived s =? 0)
       || ((e_lastDataReceived s <? stamp) && (rt_rto (e_rtt s) <? stamp - e_lastDataReceived s))
    then replenishQuickACK s tcpMaximumQuickACKs else s in
  s <| e_lastDataReceived := stamp |>.

Definition receiveActivityTime s : Z :=
  let activity := e_lastActivity s in
  if negb (e_lastDataReceived s =? 0) then
    let receivedAt := stampTime (e_lastDataReceived s) epoch in
    if activity <? receivedAt then receivedAt else activity
  else activity.

Definition keepAliveDeadline s (activity : Z) (config : KeepAliveConfig) : Z :=
  let deadline := activity + ka_Idle config in
  match e_livenessState s with
  | None => deadline
  | Some liveness =>
      if negb (lv_keepAliveEnabledAt liveness =? 0) then
        let enabledAt := stampTime (lv_keepAliveEnabledAt liveness) epoch in
        if activity <? enabledAt then enabledAt + ka_Idle config else deadline
      else if negb (lv_keepAliveProbes liveness =? 0) then
        let probeDeadline := lv_lastKeepAlive liveness + ka_Interval config in
        if deadline <? probeDeadline then probeDeadline else deadline
      else deadline
  end.

Definition observeDataECN s (ecn : Z) : estate * bool :=
  if ecn =? 0 then (s, e_ecnDataSeen s)
  else
    let s := s <| e_ecnDataSeen := true |> in
    if negb (ecn =? 3) || cn_echoCongestion (e_connection s) then (s, false)
    else (withConn s (fun c => c <| cn_echoCongestion := true |>), true).

Definition measureReceiveMSS s (segment : tcpSegment) : estate :=
  let fixedOptions := if cn_peerTimestamp (e_connection s) then tcpTimestampOptionSize else 0 in
  let optionSize := zlen (sg_options segment) in
  let segmentSize := zlen (sg_payload segment) in
  let segmentSize := if fixedOptions <? optionSize then segmentSize + (optionSize - fixedOptions) else segmentSize in
  if segmentSize <=? 0 then s
  else if e_receiveMSS s <=? segmentSize then
    let s :=
      if e_receiveMSS s <? segmentSize
      then s <| e_receiveMSS := if e_pathMSS s <? segmentSize then e_pathMSS s else segmentSize |> else s in
    s <| e_lastReceiveSegmentSize := 0 |>
  else if hasFlag (sg_flags segment) (TCPFlagPSH .| TCPFlagFIN)
          || ((segmentSize <? tcpMinimumPeerMSS) && (tcpMinimumPeerMSS <=? e_pathMSS s))
  then s <| e_lastReceiveSegmentSize := 0 |>
  else if e_lastReceiveSegmentSize s =? u16 segmentSize
  then s <| e_receiveMSS := segmentSize |> <| e_lastReceiveSegmentSize := 0 |>
  else s <| e_lastReceiveSegmentSize := u16 segmentSize |>.

Definition recordTransmission s (ticket : packetQueueTicket) : estate * Z :=
  let s := s <| e_lastTransmission := tk_queuedAt ticket |> in
  let order := u32 (e_transmissionOrder s + 1) in
  let order := if order =? 0 then 1 else order in
  (s <| e_transmissionOrder := order |>, order).

Definition observeSentData s (sentAt : Z) : estate :=
  if e_lastDataReceived s =? 0 then s
  else if (e_lastDataReceived s <=? sentAt) && (sentAt - e_lastDataReceived s <? tcpDelayedACKTimeout)
  then s <| e_ackPingPong := true |> else s.

Definition commitAcknowledgment s (window rightEdge reserve : Z) (selective : bool) : estate :=
  let pending := e_ackPending s in
  let selectivePending := e_peerSACK s && (negb (zlen (e_outOfOrder s) =? 0) || e_haveRecentDSACK s) in
  let satisfied := selective || negb selectivePending in
  let s := s <| e_receiveWindowState :=
                  e_receiveWindowState s <| rw_right := rightEdge |> <| rw_quantumReserve := reserve |> |>
             <| e_lastACKSent := e_receiveNext s |> <| e_lastAdvertisedWindow := window |> in
  let s := if pending && satisfied && negb (e_quickACKBudget s =? 0)
           then s <| e_quickACKBudget := e_quickACKBudget s - 1 |> else s in
  if satisfied then clearDelayedACK s else s.

Definition scheduleACK s (immediate data : bool) (receivedAt : Z) : estate * bool :=
  let s := s <| e_ackPending := true |> in
  let quick := data && negb (e_quickACKBudget s =? 0) && negb (e_ackPingPong s) in
  let fullSegments := data && (0 <? e_receiveMSS s)
                      && (u32 (e_receiveMSS s) <? e_receiveNext s ⊟ e_lastACKSent s) in
  if immediate || quick || fullSegments then (s, true)
  else (if negb (e_delayedACK s)
        then s <| e_delayedACKDeadline := receivedAt + tcpDelayedACKTimeout |> <| e_delayedACK := true |>
        else s, false).

Definition scheduleSACKACK s (receivedAt : Z) : estate * bool :=
  let s := s <| e_ackPending := true |> in
  if negb (e_quickACKBudget s =? 0) then (s, true)
  else if e_sackACKs s <? tcpDuplicateACKThreshold then (s <| e_sackACKs := e_sackACKs s + 1 |>, true)
  else if tcpMaximumCompressedSACKs <=? e_compressedSACKs s then (s, true)
  else
    let s := s <| e_compressedSACKs := e_compressedSACKs s + 1 |> in
    (if negb (e_delayedACK s)
     then s <| e_delayedACKDeadline := receivedAt + tcpCompressedSACKDelay (rt_srtt (e_rtt s)) |>
            <| e_delayedACK := true |>
     else s, false).

(** ** ACK output

    Publication is the embedding link's: [sent] says whether it took the
    packet. *)

Inductive tcpOutput :=
| OutputACK (sequence acknowledgement window : Z) (options : list Z).

Definition pendingDSACK s : option TCPSACKBlock := if e_haveRecentDSACK s then Some (e_recentDSACK s) else None.

(** The options, and whether the pending DSACK is among them. *)
Definition sackOptions s (reservePayload : Z) : option (list Z * bool) :=
  if negb (e_peerSACK s) || ((zlen (e_outOfOrder s) =? 0) && negb (e_haveRecentDSACK s)) then Some ([], false)
  else
    let c := e_connection s in
    let maximumBlocks := tcpSACKBlockLimit (cn_mtu c) (fst (cn_local c)) (cn_peerTimestamp c) reservePayload in
    options ← tcpSACKOptions (e_outOfOrder s) (e_recentSACK s) maximumBlocks (pendingDSACK s);
    Some (options, e_haveRecentDSACK s && (10 <=? zlen options)).

(** The loop of [sackOptionSize]: [fuel] bounds the pieces left of [index]. *)
Fixpoint sackSizeLoop (fuel : nat) (pieces : list tcpReceivedPiece) (index blocks maximum : Z) : Z :=
  match fuel with
  | O => blocks
  | S fuel =>
      if (0 <=? index) && (blocks <? maximum)
      then match tcpReceivedSACKBlockBackward pieces index with
           | Some (_, index) => sackSizeLoop fuel pieces index (blocks + 1) maximum
           | None => blocks
           end
      else blocks
  end.

Definition sackOptionSize s (reservePayload : Z) : Z :=
  if negb (e_peerSACK s) || ((zlen (e_outOfOrder s) =? 0) && negb (e_haveRecentDSACK s)) then 0
  else
    let c := e_connection s in
    let maximum := tcpSACKBlockLimit (cn_mtu c) (fst (cn_local c)) (cn_peerTimestamp c) reservePayload in
    if maximum =? 0 then 0
    else
      let blocks := if e_haveRecentDSACK s then 1 else 0 in
      let blocks := sackSizeLoop (S (length (e_outOfOrder s))) (e_outOfOrder s) (zlen (e_outOfOrder s) - 1)
                      blocks maximum in
      if blocks =? 0 then 0 else 2 + 8 * blocks.

Definition trySendACKAt s (sequence : Z) (sent : bool) : option (estate * list tcpOutput) :=
  encoded ← sackOptions s 0;
  let '(options, dsackSent) := (encoded : list Z * bool) in
  let '(window, rightEdge, reserve) := nextAdvertisedReceiveWindow s in
  if negb sent then Some (s, [])
  else
    let s' := if dsackSent then s <| e_haveRecentDSACK := false |> else s in
    Some (commitAcknowledgment s' window rightEdge reserve (negb (zlen options =? 0)),
          [OutputACK sequence (e_receiveNext s) window options]).

Definition acceptableSequence s : Z :=
  tcpAcceptableSendSequence (e_sendUnacknowledged s) (e_sendNext s) (e_peerWindow s) (e_peerScale s).

Definition trySendACK s (sent : bool) : option (estate * list tcpOutput) :=
  trySendACKAt s (acceptableSequence s) sent.

(** [allowed] is the answer of the stack's control-response limiter. *)
Definition trySendChallengeACKAt s (sequence : Z) (allowed sent : bool) : option (estate * list tcpOutput) :=
  if negb allowed then Some (s, []) else trySendACKAt s sequence sent.

Definition trySendChallengeACK s (allowed sent : bool) : option (estate * list tcpOutput) :=
  if negb allowed then Some (s, []) else trySendACK s sent.

(** ** TIME-WAIT *)

(** The admission of a SYN to a new incarnation: whether PAWS rejects it, and
    whether it may replace the tuple. *)
Definition timeWaitSYN s (segment : tcpSegment) (receivedAt : Z) (timestamp : option (Z * Z)) : bool * bool :=
  let c := e_connection s in
  let sequenceNew := tcpSequenceGreater (sg_sequence segment) (e_receiveNext s) in
  let '(pawsReject, timestampNew) :=
    match timestamp with
    | None => (false, false)
    | Some (timestamp, _) =>
        if cn_peerTimestamp c then
          let reject := tcpPAWSReject timestamp (cn_recentTimestamp c) (e_lastTimestampUpdate s) receivedAt 0 in
          (reject, negb reject && tcpSequenceGreater timestamp (cn_recentTimestamp c))
        else (false, true)
    end in
  (pawsReject, negb pawsReject && (sequenceNew || timestampNew)).

(** A FIN this endpoint has already consumed. *)
Definition retransmittedFIN s (segment : tcpSegment) : bool :=
  negb (hasFlag (sg_flags segment) (TCPFlagSYN .| TCPFlagRST))
  && (sg_flags segment .& (TCPFlagACK .| TCPFlagFIN) =? TCPFlagACK .| TCPFlagFIN)
  && (u32 (sg_sequence segment + zlen (sg_payload segment) + 1) =? e_receiveNext s).

(** Whether the segment is an ACK at RCV.NXT without text, SYN, FIN or RST. *)
Definition exactEmptyACK s (segment : tcpSegment) : bool :=
  hasFlag (sg_flags segment) TCPFlagACK
  && negb (hasFlag (sg_flags segment) (TCPFlagSYN .| TCPFlagFIN .| TCPFlagRST))
  && (zlen (sg_payload segment) =? 0) && (sg_sequence segment =? e_receiveNext s).

(** TS.Recent moves only to the timestamp of an exact empty ACK. *)
Definition adoptTimestamp s (segment : tcpSegment) (receivedAt : Z) (timestamp : option (Z * Z)) : estate :=
  match timestamp with
  | Some (tsval, _) =>
      if exactEmptyACK s segment
      then withConn s (fun c => c <| cn_recentTimestamp := tsval |>) <| e_lastTimestampUpdate := receivedAt |>
      else s
  | None => s
  end.

(** What [handleTimeWaitSegment] did: the state, the ACKs, and whether the tuple
    went to a new incarnation. *)
Definition timeWaitResult : Type := (estate * list tcpOutput * bool)%type.

Definition refreshIfACK s (segment : tcpSegment) (handledAt clock : Z) : estate :=
  if hasFlag (sg_flags segment) TCPFlagACK then refreshTimeWaitTimer s handledAt clock else s.

(** [replaced] is the answer of [tryReplaceTCPTimeWait]; [allowed] and [sent] are
    the control limiter and the link. *)
Definition handleTimeWaitSYN s (segment : tcpSegment) (receivedAt handledAt clock : Z)
    (replaced allowed sent : bool) : option timeWaitResult :=
  if hasFlag (sg_flags segment) (TCPFlagACK .| TCPFlagFIN) then
    '(s, out) ← trySendChallengeACK (refreshIfACK s segment handledAt clock) allowed sent;
    Some (s, out, false)
  else
    timestamp ← parseTCPTimestamp (sg_options segment);
    let '(pawsReject, admitted) := timeWaitSYN s segment receivedAt timestamp in
    if negb admitted then
      '(s, out) ← trySendChallengeACK (if pawsReject then refreshTimeWaitTimer s handledAt clock else s) allowed sent;
      Some (s, out, false)
    else if replaced then Some (s, [], true)
    else
      '(s, out) ← trySendChallengeACK (refreshIfACK s segment handledAt clock) allowed sent;
      Some (s, out, false).

Definition handleTimeWaitSegment s (segment : tcpSegment) (receivedAt handledAt clock : Z)
    (replaced allowed sent : bool) : option timeWaitResult :=
  let flags := sg_flags segment in
  if hasFlag flags TCPFlagRST then Some (s, [], false)
  else if hasFlag flags TCPFlagSYN
  then handleTimeWaitSYN s segment receivedAt handledAt clock replaced allowed sent
  else
    timestamp ← (if cn_peerTimestamp (e_connection s) then parseTCPTimestamp (sg_options segment)
                 else Some None : option (option (Z * Z)));
    let stale :=
      match timestamp with
      | Some (tsval, _) => tcpPAWSReject tsval (cn_recentTimestamp (e_connection s)) (e_lastTimestampUpdate s) receivedAt 0
      | None => false
      end in
    if stale then
      '(s, out) ← trySendChallengeACK (refreshTimeWaitTimer s handledAt clock) allowed sent;
      Some (s, out, false)
    else
      let fin := retransmittedFIN s segment in
      if negb fin && negb (tcpSegmentAcceptable (sg_sequence segment) (u32 (zlen (sg_payload segment))) (e_receiveNext s)
                             (rw_size (e_receiveWindowState s) (e_receiveNext s)))
      then
        '(s, out) ← trySendACK (refreshIfACK s segment handledAt clock) sent;
        Some (s, out, false)
      else
        let s := adoptTimestamp s segment receivedAt timestamp in
        if fin then
          '(s, out) ← trySendACK s sent;
          Some (armClose s handledAt tcpTimeWaitDuration clock, out, false)
        else
          let s := refreshIfACK s segment handledAt clock in
          if negb (hasFlag flags TCPFlagACK) || negb (sg_sequence segment =? e_receiveNext s)
             || negb (zlen (sg_payload segment) =? 0)
          then '(s, out) ← trySendACK s sent; Some (s, out, false)
          else Some (s, [], false).

(** ** Liveness timer *)

Definition earlier (deadline candidate : Z) : Z :=
  if negb (isSet deadline) || (candidate <? deadline) then candidate else deadline.

Definition armLiveness s (keepAliveOutputPending : bool) : estate :=
  let s := s <| e_liveness := false |> <| e_livenessDeadline := 0 |> in
  if e_localFINAcked s && e_remoteFINReceived s then s
  else
    let options := cn_options (e_connection s) in
    let activity := if (0 <? so_idleTimeout options) || so_keepAlive options
                    then receiveActivityTime s else e_lastActivity s in
    let deadline := if 0 <? so_idleTimeout options then activity + so_idleTimeout options else 0 in
    let deadline :=
      if 0 <? so_userTimeout options then
        let userDeadline := userTimeoutDeadline s (so_userTimeout options) in
        if isSet userDeadline then earlier deadline userDeadline else deadline
      else deadline in
    let deadline :=
      if (e_peerWindow s =? 0) && negb (noOutstanding s)
      then earlier deadline (zeroWindowDeadline s (so_userTimeout options)) else deadline in
    let deadline :=
      if negb keepAliveOutputPending && so_keepAlive options && keepAliveEligible s
      then earlier deadline (keepAliveDeadline s activity (so_keepAliveConfig options))
      else if keepAliveOutputPending && so_keepAlive options && (0 <? so_userTimeout options)
              && match e_livenessState s with Some l => negb (lv_keepAliveProbes l =? 0) | None => false end
      then
        let keepAliveDeadline := keepAliveDeadline s activity (so_keepAliveConfig options) in
        let userDeadline := activity + so_userTimeout options in
        earlier deadline (if keepAliveDeadline <? userDeadline then userDeadline else keepAliveDeadline)
      else deadline in
    if isSet deadline then s <| e_liveness := true |> <| e_livenessDeadline := deadline |> else s.

(** [routeExpiry] is the expiry of the stack's cached route MTU. *)
Definition armPathMTUProbe s (routeExpiry : option Z) (clock : Z) : estate :=
  let s := s <| e_pathMTUProbe := false |> <| e_pathMTUDeadline := 0 |> in
  let armed deadline := s <| e_pathMTUProbe := true |> <| e_pathMTUDeadline := deadline |> in
  match e_pathMTUState s with
  | Some p =>
      if pl_searching (pm_discovery p) then
        if negb (pl_active (pm_discovery p)) && (clock <? pl_nextProbe (pm_discovery p))
        then armed (pl_nextProbe (pm_discovery p)) else s
      else
        let expiry :=
          if isSet (pm_blackHoleExpiry p)
             && match routeExpiry with None => true | Some expiry => pm_blackHoleExpiry p <? expiry end
          then Some (pm_blackHoleExpiry p) else routeExpiry in
        match expiry with Some deadline => armed deadline | None => s end
  | None => match routeExpiry with Some deadline => armed deadline | None => s end
  end.

(** ** The retransmission timer *)

Definition setSendBase s (deadline : Z) : estate := s <| e_sendTimer := e_sendTimer s <| sm_baseDeadline := deadline |> |>.

Definition armSACKReneging s (clock : Z) : estate :=
  if e_retransmit s && bool_decide (e_retransmissionKind s = tcpRetransmissionSACKReneging)
     && isSet (e_retransmissionDeadline s) then s
  else s <| e_retransmissionKind := tcpRetransmissionSACKReneging |> <| e_retransmit := true |>
         <| e_retransmissionDeadline := clock + tcpSACKRenegingDelay (rt_srtt (e_rtt s)) |>.

Definition transmittedAtIndex s (index : Z) : Z :=
  match idx (e_outstanding s) index with Some segment => transmittedAt segment epoch | None => 0 end.

(** The contradictory mark that hands the timer to SACK reneging. *)
Definition renegingHead s : bool :=
  e_peerSACK s && head_has s sentTCPSegmentSACKed && negb (e_peerWindow s =? 0).

(** A RACK deadline no later than [deadline] takes the timer. *)
Definition preferRACK s (observedAt : Z) (haveSACKed : bool) (choice : Z * tcpRetransmissionKind)
    : Z * tcpRetransmissionKind :=
  match rackDeadline s observedAt haveSACKed with
  | Some candidate => if negb (fst choice <? candidate) then (candidate, tcpRetransmissionRACK) else choice
  | None => choice
  end.

Definition stoppedTimer s : estate :=
  setSendBase (s <| e_retransmit := false |> <| e_retransmissionDeadline := 0 |>
                 <| e_retransmissionKind := tcpRetransmissionRTO |>) 0.

Definition selectRetransmission s (rtoDeadline probeBase rackObservedAt clock : Z) : estate :=
  if noOutstanding s then stoppedTimer s
  else
    let index := if negb (e_sackedRanges s =? 0) then Z.max 0 (firstUnsackedSegment (e_outstanding s)) else 0 in
    let rtoDeadline := if isSet rtoDeadline then rtoDeadline
                       else transmittedAtIndex s index + rt_rto (e_rtt s) in
    let s := setSendBase s rtoDeadline in
    if renegingHead s then armSACKReneging s clock
    else
      let haveSACKed := e_peerSACK s && negb (e_sackedRanges s =? 0) in
      let choice := (rtoDeadline, tcpRetransmissionRTO) in
      let choice :=
        if e_peerSACK s && negb (e_peerWindow s =? 0) && negb (isSet (e_ecnHoldUntil s))
           && negb (e_tailProbeActive s) && (e_tailProbeRTTSamples s <? rt_samples (e_rtt s))
           && negb (e_fastRecovery s) && negb (e_rtoRecovery s) && negb haveSACKed
        then
          let probeBase := if isSet probeBase then probeBase
                           else transmittedAtIndex s (zlen (e_outstanding s) - 1) in
          let probeDeadline := probeBase + tailLossProbeDelay (rt_srtt (e_rtt s)) (rt_rto (e_rtt s))
                                             (zlen (e_outstanding s) =? 1) in
          if probeDeadline <? fst choice then (probeDeadline, tcpRetransmissionProbe) else choice
        else choice in
      let choice :=
        if e_peerSACK s && (haveSACKed || rk_retransmitted (e_rackLatestDelivered s)) && negb (e_peerWindow s =? 0)
        then preferRACK s (if isSet rackObservedAt then rackObservedAt else clock) haveSACKed choice
        else choice in
      s <| e_retransmit := true |> <| e_retransmissionDeadline := fst choice |>
        <| e_retransmissionKind := snd choice |>.

Definition armRetransmission s (clock : Z) : estate := selectRetransmission s 0 0 0 clock.

Definition armRetransmissionAfterACK s (acknowledgedAt clock : Z) : estate :=
  selectRetransmission s (clock + rt_rto (e_rtt s)) clock acknowledgedAt clock.

Definition reselectRetransmission s (observedAt clock : Z) : estate :=
  if noOutstanding s then armRetransmission s clock
  else if renegingHead s then armSACKReneging s clock
  else
    let s :=
      if isSet (sm_baseDeadline (e_sendTimer s)) then s
      else setSendBase s (transmittedAtIndex s (Z.max 0 (firstUnsackedSegment (e_outstanding s)))
                          + rt_rto (e_rtt s)) in
    let deadline := sm_baseDeadline (e_sendTimer s) in
    let install choice :=
      s <| e_retransmit := true |> <| e_retransmissionDeadline := fst choice |>
        <| e_retransmissionKind := snd choice |> in
    let choice := (deadline, tcpRetransmissionRTO) in
    if e_peerWindow s =? 0 then
      if e_retransmit s && bool_decide (e_retransmissionKind s = tcpRetransmissionRTO)
         && negb (isSet (e_retransmissionDeadline s)) then s
      else install choice
    else
      let haveSACKed := e_peerSACK s && negb (e_sackedRanges s =? 0) in
      let choice :=
        if e_retransmit s && bool_decide (e_retransmissionKind s = tcpRetransmissionProbe) && negb haveSACKed
           && isSet (e_retransmissionDeadline s) && (e_retransmissionDeadline s <? deadline)
        then (e_retransmissionDeadline s, tcpRetransmissionProbe) else choice in
      install
        (if e_peerSACK s && (haveSACKed || rk_retransmitted (e_rackLatestDelivered s))
         then preferRACK s observedAt haveSACKed choice else choice).

(** [retransmissionKind >= tcpRetransmissionPathMTU]: the deadlines outside the
    loss clocks. *)
Definition outsideLossClock (kind : tcpRetransmissionKind) : bool :=
  match kind with tcpRetransmissionPathMTU | tcpRetransmissionClose => true | _ => false end.

(** Leaving persist mode. *)
Definition clearPersist s (base : Z) : estate :=
  s <| e_persist := false |>
    <| e_sendTimer := mkSendTimer base second 0 0 |>
    <| e_persistUnanswered := 0 |> <| e_persistClosed := 0 |>.

Definition updateRetransmissionTimer s (update : tcpRetransmissionUpdate) (observedAt clock : Z) : estate :=
  if e_retransmit s && outsideLossClock (e_retransmissionKind s) then s
  else if noOutstanding s then (if e_persist s then s else armRetransmission s clock)
  else
    let s := if e_persist s then clearPersist s 0 else s in
    match update with
    | tcpRetransmissionRestart => armRetransmissionAfterACK s observedAt clock
    | tcpRetransmissionReselect => reselectRetransmission s observedAt clock
    | tcpRetransmissionPreserve =>
        if negb (e_retransmit s) || negb (isSet (e_retransmissionDeadline s)) then armRetransmission s clock else s
    end.

(** The index is [-1] when no range is left. *)
Definition retransmissionTarget s (kind : tcpRetransmissionKind) (clock : Z) : estate * Z :=
  let index :=
    match kind with
    | tcpRetransmissionProbe => lastUnsackedSegment (e_outstanding s)
    | tcpRetransmissionRTO => 0
    | _ => firstUnsackedSegment (e_outstanding s)
    end in
  if (index <? 0) || (zlen (e_outstanding s) <=? index) then (armRetransmission s clock, -1) else (s, index).

Definition tcpTimeoutError (softError : option tcpError) : tcpError := default ErrDeadlineExceeded softError.

Definition softErrorOf s : option tcpError := l ← e_livenessState s; lv_lastSoftError l.

Definition zeroWindowTimeoutError s (now userTimeout : Z) : option tcpError :=
  if negb (e_peerWindow s =? 0) || noOutstanding s then None
  else
    let deadline := zeroWindowDeadline s userTimeout in
    if negb (isSet deadline) || negb (deadline <? now) then None
    else if 0 <? userTimeout then Some ETIMEDOUT
    else Some (tcpTimeoutError (softErrorOf s)).

(** ** Pending output *)

Definition tcpTimerOutputPending s (hostQueueWaiting : bool) : bool :=
  if hostQueueWaiting || negb (e_retransmit s) || isSet (e_retransmissionDeadline s) then false
  else match e_retransmissionKind s with tcpRetransmissionRTO | tcpRetransmissionProbe => true | _ => false end.

Definition tcpPersistOutputPending s (hostQueueWaiting : bool) : bool :=
  e_persist s && negb hostQueueWaiting && negb (isSet (sm_baseDeadline (e_sendTimer s)))
  && (e_peerWindow s =? 0) && noOutstanding s.

(** Sequence space waits that no transmitted range covers. *)
Definition persistPending s (total : Z) (writeClosed : bool) : bool :=
  noOutstanding s && ((e_sendNext s ⊟ e_sendUnacknowledged s <? total) || (writeClosed && negb (e_localFINSent s))).

Definition armPersist s (sentAt total : Z) (writeClosed : bool) (clock : Z) : estate :=
  let pending := persistPending s total writeClosed in
  if pending && (e_peerWindow s =? 0) && negb (e_persist s) then
    let t := e_sendTimer s in
    let t := if sm_persistRTO t <? rt_rto (e_rtt s) then t <| sm_persistRTO := rt_rto (e_rtt s) |> else t in
    let sentAt := if isSet sentAt then sentAt else clock in
    let t := t <| sm_baseDeadline := sentAt + sm_persistRTO t |> in
    let t := if sm_persistSince t =? 0 then t <| sm_persistSince := monotonicStampAt epoch sentAt |> else t in
    s <| e_sendTimer := t |> <| e_persist := true |>
  else if negb (e_peerWindow s =? 0) || negb pending then
    clearPersist s (if negb (e_retransmit s) then 0 else sm_baseDeadline (e_sendTimer s))
  else s.

(** What the output path answers to one packet. *)
Inductive publication :=
| NoCapacity
| RouteChanged
| PublishFailed (error : tcpError)
| Published (ticket : packetQueueTicket).

(** Both budgets count a published probe. *)
Definition countProbe s (closed : bool) : estate :=
  let s := if e_persistUnanswered s <? tcpMaximumRTOs
           then s <| e_persistUnanswered := e_persistUnanswered s + 1 |> else s in
  if closed && (e_persistClosed s <? tcpMaximumRTOs)
  then s <| e_persistClosed := e_persistClosed s + 1 |> else s.

(** A published persist probe: the next interval doubles, up to the ceiling. *)
Definition probePublished s (ticket : packetQueueTicket) (closed departed : bool) (clock : Z) : estate :=
  let s := s <| e_sendTimer := e_sendTimer s <| sm_persistHostQueueToken := tk_token ticket |> |> in
  let '(window, rightEdge, reserve) := nextAdvertisedReceiveWindow s in
  let s := commitAcknowledgment s window rightEdge reserve false in
  let s := countProbe s closed in
  let doubled := 2 * sm_persistRTO (e_sendTimer s) in
  let s := s <| e_persist := false |>
             <| e_sendTimer := e_sendTimer s <| sm_persistRTO := if tcpMaximumRTO <? doubled then tcpMaximumRTO else doubled |> |> in
  let s := armPersist s (stampTime (tk_queuedAt ticket) epoch) (sendTotal s) (cn_writeClosed (e_connection s)) clock in
  if negb closed && e_persist s && (e_persistUnanswered s =? tcpMaximumRTOs) && departed
  then setSendBase s (clock + sm_persistRTO (e_sendTimer s)) else s.

(** [departed]: the probe left the host queue before its departure could be
    watched. *)
Definition drainPersistOutput s (output : publication) (departed : bool) (clock : Z)
    : estate + tcpError :=
  if negb (tcpPersistOutputPending s false) then inl s
  else
    let closed := rc_userClosed (cn_receive (e_connection s)) in
    if closed && (tcpMaximumRTOs <=? e_persistClosed s) then inr ErrDeadlineExceeded
    else if negb closed && (tcpMaximumRTOs <=? e_persistUnanswered s) then inr (tcpTimeoutError (softErrorOf s))
    else
      match output with
      | NoCapacity | RouteChanged => inl s
      | PublishFailed error => inr error
      | Published ticket => inl (probePublished s ticket closed departed clock)
      end.

(** The persist deadline fires; the zero deadline marks the probe as due. *)
Definition persistExpired s : estate := setSendBase (s <| e_persist := true |>) 0.

(** A current ACK while persist is active restores the open budget. *)
Definition persistAnswered s : estate := if e_persist s then s <| e_persistUnanswered := 0 |> else s.

(** Whether the ECN hold has ended. *)
Definition ecnReady s (clock : Z) : bool := negb (isSet (e_ecnHoldUntil s)) || negb (clock <? e_ecnHoldUntil s).

(** The allowance beyond the congestion window: F-RTO probes or Limited
    Transmit. *)
Definition congestionAllowance s : Z :=
  if bool_decide (e_frtoState s = tcpFRTOProbePending) then
    let allowance := u32 (2 * u32 (e_peerMSS s)) in
    if e_congestionWindow s <? congestionFlight s
    then growCongestionWindow allowance (congestionFlight s ⊟ e_congestionWindow s) else allowance
  else if negb (e_rtoRecovery s) && negb (e_fastRecovery s) && (0 <? e_duplicateACKs s)
          && (e_duplicateACKs s <? tcpDuplicateACKThreshold)
  then u32 (e_duplicateACKs s * e_peerMSS s)
  else 0.

(** Whether new data may be sent now, Nagle's rule included. *)
Definition dataReady s : bool :=
  let windowFlight := e_sendNext s ⊟ e_sendUnacknowledged s in
  let limit := growCongestionWindow (e_congestionWindow s) (congestionAllowance s) in
  if (windowFlight <? e_peerWindow s) && (congestionFlight s <? limit) then
    let queued := sendTotal s - windowFlight in
    if 0 <? queued then
      let available := e_peerWindow s ⊟ windowFlight in
      let congestionAvailable := limit ⊟ congestionFlight s in
      let available := if congestionAvailable <? available then congestionAvailable else available in
      if noOutstanding s || cn_writeClosed (e_connection s) || so_noDelay (cn_options (e_connection s)) then true
      else
        let optionSize := (sackOptionSize s 1 + 3) .&^ 3 in
        let optionSize := if e_pathMSS s <=? optionSize then 0 else optionSize in
        let segmentMSS := tcpSegmentPayloadLimit (e_peerMSS s) (e_pathMSS s) optionSize in
        (segmentMSS <=? queued) && (segmentMSS <=? available)
    else false
  else false.

Definition ordinaryOutputKind s (clock : Z) : tcpOrdinaryOutputKind :=
  let ack := e_ackPending s && negb (e_delayedACK s) in
  if e_localFINSent s || e_pacing s then (if ack then tcpOrdinaryOutputACK else tcpOrdinaryOutputNone)
  else if ecnReady s clock && dataReady s then tcpOrdinaryOutputData
  else if ack then tcpOrdinaryOutputACK
  else
    let windowFlight := e_sendNext s ⊟ e_sendUnacknowledged s in
    if cn_writeClosed (e_connection s) && (sendTotal s <=? windowFlight) && (windowFlight <? e_peerWindow s)
       && (congestionFlight s <? e_congestionWindow s) && ecnReady s clock
    then tcpOrdinaryOutputFIN else tcpOrdinaryOutputNone.

Definition pathMTUOwnsTimer s : bool :=
  e_retransmit s && bool_decide (e_retransmissionKind s = tcpRetransmissionPathMTU).

Definition recoveryOutputPending s : bool :=
  pathMTUOwnsTimer s
  || ((e_rtoRecovery s || e_fastRecovery s || e_haveRACKLoss s)
      && (negb (e_peerWindow s =? 0) || noOutstanding s)).

Definition retried s (index : Z) : bool :=
  match idx (e_outstanding s) index with Some segment => hasState segment sentTCPSegmentSACKRetried | None => false end.

(** The range a timeout recovery may retransmit at once. *)
Definition timeoutRange s : Z :=
  let index := firstUnsackedSegment (e_outstanding s) in
  if e_peerSACK s then firstRACKLoss (e_outstanding s)
  else if (0 <=? index) && retried s index then -1 else index.

Definition recoveryOutputReady s : bool :=
  if negb (recoveryOutputPending s) then false
  else if pathMTUOwnsTimer s then 0 <=? firstUnsackedSegment (e_outstanding s)
  else if e_rtoRecovery s && bool_decide (e_frtoState s = tcpFRTOFallbackPending)
  then 0 <=? firstUnsackedSegment (e_outstanding s)
  else if e_rtoRecovery s && bool_decide (e_frtoState s = tcpFRTOInactive) && negb (noOutstanding s)
          && (0 <=? timeoutRange s) then true
  else if noOutstanding s || (negb (e_fastRecovery s) && negb (e_haveRACKLoss s)) then false
  else if negb (e_peerSACK s) then
    if negb (e_fastRecovery s) then false
    else
      let index := firstUnsackedSegment (e_outstanding s) in
      (0 <=? index) && negb (retried s index)
  else
    let index := firstUnretriedLoss (e_outstanding s) (e_peerMSS s) in
    let index := if (index <? 0) && e_fastRecovery s
                 then firstUnretriedSACKHole (e_outstanding s) (highestSACKedSequence (e_outstanding s)) else index in
    if (index <? 0) || e_pacing s then false
    else
      let size := match idx (e_outstanding s) index with Some segment => segLen segment | None => 0 end in
      sackRecoveryCanSend (e_fastRecovery s) (sackRecoveryPipe (e_outstanding s) (e_peerMSS s)) size
        (e_congestionWindow s).

(** ** Congestion-window validation *)

Definition restartUsage s (now : Z) : estate := s <| e_cwndUsed := 0 |> <| e_cwndUsageStamp := now |>.

Definition validateCongestionWindow s (now queued : Z) (sendBufferLimited : bool) : estate :=
  if customWindowValidation (e_controller s) || e_fastRecovery s || e_rtoRecovery s
     || negb (bool_decide (cs_Phase (cc_state (e_controller s)) = CongestionPhaseOpen)) then s
  else
    let flight := congestionFlight s in
    if congestionWindowLimited (e_congestionWindow s) flight (e_peerMSS s) then restartUsage s now
    else
      let s := if e_cwndUsed s <? flight then s <| e_cwndUsed := flight |> else s in
      let windowFlight := e_sendNext s ⊟ e_sendUnacknowledged s in
      let underutilized := (queued <? e_peerMSS s) || (e_peerWindow s <=? windowFlight) in
      if negb underutilized || (e_cwndUsageStamp s =? 0) || (now - e_cwndUsageStamp s <? rt_rto (e_rtt s)) then s
      else if sendBufferLimited then restartUsage s now
      else
        let initial := initialTCPWindow (e_peerMSS s) in
        let used := if e_cwndUsed s <? initial then initial else e_cwndUsed s in
        let s :=
          if used <? e_congestionWindow s then
            s <| e_slowStartThreshold := tcpCurrentSlowStartThreshold (e_congestionWindow s) (e_slowStartThreshold s) |>
              <| e_congestionWindow := (e_congestionWindow s ⊞ used) / 2 |>
          else s in
        restartUsage s now.

(** ** Recovery snapshots and undo *)

Definition recoveryTransportState s (timeout : bool) : tcpRecoveryTransportState :=
  let rtoAttempts := if timeout && negb (e_rtoAttempts s =? 0) then e_rtoAttempts s - 1 else e_rtoAttempts s in
  let phase := cs_Phase (cc_state (e_controller s)) in
  mkTransport phase (e_recoveryPoint s) (e_rtoRecoveryPoint s) (e_ecnRecoveryPoint s) (e_prrPriorFlight s)
    (e_prrDelivered s) (e_prrOut s) rtoAttempts (e_frtoProbeBudget s) (e_fastRecovery s) (e_rtoRecovery s)
    (e_frtoState s) (e_sackRenegingRecovery s) (e_ecnRecoveryActive s)
    (negb (bool_decide (phase = CongestionPhaseOpen)) || e_fastRecovery s || e_rtoRecovery s
     || negb (bool_decide (e_frtoState s = tcpFRTOInactive)) || e_sackRenegingRecovery s).

Definition restoreRecoveryTransportState s (saved : option tcpRecoveryTransportState) (acknowledged : Z) : estate :=
  let t := default zeroTransport saved in
  let fast := ts_fastRecovery t && tcpSequenceLess (e_sendUnacknowledged s) (ts_recoveryPoint t) in
  let rto := ts_rtoRecovery t && (negb (bool_decide (ts_frtoState t = tcpFRTOInactive))
                                  || tcpSequenceLess (e_sendUnacknowledged s) (ts_rtoRecoveryPoint t)) in
  let s := s <| e_fastRecovery := fast |> <| e_rtoRecovery := rto |>
             <| e_frtoState := if rto then ts_frtoState t else tcpFRTOInactive |>
             <| e_frtoProbeBudget := if rto then ts_frtoProbeBudget t else 0 |>
             <| e_sackRenegingRecovery := rto && ts_sackRenegingRecovery t |>
             <| e_recoveryPoint := ts_recoveryPoint t |>
             <| e_rtoRecoveryPoint := if rto then ts_rtoRecoveryPoint t else 0 |>
             <| e_prrPriorFlight := if fast then ts_prrPriorFlight t else 0 |>
             <| e_prrDelivered := if fast then ts_prrDelivered t else 0 |>
             <| e_prrOut := if fast then ts_prrOut t else 0 |>
             <| e_ecnRecoveryActive := ts_ecnRecoveryActive t |>
             <| e_ecnRecoveryPoint := ts_ecnRecoveryPoint t |> in
  if acknowledged =? 0 then s <| e_rtoAttempts := ts_rtoAttempts t |> else s.

Definition withUndo s (f : tcpRecoveryUndo -> tcpRecoveryUndo) : estate :=
  s <| e_undo := f <$> e_undo s |>.

(** Ending F-RTO when its congestion response cannot be undone. *)
Definition endSpuriousTimeout s (receivedAt : Z) : estate :=
  if bool_decide (e_frtoState s = tcpFRTOInactive) then s
  else
    s <| e_frtoState := tcpFRTOInactive |> <| e_frtoProbeBudget := 0 |> <| e_rtoRecovery := false |>
      <| e_rtoRecoveryPoint := 0 |> <| e_sackRenegingRecovery := false |>
      <| e_controller := setCongestionPhase (e_controller s) CongestionPhaseOpen receivedAt |>.

Definition restoreSpuriousRecovery s (receivedAt acknowledged : Z) : estate * bool :=
  match e_undo s with
  | Some u =>
      if un_active u then
        let flight := ordinaryFlight s in
        let response := eifelRTOResponse u in
        let phase := recoveryPhaseAt (un_transport u) (e_sendUnacknowledged s) in
        let '(u, controller, (window, threshold)) :=
          un_restore u (e_congestionWindow s) flight acknowledged (e_peerMSS s) (e_controller s) receivedAt phase in
        let s := s <| e_congestionWindow := window |> <| e_slowStartThreshold := threshold |>
                   <| e_controller := controller |> in
        let s := if ei_pending response then s <| e_eifelRTO := Some response |> else s in
        let s := restoreRecoveryTransportState s (un_transport u) acknowledged in
        (s <| e_undo := Some (u <| un_spuriousUndos := u64 (un_spuriousUndos u + 1) |>) |>, true)
      else (endSpuriousTimeout s receivedAt, false)
  | None => (endSpuriousTimeout s receivedAt, false)
  end.

(** ** Controllers *)

Definition controllerContext (c : connState) : CongestionControlContext :=
  mkContext (cn_local c) (cn_remote c) (cn_passive c) (cn_forwarded c).

Definition clearDeliveryRecord (segment : sentTCPSegment) : sentTCPSegment :=
  let s := withDelivery segment (mkSnapshot 0 0 0) in
  mkSent (st_sequence s) (st_end s) (st_timestamp s) (st_state s) (st_flags s) (st_firstSent s)
    (st_hostQueue s) 0 (st_delivery s) (st_order s).

(** [same]: the factory is the controller's own. *)
Definition changeCongestionController s (registry : congestionRegistry A)
    (factory : option (CongestionControlDefinition A)) (same : bool) (maximumPacingRate clock : Z) : option estate :=
  let stopPacing s := s <| e_pacing := false |> <| e_pacingDeadline := 0 |> in
  if same then
    let '(controller, changed) := setMaximumPacingRate (e_controller s) maximumPacingRate clock in
    let s := s <| e_controller := controller |> in
    Some (if changed then stopPacing s else s)
  else
    let phase := cs_Phase (cc_state (e_controller s)) in
    let s := s <| e_controller := release (e_controller s) clock (e_congestionWindow s) (e_slowStartThreshold s)
                    (congestionFlight s) (e_peerMSS s) (rt_srtt (e_rtt s)) (rt_minimum (e_rtt s)) |> in
    controller ← newTCPCongestionControllerFromFactory registry factory (controllerContext (e_connection s));
    let controller := fst (setMaximumPacingRate controller maximumPacingRate clock) in
    let s := withUndo s (fun u => u <| un_active := false |>) in
    let s := s <| e_outstanding := map clearDeliveryRecord (e_outstanding s) |> in
    let '(controller, (window, threshold)) :=
      initialize controller phase clock (rt_minimum (e_rtt s)) (rt_srtt (e_rtt s)) (e_congestionWindow s)
        (e_slowStartThreshold s) (e_peerMSS s) (monotonicStampAt epoch clock) in
    Some (stopPacing (s <| e_controller := controller |> <| e_congestionWindow := window |>
                        <| e_slowStartThreshold := threshold |> <| e_hyStart := hy_disable (e_hyStart s) |>)).

(** The state an established actor starts with. *)
Definition newTCPEstablishedState (registry : congestionRegistry A) (factory : option (CongestionControlDefinition A))
    (maximumPacingRate : Z) (c : connState) (sendNext clock : Z) : option estate :=
  let rawPathMSS := tcpMSSForMTU (cn_mtu c) (fst (cn_local c)) in
  let peerMSS := tcpEffectiveSendMSS (cn_peerMSS c) rawPathMSS (cn_peerTimestamp c) in
  let localMaximum := if cn_peerTimestamp c then rawPathMSS - tcpTimestampOptionSize else rawPathMSS in
  let receiveMSS := if tcpDefaultReceiveMSS <? localMaximum then tcpDefaultReceiveMSS else localMaximum in
  let stamp := monotonicStampAt epoch clock in
  controller ← newTCPCongestionControllerFromFactory registry factory (controllerContext c);
  let controller := fst (setMaximumPacingRate controller maximumPacingRate clock) in
  let c := c <| cn_icmpRange := (sendNext, sendNext) |> in
  let rtt := newRTTEstimator (if cn_handshakeTimeout c then 3 * second else tcpInitialRTO) in
  let rtt := if negb (cn_handshakeTimeout c) then observeAt rtt (cn_handshakeRTT c) stamp else rtt in
  let '(controller, (window, threshold)) :=
    initialize controller CongestionPhaseOpen clock (rt_minimum rtt) (rt_srtt rtt) (initialTCPWindow peerMSS)
      2147483647 peerMSS stamp in
  let scaled := cn_peerWindowScaling c && negb (cn_passive c) in
  let advertised := receiveWindow (cn_receive c) 0 scaled (cn_receiveWindowScale c) in
  Some (mkEstablished c peerMSS localMaximum receiveMSS (cn_peerWindow c) (cn_peerWindowSeq c) (cn_peerWindow c)
    0 0 0 sendNext sendNext (cn_receiveNext c) window threshold 0 [] [] 0 (mkBlock 0 0) 0 0 0 0 0 0 0
    (cn_receiveNext c) 0 0 0 0 0 0 clock controller zeroRack 0 1 0 0 0 0 stamp 0 0
    (mkAutoTune clock (cn_applicationReads c)) (mkAutoTune clock 0) (hy_start sendNext) None None None 0 0 rtt
    0 (mkSendTimer 0 second 0 0) 0 0 0 0 None 0 advertised 0
    (newTCPReceiveWindow (cn_receiveNext c) advertised (cn_peerWindowScaling c) scaled (cn_receiveWindowScale c))
    clock clock None None (cn_peerWindowScale c) 0 0 0 0 (cn_peerSACK c) false false false false false false false
    false false false false false false false false false false false false false false false false false false
    false false false false tcpRetransmissionRTO tcpFRTOInactive 0 0).

End Established.
