(* ===== verification/LossRecovery.v ===== *)
(** * Entering loss recovery and changing the path MTU

    The part of the established actor in [tcp.go] that turns loss evidence into
    a congestion response without publishing packets: [prepareRetransmission]
    and [enterRecovery], the failure of a path MTU probe, [applyPathMTU], and
    the automatic growth of the connection's buffers.  An operation that would
    panic, or would not return, is [None]. *)

From stdpp Require Import strings.
From S2P Require Import Prelude SeqNum Rtt SegmentQueue ByteBuffers TcpReceive Addr Windows Scoreboard.
From S2P Require Import Float64 DeliveryRate Congestion TcpOptions ReceiveWindow Recovery Established.

(** What the stack answers while an event is processed: the clock, the cached
    route MTU's expiry, the link MTU, and the congestion options of the
    connection with whether its factory is the controller's own.  One clock
    reading stands for all those of the event. *)
Record transportEnv (A : Type) := mkEnv {
  ev_clock : Z;
  ev_routeExpiry : option Z;
  ev_linkMTU : Z;
  ev_registry : congestionRegistry A;
  ev_factory : option (CongestionControlDefinition A);
  ev_sameFactory : bool;
  ev_maximumPacingRate : Z }.
Arguments mkEnv {A}.
Arguments ev_clock {A}.
Arguments ev_routeExpiry {A}.
Arguments ev_linkMTU {A}.
Arguments ev_registry {A}.
Arguments ev_factory {A}.
Arguments ev_sameFactory {A}.
Arguments ev_maximumPacingRate {A}.

(** ** Buffer capacities *)

Definition grownCapacity (capacity target maximum : Z) : Z :=
  let target := if capacity * 2 <? target then capacity * 2 else target in
  if maximum <? target then maximum else target.

Definition growReceiveCapacity (c : connState) (target : Z) : connState * bool :=
  let r := cn_receive c in
  if negb (cn_receiveAutoTune c) || (target <=? rc_capacity r) then (c, false)
  else
    let maximum := if cn_receiveMaximum c <=? 0 then tcpMaximumReceiveCapacity else cn_receiveMaximum c in
    let target := grownCapacity (rc_capacity r) target maximum in
    if target <=? rc_capacity r then (c, false)
    else (c <| cn_receive := mkRecvConn target (rc_buffer r) (rc_userClosed r) (rc_readClosed r) (rc_unread r)
                               (rc_notify r) |>, true).

(** [sendCapacityHint] always holds [sendCapacity]. *)
Definition growSendCapacity (c : connState) (target : Z) : connState * bool :=
  if target <=? cn_sendCapacity c then (c, false)
  else if negb (cn_sendAutoTune c) then (c, false)
  else
    let maximum := if cn_sendMaximum c <=? 0 then tcpMaximumSendCapacity else cn_sendMaximum c in
    let target := grownCapacity (cn_sendCapacity c) target maximum in
    if target <=? cn_sendCapacity c then (c, false) else (c <| cn_sendCapacity := target |>, true).

Definition acknowledgeSend (c : connState) (size : Z) : connState :=
  if size <=? 0 then c
  else
    let size := if sb_size (cn_sendBuffer c) <? size then sb_size (cn_sendBuffer c) else size in
    if negb (size =? 0) then c <| cn_sendBuffer := sb_acknowledge (cn_sendBuffer c) size |> else c.

Section LossRecovery.

Context {A : Type} `{CongestionController A}.
Variable epoch : Z.

Implicit Type s : tcpEstablishedState A.
Implicit Type env : transportEnv A.

Notation estate := (tcpEstablishedState A).

Definition clearMarks (flag : Z) s : estate :=
  s <| e_outstanding := map (fun segment => setState segment flag false) (e_outstanding s) |>.

Definition stopTailProbe s : estate := s <| e_tailProbeActive := false |> <| e_tailProbeRetransmit := false |>.

Definition clearPRR s : estate := s <| e_prrPriorFlight := 0 |> <| e_prrDelivered := 0 |> <| e_prrOut := 0 |>.

Definition clearLimited s : estate :=
  if e_limitedTransmitActive s
  then clearMarks sentTCPSegmentLimited s <| e_limitedTransmitActive := false |> else s.

Definition raiseCWR s : estate :=
  if cn_peerECN (e_connection s) then withConn s (fun c => c <| cn_sendCWR := true |>) else s.

(** [splitTCPSegments] with the counts it leaves. *)
Definition resegment s : option estate :=
  l ← splitTCPSegments (e_outstanding s) (e_peerMSS s);
  let s := s <| e_outstanding := l |> in
  Some (if negb (e_sackedRanges s =? 0) then recountSACK s else s).

Definition probeActive s : bool :=
  match e_pathMTUState s with Some p => pl_active (pm_discovery p) | None => false end.

Definition setDiscovery s (f : tcpPLPMTU -> tcpPLPMTU) : estate :=
  s <| e_pathMTUState := (fun p => p <| pm_discovery := f (pm_discovery p) |>) <$> e_pathMTUState s |>.

(** Charging one range's loss to the controller, once. *)
Definition noteSegmentLoss s (index : Z) (proven duringACK evidence : bool) (observedAt : Z)
    (flight : estate -> Z) : option estate :=
  segment ← idx (e_outstanding s) index;
  let '(segment, bytes) := recordTCPSegmentLoss segment proven in
  let s := s <| e_outstanding := <[Z.to_nat index := segment]> (e_outstanding s) |> in
  Some (s <| e_controller := notePacketLoss (e_controller s) (Some segment) bytes duringACK evidence observedAt
               (e_congestionWindow s) (e_slowStartThreshold s) (flight s) (e_peerMSS s) (rt_srtt (e_rtt s)) |>).

(** ** Preparing a retransmission *)

(** An active path MTU probe is inconclusive: its marks go, the scoreboard takes
    the confirmed MSS, and the target is found again. *)
Definition cancelMTUProbe env s (index : Z) (timeout : bool) (observedAt : Z) : option (estate * Z) :=
  if negb (probeActive s) then Some (s, index)
  else
    segment ← idx (e_outstanding s) index;
    let retransmitSequence := st_sequence segment in
    let delay := tcpPLPMTUProbeHeadway (e_congestionWindow s) (e_peerMSS s) (rt_srtt (e_rtt s)) in
    let delay := if timeout then tcpPLPMTUTimeoutDelay delay else delay in
    let s := setDiscovery s (fun p => pl_inconclusive p observedAt delay) in
    s ← resegment (clearMarks sentTCPSegmentMTUProbe s);
    let index := findIndex (fun segment => st_sequence segment =? retransmitSequence) (e_outstanding s) in
    let index := if index <? 0 then firstUnsackedSegment (e_outstanding s) else index in
    Some (armPathMTUProbe s (ev_routeExpiry env) (ev_clock env), index).

(** The snapshot before the first reduction of an episode. *)
Definition beginRecoveryUndo s (timeout : bool) (observedAt : Z) : estate :=
  let flight := ordinaryFlight s in
  let '(controller, flight) :=
    if negb timeout then recoveryFlight (e_controller s) observedAt flight (lossRecoveryFlightSize (e_outstanding s))
    else (e_controller s, flight) in
  let s := s <| e_controller := controller |> in
  let u := default zeroUndo (e_undo s) in
  let transport := recoveryTransportState s timeout in
  let '(u, controller) := un_begin u timeout (e_sendNext s) (e_congestionWindow s) (e_slowStartThreshold s) flight
                            (e_controller s) (e_rtt s) observedAt in
  s <| e_undo := Some (setTransport u transport) |> <| e_controller := controller |>.

Definition timeoutReduction s (observedAt : Z) : estate :=
  if e_rtoRecovery s then s
  else
    let s := s <| e_hyStart := hy_disable (e_hyStart s) |> in
    let '(controller, threshold) :=
      cc_onTimeout (e_controller s) (e_congestionWindow s) (ordinaryFlight s) (e_slowStartThreshold s) (e_peerMSS s)
        observedAt in
    raiseCWR (s <| e_controller := controller |> <| e_slowStartThreshold := threshold |>
                <| e_rtoRecovery := true |>).

(** The congestion response to a retransmission timeout. *)
Definition timeoutResponse s (frtoEligible : bool) (observedAt : Z) : estate :=
  let s := timeoutReduction (stopTailProbe s) observedAt in
  let s := s <| e_rtoRecoveryPoint := e_sendNext s |>
             <| e_frtoState := if frtoEligible then tcpFRTOTimeoutPending else tcpFRTOInactive |>
             <| e_frtoProbeBudget := 0 |>
             <| e_congestionWindow := u32 (e_peerMSS s) |>
             <| e_fastRecovery := false |> in
  let s := clearPRR s <| e_ecnRecoveryPoint := e_sendNext s |> <| e_ecnRecoveryActive := true |> in
  let s := clearMarks sentTCPSegmentRACKLost (clearMarks sentTCPSegmentSACKRetried s) in
  s <| e_haveRACKLoss := false |> <| e_rtt := backoff (e_rtt s) |>.

(** One reduction per window of data, except for a lost retransmission. *)
Definition lossReduction s (lostRetransmission lostCWR : bool) (flight observedAt : Z) : estate :=
  if lostRetransmission || lostCWR
     || tcpECNStartsRecovery (e_ecnRecoveryActive s) (e_sendUnacknowledged s) (e_ecnRecoveryPoint s)
  then
    let '(controller, (threshold, window)) :=
      cc_onCongestion (e_controller s) (e_congestionWindow s) flight (e_slowStartThreshold s) (e_peerMSS s) observedAt in
    raiseCWR (s <| e_controller := controller |> <| e_slowStartThreshold := threshold |>
                <| e_congestionWindow := window |> <| e_ecnRecoveryPoint := e_sendNext s |>
                <| e_ecnRecoveryActive := true |>)
  else s.

(** The congestion response to loss proved without a timeout. *)
Definition recoveryResponse s (lostRetransmission lostCWR : bool) (observedAt : Z) : estate :=
  let s := stopTailProbe s in
  if e_fastRecovery s && negb lostRetransmission then s
  else
    let s := s <| e_hyStart := hy_disable (e_hyStart s) |> in
    let '(controller, flight) :=
      recoveryFlight (e_controller s) observedAt (ordinaryFlight s) (lossRecoveryFlightSize (e_outstanding s)) in
    let s := clearLimited (s <| e_controller := controller |>) in
    let s := lossReduction s lostRetransmission lostCWR flight observedAt in
    let '(controller, window) :=
      recoveryWindow (e_controller s) observedAt (e_congestionWindow s) flight (e_slowStartThreshold s) (e_peerMSS s)
        (e_peerSACK s) in
    let s := s <| e_controller := controller |> <| e_congestionWindow := window |> <| e_fastRecovery := true |>
               <| e_recoveryPoint := e_sendNext s |> in
    if e_peerSACK s then clearPRR s <| e_prrPriorFlight := flight |> else s.

(** The range index that a caller may ask for, or the first hole. *)
Definition targetIndex s (index : Z) : Z :=
  if (index <? 0) || (zlen (e_outstanding s) <=? index) then firstUnsackedSegment (e_outstanding s) else index.

Definition frtoEligible s (timeout : bool) : bool :=
  timeout && negb (e_fastRecovery s) && negb (e_sackRenegingRecovery s)
  && (negb (e_rtoRecovery s) || (1 <? e_rtoAttempts s)) && negb (probeActive s).

(** The index of the range to retransmit, [-1] when there is none. *)
Definition prepareRetransmission env s (index : Z) (timeout duringACK lossEvidenceValid : bool)
    (lossObservedAt : Z) : option (estate * Z) :=
  if noOutstanding s then Some (s, -1)
  else
    let index := targetIndex s index in
    if (index <? 0) || (zlen (e_outstanding s) <=? index) then Some (s, -1)
    else
      let observedAt := if isSet lossObservedAt then lossObservedAt else ev_clock env in
      let eligible := frtoEligible s timeout in
      '(s, index) ← cancelMTUProbe env s index timeout observedAt;
      if (index <? 0) || (zlen (e_outstanding s) <=? index) then Some (s, -1)
      else
        oldest ← idx (e_outstanding s) index;
        let lostRetransmission := hasState oldest sentTCPSegmentRACKLost && isRetransmitted oldest in
        let lostCWR := hasState oldest sentTCPSegmentCWR in
        let beginUndo := (timeout && negb (e_rtoRecovery s))
                         || (negb timeout && (negb (e_fastRecovery s) || lostRetransmission)) in
        let s := if beginUndo then beginRecoveryUndo s timeout observedAt else s in
        let lossProven := timeout || negb (e_peerSACK s) || sackSegmentLost (e_outstanding s) index (e_peerMSS s) in
        s ← noteSegmentLoss s index lossProven duringACK lossEvidenceValid observedAt congestionFlight;
        Some (if timeout then timeoutResponse s eligible observedAt
              else recoveryResponse s lostRetransmission lostCWR observedAt, index).

Definition enterRecovery env s (index receivedAt : Z) : option estate :=
  '(s, _) ← prepareRetransmission env s index false (usesDeliveryRate (e_controller s)) true receivedAt;
  Some s.

(** ** Path MTU changes *)

Definition armPathMTURetransmission s (clock : Z) : estate :=
  if noOutstanding s || (e_retransmit s && bool_decide (e_retransmissionKind s = tcpRetransmissionClose)) then s
  else s <| e_retransmit := true |> <| e_retransmissionDeadline := clock |>
         <| e_retransmissionKind := tcpRetransmissionPathMTU |>.

(** The isolated probe generation carries no congestion response. *)
Definition suppressProbeLoss (segment : sentTCPSegment) : sentTCPSegment :=
  let segment := if hasState segment sentTCPSegmentMTUProbe
                 then withState segment (st_state segment .| sentTCPSegmentLossReported) else segment in
  setState segment sentTCPSegmentMTUProbe false.

(** The state, and the path MTU the stack is told to reconfirm. *)
Definition failPLPMTUProbe env s : option (estate * option Z) :=
  if negb (probeActive s) then Some (s, None)
  else
    let headway := tcpPLPMTUProbeHeadway (e_congestionWindow s) (e_peerMSS s) (rt_srtt (e_rtt s)) in
    let s := setDiscovery s (fun p => pl_failed p (ev_clock env) headway) in
    let confirmed := if negb (pl_searching (pm_discovery (ensurePathMTUState s)))
                     then Some (cn_mtu (e_connection s)) else None in
    s ← resegment (s <| e_outstanding := map suppressProbeLoss (e_outstanding s) |>);
    let index := firstUnsackedSegment (e_outstanding s) in
    if (index <? 0) || (zlen (e_outstanding s) <=? index)
    then Some (armPathMTUProbe s (ev_routeExpiry env) (ev_clock env), confirmed)
    else
      let p := ensurePathMTUState s in
      let s := s <| e_pathMTUState := Some (p <| pm_failures := u64 (pm_failures p + 1) |>) |> in
      let s := armPathMTURetransmission s (ev_clock env) in
      Some (armPathMTUProbe s (ev_routeExpiry env) (ev_clock env), confirmed).

(** The segment sizes of a new path MTU. *)
Definition sizesForMTU env s (mtu : Z) : estate :=
  let priorMTU := cn_mtu (e_connection s) in
  let s := withConn s (fun c => c <| cn_mtu := mtu |>) in
  let s :=
    if mtu <? priorMTU then
      let s := clearMarks sentTCPSegmentMTUProbe s in
      let p := ensurePathMTUState s in
      s <| e_pathMTUState := Some (p <| pm_discovery := pl_reduce mtu priorMTU (ev_linkMTU env) (ev_clock env) |>) |>
    else s in
  let rawPathMSS := tcpMSSForMTU mtu (fst (cn_local (e_connection s))) in
  let pathMSS := if cn_peerTimestamp (e_connection s) then rawPathMSS - tcpTimestampOptionSize else rawPathMSS in
  s <| e_pathMSS := pathMSS |>
    <| e_receiveMSS := if pathMSS <? e_receiveMSS s then pathMSS else e_receiveMSS s |>
    <| e_lastReceiveSegmentSize := 0 |>.

(** [^uint32(0) >> 1], the threshold that has never been reduced. *)
Definition tcpInitialThreshold : Z := 2147483647.

Definition notifyMTUChange env s : estate :=
  s <| e_controller := onMTUChange (e_controller s) (e_congestionWindow s) (e_slowStartThreshold s) (e_peerMSS s)
                         (ev_clock env) |>.

(** The windows keep their value in bytes of the smaller segments. *)
Definition shrinkMSS s (newMSS : Z) : estate :=
  let oldMSS := e_peerMSS s in
  let s := s <| e_peerMSS := newMSS |>
             <| e_congestionWindow := tcpCongestionValueForMSS (e_congestionWindow s) oldMSS newMSS true |> in
  if negb (e_slowStartThreshold s =? tcpInitialThreshold)
  then s <| e_slowStartThreshold := tcpCongestionValueForMSS (e_slowStartThreshold s) oldMSS newMSS false |>
  else s.

Definition adoptMSS env s (newMSS : Z) (retransmit : bool) : option estate :=
  if newMSS =? e_peerMSS s then Some s
  else if e_peerMSS s <? newMSS then Some (notifyMTUChange env (s <| e_peerMSS := newMSS |>))
  else
    s ← resegment (notifyMTUChange env (shrinkMSS s newMSS));
    Some (if retransmit then armPathMTURetransmission s (ev_clock env) else s).

(** The segment size that an MTU gives this connection. *)
Definition sendMSSFor s (mtu : Z) : Z :=
  let c := e_connection s in
  tcpEffectiveSendMSS (cn_peerMSS c) (tcpMSSForMTU mtu (fst (cn_local c))) (cn_peerTimestamp c).

Definition applyPathMTU env s (mtu : Z) (retransmit : bool) : option estate :=
  s ← changeCongestionController epoch s (ev_registry env) (ev_factory env) (ev_sameFactory env)
        (ev_maximumPacingRate env) (ev_clock env);
  let s := armPathMTUProbe (sizesForMTU env s mtu) (ev_routeExpiry env) (ev_clock env) in
  adoptMSS env s (sendMSSFor s mtu) retransmit.

End LossRecovery.
