(* ===== verification/AckProcessing.v ===== *)
(** * Acknowledgement processing

    [processAcknowledgment] of [tcp.go]: the effect of one admitted ACK on the
    established actor's scoreboard, recovery, RTT, path MTU and congestion
    state.  The stages below follow the function from top to bottom; the record
    [ackEntry] holds what it reads at entry, [ackLocals] the locals that later
    stages read.  [None] is a panic or a loop that does not return. *)

From stdpp Require Import strings.
From S2P Require Import Prelude SeqNum Rtt SegmentQueue ByteBuffers TcpReceive Addr Windows Scoreboard.
From S2P Require Import Float64 DeliveryRate Congestion TcpOptions ReceiveWindow Recovery Established LossRecovery.

(** [tcpTimestampAt] of the stack. *)
Definition tcpTimestampAt (epoch now : Z) : Z := u32 (Z.quot (timeSub now epoch) millisecond) ⊞ 1.

(** ** What the function keeps *)

Record ackEntry := mkEntry {
  en_segment : tcpSegment;
  en_receivedAt : Z;
  en_timestampEcho : Z;
  en_previousSendUnacknowledged : Z;
  en_sackScoreboardEmpty : bool;
  en_previousWindow : Z;
  en_ackAdvanced : bool;
  en_oldACK : bool;
  en_recoveryAtACK : bool;
  en_hadSACKedAtACK : bool;
  en_rateSACKReneging : bool;
  en_hadOutstandingAtACK : bool;
  en_flightBeforeACK : Z;
  en_deliveryACK : bool;
  en_ecnFeedback : bool }.

Definition en_ack (e : ackEntry) : Z := sg_acknowledgement (en_segment e).

Record ackLocals := mkLocals {
  al_newlyDelivered : Z;
  al_acknowledgedForUndo : Z;
  al_rttSample : Z;
  al_sampledRTT : bool;
  al_partialCumulativeACK : bool;
  al_rtoPartialACK : bool;
  al_sackReneging : bool;
  al_ecnCongestion : bool;
  al_hasDSACK : bool;
  al_spuriousRecovery : bool;
  al_highestSACK : Z;
  al_hasSACK : bool;
  al_newSACKInfo : bool;
  al_frtoOriginalDelivered : bool;
  al_probeFailed : bool;
  al_confirmed : list Z }.

#[export] Instance ackLocals_settable : Settable ackLocals := fun l =>
  mkLocals (al_newlyDelivered l) (al_acknowledgedForUndo l) (al_rttSample l) (al_sampledRTT l)
    (al_partialCumulativeACK l) (al_rtoPartialACK l) (al_sackReneging l) (al_ecnCongestion l) (al_hasDSACK l)
    (al_spuriousRecovery l) (al_highestSACK l) (al_hasSACK l) (al_newSACKInfo l) (al_frtoOriginalDelivered l)
    (al_probeFailed l) (al_confirmed l).

Definition zeroLocals : ackLocals :=
  mkLocals 0 0 0 false false false false false false false 0 false false false false [].

Section AckProcessing.

Context {A : Type} `{CongestionController A}.
Variable outside : float64 -> Z.
Variable epoch : Z.

Implicit Type s : tcpEstablishedState A.
Implicit Type env : transportEnv A.
Implicit Type e : ackEntry.
Implicit Type l : ackLocals.

Notation estate := (tcpEstablishedState A).

Definition withSample s (f : CongestionRateSample -> CongestionRateSample) : estate :=
  s <| e_deliverySample := f <$> e_deliverySample s |>.

Definition endFRTO s : estate := s <| e_frtoState := tcpFRTOInactive |> <| e_frtoProbeBudget := 0 |>.

Definition openPhase s (receivedAt : Z) : estate :=
  s <| e_controller := setCongestionPhase (e_controller s) CongestionPhaseOpen receivedAt |>.

Definition clearSoftError s : estate :=
  s <| e_livenessState := (fun v => v <| lv_lastSoftError := None |>) <$> e_livenessState s |>.

Definition deactivateUndo s : estate := withUndo s (fun u => u <| un_active := false |>).

Definition frtoIs s (state : tcpFRTOState) : bool := bool_decide (e_frtoState s = state).

(** ** Entry *)

Definition updatePeerWindow s (segment : tcpSegment) (ackAdvanced oldACK : bool) : estate :=
  if oldACK then s
  else
    let '(peerWindow, update) :=
      tcpWindowUpdate ackAdvanced (sg_sequence segment) (e_peerWindowSequence s) (sg_window segment) (e_peerScale s)
        (e_peerWindow s) in
    if update then
      s <| e_peerWindow := peerWindow |>
        <| e_maximumPeerWindow := if e_maximumPeerWindow s <? peerWindow then peerWindow else e_maximumPeerWindow s |>
        <| e_peerWindowSequence := sg_sequence segment |>
    else s.

(** The entry snapshot, taken after the window update. *)
Definition enterACK s (segment : tcpSegment) (receivedAt timestampEcho : Z) : estate * ackEntry :=
  let ack := sg_acknowledgement segment in
  let ackAdvanced := tcpSequenceGreater ack (e_sendUnacknowledged s) in
  let oldACK := tcpSequenceLess ack (e_sendUnacknowledged s) in
  let previousWindow := e_peerWindow s in
  let s := updatePeerWindow s segment ackAdvanced oldACK in
  let deliveryACK := usesDeliveryRate (e_controller s) in
  let ecnFeedback := negb oldACK && cn_peerECN (e_connection s) && hasFlag (sg_flags segment) TCPFlagECE in
  let entry :=
    mkEntry segment receivedAt timestampEcho (e_sendUnacknowledged s) (e_sackedRanges s =? 0) previousWindow
      ackAdvanced oldACK (e_fastRecovery s) (negb (e_sackedRanges s =? 0)) (e_sackRenegingRecovery s)
      (negb (noOutstanding s)) (congestionFlight s) deliveryACK ecnFeedback in
  (if deliveryACK then s <| e_deliverySample := Some (zeroRateSample <| rs_ackTime := receivedAt |>) |> else s, entry).

(** ** ECN *)

(** The one reduction per window for ECN feedback. *)
Definition ecnReduction env s (receivedAt : Z) : estate :=
  let s := deactivateUndo (s <| e_hyStart := hy_disable (e_hyStart s) |>) in
  let minimumWindow := e_congestionWindow s <=? u32 (e_peerMSS s) in
  let '(controller, (threshold, window)) :=
    cc_onECN (e_controller s) (e_congestionWindow s) (congestionFlight s) (e_slowStartThreshold s) (e_peerMSS s)
      receivedAt in
  let s := s <| e_controller := controller |> <| e_slowStartThreshold := threshold |> <| e_congestionWindow := window |>
             <| e_ecnRecoveryPoint := e_sendNext s |> <| e_ecnRecoveryActive := true |> in
  let s := withConn s (fun c => c <| cn_sendCWR := true |>) in
  if minimumWindow then
    let hold := receivedAt + rt_rto (e_rtt s) in
    let s := s <| e_ecnHoldUntil := hold |> <| e_controller := cancelPacingWake (e_controller s) (ev_clock env) |> in
    armPacingAt s hold
  else s.

Definition ecnStage env s e : estate * ackLocals :=
  let ack := en_ack e in
  let s :=
    if e_ecnRecoveryActive s && bool_decide (cs_Phase (cc_state (e_controller s)) = CongestionPhaseCWR)
       && tcpSequenceGreaterEqual ack (e_ecnRecoveryPoint s)
    then openPhase s (en_receivedAt e) else s in
  let s := if en_ecnFeedback e && negb (frtoIs s tcpFRTOInactive) then endFRTO (deactivateUndo s) else s in
  let s := if frtoIs s tcpFRTOFallbackPending && en_ackAdvanced e then endFRTO s else s in
  if en_ecnFeedback e && negb (noOutstanding s) && tcpECNStartsRecovery (e_ecnRecoveryActive s) ack (e_ecnRecoveryPoint s)
  then (ecnReduction env s (en_receivedAt e), zeroLocals <| al_ecnCongestion := true |>)
  else (s, zeroLocals).

(** ** Cumulative progress *)

(** SND.UNA, the send buffer, and the state any progress resets. *)
Definition acceptProgress s e : estate :=
  let ack := en_ack e in
  let acknowledged := ack ⊟ e_sendUnacknowledged s in
  let s := s <| e_bytesAcknowledged := u64 (e_bytesAcknowledged s + acknowledged) |> in
  let s := withConn s (fun c => acknowledgeSend c acknowledged) <| e_sendUnacknowledged := ack |> in
  let s := withConn s (fun c => c <| cn_icmpRange := (ack, e_sendNext s) |>) in
  s <| e_duplicateACKs := 0 |> <| e_rtoAttempts := 0 |>.

(** Timeout recovery ends at its recovery point. *)
Definition timeoutProgress s l e : estate * ackLocals :=
  if e_rtoRecovery s then
    if tcpSequenceGreaterEqual (en_ack e) (e_rtoRecoveryPoint s) && frtoIs s tcpFRTOInactive then
      let s := s <| e_rtoRecovery := false |> <| e_rtoRecoveryPoint := 0 |> <| e_sackRenegingRecovery := false |> in
      (ageRACKReordering (openPhase s (en_receivedAt e)), l)
    else (s, l <| al_rtoPartialACK := true |>)
  else (s, l).

(** One RTT measurement. *)
Definition takeSample s l e (sample : Z) : estate * ackLocals :=
  (s <| e_rtt := observeAt (e_rtt s) sample (monotonicStampAt epoch (en_receivedAt e)) |>,
   l <| al_rttSample := sample |> <| al_sampledRTT := true |>).

Definition timestampSample s l e : estate * ackLocals :=
  if cn_peerTimestamp (e_connection s) && negb (en_timestampEcho e =? 0) then
    let delta := tcpTimestampAt epoch (en_receivedAt e) ⊟ en_timestampEcho e in
    if negb (delta =? 0) && (delta * millisecond <=? tcpMaximumRTO) then takeSample s l e (delta * millisecond)
    else (s, l)
  else (s, l).

(** The delivery of [segment] up to [stop]: the rate sample, RACK's forward edge
    or the SACK account, and the newest delivered transmission. *)
Definition deliverRange s e (segment : sentTCPSegment) (stop removed ranges : Z) : estate :=
  let s := if en_deliveryACK e then withSample s (fun r => rs_observe r segment) else s in
  let s :=
    if hasState segment sentTCPSegmentSACKed
    then s <| e_sackedRanges := e_sackedRanges s - ranges |> <| e_sackedBytes := e_sackedBytes s ⊟ removed |>
    else observeRACKReordering s stop (isRetransmitted segment) in
  let sent := transmittedAt segment epoch in
  let candidate := mkRack sent stop (st_order segment) (elapsedRTTSampleAt sent (en_receivedAt e))
                     (st_timestamp segment) (isRetransmitted segment) in
  s <| e_rackLatestDelivered :=
         newerRACKSample (e_rackLatestDelivered s)
           (validRACKSample candidate (rt_minimum (e_rtt s)) (en_timestampEcho e)) |>.

(** The loop over wholly acknowledged ranges, the scoreboard as an argument. *)
Fixpoint popAcknowledged (ambiguous : bool) e (outstanding : list sentTCPSegment) s l
    : list sentTCPSegment * estate * ackLocals :=
  match outstanding with
  | [] => ([], s, l)
  | oldest :: rest =>
      if tcpSequenceGreaterEqual (en_ack e) (st_end oldest) then
        let s := deliverRange s e oldest (st_end oldest) (segLen oldest) 1 in
        let '(s, l) :=
          if negb (al_sampledRTT l) && negb ambiguous && negb (isRetransmitted oldest)
          then takeSample s l e (elapsedRTTSampleAt (transmittedAt oldest epoch) (en_receivedAt e)) else (s, l) in
        let s :=
          if hasFlag (st_flags oldest) TCPFlagFIN
          then withConn s (fun c => c <| cn_lingerDone := true |>) <| e_localFINAcked := true |> else s in
        popAcknowledged ambiguous e rest s l
      else (outstanding, s, l)
  end.

(** The partly acknowledged head. *)
Definition trimHead s l e : estate * ackLocals :=
  match e_outstanding s with
  | oldest :: rest =>
      let ack := en_ack e in
      if tcpSequenceGreater ack (st_sequence oldest) then
        let s := deliverRange s e oldest ack (ack ⊟ st_sequence oldest) 0 in
        (s <| e_outstanding := trimAcknowledgedTCPSegment oldest ack :: rest |>,
         l <| al_partialCumulativeACK := true |>)
      else (s, l)
  | [] => (s, l)
  end.

(** The scoreboard behind a cumulative ACK. *)
Definition advanceScoreboard s l e : estate * ackLocals :=
  let ambiguous := tcpACKRTTAmbiguous (e_outstanding s) (en_ack e) in
  let '(outstanding, s, l) := popAcknowledged ambiguous e (e_outstanding s) s l in
  let s := s <| e_outstanding := outstanding |> in
  let s := if noOutstanding s then s <| e_sackedRanges := 0 |> <| e_sackedBytes := 0 |> else s in
  let '(s, l) := trimHead s l e in
  (s, l <| al_sackReneging := e_peerSACK s && head_has s sentTCPSegmentSACKed |>).

(** A delivered path MTU probe. *)
Definition probeDelivered env s l e : option (estate * ackLocals) :=
  let p := ensurePathMTUState s in
  let '(discovery, mtu) := pl_success (pm_discovery p) (en_receivedAt e) in
  let s := s <| e_pathMTUState := Some (p <| pm_discovery := discovery |>
                                          <| pm_successes := u64 (pm_successes p + 1) |>) |> in
  s ← applyPathMTU epoch env s mtu false;
  Some (s, l <| al_confirmed := al_confirmed l ++ [mtu] |>).

(** A repaired tail loss is congestion unless recovery already answers it. *)
Definition tailLossRepaired s e : estate :=
  let s := s <| e_controller :=
                  onTailLossProbeRecovered (e_controller s) (en_receivedAt e) (e_tailProbeBytes s) (e_tailProbeState s)
                    (e_congestionWindow s) (e_slowStartThreshold s) (en_flightBeforeACK e) (e_peerMSS s)
                    (rt_srtt (e_rtt s)) |> in
  if negb (e_fastRecovery s)
     && tcpECNStartsRecovery (e_ecnRecoveryActive s) (e_sendUnacknowledged s) (e_ecnRecoveryPoint s)
  then
    let s := s <| e_hyStart := hy_disable (e_hyStart s) |> in
    let '(controller, (threshold, window)) :=
      cc_onCongestion (e_controller s) (e_congestionWindow s) (en_flightBeforeACK e) (e_slowStartThreshold s)
        (e_peerMSS s) (en_receivedAt e) in
    let s := s <| e_controller := controller |> <| e_slowStartThreshold := threshold |>
               <| e_congestionWindow := window |> in
    let '(controller, window) :=
      exitRecoveryWindow (e_controller s) (en_receivedAt e) (e_congestionWindow s) (e_slowStartThreshold s)
        (congestionFlight s) (e_peerSACK s) in
    raiseCWR (s <| e_controller := controller |> <| e_congestionWindow := window |>
                <| e_ecnRecoveryPoint := e_sendNext s |> <| e_ecnRecoveryActive := true |>)
  else s.

Definition tailProbeStage s e : estate :=
  if e_tailProbeActive s && tcpSequenceGreaterEqual (en_ack e) (e_tailProbeEnd s) then
    if negb (e_tailProbeRetransmit s) then s <| e_tailProbeActive := false |>
    else if tcpSequenceGreater (en_ack e) (e_tailProbeEnd s) then stopTailProbe (tailLossRepaired s e)
    else s
  else s.

(** The end of fast recovery. *)
Definition finishRecovery s e : estate :=
  let s := clearPRR (ageRACKReordering s <| e_fastRecovery := false |>) in
  let '(controller, window) :=
    exitRecoveryWindow (e_controller s) (en_receivedAt e) (e_congestionWindow s) (e_slowStartThreshold s)
      (congestionFlight s) (e_peerSACK s) in
  s <| e_controller := controller |> <| e_congestionWindow := window |>.

(** A NewReno partial ACK deflates and retransmits the next hole. *)
Definition newRenoPartialACK env s e (acknowledged : Z) : option estate :=
  let '(controller, window) :=
    partialACKWindow (e_controller s) (en_receivedAt e) (e_congestionWindow s) acknowledged (congestionFlight s)
      (e_peerMSS s) in
  let s := s <| e_controller := controller |> <| e_congestionWindow := window |> in
  let index := firstUnsackedSegment (e_outstanding s) in
  s ← (if 0 <=? index then
         segment ← idx (e_outstanding s) index;
         Some (s <| e_outstanding := <[Z.to_nat index := setState segment sentTCPSegmentSACKRetried false]>
                                       (e_outstanding s) |>)
       else Some s);
  enterRecovery env s index (en_receivedAt e).

(** Window growth outside recovery. *)
Definition growWindow s l e (acknowledged : Z) : estate :=
  let sample := normalizedRTTSample (al_rttSample l) in
  let '(s, growth) :=
    if e_congestionWindow s <? e_slowStartThreshold s then
      let '(hyStart, (growth, completed)) :=
        hy_onACK (e_hyStart s) (en_ack e) (e_sendNext s) acknowledged sample in
      let s := s <| e_hyStart := hyStart |> in
      (if completed then s <| e_slowStartThreshold := e_congestionWindow s |> else s, growth)
    else (s, acknowledged) in
  let '(controller, (window, threshold)) :=
    onACKWithThreshold (e_controller s) (e_congestionWindow s) growth (en_ack e) (e_peerMSS s) (en_receivedAt e)
      (rt_srtt (e_rtt s)) (rt_minimum (e_rtt s)) sample (en_flightBeforeACK e) (e_slowStartThreshold s) false in
  s <| e_controller := controller |> <| e_congestionWindow := window |> <| e_slowStartThreshold := threshold |>.

Definition windowStage env s l e (acknowledged : Z) : option estate :=
  if e_fastRecovery s then
    if tcpSequenceGreaterEqual (en_ack e) (e_recoveryPoint s) then Some (finishRecovery s e)
    else if negb (e_peerSACK s) then newRenoPartialACK env s e acknowledged
    else Some s
  else if negb (al_ecnCongestion l) && negb (usesDeliveryRate (e_controller s))
  then Some (growWindow s l e acknowledged) else Some s.

Definition growSend s (target : Z) : estate := withConn s (fun c => fst (growSendCapacity c target)).

Definition tuneSendBuffer s e : estate :=
  let '(tune, target) :=
    at_target outside (e_sendAutoTune s) (en_receivedAt e) (rt_srtt (e_rtt s)) (e_bytesAcknowledged s)
      (cn_sendMaximum (e_connection s)) in
  let s := s <| e_sendAutoTune := tune |> in
  if 0 <? target then growSend s target else s.

Definition probeSucceeded s e : bool :=
  probeActive s && tcpSequenceGreaterEqual (en_ack e) (pl_probeEnd (pm_discovery (ensurePathMTUState s))).

(** An ACK that advances SND.UNA. *)
Definition advanceStage env s l e : option (estate * ackLocals) :=
  let acknowledged := en_ack e ⊟ e_sendUnacknowledged s in
  let succeeded := probeSucceeded s e in
  let l := l <| al_acknowledgedForUndo := acknowledged |>
             <| al_newlyDelivered := tcpNewlyAcknowledgedBytes (e_outstanding s) (en_ack e) |> in
  let '(s, l) := timeoutProgress (acceptProgress s e) l e in
  let s := clearSoftError (s <| e_blackHoleRTOs := 0 |>) in
  let '(s, l) := timestampSample s l e in
  let '(s, l) := advanceScoreboard s l e in
  '(s, l) ← (if succeeded then probeDelivered env s l e else Some (s, l));
  let s := if negb (e_fastRecovery s) then clearLimited s else s in
  s ← windowStage env (tailProbeStage s e) l e acknowledged;
  Some (tuneSendBuffer s e, l).

(** A current ACK without progress answers a persist probe. *)
Definition currentStage s : estate := clearSoftError (persistAnswered s).

Definition progressStage env s l e : option (estate * ackLocals) :=
  if en_ackAdvanced e then advanceStage env s l e
  else Some (if negb (en_oldACK e) then currentStage s else s, l).

(** ** DSACK and undo *)

(** The DSACK of the ACK, relative to its own acknowledgement number. *)
Definition dsackOf s e : option (option TCPSACKBlock) :=
  if e_peerSACK s then
    let historyBytes :=
      if en_oldACK e then u64 (e_bytesAcknowledged s - (e_sendUnacknowledged s ⊟ en_ack e))
      else e_bytesAcknowledged s in
    let history := if tcpMaximumScaledWindow <? historyBytes then tcpMaximumScaledWindow else u32 historyBytes in
    parseTCPDSACKOption (sg_options (en_segment e)) (en_ack e) (e_sendNext s) history
  else Some None.

(** The Eifel test of the first acceptable ACK. *)
Definition eifelStage s e (hasDSACK : bool) : estate * bool :=
  match e_undo s with
  | Some u =>
      if en_ackAdvanced e then
        let '(u, spurious) := detectEifel u (en_timestampEcho e) hasDSACK (e_seenDSACK s) (en_ack e) in
        (s <| e_undo := Some u |>, spurious)
      else (s, false)
  | None => (s, false)
  end.

Definition disableDSACKUndo s : estate := withUndo s (fun u => u <| un_dsackDisabled := true |>).

(** Correlating a DSACK with the retransmissions. *)
Definition correlateDSACK s e (dsack : TCPSACKBlock) (spurious : bool) : estate * bool :=
  if e_dsackUndoDisabled s then (s, spurious)
  else
    let '(matched, repeated) := hi_match (default [] (e_retransmitHistory s)) dsack in
    if negb matched then (disableDSACKUndo (s <| e_dsackUndoDisabled := true |>), spurious)
    else if repeated then (disableDSACKUndo s, spurious)
    else
      match e_undo s with
      | Some u =>
          let '(u, undone) := observeDSACK u dsack (e_sendUnacknowledged s) (en_previousSendUnacknowledged e)
                                (en_sackScoreboardEmpty e) in
          (s <| e_undo := Some u |>, spurious || undone)
      | None => (s, spurious)
      end.

(** Reordering proved by a DSACK, at most once per round. *)
Definition observeDuplicate s e (dsack : TCPSACKBlock) : estate :=
  let s := s <| e_seenDSACK := true |> <| e_rackReorderingSeen := true |> <| e_rackReorderPersist := 16 |> in
  let s :=
    if negb (e_rackDSACKRoundSet s) || tcpSequenceGreater (en_ack e) (e_rackDSACKRound s) then
      let s := if negb (e_rackReorderingScale s =? 4294967295)
               then s <| e_rackReorderingScale := e_rackReorderingScale s + 1 |> else s in
      s <| e_rackDSACKRound := e_sendNext s |> <| e_rackDSACKRoundSet := true |>
    else s in
  if e_tailProbeActive s && e_tailProbeRetransmit s && tcpSequenceLess (LeftEdge dsack) (e_tailProbeEnd s)
     && tcpSequenceGreaterEqual (RightEdge dsack) (e_tailProbeEnd s)
  then stopTailProbe s else s.

(** ECE forbids an undo; otherwise a spurious recovery is undone. *)
Definition undoStage s l e : estate :=
  if al_spuriousRecovery l then
    if en_ecnFeedback e then endFRTO (deactivateUndo s)
    else fst (restoreSpuriousRecovery s (en_receivedAt e) (al_acknowledgedForUndo l))
  else s.

Definition eifelRTOStage s l e : estate :=
  match e_eifelRTO s with
  | Some response =>
      let '(observed, response, rtt) := eifel_observe response (en_ack e) (al_rttSample l) (e_rtt s) in
      s <| e_rtt := rtt |> <| e_eifelRTO := if observed then None else Some response |>
  | None => s
  end.

Definition dsackStage s l e : option (estate * ackLocals) :=
  dsack ← dsackOf s e;
  let hasDSACK := match dsack with Some _ => true | None => false end in
  let '(s, spurious) := eifelStage s e hasDSACK in
  let '(s, spurious) :=
    match dsack with
    | Some block => let '(s, spurious) := correlateDSACK s e block spurious in (observeDuplicate s e block, spurious)
    | None => (s, spurious)
    end in
  let l := l <| al_hasDSACK := hasDSACK |> <| al_spuriousRecovery := spurious |> in
  Some (eifelRTOStage (undoStage s l e) l e, l).

(** ** SACK *)

(** One newly SACKed range; the third component is the earliest transmission
    sampled so far, zero when none. *)
Definition newlySACKedRange e (acc : estate * ackLocals * Z) (candidate : sentTCPSegment)
    : estate * ackLocals * Z :=
  let '(s, l, earliest) := acc in
  let l := l <| al_newlyDelivered := growCongestionWindow (al_newlyDelivered l) (segLen candidate) |> in
  let s := if en_deliveryACK e then withSample s (fun r => rs_observe r candidate) else s in
  let '(l, earliest) :=
    if negb (isRetransmitted candidate) then
      let l := if negb (frtoIs s tcpFRTOInactive) && tcpSequenceLess (st_sequence candidate) (e_rtoRecoveryPoint s)
               then l <| al_frtoOriginalDelivered := true |> else l in
      let sentAt := transmittedAt candidate epoch in
      (l, if negb (isSet earliest) || (sentAt <? earliest) then sentAt else earliest)
    else (l, earliest) in
  (observeRACKReordering s (st_end candidate) (isRetransmitted candidate), l, earliest).

(** RACK's loss inference after the scoreboard update. *)
Definition rackStage s l e : estate :=
  if negb (al_sackReneging l) && (rk_retransmitted (e_rackLatestDelivered s) || negb (e_sackedRanges s =? 0)) then
    let '(outstanding, lost) :=
      markRACKLoss (e_outstanding s) (e_rackLatestDelivered s) (en_receivedAt e) (currentReorderingWindow s) epoch in
    s <| e_outstanding := outstanding |> <| e_haveRACKLoss := lost |>
  else s.

Definition withRTT (sample : tcpRACKSample) (rtt : Z) : tcpRACKSample :=
  mkRack (rk_sentAt sample) (rk_end sample) (rk_order sample) rtt (rk_timestamp sample) (rk_retransmitted sample).

Definition sackStage s l e : option (estate * ackLocals) :=
  if negb (e_peerSACK s) || noOutstanding s then Some (s, l)
  else
    blocks ← parseTCPSACKOptions (sg_options (en_segment e)) (e_sendUnacknowledged s) (e_sendNext s);
    let '(r, hasSACK) := applyTCPSACK (e_outstanding s) blocks epoch in
    let s := s <| e_outstanding := sr_outstanding r |> in
    let s := if hasSACK then recountSACK s else s in
    let l := l <| al_highestSACK := sr_highest r |> <| al_hasSACK := hasSACK |>
               <| al_newSACKInfo := sr_newInformation r |> in
    let '(s, l, earliest) := foldl (newlySACKedRange e) (s, l, 0) (sr_newly r) in
    let '(s, l) :=
      if negb (al_sampledRTT l) && isSet earliest
      then takeSample s l e (elapsedRTTSampleAt earliest (en_receivedAt e)) else (s, l) in
    let latest := withRTT (sr_latest r) (elapsedRTTSampleAt (rk_sentAt (sr_latest r)) (en_receivedAt e)) in
    let s := s <| e_rackLatestDelivered :=
                    newerRACKSample (e_rackLatestDelivered s)
                      (validRACKSample latest (rt_minimum (e_rtt s)) (en_timestampEcho e)) |> in
    Some (rackStage s l e, l).

(** Whether PRR watches for new losses, before the scoreboard changes. *)
Definition trackPRRLoss s e : bool := en_recoveryAtACK e && e_fastRecovery s && e_peerSACK s.

(** Proportional rate reduction on the delivered bytes. *)
Definition prrStage s l e (newlyLost : bool) : estate :=
  if en_recoveryAtACK e && e_fastRecovery s && e_peerSACK s && negb (al_newlyDelivered l =? 0) then
    let s := s <| e_prrDelivered := u64 (e_prrDelivered s + al_newlyDelivered l) |> in
    let pipe := sackRecoveryPipe (e_outstanding s) (e_peerMSS s) in
    let proposed := prrCongestionWindow pipe (e_slowStartThreshold s) (e_prrPriorFlight s) (e_prrDelivered s)
                      (e_prrOut s) (al_newlyDelivered l) (en_ackAdvanced e) newlyLost (e_peerMSS s) in
    let '(controller, window) :=
      applyPRRWindow (e_controller s) (en_receivedAt e) (e_congestionWindow s) proposed pipe in
    s <| e_controller := controller |> <| e_congestionWindow := window |>
  else s.

(** The isolated loss of a path MTU probe. *)
Definition probeFailureStage env s l : option (estate * ackLocals) :=
  let probeStart := pl_probeStart (pm_discovery (ensurePathMTUState s)) in
  if probeActive s && al_hasSACK l && (e_sendUnacknowledged s =? probeStart)
     && isolatedPLPMTUProbeLoss (e_outstanding s) probeStart (al_highestSACK l) (e_peerMSS s)
  then
    '(s, confirmed) ← failPLPMTUProbe env s;
    Some (s, l <| al_probeFailed := true |> <| al_confirmed := al_confirmed l ++ option_list confirmed |>)
  else Some (s, l).

(** The end of an unanswered tail probe. *)
Definition tailProbeEvidence s l e : estate :=
  let segment := en_segment e in
  let s :=
    if e_tailProbeActive s && e_tailProbeRetransmit s && negb (en_ackAdvanced e) && (en_ack e =? e_tailProbeEnd s)
       && (en_previousWindow e =? e_peerWindow s) && negb (al_hasSACK l) && (zlen (sg_payload segment) =? 0)
       && negb (hasFlag (sg_flags segment) TCPFlagFIN)
    then stopTailProbe s else s in
  if en_deliveryACK e && e_tailProbeActive s && e_tailProbeRetransmit s && (en_ack e =? e_tailProbeEnd s)
  then withSample s (fun r => r <| rs_tailLossProbeACK := true |>) else s.

(** The scoreboard stages and what they prove lost. *)
Definition evidenceStage env s l e : option (estate * ackLocals) :=
  let track := trackPRRLoss s e in
  let lostBefore := if track then sackLostRangeCount (e_outstanding s) (e_peerMSS s) else 0 in
  '(s, l) ← sackStage s l e;
  let newlyLost := track && (lostBefore <? sackLostRangeCount (e_outstanding s) (e_peerMSS s)) in
  '(s, l) ← probeFailureStage env (prrStage s l e newlyLost) l;
  let s := if negb (al_sackReneging l) && (al_hasSACK l || e_haveRACKLoss s)
           then recordProvenLosses s (en_deliveryACK e) (en_receivedAt e) (ev_clock env) else s in
  let s := tailProbeEvidence s l e in
  Some (if al_sackReneging l then armSACKReneging s (ev_clock env) else s, l).

(** ** F-RTO *)

Record frtoVerdict := mkVerdict {
  fv_spurious : bool;
  fv_fallback : bool;
  fv_limitWindow : bool;
  fv_startProbe : bool }.

(** The probes of RFC 5682 have been sent, at least one of them. *)
Definition frtoProbed s : bool :=
  frtoIs s tcpFRTOProbeSent || (frtoIs s tcpFRTOProbePending && (e_frtoProbeBudget s <? 2)).

Definition frtoDecision s l e (duplicateEvidence : bool) : frtoVerdict :=
  let ack := en_ack e in
  if frtoIs s tcpFRTOTimeoutPending then mkVerdict (en_ackAdvanced e) false false false
  else if frtoProbed s then
    if e_peerSACK s then
      let beyond := tcpSequenceGreater ack (e_rtoRecoveryPoint s)
                    || (al_hasSACK l && tcpSequenceGreater (al_highestSACK l) (e_rtoRecoveryPoint s)) in
      let fallback := beyond || (duplicateEvidence && negb (al_frtoOriginalDelivered l)) in
      mkVerdict (negb beyond && (en_ackAdvanced e || al_frtoOriginalDelivered l)) fallback fallback false
    else mkVerdict (en_ackAdvanced e) duplicateEvidence duplicateEvidence false
  else if en_ackAdvanced e then
    let retransmissionEnd := match e_undo s with Some u => match un_ranges u with r :: _ => ur_end r | [] => 0 end
                                                | None => 0 end in
    let fallback := (retransmissionEnd =? 0) || tcpSequenceLess ack retransmissionEnd
                    || tcpSequenceGreaterEqual ack (e_rtoRecoveryPoint s) in
    mkVerdict false fallback false (negb fallback)
  else mkVerdict false (negb (e_peerSACK s) && duplicateEvidence) false false.

(** Conventional timeout recovery resumes. *)
Definition frtoFallback s l e (limitWindow : bool) : estate * ackLocals :=
  let s := endFRTO s in
  let limit := u32 (3 * u32 (e_peerMSS s)) in
  let s := if limitWindow && (limit <? e_congestionWindow s) then s <| e_congestionWindow := limit |> else s in
  if tcpSequenceGreaterEqual (en_ack e) (e_rtoRecoveryPoint s)
  then (openPhase (s <| e_rtoRecovery := false |> <| e_rtoRecoveryPoint := 0 |>) (en_receivedAt e),
        l <| al_rtoPartialACK := false |>)
  else (s, l <| al_rtoPartialACK := true |>).

Definition frtoStage s l e (duplicateEvidence : bool) : estate * ackLocals :=
  let s := if frtoIs s tcpFRTOFallbackPending && (duplicateEvidence || al_sackReneging l) then endFRTO s else s in
  if frtoIs s tcpFRTOInactive || al_sackReneging l then (s, l)
  else
    let v := frtoDecision s l e duplicateEvidence in
    let '(s, l) :=
      if fv_startProbe v
      then (s <| e_frtoState := tcpFRTOProbePending |> <| e_frtoProbeBudget := 2 |>, l <| al_rtoPartialACK := false |>)
      else (s, l) in
    if fv_spurious v then
      (fst (restoreSpuriousRecovery s (en_receivedAt e) (al_acknowledgedForUndo l)), l <| al_rtoPartialACK := false |>)
    else if fv_fallback v then frtoFallback s l e (fv_limitWindow v)
    else (s, l).

(** ** Loss recovery *)

(** A partial ACK in timeout recovery authorises the next retransmission. *)
Definition partialTimeoutStage s l e : option estate :=
  if al_rtoPartialACK l && negb (al_sackReneging l) then
    let index := if e_peerSACK s then firstRACKLoss (e_outstanding s) else firstUnsackedSegment (e_outstanding s) in
    if 0 <=? index then
      segment ← idx (e_outstanding s) index;
      let segment := if negb (e_peerSACK s) then setState segment sentTCPSegmentSACKRetried false else segment in
      let s := s <| e_outstanding := <[Z.to_nat index := segment]> (e_outstanding s) |> in
      s ← noteSegmentLoss s index true (en_deliveryACK e) true (en_receivedAt e) ordinaryFlight;
      Some (stopTailProbe s)
    else Some s
  else Some s.

Definition rackRecoveryStage env s l e : option estate :=
  if negb (al_sackReneging l) && negb (e_rtoRecovery s) && e_haveRACKLoss s then
    s ← enterRecovery env s (firstUnretriedLoss (e_outstanding s) (e_peerMSS s)) (en_receivedAt e);
    Some (s <| e_haveRACKLoss := hasRACKLoss (e_outstanding s) |>)
  else Some s.

(** Duplicate ACKs: limited transmit, fast retransmit, window inflation. *)
Definition duplicateStage env s l e (duplicateEvidence : bool) : option estate :=
  let countDuplicate := duplicateEvidence && (negb (e_peerSACK s) || negb (e_fastRecovery s)) in
  if negb (al_probeFailed l) && negb (e_rtoRecovery s) && negb (noOutstanding s) && countDuplicate then
    let s := s <| e_duplicateACKs := e_duplicateACKs s + 1 |> in
    if (e_duplicateACKs s <? tcpDuplicateACKThreshold) && negb (e_fastRecovery s) then Some s
    else if e_duplicateACKs s =? tcpDuplicateACKThreshold
    then enterRecovery env s (firstUnsackedSegment (e_outstanding s)) (en_receivedAt e)
    else if (tcpDuplicateACKThreshold <? e_duplicateACKs s) && negb (e_peerSACK s) then
      let '(controller, window) :=
        duplicateACKWindow (e_controller s) (en_receivedAt e) (e_congestionWindow s) (congestionFlight s) (e_peerMSS s) in
      Some (s <| e_controller := controller |> <| e_congestionWindow := window |>)
    else Some s
  else Some s.

Definition timerUpdate s l e : tcpRetransmissionUpdate :=
  if en_ackAdvanced e then tcpRetransmissionRestart
  else if negb (en_oldACK e) || al_newSACKInfo l || al_hasDSACK l || al_spuriousRecovery l || al_ecnCongestion l
          || e_haveRACKLoss s
  then tcpRetransmissionReselect else tcpRetransmissionPreserve.

(** ** The rate sample *)

(** The finished sample with the connection's view of the ACK. *)
Definition labelSample s l e (r : CongestionRateSample) : CongestionRateSample :=
  let recovery := e_fastRecovery s || e_rtoRecovery s in
  r <| rs_recovery := recovery |> <| rs_fastRecovery := e_fastRecovery s |>
    <| rs_ackDelayed := en_ackAdvanced e && negb (al_partialCumulativeACK l) && negb (en_hadSACKedAtACK e)
                        && negb (al_ecnCongestion l) && negb (al_hasDSACK l) && negb recovery
                        && (rs_losses r =? 0) && negb (rs_retransmitted r) && (rs_acked r <? u32 (e_peerMSS s))
                        && (rs_delivered r =? rs_acked r) |>.

Definition rateStage s l e : estate :=
  if negb (en_deliveryACK e) || negb (en_hadOutstandingAtACK e) then s
  else
    let '(controller, r) :=
      finishDeliveryRateSample (e_controller s) (default zeroRateSample (e_deliverySample s)) (al_newlyDelivered l)
        (en_flightBeforeACK e) (congestionFlight s) (en_receivedAt e) (monotonicStampAt epoch (en_receivedAt e))
        (rt_minimum (e_rtt s)) (rt_srtt (e_rtt s)) (normalizedRTTSample (al_rttSample l)) (en_rateSACKReneging e) in
    let r := labelSample s l e r in
    let s := s <| e_controller := controller |> <| e_deliverySample := Some r |> in
    if negb (en_oldACK e) || negb (al_newlyDelivered l =? 0) || negb (rs_losses r =? 0) then
      let '(controller, (window, threshold)) :=
        onDeliveryRateSample (e_controller s) (e_congestionWindow s) (e_slowStartThreshold s) (e_peerMSS s) (en_ack e) r in
      let s := s <| e_controller := controller |> <| e_congestionWindow := window |> in
      if negb (threshold =? 0) then s <| e_slowStartThreshold := threshold |> else s
    else s.

(** A controller may provision several windows of send buffer. *)
Definition provisionStage s l e : estate :=
  let multiplier := sendBufferMultiplier (e_controller s) in
  if en_hadOutstandingAtACK e && negb (al_newlyDelivered l =? 0) && negb (multiplier =? 0) then
    let maximum := cn_sendMaximum (e_connection s) in
    let target := u64 (e_congestionWindow s * multiplier) in
    growSend s (if u64 maximum <? target then maximum else target)
  else s.

(** ** The whole *)

(** Everything after the scoreboard is settled. *)
Definition responseStage env s l e : option (estate * ackLocals) :=
  let duplicateEvidence :=
    tcpDuplicateACKEvidence (en_segment e) (e_peerSACK s) (al_newSACKInfo l) (en_ackAdvanced e)
      (e_sendUnacknowledged s) (en_previousWindow e) (e_peerWindow s) in
  let '(s, l) := frtoStage s l e duplicateEvidence in
  s ← partialTimeoutStage s l e;
  s ← rackRecoveryStage env s l e;
  s ← duplicateStage env s l e duplicateEvidence;
  Some (s, l).

(** The state, the retransmission-timer update, and the path MTUs the stack is
    told to confirm. *)
Definition processAcknowledgment env s (segment : tcpSegment) (receivedAt timestampEcho : Z)
    : option (estate * tcpRetransmissionUpdate * list Z) :=
  let '(s, e) := enterACK s segment receivedAt timestampEcho in
  let '(s, l) := ecnStage env s e in
  '(s, l) ← progressStage env s l e;
  '(s, l) ← dsackStage s l e;
  '(s, l) ← evidenceStage env s l e;
  '(s, l) ← responseStage env s l e;
  Some (provisionStage (rateStage s l e) l e, timerUpdate s l e, al_confirmed l).

End AckProcessing.
