(* ===== verification/EstablishedLaws.v ===== *)
(** * Laws of the established connection

    TIME-WAIT protection, zero-window probing, the retransmission timer and the
    undo of spurious recovery, proved of the operations of [Established.v]. *)

From stdpp Require Import strings.
From S2P Require Import Prelude SeqNum Rtt SegmentQueue ByteBuffers TcpReceive Addr Windows Scoreboard.
From S2P Require Import Float64 DeliveryRate Congestion LossBased TcpOptions ReceiveWindow Recovery Established.

(** ** A sample connection

    IPv4, an MTU of 1500, timestamps and SACK negotiated, Reno. *)

Definition sampleConn : connState :=
  mkConn 1500 (Addr4 [10; 0; 0; 1], 80) (Addr4 [10; 0; 0; 2], 5000) false false 1460 true 7 true 65535 1000
    5000 7 false (20 * millisecond) true 77 false false false 0
    (mkRecvConn 65536 emptyReadBuffer false false 0 None) true tcpMaximumReceiveCapacity
    emptySendBuffer false false true 65536 tcpMaximumSendCapacity (0, 0) false
    (mkSocketOptions false (mkKeepAlive 0 0 0) 0 0 false).

Definition renoDefinition : CongestionControlDefinition Reno.renoCongestionControl :=
  mkDefinition "reno" (Some (fun _ => Reno.newRenoCongestionControl)) 0 2.

(** Float conversions are in range in the samples. *)
Definition sampleOutside : float64 -> Z := fun _ => 0.

#[export] Instance sampleReno : CongestionController Reno.renoCongestionControl := Reno.reno_controller sampleOutside.

(** The state the handshake of [sampleConn] leaves, ISS + 1 = 1000. *)
Definition sampleEstablished (c : connState) : option (tcpEstablishedState Reno.renoCongestionControl) :=
  newTCPEstablishedState 0 ∅ (Some renoDefinition) 0 c 1000 second.

(** ** TIME-WAIT *)

Section TimeWait.

Context {A : Type} `{CongestionController A}.
Variable outside : float64 -> Z.
Variable epoch : Z.

Implicit Type s : tcpEstablishedState A.

(** What a TIME-WAIT tuple must keep: the two sequence spaces, the close flags
    that derive the public state, the windows and the flights. *)
Definition timeWaitCore s :=
  (connectionState s, e_sendUnacknowledged s, e_sendNext s, e_receiveNext s, e_peerWindow s,
   e_congestionWindow s, e_outstanding s, e_outOfOrder s,
   (e_timeWaitArmed s, e_retransmit s, e_retransmissionKind s, e_lastActivity s)).

(** The tuple owns the close deadline. *)
Definition timeWaitOwner s : Prop :=
  e_timeWaitArmed s = true /\ e_retransmit s = true /\ e_retransmissionKind s = tcpRetransmissionClose.

(** The deadline and the remembered timestamp. *)
Definition timeWaitClock s := (e_retransmissionDeadline s, cn_recentTimestamp (e_connection s)).

Lemma core_owner s s' : timeWaitCore s' = timeWaitCore s -> timeWaitOwner s -> timeWaitOwner s'.
Proof. unfold timeWaitCore, timeWaitOwner. intros [= _ _ _ _ _ _ _ _ E1 E2 E3 _]. congruence. Qed.

Lemma clearDelayedACK_keeps s :
  timeWaitCore (clearDelayedACK s) = timeWaitCore s /\ timeWaitClock (clearDelayedACK s) = timeWaitClock s.
Proof. by split. Qed.

Lemma commitAcknowledgment_keeps s window rightEdge reserve selective :
  timeWaitCore (commitAcknowledgment s window rightEdge reserve selective) = timeWaitCore s /\
  timeWaitClock (commitAcknowledgment s window rightEdge reserve selective) = timeWaitClock s.
Proof.
  unfold commitAcknowledgment. set (satisfied := _ || _). clearbody satisfied. cbv zeta.
  destruct (_ && _ && _), satisfied; split; reflexivity.
Qed.

(** An attempted ACK changes acknowledgement bookkeeping only. *)
Lemma trySendACK_keeps s sent :
  is_Some (sackOptions s 0) ->
  exists s' out, trySendACK s sent = Some (s', out) /\
    timeWaitCore s' = timeWaitCore s /\ timeWaitClock s' = timeWaitClock s.
Proof.
  intros [[options dsack] E]. unfold trySendACK, trySendACKAt. rewrite E. cbn [mbind option_bind].
  destruct (nextAdvertisedReceiveWindow s) as [ [window rightEdge] reserve].
  destruct sent; cbn [negb]; [|by eexists _, _].
  eexists _, _. split; [reflexivity|]. set (s1 := if dsack then _ else _).
  destruct (commitAcknowledgment_keeps s1 window rightEdge reserve (negb (zlen options =? 0))) as [-> ->].
  subst s1. destruct dsack; split; reflexivity.
Qed.

Lemma trySendChallengeACK_keeps s allowed sent :
  is_Some (sackOptions s 0) ->
  exists s' out, trySendChallengeACK s allowed sent = Some (s', out) /\
    timeWaitCore s' = timeWaitCore s /\ timeWaitClock s' = timeWaitClock s.
Proof.
  intros Hs. unfold trySendChallengeACK. destruct allowed; cbn [negb]; [by apply trySendACK_keeps|by eexists _, _].
Qed.

Lemma refresh_sack s handledAt clock :
  is_Some (sackOptions s 0) -> is_Some (sackOptions (refreshTimeWaitTimer s handledAt clock) 0).
Proof. done. Qed.

Lemma refresh_keeps s handledAt clock : handledAt <> 0 ->
  timeWaitCore (refreshTimeWaitTimer s handledAt clock) = timeWaitCore s /\
  timeWaitClock (refreshTimeWaitTimer s handledAt clock)
  = (handledAt + tcpTimeWaitDuration, cn_recentTimestamp (e_connection s)).
Proof. intros Hh. unfold refreshTimeWaitTimer, isSet. by rewrite (proj2 (Z.eqb_neq handledAt 0) Hh). Qed.

Lemma armClose_keeps s handledAt clock : handledAt <> 0 -> timeWaitOwner s ->
  timeWaitCore (armClose s handledAt tcpTimeWaitDuration clock) = timeWaitCore s /\
  timeWaitClock (armClose s handledAt tcpTimeWaitDuration clock)
  = (handledAt + tcpTimeWaitDuration, cn_recentTimestamp (e_connection s)).
Proof.
  intros Hh (Ha & Hr & Hk). unfold armClose, isSet. rewrite (proj2 (Z.eqb_neq handledAt 0) Hh). cbn [negb].
  split; [|reflexivity]. unfold timeWaitCore. rewrite Hr, Hk. reflexivity.
Qed.

(** RFC 6191: the timestamps do not reject the SYN, and its sequence number or
    its timestamp is beyond the old incarnation's. *)
Definition admitsIncarnation s (segment : tcpSegment) (receivedAt : Z) (timestamp : option (Z * Z)) : Prop :=
  let c := e_connection s in
  (forall value echo, timestamp = Some (value, echo) -> cn_peerTimestamp c = true ->
     tcpPAWSReject value (cn_recentTimestamp c) (e_lastTimestampUpdate s) receivedAt 0 = false) /\
  (tcpSequenceGreater (sg_sequence segment) (e_receiveNext s) = true \/
   exists value echo, timestamp = Some (value, echo) /\
     (cn_peerTimestamp c = true -> tcpSequenceGreater value (cn_recentTimestamp c) = true)).

Lemma timeWaitSYN_admits s segment receivedAt timestamp :
  snd (timeWaitSYN s segment receivedAt timestamp) = true <-> admitsIncarnation s segment receivedAt timestamp.
Proof.
  unfold timeWaitSYN, admitsIncarnation. destruct timestamp as [ [value echo]|]; cbn.
  - destruct (cn_peerTimestamp _); cbn.
    + destruct (tcpPAWSReject _ _ _ _ _) eqn:Ep; cbn.
      * split; [done|]. intros [Hp _]. specialize (Hp _ _ eq_refl eq_refl). congruence.
      * rewrite orb_true_iff. split.
        -- intros [E|E]; (split; [by intros ? ? [= -> ->]|]); eauto 6.
        -- intros [_ [E|(v & e & [= -> ->] & Hn)]]; eauto.
    + rewrite orb_true_r. split; [|done]. intros _. split; [done|]. right. by exists value, echo.
  - rewrite orb_false_r. split; [|intros [_ [E|(? & ? & [=] & _)]]; done]. intros E. split; [done|by left].
Qed.

(** One step of a protected tuple from clock reading [t]: the tuple is kept, and
    its deadline and timestamp are the given ones. *)
Definition keepsTuple s s' (deadline recent : Z) : Prop :=
  timeWaitCore s' = timeWaitCore s /\ timeWaitClock s' = (deadline, recent).

Lemma refreshIfACK_keeps s segment handledAt clock : handledAt <> 0 ->
  is_Some (sackOptions s 0) ->
  is_Some (sackOptions (refreshIfACK s segment handledAt clock) 0) /\
  keepsTuple s (refreshIfACK s segment handledAt clock)
    (if hasFlag (sg_flags segment) TCPFlagACK then handledAt + tcpTimeWaitDuration else e_retransmissionDeadline s)
    (cn_recentTimestamp (e_connection s)).
Proof.
  intros Hh Hs. unfold refreshIfACK. destruct (hasFlag _ _); [|by split].
  split; [exact Hs|]. exact (refresh_keeps s handledAt clock Hh).
Qed.

Lemma keepsTuple_trans s1 s2 s3 deadline recent deadline' recent' :
  keepsTuple s1 s2 deadline recent ->
  (timeWaitCore s3 = timeWaitCore s2 /\ timeWaitClock s3 = timeWaitClock s2) \/ keepsTuple s2 s3 deadline' recent' ->
  keepsTuple s1 s3 deadline recent \/ keepsTuple s1 s3 deadline' recent'.
Proof. unfold keepsTuple. intros [E1 E2] [[-> ->]|[-> ->]]; auto. Qed.

(** A rate-limited or plain ACK after a step. *)
Lemma keeps_then s s1 s2 deadline recent :
  keepsTuple s s1 deadline recent -> timeWaitCore s2 = timeWaitCore s1 /\ timeWaitClock s2 = timeWaitClock s1 ->
  keepsTuple s s2 deadline recent.
Proof. unfold keepsTuple. intros [E1 E2] [-> ->]. done. Qed.

Lemma handleTimeWaitSYN_spec s segment receivedAt handledAt clock replaced allowed sent :
  handledAt <> 0 -> is_Some (sackOptions s 0) -> bytes_ok (sg_options segment) ->
  exists s' out timestamp,
    parseTCPTimestamp (sg_options segment) = Some timestamp /\
    let taken := negb (hasFlag (sg_flags segment) (TCPFlagACK .| TCPFlagFIN)) && replaced
                 && snd (timeWaitSYN s segment receivedAt timestamp) in
    handleTimeWaitSYN s segment receivedAt handledAt clock replaced allowed sent = Some (s', out, taken) /\
    exists deadline, keepsTuple s s' deadline (cn_recentTimestamp (e_connection s)) /\
    (deadline = handledAt + tcpTimeWaitDuration \/
     (deadline = e_retransmissionDeadline s /\ hasFlag (sg_flags segment) TCPFlagACK = false)).
Proof.
  intros Hh Hs Hb. destruct (parseTCPTimestamp_ok _ Hb) as (timestamp & Et & _).
  destruct (refreshIfACK_keeps s segment handledAt clock Hh Hs) as [Hs1 Hk1].
  destruct (trySendChallengeACK_keeps _ allowed sent Hs1) as (s1 & out1 & E1 & Hk1').
  pose proof (keeps_then _ _ _ _ _ Hk1 Hk1') as Hfirst. unfold handleTimeWaitSYN. rewrite Et.
  destruct (hasFlag (sg_flags segment) (TCPFlagACK .| TCPFlagFIN)) eqn:Ef; cbn [negb andb].
  { exists s1, out1, timestamp. rewrite E1. cbn. split; [reflexivity|]. split; [reflexivity|].
    eexists. split; [exact Hfirst|]. destruct (hasFlag _ TCPFlagACK); auto. }
  assert (hasFlag (sg_flags segment) TCPFlagACK = false) as Ea.
  { clear -Ef. unfold hasFlag in *. apply negb_false_iff in Ef. apply negb_false_iff.
    apply Z.eqb_eq. apply Z.eqb_eq in Ef. rewrite Z.land_lor_distr_r in Ef. apply Z.lor_eq_0_iff in Ef. tauto. }
  rewrite Ea in Hfirst. cbn [mbind option_bind]. destruct (timeWaitSYN s segment receivedAt timestamp) as [reject admitted] eqn:Ets.
  destruct admitted; cbn [negb].
  - destruct replaced.
    + exists s, [], timestamp. rewrite Ets; cbn [snd]; rewrite ?andb_false_r. split_and!; [done..|]. eexists. split; [by split|]. by right.
    + exists s1, out1, timestamp. rewrite E1. rewrite Ets; cbn [snd]; rewrite ?andb_false_r. split_and!; [done..|]. eexists. split; [exact Hfirst|]. by right.
  - destruct reject.
    + destruct (trySendChallengeACK_keeps (refreshTimeWaitTimer s handledAt clock) allowed sent Hs) as (s2 & out2 & -> & Hk2).
      exists s2, out2, timestamp. rewrite Ets; cbn [snd]; rewrite ?andb_false_r. split_and!; [done..|]. eexists.
      split; [exact (keeps_then _ _ _ _ _ (refresh_keeps s handledAt clock Hh) Hk2)|]. by left.
    + destruct (trySendChallengeACK_keeps s allowed sent Hs) as (s2 & out2 & -> & Hk2).
      exists s2, out2, timestamp. rewrite Ets; cbn [snd]; rewrite ?andb_false_r. split_and!; [done..|]. eexists. split; [exact (conj (proj1 Hk2) (proj2 Hk2))|]. by right.
Qed.

(** The timestamp a step may adopt. *)
Definition adoptsTimestamp s (segment : tcpSegment) (receivedAt recent : Z) : Prop :=
  exactEmptyACK s segment = true /\ exists echo,
  parseTCPTimestamp (sg_options segment) = Some (Some (recent, echo)) /\
  tcpPAWSReject recent (cn_recentTimestamp (e_connection s)) (e_lastTimestampUpdate s) receivedAt 0 = false.

Lemma timestamp_update_keeps s (segment : tcpSegment) (receivedAt : Z) (timestamp : option (Z * Z)) :
  is_Some (sackOptions s 0) ->
  let s1 := adoptTimestamp s segment receivedAt timestamp in
  is_Some (sackOptions s1 0) /\ timeWaitCore s1 = timeWaitCore s /\
  e_retransmissionDeadline s1 = e_retransmissionDeadline s /\
  (cn_recentTimestamp (e_connection s1) = cn_recentTimestamp (e_connection s) \/
   exactEmptyACK s segment = true /\ exists echo, timestamp = Some (cn_recentTimestamp (e_connection s1), echo)).
Proof.
  intros Hs. cbv zeta. unfold adoptTimestamp. destruct timestamp as [ [tsval echo]|]; [|by split_and!; auto].
  destruct (exactEmptyACK s segment); [|by split_and!; auto]. split; [exact Hs|].
  split_and!; try reflexivity. right. split; [done|]. by exists echo.
Qed.

(** A duplicate of the FIN restarts the wait; any other segment ends in an ACK
    or in silence. *)
Lemma timeWait_finish s1 segment handledAt clock sent (fin : bool) (silent : bool) :
  handledAt <> 0 -> timeWaitOwner s1 -> is_Some (sackOptions s1 0) ->
  exists s' out,
    (if fin then '(s, out) ← trySendACK s1 sent; Some (armClose s handledAt tcpTimeWaitDuration clock, out, false)
     else
       let s := refreshIfACK s1 segment handledAt clock in
       if negb silent then '(s, out) ← trySendACK s sent; Some (s, out, false) else Some (s, [], false))
    = Some (s', out, false) /\
  keepsTuple s1 s'
    (if fin || hasFlag (sg_flags segment) TCPFlagACK then handledAt + tcpTimeWaitDuration else e_retransmissionDeadline s1)
    (cn_recentTimestamp (e_connection s1)).
Proof.
  intros Hh Ho Hs. destruct fin; cbn [orb].
  - destruct (trySendACK_keeps s1 sent Hs) as (s2 & out & -> & E1 & E2). cbn [mbind option_bind].
    eexists _, _. split; [reflexivity|].
    destruct (armClose_keeps s2 handledAt clock Hh (core_owner _ _ E1 Ho)) as [K1 K2].
    split; [by rewrite K1|]. rewrite K2. f_equal. by injection E2.
  - destruct (refreshIfACK_keeps s1 segment handledAt clock Hh Hs) as [Hs2 Hk]. cbv zeta.
    destruct silent; cbn [negb]; [by eexists _, _|].
    destruct (trySendACK_keeps _ sent Hs2) as (s2 & out & -> & Hk2). cbn [mbind option_bind].
    eexists _, _. split; [reflexivity|]. exact (keeps_then _ _ _ _ _ Hk Hk2).
Qed.

Lemma flag_absent (flags a b : Z) : hasFlag flags (a .| b) = false -> hasFlag flags a = false /\ hasFlag flags b = false.
Proof.
  unfold hasFlag. rewrite !negb_false_iff, !Z.eqb_eq, Z.land_lor_distr_r. apply Z.lor_eq_0_iff.
Qed.

(** A segment without SYN and RST keeps the tuple. *)
Lemma timeWait_plain s segment receivedAt handledAt clock replaced allowed sent :
  timeWaitOwner s -> handledAt <> 0 -> is_Some (sackOptions s 0) -> bytes_ok (sg_options segment) ->
  hasFlag (sg_flags segment) TCPFlagRST = false -> hasFlag (sg_flags segment) TCPFlagSYN = false ->
  exists s' out deadline recent,
    handleTimeWaitSegment s segment receivedAt handledAt clock replaced allowed sent = Some (s', out, false) /\
    keepsTuple s s' deadline recent /\
    (deadline = handledAt + tcpTimeWaitDuration \/
     (deadline = e_retransmissionDeadline s /\ hasFlag (sg_flags segment) TCPFlagACK = false)) /\
    (recent = cn_recentTimestamp (e_connection s) \/ adoptsTimestamp s segment receivedAt recent).
Proof.
  intros Ho Hh Hs Hb Hr Hy. unfold handleTimeWaitSegment. rewrite Hr, Hy.
  destruct (parseTCPTimestamp_ok _ Hb) as (parsed & Ep & _). rewrite Ep.
  set (timestamp := if cn_peerTimestamp (e_connection s) then _ else _).
  assert (exists t, timestamp = Some t /\ (t = None \/ t = parsed)) as (t & -> & Ht)
    by (subst timestamp; destruct (cn_peerTimestamp _); eauto).
  cbn [mbind option_bind]. set (stale := match t with Some _ => _ | None => _ end). destruct stale eqn:Est.
  { destruct (trySendChallengeACK_keeps (refreshTimeWaitTimer s handledAt clock) allowed sent Hs) as (s2 & out & -> & Hk).
    eexists _, out, _, _. split; [reflexivity|].
    split; [exact (keeps_then _ _ _ _ _ (refresh_keeps s handledAt clock Hh) Hk)|]. auto. }
  destruct (negb (retransmittedFIN s segment) && _) eqn:Eacc.
  { destruct (refreshIfACK_keeps s segment handledAt clock Hh Hs) as [Hs1 Hk1].
    destruct (trySendACK_keeps _ sent Hs1) as (s2 & out & -> & Hk2). eexists _, out, _, _. split; [reflexivity|].
    split; [exact (keeps_then _ _ _ _ _ Hk1 Hk2)|]. split; [|by left].
    destruct (hasFlag (sg_flags segment) TCPFlagACK); [by left|by right]. }
  destruct (timestamp_update_keeps s segment receivedAt t Hs) as (Hs1 & Hc & Hd & Hrec). cbv zeta in Hs1, Hc, Hd, Hrec.
  set (s1 := adoptTimestamp s segment receivedAt t) in *. clearbody s1.
  destruct (timeWait_finish s1 segment handledAt clock sent (retransmittedFIN s segment)
    (negb (negb (hasFlag (sg_flags segment) TCPFlagACK) || negb (sg_sequence segment =? e_receiveNext
      (refreshIfACK s1 segment handledAt clock)) || negb (zlen (sg_payload segment) =? 0))) Hh (core_owner _ _ Hc Ho) Hs1)
    as (s2 & out & E & Hk1 & Hk2). rewrite negb_involutive in E. exists s2, out. rewrite Hd in Hk2.
  eexists _, _. split; [exact E|]. split; [split; [by rewrite Hk1|exact Hk2]|]. split.
  - destruct (retransmittedFIN s segment); cbn [orb]; [by left|].
    destruct (hasFlag (sg_flags segment) TCPFlagACK); [by left|by right].
  - destruct Hrec as [->|(He & echo & ->)]; [by left|right]. destruct Ht as [[=]|Ht]. split; [done|].
    exists echo. split; [by rewrite Ep, Ht|]. exact Est.
Qed.

(** C11. A TIME-WAIT tuple is protected against every segment (RFC 1337, RFC
    6191): handling always completes; a RST changes nothing and is not answered;
    the sequence spaces, windows and close state survive, so nothing but a
    transfer to a new incarnation ends the wait early; the transfer happens
    exactly for a pure SYN whose timestamp and sequence number pass the admission
    test; every other segment with ACK restarts the full wait; and the
    remembered timestamp moves only to that of an empty ACK at RCV.NXT that PAWS
    accepts. *)
Theorem time_wait_protected s segment receivedAt handledAt clock replaced allowed sent :
  timeWaitOwner s -> handledAt <> 0 -> is_Some (sackOptions s 0) -> bytes_ok (sg_options segment) ->
  let flags := sg_flags segment in
  exists s' out taken,
    handleTimeWaitSegment s segment receivedAt handledAt clock replaced allowed sent = Some (s', out, taken) /\
    timeWaitOwner s' /\ timeWaitCore s' = timeWaitCore s /\
    (hasFlag flags TCPFlagRST = true -> s' = s /\ out = [] /\ taken = false) /\
    (taken = true <->
       hasFlag flags TCPFlagSYN = true /\ hasFlag flags (TCPFlagRST .| TCPFlagACK .| TCPFlagFIN) = false /\
       replaced = true /\ exists timestamp, parseTCPTimestamp (sg_options segment) = Some timestamp /\
                                            admitsIncarnation s segment receivedAt timestamp) /\
    (hasFlag flags TCPFlagRST = false -> hasFlag flags TCPFlagACK = true ->
       e_retransmissionDeadline s' = handledAt + tcpTimeWaitDuration) /\
    (e_retransmissionDeadline s' = e_retransmissionDeadline s \/
     e_retransmissionDeadline s' = handledAt + tcpTimeWaitDuration) /\
    (cn_recentTimestamp (e_connection s') = cn_recentTimestamp (e_connection s) \/
     adoptsTimestamp s segment receivedAt (cn_recentTimestamp (e_connection s'))).
Proof.
  intros Ho Hh Hs Hb. cbv zeta. destruct (hasFlag (sg_flags segment) TCPFlagRST) eqn:Er.
  { unfold handleTimeWaitSegment. rewrite Er. exists s, [], false. split; [reflexivity|]. split; [exact Ho|].
    split; [reflexivity|]. split; [done|]. split; [|split; [done|split; by left]]. split; [done|]. intros (_ & Hf & _).
    apply flag_absent in Hf as [Hf _]. apply flag_absent in Hf as [Hf _]. congruence. }
  destruct (hasFlag (sg_flags segment) TCPFlagSYN) eqn:Ey.
  - destruct (handleTimeWaitSYN_spec s segment receivedAt handledAt clock replaced allowed sent Hh Hs Hb)
      as (s' & out & timestamp & Et & E & deadline & [K1 K2] & Hd). cbv zeta in E.
    unfold handleTimeWaitSegment. rewrite Er, Ey, E. injection K2 as K2 K3. eexists _, _, _. split; [reflexivity|].
    split; [exact (core_owner _ _ K1 Ho)|]. split; [exact K1|]. split; [done|]. split; [|split; [|split; [|by left]]].
    + rewrite !andb_true_iff, timeWaitSYN_admits, negb_true_iff. split.
      * intros [[Hf ->] Ha]. apply flag_absent in Hf as [Hf1 Hf2]. split; [done|]. split; [|eauto].
        unfold hasFlag in *. rewrite negb_false_iff, Z.eqb_eq in *. rewrite !Z.land_lor_distr_r, Er, Hf1, Hf2. done.
      * intros (_ & Hf & -> & t & Et' & Ha). assert (t = timestamp) as -> by congruence.
        split; [|done]. split; [|done]. apply flag_absent in Hf as [Hf Hf2]. apply flag_absent in Hf as [_ Hf1].
        unfold hasFlag in *. rewrite negb_false_iff, Z.eqb_eq in *. by rewrite Z.land_lor_distr_r, Hf1, Hf2.
    + intros _ Hack. rewrite K2. destruct Hd as [->|[_ Hd]]; [done|congruence].
    + rewrite K2. destruct Hd as [->|[-> _]]; auto.
  - destruct (timeWait_plain s segment receivedAt handledAt clock replaced allowed sent Ho Hh Hs Hb Er Ey)
      as (s' & out & deadline & recent & E & [K1 K2] & Hd & Hrec). injection K2 as K2 K3.
    exists s', out, false. split; [exact E|]. split; [exact (core_owner _ _ K1 Ho)|]. split; [exact K1|].
    split; [done|]. split; [split; [done|intros [? _]; congruence]|]. rewrite K2, K3. split; [|split; [|exact Hrec]].
    + intros _ Hack. destruct Hd as [->|[_ Hd]]; [done|congruence].
    + destruct Hd as [->|[-> _]]; auto.
Qed.

End TimeWait.

(** A connection in TIME-WAIT: both sides closed, the close deadline running. *)
Definition sampleTimeWait : option (tcpEstablishedState Reno.renoCongestionControl) :=
  s ← sampleEstablished sampleConn;
  Some (s <| e_localFINSent := true |> <| e_localFINAcked := true |> <| e_remoteFINReceived := true |>
          <| e_timeWaitRequired := true |> <| e_timeWaitArmed := true |> <| e_retransmit := true |>
          <| e_retransmissionKind := tcpRetransmissionClose |> <| e_retransmissionDeadline := 61 * second |>).

(** An empty ACK at RCV.NXT with a newer timestamp arrives at 31 s. *)
Definition sampleLateACK : tcpSegment :=
  mkSegment 5000 1000 TCPFlagACK 100 0 (tcpTimestampOptions 80 9) [] 0 0.

Lemma time_wait_protected_witness :
  exists s s' out, sampleTimeWait = Some s /\ timeWaitOwner s /\ connectionState s = TCPStateTimeWait /\
  handleTimeWaitSegment s sampleLateACK (31 * second) (31 * second) (31 * second) false true true = Some (s', out, false) /\
  e_retransmissionDeadline s' = 91 * second /\ connectionState s' = TCPStateTimeWait.
Proof.
  destruct sampleTimeWait as [s|] eqn:E; [|by vm_compute in E].
  assert (timeWaitOwner s /\ connectionState s = TCPStateTimeWait /\ is_Some (sackOptions s 0)) as (Ho & Hc & Hs).
  { vm_compute in E. injection E as <-. split_and!; done. }
  destruct (time_wait_protected s sampleLateACK (31 * second) (31 * second) (31 * second) false true true Ho
    ltac:(done) Hs ltac:(by apply bytes_check)) as (s' & out & taken & Eh & _ & Hcore & _ & Ht & Hd & _).
  assert (taken = false) as -> by (destruct taken; [|done]; by destruct (proj1 Ht eq_refl)).
  exists s, s', out. split_and!; try done; by apply Hd || (injection Hcore as Hcore; congruence).
Defined.

(** ** Zero-window probing *)

Section Persist.

Context {A : Type} `{CongestionController A}.
Variable epoch : Z.

Implicit Type s : tcpEstablishedState A.

(** A persist episode: the deadline fires and one probe is published, or the
    peer answers. *)
Inductive persistEvent :=
| ProbeDue (ticket : packetQueueTicket) (departed : bool) (clock : Z)
| PeerAnswered.

Definition persistStep s (e : persistEvent) : tcpEstablishedState A + tcpError :=
  match e with
  | ProbeDue ticket departed clock => drainPersistOutput epoch (persistExpired s) (Published ticket) departed clock
  | PeerAnswered => inl (persistAnswered s)
  end.

Fixpoint persistRun s (l : list persistEvent) : tcpEstablishedState A + tcpError :=
  match l with
  | [] => inl s
  | e :: l => match persistStep s e with inl s => persistRun s l | inr error => inr error end
  end.

(** Probes published in all, and since the last answer. *)
Definition dues (l : list persistEvent) : Z :=
  foldl (fun n e => match e with ProbeDue _ _ _ => n + 1 | PeerAnswered => n end) 0 l.

Definition unanswered (l : list persistEvent) : Z :=
  foldl (fun n e => match e with ProbeDue _ _ _ => n + 1 | PeerAnswered => 0 end) 0 l.

Definition userClosed s : bool := rc_userClosed (cn_receive (e_connection s)).

(** The budget a probe spends: the drain bound after a full Close, the unanswered
    probes before it. *)
Definition spent (closed : bool) (l : list persistEvent) : Z := if closed then dues l else unanswered l.

(** The connection waits on a closed window with sequence space to send. *)
Record stalled s : Prop := {
  sl_persist : e_persist s = true;
  sl_window : e_peerWindow s = 0;
  sl_pending : persistPending s (sendTotal s) (cn_writeClosed (e_connection s)) = true;
  sl_interval : rt_rto (e_rtt s) <= sm_persistRTO (e_sendTimer s) <= tcpMaximumRTO;
  sl_positive : 0 < sm_persistRTO (e_sendTimer s) }.

(** What probing keeps. *)
Definition persistCore s :=
  (e_peerWindow s, e_outstanding s, e_sendNext s, e_sendUnacknowledged s, e_localFINSent s, e_connection s,
   e_rtt s, e_livenessState s).

Lemma persistCore_stalled s s' : persistCore s' = persistCore s -> e_persist s' = true ->
  rt_rto (e_rtt s') <= sm_persistRTO (e_sendTimer s') <= tcpMaximumRTO -> 0 < sm_persistRTO (e_sendTimer s') ->
  stalled s -> stalled s'.
Proof.
  intros [= E1 E2 E3 E4 E5 E6 E7 _] Hp Hi H0 [_ Hw Hpend _ _]. split; [done|congruence| |done|done].
  unfold persistPending, noOutstanding, sendTotal in *. by rewrite E2, E3, E4, E5, E6.
Qed.

Definition persistCounters s := (e_persistUnanswered s, e_persistClosed s).

Lemma commit_persist s window rightEdge reserve selective :
  let s' := commitAcknowledgment s window rightEdge reserve selective in
  persistCore s' = persistCore s /\ persistCounters s' = persistCounters s /\ e_sendTimer s' = e_sendTimer s.
Proof.
  unfold commitAcknowledgment. set (satisfied := _ || _). clearbody satisfied. cbv zeta.
  destruct (_ && _ && _), satisfied; split_and!; reflexivity.
Qed.

(** Arming for a waiting connection whose last probe left. *)
Lemma armPersist_waiting s sentAt total writeClosed clock :
  e_persist s = false -> e_peerWindow s = 0 -> persistPending s total writeClosed = true ->
  let s' := armPersist epoch s sentAt total writeClosed clock in
  persistCore s' = persistCore s /\ persistCounters s' = persistCounters s /\ e_persist s' = true /\
  sm_persistRTO (e_sendTimer s') = Z.max (sm_persistRTO (e_sendTimer s)) (rt_rto (e_rtt s)).
Proof.
  intros Hp Hw Hpend. unfold armPersist. rewrite Hp, Hw, Hpend. cbn [Z.eqb negb andb]. cbv zeta.
  set (t := if _ <? _ then _ else _).
  assert (sm_persistRTO t = Z.max (sm_persistRTO (e_sendTimer s)) (rt_rto (e_rtt s))) as Et
    by (subst t; destruct (Z.ltb_spec (sm_persistRTO (e_sendTimer s)) (rt_rto (e_rtt s))); cbn; lia).
  clearbody t. split_and!; try reflexivity. get_set. rewrite <- Et. destruct (_ =? 0); reflexivity.
Qed.

(** The counters after one published probe. *)
Lemma counters_step s (closed : bool) :
  let s2 := countProbe s closed in
  persistCore s2 = persistCore s /\ e_sendTimer s2 = e_sendTimer s /\
  e_persistUnanswered s2 = (if e_persistUnanswered s <? tcpMaximumRTOs then e_persistUnanswered s + 1
                            else e_persistUnanswered s) /\
  e_persistClosed s2 = (if closed && (e_persistClosed s <? tcpMaximumRTOs) then e_persistClosed s + 1
                        else e_persistClosed s).
Proof.
  unfold countProbe. cbv zeta. destruct (e_persistUnanswered s <? tcpMaximumRTOs), closed; cbn [andb];
    get_set; try destruct (e_persistClosed s <? tcpMaximumRTOs); split_and!; reflexivity.
Qed.

Lemma persistCore_pending s s' : persistCore s' = persistCore s ->
  persistPending s' (sendTotal s') (cn_writeClosed (e_connection s'))
  = persistPending s (sendTotal s) (cn_writeClosed (e_connection s)) /\ e_peerWindow s' = e_peerWindow s /\
  e_rtt s' = e_rtt s.
Proof.
  intros [= E1 E2 E3 E4 E5 E6 E7 _]. unfold persistPending, noOutstanding, sendTotal. by rewrite E2, E3, E4, E5, E6.
Qed.

(** A published probe doubles the interval, counts against both budgets and
    leaves the connection waiting. *)
Lemma probePublished_stalled s ticket departed clock :
  stalled s ->
  let s' := probePublished epoch (persistExpired s) ticket (userClosed s) departed clock in
  stalled s' /\ persistCore s' = persistCore s /\
  sm_persistRTO (e_sendTimer s') = Z.min tcpMaximumRTO (2 * sm_persistRTO (e_sendTimer s)) /\
  e_persistUnanswered s' = (if e_persistUnanswered s <? tcpMaximumRTOs then e_persistUnanswered s + 1
                            else e_persistUnanswered s) /\
  e_persistClosed s' = (if userClosed s && (e_persistClosed s <? tcpMaximumRTOs) then e_persistClosed s + 1
                        else e_persistClosed s).
Proof.
  intros Hst. pose proof Hst as [Hp Hw Hpend Hi H0]. unfold probePublished. cbv zeta.
  set (s1 := persistExpired s <| e_sendTimer := _ |>).
  assert (persistCore s1 = persistCore s /\ persistCounters s1 = persistCounters s /\
    sm_persistRTO (e_sendTimer s1) = sm_persistRTO (e_sendTimer s)) as (C1 & K1 & T1) by (split_and!; reflexivity).
  clearbody s1. destruct (nextAdvertisedReceiveWindow s1) as [ [window rightEdge] reserve].
  destruct (commit_persist s1 window rightEdge reserve false) as (C2 & K2 & T2).
  set (s2 := commitAcknowledgment s1 window rightEdge reserve false) in *. clearbody s2.
  destruct (counters_step s2 (userClosed s)) as (C3 & T3 & U3 & L3). cbv zeta in C3, T3, U3, L3.
  set (s3 := countProbe s2 (userClosed s)) in *. clearbody s3.
  injection (eq_trans K2 K1) as E1 E2. rewrite E1 in U3. rewrite E2 in L3. clear E1 E2 K1 K2.
  set (doubled := if _ <? _ then _ else _).
  assert (doubled = Z.min tcpMaximumRTO (2 * sm_persistRTO (e_sendTimer s))) as Ed
    by (subst doubled; rewrite T3, T2, T1; destruct (Z.ltb_spec tcpMaximumRTO (2 * sm_persistRTO (e_sendTimer s))); lia).
  clearbody doubled. set (s4 := s3 <| e_persist := false |> <| e_sendTimer := _ |>).
  assert (persistCore s4 = persistCore s /\ e_persist s4 = false /\ sm_persistRTO (e_sendTimer s4) = doubled /\
    persistCounters s4 = persistCounters s3) as (C4 & P4 & T4 & K4).
  { split_and!; try reflexivity. transitivity (persistCore s3); [reflexivity|congruence]. }
  clearbody s4. destruct (persistCore_pending _ _ C4) as (Hpend4 & Hw4 & Hr4).
  destruct (armPersist_waiting s4 (stampTime (tk_queuedAt ticket) epoch) (sendTotal s4)
    (cn_writeClosed (e_connection s4)) clock P4 ltac:(congruence) ltac:(congruence)) as (C5 & K5 & P5 & T5).
  set (s5 := armPersist epoch s4 _ _ _ clock) in *. clearbody s5. set (s6 := if _ && _ then setSendBase s5 _ else s5).
  assert (persistCore s6 = persistCore s5 /\ e_persist s6 = true /\ persistCounters s6 = persistCounters s5 /\
    sm_persistRTO (e_sendTimer s6) = sm_persistRTO (e_sendTimer s5)) as (C6 & P6 & K6 & T6)
    by (match goal with s6 := if ?b then _ else _ |- _ => subst s6; destruct b end; split_and!; try reflexivity; exact P5).
  clearbody s6. assert (persistCore s6 = persistCore s) as C by congruence.
  destruct (persistCore_pending _ _ C) as (_ & _ & Hr). rewrite Hr4 in T5.
  assert (sm_persistRTO (e_sendTimer s6) = Z.min tcpMaximumRTO (2 * sm_persistRTO (e_sendTimer s))) as T by lia.
  split; [|split; [exact C|split; [exact T|]]].
  - apply (persistCore_stalled s); [exact C|exact P6| | |exact Hst]; rewrite ?Hr; rewrite T; unfold tcpMaximumRTO in *; lia.
  - rewrite <- U3, <- L3. injection (eq_trans K6 (eq_trans K5 K4)) as -> ->. done.
Qed.

Lemma persistRun_snoc s l e :
  persistRun s (l ++ [e]) = match persistRun s l with inl s => persistStep s e | inr error => inr error end.
Proof.
  revert s. induction l as [|e' l IH]; intros s; cbn [persistRun app]; [by destruct (persistStep s e)|].
  destruct (persistStep s e'); [apply IH|done].
Qed.

Lemma dues_snoc l e : dues (l ++ [e]) = match e with ProbeDue _ _ _ => dues l + 1 | PeerAnswered => dues l end.
Proof. unfold dues. by rewrite foldl_app. Qed.

Lemma unanswered_snoc l e :
  unanswered (l ++ [e]) = match e with ProbeDue _ _ _ => unanswered l + 1 | PeerAnswered => 0 end.
Proof. unfold unanswered. by rewrite foldl_app. Qed.

Lemma dues_nonneg l : 0 <= dues l.
Proof.
  induction l as [|e l IH] using rev_ind; [done|]. rewrite dues_snoc. destruct e; lia.
Qed.

(** The state after [l], reached without an error. *)
Record probing s (l : list persistEvent) s' : Prop := {
  pr_stalled : stalled s';
  pr_core : persistCore s' = persistCore s;
  pr_interval : sm_persistRTO (e_sendTimer s') = Z.min tcpMaximumRTO (sm_persistRTO (e_sendTimer s) * 2 ^ dues l);
  pr_spent : (if userClosed s then e_persistClosed s' else e_persistUnanswered s') = spent (userClosed s) l;
  pr_budget : spent (userClosed s) l <= tcpMaximumRTOs }.

Lemma core_userClosed s s' : persistCore s' = persistCore s ->
  userClosed s' = userClosed s /\ softErrorOf s' = softErrorOf s /\ e_peerWindow s' = e_peerWindow s /\
  noOutstanding s' = noOutstanding s.
Proof.
  unfold persistCore, userClosed, softErrorOf, noOutstanding.
  intros [= E1 E2 _ _ _ E6 _ E8]. by rewrite E1, E2, E6, E8.
Qed.

Lemma outstanding_stalled s : stalled s -> noOutstanding s = true.
Proof. intros [_ _ Hp _ _]. unfold persistPending in Hp. by apply andb_true_iff in Hp as [-> _]. Qed.

(** A due probe is published while the budget lasts. *)
Lemma probing_due s l s' ticket departed clock : probing s l s' ->
  (spent (userClosed s) l < tcpMaximumRTOs /\
   exists s'', persistStep s' (ProbeDue ticket departed clock) = inl s'' /\
               probing s (l ++ [ProbeDue ticket departed clock]) s'') \/
  (spent (userClosed s) l = tcpMaximumRTOs /\
   persistStep s' (ProbeDue ticket departed clock)
   = inr (if userClosed s then ErrDeadlineExceeded else tcpTimeoutError (softErrorOf s))).
Proof.
  intros [Hst Hc Hi Hs Hb]. destruct (core_userClosed _ _ Hc) as (Eu & Ee & Ew & En).
  cbn [persistStep]. unfold drainPersistOutput.
  assert (tcpPersistOutputPending (persistExpired s') false = true) as ->.
  { unfold tcpPersistOutputPending. change (e_peerWindow (persistExpired s')) with (e_peerWindow s').
    change (noOutstanding (persistExpired s')) with (noOutstanding s'). by rewrite (sl_window _ Hst), outstanding_stalled. }
  cbn [negb]. change (rc_userClosed (cn_receive (e_connection (persistExpired s')))) with (userClosed s').
  change (e_persistClosed (persistExpired s')) with (e_persistClosed s').
  change (e_persistUnanswered (persistExpired s')) with (e_persistUnanswered s').
  change (softErrorOf (persistExpired s')) with (softErrorOf s'). rewrite Eu, Ee. cbv zeta.
  destruct (probePublished_stalled s' ticket departed clock Hst) as (Hst2 & Hc2 & Hi2 & Hu2 & Hl2).
  cbv zeta in *. rewrite Eu in *. set (s2 := probePublished epoch _ ticket _ departed clock) in *. clearbody s2.
  assert (probing s (l ++ [ProbeDue ticket departed clock]) s2 \/ spent (userClosed s) l = tcpMaximumRTOs) as Hnext.
  { destruct (decide (spent (userClosed s) l = tcpMaximumRTOs)) as [|Hne]; [by right|left].
    split; [exact Hst2|congruence| | |].
    - rewrite dues_snoc, Hi2, Hi. pose proof (dues_nonneg l) as Hd. change (dues l + 1) with (Z.succ (dues l)).
      rewrite Z.pow_succ_r by exact Hd. assert (0 < tcpMaximumRTO) by done. nia.
    - destruct (userClosed s); cbn [spent andb] in *; rewrite ?dues_snoc, ?unanswered_snoc; rewrite <- Hs in *.
      + rewrite Hl2. destruct (Z.ltb_spec (e_persistClosed s') tcpMaximumRTOs); lia.
      + rewrite Hu2. destruct (Z.ltb_spec (e_persistUnanswered s') tcpMaximumRTOs); lia.
    - destruct (userClosed s); cbn [spent] in *; rewrite ?dues_snoc, ?unanswered_snoc; lia. }
  destruct (userClosed s); cbn [spent negb andb] in *; rewrite Hs;
    match goal with |- context [tcpMaximumRTOs <=? ?n] => destruct (Z.leb_spec tcpMaximumRTOs n) end;
    (right; split; [lia|reflexivity]) || (left; split; [lia|]; exists s2; split; [reflexivity|]; destruct Hnext; [done|lia]).
Qed.

Lemma probing_answered s l s' : probing s l s' -> probing s (l ++ [PeerAnswered]) (persistAnswered s').
Proof.
  intros [Hst Hc Hi Hs Hb]. unfold persistAnswered. rewrite (sl_persist _ Hst).
  assert (persistCore (s' <| e_persistUnanswered := 0 |>) = persistCore s') as Ec by reflexivity.
  split.
  - apply (persistCore_stalled s'); [exact Ec|exact (sl_persist _ Hst)|exact (sl_interval _ Hst)|exact (sl_positive _ Hst)|exact Hst].
  - by rewrite Ec.
  - rewrite dues_snoc. exact Hi.
  - destruct (userClosed s); cbn [spent] in *; rewrite ?dues_snoc, ?unanswered_snoc; [exact Hs|reflexivity].
  - destruct (userClosed s); cbn [spent] in *; rewrite ?dues_snoc, ?unanswered_snoc; [exact Hb|done].
Qed.

(** C12. Zero-window probing terminates exactly by its budget: the wait goes on
    with the probe interval doubling up to two minutes while fewer than fifteen
    probes were spent when each came due, and ends at the first probe due with
    the budget spent.  Answers from the peer restore the budget of an open
    connection, but never that of a fully closed one. *)
Theorem persist_budget s l :
  stalled s -> persistCounters s = (0, 0) ->
  match persistRun s l with
  | inl s' =>
      stalled s' /\
      sm_persistRTO (e_sendTimer s') = Z.min tcpMaximumRTO (sm_persistRTO (e_sendTimer s) * 2 ^ dues l) /\
      forall p ticket departed clock r, l = p ++ ProbeDue ticket departed clock :: r ->
        spent (userClosed s) p < tcpMaximumRTOs
  | inr error =>
      error = (if userClosed s then ErrDeadlineExceeded else tcpTimeoutError (softErrorOf s)) /\
      exists p ticket departed clock r, l = p ++ ProbeDue ticket departed clock :: r /\
        spent (userClosed s) p = tcpMaximumRTOs
  end.
Proof.
  intros Hst [= E1 E2].
  assert (match persistRun s l with
    | inl s' => probing s l s' /\ forall p ticket departed clock r, l = p ++ ProbeDue ticket departed clock :: r ->
                  spent (userClosed s) p < tcpMaximumRTOs
    | inr error =>
        error = (if userClosed s then ErrDeadlineExceeded else tcpTimeoutError (softErrorOf s)) /\
        exists p ticket departed clock r, l = p ++ ProbeDue ticket departed clock :: r /\
          spent (userClosed s) p = tcpMaximumRTOs end) as Hrun.
  { induction l as [|e l IH] using rev_ind.
    { cbn [persistRun]. split; [|intros [|? ?]; done]. split; [done|done|pose proof (sl_interval _ Hst); cbn; lia|
        destruct (userClosed s); cbn; congruence|by destruct (userClosed s)]. }
    rewrite persistRun_snoc. destruct (persistRun s l) as [s1|error].
    - destruct IH as [Hp Hall]. destruct e as [ticket departed clock|].
      + destruct (probing_due s l s1 ticket departed clock Hp) as [(Hlt & s2 & -> & Hp2)|(Hspent & ->)].
        * split; [exact Hp2|]. intros p t d c r E. destruct r as [|x r _] using rev_ind.
          -- apply app_inj_tail in E as [<- _]. exact Hlt.
          -- rewrite app_comm_cons, app_assoc in E. apply app_inj_tail in E as [-> _]. by eapply Hall.
        * split; [done|]. by exists l, ticket, departed, clock, [].
      + cbn [persistStep]. split; [exact (probing_answered _ _ _ Hp)|]. intros p t d c r E.
        destruct r as [|x r _] using rev_ind; [by apply app_inj_tail in E as [_ [=]]|].
        rewrite app_comm_cons, app_assoc in E. apply app_inj_tail in E as [-> _]. by eapply Hall.
    - destruct IH as (He & p & t & d & c & r & -> & Hs). split; [exact He|].
      exists p, t, d, c, (r ++ [e]). by rewrite <- app_assoc. }
  destruct (persistRun s l) as [s'|error]; [|exact Hrun].
  destruct Hrun as [[Hst' _ Hi _ _] Hall]. by split_and!.
Qed.

End Persist.

(** The FIN waits behind a closed window. *)
Definition sampleStalled : option (tcpEstablishedState Reno.renoCongestionControl) :=
  s ← sampleEstablished (sampleConn <| cn_writeClosed := true |>);
  Some (armPersist 0 (s <| e_peerWindow := 0 |>) second (sendTotal s) true second).

Definition sampleProbe : persistEvent := ProbeDue (mkTicket 5 9) false second.

Lemma persist_budget_witness :
  exists s, sampleStalled = Some s /\ stalled s /\ persistCounters s = (0, 0) /\
  persistRun 0 s (replicate 16 sampleProbe) = inr ErrDeadlineExceeded.
Proof.
  destruct sampleStalled as [s|] eqn:E; [|by vm_compute in E]. exists s. split; [done|].
  assert (stalled s /\ persistCounters s = (0, 0) /\ userClosed s = false /\ softErrorOf s = None) as (Hst & Hc & Hu & He).
  { vm_compute in E. injection E as <-. split; [split; done|]. split_and!; done. }
  split; [exact Hst|]. split; [exact Hc|].
  pose proof (persist_budget 0 s (replicate 16 sampleProbe) Hst Hc) as Hb. rewrite Hu, He in Hb.
  destruct (persistRun 0 s (replicate 16 sampleProbe)) as [s'|error].
  - destruct Hb as (_ & _ & Hb). specialize (Hb (replicate 15 sampleProbe) (mkTicket 5 9) false second [] eq_refl).
    by vm_compute in Hb.
  - destruct Hb as [-> _]. done.
Defined.
