(* ===== verification/AckInvariant.v ===== *)
(** * The scoreboard invariant of the established connection

    The invariant [boardOk] of the sender's ranges and counters, what it reads
    of the state, and that loss recovery, path MTU probing and every stage of
    acknowledgement processing that does not acknowledge anything keep it. *)

From stdpp Require Import strings.
From S2P Require Import Prelude SeqNum Rtt SegmentQueue ByteBuffers TcpReceive Addr Windows Scoreboard.
From S2P Require Import Float64 DeliveryRate Congestion LossBased TcpOptions ReceiveWindow Recovery Established.
From S2P Require Import LossRecovery AckProcessing.

(** ** The shape of a scoreboard

    What the invariant sees of a range: its place and its SACK mark. *)

Definition shape (x : sentTCPSegment) : Z * Z * bool :=
  (st_sequence x, st_end x, hasState x sentTCPSegmentSACKed).

Lemma shape_len x y : shape x = shape y -> segLen x = segLen y.
Proof. unfold shape, segLen. by intros [= -> -> _]. Qed.

Lemma shape_set x flag enabled : isFlag flag -> flag <> sentTCPSegmentSACKed -> shape (setState x flag enabled) = shape x.
Proof.
  intros Hf Hne. unfold shape. rewrite hasState_set by flag. by rewrite (proj2 (Z.eqb_neq _ _) Hne).
Qed.

Lemma shape_report x : shape (withState x (st_state x .| sentTCPSegmentLossReported)) = shape x.
Proof. unfold shape. by rewrite hasState_lor by flag. Qed.

Lemma shape_loss x proven : shape (fst (recordTCPSegmentLoss x proven)) = shape x.
Proof. unfold recordTCPSegmentLoss. destruct (_ || _); [done|apply shape_report]. Qed.

Lemma shapes_contig base o l l' : map shape l' = map shape l -> contig base o l -> contig base o l'.
Proof.
  revert o l'. induction l as [|x l IH]; intros o [|y l'] E; try done. cbn [map] in E. injection E as E1 E2 E3 E4.
  intros (H1 & H2 & H3 & H4). assert (segLen y = segLen x) as El by (unfold segLen; congruence).
  split; [congruence|]. split; [congruence|]. rewrite El. split; [done|]. by apply IH.
Qed.

Lemma shapes_total l l' : map shape l' = map shape l -> total l' = total l.
Proof.
  revert l'. induction l as [|x l IH]; intros [|y l'] E; try done. cbn [map] in E. injection E as E1 E2 E3 E4.
  cbn [total foldr]. fold (total l) (total l'). rewrite (IH _ E4). unfold segLen. congruence.
Qed.

Lemma shapes_sackedAt o l l' x : map shape l' = map shape l -> sackedAt o l' x = sackedAt o l x.
Proof.
  revert o l'. induction l as [|y l IH]; intros o [|z l'] E; try done. cbn [map] in E. injection E as E1 E2 E3 E4.
  cbn [sackedAt]. assert (segLen z = segLen y) as -> by (unfold segLen; congruence). rewrite E3. by rewrite IH.
Qed.

(** The two counters as a sum over the ranges. *)
Definition sackedCount (l : list sentTCPSegment) : Z * Z :=
  foldr (fun s n => if hasState s sentTCPSegmentSACKed then (fst n + 1, segLen s + snd n) else n) (0, 0) l.

Lemma sackedCount_bounds l : 0 <= fst (sackedCount l) <= zlen l /\ 0 <= snd (sackedCount l) <= total l.
Proof.
  induction l as [|x l IH]; [done|]. cbn [sackedCount foldr total]. fold (sackedCount l) (total l).
  rewrite zlen_cons. pose proof (segLen_range x). destruct (hasState x _); cbn [fst snd]; lia.
Qed.

Lemma tcpSACKedState_from l n b : total l + b <= maxFlight -> 0 <= b ->
  fold_left (fun '(ranges, bytes) s =>
    if hasState s sentTCPSegmentSACKed then (ranges + 1, bytes ⊞ segLen s) else (ranges, bytes)) l (n, b)
  = (n + fst (sackedCount l), b + snd (sackedCount l)).
Proof.
  revert n b. induction l as [|x l IH]; intros n b Hb H0; [cbn; f_equal; lia|].
  cbn [fold_left sackedCount foldr]. fold (sackedCount l). cbn [total foldr] in Hb. fold (total l) in Hb.
  pose proof (segLen_range x). pose proof (total_nonneg l). unfold maxFlight in *.
  destruct (hasState x _); [|apply IH; lia]. rewrite u32_id by (unfold is_u32; lia). rewrite IH by lia.
  cbn [fst snd]. f_equal; lia.
Qed.

Lemma tcpSACKedState_count l : total l <= maxFlight -> tcpSACKedState l = sackedCount l.
Proof. intros H. unfold tcpSACKedState. rewrite tcpSACKedState_from by lia. by destruct (sackedCount l). Qed.

Lemma shapes_count l l' : map shape l' = map shape l -> sackedCount l' = sackedCount l.
Proof.
  revert l'. induction l as [|x l IH]; intros [|y l'] E; try done. cbn [map] in E. injection E as E1 E2 E3 E4.
  cbn [sackedCount foldr]. fold (sackedCount l) (sackedCount l'). rewrite (IH _ E4), E3. unfold segLen. by rewrite E1, E2.
Qed.

Lemma shapes_map (f : sentTCPSegment -> sentTCPSegment) l :
  (forall x, shape (f x) = shape x) -> map shape (map f l) = map shape l.
Proof. intros Hf. rewrite map_map. by apply map_ext. Qed.

Lemma shapes_insert (l : list sentTCPSegment) i x y :
  idx l i = Some y -> shape x = shape y -> map shape (<[Z.to_nat i := x]> l) = map shape l.
Proof.
  intros Hi Hs. pose proof (idx_range _ _ _ Hi) as Hr. rewrite idx_lookup in Hi by lia.
  rewrite list_fmap_insert. apply list_insert_id. rewrite list_lookup_fmap, Hi. cbn. by rewrite Hs.
Qed.

Lemma shapes_mark l delivered now window epoch :
  map shape (fst (markRACKLoss l delivered now window epoch)) = map shape l.
Proof.
  induction l as [|x l IH]; [done|]. cbn [markRACKLoss]. destruct (markRACKLoss l delivered now window epoch) as [l' lost].
  cbn [fst map] in *. f_equal; [|exact IH]. destruct (rackExpired _ _ _ _ _); [|done]. by rewrite !shape_set by (flag || done).
Qed.

Lemma shapes_proven l mss : map shape (fst (fst (recordProvenTCPLossesWith l mss))) = map shape l.
Proof.
  unfold recordProvenTCPLossesWith. enough (forall a b c d, provenScan l mss = (a, b, c, d) -> map shape b = map shape l) as Hx.
  { destruct (provenScan l mss) as [ [ [a b] c] d] eqn:E. by eapply Hx. }
  induction l as [|x l IH]; intros a b c d E; cbn [provenScan] in E; [by injection E as <- <- <- <-|].
  destruct (provenScan l mss) as [ [ [sacked rest] losses] reports]. specialize (IH _ _ _ _ eq_refl).
  destruct (hasState x sentTCPSegmentSACKed); [injection E as <- <- <- <-; cbn [map]; by rewrite IH|].
  destruct (_ || _); [|injection E as <- <- <- <-; cbn [map]; by rewrite IH].
  pose proof (shape_loss x true) as Hx. destruct (recordTCPSegmentLoss x true) as [x' n].
  injection E as <- <- <- <-. cbn [map fst] in *. by rewrite IH, Hx.
Qed.

(** ** The invariant *)

Section Board.

Context {A : Type} `{CongestionController A}.

Implicit Type s : tcpEstablishedState A.

(** What the invariant reads. *)
Definition boardView s :=
  ((e_sendUnacknowledged s, e_sendNext s, map shape (e_outstanding s)),
   (e_sackedRanges s, e_sackedBytes s, e_peerSACK s, e_peerMSS s, e_pathMTUState s),
   (cn_peerMSS (e_connection s), cn_local (e_connection s), cn_peerTimestamp (e_connection s))).

(** The ranges partition [SND.UNA, SND.NXT), the SACK counters count them, and
    a probe in flight leaves room for payload. *)
Record boardOk s : Prop := {
  bo_una : is_u32 (e_sendUnacknowledged s);
  bo_contig : contig (e_sendUnacknowledged s) 0 (e_outstanding s);
  bo_next : e_sendNext s = e_sendUnacknowledged s ⊞ total (e_outstanding s);
  bo_flight : total (e_outstanding s) <= maxFlight;
  bo_counts : (e_sackedRanges s, e_sackedBytes s) = sackedCount (e_outstanding s);
  bo_mss : 0 < e_peerMSS s;
  bo_probe : probeActive s = true -> 0 < sendMSSFor s (pl_probeMTU (pm_discovery (ensurePathMTUState s))) }.

(** [s'] has the same invariant-relevant state. *)
Definition keeps s s' : Prop := boardView s' = boardView s.

#[export] Instance keeps_preorder : PreOrder keeps.
Proof. split; [by intros s|]. unfold keeps. intros a b c H1 H2. by rewrite H2, H1. Qed.

Lemma keeps_ok s s' : keeps s s' -> boardOk s -> boardOk s'.
Proof.
  intros [= E1 E2 E3 E4 E5 E6 E7 E8 E9 E10 E11] [B1 B2 B3 B4 B5 B6 B7].
  split; rewrite ?E1, ?E2, ?E4, ?E5, ?E7; try done.
  - by eapply shapes_contig.
  - by rewrite (shapes_total _ _ E3).
  - by rewrite (shapes_total _ _ E3).
  - by rewrite (shapes_count _ _ E3).
  - unfold probeActive, ensurePathMTUState, sendMSSFor in *. by rewrite E8, E9, E10, E11.
Qed.

(** A step that keeps the sequence space and every SACK mark. *)
Record sameSpace s s' : Prop := {
  ss_una : e_sendUnacknowledged s' = e_sendUnacknowledged s;
  ss_next : e_sendNext s' = e_sendNext s;
  ss_sack : e_peerSACK s' = e_peerSACK s;
  ss_marks : forall x, sackedAt 0 (e_outstanding s') x = sackedAt 0 (e_outstanding s) x }.

#[export] Instance sameSpace_preorder : PreOrder sameSpace.
Proof.
  split; [by intros s|]. intros a b c [A1 A2 A3 A4] [B1 B2 B3 B4].
  split; [congruence..|]. intros x. by rewrite B4.
Qed.

Lemma keeps_space s s' : keeps s s' -> sameSpace s s'.
Proof.
  intros [= E1 E2 E3 E4 E5 E6 E7 E8 E9 E10 E11]. split; [done..|]. intros x. by apply shapes_sackedAt.
Qed.

(** An operation that returns with the invariant and the same space. *)
Definition settles s (r : option (tcpEstablishedState A)) : Prop :=
  exists s', r = Some s' /\ boardOk s' /\ sameSpace s s'.

Lemma settles_some s s' : boardOk s -> keeps s s' -> settles s (Some s').
Proof. intros Hb Hk. exists s'. split; [done|]. split; [by eapply keeps_ok|by apply keeps_space]. Qed.

Lemma settles_bind s r f : settles s r ->
  (forall s', boardOk s' -> sameSpace s s' -> settles s' (f s')) -> settles s (r ≫= f).
Proof.
  intros (s1 & -> & Hb & Hs) Hf. destruct (Hf s1 Hb Hs) as (s2 & E & Hb2 & Hs2). cbn [mbind option_bind].
  exists s2. split; [done|]. split; [done|]. by transitivity s1.
Qed.

Lemma settles_from s s1 r : keeps s s1 -> settles s1 r -> settles s r.
Proof.
  intros Hk (s2 & -> & Hb & Hs). exists s2. split; [done|]. split; [done|].
  transitivity s1; [by apply keeps_space|done].
Qed.

(** Replacing the ranges by ones of the same shape. *)
Lemma keeps_outstanding s l : map shape l = map shape (e_outstanding s) -> keeps s (s <| e_outstanding := l |>).
Proof. unfold keeps, boardView. get_set. by intros ->. Qed.

Lemma keeps_clearMarks s flag : isFlag flag -> flag <> sentTCPSegmentSACKed -> keeps s (clearMarks flag s).
Proof. intros Hf Hne. apply keeps_outstanding, shapes_map. intros x. by apply shape_set. Qed.

End Board.

(** [keeps s0 r], from the outside of [r] inwards: field updates the view does
    not read, local definitions, branches, and operations with a lemma in the
    database [frame].  Every step abstracts the state it leaves behind. *)
Create HintDb frame discriminated.
#[export] Hint Constants Opaque : frame.

(** Unfolding without expanding local definitions. *)
Tactic Notation "opens" reference(f) := cbv delta [f]; cbv beta.

Ltac frame_peel :=
  lazymatch goal with
  | |- keeps ?s0 (@set_field ?R ?T ?g ?i ?v ?s) =>
      apply (transitivity (R := keeps) (y := s));
        [|exact ((fun (x : R) (y : T) => @eq_refl _ (boardView x) : keeps x (@set_field R T g i y x)) s v)]
  end.

Ltac frame_let :=
  lazymatch goal with
  | |- keeps ?s0 (let x := ?t in @?b x) =>
      lazymatch type of t with
      | tcpEstablishedState _ =>
          let y := fresh "s" in let E := fresh "K" in
          assert (keeps s0 t) as E; [|revert E; generalize t; intros y E; change (keeps s0 (b y)); cbv beta]
      | _ -> _ => change (keeps s0 (b t)); cbv beta
      | _ => let y := fresh "v" in generalize t; intros y; change (keeps s0 (b y)); cbv beta
      end
  end.

Ltac frame_call := eapply (transitivity (R := keeps)); [|solve [eauto 1 with frame nocore]].

Ltac frame_branch :=
  lazymatch goal with
  | |- keeps ?s0 (fst (let x := ?t in @?b x)) => change (keeps s0 (let x := t in fst (b x)))
  | |- keeps ?s0 (fst (?a, _)) => change (keeps s0 a)
  | |- keeps _ (fst (match ?x with _ => _ end)) => frame_match x
  | |- keeps _ (match ?x with _ => _ end) => frame_match x
  end
with frame_match x :=
  lazymatch type of x with
  | prod (tcpEstablishedState _) _ =>
      lazymatch goal with
      | |- keeps ?s0 _ =>
          let K := fresh "K" in let y := fresh "s" in let v := fresh "v" in
          assert (keeps s0 (fst x)) as K by frame; revert K; destruct x as [y v]; intros K; change (keeps s0 y) in K
      end
  | _ => destruct x
  end
with frame :=
  repeat first
    [ lazymatch goal with |- keeps ?s ?s => exact (reflexivity (R := keeps) s) end
    | lazymatch goal with K : keeps ?s ?t |- keeps ?s ?t => exact K end
    | frame_let | frame_branch | frame_peel | frame_call ].

Section Frames.

Context {A : Type} `{CongestionController A}.
Variable outside : float64 -> Z.
Variable epoch : Z.

Implicit Type s : tcpEstablishedState A.
Implicit Type env : transportEnv A.
Implicit Type e : ackEntry.
Implicit Type l : ackLocals.

Lemma keeps_withConn s f :
  (forall c, (cn_peerMSS (f c), cn_local (f c), cn_peerTimestamp (f c)) = (cn_peerMSS c, cn_local c, cn_peerTimestamp c)) ->
  keeps s (withConn s f).
Proof. intros Hf. unfold keeps, boardView, withConn. get_set. by rewrite Hf. Qed.
Hint Extern 1 (keeps _ (withConn _ _)) => apply keeps_withConn; intros ?; reflexivity : frame.

Lemma keeps_raiseCWR s : keeps s (raiseCWR s).
Proof. opens raiseCWR. frame. Qed.

Lemma keeps_stopTailProbe s : keeps s (stopTailProbe s).
Proof. opens stopTailProbe. frame. Qed.

Lemma keeps_clearPRR s : keeps s (clearPRR s).
Proof. opens clearPRR. frame. Qed.

Lemma keeps_clearRetried s : keeps s (clearMarks sentTCPSegmentSACKRetried s).
Proof. apply keeps_clearMarks; [flag|done]. Qed.

Lemma keeps_clearRACKLost s : keeps s (clearMarks sentTCPSegmentRACKLost s).
Proof. apply keeps_clearMarks; [flag|done]. Qed.

Lemma keeps_clearLimitedMarks s : keeps s (clearMarks sentTCPSegmentLimited s).
Proof. apply keeps_clearMarks; [flag|done]. Qed.

Lemma keeps_clearMTUProbe s : keeps s (clearMarks sentTCPSegmentMTUProbe s).
Proof. apply keeps_clearMarks; [flag|done]. Qed.

Hint Resolve keeps_raiseCWR keeps_stopTailProbe keeps_clearPRR keeps_clearRetried keeps_clearRACKLost
  keeps_clearLimitedMarks keeps_clearMTUProbe : frame.

Lemma keeps_clearLimited s : keeps s (clearLimited s).
Proof. opens clearLimited. frame. Qed.

Lemma keeps_beginRecoveryUndo s timeout observedAt : keeps s (beginRecoveryUndo s timeout observedAt).
Proof. opens beginRecoveryUndo. frame. Qed.

Lemma keeps_timeoutReduction s observedAt : keeps s (timeoutReduction s observedAt).
Proof. opens timeoutReduction. frame. Qed.

Lemma keeps_lossReduction s lostRetransmission lostCWR flight observedAt :
  keeps s (lossReduction s lostRetransmission lostCWR flight observedAt).
Proof. opens lossReduction. frame. Qed.

Hint Resolve keeps_clearLimited keeps_beginRecoveryUndo keeps_timeoutReduction keeps_lossReduction : frame.

Lemma keeps_timeoutResponse s eligible observedAt : keeps s (timeoutResponse s eligible observedAt).
Proof. opens timeoutResponse. frame. Qed.

Lemma keeps_recoveryResponse s lostRetransmission lostCWR observedAt :
  keeps s (recoveryResponse s lostRetransmission lostCWR observedAt).
Proof. opens recoveryResponse. frame. Qed.

Lemma keeps_noteSegmentLoss s index proven duringACK evidence observedAt flight :
  0 <= index < zlen (e_outstanding s) ->
  exists s', noteSegmentLoss s index proven duringACK evidence observedAt flight = Some s' /\ keeps s s'.
Proof.
  intros Hi. destruct (idx_some _ _ Hi) as (x & Ex). opens noteSegmentLoss. rewrite Ex. cbn [mbind option_bind].
  pose proof (shape_loss x proven) as Hx. destruct (recordTCPSegmentLoss x proven) as [x' bytes]. cbn [fst] in Hx.
  eexists. split; [reflexivity|].
  pose proof (keeps_outstanding s _ (shapes_insert _ _ x' x Ex Hx)) as Hk. cbv zeta. revert Hk.
  generalize (s <| e_outstanding := <[Z.to_nat index := x']> (e_outstanding s) |>). intros s1 Hk. frame.
Qed.

Lemma keeps_armPathMTUProbe s routeExpiry clock : keeps s (armPathMTUProbe s routeExpiry clock).
Proof. opens armPathMTUProbe. frame. Qed.

Lemma keeps_armPathMTURetransmission s clock : keeps s (armPathMTURetransmission s clock).
Proof. opens armPathMTURetransmission. frame. Qed.

Hint Resolve keeps_timeoutResponse keeps_recoveryResponse keeps_armPathMTUProbe keeps_armPathMTURetransmission : frame.

End Frames.

(** ** Loss recovery keeps the scoreboard *)

Section Responses.

Context {A : Type} `{CongestionController A}.
Variable epoch : Z.

Implicit Type s : tcpEstablishedState A.
Implicit Type env : transportEnv A.

(** The invariant without the path MTU search. *)
Definition boardSpace s :=
  ((e_sendUnacknowledged s, e_sendNext s, map shape (e_outstanding s)),
   (e_sackedRanges s, e_sackedBytes s, e_peerSACK s)).

Lemma idle_ok s s' : boardSpace s' = boardSpace s -> probeActive s' = false -> 0 < e_peerMSS s' ->
  boardOk s -> boardOk s' /\ sameSpace s s'.
Proof.
  intros [= E1 E2 E3 E4 E5 E6] Hp Hm [B1 B2 B3 B4 B5 B6 B7]. split.
  - split; rewrite ?E1, ?E2, ?E4, ?E5, ?(shapes_total _ _ E3), ?(shapes_count _ _ E3); try done.
    + by eapply shapes_contig.
    + intros. congruence.
  - split; [done..|]. intros x. by apply shapes_sackedAt.
Qed.

(** No range is marked exactly when the counters are zero. *)
Lemma unmarked_count base o l : contig base o l ->
  (forall x, sackedAt o l x = false) -> sackedCount l = (0, 0).
Proof.
  revert o. induction l as [|y l IH]; intros o Hc Hx; [done|]. destruct Hc as (_ & _ & Hl & Hc).
  cbn [sackedCount foldr]. fold (sackedCount l). pose proof (Hx o) as Ho. cbn [sackedAt] in Ho.
  replace ((o <=? o) && (o <? o + segLen y)) with true in Ho by lia. rewrite Ho. apply (IH (o + segLen y)); [done|].
  intros x. destruct (decide (o + segLen y <= x)) as [Hge|Hlt].
  - specialize (Hx x). cbn [sackedAt] in Hx. replace ((o <=? x) && (x <? o + segLen y)) with false in Hx by lia. done.
  - destruct (sackedAt (o + segLen y) l x) eqn:E; [|done]. apply sackedAt_range in E. lia.
Qed.

Lemma count_unmarked o l x : fst (sackedCount l) = 0 -> sackedAt o l x = false.
Proof.
  revert o. induction l as [|y l IH]; intros o Hc; [done|]. cbn [sackedCount foldr] in Hc. fold (sackedCount l) in Hc.
  pose proof (sackedCount_bounds l). cbn [sackedAt]. destruct (hasState y _); cbn [fst] in Hc; [lia|].
  destruct (_ && _); [done|by apply IH].
Qed.

(** New ranges over the same space, counted again unless nothing was marked. *)
Lemma recount_ok s l : boardOk s -> contig (e_sendUnacknowledged s) 0 l -> total l = total (e_outstanding s) ->
  (forall x, sackedAt 0 l x = sackedAt 0 (e_outstanding s) x) ->
  let s1 := s <| e_outstanding := l |> in
  let s2 := if negb (e_sackedRanges s1 =? 0) then recountSACK s1 else s1 in
  boardOk s2 /\ sameSpace s s2.
Proof.
  intros [B1 B2 B3 B4 B5 B6 B7] Hc Ht Hx. cbv zeta. change (e_sackedRanges (s <| e_outstanding := l |>)) with (e_sackedRanges s).
  destruct (Z.eqb_spec (e_sackedRanges s) 0) as [E|E]; cbn [negb].
  - assert (sackedCount l = (0, 0)) as Hl.
    { apply (unmarked_count (e_sendUnacknowledged s) 0); [done|]. intros x. rewrite Hx. apply count_unmarked. by rewrite <- B5. }
    assert (sackedCount (e_outstanding s) = (0, 0)) as Hl0.
    { apply (unmarked_count (e_sendUnacknowledged s) 0); [done|]. intros x. apply count_unmarked. by rewrite <- B5. }
    split; [|split; [done..|exact Hx]].
    split; [exact B1|exact Hc|get_set; by rewrite Ht|get_set; by rewrite Ht|get_set; by rewrite B5, Hl, Hl0|exact B6|exact B7].
  - unfold recountSACK. get_set. rewrite tcpSACKedState_count by lia. destruct (sackedCount l) as [ranges bytes] eqn:El.
    split; [|split; [done..|exact Hx]].
    split; [exact B1|exact Hc|get_set; by rewrite Ht|get_set; by rewrite Ht|get_set; by rewrite El|exact B6|exact B7].
Qed.

Lemma resegment_settles s : boardOk s -> settles s (resegment s).
Proof.
  intros Hb. pose proof (bo_mss _ Hb) as Hm. pose proof (bo_contig _ Hb) as Hc.
  destruct (resegmentation _ _ _ Hc Hm) as (l & El & Hl & Ht & _ & Hx). unfold resegment. rewrite El. cbn [mbind option_bind].
  destruct (recount_ok s l Hb Hl Ht Hx) as [Hb2 Hs2]. cbv zeta in Hb2, Hs2. eexists. split; [reflexivity|]. by split.
Qed.

Lemma probeActive_set s f : (forall p, pl_active (f p) = false) -> probeActive (setDiscovery s f) = false.
Proof. intros Hf. unfold probeActive, setDiscovery. get_set. destruct (e_pathMTUState s); [apply Hf|done]. Qed.

Lemma setDiscovery_ok s f : (forall p, pl_active (f p) = false) -> boardOk s ->
  boardOk (setDiscovery s f) /\ sameSpace s (setDiscovery s f).
Proof.
  intros Hf Hb. apply idle_ok; [reflexivity|by apply probeActive_set|exact (bo_mss _ Hb)|exact Hb].
Qed.

(** An operation that also returns an index. *)
Definition settlesWith {B} s (r : option (tcpEstablishedState A * B)) : Prop :=
  exists s' b, r = Some (s', b) /\ boardOk s' /\ sameSpace s s'.

Lemma cancelMTUProbe_settles env s index timeout observedAt :
  boardOk s -> 0 <= index < zlen (e_outstanding s) -> settlesWith s (cancelMTUProbe env s index timeout observedAt).
Proof.
  intros Hb Hi. unfold cancelMTUProbe. destruct (negb (probeActive s)); [by exists s, index|].
  destruct (idx_some _ _ Hi) as (x & Ex). rewrite Ex. cbn [mbind option_bind].
  set (delay := if timeout then _ else _). clearbody delay.
  destruct (setDiscovery_ok s (fun p => pl_inconclusive p observedAt delay) ltac:(done) Hb) as [Hb1 Hs1].
  set (s1 := setDiscovery s _) in *. clearbody s1.
  pose proof (keeps_clearMTUProbe s1) as Hk. pose proof (keeps_ok _ _ Hk Hb1) as Hb2.
  destruct (resegment_settles _ Hb2) as (s3 & -> & Hb3 & Hs3).
  pose proof (keeps_armPathMTUProbe s3 (ev_routeExpiry env) (ev_clock env)) as Hk4.
  eexists _, _. split; [reflexivity|]. split; [exact (keeps_ok _ _ Hk4 Hb3)|].
  transitivity s1; [exact Hs1|]. transitivity (clearMarks sentTCPSegmentMTUProbe s1); [by apply keeps_space|].
  transitivity s3; [exact Hs3|by apply keeps_space].
Qed.

Lemma targetIndex_range s index : noOutstanding s = false -> 0 <= targetIndex s index < zlen (e_outstanding s) \/
  (targetIndex s index <? 0) || (zlen (e_outstanding s) <=? targetIndex s index) = true.
Proof. intros _. destruct ((targetIndex s index <? 0) || _) eqn:E; [by right|left; lia]. Qed.

Lemma prepareRetransmission_settles env s index timeout duringACK evidence observedAt :
  boardOk s -> settlesWith s (prepareRetransmission env s index timeout duringACK evidence observedAt).
Proof.
  intros Hb. unfold prepareRetransmission. destruct (noOutstanding s); [by exists s, (-1)|]. cbv zeta.
  destruct ((targetIndex s index <? 0) || _) eqn:E; [by exists s, (-1)|].
  set (at_ := if isSet observedAt then _ else _). clearbody at_.
  destruct (cancelMTUProbe_settles env s (targetIndex s index) timeout at_ Hb ltac:(lia)) as (s1 & i & -> & Hb1 & Hs1).
  cbn [mbind option_bind]. destruct ((i <? 0) || _) eqn:Ei; [by exists s1, (-1)|].
  assert (0 <= i < zlen (e_outstanding s1)) as Hi by lia. destruct (idx_some _ _ Hi) as (x & Ex). rewrite Ex.
  cbn [mbind option_bind]. set (s2 := if _ || _ then beginRecoveryUndo _ _ _ else _).
  assert (keeps s1 s2) as Hk2 by (subst s2; match goal with |- keeps _ (if ?b then _ else _) => destruct b end; [apply keeps_beginRecoveryUndo|done]). clearbody s2.
  assert (0 <= i < zlen (e_outstanding s2)) as Hi2.
  { injection Hk2 as _ _ E3 _. apply (f_equal length) in E3. rewrite !length_map in E3. unfold zlen in *. lia. }
  set (proven := timeout || _ || _). clearbody proven.
  destruct (keeps_noteSegmentLoss s2 i proven duringACK evidence at_ congestionFlight Hi2) as (s3 & -> & Hk3).
  cbn [mbind option_bind]. set (s4 := if timeout then _ else _).
  assert (keeps s3 s4) as Hk4 by (subst s4; destruct timeout; [apply keeps_timeoutResponse|apply keeps_recoveryResponse]).
  clearbody s4. assert (keeps s1 s4) as Hk by (by rewrite Hk2, Hk3).
  eexists _, _. split; [reflexivity|]. split; [exact (keeps_ok _ _ Hk Hb1)|].
  transitivity s1; [exact Hs1|by apply keeps_space].
Qed.

Lemma enterRecovery_settles env s index receivedAt : boardOk s -> settles s (enterRecovery env s index receivedAt).
Proof.
  intros Hb. unfold enterRecovery.
  destruct (prepareRetransmission_settles env s index false (usesDeliveryRate (e_controller s)) true receivedAt Hb)
    as (s1 & i & -> & Hb1 & Hs1). by exists s1.
Qed.

Lemma shape_suppress x : shape (suppressProbeLoss x) = shape x.
Proof.
  unfold suppressProbeLoss. destruct (hasState x sentTCPSegmentMTUProbe);
    rewrite shape_set by (flag || done); [apply shape_report|done].
Qed.

Lemma failPLPMTUProbe_settles env s : boardOk s -> settlesWith s (failPLPMTUProbe env s).
Proof.
  intros Hb. unfold failPLPMTUProbe. destruct (negb (probeActive s)); [by exists s, None|]. cbv zeta.
  set (headway := tcpPLPMTUProbeHeadway _ _ _). clearbody headway.
  destruct (setDiscovery_ok s (fun p => pl_failed p (ev_clock env) headway) ltac:(done) Hb) as [Hb1 Hs1].
  pose proof (probeActive_set s (fun p => pl_failed p (ev_clock env) headway) ltac:(done)) as Hp1.
  set (s1 := setDiscovery s _) in *. clearbody s1. set (confirmed := if negb (pl_searching _) then Some (cn_mtu _) else None). clearbody confirmed.
  pose proof (keeps_outstanding s1 _ (shapes_map suppressProbeLoss (e_outstanding s1) shape_suppress)) as Hk2.
  pose proof (keeps_ok _ _ Hk2 Hb1) as Hb2. set (s2 := s1 <| e_outstanding := _ |>) in *.
  assert (probeActive s2 = false) as Hp2 by exact Hp1. clearbody s2.
  destruct (resegment_settles _ Hb2) as (s3 & E3 & Hb3 & Hs3). rewrite E3. cbn [mbind option_bind].
  assert (probeActive s3 = false) as Hp3.
  { unfold resegment in E3. destruct (splitTCPSegments _ _); [|done]. injection E3 as <-.
    destruct (negb _); [|exact Hp2]. unfold recountSACK. destruct (tcpSACKedState _). exact Hp2. }
  assert (sameSpace s s3) as Hs by (transitivity s1; [done|]; transitivity s2; [by apply keeps_space|done]).
  clear E3. match goal with |- context [if ?b then _ else _] => destruct b end.
  - pose proof (keeps_armPathMTUProbe s3 (ev_routeExpiry env) (ev_clock env)) as Hk4.
    eexists _, _. split; [reflexivity|]. split; [exact (keeps_ok _ _ Hk4 Hb3)|]. transitivity s3; [done|by apply keeps_space].
  - set (s4 := s3 <| e_pathMTUState := _ |>). assert (probeActive s4 = false) as Hp4.
    { subst s4. unfold probeActive in *. get_set. unfold ensurePathMTUState. by destruct (e_pathMTUState s3). }
    destruct (idle_ok s3 s4 eq_refl Hp4 (bo_mss _ Hb3) Hb3) as [Hb4 Hs4]. clearbody s4.
    pose proof (keeps_armPathMTURetransmission s4 (ev_clock env)) as Hk5. set (s5 := armPathMTURetransmission s4 _) in *. clearbody s5.
    pose proof (keeps_armPathMTUProbe s5 (ev_routeExpiry env) (ev_clock env)) as Hk6.
    eexists _, _. split; [reflexivity|]. split; [exact (keeps_ok _ _ Hk6 (keeps_ok _ _ Hk5 Hb4))|].
    transitivity s3; [done|]. transitivity s4; [done|]. transitivity s5; by apply keeps_space.
Qed.

End Responses.

(** ** The stages that the invariant does not see *)

Section StageFrames.

Context {A : Type} `{CongestionController A}.
Variable outside : float64 -> Z.
Variable epoch : Z.

Implicit Type s : tcpEstablishedState A.
Implicit Type env : transportEnv A.
Implicit Type e : ackEntry.
Implicit Type l : ackLocals.

Hint Extern 1 (keeps _ (withConn _ _)) => apply keeps_withConn; intros ?; reflexivity : frame.
Hint Resolve keeps_raiseCWR keeps_stopTailProbe keeps_clearPRR keeps_clearLimited keeps_clearRACKLost : frame.

Lemma keeps_withSample s f : keeps s (withSample s f).
Proof. opens withSample. frame. Qed.

Lemma keeps_endFRTO s : keeps s (endFRTO s).
Proof. opens endFRTO. frame. Qed.

Lemma keeps_openPhase s receivedAt : keeps s (openPhase s receivedAt).
Proof. opens openPhase. frame. Qed.

Lemma keeps_clearSoftError s : keeps s (clearSoftError s).
Proof. opens clearSoftError. frame. Qed.

Lemma keeps_deactivateUndo s : keeps s (deactivateUndo s).
Proof. opens deactivateUndo. opens withUndo. frame. Qed.

Lemma keeps_updatePeerWindow s segment ackAdvanced oldACK : keeps s (updatePeerWindow s segment ackAdvanced oldACK).
Proof. opens updatePeerWindow. frame. Qed.

Lemma keeps_armPacingAt s deadline : keeps s (armPacingAt s deadline).
Proof. opens armPacingAt. frame. Qed.

Lemma keeps_ageRACKReordering s : keeps s (ageRACKReordering s).
Proof. opens ageRACKReordering. frame. Qed.

Lemma keeps_observeRACKReordering s stop retransmitted : keeps s (observeRACKReordering s stop retransmitted).
Proof. opens observeRACKReordering. frame. Qed.

Hint Resolve keeps_withSample keeps_endFRTO keeps_openPhase keeps_clearSoftError keeps_deactivateUndo
  keeps_updatePeerWindow keeps_armPacingAt keeps_ageRACKReordering keeps_observeRACKReordering : frame.

Lemma keeps_enterACK s segment receivedAt timestampEcho : keeps s (fst (enterACK s segment receivedAt timestampEcho)).
Proof. opens enterACK. frame. Qed.

Lemma keeps_ecnReduction env s receivedAt : keeps s (ecnReduction env s receivedAt).
Proof. opens ecnReduction. frame. Qed.

Hint Resolve keeps_ecnReduction : frame.

Lemma keeps_ecnStage env s e : keeps s (fst (ecnStage env s e)).
Proof. opens ecnStage. frame. Qed.

Lemma keeps_timeoutProgress s l e : keeps s (fst (timeoutProgress s l e)).
Proof. opens timeoutProgress. frame. Qed.

Lemma keeps_takeSample s l e sample : keeps s (fst (takeSample epoch s l e sample)).
Proof. opens takeSample. frame. Qed.

Hint Resolve keeps_takeSample : frame.

Lemma keeps_timestampSample s l e : keeps s (fst (timestampSample epoch s l e)).
Proof. opens timestampSample. frame. Qed.

Lemma keeps_tailLossRepaired s e : keeps s (tailLossRepaired s e).
Proof. opens tailLossRepaired. frame. Qed.

Hint Resolve keeps_tailLossRepaired : frame.

Lemma keeps_tailProbeStage s e : keeps s (tailProbeStage s e).
Proof. opens tailProbeStage. frame. Qed.

Lemma keeps_finishRecovery s e : keeps s (finishRecovery s e).
Proof. opens finishRecovery. frame. Qed.

Lemma keeps_growWindow s l e acknowledged : keeps s (growWindow s l e acknowledged).
Proof. opens growWindow. frame. Qed.

Lemma keeps_growSend s target : keeps s (growSend s target).
Proof.
  apply keeps_withConn. intros c. unfold growSendCapacity. repeat (destruct (_ : bool); [reflexivity|]). reflexivity.
Qed.

Hint Resolve keeps_growSend : frame.

Lemma keeps_tuneSendBuffer s e : keeps s (tuneSendBuffer outside s e).
Proof. opens tuneSendBuffer. frame. Qed.

Lemma keeps_currentStage s : keeps s (currentStage s).
Proof. opens currentStage. opens persistAnswered. frame. Qed.

Lemma keeps_eifelStage s e hasDSACK : keeps s (fst (eifelStage s e hasDSACK)).
Proof. opens eifelStage. frame. Qed.

Lemma keeps_disableDSACKUndo s : keeps s (disableDSACKUndo s).
Proof. opens disableDSACKUndo. opens withUndo. frame. Qed.

Hint Resolve keeps_disableDSACKUndo : frame.

Lemma keeps_correlateDSACK s e dsack spurious : keeps s (fst (correlateDSACK s e dsack spurious)).
Proof. opens correlateDSACK. frame. Qed.

Lemma keeps_observeDuplicate s e dsack : keeps s (observeDuplicate s e dsack).
Proof. opens observeDuplicate. frame. Qed.

Lemma keeps_restoreTransport s t acknowledged : keeps s (restoreRecoveryTransportState s t acknowledged).
Proof. opens restoreRecoveryTransportState. frame. Qed.

Lemma keeps_endSpuriousTimeout s receivedAt : keeps s (endSpuriousTimeout s receivedAt).
Proof. opens endSpuriousTimeout. frame. Qed.

Hint Resolve keeps_restoreTransport keeps_endSpuriousTimeout : frame.

Lemma keeps_restoreSpurious s receivedAt acknowledged : keeps s (fst (restoreSpuriousRecovery s receivedAt acknowledged)).
Proof. opens restoreSpuriousRecovery. frame. Qed.

Hint Resolve keeps_restoreSpurious : frame.

Lemma keeps_undoStage s l e : keeps s (undoStage s l e).
Proof. opens undoStage. frame. Qed.

Lemma keeps_eifelRTOStage s l e : keeps s (eifelRTOStage s l e).
Proof. opens eifelRTOStage. frame. Qed.

Lemma keeps_prrStage s l e newlyLost : keeps s (prrStage s l e newlyLost).
Proof. opens prrStage. frame. Qed.

Lemma keeps_tailProbeEvidence s l e : keeps s (tailProbeEvidence s l e).
Proof. opens tailProbeEvidence. frame. Qed.

Lemma keeps_armSACKReneging s clock : keeps s (armSACKReneging s clock).
Proof. opens armSACKReneging. frame. Qed.

Lemma keeps_frtoFallback s l e limitWindow : keeps s (fst (frtoFallback s l e limitWindow)).
Proof. opens frtoFallback. frame. Qed.

Hint Resolve keeps_frtoFallback : frame.

Lemma keeps_frtoStage s l e duplicateEvidence : keeps s (fst (frtoStage s l e duplicateEvidence)).
Proof. opens frtoStage. frame. Qed.

Lemma keeps_rateStage s l e : keeps s (rateStage epoch s l e).
Proof. opens rateStage. frame. Qed.

Lemma keeps_provisionStage s l e : keeps s (provisionStage s l e).
Proof. opens provisionStage. frame. Qed.

(** Stages that rewrite the ranges without changing their shape. *)

Lemma keeps_rackStage s l e : keeps s (rackStage epoch s l e).
Proof.
  opens rackStage. destruct (_ && _); [|reflexivity].
  pose proof (shapes_mark (e_outstanding s) (e_rackLatestDelivered s) (en_receivedAt e) (currentReorderingWindow s) epoch) as Hm.
  destruct (markRACKLoss _ _ _ _ _) as [outstanding lost]. cbn [fst] in Hm.
  etransitivity; [exact (keeps_outstanding s _ Hm)|]. frame.
Qed.

Lemma keeps_recordProven s duringACK observedAt clock : keeps s (recordProvenLosses s duringACK observedAt clock).
Proof.
  opens recordProvenLosses. pose proof (shapes_proven (e_outstanding s) (e_peerMSS s)) as Hp. destruct (negb _).
  - unfold recordProvenTCPLosses. destruct (recordProvenTCPLossesWith _ _) as [ [outstanding n] reports]. cbn [fst snd] in Hp.
    etransitivity; [exact (keeps_outstanding s _ Hp)|]. frame.
  - destruct (recordProvenTCPLossesWith _ _) as [ [outstanding n] reports]. cbn [fst snd] in Hp.
    etransitivity; [exact (keeps_outstanding s _ Hp)|]. frame.
Qed.

Lemma keeps_newlySACKed e segments s l earliest :
  keeps s (fst (fst (foldl (newlySACKedRange epoch e) (s, l, earliest) segments))).
Proof.
  revert s l earliest. induction segments as [|x segments IH]; intros s l earliest; [reflexivity|]. cbn [foldl].
  destruct (newlySACKedRange epoch e (s, l, earliest) x) as [ [s1 l1] e1] eqn:E. etransitivity; [|apply IH].
  revert E. opens newlySACKedRange. cbv beta iota zeta. match goal with |- context [match ?p with (_, _) => _ end] => destruct p as [l2 e2] end.
  intros [= <- _ _]. frame.
Qed.

End StageFrames.
