(* ===== verification/AckLaws.v ===== *)
(** * Laws of acknowledgement processing

    Every admitted ACK keeps the scoreboard invariant, moves SND.UNA and SND.NXT
    as it must, and loses no selective acknowledgement, whatever recovery, path
    MTU change or controller change it triggers. *)

From stdpp Require Import strings.
From S2P Require Import Prelude SeqNum Rtt SegmentQueue ByteBuffers TcpReceive Addr Windows Scoreboard.
From S2P Require Import Float64 DeliveryRate Congestion LossBased TcpOptions ReceiveWindow Recovery Established.
From S2P Require Import LossRecovery AckProcessing EstablishedLaws AckInvariant.

#[local] Hint Constants Opaque : frame.

(** ** Cumulative progress *)

Section Progress.

Context {A : Type} `{CongestionController A}.
Variable outside : float64 -> Z.
Variable epoch : Z.

Implicit Type s : tcpEstablishedState A.
Implicit Type env : transportEnv A.
Implicit Type e : ackEntry.
Implicit Type l : ackLocals.

Hint Extern 1 (keeps _ (withConn _ _)) => apply keeps_withConn; intros ?; reflexivity : frame.

(** The view without the SACK counters. *)
Definition restView s :=
  ((e_sendUnacknowledged s, e_sendNext s, map shape (e_outstanding s)),
   (e_peerSACK s, e_peerMSS s, e_pathMTUState s),
   (cn_peerMSS (e_connection s), cn_local (e_connection s), cn_peerTimestamp (e_connection s))).

Definition counts s : Z * Z := (e_sackedRanges s, e_sackedBytes s).

Lemma keeps_rest s s' : keeps s s' -> restView s' = restView s /\ counts s' = counts s.
Proof. intros [= E1 E2 E3 E4 E5 E6 E7 E8 E9 E10 E11]. unfold restView, counts. split; congruence. Qed.

(** [SND.UNA] has moved [n] bytes into the ranges. *)
Record trailing (base n : Z) s : Prop := {
  tr_una : e_sendUnacknowledged s = base ⊞ n;
  tr_contig : contig base 0 (e_outstanding s);
  tr_next : e_sendNext s = base ⊞ total (e_outstanding s);
  tr_range : 0 <= n <= total (e_outstanding s) /\ total (e_outstanding s) <= maxFlight;
  tr_counts : counts s = sackedCount (e_outstanding s);
  tr_mss : 0 < e_peerMSS s;
  tr_probe : probeActive s = true -> 0 < sendMSSFor s (pl_probeMTU (pm_discovery (ensurePathMTUState s))) }.

Lemma keeps_trailing base n s s' : keeps s s' -> trailing base n s -> trailing base n s'.
Proof.
  intros [= E1 E2 E3 E4 E5 E6 E7 E8 E9 E10 E11] [B1 B2 B3 B4 B5 B6 B7].
  split; unfold counts; rewrite ?E1, ?E2, ?E4, ?E5, ?E7, ?(shapes_total _ _ E3), ?(shapes_count _ _ E3); try done.
  - by eapply shapes_contig.
  - unfold probeActive, ensurePathMTUState, sendMSSFor in *. by rewrite E8, E9, E10, E11.
Qed.

(** What leaving a range takes off the counters. *)
Definition uncounted s (segment : sentTCPSegment) (removed ranges : Z) : Z * Z :=
  if hasState segment sentTCPSegmentSACKed
  then (e_sackedRanges s - ranges, e_sackedBytes s ⊟ removed) else counts s.

Lemma deliverRange_view s e segment stop removed ranges :
  restView (deliverRange epoch s e segment stop removed ranges) = restView s /\
  counts (deliverRange epoch s e segment stop removed ranges) = uncounted s segment removed ranges.
Proof.
  opens deliverRange. set (s1 := if en_deliveryACK e then _ else s).
  assert (restView s1 = restView s /\ counts s1 = counts s) as [Hr1 Hc1].
  { subst s1. destruct (en_deliveryACK e); [apply keeps_rest, keeps_withSample|done]. }
  clearbody s1. unfold uncounted. destruct (hasState segment _).
  - injection Hc1 as <- <-. by rewrite <- Hr1.
  - destruct (keeps_rest _ _ (keeps_observeRACKReordering s1 stop (isRetransmitted segment))) as [Hr2 Hc2].
    rewrite <- Hr1, <- Hc1, <- Hr2, <- Hc2. by generalize (observeRACKReordering s1 stop (isRetransmitted segment)).
Qed.

(** The loop over wholly acknowledged ranges. *)
Lemma popAcknowledged_spec ambiguous e base n o outstanding s l :
  en_ack e = base ⊞ n -> contig base o outstanding -> 0 <= o <= n -> n <= o + total outstanding <= maxFlight ->
  counts s = sackedCount outstanding ->
  let '(outstanding', s', l') := popAcknowledged epoch ambiguous e outstanding s l in
  exists o', contig base o' outstanding' /\ o <= o' <= n /\ o' + total outstanding' = o + total outstanding /\
    match outstanding' with x :: _ => n < o' + segLen x | [] => True end /\
    counts s' = sackedCount outstanding' /\ restView s' = restView s /\
    forall x, n <= x -> sackedAt o' outstanding' x = sackedAt o outstanding x.
Proof.
  intros Ha. revert o s l. induction outstanding as [|y rest IH]; intros o s l Hc Ho Hn Hk; cbn [popAcknowledged].
  { exists o. split_and!; try done; lia. }
  destruct Hc as (Hs & He & Hl & Hc). cbn [total foldr] in Hn. fold (total rest) in Hn. pose proof (total_nonneg rest).
  rewrite Ha, (contig_end base o y Hs He). unfold tcpSequenceGreaterEqual. unfold maxFlight in *. rewrite less_offsets by lia.
  rewrite <- Z.leb_antisym. destruct (Z.leb_spec (o + segLen y) n) as [Hle|Hgt].
  2: { exists o. split_and!; try done; lia. }
  rewrite <- (contig_end base o y Hs He).
  destruct (deliverRange_view s e y (st_end y) (segLen y) 1) as [Hr1 Hc1].
  set (s1 := deliverRange epoch s e y (st_end y) (segLen y) 1) in *. clearbody s1.
  match goal with |- context [if ?b then takeSample epoch s1 l e ?r else ?p] =>
    assert (keeps s1 (fst (if b then takeSample epoch s1 l e r else p))) as Hk2
      by (destruct b; [apply keeps_takeSample|reflexivity]);
    set (sl := if b then takeSample epoch s1 l e r else p) in * end.
  clearbody sl. destruct sl as [s2 l2]. cbn [fst] in Hk2.
  match goal with |- context [popAcknowledged _ _ _ _ ?t _] => set (s3 := t) end.
  assert (keeps s2 s3) as Hk3 by (subst s3; clear Hk2; frame). clearbody s3.
  destruct (keeps_rest _ _ (transitivity (R := keeps) Hk2 Hk3)) as [Hr3 Hc3].
  assert (counts s3 = sackedCount rest) as Hk4.
  { rewrite Hc3, Hc1. unfold uncounted. cbn [sackedCount foldr] in Hk. fold (sackedCount rest) in Hk.
    pose proof (sackedCount_bounds rest). pose proof (segLen_range y). destruct (hasState y _); [|done].
    injection Hk as -> ->. destruct (sackedCount rest) as [a b]. cbn [fst snd] in *. f_equal; [lia|].
    replace (segLen y + b - segLen y) with b by lia. apply u32_id. unfold is_u32. lia. }
  specialize (IH (o + segLen y) s3 l2 Hc ltac:(lia) ltac:(lia) Hk4).
  destruct (popAcknowledged epoch ambiguous e rest s3 l2) as [ [out' s'] l'].
  destruct IH as (o' & I1 & I2 & I3 & I4 & I5 & I6 & I7). exists o'. cbn [total foldr]. fold (total rest).
  split_and!; try done; [lia..|congruence|]. intros x Hx. rewrite (I7 x Hx). cbn [sackedAt].
  by replace ((o <=? x) && (x <? o + segLen y)) with false by lia.
Qed.

(** Counting offsets from a later byte. *)
Lemma contig_rebase base n o board : contig base (o + n) board -> contig (base ⊞ n) o board.
Proof.
  revert o. induction board as [|x board IH]; intros o; [done|]. intros (H1 & H2 & H3 & H4).
  split; [rewrite H1; word|]. split; [done|]. split; [done|]. apply IH. by replace (o + segLen x + n) with (o + n + segLen x) by lia.
Qed.

Lemma sackedAt_rebase n o board x : sackedAt (o + n) board (x + n) = sackedAt o board x.
Proof.
  revert o. induction board as [|y board IH]; intros o; [done|]. cbn [sackedAt].
  replace (o + n + segLen y) with (o + segLen y + n) by lia. rewrite IH.
  by replace ((o + n <=? x + n) && (x + n <? o + segLen y + n)) with ((o <=? x) && (x <? o + segLen y)) by lia.
Qed.

(** The partly acknowledged head keeps its right edge and its mark. *)
Lemma trim_head base o n y : st_sequence y = base ⊞ o -> is_u32 (st_end y) -> 0 <= o < n -> n < o + segLen y <= maxFlight ->
  let z := trimAcknowledgedTCPSegment y (base ⊞ n) in
  st_sequence z = base ⊞ n /\ st_end z = st_end y /\ segLen z = o + segLen y - n /\
  hasState z sentTCPSegmentSACKed = hasState y sentTCPSegmentSACKed.
Proof.
  intros Hs He Ho Hn. cbv zeta. pose proof (contig_end base o y Hs He) as Hend.
  assert (forall flags, let z := setState (withRange y (base ⊞ n) (st_end y) flags) sentTCPSegmentCWR false in
    st_sequence z = base ⊞ n /\ st_end z = st_end y /\ segLen z = o + segLen y - n /\
    hasState z sentTCPSegmentSACKed = hasState y sentTCPSegmentSACKed) as Hz.
  { intros flags. cbv zeta. rewrite hasState_set by flag. split; [done|]. split; [done|]. split; [|done].
    unfold segLen at 1. cbn. rewrite Hend. unfold maxFlight in *. word. }
  assert (negb (tcpSequenceGreater (base ⊞ n) (st_sequence y)) || negb (tcpSequenceLess (base ⊞ n) (st_end y)) = false) as Hg.
  { unfold tcpSequenceGreater, maxFlight in *. rewrite Hs, Hend, !less_offsets by lia. lia. }
  unfold trimAcknowledgedTCPSegment. rewrite Hg. apply Hz.
Qed.

Lemma trimHead_spec s l e base n o : en_ack e = base ⊞ n -> contig base o (e_outstanding s) -> 0 <= o <= n ->
  n <= o + total (e_outstanding s) <= maxFlight ->
  match e_outstanding s with x :: _ => n < o + segLen x | [] => True end -> counts s = sackedCount (e_outstanding s) ->
  let s' := fst (trimHead epoch s l e) in
  contig base n (e_outstanding s') /\ n + total (e_outstanding s') = o + total (e_outstanding s) /\
  counts s' = sackedCount (e_outstanding s') /\
  (forall x, n <= x -> sackedAt n (e_outstanding s') x = sackedAt o (e_outstanding s) x) /\
  restView (s' <| e_outstanding := e_outstanding s |>) = restView s.
Proof.
  intros Ha Hc Ho Hn Hh Hk. unfold trimHead. destruct (e_outstanding s) as [|y rest] eqn:Eo.
  { cbn [fst]. cbn in Hn. assert (o = n) as -> by lia. cbv zeta. rewrite Eo. split_and!; try done. unfold restView. get_set. by rewrite Eo. }
  destruct Hc as (Hs & He & Hl & Hc). rewrite Ha, Hs. unfold tcpSequenceGreater.
  cbn [total foldr] in Hn. fold (total rest) in Hn. pose proof (total_nonneg rest).
  rewrite less_offsets by (unfold maxFlight in *; lia). destruct (Z.ltb_spec o n) as [Hlt|Hge].
  2: { cbn [fst]. assert (o = n) as -> by lia. cbv zeta. rewrite Eo. split_and!; try done. unfold restView. get_set. by rewrite Eo. }
  cbv zeta. cbn [fst]. get_set. replace (base ⊞ n ⊟ (base ⊞ o)) with (n - o) by (unfold maxFlight in *; word).
  destruct (deliverRange_view s e y (base ⊞ n) (n - o) 0) as [Hr1 Hc1].
  set (s1 := deliverRange epoch s e y (base ⊞ n) (n - o) 0) in *. clearbody s1.
  destruct (trim_head base o n y Hs He ltac:(lia) ltac:(lia)) as (T1 & T2 & T3 & T4). cbv zeta in T1, T2, T3, T4.
  set (z := trimAcknowledgedTCPSegment y (base ⊞ n)) in *. clearbody z.
  cbn [total foldr contig sackedAt sackedCount]. fold (total rest) (sackedCount rest). rewrite T1, T2, T3, T4.
  replace (n + (o + segLen y - n)) with (o + segLen y) by lia. split_and!; try done; [lia|lia| | |].
  - change (counts (s1 <| e_outstanding := z :: rest |>)) with (counts s1). rewrite Hc1. unfold uncounted, counts in *.
    cbn [sackedCount foldr] in Hk. fold (sackedCount rest) in Hk. pose proof (sackedCount_bounds rest).
    pose proof (segLen_range y). destruct (hasState y _); [|done]. injection Hk as -> ->. f_equal; [lia|].
    replace (segLen y + snd (sackedCount rest) - (n - o)) with (o + segLen y - n + snd (sackedCount rest)) by lia.
    apply u32_id. unfold is_u32, maxFlight in *. lia.
  - intros x Hx. by replace ((n <=? x) && (x <? o + segLen y)) with ((o <=? x) && (x <? o + segLen y)) by lia.
  - rewrite <- Hr1. injection Hr1 as E1 E2 E3 E4 E5 E6 E7 E8 E9. unfold restView. get_set. rewrite Eo in E3. by rewrite E3.
Qed.

(** The ranges behind a cumulative ACK: the invariant at the new SND.UNA, every
    mark above it where it was. *)
Record moved (n : Z) s s' : Prop := {
  mv_una : e_sendUnacknowledged s' = e_sendUnacknowledged s;
  mv_next : e_sendNext s' = e_sendNext s;
  mv_sack : e_peerSACK s' = e_peerSACK s;
  mv_path : e_pathMTUState s' = e_pathMTUState s;
  mv_marks : forall x, 0 <= x -> sackedAt 0 (e_outstanding s') x = sackedAt 0 (e_outstanding s) (x + n) }.

Lemma rest_ok base n s s' board : trailing base n s -> restView (s' <| e_outstanding := board |>) = restView (s <| e_outstanding := board |>) ->
  contig base n (e_outstanding s') -> n + total (e_outstanding s') = total (e_outstanding s) ->
  counts s' = sackedCount (e_outstanding s') ->
  (forall x, n <= x -> sackedAt n (e_outstanding s') x = sackedAt 0 (e_outstanding s) x) ->
  boardOk s' /\ moved n s s'.
Proof.
  intros [B1 B2 B3 B4 B5 B6 B7] Hr Hc Ht Hk Hx. unfold restView in Hr. revert Hr. get_set. intros [= E1 E2 E4 E5 E6 E7 E8 E9].
  split.
  - split; rewrite ?E1, ?E2, ?E5; try done.
    + rewrite B1. word.
    + rewrite B1. apply contig_rebase. by rewrite Z.add_0_l.
    + rewrite B3, B1, <- Ht. word.
    + lia.
    + unfold probeActive, ensurePathMTUState, sendMSSFor in *. by rewrite E6, E7, E8, E9.
  - split; [done..|]. intros x H0. rewrite <- (Hx (x + n)) by lia.
    symmetry. exact (sackedAt_rebase n 0 _ x).
Qed.

Lemma advanceScoreboard_spec s l e base n : trailing base n s -> en_ack e = base ⊞ n ->
  let s' := fst (advanceScoreboard epoch s l e) in boardOk s' /\ moved n s s'.
Proof.
  intros Hb Ha. destruct Hb as [B1 B2 B3 B4 B5 B6 B7] eqn:Eb. clear Eb.
  opens advanceScoreboard. pose proof (popAcknowledged_spec (tcpACKRTTAmbiguous (e_outstanding s) (en_ack e)) e base n 0
    (e_outstanding s) s l Ha B2 ltac:(lia) ltac:(lia) B5) as Hp.
  cbv zeta. destruct (popAcknowledged epoch _ e (e_outstanding s) s l) as [ [out s1] l1].
  destruct Hp as (o & P1 & P2 & P3 & P4 & P5 & P6 & P7). cbv zeta.
  match goal with |- context [trimHead _ ?t] => set (s2 := t) end.
  assert (counts s2 = sackedCount out /\ e_outstanding s2 = out /\ restView (s2 <| e_outstanding := e_outstanding s |>) = restView s) as (Q1 & Q2 & Q3).
  { assert (restView (s1 <| e_outstanding := e_outstanding s |>) = restView s) as Q.
    { injection P6 as E1 E2 E3 E4 E5 E6 E7 E8 E9. unfold restView. get_set. congruence. }
    subst s2. unfold noOutstanding. get_set. destruct (Z.eqb_spec (zlen out) 0) as [E0|_]; [|done].
    by rewrite (zlen_zero _ E0). }
  clearbody s2. clear P6 P5. subst out.
  pose proof (trimHead_spec s2 l1 e base n o Ha P1 ltac:(lia) ltac:(lia) P4 Q1) as Ht. cbv zeta in Ht.
  destruct (trimHead epoch s2 l1 e) as [s3 l3]. cbn [fst] in *. destruct Ht as (T1 & T2 & T3 & T4 & T5).
  apply (rest_ok base n s s3 (e_outstanding s)); [by split|..|done|lia|done|].
  - transitivity (restView (s2 <| e_outstanding := e_outstanding s |>)); [|by rewrite Q3; destruct s].
    injection T5 as E1 E2 E4 E5 E6 E7 E8 E9. unfold restView. get_set. congruence.
  - intros x Hx. by rewrite T4, P7.
Qed.

End Progress.

(** ** The stages of an advancing acknowledgement *)

Section Advance.

Context {A : Type} `{CongestionController A}.
Variable outside : float64 -> Z.
Variable epoch : Z.

Implicit Type s : tcpEstablishedState A.
Implicit Type env : transportEnv A.
Implicit Type e : ackEntry.
Implicit Type l : ackLocals.

Hint Extern 1 (keeps _ (withConn _ _)) => apply keeps_withConn; intros ?; reflexivity : frame.
Hint Resolve keeps_armPathMTUProbe keeps_armPathMTURetransmission keeps_clearMTUProbe keeps_deactivateUndo
  keeps_clearLimited keeps_clearSoftError keeps_tailProbeStage : frame.

(** A connection whose controller the configuration can build. *)
Definition factoryReady env : Prop :=
  ev_sameFactory env = true \/
  forall context, is_Some (newTCPCongestionControllerFromFactory (ev_registry env) (ev_factory env) context).

Lemma shape_clearDelivery x : shape (clearDeliveryRecord x) = shape x.
Proof. reflexivity. Qed.

Lemma change_keeps env s clock : factoryReady env ->
  exists s', changeCongestionController epoch s (ev_registry env) (ev_factory env) (ev_sameFactory env)
    (ev_maximumPacingRate env) clock = Some s' /\ keeps s s'.
Proof.
  intros Hf. opens changeCongestionController. cbv zeta. destruct (ev_sameFactory env) eqn:Es.
  - destruct (setMaximumPacingRate _ _ _) as [controller changed]. eexists. split; [reflexivity|]. frame.
  - destruct Hf as [Hf|Hf]; [congruence|].
    match goal with |- context [s <| e_controller := release ?c ?n ?w ?t ?f ?m ?r ?q |>] =>
      set (s0 := s <| e_controller := release c n w t f m r q |>); assert (keeps s s0) as H0 by (unfold s0; frame) end.
    clearbody s0. destruct (Hf (controllerContext (e_connection s0))) as [controller ->].
    cbn [mbind option_bind].
    pose proof (keeps_deactivateUndo s0) as Hu. unfold deactivateUndo in Hu.
    set (s1 := withUndo s0 (fun u => u <| un_active := false |>)) in *. clearbody s1.
    pose proof (keeps_outstanding s1 _ (shapes_map clearDeliveryRecord (e_outstanding s1) shape_clearDelivery)) as Hk.
    set (s2 := s1 <| e_outstanding := map clearDeliveryRecord (e_outstanding s1) |>) in *. clearbody s2.
    destruct (initialize _ _ _ _ _ _ _ _ _) as [controller' [window threshold] ]. eexists. split; [reflexivity|].
    transitivity s0; [exact H0|]. transitivity s1; [exact Hu|]. transitivity s2; [exact Hk|]. clear. frame.
Qed.

Lemma pl_reduce_idle mtu prior maximum now : pl_active (pl_reduce mtu prior maximum now) = false.
Proof. unfold pl_reduce, pl_start. by destruct (_ <? tcpPLPMTUProbeThreshold). Qed.

(** The sizes of a new MTU leave an idle search idle. *)
Lemma sizesForMTU_idle env s mtu : probeActive s = false ->
  boardSpace (sizesForMTU env s mtu) = boardSpace s /\ probeActive (sizesForMTU env s mtu) = false /\
  sendMSSFor (sizesForMTU env s mtu) mtu = sendMSSFor s mtu /\ e_peerMSS (sizesForMTU env s mtu) = e_peerMSS s.
Proof.
  intros Hp. opens sizesForMTU. cbv zeta. set (s1 := withConn s (fun c => c <| cn_mtu := mtu |>)).
  set (s2 := if mtu <? _ then _ else s1).
  assert (boardSpace s2 = boardSpace s1 /\ probeActive s2 = false /\ e_peerMSS s2 = e_peerMSS s1 /\
    e_connection s2 = e_connection s1) as (H1 & H2 & H3 & H4).
  { subst s2. destruct (mtu <? _); [|done]. split; [|split; [apply pl_reduce_idle|done] ].
    exact (f_equal (fun v => (fst v.1, (v.1.2.1.1.1.1, v.1.2.1.1.1.2, v.1.2.1.1.2))) (keeps_clearMTUProbe s1)). }
  clearbody s2. split; [exact H1|]. split; [exact H2|].
  unfold sendMSSFor. split; [|exact H3]. cbv zeta. get_set. by rewrite H4.
Qed.

Lemma keeps_notifyMTU env s : keeps s (notifyMTUChange env s).
Proof. opens notifyMTUChange. frame. Qed.

Lemma shrinkMSS_fields s mss :
  boardSpace (shrinkMSS s mss) = boardSpace s /\ probeActive (shrinkMSS s mss) = probeActive s /\ e_peerMSS (shrinkMSS s mss) = mss.
Proof. unfold shrinkMSS. by destruct (negb _). Qed.

(** Smaller segments: the windows are scaled and the ranges cut again. *)
Lemma adoptMSS_settles env s mss retransmit : boardOk s -> probeActive s = false -> 0 < mss ->
  settles s (adoptMSS env s mss retransmit).
Proof.
  intros Hb Hp Hm. unfold adoptMSS. destruct (mss =? e_peerMSS s); [by exists s|]. destruct (e_peerMSS s <? mss).
  - set (s4 := s <| e_peerMSS := mss |>). assert (0 < e_peerMSS s4) as Hm4 by (subst s4; get_set; exact Hm).
    destruct (idle_ok s s4 eq_refl Hp Hm4 Hb) as [Hb4 Hs4]. clearbody s4.
    pose proof (keeps_notifyMTU env s4) as Hk. eexists. split; [reflexivity|]. split; [exact (keeps_ok _ _ Hk Hb4)|].
    transitivity s4; [done|by apply keeps_space].
  - destruct (shrinkMSS_fields s mss) as (Z1 & Z2 & Z3). set (s4 := shrinkMSS s mss) in *. clearbody s4.
    destruct (idle_ok s s4 Z1 ltac:(by rewrite Z2) ltac:(by rewrite Z3) Hb) as [Hb4 Hs4].
    pose proof (keeps_notifyMTU env s4) as Hk. set (s5 := notifyMTUChange env s4) in *. clearbody s5.
    pose proof (keeps_ok _ _ Hk Hb4) as Hb5. destruct (resegment_settles _ Hb5) as (s6 & -> & Hb6 & Hs6).
    cbn [mbind option_bind]. eexists. split; [reflexivity|].
    assert (sameSpace s s6) as Hs by (transitivity s4; [done|]; transitivity s5; [by apply keeps_space|done]).
    destruct retransmit; [|by split]. pose proof (keeps_armPathMTURetransmission s6 (ev_clock env)) as Hk6.
    split; [exact (keeps_ok _ _ Hk6 Hb6)|]. transitivity s6; [done|by apply keeps_space].
Qed.

Lemma keeps_probe s s' mtu : keeps s s' -> probeActive s' = probeActive s /\ sendMSSFor s' mtu = sendMSSFor s mtu.
Proof.
  intros [= E1 E2 E3 E4 E5 E6 E7 E8 E9 E10 E11]. unfold probeActive, sendMSSFor. by rewrite E8, E9, E10, E11.
Qed.

Lemma applyPathMTU_settles env s mtu retransmit : factoryReady env -> boardOk s -> probeActive s = false ->
  0 < sendMSSFor s mtu -> settles s (applyPathMTU epoch env s mtu retransmit).
Proof.
  intros Hf Hb Hp Hm. opens applyPathMTU. destruct (change_keeps env s (ev_clock env) Hf) as (s1 & -> & Hk1).
  cbn [mbind option_bind]. destruct (keeps_probe s s1 mtu Hk1) as [Hp1 Hm1]. rewrite Hp in Hp1.
  pose proof (keeps_ok _ _ Hk1 Hb) as Hb1. apply (settles_from _ s1); [done|].
  destruct (sizesForMTU_idle env s1 mtu Hp1) as (Z1 & Z2 & Z3 & Z4).
  destruct (idle_ok s1 _ Z1 Z2 ltac:(rewrite Z4; exact (bo_mss _ Hb1)) Hb1) as [Hb2 Hs2].
  rewrite <- Hm1, <- Z3 in Hm. set (s2 := sizesForMTU env s1 mtu) in *. clearbody s2.
  pose proof (keeps_armPathMTUProbe s2 (ev_routeExpiry env) (ev_clock env)) as Hk3.
  destruct (keeps_probe s2 _ mtu Hk3) as [Hp3 Hm3]. rewrite Z2 in Hp3. rewrite <- Hm3 in Hm.
  set (s3 := armPathMTUProbe s2 (ev_routeExpiry env) (ev_clock env)) in *. clearbody s3. cbv zeta.
  destruct (adoptMSS_settles env s3 _ retransmit (keeps_ok _ _ Hk3 Hb2) Hp3 Hm) as (s4 & E & Hb4 & Hs4).
  exists s4. split; [exact E|]. split; [done|]. transitivity s2; [done|]. transitivity s3; [by apply keeps_space|done].
Qed.

(** A delivered probe. *)
Lemma probeDelivered_settles env s l e : factoryReady env -> boardOk s -> probeActive s = true ->
  settlesWith s (probeDelivered epoch env s l e).
Proof.
  intros Hf Hb Hp. opens probeDelivered. pose proof (bo_probe _ Hb Hp) as Hm. unfold pl_success. cbv zeta.
  match goal with |- context [applyPathMTU _ _ ?t _ _] => set (s1 := t) end.
  assert (boardSpace s1 = boardSpace s /\ probeActive s1 = false /\ e_peerMSS s1 = e_peerMSS s /\
    forall m, sendMSSFor s1 m = sendMSSFor s m) as (Z1 & Z2 & Z3 & Z4) by done.
  clearbody s1. destruct (idle_ok s s1 Z1 Z2 ltac:(rewrite Z3; exact (bo_mss _ Hb)) Hb) as [Hb1 Hs1].
  set (mtu := pl_probeMTU _) in *.
  destruct (applyPathMTU_settles env s1 mtu false Hf Hb1 Z2 ltac:(rewrite Z4; exact Hm)) as (s2 & -> & Hb2 & Hs2).
  eexists _, _. split; [reflexivity|]. split; [done|by transitivity s1].
Qed.

Lemma findIndex_lt {B} (f : B -> bool) board : findIndex f board < zlen board.
Proof.
  induction board as [|x board IH]; [done|]. cbn [findIndex]. cbv zeta. rewrite zlen_cons. pose proof (zlen_nonneg board).
  destruct (f x); [lia|]. destruct (_ <? 0); lia.
Qed.

Lemma findIndex_idx {B} (f : B -> bool) board : 0 <= findIndex f board -> exists x, idx board (findIndex f board) = Some x.
Proof. intros H0. apply idx_some. split; [done|apply findIndex_lt]. Qed.

Lemma firstUnsacked_idx board : 0 <= firstUnsackedSegment board -> exists x, idx board (firstUnsackedSegment board) = Some x.
Proof.
  unfold firstUnsackedSegment. cbv zeta. destruct (Z.leb_spec 0 (findIndex (fun x => negb (hasState x sentTCPSegmentSACKed)) board)) as [Hi|_].
  - intros _. by apply findIndex_idx.
  - destruct (Z.eqb_spec (zlen board) 0); cbn [negb]; [done|]. intros _. apply idx_some. pose proof (zlen_nonneg board). lia.
Qed.

Lemma keeps_setAt s i x flag : idx (e_outstanding s) i = Some x -> isFlag flag -> flag <> sentTCPSegmentSACKed ->
  keeps s (s <| e_outstanding := <[Z.to_nat i := setState x flag false]> (e_outstanding s) |>).
Proof. intros Hx Hf Hne. apply keeps_outstanding. apply (shapes_insert _ _ _ x Hx). by apply shape_set. Qed.

Lemma newReno_settles env s e acknowledged : boardOk s -> settles s (newRenoPartialACK env s e acknowledged).
Proof.
  intros Hb. opens newRenoPartialACK. destruct (partialACKWindow _ _ _ _ _ _) as [controller window]. cbv zeta.
  set (s1 := s <| e_controller := controller |> <| e_congestionWindow := window |>).
  assert (keeps s s1) as Hk by (subst s1; frame). clearbody s1. pose proof (keeps_ok _ _ Hk Hb) as Hb1.
  apply (settles_from _ s1); [done|]. destruct (Z.leb_spec 0 (firstUnsackedSegment (e_outstanding s1))) as [Hi|_].
  - destruct (firstUnsacked_idx _ Hi) as (x & Ex). rewrite Ex. cbn [mbind option_bind].
    pose proof (keeps_setAt s1 _ x sentTCPSegmentSACKRetried Ex ltac:(flag) ltac:(done)) as Hk2.
    apply (settles_from _ _ _ Hk2). apply enterRecovery_settles. exact (keeps_ok _ _ Hk2 Hb1).
  - cbn [mbind option_bind]. by apply enterRecovery_settles.
Qed.

Lemma windowStage_settles env s l e acknowledged : boardOk s -> settles s (windowStage env s l e acknowledged).
Proof.
  intros Hb. unfold windowStage. destruct (e_fastRecovery s).
  - destruct (tcpSequenceGreaterEqual _ _); [apply settles_some; [done|apply keeps_finishRecovery]|].
    destruct (negb _); [by apply newReno_settles|by apply settles_some].
  - destruct (_ && _); [apply settles_some; [done|apply keeps_growWindow]|by apply settles_some].
Qed.

Lemma acceptProgress_trailing s e n : boardOk s -> en_ack e = e_sendUnacknowledged s ⊞ n ->
  0 <= n <= total (e_outstanding s) ->
  trailing (e_sendUnacknowledged s) n (acceptProgress s e) /\
  e_outstanding (acceptProgress s e) = e_outstanding s /\ e_sendNext (acceptProgress s e) = e_sendNext s /\
  e_peerSACK (acceptProgress s e) = e_peerSACK s /\ e_pathMTUState (acceptProgress s e) = e_pathMTUState s.
Proof.
  intros [B1 B2 B3 B4 B5 B6 B7] Ha Hn. split; [|done].
  assert (forall c size, (cn_peerMSS (acknowledgeSend c size), cn_local (acknowledgeSend c size), cn_peerTimestamp (acknowledgeSend c size))
    = (cn_peerMSS c, cn_local c, cn_peerTimestamp c)) as Hc.
  { intros c size. unfold acknowledgeSend. destruct (size <=? 0); [done|]. cbv zeta. by destruct (negb _). }
  split; [exact Ha|exact B2|exact B3|exact (conj Hn B4)|exact B5|exact B6|].
  intros Hp. specialize (B7 Hp). set (d := en_ack e ⊟ e_sendUnacknowledged s).
  assert (exists r, e_connection (acceptProgress s e) = acknowledgeSend (e_connection s) d <| cn_icmpRange := r |>)
    as (r & Er) by (eexists; reflexivity).
  specialize (Hc (e_connection s) d). unfold sendMSSFor. cbv zeta. rewrite Er. get_set. injection Hc as -> -> ->. exact B7.
Qed.

(** An acknowledgement of [n] bytes of the sequence space. *)
Record acked (n : Z) s s' : Prop := {
  ak_una : e_sendUnacknowledged s' = e_sendUnacknowledged s ⊞ n;
  ak_next : e_sendNext s' = e_sendNext s;
  ak_sack : e_peerSACK s' = e_peerSACK s;
  ak_marks : forall x, 0 <= x -> sackedAt 0 (e_outstanding s') x = sackedAt 0 (e_outstanding s) (x + n) }.

Lemma acked_space n s s1 s2 : acked n s s1 -> sameSpace s1 s2 -> acked n s s2.
Proof.
  intros [A1 A2 A3 A4] [B1 B2 B3 B4]. split; [congruence..|]. intros x Hx. by rewrite B4, A4.
Qed.

Lemma acked_zero s s' : boardOk s -> sameSpace s s' -> acked 0 s s'.
Proof.
  intros Hb [B1 B2 B3 B4]. split; [|done..|].
  - rewrite B1, Z.add_0_r. symmetry. apply u32_id, Hb.
  - intros x Hx. by rewrite B4, Z.add_0_r.
Qed.

(** SND.UNA, the timers, the samples and the ranges behind the ACK. *)
Lemma cumulative_step s l e n : boardOk s -> en_ack e = e_sendUnacknowledged s ⊞ n -> 0 <= n <= total (e_outstanding s) ->
  forall s2 l2 s4 l4 s5 l5,
  timeoutProgress (acceptProgress s e) l e = (s2, l2) ->
  timestampSample epoch (clearSoftError (s2 <| e_blackHoleRTOs := 0 |>)) l2 e = (s4, l4) ->
  advanceScoreboard epoch s4 l4 e = (s5, l5) ->
  boardOk s5 /\ acked n s s5 /\ e_pathMTUState s5 = e_pathMTUState s.
Proof.
  intros Hb Ha Hn s2 l2 s4 l4 s5 l5 E2 E4 E5. destruct (acceptProgress_trailing s e n Hb Ha Hn) as (T1 & T2 & T3 & T4 & T5).
  set (s1 := acceptProgress s e) in *. clearbody s1.
  pose proof (keeps_timeoutProgress s1 l e) as Hk2. rewrite E2 in Hk2. cbn [fst] in Hk2.
  pose proof (keeps_timestampSample epoch (clearSoftError (s2 <| e_blackHoleRTOs := 0 |>)) l2 e) as Hk4.
  rewrite E4 in Hk4. cbn [fst] in Hk4.
  assert (keeps s2 (clearSoftError (s2 <| e_blackHoleRTOs := 0 |>))) as Hk3 by (clear; frame).
  pose proof (transitivity (R := keeps) Hk2 (transitivity (R := keeps) Hk3 Hk4)) as Hk. clear Hk2 Hk3 Hk4 E2 E4.
  destruct (advanceScoreboard_spec epoch s4 l4 e _ n (keeps_trailing _ _ _ _ Hk T1) Ha) as [Hb5 Hm]. rewrite E5 in Hb5, Hm.
  cbn [fst] in *. destruct Hm as [M1 M2 M3 M4 M5]. pose proof (tr_una _ _ _ T1) as Hu.
  destruct (keeps_space _ _ Hk) as [S1 S2 S3 S4]. split; [exact Hb5|]. split.
  - split; [congruence..|]. intros x Hx. by rewrite M5, S4, T2.
  - injection Hk as K1 K2 K3 K4 K5 K6 K7 K8 K9 K10 K11. congruence.
Qed.

Lemma advanceStage_spec env s l e n : factoryReady env -> boardOk s ->
  en_ack e = e_sendUnacknowledged s ⊞ n -> 0 <= n <= total (e_outstanding s) ->
  exists s' l', advanceStage outside epoch env s l e = Some (s', l') /\ boardOk s' /\ acked n s s'.
Proof.
  intros Hf Hb Ha Hn. opens advanceStage. cbv zeta.
  match goal with |- context [timeoutProgress _ ?t e] => generalize t; intros l1 end.
  destruct (timeoutProgress (acceptProgress s e) l1 e) as [s2 l2] eqn:E2.
  destruct (timestampSample epoch (clearSoftError (s2 <| e_blackHoleRTOs := 0 |>)) l2 e) as [s4 l4] eqn:E4.
  destruct (advanceScoreboard epoch s4 l4 e) as [s5 l5] eqn:E5.
  destruct (cumulative_step s l1 e n Hb Ha Hn _ _ _ _ _ _ E2 E4 E5) as (Hb5 & Hk5 & Hp5). clear E2 E4 E5 s2 l2 s4 l4 l1.
  assert (settlesWith s5 (if probeSucceeded s e then probeDelivered epoch env s5 l5 e else Some (s5, l5))) as (s6 & l6 & -> & Hb6 & Hs6).
  { destruct (probeSucceeded s e) eqn:Ep; [|by exists s5, l5]. apply probeDelivered_settles; [done..|].
    unfold probeSucceeded in Ep. apply andb_true_iff in Ep as [Ep _]. unfold probeActive in *. by rewrite Hp5. }
  cbn [mbind option_bind].
  match goal with |- context [windowStage env ?t l6 e _] => set (s7 := t) end.
  assert (keeps s6 s7) as Hk7 by (subst s7; clear; frame). clearbody s7. pose proof (keeps_ok _ _ Hk7 Hb6) as Hb7.
  match goal with |- context [windowStage env s7 l6 e ?m] => destruct (windowStage_settles env s7 l6 e m Hb7) as (s8 & -> & Hb8 & Hs8) end.
  cbn [mbind option_bind]. pose proof (keeps_tuneSendBuffer outside s8 e) as Hk9.
  eexists _, _. split; [reflexivity|]. split; [exact (keeps_ok _ _ Hk9 Hb8)|]. apply (acked_space n s s5); [exact Hk5|].
  transitivity s6; [done|]. transitivity s7; [by apply keeps_space|]. transitivity s8; [done|by apply keeps_space].
Qed.

Lemma progressStage_spec env s l e n : factoryReady env -> boardOk s ->
  (en_ackAdvanced e = true -> en_ack e = e_sendUnacknowledged s ⊞ n /\ 0 <= n <= total (e_outstanding s)) ->
  exists s' l', progressStage outside epoch env s l e = Some (s', l') /\ boardOk s' /\
    if en_ackAdvanced e then acked n s s' else sameSpace s s'.
Proof.
  intros Hf Hb Ha. unfold progressStage. destruct (en_ackAdvanced e).
  - destruct (Ha eq_refl) as [Ha1 Hn]. by apply advanceStage_spec.
  - exists (if negb (en_oldACK e) then currentStage s else s), l. split; [done|].
    assert (keeps s (if negb (en_oldACK e) then currentStage s else s)) as Hk by (destruct (negb _); [apply keeps_currentStage|done]).
    split; [exact (keeps_ok _ _ Hk Hb)|by apply keeps_space].
Qed.

End Advance.

(** ** Selective acknowledgement and the response to it *)

Section Evidence.

Context {A : Type} `{CongestionController A}.
Variable outside : float64 -> Z.
Variable epoch : Z.

Implicit Type s : tcpEstablishedState A.
Implicit Type env : transportEnv A.
Implicit Type e : ackEntry.
Implicit Type l : ackLocals.

Hint Resolve keeps_takeSample keeps_rackStage : frame.

Lemma dsackStage_settles s l e : boardOk s -> bytes_ok (sg_options (en_segment e)) -> settlesWith s (dsackStage s l e).
Proof.
  intros Hb Ho. opens dsackStage.
  assert (exists dsack, dsackOf s e = Some dsack) as [dsack ->].
  { unfold dsackOf. destruct (e_peerSACK s); [|by eexists]. cbv zeta.
    match goal with |- context [parseTCPDSACKOption ?o ?a ?n ?h] => destruct (parseTCPDSACKOption_ok o a n h Ho) as (v & E & _) end.
    by exists v. }
  cbn [mbind option_bind]. cbv zeta.
  match goal with |- context [eifelStage s e ?b] => pose proof (keeps_eifelStage s e b) as Hk1; destruct (eifelStage s e b) as [s1 spurious] end.
  cbn [fst] in Hk1.
  match goal with |- context [match ?p with (_, _) => _ end] =>
    assert (keeps s1 (fst p)) as Hk2; [|destruct p as [s2 spurious2] ] end.
  { destruct dsack as [block|]; [|done]. pose proof (keeps_correlateDSACK s1 e block spurious) as Hk.
    destruct (correlateDSACK s1 e block spurious) as [s2 spurious2]. cbn [fst] in *.
    etransitivity; [exact Hk|apply keeps_observeDuplicate]. }
  cbn [fst] in Hk2. match goal with |- context [undoStage s2 ?t e] => set (l2 := t); clearbody l2 end.
  pose proof (transitivity (R := keeps) (keeps_undoStage s2 l2 e) (keeps_eifelRTOStage (undoStage s2 l2 e) l2 e)) as Hk3.
  set (s3 := eifelRTOStage (undoStage s2 l2 e) l2 e) in *. clearbody s3.
  pose proof (transitivity (R := keeps) Hk1 (transitivity (R := keeps) Hk2 Hk3)) as Hk.
  eexists _, _. split; [reflexivity|]. split; [exact (keeps_ok _ _ Hk Hb)|by apply keeps_space].
Qed.

(** The bytes the ACK reports as received, from SND.UNA. *)
Definition reportsAt s (segment : tcpSegment) (x : Z) : Prop :=
  e_peerSACK s = true /\ exists blocks,
    parseTCPSACKOptions (sg_options segment) (e_sendUnacknowledged s) (e_sendNext s) = Some blocks /\
    sackCovers (e_sendUnacknowledged s) blocks x.

(** Marks are only gained, and only reported ones. *)
Record marked (segment : tcpSegment) s s' : Prop := {
  mk_una : e_sendUnacknowledged s' = e_sendUnacknowledged s;
  mk_next : e_sendNext s' = e_sendNext s;
  mk_sack : e_peerSACK s' = e_peerSACK s;
  mk_kept : forall x, sackedAt 0 (e_outstanding s) x = true -> sackedAt 0 (e_outstanding s') x = true;
  mk_gained : forall x, sackedAt 0 (e_outstanding s') x = true ->
    sackedAt 0 (e_outstanding s) x = true \/ reportsAt s segment x }.

Lemma marked_space segment s s' : sameSpace s s' -> marked segment s s'.
Proof. intros [S1 S2 S3 S4]. split; [done..| |]; intros x; rewrite S4; auto. Qed.

Lemma marked_then segment s s1 s2 : marked segment s s1 -> sameSpace s1 s2 -> marked segment s s2.
Proof. intros [M1 M2 M3 M4 M5] [S1 S2 S3 S4]. split; [congruence..| |]; intros x; rewrite S4; auto. Qed.

Lemma then_marked segment s s1 s2 : sameSpace s s1 -> marked segment s1 s2 -> marked segment s s2.
Proof.
  intros [S1 S2 S3 S4] [M1 M2 M3 M4 M5]. split; [congruence..| |]; intros x; rewrite <- S4; auto.
  intros [|Hr]%M5; [by left|right]. unfold reportsAt in *. by rewrite S1, S2, S3 in Hr.
Qed.

(** The scoreboard after the blocks. *)
Lemma applySACK_ok s blocks : boardOk s ->
  Forall (inWindow (e_sendUnacknowledged s) (e_sendNext s ⊟ e_sendUnacknowledged s)) blocks ->
  let r := applyTCPSACK (e_outstanding s) blocks epoch in
  let s1 := s <| e_outstanding := sr_outstanding (fst r) |> in
  let s2 := if snd r then recountSACK s1 else s1 in
  boardOk s2 /\ e_sendUnacknowledged s2 = e_sendUnacknowledged s /\ e_sendNext s2 = e_sendNext s /\
  e_peerSACK s2 = e_peerSACK s /\
  (forall x, sackedAt 0 (e_outstanding s) x = true -> sackedAt 0 (e_outstanding s2) x = true) /\
  (forall x, sackedAt 0 (e_outstanding s2) x = true ->
    sackedAt 0 (e_outstanding s) x = true \/ sackCovers (e_sendUnacknowledged s) blocks x).
Proof.
  intros [B1 B2 B3 B4 B5 B6 B7] Hw. set (una := e_sendUnacknowledged s) in *. set (w := e_sendNext s ⊟ una) in *.
  assert (w = total (e_outstanding s)) as Ew.
  { subst w. rewrite B3. pose proof (total_nonneg (e_outstanding s)). unfold maxFlight in *. word. }
  pose proof (fold_applyBlock_spec una epoch (map (interval una) blocks) (total (e_outstanding s))
    (mkSackResult (e_outstanding s) 0 false zeroRack []) true B2 eq_refl B4
    (interval_inStream una w ltac:(pose proof (total_nonneg (e_outstanding s)); unfold maxFlight in *; lia) blocks _ Hw Ew))
    as (S1 & S2 & S3 & S4 & _).
  rewrite (blockAt_intervals una w) in S1, S2, S3, S4 by done. cbv zeta. unfold applyTCPSACK. cbn [fst snd].
  set (out := sr_outstanding _) in *. cbn [sr_outstanding] in S2, S3, S4.
  assert (forall x, sackedAt 0 out x = true -> sackedAt 0 (e_outstanding s) x = true \/ sackCovers una blocks x) as S5.
  { intros x Hx. destruct (S4 x Hx) as [|Hr]; [by left|right]. by apply Exists_map in Hr. }
  destruct (Z.eqb_spec (zlen blocks) 0) as [Ez|_]; cbn [negb].
  - apply zlen_zero in Ez. assert (out = e_outstanding s) as -> by (subst out; by rewrite Ez).
    split; [|done]. split; [exact B1|exact B2|exact B3|exact B4|exact B5|exact B6|exact B7].
  - clearbody out. unfold recountSACK. get_set. rewrite tcpSACKedState_count by lia.
    destruct (sackedCount out) as [ranges bytes] eqn:Ec. split; [|done].
    split; [exact B1|exact S1|get_set; by rewrite S2|get_set; by rewrite S2|get_set; by rewrite Ec|exact B6|exact B7].
Qed.

Lemma sackStage_spec s l e : boardOk s -> bytes_ok (sg_options (en_segment e)) ->
  exists s' l', sackStage epoch s l e = Some (s', l') /\ boardOk s' /\ marked (en_segment e) s s'.
Proof.
  intros Hb Ho. opens sackStage. destruct (negb (e_peerSACK s) || noOutstanding s) eqn:En.
  { exists s, l. split; [done|]. split; [done|]. by apply marked_space. }
  apply orb_false_iff in En as [En _]. apply negb_false_iff in En.
  assert (e_sendNext s ⊟ e_sendUnacknowledged s < 2147483648) as Hw.
  { rewrite (bo_next _ Hb). pose proof (bo_flight _ Hb). pose proof (total_nonneg (e_outstanding s)). unfold maxFlight in *. word. }
  destruct (sack_parse_normalized _ _ _ Ho (bo_una _ Hb) Hw) as (blocks & Ep & Hwin & _). rewrite Ep. cbn [mbind option_bind].
  destruct (applySACK_ok s blocks Hb Hwin) as (Hb2 & U2 & N2 & P2 & K2 & G2). cbv zeta in Hb2, U2, N2, P2, K2, G2.
  destruct (applyTCPSACK (e_outstanding s) blocks epoch) as [r hasSACK]. cbn [fst snd] in *. cbv zeta.
  set (s2 := if hasSACK then _ else _) in *. clearbody s2.
  match goal with |- context [foldl ?f (s2, ?t, 0) ?segments] =>
    pose proof (keeps_newlySACKed epoch e segments s2 t 0) as Hk3; destruct (foldl f (s2, t, 0) segments) as [ [s3 l3] earliest] end.
  cbn [fst] in Hk3.
  match goal with |- context [match ?p with (_, _) => _ end] => assert (keeps s3 (fst p)) as Hk4; [|destruct p as [s4 l4] ] end.
  { destruct (_ && _); [apply keeps_takeSample|done]. }
  cbn [fst] in Hk4. match goal with |- context [rackStage epoch ?t l4 e] => set (s5 := t) end.
  assert (keeps s4 s5) as Hk5 by (subst s5; clear; frame). clearbody s5.
  pose proof (keeps_rackStage epoch s5 l4 e) as Hk6. eexists _, _. split; [reflexivity|].
  assert (keeps s2 (rackStage epoch s5 l4 e)) as Hk
    by exact (transitivity (R := keeps) Hk3 (transitivity (R := keeps) Hk4 (transitivity (R := keeps) Hk5 Hk6))).
  split; [exact (keeps_ok _ _ Hk Hb2)|]. apply (marked_then _ _ s2); [|by apply keeps_space].
  split; [done..|]. intros x Hx. destruct (G2 x Hx) as [|Hr]; [by left|right]. split; [done|]. by exists blocks.
Qed.

Hint Resolve keeps_prrStage keeps_tailProbeEvidence keeps_armSACKReneging keeps_recordProven keeps_stopTailProbe : frame.

Lemma probeFailureStage_settles env s l : boardOk s -> settlesWith s (probeFailureStage env s l).
Proof.
  intros Hb. opens probeFailureStage. cbv zeta. destruct (_ && _); [|by exists s, l].
  destruct (failPLPMTUProbe_settles env s Hb) as (s1 & confirmed & -> & Hb1 & Hs1). cbn [mbind option_bind].
  eexists _, _. split; [reflexivity|]. by split.
Qed.

Lemma evidenceStage_spec env s l e : boardOk s -> bytes_ok (sg_options (en_segment e)) ->
  exists s' l', evidenceStage epoch env s l e = Some (s', l') /\ boardOk s' /\ marked (en_segment e) s s'.
Proof.
  intros Hb Ho. opens evidenceStage. cbv zeta.
  destruct (sackStage_spec s l e Hb Ho) as (s1 & l1 & -> & Hb1 & Hm1). cbn [mbind option_bind].
  match goal with |- context [prrStage s1 l1 e ?b] => pose proof (keeps_prrStage s1 l1 e b) as Hk2; set (s2 := prrStage s1 l1 e b) in * end.
  clearbody s2. pose proof (keeps_ok _ _ Hk2 Hb1) as Hb2.
  destruct (probeFailureStage_settles env s2 l1 Hb2) as (s3 & l3 & -> & Hb3 & Hs3). cbn [mbind option_bind].
  match goal with |- exists s' l', Some (?t, l3) = _ /\ _ => assert (keeps s3 t) as Hk4 by (clear; frame); exists t, l3 end.
  split; [done|]. split; [exact (keeps_ok _ _ Hk4 Hb3)|]. apply (marked_then _ _ s1); [done|].
  transitivity s2; [by apply keeps_space|]. transitivity s3; [done|by apply keeps_space].
Qed.

Lemma partialTimeout_settles s l e : boardOk s -> settles s (partialTimeoutStage s l e).
Proof.
  intros Hb. opens partialTimeoutStage. destruct (_ && _); [|by apply settles_some]. cbv zeta.
  set (index := if e_peerSACK s then firstRACKLoss _ else firstUnsackedSegment _).
  assert (0 <= index -> exists x, idx (e_outstanding s) index = Some x) as Hi.
  { subst index. destruct (e_peerSACK s); [apply findIndex_idx|apply firstUnsacked_idx]. }
  clearbody index. destruct (Z.leb_spec 0 index) as [H0|_]; [|by apply settles_some].
  destruct (Hi H0) as (x & Ex). rewrite Ex. cbn [mbind option_bind].
  match goal with |- context [<[_ := ?t]> _] => set (y := t) end.
  assert (shape y = shape x) as Hy by (subst y; destruct (negb _); [apply shape_set; [flag|done]|done]). clearbody y.
  pose proof (keeps_outstanding s _ (shapes_insert _ _ y x Ex Hy)) as Hk1. set (s1 := s <| e_outstanding := _ |>) in *.
  assert (0 <= index < zlen (e_outstanding s1)) as Hi1.
  { pose proof (idx_range _ _ _ Ex). subst s1. get_set. unfold zlen in *. by rewrite length_insert. }
  clearbody s1. destruct (keeps_noteSegmentLoss s1 index true (en_deliveryACK e) true (en_receivedAt e) ordinaryFlight Hi1) as (s2 & -> & Hk2).
  cbn [mbind option_bind]. apply settles_some; [done|].
  exact (transitivity (R := keeps) Hk1 (transitivity (R := keeps) Hk2 (keeps_stopTailProbe s2))).
Qed.

Lemma rackRecovery_settles env s l e : boardOk s -> settles s (rackRecoveryStage env s l e).
Proof.
  intros Hb. opens rackRecoveryStage. destruct (_ && _); [|by apply settles_some].
  apply settles_bind; [by apply enterRecovery_settles|]. intros s1 Hb1 _. apply settles_some; [done|]. frame.
Qed.

Lemma duplicateStage_settles env s l e evidence : boardOk s -> settles s (duplicateStage env s l e evidence).
Proof.
  intros Hb. opens duplicateStage. cbv zeta.
  match goal with |- context [if ?b then _ else Some s] => destruct b end; [|by apply settles_some].
  set (s1 := s <| e_duplicateACKs := _ |>). assert (keeps s s1) as Hk by (subst s1; frame). clearbody s1.
  pose proof (keeps_ok _ _ Hk Hb) as Hb1. apply (settles_from _ s1); [done|].
  destruct (_ && _); [by apply settles_some|]. destruct (_ =? _); [by apply enterRecovery_settles|].
  destruct (_ && _); [|by apply settles_some]. destruct (duplicateACKWindow _ _ _ _ _) as [controller window].
  apply settles_some; [done|]. frame.
Qed.

Lemma responseStage_settles env s l e : boardOk s -> settlesWith s (responseStage env s l e).
Proof.
  intros Hb. opens responseStage. cbv zeta.
  match goal with |- context [frtoStage s l e ?d] => generalize d; intros evidence end.
  pose proof (keeps_frtoStage s l e evidence) as Hk1. destruct (frtoStage s l e evidence) as [s1 l1]. cbn [fst] in Hk1.
  destruct (partialTimeout_settles s1 l1 e (keeps_ok _ _ Hk1 Hb)) as (s2 & -> & Hb2 & Hs2). cbn [mbind option_bind].
  destruct (rackRecovery_settles env s2 l1 e Hb2) as (s3 & -> & Hb3 & Hs3). cbn [mbind option_bind].
  destruct (duplicateStage_settles env s3 l1 e evidence Hb3) as (s4 & -> & Hb4 & Hs4). cbn [mbind option_bind].
  eexists _, _. split; [reflexivity|]. split; [done|]. transitivity s1; [by apply keeps_space|].
  transitivity s2; [done|]. by transitivity s3.
Qed.

End Evidence.

(** ** The whole acknowledgement *)

(** A flight of three segments of which the first is lost no more. *)
Definition sampleFlightState : option (tcpEstablishedState Reno.renoCongestionControl) :=
  s ← sampleEstablished sampleConn;
  Some (s <| e_sendNext := 4000 |>
          <| e_outstanding := [sampleRange 1000 2000 TCPFlagACK; sampleRange 2000 3000 TCPFlagACK;
                               sampleRange 3000 4000 TCPFlagACK] |>).

(** It acknowledges the first segment and reports the third. *)
Definition sampleReport : tcpSegment :=
  mkSegment 5000 2000 TCPFlagACK 65535 0 [1; 1; 5; 10; 0; 0; 11; 184; 0; 0; 15; 160] [] 0 0.

Definition sampleEnv : transportEnv Reno.renoCongestionControl :=
  mkEnv (2 * second) None 1500 ∅ (Some renoDefinition) true 0.

Section Acknowledgement.

Context {A : Type} `{CongestionController A}.
Variable outside : float64 -> Z.
Variable epoch : Z.

Implicit Type s : tcpEstablishedState A.

(** SND.UNA after the ACK. *)
Definition acknowledgedTo s (segment : tcpSegment) : Z :=
  let ack := sg_acknowledgement segment in
  if tcpSequenceGreater ack (e_sendUnacknowledged s) then ack else e_sendUnacknowledged s.

Lemma admitted_offset s ack : boardOk s -> is_u32 ack -> tcpSequenceLessEqual ack (e_sendNext s) = true ->
  tcpSequenceGreater ack (e_sendUnacknowledged s) = true ->
  let n := ack ⊟ e_sendUnacknowledged s in
  ack = e_sendUnacknowledged s ⊞ n /\ 0 <= n <= total (e_outstanding s).
Proof.
  intros Hb Ha Hle Hgt. cbv zeta. pose proof (bo_flight _ Hb). pose proof (bo_una _ Hb). pose proof (total_nonneg (e_outstanding s)).
  assert (ack = e_sendUnacknowledged s ⊞ (ack ⊟ e_sendUnacknowledged s)) as Ea by (unfold is_u32 in *; word).
  split; [exact Ea|]. split; [apply u32_range|]. unfold tcpSequenceLessEqual, tcpSequenceGreater in *.
  set (n := ack ⊟ e_sendUnacknowledged s) in *. rewrite (bo_next _ Hb), Ea in Hle. rewrite Ea in Hgt.
  assert (0 <= n < 4294967296) by apply u32_range. clearbody n. unfold maxFlight in *.
  rewrite less_dist in Hle, Hgt. word.
Qed.

Lemma space_acked n s s1 s2 : acked n s1 s2 -> sameSpace s s1 -> acked n s s2.
Proof.
  intros [A1 A2 A3 A4] [B1 B2 B3 B4]. split; [congruence..|]. intros x Hx. by rewrite A4, B4.
Qed.

(** The ACK moves the marks, the evidence adds to them. *)
Lemma acknowledged_marks s s1 s2 una segment : boardOk s -> is_u32 una -> acked (una ⊟ e_sendUnacknowledged s) s s1 ->
  marked segment s1 s2 ->
  e_sendNext s2 = e_sendNext s /\ e_sendUnacknowledged s2 = una /\
  forall x, 0 <= x ->
    (sackedAt 0 (e_outstanding s) (x + (una ⊟ e_sendUnacknowledged s)) = true -> sackedAt 0 (e_outstanding s2) x = true) /\
    (sackedAt 0 (e_outstanding s2) x = true ->
       sackedAt 0 (e_outstanding s) (x + (una ⊟ e_sendUnacknowledged s)) = true \/ reportsAt s2 segment x).
Proof.
  intros Hb Hu [A1 A2 A3 A4] [M1 M2 M3 M4 M5]. pose proof (bo_una _ Hb) as Hs. split; [congruence|]. split.
  - rewrite M1, A1. unfold is_u32 in *. word.
  - intros x Hx. rewrite <- A4 by done. split; [auto|]. intros [|Hr]%M5; [by left|right].
    unfold reportsAt in *. by rewrite M1, M2, M3.
Qed.

(** C2. Every admitted acknowledgement is processed to the end and keeps the
    scoreboard exact: whatever mixture of recovery, ECN, DSACK undo, path MTU
    change, RACK inference and controller replacement it triggers, the ranges
    still partition the bytes from the new SND.UNA to SND.NXT, the SACK counters
    still count the marked ranges, no byte above SND.UNA loses its mark, and a
    byte gains one only when a valid block of this segment reports it. *)
Theorem ack_scoreboard_exact (s : tcpEstablishedState A) (env : transportEnv A) (segment : tcpSegment)
    (receivedAt timestampEcho : Z) :
  boardOk s -> factoryReady env -> bytes_ok (sg_options segment) -> is_u32 (sg_acknowledgement segment) ->
  tcpSequenceLessEqual (sg_acknowledgement segment) (e_sendNext s) = true ->
  exists s' update confirmed,
    processAcknowledgment outside epoch env s segment receivedAt timestampEcho = Some (s', update, confirmed) /\
    boardOk s' /\ e_sendNext s' = e_sendNext s /\ e_sendUnacknowledged s' = acknowledgedTo s segment /\
    let moved := acknowledgedTo s segment ⊟ e_sendUnacknowledged s in
    forall x, 0 <= x ->
      (sackedAt 0 (e_outstanding s) (x + moved) = true -> sackedAt 0 (e_outstanding s') x = true) /\
      (sackedAt 0 (e_outstanding s') x = true ->
         sackedAt 0 (e_outstanding s) (x + moved) = true \/ reportsAt s' segment x).
Proof.
  intros Hb Hf Ho Ha Hle. opens processAcknowledgment.
  pose proof (keeps_enterACK s segment receivedAt timestampEcho) as Hk1.
  assert (en_segment (snd (enterACK s segment receivedAt timestampEcho)) = segment /\
    en_ackAdvanced (snd (enterACK s segment receivedAt timestampEcho)) =
      tcpSequenceGreater (sg_acknowledgement segment) (e_sendUnacknowledged s)) as [Es Eadv] by done.
  destruct (enterACK s segment receivedAt timestampEcho) as [s1 e]. cbn [fst snd] in *.
  pose proof (keeps_ecnStage env s1 e) as Hk2. destruct (ecnStage env s1 e) as [s2 l2]. cbn [fst] in Hk2.
  pose proof (transitivity (R := keeps) Hk1 Hk2) as Hk. clear Hk1 Hk2 s1. pose proof (keeps_ok _ _ Hk Hb) as Hb2.
  pose proof (keeps_space _ _ Hk) as [U2 N2 P2 M2]. set (n := sg_acknowledgement segment ⊟ e_sendUnacknowledged s).
  destruct (progressStage_spec outside epoch env s2 l2 e n Hf Hb2) as (s3 & l3 & -> & Hb3 & Hp3).
  { intros Hadv. rewrite Eadv in Hadv. destruct (admitted_offset s _ Hb Ha Hle Hadv) as [E1 E2]. unfold en_ack. rewrite Es, U2.
    split; [exact E1|]. by injection Hk as _ _ K3 _ _ _ _ _ _ _ _; rewrite (shapes_total _ _ K3). }
  cbn [mbind option_bind].
  rewrite <- Es in Ho. destruct (dsackStage_settles s3 l3 e Hb3 Ho) as (s4 & l4 & -> & Hb4 & Hs4). cbn [mbind option_bind].
  destruct (evidenceStage_spec epoch env s4 l4 e Hb4 Ho) as (s5 & l5 & -> & Hb5 & Hm5). cbn [mbind option_bind].
  destruct (responseStage_settles env s5 l5 e Hb5) as (s6 & l6 & -> & Hb6 & Hs6). cbn [mbind option_bind].
  pose proof (transitivity (R := keeps) (keeps_rateStage epoch s6 l6 e) (keeps_provisionStage (rateStage epoch s6 l6 e) l6 e)) as Hk7.
  set (s7 := provisionStage (rateStage epoch s6 l6 e) l6 e) in *. clearbody s7.
  assert (marked segment s3 s7) as Hm.
  { rewrite <- Es. apply (then_marked _ _ s4 _ Hs4), (marked_then _ _ s5); [done|]. transitivity s6; [done|by apply keeps_space]. }
  eexists s7, _, _. split; [reflexivity|]. split; [exact (keeps_ok _ _ Hk7 Hb6)|].
  apply (acknowledged_marks s s3 s7); [done|unfold acknowledgedTo; destruct (tcpSequenceGreater _ _); [done|apply Hb]| |done].
  rewrite Eadv in Hp3. unfold acknowledgedTo. destruct (tcpSequenceGreater _ _).
  - apply (space_acked _ s s2); [done|]. by apply keeps_space.
  - replace (e_sendUnacknowledged s ⊟ e_sendUnacknowledged s) with 0 by word. apply acked_zero; [done|].
    transitivity s2; [by apply keeps_space|done].
Qed.

End Acknowledgement.

Lemma ack_scoreboard_exact_witness :
  match sampleFlightState with
  | Some s => exists s' update confirmed,
      processAcknowledgment sampleOutside 0 sampleEnv s sampleReport (2 * second) 0 = Some (s', update, confirmed) /\
      boardOk s' /\ e_sendNext s' = 4000 /\ e_sendUnacknowledged s' = 2000
  | None => False
  end.
Proof.
  destruct sampleFlightState as [s|] eqn:E; [|by vm_compute in E].
  destruct (ack_scoreboard_exact sampleOutside 0 s sampleEnv sampleReport (2 * second) 0)
    as (s' & update & confirmed & Ep & Hb & Hn & Hu & _).
  - vm_compute in E. injection E as <-. by split; vm_compute.
  - by left.
  - repeat constructor; lia.
  - done.
  - vm_compute in E. by injection E as <-.
  - exists s', update, confirmed. split; [exact Ep|]. split; [exact Hb|]. vm_compute in E. injection E as <-.
    split; [by rewrite Hn|by rewrite Hu].
Defined.
