(* ===== verification/Network.v ===== *)
(** * Addresses, routes and source selection

    The immutable snapshot [networkState] of [config.go] and every question the
    stack asks it: admission of destinations, broadcast classification, the
    longest-prefix route, RFC 6724 source addresses, output paths and the
    comparison of two snapshots.  [NetworkConfig.v] builds snapshots. *)

From stdpp Require Import strings gmap.
From S2P Require Import Prelude Addr Congestion Established.

(** ** Data *)

Definition ipv4Unspecified : Addr := Addr4 [0; 0; 0; 0].
Definition ipv6Unspecified : Addr := Addr6 (replicate 16 0) noZone.
Definition limitedBroadcast : Addr := Addr4 [255; 255; 255; 255].

Record AddressProperties := mkAddressProperties {
  ap_Deprecated : bool;
  ap_Temporary : bool }.

#[global] Instance AddressProperties_eq : EqDecision AddressProperties.
Proof. solve_decision. Defined.

Record Route := mkRoute {
  ro_Destination : Prefix;
  ro_Source : Addr;
  ro_Metric : Z }.

#[global] Instance Route_eq : EqDecision Route.
Proof. solve_decision. Defined.

(** [PathMTUDiscovery] is its number. *)
Record DatagramSocketDefaults := mkDatagramDefaults {
  dd_ReceiveBuffer : Z;
  dd_ReceiveErrors : bool;
  dd_PathMTUDiscovery : Z;
  dd_HopLimit : Z;
  dd_MulticastHopLimit : Z;
  dd_DisableMulticastLoopback : bool;
  dd_DisableBroadcast : bool;
  dd_TrafficClass : Z;
  dd_FlowLabel : Z }.

Record IPSocketDefaults := mkIPDefaults {
  id_DatagramSocketDefaults : DatagramSocketDefaults;
  id_IPHeaderIncludedOnWrite : bool;
  id_IPHeaderIncludedOnRead : bool }.

#[export] Instance DatagramSocketDefaults_settable : Settable DatagramSocketDefaults :=
  fun r => mkDatagramDefaults (dd_ReceiveBuffer r) (dd_ReceiveErrors r) (dd_PathMTUDiscovery r) (dd_HopLimit r)
    (dd_MulticastHopLimit r) (dd_DisableMulticastLoopback r) (dd_DisableBroadcast r) (dd_TrafficClass r) (dd_FlowLabel r).

#[export] Instance IPSocketDefaults_settable : Settable IPSocketDefaults :=
  fun r => mkIPDefaults (id_DatagramSocketDefaults r) (id_IPHeaderIncludedOnWrite r) (id_IPHeaderIncludedOnRead r).

(** [A] is the type of the congestion controllers. *)
Record TCPSocketDefaults (A : Type) := mkTCPDefaults {
  td_CongestionControl : string;
  td_CongestionControlFactory : option (CongestionControlDefinition A);
  td_ReceiveBuffer : Z;
  td_MaximumReceiveBuffer : Z;
  td_SendBuffer : Z;
  td_MaximumSendBuffer : Z;
  td_MaximumPacingRate : Z;
  td_AcceptQueue : Z;
  td_SYNBacklog : Z;
  td_KeepAlive : bool;
  td_KeepAliveConfig : KeepAliveConfig;
  td_IdleTimeout : Z;
  td_UserTimeout : Z;
  td_DisableNoDelay : bool;
  td_TrafficClass : Z;
  td_FlowLabel : Z }.
Arguments mkTCPDefaults {A}.
Arguments td_CongestionControl {A}.
Arguments td_CongestionControlFactory {A}.
Arguments td_ReceiveBuffer {A}.
Arguments td_MaximumReceiveBuffer {A}.
Arguments td_SendBuffer {A}.
Arguments td_MaximumSendBuffer {A}.
Arguments td_MaximumPacingRate {A}.
Arguments td_AcceptQueue {A}.
Arguments td_SYNBacklog {A}.
Arguments td_KeepAlive {A}.
Arguments td_KeepAliveConfig {A}.
Arguments td_IdleTimeout {A}.
Arguments td_UserTimeout {A}.
Arguments td_DisableNoDelay {A}.
Arguments td_TrafficClass {A}.
Arguments td_FlowLabel {A}.

Record networkState (A : Type) := mkNetworkState {
  ns_mtu : Z;
  ns_maxTCPConnections : Z;
  ns_promiscuous : bool;
  ns_tcpDefaults : TCPSocketDefaults A;
  ns_udpDefaults : DatagramSocketDefaults;
  ns_ipDefaults : IPSocketDefaults;
  ns_local : gset Addr;
  ns_broadcast : gset Addr;
  ns_sources : list Addr;
  ns_sourcePrefixBits : list Z;
  ns_localPrefixes : list Prefix;
  ns_routes : list Route;
  ns_addressProperties : gmap Addr AddressProperties;
  ns_preferTemporary : bool }.
Arguments mkNetworkState {A}.
Arguments ns_mtu {A}.
Arguments ns_maxTCPConnections {A}.
Arguments ns_promiscuous {A}.
Arguments ns_tcpDefaults {A}.
Arguments ns_udpDefaults {A}.
Arguments ns_ipDefaults {A}.
Arguments ns_local {A}.
Arguments ns_broadcast {A}.
Arguments ns_sources {A}.
Arguments ns_sourcePrefixBits {A}.
Arguments ns_localPrefixes {A}.
Arguments ns_routes {A}.
Arguments ns_addressProperties {A}.
Arguments ns_preferTemporary {A}.

(** ** Classification of addresses *)

(** The directed broadcast address of a prefix; [Panic] stands for [As4] of an
    address that is not IPv4. *)
Definition ipv4BroadcastAddress (prefix : Prefix) : outcome (option Addr) :=
  if negb (prefixValid prefix) || negb (is4 (p_addr prefix)) || isLoopback (p_addr prefix) || (31 <=? p_bits prefix)
  then Ret None
  else
    networkBytes ← need (as4 (p_addr (masked prefix)));
    let network := be_val networkBytes in
    let hostMask := u32 (u64 (Z.shiftl 1 (32 - p_bits prefix)) - 1) in
    Ret (Some (Addr4 (be_bytes 4 (network .| hostMask)))).

Definition isIPv4Broadcast (prefix : Prefix) (address : Addr) (bits : Z) : outcome bool :=
  addressBytes ← need (as4 address);
  let value := be_val addressBytes in
  if value =? 4294967295 then Ret true
  else if 31 <=? bits then Ret false
  else
    networkBytes ← need (as4 (unmap (p_addr (masked prefix))));
    let network := be_val networkBytes in
    let hostMask := u32 (u64 (Z.shiftl 1 (32 - bits)) - 1) in
    Ret (value =? (network .| hostMask)).

Definition validMulticastGroup (address : Addr) : bool :=
  let address := unmap address in
  if negb (isValid address) || negb (isMulticast address) || hasZone address then false
  else if is4 address then true
  else
    let raw := as16 address in
    let flags := Z.shiftr (byteAt raw 1) 4 in
    let scope := byteAt raw 1 .& 15 in
    if (scope =? 0) || (scope =? 15) || negb (flags .& 8 =? 0) then false
    else
      let transient := negb (flags .& 1 =? 0) in
      let prefixBased := negb (flags .& 2 =? 0) in
      let embeddedRP := negb (flags .& 4 =? 0) in
      negb (prefixBased && negb transient || embeddedRP && negb prefixBased).

Definition isInterfaceLocalMulticast (address : Addr) : bool :=
  let address := unmap address in
  is6 address && isMulticast address && (byteAt (as16 address) 1 .& 15 =? 1).

Definition multicastScope (address : Addr) : Z :=
  if is4 address then
    let value := asSlice address in
    if (byteAt value 0 =? 224) && (byteAt value 1 =? 0) && (byteAt value 2 =? 0) then 2
    else if (byteAt value 0 =? 239) && (byteAt value 1 =? 255) then 3
    else if (byteAt value 0 =? 239) && (byteAt value 1 .& 252 =? 192) then 8
    else 14
  else byteAt (as16 address) 1 .& 15.

Definition addressScope (address : Addr) : Z :=
  let address := unmap address in
  if isLoopback address then 2
  else if isMulticast address then multicastScope address
  else if isLinkLocalUnicast address then 2
  else if is6 address && (byteAt (as16 address) 0 =? 254) && (byteAt (as16 address) 1 .& 192 =? 192) then 5
  else 14.

(** The RFC 6724 policy label. *)
Definition addressLabel (address : Addr) : Z :=
  let address := unmap address in
  if is4 address then 4
  else if isLoopback address then 0
  else
    let value := as16 address in
    if (byteAt value 0 =? 32) && (byteAt value 1 =? 2) then 2
    else if (byteAt value 0 =? 32) && (byteAt value 1 =? 1) && (byteAt value 2 =? 0) && (byteAt value 3 =? 0) then 5
    else if byteAt value 0 .& 254 =? 252 then 13
    else if (byteAt value 0 =? 254) && (byteAt value 1 .& 192 =? 192) then 11
    else if (byteAt value 0 =? 63) && (byteAt value 1 =? 254) then 12
    else if (be_val (take 8 value) =? 0) && (be_val (take 4 (drop 8 value)) =? 0) then 3
    else 1.

(** The inner loop over the bits of a byte: [mask] starts at 0x80 and [fuel]
    bounds its shifts. *)
Fixpoint leadingEqualBits (fuel : nat) (difference mask : Z) : Z :=
  match fuel with
  | O => 0
  | S fuel => if difference .& mask =? 0 then 1 + leadingEqualBits fuel difference (Z.shiftr mask 1) else 0
  end.

Fixpoint equalBits (one other : list Z) : Z :=
  match one, other with
  | x :: one', y :: other' =>
      let difference := Z.lxor x y in
      if difference =? 0 then 8 + equalBits one' other' else leadingEqualBits 8 difference 128
  | _, _ => 0
  end.

Definition commonPrefixBits (one other : Addr) (limit : Z) : Z :=
  let one := unmap one in
  let other := unmap other in
  if negb (isValid one) || negb (isValid other) || negb (Bool.eqb (is4 one) (is4 other)) || (limit <=? 0) then 0
  else
    let start := if is4 one then 12%nat else 0%nat in
    let result := equalBits (drop start (as16 one)) (drop start (as16 other)) in
    if limit <? result then limit else result.

Definition sourceScopeUsable (source destination : Addr) : bool :=
  (addressScope destination <=? addressScope source) || isLoopback destination.

(** ** Questions to a snapshot *)

Section Queries.
Context {A : Type} (state : networkState A).

Definition hasLocal (address : Addr) : bool := bool_decide (address ∈ ns_local state).

Definition networkStateHasLocal (address : Addr) : bool := hasLocal (unmap address).

Definition networkStateHasFamily (v6 : bool) : bool :=
  existsb (fun source => Bool.eqb (is6 source) v6) (ns_sources state).

Definition invalidInboundSource (address : Addr) : bool := bool_decide (unmap address ∈ ns_broadcast state).

Definition broadcastDestination (address : Addr) : bool :=
  let address := unmap address in
  if negb (is4 address) then false
  else if bool_decide (address = limitedBroadcast) then true
  else bool_decide (address ∈ ns_broadcast state).

Definition acceptsNonlocalDestination (address : Addr) : bool :=
  let address := unmap address in
  if negb (ns_promiscuous state) || negb (isValid address) || isUnspecified address || isMulticast address || isLoopback address
  then false
  else negb (broadcastDestination address).

Definition acceptsInboundDestination (address : Addr) : bool :=
  let address := unmap address in
  if hasLocal address then true else acceptsNonlocalDestination address.

(** The loop of [routeFor]: the route selected so far, if any. *)
Fixpoint selectRoute (destination : Addr) (routes : list Route) (selected : option Route) : option Route :=
  match routes with
  | [] => selected
  | route :: rest =>
      if negb (Bool.eqb (is6 (p_addr (ro_Destination route))) (is6 destination)) || negb (contains (ro_Destination route) destination)
      then selectRoute destination rest selected
      else
        match selected with
        | None => selectRoute destination rest (Some route)
        | Some best =>
            if (p_bits (ro_Destination best) <? p_bits (ro_Destination route))
               || (p_bits (ro_Destination route) =? p_bits (ro_Destination best)) && (ro_Metric route <? ro_Metric best)
            then selectRoute destination rest (Some route)
            else selectRoute destination rest selected
        end
  end.

Definition routeFor (destination : Addr) : option Route :=
  let destination := unmap destination in
  if hasLocal destination
  then Some (mkRoute (prefixFrom destination (bitLen destination)) destination 0)
  else selectRoute destination (ns_routes state) None.

Definition propertiesOf (address : Addr) : AddressProperties :=
  default (mkAddressProperties false false) (ns_addressProperties state !! address).

Definition preferSource (candidate : Addr) (candidatePrefixBits : Z) (current : Addr) (currentPrefixBits : Z)
    (destination : Addr) : bool :=
  if bool_decide (candidate = destination) || bool_decide (current = destination)
  then bool_decide (candidate = destination)
  else
    let candidateScope := addressScope candidate in
    let currentScope := addressScope current in
    let destinationScope := addressScope destination in
    if negb (candidateScope =? currentScope) then
      let candidateAppropriate := destinationScope <=? candidateScope in
      let currentAppropriate := destinationScope <=? currentScope in
      if negb (Bool.eqb candidateAppropriate currentAppropriate) then candidateAppropriate
      else if candidateAppropriate then candidateScope <? currentScope
      else currentScope <? candidateScope
    else
      let candidateProperties := propertiesOf candidate in
      let currentProperties := propertiesOf current in
      if negb (Bool.eqb (ap_Deprecated candidateProperties) (ap_Deprecated currentProperties))
      then negb (ap_Deprecated candidateProperties)
      else if negb (Bool.eqb (addressLabel candidate =? addressLabel destination)
                             (addressLabel current =? addressLabel destination))
      then addressLabel candidate =? addressLabel destination
      else if negb (Bool.eqb (ap_Temporary candidateProperties) (ap_Temporary currentProperties))
      then Bool.eqb (ap_Temporary candidateProperties) (ns_preferTemporary state)
      else commonPrefixBits current destination currentPrefixBits
           <? commonPrefixBits candidate destination candidatePrefixBits.

(** The loop over the candidates of the destination's family. *)
Fixpoint selectSource (destination : Addr) (index : Z) (candidates : list Addr)
    (selected : Addr) (selectedPrefixBits : Z) : outcome Addr :=
  match candidates with
  | [] => Ret selected
  | candidate :: rest =>
      if negb (Bool.eqb (is6 candidate) (is6 destination))
      then selectSource destination (index + 1) rest selected selectedPrefixBits
      else
        candidatePrefixBits ← need (idx (ns_sourcePrefixBits state) index);
        if negb (isValid selected) || preferSource candidate candidatePrefixBits selected selectedPrefixBits destination
        then selectSource destination (index + 1) rest candidate candidatePrefixBits
        else selectSource destination (index + 1) rest selected selectedPrefixBits
  end.

(** Automatic selection, the same loop in both functions that choose a source. *)
Definition automaticSource (destination : Addr) : outcome Addr :=
  selected ← selectSource destination 0 (ns_sources state) AddrInvalid 0;
  if negb (isValid selected) then Fail EADDRNOTAVAIL else Ret selected.

Definition sourceForUnicast (destination requested : Addr) : outcome Addr :=
  let destination := unmap destination in
  if negb (isValid destination) || isUnspecified destination || isMulticast destination || hasZone destination
  then Fail EINVAL
  else
    match routeFor destination with
    | None => Fail ENETUNREACH
    | Some route =>
        if isLoopback destination && negb (hasLocal destination) then Fail ENETUNREACH
        else
          let requested := unmap requested in
          if isValid requested && negb (isUnspecified requested) then
            if negb (Bool.eqb (is6 requested) (is6 destination)) then Fail EAFNOSUPPORT
            else if negb (hasLocal requested) then Fail EADDRNOTAVAIL
            else Ret requested
          else if isValid (ro_Source route) then Ret (ro_Source route)
          else automaticSource destination
    end.

(** The first source that satisfies [p], if any. *)
Definition firstSource (p : Addr -> bool) : option Addr := List.find p (ns_sources state).

Definition usableIPv4 (candidate : Addr) : bool := is4 candidate && negb (isLoopback candidate).

(** The source on the subnet of a directed broadcast: the loop over prefixes,
    and inside it the loop over sources. *)
Fixpoint subnetSource (destination : Addr) (prefixes : list Prefix) : outcome (option Addr) :=
  match prefixes with
  | [] => Ret None
  | prefix :: rest =>
      if negb (is4 (p_addr prefix)) then subnetSource destination rest
      else
        broadcast ← isIPv4Broadcast prefix destination (p_bits prefix);
        if negb broadcast then subnetSource destination rest
        else
          match firstSource (fun candidate => usableIPv4 candidate && contains prefix candidate) with
          | Some candidate => Ret (Some candidate)
          | None => subnetSource destination rest
          end
  end.

Definition primaryIPv4 : outcome Addr :=
  match firstSource usableIPv4 with Some candidate => Ret candidate | None => Fail EADDRNOTAVAIL end.

Definition broadcastSource (destination : Addr) : outcome Addr :=
  if bool_decide (destination = limitedBroadcast) then primaryIPv4
  else
    found ← subnetSource destination (ns_localPrefixes state);
    match found with Some candidate => Ret candidate | None => primaryIPv4 end.

Definition sourceForNonUnicast (destination requested : Addr) : outcome Addr :=
  let destination := unmap destination in
  if negb (isValid destination) || isUnspecified destination || hasZone destination
     || negb (isMulticast destination) && negb (broadcastDestination destination)
  then Fail EINVAL
  else if isMulticast destination && negb (validMulticastGroup destination) then Fail EINVAL
  else
    let requested := unmap requested in
    if isValid requested && negb (isUnspecified requested) then
      if hasZone requested || isMulticast requested || negb (Bool.eqb (is6 requested) (is6 destination)) then Fail EAFNOSUPPORT
      else if negb (hasLocal requested) then Fail EADDRNOTAVAIL
      else if broadcastDestination destination && isLoopback requested then Fail ENETUNREACH
      else if isMulticast destination && negb (sourceScopeUsable requested destination) then Fail ENETUNREACH
      else Ret requested
    else if broadcastDestination destination then broadcastSource destination
    else if is4 destination then primaryIPv4
    else automaticSource destination.

(** The loop of [inboundIPv4PacketInfoSource] over the sources with their
    configured prefixes; its bound check skips a source without a prefix. *)
Fixpoint sourceOnPrefix (source : Addr) (index : Z) (candidates : list Addr) : option Addr :=
  match candidates with
  | [] => None
  | candidate :: rest =>
      if negb (is4 candidate) || isLoopback candidate then sourceOnPrefix source (index + 1) rest
      else
        match idx (ns_sourcePrefixBits state) index with
        | None => sourceOnPrefix source (index + 1) rest
        | Some bits =>
            if contains (prefixFrom candidate bits) source then Some candidate
            else sourceOnPrefix source (index + 1) rest
        end
  end.

Definition inboundIPv4PacketInfoSource (source destination : Addr) : outcome Addr :=
  let source := unmap source in
  let destination := unmap destination in
  let primary := Ret (default AddrInvalid (firstSource usableIPv4)) in
  if negb (is4 destination) then Ret AddrInvalid
  else if hasLocal destination then Ret destination
  else if is4 source && negb (isUnspecified source) then
    match sourceForUnicast source AddrInvalid with
    | Ret selected => Ret selected
    | Panic => Panic
    | Fail _ =>
        match sourceOnPrefix source 0 (ns_sources state) with
        | Some candidate => Ret candidate
        | None => primary
        end
    end
  else primary.

Definition hasOutputPath (destination : Addr) : bool :=
  let destination := unmap destination in
  if isMulticast destination || broadcastDestination destination then networkStateHasFamily (is6 destination)
  else match routeFor destination with Some _ => true | None => false end.
End Queries.

(** ** Comparison of snapshots *)

Definition sameSourceProperties {A} (state other : networkState A) : bool :=
  if negb (Bool.eqb (ns_preferTemporary state) (ns_preferTemporary other))
     || negb (bool_decide (size (ns_addressProperties state) = size (ns_addressProperties other)))
  then false
  else
    forallb (fun '(address, properties) =>
               bool_decide (ns_addressProperties other !! address = Some properties))
            (map_to_list (ns_addressProperties state)).

(** The element-wise loop, after the lengths were compared. *)
Fixpoint sameElements {T} `{EqDecision T} (one other : list T) : bool :=
  match one, other with
  | x :: one', y :: other' => if bool_decide (x = y) then sameElements one' other' else false
  | _, _ => true
  end.

(** Both snapshots are present; a nil one makes the answer false. *)
Definition sameMulticastConfiguration {A} (state other : networkState A) : bool :=
  if negb (zlen (ns_sources state) =? zlen (ns_sources other))
     || negb (zlen (ns_localPrefixes state) =? zlen (ns_localPrefixes other))
     || negb (sameSourceProperties state other)
  then false
  else sameElements (ns_sources state) (ns_sources other) && sameElements (ns_localPrefixes state) (ns_localPrefixes other).

Definition samePathConfiguration {A} (state other : networkState A) : bool :=
  if negb (ns_mtu state =? ns_mtu other)
     || negb (zlen (ns_sources state) =? zlen (ns_sources other))
     || negb (zlen (ns_localPrefixes state) =? zlen (ns_localPrefixes other))
     || negb (zlen (ns_routes state) =? zlen (ns_routes other))
     || negb (sameSourceProperties state other)
  then false
  else sameElements (ns_sources state) (ns_sources other) && sameElements (ns_localPrefixes state) (ns_localPrefixes other)
       && sameElements (ns_routes state) (ns_routes other).
