(* ===== verification/NetworkLaws.v ===== *)
(** * Laws of routing and source selection

    The invariant of a snapshot, longest-prefix matching, and RFC 6724 source
    selection against the order of the rules. *)

From stdpp Require Import strings gmap.
From S2P Require Import Prelude Addr Congestion Established Network.

(** ** Prefixes *)

Lemma highMask_value z width bits : 0 <= z < 2 ^ width -> 0 <= bits <= width ->
  Z.land z (highMask width bits) = z / 2 ^ (width - bits) * 2 ^ (width - bits).
Proof.
  intros Hz Hb. unfold highMask.
  rewrite <- (Z.shiftr_div_pow2 z), <- Z.shiftl_mul_pow2 by lia. apply Z.bits_inj'. intros i Hi.
  rewrite Z.land_spec, !Z.shiftl_spec by lia.
  destruct (decide (i < width - bits)).
  - rewrite (Z.testbit_neg_r (Z.ones bits)), (Z.testbit_neg_r (Z.shiftr _ _)) by lia. apply andb_false_r.
  - rewrite Z.shiftr_spec, Z.testbit_ones_nonneg by lia.
    replace (i - (width - bits) + (width - bits)) with i by lia.
    destruct (decide (i < width)); [rewrite (proj2 (Z.ltb_lt _ _)) by lia; apply andb_true_r|].
    destruct (Z.testbit z i) eqn:E; [|done].
    exfalso. assert (z < 2 ^ i) by (apply Z.lt_le_trans with (2 ^ width); [lia|apply Z.pow_le_mono_r; lia]).
    rewrite Z.testbit_odd, Z.shiftr_div_pow2, Z.div_small in E by lia. done.
Qed.

Lemma highMask_land z width bits : 0 <= z < 2 ^ width -> 0 <= bits <= width ->
  (Z.land z (highMask width bits) =? 0) = (z / 2 ^ (width - bits) =? 0).
Proof.
  intros Hz Hb. rewrite highMask_value by done. pose proof (Z.pow_pos_nonneg 2 (width - bits) ltac:(lia) ltac:(lia)).
  destruct (Z.eqb_spec (z / 2 ^ (width - bits)) 0) as [E|E]; [rewrite E; lia|]. apply Z.eqb_neq. nia.
Qed.

Lemma highMask_aligned z width bits : 0 <= z < 2 ^ width -> 0 <= bits <= width ->
  Z.land z (highMask width bits) mod 2 ^ (width - bits) = 0.
Proof. intros Hz Hb. rewrite highMask_value by done. apply Z.mod_mul, Z.pow_nonzero; lia. Qed.

Lemma highMask_bound z width bits : 0 <= z < 2 ^ width -> 0 <= bits <= width ->
  0 <= Z.land z (highMask width bits) <= z.
Proof.
  intros Hz Hb. rewrite highMask_value by done. pose proof (Z.pow_pos_nonneg 2 (width - bits) ltac:(lia) ltac:(lia)).
  pose proof (Z.div_pos z (2 ^ (width - bits)) ltac:(lia) ltac:(lia)). pose proof (Z.mul_div_le z (2 ^ (width - bits)) ltac:(lia)). nia.
Qed.

Lemma addr_value a : addrOk a -> 0 <= be_val (asSlice a) < 2 ^ bitLen a.
Proof.
  destruct a as [|b|b z]; [by vm_compute| |]; intros [Hl Hb]; simpl; pose proof (be_val_bound b Hb) as Hv;
    unfold zlen in Hv; rewrite Hl in Hv; lia.
Qed.

Lemma lxor_bound x y w : 0 <= w -> 0 <= x < 2 ^ w -> 0 <= y < 2 ^ w -> 0 <= Z.lxor x y < 2 ^ w.
Proof.
  intros Hw Hx Hy. split; [apply Z.lxor_nonneg; split; lia|].
  assert (Z.lxor x y / 2 ^ w = 0) as E.
  { rewrite <- Z.shiftr_div_pow2, Z.shiftr_lxor, !Z.shiftr_div_pow2, !Z.div_small by lia. done. }
  apply Z.div_small_iff in E; lia.
Qed.

(** The first [bits] bits of an address. *)
Definition addrPrefix (a : Addr) (bits : Z) : Z := be_val (asSlice a) / 2 ^ (bitLen a - bits).

Lemma contains_spec p a : prefixOk p -> addrOk a ->
  contains p a = true <->
  prefixValid p = true /\ hasZone a = false /\ isValid a = true /\ bitLen a = bitLen (p_addr p) /\
  addrPrefix a (p_bits p) = addrPrefix (p_addr p) (p_bits p).
Proof.
  intros (Hpa & _ & Hb & Hi) Ha. unfold contains. cbv zeta. unfold prefixValid in *.
  rewrite !andb_true_iff, !negb_true_iff, Z.leb_le, Z.eqb_eq, !Z.eqb_neq.
  assert (isValid a = true <-> bitLen a <> 0) as -> by (destruct a; simpl; naive_solver lia).
  unfold addrPrefix.
  pose proof (addr_value _ Ha) as Va. pose proof (addr_value _ Hpa) as Vp.
  destruct (decide (0 <= p_bits p)) as [Hv|]; [|naive_solver lia].
  destruct (decide (bitLen (p_addr p) = bitLen a)) as [Hl|]; [|naive_solver lia].
  rewrite Hl in *. rewrite highMask_land; [| |lia].
  - rewrite Z.eqb_eq, <- !Z.shiftr_div_pow2, Z.shiftr_lxor, Z.lxor_eq_0_iff by lia. naive_solver lia.
  - apply lxor_bound; lia.
Qed.

(** ** Routes *)

(** The route's destination has the family of the address and contains it. *)
Definition admitsRoute (destination : Addr) (route : Route) : bool :=
  Bool.eqb (is6 (p_addr (ro_Destination route))) (is6 destination) && contains (ro_Destination route) destination.

(** A longer prefix, or the same length and a smaller metric. *)
Definition betterRoute (route other : Route) : Prop :=
  p_bits (ro_Destination other) < p_bits (ro_Destination route) \/
  (p_bits (ro_Destination route) = p_bits (ro_Destination other) /\ ro_Metric route < ro_Metric other).

(** [route] is the earliest of the best admitting routes of the list. *)
Definition bestRoute (destination : Addr) (routes : list Route) (route : Route) : Prop :=
  exists before after, routes = before ++ route :: after /\ admitsRoute destination route = true /\
    (forall other, other ∈ before -> admitsRoute destination other = true -> betterRoute route other) /\
    (forall other, other ∈ after -> admitsRoute destination other = true -> ~ betterRoute other route).

Lemma selectRoute_step destination route rest selected :
  selectRoute destination (route :: rest) selected =
  selectRoute destination rest
    (if negb (admitsRoute destination route) then selected
     else match selected with
          | None => Some route
          | Some best => if decide (betterRoute route best) then Some route else selected
          end).
Proof.
  simpl. unfold admitsRoute. rewrite negb_andb. destruct (_ || _); [done|]. destruct selected as [best|]; [|done].
  destruct (decide _) as [H|H]; unfold betterRoute in H; destruct (_ || _) eqn:E; try done; exfalso; lia.
Qed.

(** What the loop has established after the routes [seen]. *)
Definition selectedOf (destination : Addr) (seen : list Route) (selected : option Route) : Prop :=
  match selected with
  | None => forall other, other ∈ seen -> admitsRoute destination other = false
  | Some route => bestRoute destination seen route
  end.

Lemma selectedOf_snoc destination seen route selected : selectedOf destination seen selected ->
  selectedOf destination (seen ++ [route])
    (if negb (admitsRoute destination route) then selected
     else match selected with
          | None => Some route
          | Some best => if decide (betterRoute route best) then Some route else selected
          end).
Proof.
  intros Hs. destruct (admitsRoute destination route) eqn:Ha; simpl.
  - destruct selected as [best|]; simpl in *.
    + destruct Hs as (before & after & -> & Hb & H1 & H2). destruct (decide _) as [Hbet|Hbet].
      * exists (before ++ best :: after), []. split; [done|]. split; [done|]. split; [|intros ? []%not_elem_of_nil].
        intros other [?| [->|?]%elem_of_cons]%elem_of_app Ho; [|done|].
        -- specialize (H1 other ltac:(done) Ho). unfold betterRoute in *. lia.
        -- specialize (H2 other ltac:(done) Ho). unfold betterRoute in *. lia.
      * exists before, (after ++ [route]). split; [by rewrite <- app_assoc|]. split; [done|]. split; [done|].
        intros other [?| ->%list_elem_of_singleton]%elem_of_app Ho; auto.
    + exists seen, []. split; [done|]. split; [done|]. split; [|intros ? []%not_elem_of_nil].
      intros other Hin Ho. by rewrite (Hs other Hin) in Ho.
  - destruct selected as [best|]; simpl in *.
    + destruct Hs as (before & after & -> & Hb & H1 & H2).
      exists before, (after ++ [route]). split; [by rewrite <- app_assoc|]. split; [done|]. split; [done|].
      intros other [?| ->%list_elem_of_singleton]%elem_of_app Ho; [auto|congruence].
    + intros other [?| ->%list_elem_of_singleton]%elem_of_app; auto.
Qed.

Lemma selectRoute_spec destination routes seen selected : selectedOf destination seen selected ->
  selectedOf destination (seen ++ routes) (selectRoute destination routes selected).
Proof.
  revert seen selected. induction routes as [|route rest IH]; intros seen selected Hs; [by rewrite app_nil_r|].
  rewrite selectRoute_step. replace (seen ++ route :: rest) with ((seen ++ [route]) ++ rest) by by rewrite <- app_assoc.
  apply IH. by apply selectedOf_snoc.
Qed.

Lemma routeFor_spec {A} (state : networkState A) destination :
  let address := unmap destination in
  match routeFor state destination with
  | Some route =>
      if hasLocal state address then ro_Source route = address /\ p_addr (ro_Destination route) = withoutZone address
      else bestRoute address (ns_routes state) route
  | None => hasLocal state address = false /\ forall route, route ∈ ns_routes state -> admitsRoute address route = false
  end.
Proof.
  intros address. unfold routeFor. fold address. destruct (hasLocal state address) eqn:E; [done|].
  pose proof (selectRoute_spec address (ns_routes state) [] None ltac:(intros ? []%not_elem_of_nil)) as H.
  simpl in H. by destruct (selectRoute _ _ _).
Qed.

(** C18. Route selection is longest-prefix matching: an owned address has its
    host route; for any other destination the result is the earliest route that
    admits it with the greatest prefix length and, among those, the smallest
    metric, and there is none exactly when no route admits it.  A route admits
    an address when both have one family, the address has no zone, and their
    first bits agree to the length of the prefix. *)
Theorem route_longest_match {A} (state : networkState A) destination :
  let address := unmap destination in
  match routeFor state destination with
  | Some route =>
      if hasLocal state address then ro_Source route = address /\ p_addr (ro_Destination route) = withoutZone address
      else bestRoute address (ns_routes state) route
  | None => hasLocal state address = false /\ forall route, route ∈ ns_routes state -> admitsRoute address route = false
  end /\
  (forall route, prefixOk (ro_Destination route) -> addrOk destination ->
     admitsRoute address route = true <->
     prefixValid (ro_Destination route) = true /\ hasZone address = false /\ isValid address = true /\
     bitLen address = bitLen (p_addr (ro_Destination route)) /\
     addrPrefix address (p_bits (ro_Destination route)) =
       addrPrefix (p_addr (ro_Destination route)) (p_bits (ro_Destination route))).
Proof.
  intros address. split.
  - apply routeFor_spec.
  - intros route Hp Ha. apply unmap_ok in Ha. fold address in Ha. unfold admitsRoute.
    rewrite andb_true_iff, Bool.eqb_true_iff, (contains_spec _ _ Hp Ha).
    split; [naive_solver|]. intros (H1 & H2 & H3 & H4 & H5). split; [|done].
    clear -H3 H4. destruct address, (p_addr (ro_Destination route)); simpl in *; try done; lia.
Qed.

(** ** Comparing candidates *)

(** Lexicographic order of the criteria, the first one first. *)
Fixpoint lexLess (one other : list Z) : bool :=
  match one, other with
  | x :: one', y :: other' => (x <? y) || (x =? y) && lexLess one' other'
  | _, _ => false
  end.

Lemma lexLess_trans x y z : length x = length y -> length y = length z ->
  lexLess x y = true -> lexLess y z = true -> lexLess x z = true.
Proof.
  revert y z. induction x as [|a x IH]; intros [|b y] [|c z]; simpl; try done. intros [= Hx] [= Hy].
  rewrite !orb_true_iff, !andb_true_iff, !Z.ltb_lt, !Z.eqb_eq. intros [?| [-> ?]] [?| [-> ?]]; auto with lia.
  right. split; [done|]. by apply (IH y z).
Qed.

Lemma lexLess_total x y : length x = length y -> lexLess x y = false -> x = y \/ lexLess y x = true.
Proof.
  revert y. induction x as [|a x IH]; intros [|b y]; simpl; try done; [by left|]. intros [= Hx].
  rewrite orb_false_iff, andb_false_iff, Z.ltb_ge, Z.eqb_neq. intros [Hle Hor].
  destruct (Z.ltb_spec b a); [by right|]. assert (a = b) as -> by lia. rewrite Z.eqb_refl.
  destruct Hor as [?|Hor]; [lia|]. destruct (IH y Hx Hor) as [->|]; auto.
Qed.

Lemma lexLess_irrefl x : lexLess x x = false.
Proof. induction x as [|a x IH]; [done|]. simpl. by rewrite Z.ltb_irrefl, IH, andb_false_r. Qed.

Lemma addressScope_bound a : 0 <= addressScope a < 16.
Proof.
  unfold addressScope, multicastScope. cbv zeta.
  repeat match goal with |- context [if ?b then _ else _] => destruct b end; try lia.
  change 15 with (2 ^ 4 - 1). rewrite land_low by lia. apply Z.mod_pos_bound. lia.
Qed.

(** RFC 6724 rule 2 as a number: a scope that reaches the destination beats one
    that does not; among those that reach it the smallest is best, among the
    others the largest. *)
Definition scopeRank (scope destinationScope : Z) : Z :=
  if destinationScope <=? scope then 32 - scope else scope - 32.

Section SourceOrder.
Context {A : Type} (state : networkState A) (destination : Addr).

(** The criteria of RFC 6724 for one candidate, greater is better: the
    destination itself (rule 1), scope (2), not deprecated (3), the label of the
    destination (6), the preferred kind of address (7), the length of the common
    prefix within the configured one (8). *)
Definition sourceRank (candidate : Addr * Z) : list Z :=
  let '(address, bits) := candidate in
  [ Z.b2z (bool_decide (address = destination));
    scopeRank (addressScope address) (addressScope destination);
    Z.b2z (negb (ap_Deprecated (propertiesOf state address)));
    Z.b2z (addressLabel address =? addressLabel destination);
    Z.b2z (Bool.eqb (ap_Temporary (propertiesOf state address)) (ns_preferTemporary state));
    commonPrefixBits address destination bits ].

Lemma preferSource_rank candidate bits current currentBits : candidate <> current ->
  preferSource state candidate bits current currentBits destination =
  lexLess (sourceRank (current, currentBits)) (sourceRank (candidate, bits)).
Proof.
  intros Hne. unfold preferSource, sourceRank. cbv zeta.
  pose proof (addressScope_bound candidate). pose proof (addressScope_bound current). unfold scopeRank.
  generalize dependent (addressScope candidate). generalize dependent (addressScope current).
  generalize (addressScope destination) (propertiesOf state candidate) (propertiesOf state current)
    (commonPrefixBits candidate destination bits) (commonPrefixBits current destination currentBits).
  intros sd pc pu cc cu su Hsu sc Hsc.
  destruct (bool_decide_reflect (candidate = destination)), (bool_decide_reflect (current = destination));
    [congruence|reflexivity|reflexivity|].
  simpl. destruct (Z.eqb_spec sc su) as [->|Hs]; simpl.
  - rewrite Z.ltb_irrefl, Z.eqb_refl. simpl.
    destruct (ap_Deprecated pc), (ap_Deprecated pu); try reflexivity; simpl;
    destruct (addressLabel candidate =? _), (addressLabel current =? _); try reflexivity; simpl;
    destruct (ap_Temporary pc), (ap_Temporary pu), (ns_preferTemporary state); try reflexivity; simpl;
    by rewrite andb_false_r, orb_false_r.
  - destruct (Z.leb_spec sd sc), (Z.leb_spec sd su); simpl;
    [destruct (Z.ltb_spec sc su)|..|destruct (Z.ltb_spec su sc)]; symmetry;
      rewrite ?orb_true_iff, ?orb_false_iff, ?andb_false_iff, ?Z.ltb_lt, ?Z.ltb_ge, ?Z.eqb_neq; lia.
Qed.

(** [best] is the earliest of the greatest candidates of the list. *)
Definition firstGreatest (candidates : list (Addr * Z)) (best : Addr * Z) : Prop :=
  exists before after, candidates = before ++ best :: after /\
    (forall other, other ∈ before -> lexLess (sourceRank other) (sourceRank best) = true) /\
    (forall other, other ∈ after -> lexLess (sourceRank best) (sourceRank other) = false).

Lemma rank_length one other : length (sourceRank one) = length (sourceRank other).
Proof. by destruct one, other. Qed.

Lemma rank_keeps best other third : lexLess (sourceRank other) (sourceRank best) = false ->
  lexLess (sourceRank other) (sourceRank third) = true -> lexLess (sourceRank best) (sourceRank third) = true.
Proof.
  intros [->|H]%lexLess_total; [done| |apply rank_length].
  intros H3. eapply lexLess_trans; [..|done|done]; apply rank_length.
Qed.

Lemma firstGreatest_snoc seen best new : firstGreatest seen best ->
  firstGreatest (seen ++ [new]) (if lexLess (sourceRank best) (sourceRank new) then new else best).
Proof.
  intros (before & after & -> & H1 & H2). destruct (lexLess (sourceRank best) (sourceRank new)) eqn:E.
  - exists (before ++ best :: after), []. split; [done|]. split; [|intros ? []%not_elem_of_nil].
    intros other [?| [->|?]%elem_of_cons]%elem_of_app; [|done|].
    + eapply lexLess_trans; [..|by apply H1|done]; apply rank_length.
    + destruct (lexLess (sourceRank other) (sourceRank new)) eqn:F; [done|].
      exfalso. apply lexLess_total in F as [F|F]; [| |apply rank_length].
      * rewrite <- F, H2 in E by done. done.
      * pose proof (lexLess_trans _ _ _ (rank_length _ _) (rank_length _ _) E F). rewrite H2 in * by done. done.
  - exists before, (after ++ [new]). split; [by rewrite <- app_assoc|]. split; [done|].
    intros other [?| ->%list_elem_of_singleton]%elem_of_app; auto.
Qed.

Definition sameFamily (candidate : Addr * Z) : bool := Bool.eqb (is6 candidate.1) (is6 destination).

(** The candidates with their configured prefix lengths, in configuration order. *)
Definition familyCandidates : list (Addr * Z) :=
  List.filter sameFamily (zip (ns_sources state) (ns_sourcePrefixBits state)).

Definition selectedSource (seen : list (Addr * Z)) (selected : Addr) (bits : Z) : Prop :=
  (seen = [] /\ selected = AddrInvalid) \/ (firstGreatest seen (selected, bits) /\ isValid selected = true).

Lemma firstGreatest_elem seen best : firstGreatest seen best -> best ∈ seen.
Proof. intros (before & after & -> & _). apply elem_of_app. right. apply elem_of_cons. by left. Qed.

Lemma selectSource_spec candidates bits index seen selected selectedBits :
  ns_sourcePrefixBits state = take (Z.to_nat index) (ns_sourcePrefixBits state) ++ bits ->
  zlen (ns_sourcePrefixBits state) = index + zlen bits ->
  0 <= index -> length candidates = length bits ->
  Forall (fun a => isValid a = true) candidates ->
  NoDup (seen.*1 ++ candidates) ->
  selectedSource seen selected selectedBits ->
  exists s b, selectSource state destination index candidates selected selectedBits = Ret s /\
    selectedSource (seen ++ List.filter sameFamily (zip candidates bits)) s b.
Proof.
  revert bits index seen selected selectedBits.
  induction candidates as [|c rest IH]; intros bits index seen selected sb Hb Hlen Hi Hl Hv Hnd Hs.
  { destruct bits; [|done]. exists selected, sb. simpl. by rewrite app_nil_r. }
  destruct bits as [|b bits]; [done|]. injection Hl as Hl. apply list.Forall_cons in Hv as [Hvc Hv].
  assert (idx (ns_sourcePrefixBits state) index = Some b) as Hidx.
  { rewrite idx_lookup, Hb by lia. rewrite lookup_app_r; rewrite length_take; unfold zlen in Hlen; simpl in Hlen;
      [|lia]. by replace (_ - _)%nat with 0%nat by lia. }
  assert (ns_sourcePrefixBits state = take (Z.to_nat (index + 1)) (ns_sourcePrefixBits state) ++ bits) as Hb'.
  { rewrite Hb at 2. rewrite take_app_ge; rewrite length_take; unfold zlen in Hlen; simpl in Hlen; [|lia].
    replace (Z.to_nat (index + 1) - _)%nat with 1%nat by lia. simpl. by rewrite take_0, <- app_assoc. }
  assert (zlen (ns_sourcePrefixBits state) = index + 1 + zlen bits) as Hlen' by (rewrite zlen_cons in Hlen; lia).
  assert (NoDup ((seen ++ [(c, b)]).*1 ++ rest)) as Hnd'.
  { rewrite fmap_app, <- app_assoc. done. }
  simpl. change (Bool.eqb (is6 c) (is6 destination)) with (sameFamily (c, b)).
  destruct (sameFamily (c, b)); simpl.
  - rewrite Hidx. simpl. rewrite (cons_middle (c, b)), app_assoc.
    assert (c ∉ seen.*1) as Hc by (apply list.NoDup_app in Hnd as (_ & Hd & _); intros ?; apply (Hd c); [done|apply elem_of_cons; by left]).
    destruct Hs as [[-> ->]|[Hg Hsv]].
    + apply (IH bits (index + 1) [(c, b)] c b); try done; [lia|]. right. split; [|done]. exists [], []. split; [done|]. split; intros ? []%not_elem_of_nil.
    + rewrite Hsv. simpl. rewrite preferSource_rank.
      2:{ intros ->. apply Hc. apply list_elem_of_fmap. exists (selected, sb). split; [done|]. by apply firstGreatest_elem. }
      apply (firstGreatest_snoc _ _ (c, b)) in Hg.
      destruct (lexLess _ _); apply (IH bits (index + 1) (seen ++ [(c, b)])); try done; try lia; by right.
  - apply IH; try done; [lia|]. clear Hnd'.
    apply list.NoDup_app in Hnd as (H1 & H2 & H3). apply list.NoDup_app. split; [done|]. split.
    + intros x Hx Hr. apply (H2 x Hx). apply elem_of_cons. by right.
    + by apply list.NoDup_cons in H3 as [_ ?].
Qed.
End SourceOrder.

(** ** The invariant of a snapshot *)

(** An address an interface may own, in its normal form. *)
Definition ownable (a : Addr) : Prop :=
  addrOk a /\ isValid a = true /\ unmap a = a /\ isUnspecified a = false /\ isMulticast a = false /\ hasZone a = false.

(** A prefix in normal form: valid, without host bits, not mapped. *)
Definition normalPrefix (p : Prefix) : Prop :=
  prefixOk p /\ prefixValid p = true /\ masked p = p /\ unmap (p_addr p) = p_addr p.

Record networkOk {A} (state : networkState A) : Prop := {
  no_nodup : NoDup (ns_sources state);
  no_local : forall a, hasLocal state a = true <-> a ∈ ns_sources state;
  no_bits : Forall2 (fun a bits => 0 <= bits <= bitLen a) (ns_sources state) (ns_sourcePrefixBits state);
  no_ownable : Forall ownable (ns_sources state);
  no_prefixes : Forall normalPrefix (ns_localPrefixes state);
  no_broadcast : forall a, a ∈ ns_broadcast state <->
    exists p, p ∈ ns_localPrefixes state /\ ipv4BroadcastAddress p = Ret (Some a);
  no_disjoint : forall a, a ∈ ns_sources state -> broadcastDestination state a = false;
  no_routes : Forall (fun route => normalPrefix (ro_Destination route) /\
    (ro_Source route = AddrInvalid \/
     ro_Source route ∈ ns_sources state /\ is6 (ro_Source route) = is6 (p_addr (ro_Destination route)))) (ns_routes state);
  no_mtu : 68 <= ns_mtu state <= 65535;
  no_mtu6 : networkStateHasFamily state true = true \/
      Exists (fun route => is6 (p_addr (ro_Destination route)) = true) (ns_routes state) ->
    1280 <= ns_mtu state }.

Section Selection.
Context {A : Type} (state : networkState A) (Hok : networkOk state).

Lemma sources_valid : Forall (fun a => isValid a = true) (ns_sources state).
Proof. eapply list.Forall_impl; [exact (no_ownable _ Hok)|]. by intros a (_ & ? & _). Qed.

Lemma bits_length : length (ns_sources state) = length (ns_sourcePrefixBits state).
Proof. eapply Forall2_length, no_bits, Hok. Qed.

Lemma selectSource_total destination : exists s b,
  selectSource state destination 0 (ns_sources state) AddrInvalid 0 = Ret s /\
  selectedSource state destination (familyCandidates state destination) s b.
Proof.
  apply (selectSource_spec state destination _ (ns_sourcePrefixBits state) 0 [] AddrInvalid 0).
  - done.
  - done.
  - done.
  - apply bits_length.
  - apply sources_valid.
  - apply (no_nodup _ Hok).
  - by left.
Qed.

(** Automatic selection fails exactly without a candidate. *)
Lemma automaticSource_spec destination :
  match automaticSource state destination with
  | Ret s => exists bits, firstGreatest state destination (familyCandidates state destination) (s, bits)
  | Fail e => e = EADDRNOTAVAIL /\ familyCandidates state destination = []
  | Panic => False
  end.
Proof.
  unfold automaticSource. destruct (selectSource_total destination) as (s & b & -> & Hs). simpl.
  destruct Hs as [[H ->]|[H ->]]; simpl; eauto.
Qed.

Lemma familyCandidates_in destination s bits : (s, bits) ∈ familyCandidates state destination ->
  s ∈ ns_sources state /\ is6 s = is6 destination.
Proof.
  unfold familyCandidates. rewrite list_elem_of_In, filter_In, <- list_elem_of_In. intros [H1 H2]. split.
  - by apply elem_of_zip_l in H1.
  - by apply Bool.eqb_prop in H2.
Qed.

Lemma familyCandidates_nil destination : familyCandidates state destination = [] ->
  forall s, s ∈ ns_sources state -> is6 s <> is6 destination.
Proof.
  intros Hn s [i Hi]%list_elem_of_lookup Hs.
  destruct (lookup_lt_is_Some_2 (ns_sourcePrefixBits state) i) as [b Hb].
  { rewrite <- bits_length. by eapply lookup_lt_Some. }
  assert ((s, b) ∈ familyCandidates state destination) as Hin.
  { unfold familyCandidates. rewrite list_elem_of_In, filter_In, <- list_elem_of_In. split.
    - apply list_elem_of_lookup. exists i. by rewrite lookup_zip_with, Hi; simpl; rewrite Hb.
    - unfold sameFamily. simpl. rewrite Hs. apply Bool.eqb_reflx. }
  rewrite Hn in Hin. by apply not_elem_of_nil in Hin.
Qed.
End Selection.

(** The caller asks for a particular source. *)
Definition specified (requested : Addr) : bool := isValid (unmap requested) && negb (isUnspecified (unmap requested)).

Definition unicast (a : Addr) : bool :=
  isValid a && negb (isUnspecified a) && negb (isMulticast a) && negb (hasZone a).

(** The source a unicast packet gets by itself: the one its route pins, or the
    first of the greatest candidates by the rules of RFC 6724. *)
Definition defaultSource {A} (state : networkState A) (address : Addr) (route : Route) (s : Addr) : Prop :=
  if isValid (ro_Source route) then s = ro_Source route
  else exists bits, firstGreatest state address (familyCandidates state address) (s, bits).

Lemma route_source_local {A} (state : networkState A) address route s : networkOk state -> unmap address = address ->
  routeFor state address = Some route -> ro_Source route = s -> isValid s = true ->
  s ∈ ns_sources state /\ is6 s = is6 address.
Proof.
  intros Hok Hu Hr Hs Hv. pose proof (routeFor_spec state address) as H. cbv zeta in H. rewrite Hu, Hr in H.
  destruct (hasLocal state address) eqn:E.
  - destruct H as [H _]. rewrite <- Hs, H. split; [by apply (no_local _ Hok)|done].
  - destruct H as (before & after & Hl & Ha & _).
    pose proof (no_routes _ Hok) as Hf. rewrite Hl in Hf. apply list.Forall_app in Hf as [_ [Hf _]%list.Forall_cons].
    unfold admitsRoute in Ha. apply andb_true_iff in Ha as [Ha _]. apply Bool.eqb_prop in Ha.
    destruct Hf as (_ & [Hi|[Hi Hf]]); [by rewrite <- Hs, Hi in Hv|]. by rewrite <- Hs, <- Ha.
Qed.

Lemma sourceForUnicast_spec {A} (state : networkState A) destination requested (Hok : networkOk state) :
  let address := unmap destination in
  match sourceForUnicast state destination requested with
  | Ret s =>
      s ∈ ns_sources state /\ is6 s = is6 address /\
      (exists route, routeFor state address = Some route /\
         if specified requested then s = unmap requested else defaultSource state address route s)
  | Fail EINVAL => unicast address = false
  | Fail ENETUNREACH => routeFor state address = None \/ (isLoopback address = true /\ hasLocal state address = false)
  | Fail EAFNOSUPPORT => specified requested = true /\ is6 (unmap requested) <> is6 address
  | Fail EADDRNOTAVAIL =>
      if specified requested then unmap requested ∉ ns_sources state
      else forall s, s ∈ ns_sources state -> is6 s <> is6 address
  | _ => False
  end.
Proof.
  intros address. unfold sourceForUnicast. fold address. cbv zeta. unfold unicast, specified.
  destruct (_ || hasZone address) eqn:E1.
  { by destruct (isValid address), (isUnspecified address), (isMulticast address), (hasZone address). }
  destruct (routeFor state address) as [route|] eqn:Hr; [|by left].
  destruct (isLoopback address && _) eqn:E2.
  { apply andb_true_iff in E2 as [? ?%negb_true_iff]. auto. }
  destruct (isValid (unmap requested) && _) eqn:E3.
  - destruct (Bool.eqb _ _) eqn:E4; simpl.
    + apply Bool.eqb_prop in E4. destruct (hasLocal state (unmap requested)) eqn:E5; simpl.
      * apply (no_local _ Hok) in E5. eauto 10.
      * intros H. apply (no_local _ Hok) in H. congruence.
    + split; [done|]. by apply Bool.eqb_false_iff in E4.
  - unfold defaultSource. destruct (isValid (ro_Source route)) eqn:E4.
    + destruct (route_source_local state address route _ Hok (unmap_idem _) Hr eq_refl E4).
      split; [done|]. split; [done|]. exists route. by rewrite E4.
    + pose proof (automaticSource_spec state Hok address) as H. destruct (automaticSource state address) as [s|e|] eqn:E5; [|destruct H as [-> H]|done].
      * destruct H as [bits H]. pose proof (firstGreatest_elem _ _ _ _ H) as Hin.
        apply familyCandidates_in in Hin as [? ?]. split; [done|]. split; [done|]. exists route. rewrite E4. eauto.
      * by apply (familyCandidates_nil state Hok).
Qed.

(** C17. The source of a unicast packet, on every branch: it is an owned address
    of the destination's family, the requested one if any, else the one pinned
    by the longest-prefix route, else the earliest candidate that no other
    candidate beats under the rules of RFC 6724 in their order; and each error
    is returned exactly in its case. *)
Theorem source_selection_rfc6724 {A} (state : networkState A) destination requested (Hok : networkOk state) :
  let address := unmap destination in
  match sourceForUnicast state destination requested with
  | Ret s =>
      s ∈ ns_sources state /\ is6 s = is6 address /\
      (exists route, routeFor state address = Some route /\
         if specified requested then s = unmap requested else defaultSource state address route s)
  | Fail EINVAL => unicast address = false
  | Fail ENETUNREACH => routeFor state address = None \/ (isLoopback address = true /\ hasLocal state address = false)
  | Fail EAFNOSUPPORT => specified requested = true /\ is6 (unmap requested) <> is6 address
  | Fail EADDRNOTAVAIL =>
      if specified requested then unmap requested ∉ ns_sources state
      else forall s, s ∈ ns_sources state -> is6 s <> is6 address
  | _ => False
  end.
Proof. by apply sourceForUnicast_spec. Qed.

(** ** Broadcast addresses *)

(** The greatest address of an IPv4 prefix in normal form. *)
Definition lastAddress (p : Prefix) : Z := be_val (asSlice (p_addr p)) + 2 ^ (32 - p_bits p) - 1.

Lemma normal_aligned p : normalPrefix p -> is4 (p_addr p) = true ->
  0 <= p_bits p <= 32 /\ be_val (asSlice (p_addr p)) mod 2 ^ (32 - p_bits p) = 0.
Proof.
  intros ((Ha & _ & Hb & _) & Hv & Hm & _) H4. unfold prefixValid in Hv. apply Z.leb_le in Hv.
  destruct p as [a bits]. simpl in *. destruct a as [|b|]; try done. simpl in *. split; [lia|].
  unfold masked in Hm. cbn -[be_bytes] in Hm.
  rewrite (proj2 (Z.ltb_ge bits 0)), (proj2 (Z.ltb_ge 32 bits)) in Hm by lia. unfold prefixFrom in Hm. cbn -[be_bytes] in Hm.
  assert (be_val (be_bytes 4 (be_val b .& highMask 32 bits)) = be_val b) as Hv4 by congruence.
  destruct Ha as [Hl Hb4]. pose proof (be_val_bound b Hb4) as Hbnd. unfold zlen in Hbnd. rewrite Hl in Hbnd.
  change (256 ^ Z.of_nat 4) with (2 ^ 32) in Hbnd. pose proof (highMask_bound (be_val b) 32 bits Hbnd ltac:(lia)) as Hm4.
  rewrite be_val_be_bytes, Z.mod_small in Hv4 by (change (256 ^ Z.of_nat 4) with (2 ^ 32); lia).
  rewrite <- Hv4. by apply highMask_aligned; lia.
Qed.

(** The host mask fills the low bits of an aligned network number. *)
Lemma fill_host network bits : 0 <= bits < 31 -> network mod 2 ^ (32 - bits) = 0 ->
  (network .| u32 (u64 (Z.shiftl 1 (32 - bits)) - 1)) = network + 2 ^ (32 - bits) - 1.
Proof.
  intros Hb Hm. rewrite Z.shiftl_mul_pow2, Z.mul_1_l by lia.
  assert (2 ^ (32 - bits) <= 2 ^ 32) by (apply Z.pow_le_mono_r; lia).
  assert (2 ^ 2 <= 2 ^ (32 - bits)) by (apply Z.pow_le_mono_r; lia).
  rewrite u64_small, u32_id by (unfold is_u32; lia).
  rewrite (Z_div_exact_full_2 network (2 ^ (32 - bits)) ltac:(lia) Hm), Z.mul_comm, <- Z.shiftl_mul_pow2 by lia.
  rewrite lor_shiftl_add by lia. rewrite Z.shiftl_mul_pow2 by lia. lia.
Qed.

Lemma normal_as4 p : normalPrefix p -> is4 (p_addr p) = true ->
  as4 (p_addr (masked p)) = Some (asSlice (p_addr p)) /\ as4 (unmap (p_addr (masked p))) = Some (asSlice (p_addr p)).
Proof. intros (_ & _ & -> & Hu) H4. rewrite Hu. by destruct (p_addr p). Qed.

Lemma isIPv4Broadcast_spec p a : normalPrefix p -> is4 (p_addr p) = true -> is4 a = true ->
  isIPv4Broadcast p a (p_bits p) =
  Ret ((be_val (asSlice a) =? 4294967295) || (p_bits p <? 31) && (be_val (asSlice a) =? lastAddress p)).
Proof.
  intros Hp H4 Ha. unfold isIPv4Broadcast. destruct a as [|b|]; try done. simpl.
  destruct (be_val b =? 4294967295); [done|]. rewrite Z.leb_antisym. simpl.
  destruct (Z.ltb_spec (p_bits p) 31); simpl; [|done].
  rewrite (proj2 (normal_as4 p Hp H4)). simpl. destruct (normal_aligned p Hp H4) as [? Hal].
  by rewrite fill_host by (done || lia).
Qed.

Lemma ipv4BroadcastAddress_spec p : normalPrefix p ->
  ipv4BroadcastAddress p =
  Ret (if is4 (p_addr p) && negb (isLoopback (p_addr p)) && (p_bits p <? 31)
       then Some (Addr4 (be_bytes 4 (lastAddress p))) else None).
Proof.
  intros Hp. unfold ipv4BroadcastAddress. destruct (Hp) as (_ & -> & _). rewrite Z.leb_antisym. simpl.
  destruct (is4 (p_addr p)) eqn:H4; [|done]. simpl. destruct (isLoopback _); [done|]. simpl.
  destruct (Z.ltb_spec (p_bits p) 31); [|done]. simpl.
  rewrite (proj1 (normal_as4 p Hp H4)). cbn -[be_bytes]. destruct (normal_aligned p Hp H4) as [? Hal].
  by rewrite fill_host by (done || lia).
Qed.

(** ** Sources of broadcast and multicast packets *)

(** The address is the directed broadcast of the prefix. *)
Definition directedBroadcast (p : Prefix) (a : Addr) : Prop :=
  is4 (p_addr p) = true /\ p_bits p < 31 /\ be_val (asSlice a) = lastAddress p.

Lemma firstSource_spec {A} (state : networkState A) p :
  match firstSource state p with
  | Some s => s ∈ ns_sources state /\ p s = true
  | None => forall s, s ∈ ns_sources state -> p s = false
  end.
Proof.
  unfold firstSource. destruct (List.find p (ns_sources state)) eqn:E.
  - apply List.find_some in E. by rewrite list_elem_of_In.
  - intros s Hs. eapply List.find_none in E; [done|by apply list_elem_of_In].
Qed.

Lemma subnetSource_spec {A} (state : networkState A) a prefixes : Forall normalPrefix prefixes ->
  is4 a = true -> be_val (asSlice a) <> 4294967295 ->
  match subnetSource state a prefixes with
  | Ret (Some s) => s ∈ ns_sources state /\ usableIPv4 s = true /\
      exists p, p ∈ prefixes /\ directedBroadcast p a /\ contains p s = true
  | Ret None => forall p s, p ∈ prefixes -> directedBroadcast p a -> s ∈ ns_sources state ->
      usableIPv4 s = true -> contains p s = false
  | _ => False
  end.
Proof.
  intros Hf H4 Hl. induction Hf as [|p rest Hp Hf IH]; [by intros ? ? []%not_elem_of_nil|].
  assert (~ directedBroadcast p a \/ (forall s, s ∈ ns_sources state -> usableIPv4 s && contains p s = false) ->
    match subnetSource state a rest with
    | Ret (Some s) => s ∈ ns_sources state /\ usableIPv4 s = true /\ exists q, q ∈ p :: rest /\ directedBroadcast q a /\ contains q s = true
    | Ret None => forall q s, q ∈ p :: rest -> directedBroadcast q a -> s ∈ ns_sources state -> usableIPv4 s = true -> contains q s = false
    | _ => False
    end) as Hskip.
  { intros Hno. destruct (subnetSource state a rest) as [[s|]|e|]; try done.
    - destruct IH as (? & ? & q & ? & ? & ?). split; [done|]. split; [done|]. exists q. rewrite elem_of_cons. auto.
    - intros q s [->|Hq]%elem_of_cons Hd Hs Hu; [|by apply IH]. destruct Hno as [|Hno]; [done|].
      specialize (Hno s Hs). by rewrite Hu in Hno. }
  simpl. destruct (is4 (p_addr p)) eqn:Hp4; simpl.
  - rewrite (isIPv4Broadcast_spec p a Hp Hp4 H4). simpl. rewrite (proj2 (Z.eqb_neq _ _) Hl). simpl.
    destruct ((p_bits p <? 31) && _) eqn:E; simpl.
    + apply andb_true_iff in E as [?%Z.ltb_lt ?%Z.eqb_eq].
      pose proof (firstSource_spec state (fun c => usableIPv4 c && contains p c)) as Hfs.
      destruct (firstSource _ _) as [s|]; [|apply Hskip; by right].
      destruct Hfs as [? [? ?]%andb_true_iff]. split; [done|]. split; [done|]. exists p. rewrite elem_of_cons. unfold directedBroadcast. auto 10.
    + apply Hskip. left. intros (_ & H1 & H2). rewrite (proj2 (Z.ltb_lt _ _) H1), (proj2 (Z.eqb_eq _ _) H2) in E. done.
  - apply Hskip. left. intros (H & _). congruence.
Qed.

(** What a packet to a broadcast or multicast address gets without a request:
    an IPv4 destination an address other than loopback, on the subnet of a
    directed broadcast when there is one, and IPv6 the best candidate. *)
Definition nonUnicastDefault {A} (state : networkState A) (a s : Addr) : Prop :=
  if is4 a then
    usableIPv4 s = true /\
    (broadcastDestination state a = true -> a <> limitedBroadcast ->
     (exists p s', p ∈ ns_localPrefixes state /\ directedBroadcast p a /\
        s' ∈ ns_sources state /\ usableIPv4 s' = true /\ contains p s' = true) ->
     exists p, p ∈ ns_localPrefixes state /\ directedBroadcast p a /\ contains p s = true)
  else exists bits, firstGreatest state a (familyCandidates state a) (s, bits).

Lemma primaryIPv4_spec {A} (state : networkState A) :
  match primaryIPv4 state with
  | Ret s => s ∈ ns_sources state /\ usableIPv4 s = true
  | Fail e => e = EADDRNOTAVAIL /\ forall s, s ∈ ns_sources state -> usableIPv4 s = false
  | Panic => False
  end.
Proof.
  unfold primaryIPv4. pose proof (firstSource_spec state usableIPv4) as H. by destruct (firstSource _ _).
Qed.

Lemma limited_value a : addrOk a -> is4 a = true -> be_val (asSlice a) = 4294967295 -> a = limitedBroadcast.
Proof.
  destruct a as [|b|]; try done. intros [Hl Hb] _ Hv. simpl in Hv.
  unfold limitedBroadcast. rewrite <- (be_bytes_be_val b Hb), Hl, Hv. done.
Qed.

Lemma broadcastSource_spec {A} (state : networkState A) a : networkOk state -> addrOk a -> is4 a = true ->
  match broadcastSource state a with
  | Ret s => s ∈ ns_sources state /\ nonUnicastDefault state a s
  | Fail e => e = EADDRNOTAVAIL /\ forall s, s ∈ ns_sources state -> usableIPv4 s = false
  | Panic => False
  end.
Proof.
  intros Hok Ha H4. unfold broadcastSource, nonUnicastDefault. rewrite H4.
  pose proof (primaryIPv4_spec state) as Hp. case_bool_decide as Hl.
  { destruct (primaryIPv4 state); [|done|done]. destruct Hp. by repeat split. }
  pose proof (subnetSource_spec state a _ (no_prefixes _ Hok) H4 (fun H => Hl (limited_value a Ha H4 H))) as Hs.
  destruct (subnetSource _ _ _) as [[s|]|e|]; simpl; try done.
  - destruct Hs as (? & ? & ?). by repeat split.
  - destruct (primaryIPv4 state); [|done|done]. destruct Hp as [? ?]. split; [done|]. split; [done|].
    intros _ _ (p & s' & ? & ? & ? & ? & Hc). by rewrite (Hs p s') in Hc.
Qed.

Lemma is4_family (a b : Addr) : is4 a = true -> is4 b = true -> is6 a = is6 b.
Proof. by destruct a, b. Qed.

Lemma usableIPv4_is4 s : usableIPv4 s = true -> is4 s = true.
Proof. by intros [? _]%andb_true_iff. Qed.

Lemma broadcast_is4 {A} (state : networkState A) a : broadcastDestination state (unmap a) = true -> is4 (unmap a) = true.
Proof. unfold broadcastDestination. rewrite unmap_idem. by destruct (is4 (unmap a)). Qed.

Lemma source_is4 {A} (state : networkState A) s : networkOk state -> s ∈ ns_sources state -> is6 s = false -> is4 s = true.
Proof.
  intros Hok Hs H6. pose proof (sources_valid state Hok) as Hv. rewrite list.Forall_forall in Hv.
  specialize (Hv s Hs). by destruct s.
Qed.

Lemma unusable_loopback {A} (state : networkState A) a : networkOk state -> is4 a = true ->
  (forall s, s ∈ ns_sources state -> usableIPv4 s = false) ->
  forall s, s ∈ ns_sources state -> is6 s = is6 a -> is4 a = true /\ isLoopback s = true.
Proof.
  intros Hok H4 Hu s Hs H6. split; [done|]. specialize (Hu s Hs). unfold usableIPv4 in Hu.
  rewrite (source_is4 state s Hok Hs) in Hu by (rewrite H6; by destruct a). by destruct (isLoopback s).
Qed.

Lemma usable_source {A} (state : networkState A) a s : is4 a = true -> usableIPv4 s = true -> is6 s = is6 a.
Proof. intros H4 Hu. apply is4_family; [by apply usableIPv4_is4|done]. Qed.

(** The default branch of [sourceForNonUnicast]. *)
Lemma nonUnicastDefault_spec {A} (state : networkState A) a : networkOk state -> addrOk a -> unmap a = a ->
  match (if broadcastDestination state a then broadcastSource state a
         else if is4 a then primaryIPv4 state else automaticSource state a) with
  | Ret s => s ∈ ns_sources state /\ is6 s = is6 a /\ nonUnicastDefault state a s
  | Fail e => e = EADDRNOTAVAIL /\ forall s, s ∈ ns_sources state -> is6 s = is6 a -> is4 a = true /\ isLoopback s = true
  | Panic => False
  end.
Proof.
  intros Hok Ha Hu. destruct (broadcastDestination state a) eqn:Hb.
  - assert (is4 a = true) as H4 by (rewrite <- Hu; apply (broadcast_is4 state); by rewrite Hu).
    pose proof (broadcastSource_spec state a Hok Ha H4) as H. destruct (broadcastSource state a) as [s|e|]; [|destruct H as [-> H]|done].
    + destruct H as [? H]. split; [done|]. split; [|done]. unfold nonUnicastDefault in H. rewrite H4 in H.
      apply (usable_source state); [done|apply H].
    + split; [done|]. by eapply unusable_loopback.
  - destruct (is4 a) eqn:H4.
    + pose proof (primaryIPv4_spec state) as H. destruct (primaryIPv4 state) as [s|e|]; [|destruct H as [-> H]|done].
      * destruct H as [? H]. split; [done|]. split; [by eapply usable_source|].
        unfold nonUnicastDefault. rewrite H4, Hb. by split.
      * split; [done|]. intros s Hs H6. rewrite <- H4 at 1. split; [done|]. by eapply (unusable_loopback state a).
    + pose proof (automaticSource_spec state Hok a) as H. destruct (automaticSource state a) as [s|e|]; [|destruct H as [-> H]|done].
      * destruct H as [bits H]. pose proof (firstGreatest_elem _ _ _ _ H) as [? ?]%familyCandidates_in.
        split; [done|]. split; [done|]. unfold nonUnicastDefault. rewrite H4. by exists bits.
      * split; [done|]. intros s Hs H6. by apply (familyCandidates_nil state Hok a H s Hs) in H6.
Qed.

Lemma sourceForNonUnicast_spec {A} (state : networkState A) destination requested
    (Hok : networkOk state) (Ha : addrOk destination) :
  let address := unmap destination in
  match sourceForNonUnicast state destination requested with
  | Ret s =>
      s ∈ ns_sources state /\ is6 s = is6 address /\
      (if specified requested
       then s = unmap requested /\
            (broadcastDestination state address = true -> isLoopback s = false) /\
            (isMulticast address = true -> sourceScopeUsable s address = true)
       else nonUnicastDefault state address s)
  | Fail EINVAL => isMulticast address = true /\ validMulticastGroup address = false \/
      isMulticast address = false /\ broadcastDestination state address = false \/ hasZone address = true \/
      isUnspecified address = true \/ isValid address = false
  | Fail EAFNOSUPPORT => specified requested = true /\
      (is6 (unmap requested) <> is6 address \/ hasZone (unmap requested) = true \/ isMulticast (unmap requested) = true)
  | Fail ENETUNREACH => specified requested = true /\
      (isLoopback (unmap requested) = true \/ sourceScopeUsable (unmap requested) address = false)
  | Fail EADDRNOTAVAIL =>
      if specified requested then unmap requested ∉ ns_sources state
      else forall s, s ∈ ns_sources state -> is6 s = is6 address -> is4 address = true /\ isLoopback s = true
  | _ => False
  end.
Proof.
  intros address. unfold sourceForNonUnicast. fold address. cbv zeta.
  assert (unmap address = address) as Hu by apply unmap_idem.
  pose proof (nonUnicastDefault_spec state address Hok (unmap_ok _ Ha) Hu) as Hdef.
  destruct (negb (isValid address) || _ || _ || _) eqn:E1.
  { destruct (isValid address), (isUnspecified address), (hasZone address), (isMulticast address), (broadcastDestination state address); naive_solver. }
  destruct (isMulticast address && _) eqn:E2.
  { apply andb_true_iff in E2 as [? ?%negb_true_iff]. auto. }
  unfold specified. destruct (isValid (unmap requested) && _) eqn:E3.
  2:{ clear E1 E2. destruct (if broadcastDestination state address then _ else _) as [s|e|]; [done| |done].
      by destruct Hdef as [-> Hdef]. }
  clear Hdef E1. destruct (hasZone (unmap requested)) eqn:Ez; [simpl; auto|].
  destruct (isMulticast (unmap requested)) eqn:Em; [simpl; auto|].
  destruct (Bool.eqb _ _) eqn:Ef; simpl; [|apply Bool.eqb_false_iff in Ef; auto]. apply Bool.eqb_prop in Ef.
  destruct (hasLocal state (unmap requested)) eqn:El; simpl.
  2:{ intros H. apply (no_local _ Hok) in H. congruence. }
  apply (no_local _ Hok) in El.
  destruct (broadcastDestination state address && _) eqn:Eb; [apply andb_true_iff in Eb as [_ ?]; auto|].
  destruct (isMulticast address && negb (sourceScopeUsable _ _)) eqn:Es; [apply andb_true_iff in Es as [_ ?%negb_true_iff]; auto|].
  split; [done|]. split; [done|]. split; [done|]. split.
  - intros Hb. by rewrite Hb in Eb.
  - intros Hm. rewrite Hm in Es. by destruct (sourceScopeUsable _ _).
Qed.

Lemma family_of_source {A} (state : networkState A) a s : s ∈ ns_sources state -> is6 s = is6 a ->
  networkStateHasFamily state (is6 a) = true.
Proof.
  intros Hs H6. unfold networkStateHasFamily. apply existsb_exists. exists s. rewrite <- list_elem_of_In. split; [done|].
  rewrite H6. apply Bool.eqb_reflx.
Qed.

(** C20. The source of a broadcast or multicast packet, on every branch: an
    owned address of the destination's family, which the request names if there
    is one; a broadcast never leaves from a loopback address, a requested source
    has the scope of the group, a directed broadcast leaves from its own subnet
    whenever a usable address is on it, and IPv6 multicast from the best
    candidate.  Whenever either selection succeeds, the stack has an output path
    for the destination. *)
Theorem nonunicast_source_usable {A} (state : networkState A) destination requested
    (Hok : networkOk state) (Ha : addrOk destination) :
  let address := unmap destination in
  match sourceForNonUnicast state destination requested with
  | Ret s =>
      s ∈ ns_sources state /\ is6 s = is6 address /\
      (if specified requested
       then s = unmap requested /\
            (broadcastDestination state address = true -> isLoopback s = false) /\
            (isMulticast address = true -> sourceScopeUsable s address = true)
       else nonUnicastDefault state address s)
  | Fail EINVAL => isMulticast address = true /\ validMulticastGroup address = false \/
      isMulticast address = false /\ broadcastDestination state address = false \/ hasZone address = true \/
      isUnspecified address = true \/ isValid address = false
  | Fail EAFNOSUPPORT => specified requested = true /\
      (is6 (unmap requested) <> is6 address \/ hasZone (unmap requested) = true \/ isMulticast (unmap requested) = true)
  | Fail ENETUNREACH => specified requested = true /\
      (isLoopback (unmap requested) = true \/ sourceScopeUsable (unmap requested) address = false)
  | Fail EADDRNOTAVAIL =>
      if specified requested then unmap requested ∉ ns_sources state
      else forall s, s ∈ ns_sources state -> is6 s = is6 address -> is4 address = true /\ isLoopback s = true
  | _ => False
  end /\
  (forall s, sourceForNonUnicast state destination requested = Ret s \/ sourceForUnicast state destination requested = Ret s ->
     hasOutputPath state destination = true).
Proof.
  intros address. pose proof (sourceForNonUnicast_spec state destination requested Hok Ha) as Hn.
  split; [exact Hn|]. intros s Hs. unfold hasOutputPath. fold address. cbv zeta.
  assert (s ∈ ns_sources state /\ is6 s = is6 address) as [Hin H6].
  { destruct Hs as [Hs|Hs].
    - cbv zeta in Hn. rewrite Hs in Hn. naive_solver.
    - pose proof (sourceForUnicast_spec state destination requested Hok) as H. cbv zeta in H. rewrite Hs in H. naive_solver. }
  rewrite (family_of_source state address s Hin H6). destruct (isMulticast address || _) eqn:E; [done|].
  apply orb_false_iff in E as [Em Eb]. destruct Hs as [Hs|Hs]; unfold sourceForNonUnicast, sourceForUnicast in Hs; fold address in Hs.
  - rewrite Em, Eb in Hs. simpl in Hs. by rewrite orb_true_r in Hs.
  - cbv zeta in Hs. destruct (_ || hasZone address); [done|]. by destruct (routeFor state address).
Qed.

(** ** Common prefixes *)

Lemma leadingEqualBits_table :
  forallb (fun d => forallb (fun k => Bool.eqb (k <=? leadingEqualBits 8 d 128) (d / 2 ^ (8 - k) =? 0)) (seqZ 0 9)) (seqZ 1 255) = true.
Proof. by vm_compute. Qed.

Lemma leadingEqualBits_spec d k : 0 < d < 256 -> 0 <= k <= 8 -> (k <= leadingEqualBits 8 d 128 <-> d / 2 ^ (8 - k) = 0).
Proof.
  intros Hd Hk. pose proof leadingEqualBits_table as H. rewrite forallb_forall in H.
  specialize (H d ltac:(apply list_elem_of_In, elem_of_seqZ; lia)). rewrite forallb_forall in H.
  specialize (H k ltac:(apply list_elem_of_In, elem_of_seqZ; lia)). apply Bool.eqb_prop in H. lia.
Qed.

Lemma leadingEqualBits_bound n d m : 0 <= leadingEqualBits n d m <= Z.of_nat n.
Proof. revert m. induction n as [|n IH]; intros m; simpl; [lia|]. specialize (IH (Z.shiftr m 1)). destruct (_ =? 0); lia. Qed.

Lemma byte_prefix x y k : is_u8 x -> is_u8 y -> 0 <= k <= 8 ->
  (Z.lxor x y / 2 ^ (8 - k) = 0 <-> x / 2 ^ (8 - k) = y / 2 ^ (8 - k)).
Proof. intros Hx Hy Hk. rewrite <- !Z.shiftr_div_pow2, Z.shiftr_lxor, Z.lxor_eq_0_iff by lia. done. Qed.

(** Dividing a big-endian number inside its first byte, or behind it. *)
Lemma be_val_div_head x l k : bytes_ok l -> 0 <= k <= 8 ->
  be_val (x :: l) / 2 ^ (8 * zlen (x :: l) - k) = x / 2 ^ (8 - k).
Proof.
  intros Hl Hk. pose proof (be_val_bound l Hl) as Hb. rewrite be_val_cons, zlen_cons.
  replace (8 * (1 + zlen l) - k) with (8 * zlen l + (8 - k)) by lia. pose proof (zlen_nonneg l).
  pose proof (Z.pow_pos_nonneg 2 (8 * zlen l) ltac:(lia) ltac:(lia)). pose proof (Z.pow_pos_nonneg 2 (8 - k) ltac:(lia) ltac:(lia)).
  rewrite Z.pow_add_r, <- Z.div_div by lia.
  change 256 with (2 ^ 8) in *. rewrite <- Z.pow_mul_r in * by lia.
  rewrite Z.div_add_l, (Z.div_small (be_val l)), Z.add_0_r by lia. done.
Qed.

Lemma be_val_div_tail x l k : bytes_ok l -> 8 <= k <= 8 * zlen (x :: l) ->
  be_val (x :: l) / 2 ^ (8 * zlen (x :: l) - k) = x * 2 ^ (k - 8) + be_val l / 2 ^ (8 * zlen l - (k - 8)).
Proof.
  intros Hl Hk. rewrite be_val_cons. rewrite zlen_cons in *. replace (8 * (1 + zlen l) - k) with (8 * zlen l - (k - 8)) by lia.
  change 256 with (2 ^ 8) in *. rewrite <- Z.pow_mul_r by lia.
  replace (2 ^ (8 * zlen l)) with (2 ^ (k - 8) * 2 ^ (8 * zlen l - (k - 8))) by (rewrite <- Z.pow_add_r by lia; f_equal; lia).
  rewrite Z.mul_assoc, Z.div_add_l by (apply Z.pow_nonzero; lia). done.
Qed.

Lemma tail_quotient l k : bytes_ok l -> 0 <= k <= 8 * zlen l -> 0 <= be_val l / 2 ^ (8 * zlen l - k) < 2 ^ k.
Proof.
  intros Hl Hk. pose proof (be_val_bound l Hl) as Hb. change 256 with (2 ^ 8) in Hb. rewrite <- Z.pow_mul_r in Hb by lia.
  pose proof (Z.pow_pos_nonneg 2 (8 * zlen l - k) ltac:(lia) ltac:(lia)).
  split; [apply Z.div_pos; lia|]. apply Z.div_lt_upper_bound; [lia|]. rewrite <- Z.pow_add_r by lia.
  rewrite Z.sub_add. lia.
Qed.

Lemma equalBits_bound l m : 0 <= equalBits l m <= 8 * zlen l.
Proof.
  revert m. induction l as [|x l IH]; intros m; [done|]. rewrite zlen_cons. pose proof (zlen_nonneg l).
  destruct m as [|y m]; cbn [equalBits]; [lia|].
  specialize (IH m). pose proof (leadingEqualBits_bound 8 (Z.lxor x y) 128). destruct (_ =? 0); lia.
Qed.

Lemma equalBits_spec l m k : length l = length m -> bytes_ok l -> bytes_ok m -> 0 <= k <= 8 * zlen l ->
  (k <= equalBits l m <-> be_val l / 2 ^ (8 * zlen l - k) = be_val m / 2 ^ (8 * zlen m - k)).
Proof.
  revert m k. induction l as [|x l IH]; intros [|y m] k Hlen Hl Hm Hk; try done.
  { change (0 <= k <= 0) in Hk. by assert (k = 0) as -> by lia. }
  injection Hlen as Hlen. apply list.Forall_cons in Hl as [Hx Hl]. apply list.Forall_cons in Hm as [Hy Hm].
  assert (zlen m = zlen l) as Hz by (unfold zlen; lia).
  destruct (decide (k <= 8)) as [Hs|Hs].
  - rewrite !be_val_div_head by (done || lia). rewrite <- byte_prefix by (done || lia). cbn [equalBits].
    pose proof (equalBits_bound l m). destruct (Z.eqb_spec (Z.lxor x y) 0) as [E|E].
    + rewrite E, Z.div_0_l by (apply Z.pow_nonzero; lia). lia.
    + apply leadingEqualBits_spec; [|lia]. pose proof (lxor_bound x y 8 ltac:(lia) Hx Hy). lia.
  - rewrite !be_val_div_tail by (rewrite ?zlen_cons in *; done || lia). cbn [equalBits]. rewrite zlen_cons in Hk.
    pose proof (tail_quotient l (k - 8) Hl ltac:(lia)). pose proof (tail_quotient m (k - 8) Hm ltac:(lia)).
    destruct (Z.eqb_spec (Z.lxor x y) 0) as [E|E].
    + apply Z.lxor_eq_0_iff in E as ->.
      specialize (IH m (k - 8) Hlen Hl Hm ltac:(lia)). lia.
    + pose proof (leadingEqualBits_bound 8 (Z.lxor x y) 128). split; [lia|]. intros Heq. exfalso. apply E.
      apply Z.lxor_eq_0_iff. nia.
Qed.

(** [commonPrefixBits] is the greatest number of equal leading bits, capped. *)
Lemma commonPrefixBits_spec a b limit k : addrOk a -> addrOk b -> unmap a = a -> unmap b = b ->
  isValid a = true -> isValid b = true -> is4 a = is4 b -> 0 <= k <= limit -> limit <= bitLen a ->
  (k <= commonPrefixBits a b limit <-> addrPrefix a k = addrPrefix b k).
Proof.
  intros Ha Hb Hua Hub Hva Hvb Hf Hk Hl. unfold commonPrefixBits. rewrite Hua, Hub, Hva, Hvb, Hf, Bool.eqb_reflx. simpl.
  destruct (Z.leb_spec limit 0).
  { assert (k = 0) as -> by lia. split; [intros _|lia]. unfold addrPrefix.
    pose proof (addr_value a Ha). pose proof (addr_value b Hb). rewrite !Z.sub_0_r, !Z.div_small by done. done. }
  assert (drop (if is4 b then 12 else 0) (as16 a) = asSlice a) as -> by by destruct a, b.
  assert (drop (if is4 b then 12 else 0) (as16 b) = asSlice b) as -> by by destruct b.
  assert (zlen (asSlice a) * 8 = bitLen a /\ zlen (asSlice b) * 8 = bitLen a /\ bitLen b = bitLen a) as (La & Lb & Le).
  { rewrite !zlen_asSlice by done. destruct a, b; try done. }
  assert (bytes_ok (asSlice a) /\ bytes_ok (asSlice b)) as [Ba Bb].
  { destruct a, b; try done; simpl in *; naive_solver. }
  pose proof (equalBits_spec (asSlice a) (asSlice b) k ltac:(unfold zlen in *; lia) Ba Bb ltac:(lia)) as He.
  unfold addrPrefix. rewrite Le. replace (bitLen a - k) with (8 * zlen (asSlice a) - k) by lia.
  replace (8 * zlen (asSlice b) - k) with (8 * zlen (asSlice a) - k) in He by lia. rewrite <- He.
  destruct (Z.ltb_spec limit (equalBits (asSlice a) (asSlice b))); lia.
Qed.
