(* ===== verification/NetworkConfig.v ===== *)
(** * Building a network snapshot

    [buildNetworkState] of [config.go] with the normalisation of the socket
    defaults: every check in the order of the code with its error text, and the
    theorem that an accepted configuration satisfies the invariant of
    [NetworkLaws.v]. *)

From stdpp Require Import strings gmap.
From S2P Require Import Prelude Addr Windows ByteBuffers IpPacket Congestion Established Network NetworkLaws.

#[local] Open Scope string_scope.
#[local] Open Scope Z_scope.

(** ** Results of the checks *)

Inductive checked (T : Type) :=
| Accept (value : T)
| Reject (message : string)
| Crash.
Arguments Accept {T} value.
Arguments Reject {T} message.
Arguments Crash {T}.

#[global] Instance checked_ret : MRet checked := @Accept.
#[global] Instance checked_bind : MBind checked := fun A B f m =>
  match m with Accept a => f a | Reject message => Reject message | Crash => Crash end.

(** A Go panic inside a checked computation. *)
Definition noPanic {T} (o : outcome T) : checked T :=
  match o with Ret a => Accept a | _ => Crash end.

(** ** Configuration *)

Definition defaultMTU : Z := 1500.
Definition tcpReceiveCapacity : Z := 1024 * 1024.
Definition tcpAcceptQueue : Z := 128.
Definition tcpSYNBacklog : Z := 256.
Definition tcpDefaultKeepAliveIdle : Z := 2 * 60 * minute.
Definition tcpDefaultKeepAliveInterval : Z := 75 * second.
Definition tcpDefaultKeepAliveCount : Z := 9.
Definition udpDefaultReceiveCapacity : Z := 4 * 1024 * 1024.
Definition udpDatagramMetadataSize : Z := 96.
Definition ipDefaultReceiveCapacity : Z := 4 * 1024 * 1024.
Definition ipDatagramMetadataSize : Z := 96.
Definition CongestionControlCUBIC : string := "cubic".

(** The map of address properties is the list of its entries in the order the
    loop visits them; nil routes are [None]. *)
Record Config (A : Type) := mkConfig {
  cg_LocalAddresses : list Prefix;
  cg_AddressProperties : list (Addr * AddressProperties);
  cg_PreferTemporaryAddresses : bool;
  cg_Promiscuous : bool;
  cg_MTU : Z;
  cg_Routes : option (list Route);
  cg_MaxTCPConnections : Z;
  cg_TCP : TCPSocketDefaults A;
  cg_UDP : DatagramSocketDefaults;
  cg_IP : IPSocketDefaults }.
Arguments cg_LocalAddresses {A}.
Arguments cg_AddressProperties {A}.
Arguments cg_PreferTemporaryAddresses {A}.
Arguments cg_Promiscuous {A}.
Arguments cg_MTU {A}.
Arguments cg_Routes {A}.
Arguments cg_MaxTCPConnections {A}.
Arguments cg_TCP {A}.
Arguments cg_UDP {A}.
Arguments cg_IP {A}.

(** ** Socket defaults *)

(** [PathMTUDiscovery.valid]: from [PathMTUDiscoveryDont] to [PathMTUDiscoveryOmit]. *)
Definition pathMTUDiscoveryValid (mode : Z) : bool := (0 <=? mode) && (mode <=? 5).

(** A zero field takes the default. *)
Definition orDefault (value fallback : Z) : Z := if value =? 0 then fallback else value.

Definition normalizeDatagramSocketDefaults (value : DatagramSocketDefaults) (defaultReceiveBuffer minimumReceiveBuffer : Z)
    : checked DatagramSocketDefaults :=
  if (dd_ReceiveBuffer value <? 0) || (dd_HopLimit value <? 0) || (255 <? dd_HopLimit value)
     || (dd_MulticastHopLimit value <? 0) || (255 <? dd_MulticastHopLimit value)
  then Reject "receive buffer and hop limit must be valid"
  else if negb (pathMTUDiscoveryValid (dd_PathMTUDiscovery value)) then Reject "unsupported path MTU discovery mode"
  else if ipv6MaximumFlowLabel <? dd_FlowLabel value then Reject "flow label exceeds 20 bits"
  else
    let receiveBuffer := if dd_ReceiveBuffer value =? 0 then defaultReceiveBuffer
                         else if dd_ReceiveBuffer value <? minimumReceiveBuffer then minimumReceiveBuffer
                         else dd_ReceiveBuffer value in
    Accept (value <| dd_ReceiveBuffer := receiveBuffer |>
                  <| dd_HopLimit := orDefault (dd_HopLimit value) 64 |>
                  <| dd_MulticastHopLimit := orDefault (dd_MulticastHopLimit value) 1 |>).

Definition normalizeUDPSocketDefaults (value : DatagramSocketDefaults) : checked DatagramSocketDefaults :=
  normalizeDatagramSocketDefaults value udpDefaultReceiveCapacity udpDatagramMetadataSize.

Definition normalizeIPSocketDefaults (value : IPSocketDefaults) : checked IPSocketDefaults :=
  defaults ← normalizeDatagramSocketDefaults (id_DatagramSocketDefaults value) ipDefaultReceiveCapacity ipDatagramMetadataSize;
  Accept (value <| id_DatagramSocketDefaults := defaults |>).

(** An error of the shared checks is wrapped with the name of the sockets. *)
Definition wrapError {T} (prefix : string) (c : checked T) : checked T :=
  match c with Reject message => Reject (prefix ++ message) | _ => c end.

(** The factory a configuration selects. *)
Definition selectedFactory {A} (registry : congestionRegistry A) (value : TCPSocketDefaults A)
    : checked (CongestionControlDefinition A) :=
  match td_CongestionControlFactory value with
  | Some factory =>
      if negb (bool_decide (td_CongestionControl value = EmptyString))
      then Reject "mipstack: TCP congestion control name and factory are mutually exclusive"
      else if negb (factoryValid (Some factory)) then Reject "mipstack: invalid TCP congestion control factory"
      else Accept factory
  | None =>
      let name := if bool_decide (td_CongestionControl value = EmptyString) then CongestionControlCUBIC
                  else td_CongestionControl value in
      match registeredCongestionControlFactory registry name with
      | None => Reject "mipstack: unsupported congestion control"
      | Some factory => Accept factory
      end
  end.

Definition normalizeTCPSocketDefaults {A} (registry : congestionRegistry A) (value : TCPSocketDefaults A)
    : checked (TCPSocketDefaults A) :=
  factory ← selectedFactory registry value;
  if (td_ReceiveBuffer value <? 0) || (td_MaximumReceiveBuffer value <? 0) || (td_SendBuffer value <? 0)
     || (td_MaximumSendBuffer value <? 0) || (td_AcceptQueue value <? 0) || (td_SYNBacklog value <? 0)
     || (td_IdleTimeout value <? 0) || (td_UserTimeout value <? 0)
  then Reject "mipstack: TCP socket defaults cannot be negative"
  else if ipv6MaximumFlowLabel <? td_FlowLabel value then Reject "mipstack: TCP flow label exceeds 20 bits"
  else
    let receiveBuffer := orDefault (td_ReceiveBuffer value) tcpReceiveCapacity in
    let maximumReceiveBuffer := orDefault (td_MaximumReceiveBuffer value) tcpMaximumReceiveCapacity in
    let sendBuffer := orDefault (td_SendBuffer value) tcpSendCapacity in
    let maximumSendBuffer := orDefault (td_MaximumSendBuffer value) tcpMaximumSendCapacity in
    if (maximumReceiveBuffer <? receiveBuffer) || (maximumSendBuffer <? sendBuffer)
    then Reject "mipstack: TCP automatic buffer maximum is below its initial size"
    else if tcpMaximumScaledWindow <? maximumReceiveBuffer
    then Reject "mipstack: TCP receive buffer maximum exceeds the RFC 7323 window limit"
    else
      let keepAlive := td_KeepAliveConfig value in
      let idle := orDefault (ka_Idle keepAlive) tcpDefaultKeepAliveIdle in
      let interval := orDefault (ka_Interval keepAlive) tcpDefaultKeepAliveInterval in
      let count := orDefault (ka_Count keepAlive) tcpDefaultKeepAliveCount in
      if (idle <? 0) || (interval <? 0) || (count <? 0)
      then Reject "mipstack: TCP keepalive defaults cannot be negative"
      else
        Accept (mkTCPDefaults EmptyString (Some factory) receiveBuffer maximumReceiveBuffer sendBuffer maximumSendBuffer
                  (td_MaximumPacingRate value) (orDefault (td_AcceptQueue value) tcpAcceptQueue)
                  (orDefault (td_SYNBacklog value) tcpSYNBacklog) (td_KeepAlive value) (mkKeepAlive idle interval count)
                  (td_IdleTimeout value) (td_UserTimeout value) (td_DisableNoDelay value)
                  (td_TrafficClass value .& 252) (td_FlowLabel value)).

(** ** Local addresses *)

(** What the loop over [LocalAddresses] has built. *)
Record localScan := mkScan {
  sc_configured : gset Prefix;
  sc_local : gset Addr;
  sc_sources : list Addr;
  sc_bits : list Z;
  sc_prefixes : list Prefix;
  sc_broadcast : gset Addr }.

#[export] Instance localScan_settable : Settable localScan :=
  fun r => mkScan (sc_configured r) (sc_local r) (sc_sources r) (sc_bits r) (sc_prefixes r) (sc_broadcast r).

Definition emptyScan : localScan := mkScan ∅ ∅ [] [] [] ∅.

(** The first index of [address] keeps the longer prefix. *)
Fixpoint raiseBits (address : Addr) (bits : Z) (sources : list Addr) (prefixBits : list Z) : option (list Z) :=
  match sources with
  | [] => Some prefixBits
  | source :: rest =>
      match prefixBits with
      | old :: others =>
          if bool_decide (source = address) then Some ((if old <? bits then bits else old) :: others)
          else others' ← raiseBits address bits rest others; Some (old :: others')
      | [] => if bool_decide (source = address) then None else raiseBits address bits rest []
      end
  end.

(** The prefix length of a prefix as it applies to the unmapped address. *)
Definition unmappedBits (prefix : Prefix) : Z :=
  let address := unmap (p_addr prefix) in
  if is6 (p_addr prefix) && is4 address then p_bits prefix - 96 else p_bits prefix.

Definition addLocal (scan : localScan) (prefix : Prefix) : checked localScan :=
  let address := unmap (p_addr prefix) in
  if negb (prefixValid prefix) || negb (isValid address) || isUnspecified address || isMulticast address || hasZone address
  then Reject "mipstack: invalid local address"
  else
    let bits := unmappedBits prefix in
    if (bits <? 0) || (bitLen address <? bits) then Reject "mipstack: invalid local prefix"
    else
      broadcast ← (if is4 address then noPanic (isIPv4Broadcast prefix address bits) else Accept false);
      if (broadcast : bool) then Reject "mipstack: IPv4 broadcast address cannot be local"
      else
        let configuredPrefix := prefixFrom address bits in
        if bool_decide (configuredPrefix ∈ sc_configured scan) then Accept scan
        else
          let scan := scan <| sc_configured := {[configuredPrefix]} ∪ sc_configured scan |> in
          scan ← (if negb (bool_decide (address ∈ sc_local scan))
                  then Accept (scan <| sc_local := {[address]} ∪ sc_local scan |>
                                    <| sc_sources := (sc_sources scan ++ [address])%list |>
                                    <| sc_bits := (sc_bits scan ++ [bits])%list |>)
                  else
                    match raiseBits address bits (sc_sources scan) (sc_bits scan) with
                    | Some raised => Accept (scan <| sc_bits := raised |>)
                    | None => Crash
                    end);
          let network := masked (prefixFrom address bits) in
          let scan := scan <| sc_prefixes := (sc_prefixes scan ++ [network])%list |> in
          found ← noPanic (ipv4BroadcastAddress network);
          match found with
          | Some broadcast => Accept (scan <| sc_broadcast := {[broadcast]} ∪ sc_broadcast scan |>)
          | None => Accept scan
          end.

Fixpoint addLocals (scan : localScan) (prefixes : list Prefix) : checked localScan :=
  match prefixes with
  | [] => Accept scan
  | prefix :: rest => scan ← addLocal scan prefix; addLocals scan rest
  end.

(** ** Address properties *)

Fixpoint addProperties (local : gset Addr) (known : gmap Addr AddressProperties) (entries : list (Addr * AddressProperties))
    : checked (gmap Addr AddressProperties) :=
  match entries with
  | [] => Accept known
  | (address, properties) :: rest =>
      let normalized := unmap address in
      if negb (isValid address) || hasZone address || negb (isValid normalized) || isUnspecified normalized || isMulticast normalized
      then Reject "mipstack: invalid address-properties key"
      else if negb (bool_decide (normalized ∈ local))
      then Reject "mipstack: address properties refer to a nonlocal address"
      else if ap_Temporary properties && is4 normalized
      then Reject "mipstack: temporary source property requires IPv6"
      else
        let conflict := match known !! normalized with
                        | Some existing => negb (bool_decide (existing = properties))
                        | None => false
                        end in
        if conflict then Reject "mipstack: conflicting address properties"
        else addProperties local (<[normalized := properties]> known) rest
  end.

(** ** Routes *)

Definition normalizeRoutePrefix (prefix : Prefix) : checked Prefix :=
  if negb (prefixValid prefix) || hasZone (p_addr prefix) then Reject "mipstack: invalid route destination"
  else
    let address := unmap (p_addr prefix) in
    let bits := unmappedBits prefix in
    if (bits <? 0) || (bitLen address <? bits) then Reject "mipstack: invalid route destination"
    else Accept (masked (prefixFrom address bits)).

(** The source of a route: checked when given, the zero address otherwise. *)
Definition normalizeRouteSource (local : gset Addr) (source : Addr) (destination : Prefix) : checked Addr :=
  let normalized := unmap source in
  if isValid source then
    if negb (isValid normalized) || isUnspecified normalized || isMulticast normalized || hasZone normalized
       || negb (Bool.eqb (is6 normalized) (is6 (p_addr destination)))
    then Reject "mipstack: invalid route source"
    else if negb (bool_decide (normalized ∈ local)) then Reject "mipstack: route source is not local"
    else Accept normalized
  else Accept AddrInvalid.

(** The loop over [Routes], with [haveIPv6Output]. *)
Fixpoint addRoutes (local : gset Addr) (haveLocal4 haveLocal6 promiscuous : bool) (routes : list Route)
    (haveIPv6Output : bool) (entries : list Route) : checked (list Route * bool) :=
  match entries with
  | [] => Accept (routes, haveIPv6Output)
  | route :: rest =>
      destination ← normalizeRoutePrefix (ro_Destination route);
      source ← normalizeRouteSource local (ro_Source route) destination;
      let v6 := is6 (p_addr destination) in
      let familyAvailable := if v6 then haveLocal6 else haveLocal4 in
      let haveIPv6Output := if v6 then true else haveIPv6Output in
      if negb familyAvailable && negb promiscuous then Reject "mipstack: route has no local address in its family"
      else addRoutes local haveLocal4 haveLocal6 promiscuous
             (routes ++ [mkRoute destination source (ro_Metric route)])%list haveIPv6Output rest
  end.

(** The routes of a configuration that lists none. *)
Definition defaultRoutes (addressless haveLocal4 haveLocal6 haveIPv6Output : bool) : list Route * bool :=
  let default4 := if addressless then true else haveLocal4 in
  let default6 := if addressless then true else haveLocal6 in
  (((if default4 then [mkRoute (prefixFrom ipv4Unspecified 0) AddrInvalid 0] else [])
    ++ (if default6 then [mkRoute (prefixFrom ipv6Unspecified 0) AddrInvalid 0] else []))%list,
   if default6 then true else haveIPv6Output).

Definition buildNetworkState {A} (registry : congestionRegistry A) (config : Config A) : checked (networkState A) :=
  let mtu := if cg_MTU config =? 0 then defaultMTU else cg_MTU config in
  if (mtu <? 68) || (65535 <? mtu) then Reject "mipstack: MTU must be between 68 and 65535"
  else if cg_MaxTCPConnections config <? 0 then Reject "mipstack: maximum TCP connections cannot be negative"
  else
    tcpDefaults ← normalizeTCPSocketDefaults registry (cg_TCP config);
    udpDefaults ← wrapError "mipstack: invalid UDP socket defaults: " (normalizeUDPSocketDefaults (cg_UDP config));
    ipDefaults ← wrapError "mipstack: invalid IP socket defaults: " (normalizeIPSocketDefaults (cg_IP config));
    scan ← addLocals emptyScan (cg_LocalAddresses config);
    if existsb (fun address => bool_decide (address ∈ sc_broadcast scan)) (elements (sc_local scan))
    then Reject "mipstack: IPv4 broadcast address cannot be local"
    else
      addressProperties ← addProperties (sc_local scan) ∅ (cg_AddressProperties config);
      let addressless := bool_decide (size (sc_local scan) = 0%nat) in
      if addressless && negb (cg_Promiscuous config) then Reject "mipstack: at least one local address is required"
      else
        let haveLocal4 := existsb is4 (sc_sources scan) in
        let haveLocal6 := existsb (fun source => negb (is4 source)) (sc_sources scan) in
        '(routes, haveIPv6Output) ←
          (match cg_Routes config with
           | Some entries => addRoutes (sc_local scan) haveLocal4 haveLocal6 (cg_Promiscuous config) [] haveLocal6 entries
           | None => Accept (defaultRoutes addressless haveLocal4 haveLocal6 haveLocal6)
           end) : checked (list Route * bool);
        if (mtu <? ipv6MinimumMTU) && haveIPv6Output then Reject "mipstack: IPv6 requires an MTU of at least 1280"
        else
          Accept (mkNetworkState mtu (cg_MaxTCPConnections config) (cg_Promiscuous config) tcpDefaults udpDefaults ipDefaults
                    (sc_local scan) (sc_broadcast scan) (sc_sources scan) (sc_bits scan) (sc_prefixes scan) routes
                    addressProperties (cg_PreferTemporaryAddresses config)).
