(* ===== verification/NetworkInvariant.v ===== *)
(** * Every accepted configuration gives a snapshot in the invariant

    The loop over local addresses with its accumulator, address properties,
    routes, and the theorem about [buildNetworkState]; then the comparison of
    snapshots, the normal form of socket defaults, and the witnesses of routing
    and source selection on a sample configuration. *)

From stdpp Require Import strings gmap.
From S2P Require Import Prelude Addr Windows ByteBuffers IpPacket Congestion Established Network NetworkLaws NetworkConfig.

(** ** Masked prefixes are in normal form *)

Lemma value_bound n b : bytes_ok b -> length b = n -> 0 <= be_val b < 2 ^ (8 * Z.of_nat n).
Proof.
  intros Hb Hl. pose proof (be_val_bound b Hb) as Hv. unfold zlen in Hv. rewrite Hl in Hv.
  rewrite Z.pow_mul_r by lia. exact Hv.
Qed.

Lemma masked_bytes n b width bits : bytes_ok b -> length b = n -> width = 8 * Z.of_nat n -> 0 <= bits <= width ->
  be_val (be_bytes n (be_val b .& highMask width bits)) = be_val b .& highMask width bits.
Proof.
  intros Hb Hl -> Hbits. pose proof (value_bound n b Hb Hl) as Hv. pose proof (highMask_bound _ _ bits Hv Hbits).
  rewrite be_val_be_bytes. change 256 with (2 ^ 8). rewrite <- Z.pow_mul_r by lia. apply Z.mod_small. lia.
Qed.

Lemma remask v width bits : (v .& highMask width bits) .& highMask width bits = v .& highMask width bits.
Proof. by rewrite <- Z.land_assoc, Z.land_diag. Qed.

(** An IPv6 address maps an IPv4 one when its first 96 bits are the prefix's. *)
Lemma is4In6_value b z : length b = 16%nat -> bytes_ok b -> is4In6 (Addr6 b z) = true <-> be_val b / 2 ^ 32 = 65535.
Proof.
  intros Hl Hb. unfold is4In6. rewrite bool_decide_eq_true.
  assert (be_val b / 2 ^ 32 = be_val (take 12 b)) as ->.
  { rewrite <- (take_drop 12 b) at 1. rewrite be_val_app. rewrite zlen_drop. unfold zlen. rewrite Hl.
    change (Z.max 0 (Z.of_nat 16 - Z.of_nat 12)) with 4. change (256 ^ 4) with (2 ^ 32).
    pose proof (be_val_bound (drop 12 b) (bytes_ok_drop 12 _ Hb)) as Hd. rewrite zlen_drop in Hd. unfold zlen in Hd. rewrite Hl in Hd.
    change (256 ^ Z.max 0 (Z.of_nat 16 - Z.of_nat 12)) with (2 ^ 32) in Hd.
    rewrite Z.div_add_l, (Z.div_small (be_val (drop 12 b))) by lia. lia. }
  split; [by intros ->|]. intros Hv.
  rewrite <- (be_bytes_be_val (take 12 b)) by auto with mips. rewrite length_take, Hl, Hv. done.
Qed.

Lemma even_quotient v : v mod 2 ^ 33 = 0 -> v / 2 ^ 32 <> 65535.
Proof. intros Hm Hq. zlia. Qed.

(** A mask of at least 96 bits keeps the first 96. *)
Lemma mask_high v bits : 0 <= v < 2 ^ 128 -> 96 <= bits <= 128 -> (v .& highMask 128 bits) / 2 ^ 32 = v / 2 ^ 32.
Proof.
  intros Hv Hb. rewrite highMask_value by lia.
  pose proof (Z.pow_pos_nonneg 2 (128 - bits) ltac:(lia) ltac:(lia)).
  pose proof (Z.pow_pos_nonneg 2 (32 - (128 - bits)) ltac:(lia) ltac:(lia)).
  replace (2 ^ 32) with (2 ^ (32 - (128 - bits)) * 2 ^ (128 - bits)) by (rewrite <- Z.pow_add_r by lia; f_equal; lia).
  rewrite Z.div_mul_cancel_r, Z.div_div by lia. by rewrite (Z.mul_comm (2 ^ (128 - bits))).
Qed.

(** Masking does not make an address a mapped one. *)
Lemma mask_unmapped b z bits : length b = 16%nat -> bytes_ok b -> 0 <= bits <= 128 -> is4In6 (Addr6 b z) = false ->
  is4In6 (Addr6 (be_bytes 16 (be_val b .& highMask 128 bits)) noZone) = false.
Proof.
  intros Hl Hb Hbits H. apply not_true_iff_false. intros Hm. apply not_true_iff_false in H. apply H. clear H.
  apply (is4In6_value b z Hl Hb).
  apply (is4In6_value _ noZone (length_be_bytes 16 _) (be_bytes_ok 16 _)) in Hm.
  pose proof (value_bound 16 b Hb Hl) as Hv. change (8 * Z.of_nat 16) with 128 in Hv.
  rewrite (masked_bytes 16 b 128 bits) in Hm by done.
  destruct (decide (96 <= bits)) as [H96|H96]; [by rewrite mask_high in Hm by lia|].
  exfalso. apply even_quotient in Hm; [done|]. rewrite highMask_value by lia.
  replace (2 ^ (128 - bits)) with (2 ^ (95 - bits) * 2 ^ 33) by (rewrite <- Z.pow_add_r by lia; f_equal; lia).
  rewrite Z.mul_assoc. by apply Z.mod_mul.
Qed.

Lemma unmapped_6 b z : unmap (Addr6 b z) = Addr6 b z -> is4In6 (Addr6 b z) = false.
Proof. unfold unmap. by destruct (is4In6 (Addr6 b z)). Qed.

(** The masked prefix of an unmapped address. *)
Lemma masked_normal a bits : addrOk a -> isValid a = true -> unmap a = a -> 0 <= bits <= bitLen a ->
  normalPrefix (masked (prefixFrom a bits)) /\ p_bits (masked (prefixFrom a bits)) = bits /\
  is4 (p_addr (masked (prefixFrom a bits))) = is4 a /\ is6 (p_addr (masked (prefixFrom a bits))) = is6 a.
Proof.
  intros Ha Hv Hu Hb.
  assert (masked (prefixFrom a bits) = mkPrefix (withoutZone (maskAddr a bits)) bits) as E.
  { unfold masked, prefixFrom. rewrite Hv. assert (bitLen (withoutZone a) = bitLen a) as El by by destruct a.
    cbn [p_addr p_bits]. rewrite (proj2 (Z.leb_le 0 bits)), (proj2 (Z.leb_le bits (bitLen a))) by lia. cbn [andb].
    rewrite El, (proj2 (Z.ltb_ge bits 0)), (proj2 (Z.ltb_ge (bitLen a) bits)) by lia.
    destruct a; try done; cbn -[be_bytes]; rewrite (proj2 (Z.leb_le 0 bits)), (proj2 (Z.leb_le bits _)) by (simpl in Hb; lia); done. }
  rewrite E. cbn [p_addr p_bits]. split; [|destruct a; done].
  destruct a as [|b|b z]; try done; destruct Ha as [Hl Hok]; simpl in Hb; cbn -[be_bytes unmap] in *.
  - assert (masked (mkPrefix (Addr4 (be_bytes 4 (be_val b .& highMask 32 bits))) bits) =
            mkPrefix (Addr4 (be_bytes 4 (be_val b .& highMask 32 bits))) bits) as Em.
    { unfold masked. cbn -[be_bytes]. rewrite (proj2 (Z.ltb_ge bits 0)), (proj2 (Z.ltb_ge 32 bits)) by lia. cbn -[be_bytes].
      rewrite (masked_bytes 4 b 32 bits), remask by (done || lia). unfold prefixFrom. cbn -[be_bytes].
      by rewrite (proj2 (Z.leb_le 0 bits)), (proj2 (Z.leb_le bits 32)) by lia. }
    split; [|split; [|split; [exact Em|done]]].
    + split; [split; [apply length_be_bytes|apply be_bytes_ok]|]. split; [done|]. split; [cbn; lia|done].
    + apply Z.leb_le. cbn. lia.
  - assert (is4In6 (Addr6 (be_bytes 16 (be_val b .& highMask 128 bits)) noZone) = false) as Hn.
    { apply (mask_unmapped b z); try done. by apply unmapped_6. }
    assert (masked (mkPrefix (Addr6 (be_bytes 16 (be_val b .& highMask 128 bits)) noZone) bits) =
            mkPrefix (Addr6 (be_bytes 16 (be_val b .& highMask 128 bits)) noZone) bits) as Em.
    { unfold masked. cbn -[be_bytes]. rewrite (proj2 (Z.ltb_ge bits 0)), (proj2 (Z.ltb_ge 128 bits)) by lia. cbn -[be_bytes].
      rewrite (masked_bytes 16 b 128 bits), remask by (done || lia). unfold prefixFrom. cbn -[be_bytes].
      by rewrite (proj2 (Z.leb_le 0 bits)), (proj2 (Z.leb_le bits 128)) by lia. }
    split; [|split; [|split; [exact Em|]]].
    + split; [split; [apply length_be_bytes|apply be_bytes_ok]|]. split; [done|]. split; [cbn; lia|done].
    + apply Z.leb_le. cbn. lia.
    + unfold unmap. cbn [p_addr]. by rewrite Hn.
Qed.

(** ** The loop over local addresses *)

(** A prefix as the loop records it. *)
Definition acceptedPrefix (q : Prefix) : Prop :=
  prefixOk q /\ ownable (unmap (p_addr q)) /\ 0 <= unmappedBits q <= bitLen (unmap (p_addr q)).

Lemma accepted_from q : acceptedPrefix q ->
  prefixFrom (unmap (p_addr q)) (unmappedBits q) = mkPrefix (unmap (p_addr q)) (unmappedBits q).
Proof.
  intros (_ & (_ & Hv & _ & _ & _ & Hz) & Hb). unfold prefixFrom. rewrite Hv.
  rewrite (proj2 (Z.leb_le _ _)), (proj2 (Z.leb_le _ _)) by lia. f_equal.
  destruct (unmap (p_addr q)) as [| |b z]; try done. unfold hasZone in Hz. simpl in *.
  apply negb_false_iff, bool_decide_eq_true in Hz. by subst.
Qed.

(** The accumulator after the prefixes [seen]. *)
Record scanOk (seen : list Prefix) (scan : localScan) : Prop := {
  so_seen : Forall acceptedPrefix seen;
  so_configured : forall p, p ∈ sc_configured scan <-> exists q, q ∈ seen /\ p = prefixFrom (unmap (p_addr q)) (unmappedBits q);
  so_nodup : NoDup (sc_sources scan);
  so_local : forall a, a ∈ sc_local scan <-> a ∈ sc_sources scan;
  so_sources : forall a, a ∈ sc_sources scan <-> exists q, q ∈ seen /\ unmap (p_addr q) = a;
  so_length : length (sc_sources scan) = length (sc_bits scan);
  so_longest : forall i a bits, sc_sources scan !! i = Some a -> sc_bits scan !! i = Some bits ->
    (exists q, q ∈ seen /\ unmap (p_addr q) = a /\ unmappedBits q = bits) /\
    (forall q, q ∈ seen -> unmap (p_addr q) = a -> unmappedBits q <= bits);
  so_limited : limitedBroadcast ∉ sc_sources scan;
  so_prefixes : Forall normalPrefix (sc_prefixes scan);
  so_broadcast : forall a, a ∈ sc_broadcast scan <->
    exists p, p ∈ sc_prefixes scan /\ ipv4BroadcastAddress p = Ret (Some a) }.

Lemma emptyScan_ok : scanOk [] emptyScan.
Proof.
  split; simpl; try done; try (intros; split); try set_solver; try apply NoDup_nil_2.
Qed.

Lemma raiseBits_spec address bits sources prefixBits i old : NoDup sources -> length sources = length prefixBits ->
  sources !! i = Some address -> prefixBits !! i = Some old ->
  raiseBits address bits sources prefixBits = Some (<[i := Z.max old bits]> prefixBits).
Proof.
  revert prefixBits i. induction sources as [|s rest IH]; intros [|p others] i Hnd Hl Hi Hp; try done.
  apply list.NoDup_cons in Hnd as [Hn Hnd]. injection Hl as Hl. simpl. destruct i as [|i]; simpl in *.
  - injection Hi as ->. injection Hp as ->. rewrite bool_decide_eq_true_2 by done. do 2 f_equal.
    destruct (Z.ltb_spec old bits); lia.
  - rewrite bool_decide_eq_false_2 by (intros ->; apply Hn; by eapply list_elem_of_lookup_2).
    by rewrite (IH others i Hnd Hl Hi Hp).
Qed.

(** A directed broadcast check of an accepted prefix cannot panic. *)
Lemma addLocal_broadcast q : prefixOk q -> 0 <= unmappedBits q <= bitLen (unmap (p_addr q)) -> is4 (unmap (p_addr q)) = true ->
  exists b, isIPv4Broadcast q (unmap (p_addr q)) (unmappedBits q) = Ret b /\
    (unmap (p_addr q) = limitedBroadcast -> b = true).
Proof.
  intros (Ha & Hz & Hb & Hi) Hub H4. destruct q as [a bits]. simpl in *.
  assert (exists network, as4 (unmap (p_addr (masked (mkPrefix a bits)))) = Some network) as [network Hn].
  { unfold unmappedBits in Hub. simpl in Hub. destruct a as [|b|b z]; try done.
    - unfold masked. cbn -[be_bytes unmap] in *. rewrite (proj2 (Z.ltb_ge bits 0)), (proj2 (Z.ltb_ge 32 bits)) by lia.
      unfold prefixFrom. cbn -[be_bytes]. eauto.
    - assert (is4In6 (Addr6 b z) = true) as Hm.
      { unfold unmap in H4. by destruct (is4In6 (Addr6 b z)). }
      destruct Ha as [Hl Hok]. unfold masked. cbn -[be_bytes unmap is4In6] in *. rewrite H4 in Hub. 
      assert (bitLen (unmap (Addr6 b z)) = 32) as Hbl by (by destruct (unmap (Addr6 b z))).
      rewrite Hbl in Hub.
      rewrite (proj2 (Z.ltb_ge bits 0)), (proj2 (Z.ltb_ge 128 bits)) by lia.
      unfold prefixFrom. cbn -[be_bytes unmap].
      assert (is4In6 (Addr6 (be_bytes 16 (be_val b .& highMask 128 bits)) noZone) = true) as Hm2.
      { apply (is4In6_value _ noZone (length_be_bytes 16 _) (be_bytes_ok 16 _)).
        apply (is4In6_value b z Hl Hok) in Hm. pose proof (value_bound 16 b Hok Hl) as Hv. change (8 * Z.of_nat 16) with 128 in Hv.
        rewrite (masked_bytes 16 b 128 bits) by (done || lia). by rewrite mask_high by lia. }
      unfold as4. rewrite unmap_idem. unfold unmap. rewrite Hm2. eauto. }
  unfold isIPv4Broadcast. rewrite Hn.
  assert (as4 (unmap a) = Some (asSlice (unmap a))) as ->.
  { unfold as4. rewrite unmap_idem. by destruct (unmap a). }
  cbn. destruct (Z.eqb_spec (be_val (asSlice (unmap a))) 4294967295) as [E|E]; [eauto|].
  destruct (31 <=? _); eexists; (split; [done|]); intros Hlim; exfalso; apply E; by rewrite Hlim.
Qed.

(** The part of [addLocal] behind its checks. *)
Definition recordLocal (scan : localScan) (q : Prefix) : checked localScan :=
  let address := unmap (p_addr q) in
  let bits := unmappedBits q in
  if bool_decide (mkPrefix address bits ∈ sc_configured scan) then Accept scan
  else
    let scan := scan <| sc_configured := {[mkPrefix address bits]} ∪ sc_configured scan |> in
    scan ← (if negb (bool_decide (address ∈ sc_local scan))
            then Accept (scan <| sc_local := {[address]} ∪ sc_local scan |>
                              <| sc_sources := (sc_sources scan ++ [address])%list |>
                              <| sc_bits := (sc_bits scan ++ [bits])%list |>)
            else
              match raiseBits address bits (sc_sources scan) (sc_bits scan) with
              | Some raised => Accept (scan <| sc_bits := raised |>)
              | None => Crash
              end);
    let network := masked (mkPrefix address bits) in
    let scan := scan <| sc_prefixes := (sc_prefixes scan ++ [network])%list |> in
    found ← noPanic (ipv4BroadcastAddress network);
    match found with
    | Some broadcast => Accept (scan <| sc_broadcast := {[broadcast]} ∪ sc_broadcast scan |>)
    | None => Accept scan
    end.

Lemma addLocal_record scan q : prefixOk q ->
  (exists message, addLocal scan q = Reject message) \/
  (addLocal scan q = recordLocal scan q /\ acceptedPrefix q /\ unmap (p_addr q) <> limitedBroadcast).
Proof.
  intros Hq. unfold addLocal. destruct (_ || hasZone _) eqn:E1; [eauto|].
  destruct ((_ <? 0) || _) eqn:E2; [eauto|]. apply orb_false_iff in E2 as [E2 E3]. 
  rewrite !orb_false_iff, !negb_false_iff in E1. destruct E1 as [[[[Hv Hva] Hun] Hmu] Hz].
  assert (acceptedPrefix q) as Ha.
  { split; [done|]. split; [|lia]. repeat split; try done; [apply unmap_ok, Hq|apply unmap_idem]. }
  rewrite (accepted_from q Ha).
  destruct (is4 (unmap (p_addr q))) eqn:H4.
  - destruct (addLocal_broadcast q Hq ltac:(lia) H4) as (b & -> & Hl). cbn [noPanic mbind checked_bind]. destruct b; [eauto|].
    right. split; [done|]. split; [done|]. intros Hlim. by specialize (Hl Hlim).
  - right. split; [done|]. split; [done|]. intros Hlim. by rewrite Hlim in H4.
Qed.

Section ScanSteps.
Context (seen : list Prefix) (scan : localScan) (q : Prefix) (Hs : scanOk seen scan)
  (Hq : acceptedPrefix q) (Hlim : unmap (p_addr q) <> limitedBroadcast).

Lemma seen_snoc : Forall acceptedPrefix (seen ++ [q]).
Proof. apply list.Forall_app. split; [apply Hs|]. by apply list.Forall_singleton. Qed.

Lemma sources_snoc a : (exists q', q' ∈ seen ++ [q] /\ unmap (p_addr q') = a) <-> a ∈ sc_sources scan \/ a = unmap (p_addr q).
Proof.
  rewrite (so_sources _ _ Hs). setoid_rewrite elem_of_app. setoid_rewrite list_elem_of_singleton. naive_solver.
Qed.

Lemma configured_snoc p : p ∈ {[mkPrefix (unmap (p_addr q)) (unmappedBits q)]} ∪ sc_configured scan <->
  exists q', q' ∈ seen ++ [q] /\ p = prefixFrom (unmap (p_addr q')) (unmappedBits q').
Proof.
  rewrite elem_of_union, elem_of_singleton, (so_configured _ _ Hs), <- (accepted_from q Hq).
  setoid_rewrite elem_of_app. setoid_rewrite list_elem_of_singleton. naive_solver.
Qed.

(** An entry already configured adds nothing. *)
Lemma scanOk_duplicate : mkPrefix (unmap (p_addr q)) (unmappedBits q) ∈ sc_configured scan -> scanOk (seen ++ [q]) scan.
Proof.
  intros Hc. pose proof (proj1 (so_configured _ _ Hs _) Hc) as (q0 & Hq0 & E).
  pose proof (so_seen _ _ Hs) as Hf. rewrite list.Forall_forall in Hf. rewrite (accepted_from q0 (Hf q0 Hq0)) in E. injection E as Ea Eb.
  split; try apply Hs.
  - apply seen_snoc.
  - intros p. rewrite <- configured_snoc, elem_of_union, elem_of_singleton. naive_solver.
  - intros a. rewrite sources_snoc. split; [by left|]. intros [?| ->]; [done|]. apply (so_sources _ _ Hs). exists q0. by rewrite Ea.
  - intros i a bits Hi Hb. destruct (so_longest _ _ Hs i a bits Hi Hb) as [(q' & ? & ? & ?) Hle]. split.
    + exists q'. rewrite elem_of_app. auto.
    + intros q'' [?| ->%list_elem_of_singleton]%elem_of_app Ha; [auto|]. rewrite Eb. apply Hle; [done|]. by rewrite <- Ea.
Qed.

(** A new address is appended with its prefix length. *)
Lemma scanOk_new : unmap (p_addr q) ∉ sc_local scan ->
  scanOk (seen ++ [q])
    (scan <| sc_configured := {[mkPrefix (unmap (p_addr q)) (unmappedBits q)]} ∪ sc_configured scan |>
          <| sc_local := {[unmap (p_addr q)]} ∪ sc_local scan |>
          <| sc_sources := (sc_sources scan ++ [unmap (p_addr q)])%list |>
          <| sc_bits := (sc_bits scan ++ [unmappedBits q])%list |>).
Proof.
  intros Hn. assert (unmap (p_addr q) ∉ sc_sources scan) as Hns by by rewrite <- (so_local _ _ Hs).
  split; cbn; try apply Hs.
  - apply seen_snoc.
  - apply configured_snoc.
  - apply list.NoDup_app. split; [apply Hs|]. split; [|apply NoDup_singleton]. intros x Hx ->%list_elem_of_singleton. done.
  - intros a. rewrite elem_of_union, elem_of_singleton, elem_of_app, list_elem_of_singleton, (so_local _ _ Hs). naive_solver.
  - intros a. rewrite sources_snoc, elem_of_app, list_elem_of_singleton. done.
  - rewrite !length_app, (so_length _ _ Hs). done.
  - intros i a bits Hi Hb. pose proof (so_length _ _ Hs) as Hl.
    apply lookup_app_Some in Hi as [Hi|[Hge Hi]].
    + rewrite lookup_app_l in Hb by (rewrite <- Hl; by eapply lookup_lt_Some).
      destruct (so_longest _ _ Hs i a bits Hi Hb) as [(q' & ? & ? & ?) Hle]. split.
      * exists q'. rewrite elem_of_app. auto.
      * intros q'' [?| ->%list_elem_of_singleton]%elem_of_app Ha; [auto|]. exfalso. apply Hns. rewrite Ha. by eapply list_elem_of_lookup_2.
    + apply list_lookup_singleton_Some in Hi as [Hi0 <-]. rewrite lookup_app_r in Hb by lia. rewrite <- Hl, Hi0 in Hb. injection Hb as <-. split.
      * exists q. rewrite elem_of_app, list_elem_of_singleton. auto.
      * intros q'' [Hin| ->%list_elem_of_singleton]%elem_of_app Ha; [|lia]. exfalso. apply Hns. apply (so_sources _ _ Hs). eauto.
  - rewrite elem_of_app, list_elem_of_singleton. intros [?|?]; [by apply (so_limited _ _ Hs)|done].
Qed.

(** A known address keeps the longer of its prefixes. *)
Lemma scanOk_raise : unmap (p_addr q) ∈ sc_local scan ->
  exists raised, raiseBits (unmap (p_addr q)) (unmappedBits q) (sc_sources scan) (sc_bits scan) = Some raised /\
  scanOk (seen ++ [q])
    (scan <| sc_configured := {[mkPrefix (unmap (p_addr q)) (unmappedBits q)]} ∪ sc_configured scan |> <| sc_bits := raised |>).
Proof.
  intros Hin. apply (so_local _ _ Hs) in Hin. pose proof (so_length _ _ Hs) as Hl.
  destruct (proj1 (list_elem_of_lookup _ _) Hin) as [i Hi].
  destruct (lookup_lt_is_Some_2 (sc_bits scan) i) as [old Hold]; [rewrite <- Hl; by eapply lookup_lt_Some|].
  eexists. split; [by apply raiseBits_spec with (i := i); [apply Hs|..]|].
  split; cbn; try apply Hs.
  - apply seen_snoc.
  - apply configured_snoc.
  - intros a. rewrite sources_snoc. split; [by left|]. by intros [?| ->].
  - by rewrite length_insert.
  - intros j a bits Hj Hb. destruct (decide (j = i)) as [->|Hne].
    + rewrite list_lookup_insert_eq in Hb by (by eapply lookup_lt_Some). injection Hb as <-.
      rewrite Hi in Hj. injection Hj as <-.
      destruct (so_longest _ _ Hs i _ old Hi Hold) as [(q' & ? & ? & Hq') Hle]. split.
      * destruct (decide (old <= unmappedBits q)).
        -- exists q. rewrite elem_of_app, list_elem_of_singleton, Z.max_r by done. auto.
        -- exists q'. rewrite elem_of_app, Z.max_l by lia. auto.
      * intros q'' [Hin2| ->%list_elem_of_singleton]%elem_of_app Ha; [|lia]. specialize (Hle q'' Hin2 Ha). lia.
    + rewrite list_lookup_insert_ne in Hb by done. destruct (so_longest _ _ Hs j a bits Hj Hb) as [(q' & ? & ? & ?) Hle]. split.
      * exists q'. rewrite elem_of_app. auto.
      * intros q'' [?| ->%list_elem_of_singleton]%elem_of_app Ha; [auto|]. exfalso. apply Hne.
        rewrite <- Ha in Hj. eapply NoDup_lookup; [apply Hs|done|done].
Qed.
End ScanSteps.

(** Recording the network of a prefix with its directed broadcast. *)
Lemma scanOk_network seen scan network : scanOk seen scan -> normalPrefix network ->
  exists found, ipv4BroadcastAddress network = Ret found /\
  scanOk seen
    (let scan := scan <| sc_prefixes := (sc_prefixes scan ++ [network])%list |> in
     match found with Some broadcast => scan <| sc_broadcast := {[broadcast]} ∪ sc_broadcast scan |> | None => scan end).
Proof.
  intros Hs Hn. eexists. split; [by apply ipv4BroadcastAddress_spec|].
  pose proof (ipv4BroadcastAddress_spec network Hn) as E. destruct (_ && _) in *.
  - split; cbn; try apply Hs; [apply list.Forall_app; split; [apply Hs|by apply list.Forall_singleton]|].
    intros a. rewrite elem_of_union, elem_of_singleton, (so_broadcast _ _ Hs). setoid_rewrite elem_of_app.
    setoid_rewrite list_elem_of_singleton. split; [intros [->|(p & ? & ?)]|intros (p & [?| ->] & Hp)]; eauto.
    rewrite E in Hp. injection Hp as <-. by left.
  - split; cbn; try apply Hs; [apply list.Forall_app; split; [apply Hs|by apply list.Forall_singleton]|].
    intros a. rewrite (so_broadcast _ _ Hs). setoid_rewrite elem_of_app. setoid_rewrite list_elem_of_singleton.
    split; [intros (p & ? & ?)|intros (p & [?| ->] & Hp)]; eauto. rewrite E in Hp. discriminate.
Qed.

Lemma recordLocal_ok seen scan q : scanOk seen scan -> acceptedPrefix q -> unmap (p_addr q) <> limitedBroadcast ->
  exists scan', recordLocal scan q = Accept scan' /\ scanOk (seen ++ [q]) scan'.
Proof.
  intros Hs Hq Hlim. unfold recordLocal. case_bool_decide as Hc.
  { exists scan. split; [done|]. by apply scanOk_duplicate. }
  pose proof (accepted_from q Hq) as Hf. destruct (masked_normal (unmap (p_addr q)) (unmappedBits q)) as (Hn & _).
  { apply Hq. } { apply Hq. } { apply unmap_idem. } { apply Hq. } rewrite Hf in Hn.
  case_bool_decide as Hl; cbn [negb].
  - destruct (scanOk_raise seen scan q Hs Hq Hl) as (raised & Hr & Hs1).
    destruct (scanOk_network _ _ _ Hs1 Hn) as (found & Hfo & Hs2).
    eexists. split; [|exact Hs2]. cbn -[raiseBits masked ipv4BroadcastAddress]. rewrite Hr. cbn -[masked ipv4BroadcastAddress].
    rewrite Hfo. by destruct found.
  - pose proof (scanOk_new seen scan q Hs Hq Hlim Hl) as Hs1.
    destruct (scanOk_network _ _ _ Hs1 Hn) as (found & Hfo & Hs2).
    eexists. split; [|exact Hs2]. cbn -[masked ipv4BroadcastAddress]. rewrite Hfo. by destruct found.
Qed.

Lemma addLocals_ok prefixes seen scan : Forall prefixOk prefixes -> scanOk seen scan ->
  match addLocals scan prefixes with
  | Accept scan' => scanOk (seen ++ prefixes) scan'
  | Reject _ => True
  | Crash => False
  end.
Proof.
  intros Hp. revert seen scan. induction Hp as [|q rest Hq Hp IH]; intros seen scan Hs; simpl; [by rewrite app_nil_r|].
  destruct (addLocal_record scan q Hq) as [[m ->]|(-> & Ha & Hl)]; [done|].
  destruct (recordLocal_ok seen scan q Hs Ha Hl) as (scan' & -> & Hs'). cbn [mbind checked_bind].
  specialize (IH _ _ Hs'). by rewrite <- app_assoc in IH.
Qed.

(** ** Address properties and routes *)

Lemma addProperties_spec local known entries :
  match addProperties local known entries with
  | Accept result =>
      (forall a p, known !! a = Some p -> result !! a = Some p) /\
      (forall a p, (a, p) ∈ entries -> result !! unmap a = Some p /\ unmap a ∈ local) /\
      (forall a p, result !! a = Some p -> known !! a = Some p \/ exists a', (a', p) ∈ entries /\ unmap a' = a)
  | Reject _ => True
  | Crash => False
  end.
Proof.
  revert known. induction entries as [|[address properties] rest IH]; intros known; simpl.
  { split; [done|]. split; [by intros ? ? ?%not_elem_of_nil|]. auto. }
  destruct (_ || isMulticast _); [done|]. case_bool_decide as Hl; simpl; [|done]. destruct (_ && is4 _); [done|].
  destruct (match known !! unmap address with Some _ => _ | None => _ end) eqn:Hc; [done|].
  specialize (IH (<[unmap address := properties]> known)). destruct (addProperties _ _ rest) as [result|m|]; try done.
  destruct IH as (H1 & H2 & H3). split; [|split].
  - intros a p Ha. destruct (decide (unmap address = a)) as [<-|Hne]; [|apply H1; by rewrite lookup_insert_ne].
    rewrite Ha in Hc. apply negb_false_iff, bool_decide_eq_true in Hc as ->. apply H1, lookup_insert_eq.
  - intros a p [[= -> ->]|Hin]%elem_of_cons; [|by apply H2]. split; [|done]. apply H1, lookup_insert_eq.
  - intros a p [Hk|(a' & Hin & Ha')]%H3; [|right; exists a'; by rewrite elem_of_cons; auto].
    destruct (decide (unmap address = a)) as [<-|Hne]; [|rewrite lookup_insert_ne in Hk by done; auto].
    rewrite lookup_insert_eq in Hk. injection Hk as ->. right. exists address. rewrite elem_of_cons. auto.
Qed.

(** A route as the table keeps it. *)
Definition routeNormal (local : gset Addr) (route : Route) : Prop :=
  normalPrefix (ro_Destination route) /\
  (ro_Source route = AddrInvalid \/
   ro_Source route ∈ local /\ is6 (ro_Source route) = is6 (p_addr (ro_Destination route))).

Lemma normalizeRoutePrefix_ok prefix : prefixOk prefix ->
  match normalizeRoutePrefix prefix with Accept destination => normalPrefix destination | Reject _ => True | Crash => False end.
Proof.
  intros Hp. unfold normalizeRoutePrefix. destruct (_ || hasZone _) eqn:E1; [done|]. apply orb_false_iff in E1 as [E1 _].
  destruct ((_ <? 0) || _) eqn:E2; [done|]. apply orb_false_iff in E2 as [? ?]. apply masked_normal; [apply unmap_ok, Hp| |apply unmap_idem|lia].
  apply negb_false_iff in E1. unfold prefixValid in E1. destruct Hp as (_ & _ & _ & Hi).
  destruct (p_addr prefix) as [|b|b z]; [specialize (Hi eq_refl); lia|done|]. unfold unmap. by destruct (is4In6 _).
Qed.

Lemma normalizeRouteSource_ok local source destination :
  match normalizeRouteSource local source destination with
  | Accept a => a = AddrInvalid \/ a ∈ local /\ is6 a = is6 (p_addr destination)
  | Reject _ => True
  | Crash => False
  end.
Proof.
  unfold normalizeRouteSource. destruct (isValid source); [|by left]. destruct (_ || negb (Bool.eqb _ _)) eqn:E; [done|].
  apply orb_false_iff in E as [_ E%negb_false_iff%Bool.eqb_prop]. case_bool_decide; simpl; auto.
Qed.

Definition v6Route (route : Route) : bool := is6 (p_addr (ro_Destination route)).

Lemma addRoutes_ok local have4 have6 promiscuous routes output entries :
  Forall (fun route => prefixOk (ro_Destination route)) entries -> Forall (routeNormal local) routes ->
  (Exists (fun route => v6Route route = true) routes -> output = true) ->
  match addRoutes local have4 have6 promiscuous routes output entries with
  | Accept (routes', output') =>
      Forall (routeNormal local) routes' /\ (output = true -> output' = true) /\
      (Exists (fun route => v6Route route = true) routes' -> output' = true)
  | Reject _ => True
  | Crash => False
  end.
Proof.
  intros He. revert routes output. induction He as [|route rest Hp He IH]; intros routes output Hr Ho; simpl; [done|].
  pose proof (normalizeRoutePrefix_ok _ Hp) as Hd. destruct (normalizeRoutePrefix _) as [destination|m|]; try done. simpl.
  pose proof (normalizeRouteSource_ok local (ro_Source route) destination) as Hsrc.
  destruct (normalizeRouteSource _ _ _) as [source|m|]; try done. simpl. destruct (negb _ && _); [done|].
  set (new := mkRoute destination source (ro_Metric route)).
  assert (Forall (routeNormal local) (routes ++ [new])) as Hr' by (apply list.Forall_app; split; [done|by apply list.Forall_singleton]).
  assert (Exists (fun route => v6Route route = true) (routes ++ [new]) ->
    (if is6 (p_addr destination) then true else output) = true) as Ho'.
  { intros [H|H]%list.Exists_app.
    - rewrite (Ho H). by destruct (is6 (p_addr destination)).
    - apply List.Exists_cons in H as [H|H%List.Exists_nil]; [|done]. unfold v6Route in H. cbn in H. by rewrite H. }
  specialize (IH _ _ Hr' Ho'). destruct (addRoutes _ _ _ _ _ _ rest) as [[routes' output']|m|]; try done.
  destruct IH as (H1 & H2 & H3). split; [done|]. split; [|done]. intros H. apply H2. by destruct (is6 (p_addr destination)).
Qed.

Lemma defaultRoutes_ok local addressless have4 have6 output :
  let '(routes, output') := defaultRoutes addressless have4 have6 output in
  Forall (routeNormal local) routes /\ (output = true -> output' = true) /\
  (Exists (fun route => v6Route route = true) routes -> output' = true).
Proof.
  assert (forall a, addrOk a -> isValid a = true -> unmap a = a -> masked (prefixFrom a 0) = prefixFrom a 0 ->
            routeNormal local (mkRoute (prefixFrom a 0) AddrInvalid 0)) as Hn.
  { intros a Ha Hv Hu Hm. split; [|by left]. cbn. rewrite <- Hm. apply masked_normal; try done. destruct a; simpl; lia. }
  assert (routeNormal local (mkRoute (prefixFrom ipv4Unspecified 0) AddrInvalid 0)) as H4.
  { apply Hn; try by vm_compute. split; [done|by apply bytes_check]. }
  assert (routeNormal local (mkRoute (prefixFrom ipv6Unspecified 0) AddrInvalid 0)) as H6.
  { apply Hn; try by vm_compute. split; [done|by apply bytes_check]. }
  unfold defaultRoutes. destruct (if addressless then true else have4), (if addressless then true else have6); simpl;
    (split; [auto using Forall_cons, Forall_nil|split; [done|]]); try done; intros H;
    repeat (apply List.Exists_cons in H as [H|H]; try done); by apply List.Exists_nil in H.
Qed.

(** ** The snapshot *)

(** What Go's types guarantee of a configuration. *)
Definition configTyped {A} (config : Config A) : Prop :=
  Forall prefixOk (cg_LocalAddresses config) /\
  Forall (fun route => prefixOk (ro_Destination route)) (default [] (cg_Routes config)).

(** The state that [buildNetworkState] assembles from the parts it checked. *)
Lemma networkOk_scan {A} (state : networkState A) prefixes scan : scanOk prefixes scan ->
  ns_local state = sc_local scan -> ns_sources state = sc_sources scan -> ns_sourcePrefixBits state = sc_bits scan ->
  ns_localPrefixes state = sc_prefixes scan -> ns_broadcast state = sc_broadcast scan ->
  existsb (fun address => bool_decide (address ∈ sc_broadcast scan)) (elements (sc_local scan)) = false ->
  Forall (routeNormal (sc_local scan)) (ns_routes state) -> 68 <= ns_mtu state <= 65535 ->
  (networkStateHasFamily state true = true \/ Exists (fun route => v6Route route = true) (ns_routes state) -> 1280 <= ns_mtu state) ->
  networkOk state.
Proof.
  intros Hs El Es Eb Ep Ebr Hbr Hr Hm Hm6.
  assert (Forall ownable (sc_sources scan)) as Hown.
  { apply list.Forall_forall. intros a Ha. apply (so_sources _ _ Hs) in Ha as (q & Hq & <-).
    pose proof (so_seen _ _ Hs) as Hf. rewrite list.Forall_forall in Hf. apply (Hf q Hq). }
  split; rewrite ?Es, ?Eb, ?Ep, ?Ebr; try apply Hs; try done.
  - intros a. unfold hasLocal. rewrite El, bool_decide_eq_true. apply Hs.
  - apply Forall2_same_length_lookup_2; [apply Hs|]. intros i a bits Ha Hb.
    destruct (so_longest _ _ Hs i a bits Ha Hb) as [(q & Hq & <- & <-) _].
    pose proof (so_seen _ _ Hs) as Hf. rewrite list.Forall_forall in Hf. apply (Hf q Hq).
  - intros a Ha. unfold broadcastDestination. assert (unmap a = a) as ->.
    { rewrite list.Forall_forall in Hown. apply (Hown a Ha). }
    destruct (is4 a); [|done]. simpl. rewrite bool_decide_eq_false_2 by (intros ->; by apply (so_limited _ _ Hs)).
    rewrite Ebr. apply not_true_iff_false. intros Hin. apply not_true_iff_false in Hbr. apply Hbr.
    apply existsb_exists. exists a. split; [|done]. apply list_elem_of_In, elem_of_elements, (so_local _ _ Hs), Ha.
  - eapply list.Forall_impl; [exact Hr|]. intros route [? [?|[Hin ?]]]; split; auto. right. split; [|done]. by apply (so_local _ _ Hs).
Qed.

Lemma wrapError_ok {T} (prefix : string) (c : checked T) : c <> Crash -> wrapError prefix c <> Crash.
Proof. by destruct c. Qed.

Lemma normalizeDatagram_total value buffer minimum : normalizeDatagramSocketDefaults value buffer minimum <> Crash.
Proof. unfold normalizeDatagramSocketDefaults. by repeat case_match. Qed.

Lemma normalizeIP_total value : normalizeIPSocketDefaults value <> Crash.
Proof.
  unfold normalizeIPSocketDefaults. pose proof (normalizeDatagram_total (id_DatagramSocketDefaults value) ipDefaultReceiveCapacity ipDatagramMetadataSize).
  by destruct (normalizeDatagramSocketDefaults _ _ _).
Qed.

Lemma normalizeTCP_total {A} (registry : congestionRegistry A) value : normalizeTCPSocketDefaults registry value <> Crash.
Proof.
  unfold normalizeTCPSocketDefaults, selectedFactory.
  destruct (td_CongestionControlFactory value); simpl; repeat case_match; simpl; repeat case_match; done.
Qed.

(** The routes of a configuration, listed or default. *)
Lemma routes_ok {A} (config : Config A) local addressless have4 have6 promiscuous : configTyped config ->
  match (match cg_Routes config with
         | Some entries => addRoutes local have4 have6 promiscuous [] have6 entries
         | None => Accept (defaultRoutes addressless have4 have6 have6)
         end) with
  | Accept (routes, output) => Forall (routeNormal local) routes /\ (have6 = true -> output = true) /\
      (Exists (fun route => v6Route route = true) routes -> output = true)
  | Reject _ => True
  | Crash => False
  end.
Proof.
  intros [_ Hr]. destruct (cg_Routes config) as [entries|].
  - apply addRoutes_ok; [done|by apply Forall_nil|]. by intros ?%List.Exists_nil.
  - pose proof (defaultRoutes_ok local addressless have4 have6 have6). by destruct (defaultRoutes _ _ _ _).
Qed.

(** What an accepted configuration says about its snapshot. *)
Definition snapshotOf {A} (config : Config A) (state : networkState A) : Prop :=
  (forall a, a ∈ ns_sources state <-> exists prefix, prefix ∈ cg_LocalAddresses config /\ unmap (p_addr prefix) = a) /\
  (forall i a bits, ns_sources state !! i = Some a -> ns_sourcePrefixBits state !! i = Some bits ->
     (exists prefix, prefix ∈ cg_LocalAddresses config /\ unmap (p_addr prefix) = a /\ unmappedBits prefix = bits) /\
     (forall prefix, prefix ∈ cg_LocalAddresses config -> unmap (p_addr prefix) = a -> unmappedBits prefix <= bits)) /\
  (forall a properties, ns_addressProperties state !! a = Some properties <->
     exists a', (a', properties) ∈ cg_AddressProperties config /\ unmap a' = a) /\
  (ns_sources state = [] -> cg_Promiscuous config = true).

Lemma buildNetworkState_ok {A} (registry : congestionRegistry A) (config : Config A) : configTyped config ->
  match buildNetworkState registry config with
  | Accept state => networkOk state /\ snapshotOf config state
  | Reject _ => True
  | Crash => False
  end.
Proof.
  intros Ht. unfold buildNetworkState. cbv zeta. set (mtu := if cg_MTU config =? 0 then _ else _).
  destruct (_ || (65535 <? mtu)) eqn:Em; [done|]. destruct (cg_MaxTCPConnections config <? 0); [done|].
  pose proof (normalizeTCP_total registry (cg_TCP config)). destruct (normalizeTCPSocketDefaults _ _) as [tcp|m|]; try done. cbn [mbind checked_bind].
  pose proof (wrapError_ok "mipstack: invalid UDP socket defaults: " _ (normalizeDatagram_total (cg_UDP config) udpDefaultReceiveCapacity udpDatagramMetadataSize)).
  unfold normalizeUDPSocketDefaults. destruct (wrapError _ (normalizeDatagramSocketDefaults _ _ _)) as [udp|m|]; try done; cbn [mbind checked_bind].
  pose proof (wrapError_ok "mipstack: invalid IP socket defaults: " _ (normalizeIP_total (cg_IP config))).
  destruct (wrapError _ (normalizeIPSocketDefaults _)) as [ip|m|]; try done; cbn [mbind checked_bind].
  pose proof (addLocals_ok _ [] emptyScan (proj1 Ht) emptyScan_ok) as Hs. destruct (addLocals _ _) as [scan|m|]; try done; cbn [mbind checked_bind]. simpl in Hs.
  match goal with |- context [if existsb ?f ?l then Reject _ else _] => destruct (existsb f l) eqn:Hb; [done|] end.
  pose proof (addProperties_spec (sc_local scan) ∅ (cg_AddressProperties config)) as Hp.
  destruct (addProperties _ _ _) as [properties|m|]; try done. destruct Hp as (_ & Hp1 & Hp2). cbn [mbind checked_bind].
  set (addressless := bool_decide (size _ = _)). destruct (addressless && _) eqn:Hal; [done|].
  set (have4 := existsb is4 _). set (have6 := existsb (fun source => negb _) _).
  pose proof (routes_ok config (sc_local scan) addressless have4 have6 (cg_Promiscuous config) Ht) as Hr.
  destruct (match cg_Routes config with Some _ => _ | None => _ end) as [[routes output]|m|]; try done. cbn [mbind checked_bind].
  destruct Hr as (Hr1 & Hr2 & Hr3). destruct ((mtu <? _) && _) eqn:Em6; [done|].
  split.
  - apply (networkOk_scan _ _ scan Hs); try done; cbn; [lia|]. intros H6. 
    assert (output = true) as ->.
    { destruct H6 as [H6|H6]; [|auto]. apply Hr2. unfold networkStateHasFamily in H6. cbn in H6. revert H6. unfold have6.
      rewrite !existsb_exists. intros (a & Hin & H6%Bool.eqb_prop). exists a. split; [done|]. by destruct a. }
    unfold ipv6MinimumMTU in Em6. lia.
  - split; [apply Hs|]. split; [apply Hs|]. cbn. split.
    + intros a p. split.
      * intros Ha. destruct (Hp2 a p Ha) as [H3|H3]; [by rewrite lookup_empty in H3|done].
      * intros (a' & Hin & <-). by apply Hp1.
    + intros Hnil. unfold addressless in Hal. rewrite bool_decide_eq_true_2 in Hal; [by destruct (cg_Promiscuous config)|].
      apply size_empty_iff. intros a. rewrite (so_local _ _ Hs), Hnil. set_solver.
Qed.

(** C19. An accepted configuration gives a snapshot in the invariant: sources
    are the distinct addresses of the configuration, each with the longest of its
    prefixes, none of them a broadcast address; prefixes and routes are masked
    and unmapped, route sources are owned and of the route's family, the
    broadcast set is that of the local prefixes, the MTU admitsRoute IPv6 where it is
    used, and the address properties do not depend on the order the map is
    visited in.  No configuration panics. *)
Theorem configuration_builds_invariant {A} (registry : congestionRegistry A) (config : Config A) (Ht : configTyped config) :
  match buildNetworkState registry config with
  | Accept state => networkOk state /\ snapshotOf config state
  | Reject _ => True
  | Crash => False
  end.
Proof. by apply buildNetworkState_ok. Qed.

(** ** Samples *)

Definition sampleDatagram : DatagramSocketDefaults := mkDatagramDefaults 0 false 0 0 0 false false 0 0.
Definition sampleRegistry : congestionRegistry unit :=
  {[ CongestionControlCUBIC := mkDefinition CongestionControlCUBIC (Some (fun _ => tt)) 0 0 ]}.
Definition sampleTCP : TCPSocketDefaults unit :=
  mkTCPDefaults EmptyString None 0 0 0 0 0 0 0 false (mkKeepAlive 0 0 0) 0 0 false 255 0.

Definition v6 (first : list Z) (tail : Z) : Addr := Addr6 (first ++ replicate (15 - length first) 0 ++ [tail]) noZone.

(** Two IPv4 addresses, one of them given in mapped form and one twice, and
    three IPv6 addresses of different scope and age. *)
Definition sampleConfig : Config unit :=
  {| cg_LocalAddresses :=
       [ prefixFrom (Addr4 [192; 0; 2; 1]) 24;
         prefixFrom (Addr6 (mappedPrefix ++ [198; 51; 100; 7]) noZone) 121;
         prefixFrom (Addr4 [192; 0; 2; 1]) 28;
         prefixFrom (v6 [254; 128] 1) 64;
         prefixFrom (v6 [32; 1; 13; 184] 1) 64;
         prefixFrom (v6 [32; 1; 13; 184; 1] 1) 64 ];
     cg_AddressProperties := [(v6 [32; 1; 13; 184] 1, mkAddressProperties true false)];
     cg_PreferTemporaryAddresses := false;
     cg_Promiscuous := false;
     cg_MTU := 0;
     cg_Routes := Some [ mkRoute (prefixFrom (Addr4 [0; 0; 0; 0]) 0) AddrInvalid 5;
                         mkRoute (prefixFrom (Addr4 [203; 0; 113; 9]) 24) (Addr4 [198; 51; 100; 7]) 0;
                         mkRoute (prefixFrom ipv6Unspecified 0) AddrInvalid 0 ];
     cg_MaxTCPConnections := 0;
     cg_TCP := sampleTCP;
     cg_UDP := sampleDatagram;
     cg_IP := mkIPDefaults sampleDatagram false false |}.

(** What a question answers in the snapshot of the sample. *)
Definition askSample {T} (question : networkState unit -> T) : option T :=
  match buildNetworkState sampleRegistry sampleConfig with Accept state => Some (question state) | _ => None end.

Lemma prefixFrom_ok a bits : addrOk a -> prefixOk (prefixFrom a bits).
Proof.
  intros Ha. unfold prefixOk, prefixFrom. cbn [p_addr p_bits]. split; [by destruct a|]. split; [by destruct a|].
  assert (bitLen (withoutZone a) = bitLen a) as -> by by destruct a. split.
  - destruct (isValid a && _ && _) eqn:E; [lia|]. destruct a; simpl; lia.
  - by destruct a.
Qed.

Lemma sample_typed : configTyped sampleConfig.
Proof.
  split; repeat constructor; try apply prefixFrom_ok; try (split; [done|by apply bytes_check]); done.
Qed.

Lemma sample_accepted : askSample (fun _ => tt) = Some tt.
Proof. by vm_compute. Qed.

Lemma sample_ok : exists state, buildNetworkState sampleRegistry sampleConfig = Accept state /\ networkOk state.
Proof.
  pose proof (buildNetworkState_ok sampleRegistry sampleConfig sample_typed) as H.
  pose proof sample_accepted as Q. unfold askSample in Q.
  destruct (buildNetworkState sampleRegistry sampleConfig) as [state|m|]; [|discriminate Q..]. clear Q.
  exists state. split; [done|apply H].
Qed.

(** The sample is accepted with the longer prefix of the repeated address. *)
Lemma configuration_builds_invariant_witness :
  askSample (fun state => (ns_sources state, ns_sourcePrefixBits state)) =
    Some ([Addr4 [192; 0; 2; 1]; Addr4 [198; 51; 100; 7]; v6 [254; 128] 1; v6 [32; 1; 13; 184] 1; v6 [32; 1; 13; 184; 1] 1],
          [28; 25; 64; 64; 64]) /\
  exists state, buildNetworkState sampleRegistry sampleConfig = Accept state /\ networkOk state /\ snapshotOf sampleConfig state.
Proof.
  split; [by vm_compute|].
  pose proof (configuration_builds_invariant sampleRegistry sampleConfig sample_typed) as H.
  pose proof sample_accepted as Q. unfold askSample in Q.
  destruct (buildNetworkState sampleRegistry sampleConfig) as [state|m|]; [|discriminate Q..]. clear Q.
  exists state. split; [done|exact H].
Defined.

(** A destination behind the pinned route matches it and not the default. *)
Lemma route_longest_match_witness :
  exists state, buildNetworkState sampleRegistry sampleConfig = Accept state /\
    bestRoute (Addr4 [203; 0; 113; 80]) (ns_routes state)
      (mkRoute (mkPrefix (Addr4 [203; 0; 113; 0]) 24) (Addr4 [198; 51; 100; 7]) 0).
Proof.
  destruct sample_ok as (state & E & _). exists state. split; [done|].
  assert (askSample (fun state => (routeFor state (Addr4 [203; 0; 113; 80]), hasLocal state (Addr4 [203; 0; 113; 80]))) =
    Some (Some (mkRoute (mkPrefix (Addr4 [203; 0; 113; 0]) 24) (Addr4 [198; 51; 100; 7]) 0), false)) as Q by by vm_compute.
  unfold askSample in Q. rewrite E in Q. injection Q as Qr Ql.
  pose proof (proj1 (route_longest_match state (Addr4 [203; 0; 113; 80]))) as H. cbv zeta in H.
  change (unmap (Addr4 [203; 0; 113; 80])) with (Addr4 [203; 0; 113; 80]) in H. by rewrite Qr, Ql in H.
Defined.

(** The deprecated address shares the longer prefix and still loses. *)
Lemma source_selection_rfc6724_witness :
  exists state, buildNetworkState sampleRegistry sampleConfig = Accept state /\
    sourceForUnicast state (v6 [32; 1; 13; 184] 9) AddrInvalid = Ret (v6 [32; 1; 13; 184; 1] 1) /\
    v6 [32; 1; 13; 184; 1] 1 ∈ ns_sources state.
Proof.
  destruct sample_ok as (state & E & Hok). exists state. split; [done|].
  assert (askSample (fun state => sourceForUnicast state (v6 [32; 1; 13; 184] 9) AddrInvalid) =
    Some (Ret (v6 [32; 1; 13; 184; 1] 1))) as Q by by vm_compute.
  unfold askSample in Q. rewrite E in Q. injection Q as Q. split; [done|].
  pose proof (source_selection_rfc6724 state (v6 [32; 1; 13; 184] 9) AddrInvalid Hok) as H. cbv zeta in H. rewrite Q in H.
  apply H.
Defined.

(** A directed broadcast leaves from its own subnet. *)
Lemma nonunicast_source_usable_witness :
  exists state, buildNetworkState sampleRegistry sampleConfig = Accept state /\
    sourceForNonUnicast state (Addr4 [198; 51; 100; 127]) AddrInvalid = Ret (Addr4 [198; 51; 100; 7]) /\
    hasOutputPath state (Addr4 [198; 51; 100; 127]) = true.
Proof.
  destruct sample_ok as (state & E & Hok). exists state. split; [done|].
  assert (askSample (fun state => sourceForNonUnicast state (Addr4 [198; 51; 100; 127]) AddrInvalid) =
    Some (Ret (Addr4 [198; 51; 100; 7]))) as Q by by vm_compute.
  unfold askSample in Q. rewrite E in Q. injection Q as Q. split; [done|].
  assert (addrOk (Addr4 [198; 51; 100; 127])) as Ha by (split; [done|by apply bytes_check]).
  apply (proj2 (nonunicast_source_usable state (Addr4 [198; 51; 100; 127]) AddrInvalid Hok Ha) (Addr4 [198; 51; 100; 7])).
  by left.
Defined.

(** ** Comparison of snapshots *)

Lemma sameElements_eq {T} `{EqDecision T} (one other : list T) :
  length one = length other -> sameElements one other = true <-> one = other.
Proof.
  revert other. induction one as [|x one IH]; intros [|y other]; try done. intros [= Hl]. simpl.
  case_bool_decide as E; [|naive_solver]. subst. rewrite (IH other Hl). naive_solver.
Qed.

Lemma sameSourceProperties_eq {A} (state other : networkState A) :
  sameSourceProperties state other = true <->
  ns_preferTemporary state = ns_preferTemporary other /\ ns_addressProperties state = ns_addressProperties other.
Proof.
  unfold sameSourceProperties. destruct (Bool.eqb _ _) eqn:Ep; simpl.
  2:{ apply Bool.eqb_false_iff in Ep. naive_solver. }
  apply Bool.eqb_prop in Ep. case_bool_decide as Es; simpl; [|split; [done|]; intros [_ E]; by rewrite E in Es].
  rewrite forallb_forall. setoid_rewrite <- list_elem_of_In. split.
  - intros H. split; [done|]. apply map_subseteq_size_eq; [|lia]. apply map_subseteq_spec. intros a p Ha.
    specialize (H (a, p) (proj2 (elem_of_map_to_list _ _ _) Ha)). by apply bool_decide_eq_true in H.
  - intros [_ E] [a p] Ha. apply bool_decide_eq_true. rewrite <- E. by apply elem_of_map_to_list.
Qed.

(** The comparison for cached path MTUs is equality of what it looks at. *)
Lemma samePath_eq {A} (state other : networkState A) :
  samePathConfiguration state other = true <->
  ns_mtu state = ns_mtu other /\ ns_sources state = ns_sources other /\ ns_localPrefixes state = ns_localPrefixes other /\
  ns_routes state = ns_routes other /\ ns_preferTemporary state = ns_preferTemporary other /\
  ns_addressProperties state = ns_addressProperties other.
Proof.
  unfold samePathConfiguration. rewrite <- sameSourceProperties_eq.
  destruct (Z.eqb_spec (ns_mtu state) (ns_mtu other)); simpl; [|intuition congruence].
  destruct (Z.eqb_spec (zlen (ns_sources state)) (zlen (ns_sources other))); simpl; [|intuition congruence].
  destruct (Z.eqb_spec (zlen (ns_localPrefixes state)) (zlen (ns_localPrefixes other))); simpl; [|intuition congruence].
  destruct (Z.eqb_spec (zlen (ns_routes state)) (zlen (ns_routes other))); simpl; [|intuition congruence].
  unfold zlen in *. destruct (sameSourceProperties state other); simpl; [|intuition congruence].
  rewrite !andb_true_iff, !sameElements_eq by lia. naive_solver.
Qed.

Lemma selectSource_ext {A} (state other : networkState A) destination index candidates selected bits :
  ns_sourcePrefixBits state = ns_sourcePrefixBits other -> ns_preferTemporary state = ns_preferTemporary other ->
  ns_addressProperties state = ns_addressProperties other ->
  selectSource state destination index candidates selected bits = selectSource other destination index candidates selected bits.
Proof.
  intros Hb Hp Ha. revert index selected bits. induction candidates as [|c rest IH]; intros index selected bits; [done|]. simpl.
  rewrite !IH, Hb. destruct (negb _); [done|]. destruct (need _) as [b|e|]; simpl; try done. rewrite !IH.
  assert (preferSource state c b selected bits destination = preferSource other c b selected bits destination) as ->; [|done].
  unfold preferSource, propertiesOf. by rewrite Hp, Ha.
Qed.

(** Two snapshots that compare as the same path, with the same prefix lengths,
    choose the same route and source for every destination. *)
Theorem same_path_same_source {A} (state other : networkState A) destination requested :
  networkOk state -> networkOk other -> samePathConfiguration state other = true ->
  ns_sourcePrefixBits state = ns_sourcePrefixBits other ->
  routeFor state destination = routeFor other destination /\
  sourceForUnicast state destination requested = sourceForUnicast other destination requested.
Proof.
  intros H1 H2 (Em & Es & Ep & Er & Et & Ea)%samePath_eq Eb.
  assert (forall a, hasLocal state a = hasLocal other a) as Hl.
  { intros a. apply Bool.eq_iff_eq_true. by rewrite (no_local _ H1), (no_local _ H2), Es. }
  assert (forall a, routeFor state a = routeFor other a) as Hr by (intros a; unfold routeFor; by rewrite Hl, Er).
  split; [done|]. unfold sourceForUnicast, automaticSource. rewrite !Hr, !Hl, Es.
  by rewrite (selectSource_ext state other) by done.
Qed.

(** The lengths are needed: sources with their prefixes exchanged give masked
    prefixes in the same order, so the snapshots compare as the same path, and
    choose different sources. *)
Definition exchangedConfig (first second : Z) : Config unit :=
  {| cg_LocalAddresses :=
       [ prefixFrom (Addr4 [192; 0; 2; 1]) 24; prefixFrom (Addr4 [192; 0; 2; 2]) 24;
         prefixFrom (Addr4 [192; 0; 2; first]) second ];
     cg_AddressProperties := []; cg_PreferTemporaryAddresses := false; cg_Promiscuous := false; cg_MTU := 0;
     cg_Routes := None; cg_MaxTCPConnections := 0; cg_TCP := sampleTCP; cg_UDP := sampleDatagram;
     cg_IP := mkIPDefaults sampleDatagram false false |}.

Lemma same_path_ignores_lengths :
  match buildNetworkState sampleRegistry (exchangedConfig 1 25), buildNetworkState sampleRegistry (exchangedConfig 2 25) with
  | Accept state, Accept other =>
      (samePathConfiguration state other, sourceForUnicast state (Addr4 [192; 0; 2; 9]) AddrInvalid,
       sourceForUnicast other (Addr4 [192; 0; 2; 9]) AddrInvalid)
  | _, _ => (false, Panic, Panic)
  end = (true, Ret (Addr4 [192; 0; 2; 1]), Ret (Addr4 [192; 0; 2; 2])).
Proof. by vm_compute. Qed.

(** ** Socket defaults *)

(** Accepted datagram defaults are in range, and normalising them again changes
    nothing. *)
Theorem datagram_defaults_normal value buffer minimum value' : 0 < minimum <= buffer ->
  normalizeDatagramSocketDefaults value buffer minimum = Accept value' ->
  minimum <= dd_ReceiveBuffer value' /\ 1 <= dd_HopLimit value' <= 255 /\ 1 <= dd_MulticastHopLimit value' <= 255 /\
  0 <= dd_PathMTUDiscovery value' <= 5 /\ dd_FlowLabel value' <= ipv6MaximumFlowLabel /\
  normalizeDatagramSocketDefaults value' buffer minimum = Accept value'.
Proof.
  intros Hm. unfold normalizeDatagramSocketDefaults, orDefault, pathMTUDiscoveryValid. destruct value as [rb re pm hl mh dl db tc fl]. cbn.
  destruct (_ || (255 <? mh)) eqn:E1; [done|]. destruct (negb _) eqn:E2; [done|]. destruct (_ <? fl) eqn:E3; [done|].
  pose proof E2 as E2'. apply negb_false_iff, andb_true_iff in E2' as [?%Z.leb_le ?%Z.leb_le]. rewrite !orb_false_iff, !Z.ltb_ge in E1.
  pose proof E3 as E3'. apply Z.ltb_ge in E3'.
  destruct (Z.eqb_spec rb 0), (Z.ltb_spec rb minimum), (Z.eqb_spec hl 0), (Z.eqb_spec mh 0); try lia; cbn; intros [= <-]; cbn;
    (split_and!; [lia..|]); rewrite ?E3, ?E2;
    repeat match goal with
           | |- context [?a <? ?b] => destruct (Z.ltb_spec a b); try lia
           | |- context [?a =? ?b] => destruct (Z.eqb_spec a b); try lia
           end; cbn; by rewrite ?E2, ?E3.
Qed.

(** Every registered factory was validated when it was registered. *)
Definition registryOk {A} (registry : congestionRegistry A) : Prop :=
  forall name factory, registry !! name = Some factory -> factoryValid (Some factory) = true.

Lemma register_ok {A} (registry : congestionRegistry A) factory : registryOk registry ->
  registryOk (RegisterCongestionControl registry factory).1.
Proof.
  intros Hr. unfold RegisterCongestionControl. destruct (factoryValid factory) eqn:Ev; [|done]. cbn [negb].
  destruct factory as [d|]; [|done]. destruct (registry !! cf_Name d); [done|]. intros name f. cbn [fst]. unfold congestionRegistry in *.
  destruct (decide (cf_Name d = name)) as [<-|Hne]; [rewrite lookup_insert_eq; by intros [= <-]|].
  rewrite lookup_insert_ne by done. apply Hr.
Qed.

Lemma selectedFactory_ok {A} (registry : congestionRegistry A) value factory : registryOk registry ->
  selectedFactory registry value = Accept factory -> factoryValid (Some factory) = true.
Proof.
  intros Hr. unfold selectedFactory. destruct (td_CongestionControlFactory value) as [f|].
  - destruct (negb _); [done|]. destruct (factoryValid (Some f)) eqn:E; simpl; [|done]. by intros [= <-].
  - unfold registeredCongestionControlFactory. destruct (registry !! _) as [f|] eqn:E; [|done]. intros [= <-]. by eapply Hr.
Qed.

Lemma selectedFactory_given {A} (registry : congestionRegistry A) value factory :
  td_CongestionControlFactory value = Some factory -> td_CongestionControl value = EmptyString ->
  factoryValid (Some factory) = true -> selectedFactory registry value = Accept factory.
Proof. intros Hf Hn Hv. unfold selectedFactory. by rewrite Hf, Hn, Hv. Qed.

Lemma orDefault_idem value fallback : fallback <> 0 -> orDefault (orDefault value fallback) fallback = orDefault value fallback.
Proof. unfold orDefault. intros. destruct (Z.eqb_spec value 0); [by rewrite (proj2 (Z.eqb_neq _ _))|]. by rewrite (proj2 (Z.eqb_neq _ _)). Qed.

Lemma orDefault_pos value fallback : 0 < fallback -> 0 <= value -> 0 < orDefault value fallback.
Proof. unfold orDefault. destruct (Z.eqb_spec value 0); lia. Qed.

(** Accepted TCP defaults name one valid factory, have positive buffers within
    the window limit, leave the ECN bits to TCP, and are a fixed point. *)
Theorem tcp_defaults_normal {A} (registry : congestionRegistry A) value value' : registryOk registry ->
  normalizeTCPSocketDefaults registry value = Accept value' ->
  factoryValid (td_CongestionControlFactory value') = true /\ td_CongestionControl value' = EmptyString /\
  0 < td_ReceiveBuffer value' <= td_MaximumReceiveBuffer value' /\ td_MaximumReceiveBuffer value' <= tcpMaximumScaledWindow /\
  0 < td_SendBuffer value' <= td_MaximumSendBuffer value' /\ 0 < td_AcceptQueue value' /\ 0 < td_SYNBacklog value' /\
  td_TrafficClass value' .& 3 = 0 /\
  normalizeTCPSocketDefaults registry value' = Accept value'.
Proof.
  intros Hr. unfold normalizeTCPSocketDefaults at 1. destruct (selectedFactory registry value) as [f|m|] eqn:Ef; try done. cbn [mbind checked_bind].
  apply selectedFactory_ok in Ef; [|done].
  destruct (_ || (td_UserTimeout value <? 0)) eqn:E1; [done|]. destruct (_ <? td_FlowLabel value) eqn:E2; [done|].
  destruct (_ || (_ <? orDefault (td_SendBuffer value) _)) eqn:E3; [done|]. destruct (tcpMaximumScaledWindow <? _) eqn:E4; [done|].
  destruct (_ || (orDefault (ka_Count _) _ <? 0)) eqn:E5; [done|]. intros [= <-]. cbn -[normalizeTCPSocketDefaults].
  rewrite !orb_false_iff, !Z.ltb_ge in E1. destruct E1 as [[[[[[[B1 B2] B3] B4] B5] B6] B7] B8].
  pose proof E3 as E3'. apply orb_false_iff in E3' as [?%Z.ltb_ge ?%Z.ltb_ge]. pose proof E4 as E4'. apply Z.ltb_ge in E4'.
  pose proof (orDefault_pos (td_ReceiveBuffer value) tcpReceiveCapacity ltac:(done) B1).
  pose proof (orDefault_pos (td_MaximumReceiveBuffer value) tcpMaximumReceiveCapacity ltac:(done) B2).
  pose proof (orDefault_pos (td_SendBuffer value) tcpSendCapacity ltac:(done) B3).
  pose proof (orDefault_pos (td_MaximumSendBuffer value) tcpMaximumSendCapacity ltac:(done) B4).
  pose proof (orDefault_pos (td_AcceptQueue value) tcpAcceptQueue ltac:(done) B5).
  pose proof (orDefault_pos (td_SYNBacklog value) tcpSYNBacklog ltac:(done) B6).
  do 7 (split; [done || lia|]). split; [by rewrite <- Z.land_assoc, Z.land_0_r|].
  unfold normalizeTCPSocketDefaults. rewrite (selectedFactory_given _ _ f) by done. cbn.
  rewrite !orDefault_idem by done. rewrite E2, E3, E4, E5, !(proj2 (Z.ltb_ge _ _)) by lia. cbn.
  by rewrite <- Z.land_assoc, Z.land_diag.
Qed.
