(* ===== verification/Multicast.v ===== *)
(** * Multicast memberships

    The membership half of [multicast.go]: socket source filters, their RFC 9776
    merge into the interface filter, the querier variables with their
    compatibility modes, the retransmission state of state-change reports, the
    RFC 3678 operations, and the dispatch snapshot that packet delivery reads
    without the lock.

    A published filter is never changed in place: every operation clones a
    member's filter before it edits it, so filters are values.  Group states are
    shared between the map of groups and the published index; they live in a
    store and are referred to by number.  Each operation takes one reading of the
    clock. *)

From stdpp Require Import strings gmap.
From S2P Require Import Prelude Addr Network.

(** ** Constants *)

Definition multicastDefaultRobustness : Z := 2.
Definition multicastDefaultQueryInterval : Z := 125 * second.
Definition multicastDefaultResponseInterval : Z := 10 * second.
Definition multicastUnsolicitedReportInterval : Z := second.
Definition multicastMaximumQuerySources : Z := 4096.

(** ** Data *)

Inductive multicastFilterMode := multicastFilterInclude | multicastFilterExclude.

#[global] Instance multicastFilterMode_eq : EqDecision multicastFilterMode.
Proof. solve_decision. Defined.

Inductive multicastMembershipOperation :=
| multicastJoinAnySource
| multicastLeaveGroup
| multicastJoinSource
| multicastLeaveSource
| multicastExcludeSource
| multicastIncludeSource.

#[global] Instance multicastMembershipOperation_eq : EqDecision multicastMembershipOperation.
Proof. solve_decision. Defined.

Record multicastFilter := mkFilter {
  mf_mode : multicastFilterMode;
  mf_sources : gset Addr }.

#[global] Instance multicastFilter_eq : EqDecision multicastFilter.
Proof. solve_decision. Defined.

(** A socket that owns memberships: a UDP or a raw IP connection. *)
Inductive multicastEndpoint := UDPEndpoint (connection : Z) | IPEndpoint (connection : Z).

#[global] Instance multicastEndpoint_eq : EqDecision multicastEndpoint.
Proof. solve_decision. Defined.

#[global] Instance multicastEndpoint_countable : Countable multicastEndpoint.
Proof.
  refine (inj_countable' (fun e => match e with UDPEndpoint c => inl c | IPEndpoint c => inr c end)
    (fun x => match x with inl c => UDPEndpoint c | inr c => IPEndpoint c end) _).
  by intros [].
Defined.

(** The published entry of a group. *)
Record multicastDispatchGroup := mkDispatch {
  md_filter : multicastFilter;
  md_udp : list (Z * multicastFilter);
  md_ip : list (Z * multicastFilter) }.

Record multicastPendingQuery := mkPendingQuery {
  pq_deadline : Z;
  pq_sources : gset Addr;
  pq_sourceQuery : bool }.

Definition noPendingQuery : multicastPendingQuery := mkPendingQuery 0 ∅ false.

#[export] Instance multicastPendingQuery_settable : Settable multicastPendingQuery :=
  fun q => mkPendingQuery (pq_deadline q) (pq_sources q) (pq_sourceQuery q).

Record multicastGroupState := mkGroup {
  gs_members : gmap multicastEndpoint multicastFilter;
  gs_aggregate : multicastFilter;
  gs_dispatch : option multicastDispatchGroup;
  gs_query : multicastPendingQuery;
  gs_lastReporter : bool }.

#[export] Instance multicastGroupState_settable : Settable multicastGroupState :=
  fun g => mkGroup (gs_members g) (gs_aggregate g) (gs_dispatch g) (gs_query g) (gs_lastReporter g).

Record multicastRetransmission := mkRetransmission {
  rt_filter : multicastFilter;
  rt_exists : bool;
  rt_lastReporter : bool;
  rt_modeRemaining : Z;
  rt_allow : gmap Addr Z;
  rt_block : gmap Addr Z;
  rt_due : Z }.

#[export] Instance multicastRetransmission_settable : Settable multicastRetransmission :=
  fun r => mkRetransmission (rt_filter r) (rt_exists r) (rt_lastReporter r) (rt_modeRemaining r) (rt_allow r) (rt_block r) (rt_due r).

(** A two-element array indexed by family: IPv4 first. *)
Record perFamily (T : Type) := mkFamily { fam4 : T; fam6 : T }.
Arguments mkFamily {T}.
Arguments fam4 {T}.
Arguments fam6 {T}.

Definition atFamily {T} (v6 : bool) (p : perFamily T) : T := if v6 then fam6 p else fam4 p.
Definition setFamily {T} (v6 : bool) (x : T) (p : perFamily T) : perFamily T :=
  if v6 then mkFamily (fam4 p) x else mkFamily x (fam6 p).

Record multicastQuerierState := mkQuerier {
  mq_robustness : perFamily Z;
  mq_queryInterval : perFamily Z;
  mq_responseInterval : perFamily Z;
  mq_compatibility : perFamily Z;
  mq_igmpV1Until : Z;
  mq_igmpV2Until : Z;
  mq_mldV1Until : Z }.

#[export] Instance multicastQuerierState_settable : Settable multicastQuerierState :=
  fun q => mkQuerier (mq_robustness q) (mq_queryInterval q) (mq_responseInterval q) (mq_compatibility q)
    (mq_igmpV1Until q) (mq_igmpV2Until q) (mq_mldV1Until q).

(** The channel [reportCancel] of a family is the number of times it was
    replaced; a batch carries the number it was made under and is cancelled when
    it differs. *)
Record multicastState := mkMulticast {
  ms_querier : multicastQuerierState;
  ms_objects : gmap Z multicastGroupState;
  ms_fresh : Z;
  ms_groups : gmap Addr Z;
  ms_retransmissions : gmap Addr multicastRetransmission;
  ms_familyGroups : perFamily Z;
  ms_generalQuery : perFamily Z;
  ms_random : Z;
  ms_wake : bool;
  ms_closed : bool;
  ms_dispatch : option (gmap Addr Z);
  ms_reportCancel : perFamily Z }.

#[export] Instance multicastState_settable : Settable multicastState :=
  fun s => mkMulticast (ms_querier s) (ms_objects s) (ms_fresh s) (ms_groups s) (ms_retransmissions s) (ms_familyGroups s)
    (ms_generalQuery s) (ms_random s) (ms_wake s) (ms_closed s) (ms_dispatch s) (ms_reportCancel s).

Definition defaultMulticastQuerierState : multicastQuerierState :=
  mkQuerier (mkFamily multicastDefaultRobustness multicastDefaultRobustness)
    (mkFamily multicastDefaultQueryInterval multicastDefaultQueryInterval)
    (mkFamily multicastDefaultResponseInterval multicastDefaultResponseInterval) (mkFamily 3 2) 0 0 0.

(** ** Group classes *)

Definition multicastFamilyIndex (address : Addr) : bool := is6 address.

Definition isAllHostsGroup (group : Addr) : bool :=
  if is4 group then bool_decide (group = Addr4 [224; 0; 0; 1])
  else
    let value := as16 group in
    (byteAt value 0 =? 255) && ((byteAt value 1 =? 1) || (byteAt value 1 =? 2))
    && bool_decide (drop 2 value = replicate 13 0 ++ [1]).

Definition multicastGroupNeedsReport (group : Addr) : bool :=
  let group := unmap group in
  if negb (validMulticastGroup group) then false
  else if is4 group then negb (bool_decide (group = Addr4 [224; 0; 0; 1]))
  else (1 <? byteAt (as16 group) 1 .& 15) && negb (isAllHostsGroup group).

Definition isSourceSpecificMulticast (group : Addr) : bool :=
  let group := unmap group in
  if negb (isMulticast group) then false
  else if is4 group then byteAt (asSlice group) 0 =? 232
  else
    let raw := as16 group in
    (Z.shiftr (byteAt raw 1) 4 =? 3) && (byteAt raw 2 =? 0) && (byteAt raw 3 =? 0).

Definition validMulticastSourceSyntax (source : Addr) (v6 : bool) : bool :=
  let source := unmap source in
  isValid source && negb (isUnspecified source) && negb (isMulticast source) && negb (hasZone source)
  && Bool.eqb (is6 source) v6.

Definition validMulticastSourceAddress {A} (network : networkState A) (source : Addr) (v6 : bool) : bool :=
  if negb (validMulticastSourceSyntax source v6) then false
  else
    let source := unmap source in
    negb (is4 source && broadcastDestination network source).

(** ** Filters *)

Definition filterAccepts (f : multicastFilter) (source : Addr) : bool :=
  let listed := bool_decide (unmap source ∈ mf_sources f) in
  match mf_mode f with multicastFilterInclude => listed | multicastFilterExclude => negb listed end.

(** The accumulator of the merge: mode, sources, whether no EXCLUDE member was
    seen, and the sources of INCLUDE members. *)
Record mergeState := mkMerge {
  mg_mode : multicastFilterMode;
  mg_sources : gset Addr;
  mg_firstExclude : bool;
  mg_include : gset Addr }.

Definition mergeMember (m : mergeState) (f : multicastFilter) : mergeState :=
  match mf_mode f with
  | multicastFilterInclude => mkMerge (mg_mode m) (mg_sources m) (mg_firstExclude m) (mg_include m ∪ mf_sources f)
  | multicastFilterExclude =>
      if mg_firstExclude m then mkMerge multicastFilterExclude (mf_sources f) false (mg_include m)
      else mkMerge multicastFilterExclude (mg_sources m ∩ mf_sources f) false (mg_include m)
  end.

(** The merge over the members in the order the map is visited. *)
Definition mergeFilters (filters : list multicastFilter) : multicastFilter :=
  match filters with
  | [filter] => filter
  | _ =>
      let m := fold_left mergeMember filters (mkMerge multicastFilterInclude ∅ true ∅) in
      match mg_mode m with
      | multicastFilterInclude => mkFilter multicastFilterInclude (mg_include m)
      | multicastFilterExclude => mkFilter multicastFilterExclude (mg_sources m ∖ mg_include m)
      end
  end.

Definition memberFilters (members : gmap multicastEndpoint multicastFilter) : list multicastFilter :=
  (map_to_list members).*2.

Definition aggregateMulticastFilter (members : gmap multicastEndpoint multicastFilter) : multicastFilter :=
  mergeFilters (memberFilters members).

Definition multicastFiltersEqual (one : multicastFilter) (oneExists : bool) (other : multicastFilter) (otherExists : bool) : bool :=
  if negb (Bool.eqb oneExists otherExists) || negb (bool_decide (mf_mode one = mf_mode other))
     || negb (bool_decide (size (mf_sources one) = size (mf_sources other)))
  then false
  else forallb (fun source => bool_decide (source ∈ mf_sources other)) (elements (mf_sources one)).

Definition multicastSourceDifference (one other : gset Addr) : gset Addr := one ∖ other.

(** ** Access to group states *)

Definition groupAt (s : multicastState) (group : Addr) : option multicastGroupState :=
  id ← ms_groups s !! group; ms_objects s !! id.

(** A change of the group state behind [group], seen through every reference. *)
Definition updateGroup (group : Addr) (f : multicastGroupState -> multicastGroupState) (s : multicastState) : multicastState :=
  match ms_groups s !! group with
  | Some id => s <| ms_objects := alter f id (ms_objects s) |>
  | None => s
  end.

Definition multicastInterfaceFilter (g : option multicastGroupState) : multicastFilter * bool :=
  match g with
  | None => (mkFilter multicastFilterInclude ∅, false)
  | Some g =>
      if bool_decide (gs_members g = ∅) then (mkFilter multicastFilterInclude ∅, false)
      else (gs_aggregate g, true)
  end.

Definition wakeLocked (s : multicastState) : multicastState := s <| ms_wake := true |>.

(** ** Querier variables *)

(** [refresh]: expired older-querier timers end, and the modes follow. *)
Definition expireUntil (until now : Z) : Z := if negb (until =? 0) && negb (now <? until) then 0 else until.

Definition refresh (q : multicastQuerierState) (now : Z) : multicastQuerierState * perFamily bool :=
  let igmpV1Until := expireUntil (mq_igmpV1Until q) now in
  let igmpV2Until := expireUntil (mq_igmpV2Until q) now in
  let mldV1Until := expireUntil (mq_mldV1Until q) now in
  let mode4 := if negb (igmpV1Until =? 0) then 1 else if negb (igmpV2Until =? 0) then 2 else 3 in
  let mode6 := if negb (mldV1Until =? 0) then 1 else 2 in
  (mkQuerier (mq_robustness q) (mq_queryInterval q) (mq_responseInterval q) (mkFamily mode4 mode6) igmpV1Until igmpV2Until mldV1Until,
   mkFamily (negb (fam4 (mq_compatibility q) =? mode4)) (negb (fam6 (mq_compatibility q) =? mode6))).

Definition latestVersion (v6 : bool) : Z := if v6 then 2 else 3.

Definition noteQueryVersion (q : multicastQuerierState) (v6 : bool) (version : Z) (general : bool)
    (robustness queryInterval responseInterval now : Z) : multicastQuerierState :=
  let q :=
    if version =? latestVersion v6 then
      let robustness := if robustness =? 0 then multicastDefaultRobustness else robustness in
      let queryInterval := if queryInterval =? 0 then multicastDefaultQueryInterval else queryInterval in
      q <| mq_robustness := setFamily v6 robustness (mq_robustness q) |>
        <| mq_queryInterval := setFamily v6 queryInterval (mq_queryInterval q) |>
        <| mq_responseInterval := setFamily v6 responseInterval (mq_responseInterval q) |>
    else q in
  let base := atFamily v6 (mq_robustness q) * atFamily v6 (mq_queryInterval q) in
  if negb v6 then
    let timeout := base + 10 * responseInterval in
    if version =? 1 then q <| mq_igmpV1Until := now + timeout |>
    else if (version =? 2) && general then q <| mq_igmpV2Until := now + timeout |>
    else q
  else if version =? 1 then q <| mq_mldV1Until := now + (base + atFamily v6 (mq_responseInterval q)) |>
  else q.

(** Pending work of a family whose mode changed. *)
Definition clearQueries (v6 : bool) (s : multicastState) : multicastState :=
  s <| ms_objects :=
    map_imap (fun id g => Some (if existsb (fun '(group, member) => (member =? id) && Bool.eqb (is6 group) v6) (map_to_list (ms_groups s))
                                then g <| gs_query := noPendingQuery |> else g)) (ms_objects s) |>.

Definition cancelPendingFamilyLocked (v6 : bool) (s : multicastState) : multicastState :=
  let s := s <| ms_generalQuery := setFamily v6 0 (ms_generalQuery s) |> in
  let s := clearQueries v6 s in
  s <| ms_retransmissions := filter (fun '(group, _) => is6 group <> v6) (ms_retransmissions s) |>.

Definition cancelReports (v6 changed : bool) (s : multicastState) : multicastState :=
  if changed
  then cancelPendingFamilyLocked v6 (s <| ms_reportCancel := setFamily v6 (atFamily v6 (ms_reportCancel s) + 1) (ms_reportCancel s) |>)
  else s.

Definition refreshCompatibilityLocked (now : Z) (s : multicastState) : multicastState :=
  if ms_closed s then s
  else
    let '(q, changed) := refresh (ms_querier s) now in
    cancelReports true (fam6 changed) (cancelReports false (fam4 changed) (s <| ms_querier := q |>)).

Definition noteQueryVersionLocked (v6 : bool) (version : Z) (general : bool) (robustness queryInterval responseInterval now : Z)
    (s : multicastState) : multicastState :=
  let s := refreshCompatibilityLocked now s in
  let s := s <| ms_querier := noteQueryVersion (ms_querier s) v6 version general robustness queryInterval responseInterval now |> in
  refreshCompatibilityLocked now s.

(** ** State-change reports *)

Definition emptyRetransmission : multicastRetransmission :=
  mkRetransmission (mkFilter multicastFilterInclude ∅) false false 0 ∅ ∅ 0.

(** Each source of the set gets a full counter. *)
Definition countSources (sources : gset Addr) (robustness : Z) (counters : gmap Addr Z) : gmap Addr Z :=
  set_fold (fun source counters => <[source := robustness]> counters) counters sources.

Definition dropSources (sources : gset Addr) (counters : gmap Addr Z) : gmap Addr Z :=
  filter (fun '(source, _) => source ∉ sources) counters.

(** The merge of one transition of the interface filter into the pending
    retransmission. *)
Definition mergeTransition (robustness : Z) (old current : multicastFilter) (p : multicastRetransmission) : multicastRetransmission :=
  if negb (bool_decide (mf_mode old = mf_mode current))
  then p <| rt_modeRemaining := robustness |> <| rt_allow := ∅ |> <| rt_block := ∅ |>
  else
    let gained := match mf_mode current with
                  | multicastFilterInclude => multicastSourceDifference (mf_sources current) (mf_sources old)
                  | multicastFilterExclude => multicastSourceDifference (mf_sources old) (mf_sources current)
                  end in
    let lost := match mf_mode current with
                | multicastFilterInclude => multicastSourceDifference (mf_sources old) (mf_sources current)
                | multicastFilterExclude => multicastSourceDifference (mf_sources current) (mf_sources old)
                end in
    let p := p <| rt_allow := countSources gained robustness (rt_allow p) |> <| rt_block := dropSources gained (rt_block p) |> in
    p <| rt_block := countSources lost robustness (rt_block p) |> <| rt_allow := dropSources lost (rt_allow p) |>.

Definition interfaceStateChangedLocked (now : Z) (group : Addr) (old : multicastFilter) (oldExists oldLastReporter : bool)
    (s : multicastState) : multicastState :=
  let '(current, currentExists) := multicastInterfaceFilter (groupAt s group) in
  if multicastFiltersEqual old oldExists current currentExists || negb (multicastGroupNeedsReport group) then s
  else
    let s := refreshCompatibilityLocked now s in
    let v6 := multicastFamilyIndex group in
    let latest := latestVersion (is6 group) in
    if (atFamily v6 (mq_compatibility (ms_querier s)) <? latest) && Bool.eqb oldExists currentExists then s
    else
      let robustness := atFamily v6 (mq_robustness (ms_querier s)) in
      let robustness := if robustness =? 0 then multicastDefaultRobustness else robustness in
      let pending := default emptyRetransmission (ms_retransmissions s !! group) in
      let reporter := if currentExists then match groupAt s group with Some g => gs_lastReporter g | None => false end
                      else oldLastReporter in
      let pending := pending <| rt_filter := current |> <| rt_exists := currentExists |> <| rt_lastReporter := reporter |> in
      let pending := mergeTransition robustness old current pending <| rt_due := now |> in
      wakeLocked (s <| ms_retransmissions := <[group := pending]> (ms_retransmissions s) |>).

(** ** Dispatch snapshots *)

Definition udpMembers (members : gmap multicastEndpoint multicastFilter) : list (Z * multicastFilter) :=
  omap (fun '(endpoint, filter) => match endpoint with UDPEndpoint c => Some (c, filter) | IPEndpoint _ => None end) (map_to_list members).

Definition ipMembers (members : gmap multicastEndpoint multicastFilter) : list (Z * multicastFilter) :=
  omap (fun '(endpoint, filter) => match endpoint with IPEndpoint c => Some (c, filter) | UDPEndpoint _ => None end) (map_to_list members).

Definition dispatchOf (g : multicastGroupState) : multicastDispatchGroup :=
  mkDispatch (gs_aggregate g) (udpMembers (gs_members g)) (ipMembers (gs_members g)).

Definition rebuildDispatchIndexLocked (s : multicastState) : multicastState :=
  s <| ms_dispatch := Some (ms_groups s) |>.

Definition rebuildGroupDispatchLocked (address : Addr) (s : multicastState) : multicastState :=
  match ms_groups s !! address with
  | None => rebuildDispatchIndexLocked s
  | Some id =>
      let s := updateGroup address (fun g => g <| gs_dispatch := Some (dispatchOf g) |>) s in
      match ms_dispatch s with
      | None => rebuildDispatchIndexLocked s
      | Some index => if bool_decide (index !! address = Some id) then s else rebuildDispatchIndexLocked s
      end
  end.

Definition loadDispatchGroup (s : multicastState) (address : Addr) : option multicastDispatchGroup :=
  index ← ms_dispatch s;
  id ← index !! address;
  g ← ms_objects s !! id;
  gs_dispatch g.

Definition acceptsSource (s : multicastState) (group source : Addr) : bool :=
  let group := unmap group in
  let source := unmap source in
  if isAllHostsGroup group then true
  else match loadDispatchGroup s group with Some d => filterAccepts (md_filter d) source | None => false end.

Definition acceptsDestination {A} (network : networkState A) (s : multicastState) (group : Addr) : bool :=
  let group := unmap group in
  if negb (networkStateHasFamily network (is6 group)) then false
  else match loadDispatchGroup s group with
       | Some d => negb (zlen (md_udp d) =? 0) || negb (zlen (md_ip d) =? 0)
       | None => false
       end.

(** ** Membership operations *)

Definition removeGroupLocked (group : Addr) (s : multicastState) : multicastState :=
  let s := updateGroup group (fun g => g <| gs_dispatch := None |>) s in
  let s := s <| ms_groups := delete group (ms_groups s) |> in
  if multicastGroupNeedsReport group
  then let v6 := multicastFamilyIndex group in
       s <| ms_familyGroups := setFamily v6 (atFamily v6 (ms_familyGroups s) - 1) (ms_familyGroups s) |>
  else s.

(** The checks of [change]: the filter the operation starts from, or its error. *)
Definition checkOperation (operation : multicastMembershipOperation) (filter : option multicastFilter) (source : Addr)
    : outcome multicastFilter :=
  match operation with
  | multicastJoinAnySource =>
      match filter with Some _ => Fail EADDRINUSE | None => Ret (mkFilter multicastFilterExclude ∅) end
  | multicastLeaveGroup =>
      match filter with Some f => Ret f | None => Fail EADDRNOTAVAIL end
  | multicastJoinSource =>
      match filter with
      | None => Ret (mkFilter multicastFilterInclude ∅)
      | Some f =>
          if bool_decide (mf_mode f = multicastFilterInclude)
          then if bool_decide (source ∈ mf_sources f) then Fail EADDRINUSE else Ret f
          else Fail EINVAL
      end
  | multicastLeaveSource =>
      match filter with
      | None => Fail EINVAL
      | Some f =>
          if bool_decide (mf_mode f = multicastFilterInclude)
          then if bool_decide (source ∈ mf_sources f) then Ret f else Fail EADDRNOTAVAIL
          else Fail EINVAL
      end
  | multicastExcludeSource =>
      match filter with
      | None => Fail EINVAL
      | Some f =>
          if bool_decide (mf_mode f = multicastFilterExclude)
          then if bool_decide (source ∈ mf_sources f) then Fail EADDRINUSE else Ret f
          else Fail EINVAL
      end
  | multicastIncludeSource =>
      match filter with
      | None => Fail EINVAL
      | Some f =>
          if bool_decide (mf_mode f = multicastFilterExclude)
          then if bool_decide (source ∈ mf_sources f) then Ret f else Fail EADDRNOTAVAIL
          else Fail EINVAL
      end
  end.

(** The member's filter after the operation; [None] ends the membership. *)
Definition applyOperation (operation : multicastMembershipOperation) (filter : multicastFilter) (source : Addr) : option multicastFilter :=
  match operation with
  | multicastLeaveGroup => None
  | multicastJoinSource | multicastExcludeSource => Some (mkFilter (mf_mode filter) ({[source]} ∪ mf_sources filter))
  | multicastLeaveSource =>
      let sources := mf_sources filter ∖ {[source]} in
      if bool_decide (sources = ∅) then None else Some (mkFilter (mf_mode filter) sources)
  | multicastIncludeSource => Some (mkFilter (mf_mode filter) (mf_sources filter ∖ {[source]}))
  | multicastJoinAnySource => Some filter
  end.

Definition newGroup : multicastGroupState := mkGroup ∅ (mkFilter multicastFilterInclude ∅) None noPendingQuery false.

(** The group of an accepted operation, created when it is new. *)
Definition ensureGroup (group : Addr) (s : multicastState) : multicastState :=
  match ms_groups s !! group with
  | Some _ => s
  | None =>
      let id := ms_fresh s in
      let s := s <| ms_objects := <[id := newGroup]> (ms_objects s) |>
                 <| ms_fresh := id + 1 |>
                 <| ms_groups := <[group := id]> (ms_groups s) |> in
      if multicastGroupNeedsReport group
      then let v6 := multicastFamilyIndex group in
           s <| ms_familyGroups := setFamily v6 (atFamily v6 (ms_familyGroups s) + 1) (ms_familyGroups s) |>
      else s
  end.

(** The members of a group have changed: it ends without members, and otherwise
    its aggregate is recomputed. *)
Definition settleGroup (group : Addr) (s : multicastState) : multicastState :=
  match groupAt s group with
  | None => s
  | Some g =>
      if bool_decide (gs_members g = ∅) then removeGroupLocked group s
      else updateGroup group (fun g => g <| gs_aggregate := aggregateMulticastFilter (gs_members g) |>) s
  end.

Definition lastReporterOf (g : option multicastGroupState) : bool :=
  match g with Some g => gs_lastReporter g | None => false end.

Definition setMember (endpoint : multicastEndpoint) (filter : option multicastFilter) (g : multicastGroupState) : multicastGroupState :=
  g <| gs_members := partial_alter (fun _ => filter) endpoint (gs_members g) |>.

Definition change (now : Z) (endpoint : multicastEndpoint) (operation : multicastMembershipOperation) (group source : Addr)
    (s : multicastState) : outcome multicastState :=
  let groupState := groupAt s group in
  let '(old, oldExists) := multicastInterfaceFilter groupState in
  let oldLastReporter := lastReporterOf groupState in
  let filter := g ← groupState; gs_members g !! endpoint in
  filter ← checkOperation operation filter source;
  let s := ensureGroup group s in
  let s := updateGroup group (setMember endpoint (applyOperation operation filter source)) s in
  let s := settleGroup group s in
  let s := interfaceStateChangedLocked now group old oldExists oldLastReporter s in
  Ret (rebuildGroupDispatchLocked group s).

Definition set (now : Z) (endpoint : multicastEndpoint) (group : Addr) (mode : multicastFilterMode) (sources : gset Addr)
    (s : multicastState) : outcome multicastState :=
  let empty := bool_decide (mode = multicastFilterInclude) && bool_decide (sources = ∅) in
  let groupState := groupAt s group in
  match (g ← groupState; gs_members g !! endpoint) with
  | None => if empty then Fail EADDRNOTAVAIL else Fail EINVAL
  | Some _ =>
      let '(old, oldExists) := multicastInterfaceFilter groupState in
      let oldLastReporter := lastReporterOf groupState in
      let filter := if empty then None else Some (mkFilter mode sources) in
      let s := updateGroup group (setMember endpoint filter) s in
      let s := settleGroup group s in
      let s := interfaceStateChangedLocked now group old oldExists oldLastReporter s in
      Ret (rebuildGroupDispatchLocked group s)
  end.

(** One group of a bulk change: [edit] gives the new members, [None] when the
    group is not concerned.  The second result tells whether the group ended. *)
Definition editGroup (now : Z) (edit : gmap multicastEndpoint multicastFilter -> option (gmap multicastEndpoint multicastFilter)) (group : Addr)
    (s : multicastState) : multicastState * bool :=
  let groupState := groupAt s group in
  match (g ← groupState; edit (gs_members g)) with
  | None => (s, false)
  | Some members =>
      let '(old, oldExists) := multicastInterfaceFilter groupState in
      let oldLastReporter := lastReporterOf groupState in
      let removed := bool_decide (members = ∅) in
      let s := updateGroup group (fun g => g <| gs_members := members |>) s in
      let s := settleGroup group s in
      let s := interfaceStateChangedLocked now group old oldExists oldLastReporter s in
      (if removed then s else rebuildGroupDispatchLocked group s, removed)
  end.

(** A bulk change over the groups in the order the map is visited. *)
Fixpoint editGroups (now : Z) (edit : Addr -> gmap multicastEndpoint multicastFilter -> option (gmap multicastEndpoint multicastFilter))
    (order : list Addr) (s : multicastState) (indexChanged : bool) : multicastState :=
  match order with
  | [] => if indexChanged then rebuildDispatchIndexLocked s else s
  | group :: rest =>
      let '(s, removed) := editGroup now (edit group) group s in
      editGroups now edit rest s (indexChanged || removed)
  end.

Definition withoutEndpoint (endpoint : multicastEndpoint) (members : gmap multicastEndpoint multicastFilter)
    : option (gmap multicastEndpoint multicastFilter) :=
  match members !! endpoint with
  | None => None
  | Some _ => Some (delete endpoint members)
  end.

Definition removeEndpoint (now : Z) (endpoint : multicastEndpoint) (order : list Addr) (s : multicastState) : multicastState :=
  editGroups now (fun _ => withoutEndpoint endpoint) order s false.

(** A member's filter without the sources the network forbids; [None] ends the
    membership. *)
Definition validSources {A} (network : networkState A) (v6 : bool) (f : multicastFilter) : gset Addr :=
  filter (fun source => validMulticastSourceAddress network source v6 = true) (mf_sources f).

Definition updatedFilter {A} (network : networkState A) (v6 : bool) (f : multicastFilter) : option multicastFilter :=
  let sources := validSources network v6 f in
  if bool_decide (sources = mf_sources f) then Some f
  else if bool_decide (mf_mode f = multicastFilterInclude) && bool_decide (sources = ∅) then None
  else Some (mkFilter (mf_mode f) sources).

Definition withoutInvalidSources {A} (network : networkState A) (group : Addr) (members : gmap multicastEndpoint multicastFilter)
    : option (gmap multicastEndpoint multicastFilter) :=
  let changed := existsb (fun '(_, f) => negb (bool_decide (validSources network (is6 group) f = mf_sources f))) (map_to_list members) in
  if changed then Some (omap (updatedFilter network (is6 group)) members) else None.

Definition removeInvalidSourcesLocked {A} (now : Z) (network : networkState A) (order : list Addr) (s : multicastState) : multicastState :=
  editGroups now (withoutInvalidSources network) order s false.

(** The general response a new configuration schedules for a family. *)
Definition announceFamily {A} (now : Z) (network : networkState A) (v6 : bool) (s : multicastState) : multicastState :=
  if negb (atFamily v6 (ms_familyGroups s) =? 0) && networkStateHasFamily network v6
  then s <| ms_generalQuery := setFamily v6 now (ms_generalQuery s) |> else s.

Definition updateConfig {A} (now : Z) (network : networkState A) (order : list Addr) (s : multicastState) : multicastState :=
  if ms_closed s then s
  else
    let s := removeInvalidSourcesLocked now network order s in
    wakeLocked (announceFamily now network true (announceFamily now network false s)).

Definition close (s : multicastState) : multicastState :=
  let shared := map_imap (fun id g => Some (if existsb (fun '(_, member) => member =? id) (map_to_list (ms_groups s))
                                            then g <| gs_dispatch := None |> else g)) (ms_objects s) in
  s <| ms_closed := true |>
    <| ms_reportCancel := mkFamily (fam4 (ms_reportCancel s) + 1) (fam6 (ms_reportCancel s) + 1) |>
    <| ms_objects := shared |> <| ms_groups := ∅ |> <| ms_retransmissions := ∅ |> <| ms_dispatch := None |>
    <| ms_familyGroups := mkFamily 0 0 |> <| ms_generalQuery := mkFamily 0 0 |>.

(** The state [newMulticastState] publishes, from the querier variables heard
    before the first membership and a random seed. *)
Definition newMulticastState (now : Z) (seed : option multicastQuerierState) (random : Z) : multicastState :=
  let querier := match seed with
                 | Some q => fst (refresh q now)
                 | None => defaultMulticastQuerierState
                 end in
  mkMulticast querier ∅ 0 ∅ ∅ (mkFamily 0 0) (mkFamily 0 0) random false false (Some ∅) (mkFamily 0 0).

(** ** Entry points of the stack

    [registered] stands for the test of the endpoint against the socket tables,
    [dual] and [v6] for the families of the socket; a closed stack has no state to change.  [ErrClosed] is
    [net.ErrClosed]. *)

Inductive MulticastSourceFilterMode := MulticastSourceFilterExclude | MulticastSourceFilterInclude.

Inductive stackResult (T : Type) :=
| Done (value : T)
| Refused (error : errno)
| Closed.
Arguments Done {T} value.
Arguments Refused {T} error.
Arguments Closed {T}.

Definition operationNeedsSource (operation : multicastMembershipOperation) : bool :=
  match operation with multicastJoinAnySource | multicastLeaveGroup => false | _ => true end.

Definition operationExcludes (operation : multicastMembershipOperation) : bool :=
  match operation with multicastJoinAnySource | multicastExcludeSource | multicastIncludeSource => true | _ => false end.

Definition liftOutcome {T} (o : outcome T) : stackResult T :=
  match o with Ret v => Done v | Fail e => Refused e | Panic => Closed end.

Definition multicastEndpointSupportsGroup (dual v6 : bool) (group : Addr) : bool := dual || Bool.eqb v6 (is6 group).

(** The optional dispatcher: created by the first join. *)
Definition changeMulticastMembership {A} (network : networkState A) (now : Z) (closed registered dual v6 : bool)
    (seed : option multicastQuerierState) (random : Z) (endpoint : multicastEndpoint) (operation : multicastMembershipOperation)
    (group source : Addr) (multicast : option multicastState) : stackResult multicastState :=
  let group := unmap group in
  let source := unmap source in
  if negb (validMulticastGroup group) then Refused EINVAL
  else if isSourceSpecificMulticast group && operationExcludes operation then Refused EINVAL
  else if isValid source && negb (validMulticastSourceSyntax source (is6 group)) then Refused EINVAL
  else if operationNeedsSource operation && negb (isValid source) then Refused EINVAL
  else if closed || negb registered then Closed
  else if negb (multicastEndpointSupportsGroup dual v6 group) then Refused EAFNOSUPPORT
  else if isValid source && negb (validMulticastSourceAddress network source (is6 group)) then Refused EINVAL
  else
    match multicast with
    | Some state => liftOutcome (change now endpoint operation group source state)
    | None =>
        match operation with
        | multicastJoinAnySource | multicastJoinSource =>
            liftOutcome (change now endpoint operation group source (newMulticastState now seed random))
        | multicastLeaveGroup => Refused EADDRNOTAVAIL
        | _ => Refused EINVAL
        end
    end.

Definition filterModeOf (mode : MulticastSourceFilterMode) : multicastFilterMode :=
  match mode with MulticastSourceFilterInclude => multicastFilterInclude | MulticastSourceFilterExclude => multicastFilterExclude end.

(** [mode] is a number outside both constants when it is [None]. *)
Definition setMulticastSourceFilter {A} (network : networkState A) (now : Z) (closed registered dual v6 : bool)
    (endpoint : multicastEndpoint) (group : Addr) (mode : option MulticastSourceFilterMode) (sources : list Addr)
    (multicast : option multicastState) : stackResult multicastState :=
  let group := unmap group in
  match mode with
  | None => Refused EINVAL
  | Some mode =>
      if negb (validMulticastGroup group) then Refused EINVAL
      else if (match mode with MulticastSourceFilterExclude => true | _ => false end) && isSourceSpecificMulticast group then Refused EINVAL
      else if negb (forallb (fun source => validMulticastSourceSyntax (unmap source) (is6 group)) sources) then Refused EINVAL
      else
        let set_sources := list_to_set (unmap <$> sources) : gset Addr in
        if closed || negb registered then Closed
        else if negb (multicastEndpointSupportsGroup dual v6 group) then Refused EAFNOSUPPORT
        else if negb (forallb (fun source => validMulticastSourceAddress network source (is6 group)) (elements set_sources)) then Refused EINVAL
        else
          match multicast with
          | Some state => liftOutcome (set now endpoint group (filterModeOf mode) set_sources state)
          | None =>
              if bool_decide (filterModeOf mode = multicastFilterInclude) && bool_decide (set_sources = ∅)
              then Refused EADDRNOTAVAIL else Refused EINVAL
          end
  end.

(** [netip.Addr.Compare] is negative. *)
Definition addrLess (one other : Addr) : bool :=
  (bitLen one <? bitLen other)
  || (bitLen one =? bitLen other)
     && ((be_val (asSlice one) <? be_val (asSlice other))
         || (be_val (asSlice one) =? be_val (asSlice other)) && is6 one && String.ltb (zoneOf one) (zoneOf other)).

Definition sortedMulticastSources (sources : gset Addr) : list Addr := sortBy addrLess (elements sources).

Definition multicastSourceFilter (closed registered : bool) (endpoint : multicastEndpoint) (group : Addr)
    (multicast : option multicastState) : stackResult (MulticastSourceFilterMode * list Addr) :=
  let group := unmap group in
  if negb (validMulticastGroup group) then Refused EINVAL
  else if closed || negb registered then Closed
  else
    match multicast with
    | None => Refused EADDRNOTAVAIL
    | Some state =>
        match (g ← groupAt state group; gs_members g !! endpoint) with
        | None => Refused EADDRNOTAVAIL
        | Some current =>
            let mode := match mf_mode current with
                        | multicastFilterExclude => MulticastSourceFilterExclude
                        | multicastFilterInclude => MulticastSourceFilterInclude
                        end in
            Done (mode, sortedMulticastSources (mf_sources current))
        end
    end.

(** ** Delivery

    What delivery reads of a connection; [remote] is [None] when the socket is
    not connected. *)

Record udpConnection := mkUdpConnection { uc_local : Addr; uc_port : Z; uc_remote : option (Addr * Z) }.
Record ipConnection := mkIpConnection { ic_local : Addr; ic_protocol : Z; ic_remote : option Addr }.

(** The UDP connections a datagram is queued on, in order. *)
Definition deliverUDP (connectionOf : Z -> udpConnection) (s : multicastState) (source target : Addr) (sourcePort targetPort : Z) : list Z :=
  match loadDispatchGroup s target with
  | None => []
  | Some group =>
      omap (fun '(c, f) =>
              let connection := connectionOf c in
              if negb (isUnspecified (uc_local connection)) || negb (uc_port connection =? targetPort)
                 || match uc_remote connection with Some remote => negb (bool_decide (remote = (source, sourcePort))) | None => false end
                 || negb (filterAccepts f source)
              then None else Some c) (md_udp group)
  end.

Definition deliverIP (connectionOf : Z -> ipConnection) (s : multicastState) (source target : Addr) (protocol : Z) : list Z :=
  match loadDispatchGroup s target with
  | None => []
  | Some group =>
      omap (fun '(c, f) =>
              let connection := connectionOf c in
              if negb (isUnspecified (ic_local connection)) || negb (ic_protocol connection =? protocol)
                 || match ic_remote connection with Some remote => negb (bool_decide (remote = source)) | None => false end
                 || negb (filterAccepts f source)
              then None else Some c) (md_ip group)
  end.

(** Raw sockets inherit the all-hosts group; an explicit membership's filter
    applies where there is one. *)
Definition deliverImplicitIP (connectionOf : Z -> ipConnection) (connections : list Z) (s : multicastState) (source target : Addr) : list Z :=
  let explicit := match loadDispatchGroup s target with Some group => md_ip group | None => [] end in
  omap (fun c =>
          let blocked := match ic_remote (connectionOf c) with Some remote => negb (bool_decide (remote = source)) | None => false end in
          let allowed := match List.find (fun '(member, _) => member =? c) explicit with
                         | Some (_, f) => filterAccepts f source
                         | None => true
                         end in
          if blocked || negb allowed then None else Some c) connections.

(** ** Output to groups and broadcast addresses

    The hop limit, whether the packet leaves the host, and whether it loops back. *)

Definition nonUnicastOutputPolicy (target : Addr) (multicastHopLimit : Z) (multicastLoopback broadcast : bool) (hopLimit : Z) (hopLimitSet : bool)
    : outcome (Z * bool * bool * bool) :=
  if isMulticast target then
    let limit := if hopLimitSet then hopLimit else multicastHopLimit in
    let external := negb (limit =? 0) in
    let external := if is6 target && (byteAt (as16 target) 1 .& 15 <=? 1) then false else external in
    Ret (limit, true, external, multicastLoopback)
  else if negb broadcast then Fail EACCES
  else Ret (hopLimit, hopLimitSet, true, true).
