(* ===== verification/MulticastReport.v ===== *)
(** * Multicast queries and reports

    The protocol half of [multicast.go]: parsing of IGMP and MLD queries, the
    schedule of responses, host suppression in the older versions, the worker's
    turn that collects due reports, their packing into packets and the bytes of
    each message.  The loops over maps take the order of the visit. *)

From stdpp Require Import strings gmap.
From S2P Require Import Prelude Addr Checksum IpPacket Ingress Network Multicast.

(** ** Wire constants *)

Definition igmpMembershipQuery : Z := 17.
Definition igmpV1MembershipReport : Z := 18.
Definition igmpV2MembershipReport : Z := 22.
Definition igmpV2LeaveGroup : Z := 23.
Definition igmpV3MembershipReport : Z := 34.
Definition mldMembershipQuery : Z := 130.
Definition mldV1MembershipReport : Z := 131.
Definition mldV1ListenerDone : Z := 132.
Definition mldV2MembershipReport : Z := 143.
Definition multicastRecordModeIsInclude : Z := 1.
Definition multicastRecordModeIsExclude : Z := 2.
Definition multicastRecordChangeToIncludeMode : Z := 3.
Definition multicastRecordChangeToExcludeMode : Z := 4.
Definition multicastRecordAllowNewSources : Z := 5.
Definition multicastRecordBlockOldSources : Z := 6.

(** ** Data *)

Record multicastQuery := mkQuery {
  q_v6 : bool;
  q_version : Z;
  q_group : Addr;
  q_sources : list Addr;
  q_maximum : Z;
  q_legacyMaximum : Z;
  q_robustness : Z;
  q_queryInterval : Z }.

#[export] Instance multicastQuery_settable : Settable multicastQuery :=
  fun q => mkQuery (q_v6 q) (q_version q) (q_group q) (q_sources q) (q_maximum q) (q_legacyMaximum q) (q_robustness q) (q_queryInterval q).

Record multicastReportRecord := mkRecord {
  rr_type : Z;
  rr_group : Addr;
  rr_sources : list Addr }.

Record multicastReportBatch := mkBatch {
  rb_v6 : bool;
  rb_legacy : Z;
  rb_group : Addr;
  rb_exists : bool;
  rb_lastReporter : bool;
  rb_records : list multicastReportRecord;
  rb_cancel : Z }.

(** ** Times *)

Definition decodeIGMPv2Time (code : Z) : Z := code * 100 * millisecond.

(** The floating eight-bit code shared by three fields. *)
Definition floatingCode8 (code : Z) : Z :=
  if 128 <=? code then u32 (Z.shiftl (code .& 15 .| 16) ((Z.shiftr code 4 .& 7) + 3)) else code.

Definition decodeIGMPTime (code : Z) : Z := floatingCode8 code * 100 * millisecond.

Definition decodeIGMPQueryInterval (code : Z) : Z := floatingCode8 code * second.

Definition decodeMLDTime (code : Z) : Z :=
  (if 32768 <=? code then u32 (Z.shiftl (code .& 4095 .| 4096) ((Z.shiftr code 12 .& 7) + 3)) else code) * millisecond.

(** ** Queries on the wire

    [None] of the outer option is a panic; of the inner one, a rejected message. *)

(** The loop over [count] source addresses of [width] bytes. *)
Fixpoint querySources {A} (network : networkState A) (v6 : bool) (width : Z) (payload : list Z) (offset : Z) (count : nat)
    (sources : list Addr) : option (option (list Addr)) :=
  match count with
  | O => Some (Some sources)
  | S count =>
      bytes ← slice payload offset (offset + width);
      let source := if v6 then Addr6 bytes noZone else Addr4 bytes in
      if negb (validMulticastSourceAddress network source v6) then Some None
      else querySources network v6 width payload (offset + width) count (sources ++ [source])
  end.

(** The variable part of a current-version query that starts at [base]. *)
Definition queryTail {A} (network : networkState A) (v6 : bool) (base width : Z) (payload : list Z) (query : multicastQuery)
    : option (option multicastQuery) :=
  if zlen payload <? base + 4 then Some None
  else
    robustness ← idx payload base;
    interval ← idx payload (base + 1);
    count ← be16 payload (base + 2);
    if (multicastMaximumQuerySources <? count) || (zlen payload - (base + 4) <? count * width) then Some None
    else
      found ← querySources network v6 width payload (base + 4) (Z.to_nat count) [];
      Some (sources ← found;
            Some (query <| q_robustness := robustness .& 7 |>
                        <| q_queryInterval := decodeIGMPQueryInterval interval |>
                        <| q_sources := sources |>)).

Definition emptyQuery (v6 : bool) (version maximum : Z) : multicastQuery :=
  mkQuery v6 version AddrInvalid [] maximum 0 0 0.

Definition parseIGMPQuery {A} (bigEndian : bool) (packet : ipPacket) (network : networkState A) (skipChecksum : bool)
    : option (option (multicastQuery * Addr)) :=
  let payload := pk_payload packet in
  if zlen payload <? 8 then Some None
  else
    kind ← idx payload 0;
    if negb (kind =? igmpMembershipQuery) || negb (pk_hopLimit packet =? 1)
       || negb skipChecksum && negb (checksum bigEndian payload =? 0)
    then Some None
    else
      code ← idx payload 1;
      found ← (if zlen payload =? 8 then
                 Some (Some (if code =? 0 then emptyQuery false 1 multicastDefaultResponseInterval
                             else emptyQuery false 2 (decodeIGMPv2Time code)))
               else queryTail network false 8 4 payload (emptyQuery false 3 (decodeIGMPTime code)));
      match found with
      | None => Some None
      | Some query =>
          alert ← (if 2 <=? q_version query then hasRouterAlert packet else Some true);
          if negb alert then Some None
          else
            bytes ← slice payload 4 8;
            let group := Addr4 bytes in
            if (q_version query =? 1) && negb (isUnspecified group)
               || negb (isUnspecified group) && negb (validMulticastGroup group)
               || negb (zlen (q_sources query) =? 0) && isUnspecified group
            then Some None
            else
              let expected := if isUnspecified group then Addr4 [224; 0; 0; 1] else group in
              Some (Some (query <| q_group := group |> <| q_legacyMaximum := q_maximum query |>, expected))
      end.

Definition allNodes : Addr := Addr6 ([255; 2] ++ replicate 13 0 ++ [1]) noZone.

Definition parseMLDQuery {A} (bigEndian : bool) (packet : ipPacket) (network : networkState A) (skipChecksum : bool)
    : option (option (multicastQuery * Addr)) :=
  let payload := pk_payload packet in
  if zlen payload <? 24 then Some None
  else
    kind ← idx payload 0;
    zero ← idx payload 1;
    if negb (kind =? mldMembershipQuery) || negb (zero =? 0) || negb (pk_hopLimit packet =? 1) then Some None
    else
      alert ← hasRouterAlert packet;
      if negb alert || negb (isLinkLocalUnicast (pk_source packet))
         || negb skipChecksum
            && negb (transportChecksum bigEndian (pk_source packet) (pk_target packet) ProtocolICMPv6 payload =? 0)
      then Some None
      else
        field ← be16 payload 4;
        let legacyResponse := field * millisecond in
        let query := emptyQuery true 1 legacyResponse <| q_legacyMaximum := legacyResponse |> in
        found ← (if negb (zlen payload =? 24)
                 then queryTail network true 24 16 payload (query <| q_version := 2 |> <| q_maximum := decodeMLDTime field |>)
                 else Some (Some query));
        match found with
        | None => Some None
        | Some query =>
            bytes ← slice payload 8 24;
            let group := Addr6 bytes noZone in
            if negb (isUnspecified group) && negb (validMulticastGroup group)
               || negb (zlen (q_sources query) =? 0) && isUnspecified group
            then Some None
            else Some (Some (query <| q_group := group |>, if isUnspecified group then allNodes else group))
        end.

(** The assigned-address exceptions; [memberships] is [None] before the first
    membership. *)
Definition acceptsMulticastControlDestination {A} (network : networkState A) (memberships : option multicastState)
    (target expected : Addr) : bool :=
  let target := unmap target in
  bool_decide (target = expected) || networkStateHasLocal network target
  || isAllHostsGroup target && networkStateHasFamily network (is6 target)
  || isMulticast target && match memberships with Some s => acceptsDestination network s target | None => false end.

(** ** Scheduling responses *)

(** The SplitMix64 step of [randomDelayLocked]; [u64] arithmetic. *)
Definition splitMix (value : Z) : Z :=
  let value := u64 (Z.lxor value (Z.shiftr value 30) * 13787848793156543929) in
  let value := u64 (Z.lxor value (Z.shiftr value 27) * 10723151780598845931) in
  Z.lxor value (Z.shiftr value 31).

Definition randomDelayLocked (maximum : Z) (s : multicastState) : Z * multicastState :=
  if maximum <=? 0 then (0, s)
  else
    let random := u64 (ms_random s + 11400714819323198485) in
    (splitMix random mod maximum + nanosecond, s <| ms_random := random |>).

(** An earlier deadline replaces a later one or none. *)
Definition earlier (deadline old : Z) : Z := if (old =? 0) || (deadline <? old) then deadline else old.

(** A General Query in an older mode arms every group of the family. *)
Fixpoint armLegacyGroups (v6 : bool) (maximum now : Z) (order : list Addr) (s : multicastState) : multicastState :=
  match order with
  | [] => s
  | address :: rest =>
      if negb (Bool.eqb (is6 address) v6) || negb (multicastGroupNeedsReport address) then armLegacyGroups v6 maximum now rest s
      else
        match groupAt s address with
        | None => armLegacyGroups v6 maximum now rest s
        | Some g =>
            let '(delay, s) := randomDelayLocked maximum s in
            let deadline := now + delay in
            let s := if (pq_deadline (gs_query g) =? 0) || (deadline <? pq_deadline (gs_query g))
                     then updateGroup address (fun g => g <| gs_query := mkPendingQuery deadline ∅ false |>) s
                     else s in
            armLegacyGroups v6 maximum now rest s
        end
  end.

(** The sources of a query join the pending ones up to the limit. *)
Fixpoint addQuerySources (sources : list Addr) (pending : gset Addr) : gset Addr :=
  match sources with
  | [] => pending
  | source :: rest =>
      if multicastMaximumQuerySources <=? Z.of_nat (size pending) then pending
      else addQuerySources rest ({[source]} ∪ pending)
  end.

Definition mergePendingQuery (query : multicastQuery) (deadline : Z) (pending : multicastPendingQuery) : multicastPendingQuery :=
  if pq_deadline pending =? 0 then
    let sourceQuery := negb (zlen (q_sources query) =? 0) in
    mkPendingQuery deadline (if sourceQuery then list_to_set (q_sources query) else pq_sources pending) sourceQuery
  else if (zlen (q_sources query) =? 0) || negb (pq_sourceQuery pending)
  then mkPendingQuery (if deadline <? pq_deadline pending then deadline else pq_deadline pending) ∅ false
  else mkPendingQuery (if deadline <? pq_deadline pending then deadline else pq_deadline pending)
         (addQuerySources (q_sources query) (pq_sources pending)) true.

(** The query as the compatibility mode reads it, and the state that noted it. *)
Definition noteScheduledQuery (query : multicastQuery) (now : Z) (s : multicastState) : multicastQuery * multicastState :=
  let v6 := q_v6 query in
  let latest := latestVersion v6 in
  let compatibility := atFamily v6 (mq_compatibility (ms_querier s)) in
  if (q_version query =? latest) && (compatibility <? latest) then
    let query := query <| q_sources := [] |> in
    (if v6 then query <| q_maximum := q_legacyMaximum query |>
     else if compatibility =? 1
     then query <| q_group := ipv4Unspecified |> <| q_maximum := multicastDefaultResponseInterval |>
     else query, s)
  else
    (query, noteQueryVersionLocked v6 (q_version query) (isUnspecified (q_group query)) (q_robustness query)
              (q_queryInterval query) (q_maximum query) now s).

Definition scheduleGeneral (v6 : bool) (maximum now : Z) (order : list Addr) (s : multicastState) : multicastState :=
  let legacy := atFamily v6 (mq_compatibility (ms_querier s)) <? latestVersion v6 in
  if legacy then armLegacyGroups v6 maximum now order s
  else if negb (atFamily v6 (ms_familyGroups s) =? 0) then
    let '(delay, s) := randomDelayLocked maximum s in
    s <| ms_generalQuery := setFamily v6 (earlier (now + delay) (atFamily v6 (ms_generalQuery s))) (ms_generalQuery s) |>
  else s.

Definition scheduleQuery (query : multicastQuery) (now : Z) (order : list Addr) (s : multicastState) : multicastState :=
  if ms_closed s then s
  else
    let s := refreshCompatibilityLocked now s in
    let '(query, s) := noteScheduledQuery query now s in
    let v6 := q_v6 query in
    let maximum := if q_maximum query <=? 0 then nanosecond else q_maximum query in
    if isUnspecified (q_group query) then wakeLocked (scheduleGeneral v6 maximum now order s)
    else
      match groupAt s (q_group query) with
      | None => s
      | Some g =>
          if negb (multicastGroupNeedsReport (q_group query)) then s
          else
            let '(delay, s) := randomDelayLocked maximum s in
            let deadline := now + delay in
            let general := atFamily v6 (ms_generalQuery s) in
            if negb (general =? 0) && negb (deadline <? general) then s
            else
              wakeLocked (updateGroup (q_group query) (fun g => g <| gs_query := mergePendingQuery query deadline (gs_query g) |>) s)
      end.

(** [multicastQuerierSeed.noteQuery], before the first membership. *)
Definition seedNoteQuery (query : multicastQuery) (now : Z) (q : multicastQuerierState) : multicastQuerierState :=
  let q := fst (refresh q now) in
  let v6 := q_v6 query in
  let latest := latestVersion v6 in
  if (q_version query =? latest) && (atFamily v6 (mq_compatibility q) <? latest) then q
  else
    fst (refresh (noteQueryVersion q v6 (q_version query) (isUnspecified (q_group query)) (q_robustness query)
                    (q_queryInterval query) (q_maximum query) now) now).

Definition heardLegacyReport (group : Addr) (now : Z) (s : multicastState) : multicastState :=
  if isSourceSpecificMulticast group then s
  else if ms_closed s then s
  else
    let s := refreshCompatibilityLocked now s in
    let v6 := multicastFamilyIndex group in
    if atFamily v6 (mq_compatibility (ms_querier s)) =? latestVersion (is6 group) then s
    else
      let s :=
        match groupAt s group with
        | None => s
        | Some _ =>
            let s := updateGroup group (fun g => g <| gs_query := noPendingQuery |> <| gs_lastReporter := false |>) s in
            match ms_retransmissions s !! group with
            | Some pending => if rt_exists pending then s <| ms_retransmissions := delete group (ms_retransmissions s) |> else s
            | None => s
            end
        end in
      wakeLocked s.

(** ** Control packets *)

Definition handleIGMP {A} (bigEndian : bool) (network : networkState A) (packet : ipPacket) (receivedAt now : Z) (skipChecksum : bool)
    (order : list Addr) (s : multicastState) : option multicastState :=
  let payload := pk_payload packet in
  match payload with
  | [] => Some s
  | kind :: _ =>
      if kind =? igmpMembershipQuery then
        parsed ← parseIGMPQuery bigEndian packet network skipChecksum;
        Some (match parsed with
              | Some (query, expected) =>
                  if acceptsMulticastControlDestination network (Some s) (pk_target packet) expected
                  then scheduleQuery query receivedAt order s else s
              | None => s
              end)
      else if (zlen payload <? 8) || negb (pk_hopLimit packet =? 1)
              || negb skipChecksum && negb (checksum bigEndian payload =? 0)
      then Some s
      else if (kind =? igmpV1MembershipReport) || (kind =? igmpV2MembershipReport) then
        alert ← (if kind =? igmpV2MembershipReport then hasRouterAlert packet else Some true);
        if negb alert then Some s
        else
          bytes ← slice payload 4 8;
          let group := Addr4 bytes in
          Some (if isMulticast group && acceptsMulticastControlDestination network (Some s) (pk_target packet) group
                then heardLegacyReport group now s else s)
      else Some s
  end.

Definition handleMLD {A} (bigEndian : bool) (network : networkState A) (packet : ipPacket) (receivedAt now : Z) (skipChecksum : bool)
    (order : list Addr) (s : multicastState) : option multicastState :=
  let payload := pk_payload packet in
  match payload with
  | [] => Some s
  | kind :: _ =>
      if kind =? mldMembershipQuery then
        parsed ← parseMLDQuery bigEndian packet network skipChecksum;
        Some (match parsed with
              | Some (query, expected) =>
                  if acceptsMulticastControlDestination network (Some s) (pk_target packet) expected
                  then scheduleQuery query receivedAt order s else s
              | None => s
              end)
      else if zlen payload <? 8 then Some s
      else
        zero ← idx payload 1;
        if negb (zero =? 0) || negb (pk_hopLimit packet =? 1) then Some s
        else
          alert ← hasRouterAlert packet;
          if negb alert || negb (isLinkLocalUnicast (pk_source packet))
             || negb skipChecksum
                && negb (transportChecksum bigEndian (pk_source packet) (pk_target packet) ProtocolICMPv6 payload =? 0)
          then Some s
          else if (kind =? mldV1MembershipReport) && (24 <=? zlen payload) then
            bytes ← slice payload 8 24;
            let group := Addr6 bytes noZone in
            Some (if isMulticast group && acceptsMulticastControlDestination network (Some s) (pk_target packet) group
                  then heardLegacyReport group now s else s)
          else Some s
  end.

Definition handleControl {A} (bigEndian : bool) (network : networkState A) (packet : ipPacket) (receivedAt now : Z) (skipChecksum : bool)
    (order : list Addr) (s : multicastState) : option multicastState :=
  if pk_protocol packet =? ProtocolIGMP then handleIGMP bigEndian network packet receivedAt now skipChecksum order s
  else handleMLD bigEndian network packet receivedAt now skipChecksum order s.

Definition isMulticastControlPacket (packet : ipPacket) : bool :=
  ((pk_protocol packet =? ProtocolIGMP) && is4 (pk_source packet))
  || (pk_protocol packet =? ProtocolICMPv6)
     && match pk_payload packet with
        | kind :: _ => (kind =? mldMembershipQuery) || (kind =? mldV1MembershipReport) || (kind =? mldV1ListenerDone) || (kind =? mldV2MembershipReport)
        | [] => false
        end.

(** Before the first membership a query is only noted in the seed. *)
Definition multicastStateForQuery {A} (bigEndian closed : bool) (network : networkState A) (packet : ipPacket) (receivedAt : Z)
    (skipChecksum : bool) (seed : option multicastQuerierState) : option (option multicastQuerierState) :=
  match pk_payload packet with
  | [] => Some seed
  | kind :: _ =>
      parsed ← (if pk_protocol packet =? ProtocolIGMP
                then if negb (kind =? igmpMembershipQuery) then Some None else parseIGMPQuery bigEndian packet network skipChecksum
                else if pk_protocol packet =? ProtocolICMPv6
                then if negb (kind =? mldMembershipQuery) then Some None else parseMLDQuery bigEndian packet network skipChecksum
                else Some None);
      Some (match parsed with
            | Some (query, expected) =>
                if negb (acceptsMulticastControlDestination network None (pk_target packet) expected) || closed then seed
                else Some (seedNoteQuery query receivedAt (default defaultMulticastQuerierState seed))
            | None => seed
            end)
  end.

(** ** The worker's turn *)

(** A counter table after one report: the sources it carried in order, and the
    remaining counters. *)
Definition advanceMulticastSourceCounters (counters : gmap Addr Z) : list Addr * gmap Addr Z :=
  (sortBy addrLess (map_to_list counters).*1,
   omap (fun remaining => if remaining <=? 1 then None else Some (remaining - 1)) counters).

Definition counted (counters : gmap Addr Z) : bool := negb (bool_decide (counters = ∅)).

(** The records of one state-change report, the pending state behind it, and
    whether anything remains. *)
Definition advanceRetransmissionLocked (p : multicastRetransmission)
    : list multicastReportRecord * multicastRetransmission * bool :=
  if negb (rt_modeRemaining p =? 0) then
    let recordType := match mf_mode (rt_filter p) with
                      | multicastFilterExclude => multicastRecordChangeToExcludeMode
                      | multicastFilterInclude => multicastRecordChangeToIncludeMode
                      end in
    let p := p <| rt_modeRemaining := rt_modeRemaining p - 1 |> in
    ([mkRecord recordType AddrInvalid (sortedMulticastSources (mf_sources (rt_filter p)))], p,
     negb (rt_modeRemaining p =? 0) || counted (rt_allow p) || counted (rt_block p))
  else
    let '(allowed, allow) := advanceMulticastSourceCounters (rt_allow p) in
    let '(blocked, block) := advanceMulticastSourceCounters (rt_block p) in
    ((if counted (rt_allow p) then [mkRecord multicastRecordAllowNewSources AddrInvalid allowed] else [])
     ++ (if counted (rt_block p) then [mkRecord multicastRecordBlockOldSources AddrInvalid blocked] else []),
     p <| rt_allow := allow |> <| rt_block := block |>,
     counted allow || counted block).

Definition multicastCurrentStateRecord (group : Addr) (f : multicastFilter) (sourceQuery : bool) (queried : gset Addr)
    : multicastReportRecord :=
  let exclude := bool_decide (mf_mode f = multicastFilterExclude) in
  let recordType := if negb sourceQuery && exclude then multicastRecordModeIsExclude else multicastRecordModeIsInclude in
  let sources :=
    if sourceQuery
    then sortBy addrLess (List.filter (fun source =>
           let listed := bool_decide (source ∈ mf_sources f) in
           negb exclude && listed || exclude && negb listed) (elements queried))
    else sortedMulticastSources (mf_sources f) in
  mkRecord recordType group sources.

Definition legacyVersionLocked (s : multicastState) (v6 : bool) : Z :=
  let compatibility := atFamily v6 (mq_compatibility (ms_querier s)) in
  if compatibility =? latestVersion v6 then 0 else compatibility.

(** One due retransmission. *)
Definition collectRetransmission (now : Z) (group : Addr) (s : multicastState) : list multicastReportBatch * multicastState :=
  match ms_retransmissions s !! group with
  | None => ([], s)
  | Some pending =>
      if now <? rt_due pending then ([], s)
      else
        let '(records, advanced, remains) := advanceRetransmissionLocked pending in
        let v6 := is6 group in
        let legacy := legacyVersionLocked s v6 in
        let records := map (fun r => mkRecord (rr_type r) group (rr_sources r)) records in
        let batch := mkBatch v6 legacy group (rt_exists pending) (rt_lastReporter pending) records (atFamily v6 (ms_reportCancel s)) in
        let s := if negb (legacy =? 0) && rt_exists pending
                 then updateGroup group (fun g => g <| gs_lastReporter := true |>) s else s in
        let batches := if negb (legacy =? 0) || negb (zlen records =? 0) then [batch] else [] in
        let remains := if negb (legacy =? 0) && negb (rt_exists pending) then false else remains in
        if remains then
          let interval := if negb (legacy =? 0) then 10 * second else multicastUnsolicitedReportInterval in
          let '(delay, s) := randomDelayLocked interval s in
          (batches, s <| ms_retransmissions := <[group := advanced <| rt_due := now + delay |>]> (ms_retransmissions s) |>)
        else (batches, s <| ms_retransmissions := delete group (ms_retransmissions s) |>)
  end.

Fixpoint collectRetransmissions (now : Z) (order : list Addr) (s : multicastState) : list multicastReportBatch * multicastState :=
  match order with
  | [] => ([], s)
  | group :: rest =>
      let '(first, s) := collectRetransmission now group s in
      let '(others, s) := collectRetransmissions now rest s in
      (first ++ others, s)
  end.

(** A general response: the legacy batches, the current-state records, and the
    groups whose recorded source lists end. *)
Fixpoint generalRecords (v6 : bool) (order : list Addr) (s : multicastState)
    : list multicastReportBatch * list multicastReportRecord * multicastState :=
  match order with
  | [] => ([], [], s)
  | group :: rest =>
      match groupAt s group with
      | None => generalRecords v6 rest s
      | Some g =>
          if negb (Bool.eqb (is6 group) v6) || negb (multicastGroupNeedsReport group) then generalRecords v6 rest s
          else
            let legacy := legacyVersionLocked s v6 in
            let batches := if negb (legacy =? 0) then [mkBatch v6 legacy group true false [] (atFamily v6 (ms_reportCancel s))] else [] in
            let records := if negb (legacy =? 0) then [] else [multicastCurrentStateRecord group (gs_aggregate g) false ∅] in
            let s := if negb (legacy =? 0) then updateGroup group (fun g => g <| gs_lastReporter := true |>) s else s in
            let s := updateGroup group (fun g => if negb (pq_deadline (gs_query g) =? 0)
                                                 then g <| gs_query := mkPendingQuery (pq_deadline (gs_query g)) ∅ false |> else g) s in
            let '(otherBatches, otherRecords, s) := generalRecords v6 rest s in
            (batches ++ otherBatches, records ++ otherRecords, s)
      end
  end.

Definition collectGeneral (now : Z) (v6 : bool) (order : list Addr) (s : multicastState) : list multicastReportBatch * multicastState :=
  let deadline := atFamily v6 (ms_generalQuery s) in
  if (deadline =? 0) || (now <? deadline) then ([], s)
  else
    let legacy := legacyVersionLocked s v6 in
    let cancel := atFamily v6 (ms_reportCancel s) in
    let '(batches, records, s) := generalRecords v6 order s in
    let batches := if (legacy =? 0) && negb (zlen records =? 0)
                   then batches ++ [mkBatch v6 0 AddrInvalid false false records cancel] else batches in
    (batches, s <| ms_generalQuery := setFamily v6 0 (ms_generalQuery s) |>).

(** One due group response. *)
Definition collectQuery (now : Z) (group : Addr) (s : multicastState) : list multicastReportBatch * multicastState :=
  match groupAt s group with
  | None => ([], s)
  | Some g =>
      let query := gs_query g in
      if (pq_deadline query =? 0) || (now <? pq_deadline query) then ([], s)
      else
        let v6 := is6 group in
        let cancel := atFamily v6 (ms_reportCancel s) in
        let s := updateGroup group (fun g => g <| gs_query := noPendingQuery |>) s in
        let legacy := legacyVersionLocked s v6 in
        if negb (legacy =? 0)
        then ([mkBatch v6 legacy group true false [] cancel], updateGroup group (fun g => g <| gs_lastReporter := true |>) s)
        else
          let record := multicastCurrentStateRecord group (gs_aggregate g) (pq_sourceQuery query) (pq_sources query) in
          (if negb (pq_sourceQuery query) || negb (zlen (rr_sources record) =? 0)
           then [mkBatch v6 0 AddrInvalid false false [record] cancel] else [], s)
  end.

Fixpoint collectQueries (now : Z) (order : list Addr) (s : multicastState) : list multicastReportBatch * multicastState :=
  match order with
  | [] => ([], s)
  | group :: rest =>
      let '(first, s) := collectQuery now group s in
      let '(others, s) := collectQueries now rest s in
      (first ++ others, s)
  end.

(** The earliest of the deadlines that are set. *)
Definition setNext (next candidate : Z) : Z :=
  if negb (candidate =? 0) && ((next =? 0) || (candidate <? next)) then candidate else next.

Definition groupDeadlines (s : multicastState) : list Z :=
  omap (fun '(_, id) => g ← ms_objects s !! id; Some (pq_deadline (gs_query g))) (map_to_list (ms_groups s)).

Definition nextDeadline (s : multicastState) : Z :=
  let q := ms_querier s in
  fold_left setNext
    (map (fun '(_, p) => rt_due p) (map_to_list (ms_retransmissions s))
     ++ [fam4 (ms_generalQuery s); fam6 (ms_generalQuery s)]
     ++ groupDeadlines s
     ++ [mq_igmpV1Until q; mq_igmpV2Until q; mq_mldV1Until q]) 0.

(** The batches of one turn and the next deadline, 0 for none; [retransmitted]
    and [order] are the orders the two maps are visited in. *)
Definition collectReports (now : Z) (retransmitted order : list Addr) (s : multicastState)
    : list multicastReportBatch * Z * multicastState :=
  if ms_closed s then ([], 0, s)
  else
    let s := refreshCompatibilityLocked now s in
    let '(changes, s) := collectRetransmissions now retransmitted s in
    let '(general4, s) := collectGeneral now false order s in
    let '(general6, s) := collectGeneral now true order s in
    let '(specific, s) := collectQueries now order s in
    (changes ++ general4 ++ general6 ++ specific, nextDeadline s, s).

(** ** Packing *)

Record packState := mkPack {
  pa_reports : list (list multicastReportRecord);
  pa_current : list multicastReportRecord;
  pa_size : Z }.

Definition packFlush (reportHeader : Z) (p : packState) : packState :=
  match pa_current p with
  | [] => p
  | _ => mkPack (pa_reports p ++ [pa_current p]) [] reportHeader
  end.

(** The pieces of a divisible record: the loop from [start] in steps of
    [maximumSources]; [fuel] bounds its rounds. *)
Fixpoint packPieces (fuel : nat) (record : multicastReportRecord) (maximumSources start : Z) : option (list (list multicastReportRecord)) :=
  if zlen (rr_sources record) <=? start then Some []
  else
    match fuel with
    | O => None
    | S fuel =>
        let stop := if zlen (rr_sources record) <? start + maximumSources then zlen (rr_sources record) else start + maximumSources in
        sources ← slice (rr_sources record) start stop;
        rest ← packPieces fuel record maximumSources (start + maximumSources);
        Some ([mkRecord (rr_type record) (rr_group record) sources] :: rest)
    end.

Definition indivisible (record : multicastReportRecord) : bool :=
  (rr_type record =? multicastRecordModeIsExclude) || (rr_type record =? multicastRecordChangeToExcludeMode).

Definition packRecord (maximum reportHeader recordHeader addressSize maximumSources : Z) (p : packState) (record : multicastReportRecord)
    : option packState :=
  if maximumSources <? zlen (rr_sources record) then
    let p := packFlush reportHeader p in
    if indivisible record then
      sources ← slice (rr_sources record) 0 maximumSources;
      Some (mkPack (pa_reports p ++ [[mkRecord (rr_type record) (rr_group record) sources]]) (pa_current p) (pa_size p))
    else if maximumSources =? 0 then Some p
    else
      pieces ← packPieces (length (rr_sources record)) record maximumSources 0;
      Some (mkPack (pa_reports p ++ pieces) (pa_current p) (pa_size p))
  else
    let size := recordHeader + addressSize * zlen (rr_sources record) in
    let p := if maximum <? pa_size p + size then packFlush reportHeader p else p in
    Some (mkPack (pa_reports p) (pa_current p ++ [record]) (pa_size p + size)).

Fixpoint packRecords (maximum reportHeader recordHeader addressSize maximumSources : Z) (p : packState)
    (records : list multicastReportRecord) : option packState :=
  match records with
  | [] => Some p
  | record :: rest =>
      p ← packRecord maximum reportHeader recordHeader addressSize maximumSources p record;
      packRecords maximum reportHeader recordHeader addressSize maximumSources p rest
  end.

Definition packMulticastRecords (records : list multicastReportRecord) (maximum reportHeader recordHeader addressSize : Z)
    : option (list (list multicastReportRecord)) :=
  if maximum <? reportHeader + recordHeader then Some []
  else
    let maximumSources := (maximum - reportHeader - recordHeader) / addressSize in
    p ← packRecords maximum reportHeader recordHeader addressSize maximumSources (mkPack [] [] reportHeader) records;
    Some (pa_reports (packFlush reportHeader p)).

(** ** Messages

    The bytes of each message before the IP layer, written in the order of the
    offsets; a checksum field is zero while the sum is taken. *)

Definition withChecksum (bigEndian : bool) (kind : Z) (rest : list Z) : list Z :=
  let sum := checksum bigEndian (kind :: 0 :: [0; 0] ++ rest) in
  kind :: 0 :: be_bytes 2 sum ++ rest.

(** Type, target and payload of an IGMPv1/v2 report or leave. *)
Definition igmpLegacyReport (bigEndian : bool) (group : Addr) (version : Z) (exists_ lastReporter : bool) : option (Addr * list Z) :=
  if negb (is4 group) || negb (isMulticast group) then None
  else if negb exists_ && ((version <? 2) || negb lastReporter) then None
  else
    let messageType := if negb exists_ then igmpV2LeaveGroup
                       else if 2 <=? version then igmpV2MembershipReport else igmpV1MembershipReport in
    let target := if negb exists_ then Addr4 [224; 0; 0; 2] else group in
    Some (target, withChecksum bigEndian messageType (asSlice group)).

(** The MLD payload; its checksum belongs to the ICMP layer. *)
Definition mldV1Report (group : Addr) (exists_ lastReporter : bool) : option (Addr * list Z) :=
  if negb (is6 group) || negb (isMulticast group) || negb exists_ && negb lastReporter then None
  else
    let messageType := if negb exists_ then mldV1ListenerDone else mldV1MembershipReport in
    let target := if negb exists_ then Addr6 ([255; 2] ++ replicate 13 0 ++ [2]) noZone else group in
    Some (target, messageType :: replicate 7 0 ++ as16 group).

Definition recordBytes (addressBytes : Addr -> list Z) (record : multicastReportRecord) : list Z :=
  [rr_type record; 0] ++ be_bytes 2 (zlen (rr_sources record)) ++ addressBytes (rr_group record)
  ++ concat (map addressBytes (rr_sources record)).

Definition igmpV3Payload (bigEndian : bool) (report : list multicastReportRecord) : list Z :=
  withChecksum bigEndian igmpV3MembershipReport
    ([0; 0] ++ be_bytes 2 (zlen report) ++ concat (map (recordBytes (fun a => drop 12 (as16 a))) report)).

Definition mldV2Payload (report : list multicastReportRecord) : list Z :=
  mldV2MembershipReport :: replicate 5 0 ++ be_bytes 2 (zlen report) ++ concat (map (recordBytes as16) report).

(** The payloads of a batch's records for an interface MTU. *)
Definition sendIGMPv3Records (bigEndian : bool) (mtu : Z) (records : list multicastReportRecord) : option (list (list Z)) :=
  reports ← packMulticastRecords records (mtu - 24) 8 8 4;
  Some (map (igmpV3Payload bigEndian) reports).

Definition sendMLDv2Records (mtu : Z) (records : list multicastReportRecord) : option (list (list Z)) :=
  reports ← packMulticastRecords records (mtu - 48) 8 20 16;
  Some (map mldV2Payload reports).

Definition reportSource {A} (network : networkState A) (v6 : bool) : option Addr :=
  if negb v6 then firstSource network usableIPv4
  else
    match firstSource network (fun source => is6 source && isLinkLocalUnicast source) with
    | Some source => Some source
    | None => if networkStateHasFamily network true then Some ipv6Unspecified else None
    end.

(** The IP packet around an IGMP payload, with the Router Alert option. *)
Definition igmpPacket (source target : Addr) (identification : Z) (payload : list Z) : IPPacket :=
  mkIPPacket source target ProtocolIGMP 1 192 0 identification true false 0 [IPv4HeaderOptionRouterAlert; 4; 0; 0] payload.

Definition sendIGMPPacket {A} (bigEndian : bool) (network : networkState A) (target : Addr) (identification : Z) (payload : list Z)
    : option (option (list Z)) :=
  match reportSource network false with
  | None => Some None
  | Some source =>
      packet ← marshalPublicIPPacket bigEndian (igmpPacket source target identification payload) 24 true;
      Some (Some packet)
  end.

(** The Hop-by-Hop header with Router Alert, and the checksum over the
    pseudo-header. *)
Definition mldHopByHop : list Z :=
  [ProtocolICMPv6; 0; IPv6ExtensionOptionRouterAlert; 2; 0; 0; IPv6ExtensionOptionPadN; 0].

Definition marshalPublicICMPMessage (bigEndian : bool) (source destination : Addr) (messageType code : Z) (body : list Z) : list Z :=
  let message := [messageType; code; 0; 0] ++ body in
  let value := if is6 source then transportChecksum bigEndian source destination ProtocolICMPv6 message else checksum bigEndian message in
  [messageType; code] ++ be_bytes 2 value ++ body.

Definition sendMLDPacket {A} (bigEndian : bool) (network : networkState A) (target : Addr) (payload : list Z) : option (option (list Z)) :=
  match reportSource network true with
  | None => Some None
  | Some source =>
      if zlen payload <? 4 then Some None
      else
        messageType ← idx payload 0;
        code ← idx payload 1;
        body ← slice payload 4 (zlen payload);
        let p := mkIPPacket source target 0 1 0 0 0 false false 0 [] [] in
        Some (Some (ipv6BaseHeader p IPv6ExtensionHeaderHopByHop (8 + zlen payload) ++ mldHopByHop
                    ++ marshalPublicICMPMessage bigEndian source target messageType code body))
  end.

(** The packets of one batch: [sendReport]; [identifications] are the values the
    stack's counter hands out.  A batch whose generation was cancelled is dropped
    before this, and the queue of the device takes each packet or none. *)
Definition sendReport {A} (bigEndian : bool) (network : networkState A) (identifications : nat -> Z) (batch : multicastReportBatch)
    : option (list (option (list Z))) :=
  if negb (rb_legacy batch =? 0) then
    if rb_v6 batch then
      match mldV1Report (rb_group batch) (rb_exists batch) (rb_lastReporter batch) with
      | None => Some []
      | Some (target, payload) => packet ← sendMLDPacket bigEndian network target payload; Some [packet]
      end
    else
      match igmpLegacyReport bigEndian (rb_group batch) (rb_legacy batch) (rb_exists batch) (rb_lastReporter batch) with
      | None => Some []
      | Some (target, payload) => packet ← sendIGMPPacket bigEndian network target (identifications 0%nat) payload; Some [packet]
      end
  else if rb_v6 batch then
    payloads ← sendMLDv2Records (ns_mtu network) (rb_records batch);
    mapM (fun payload => sendMLDPacket bigEndian network (Addr6 ([255; 2] ++ replicate 13 0 ++ [22]) noZone) payload) payloads
  else
    payloads ← sendIGMPv3Records bigEndian (ns_mtu network) (rb_records batch);
    mapM (fun '(index, payload) => sendIGMPPacket bigEndian network (Addr4 [224; 0; 0; 22]) (identifications index) payload)
         (zip (seq 0 (length payloads)) payloads).
