(* ===== verification/MulticastLaws.v ===== *)
(** * Laws of multicast memberships

    The RFC 9776 merge, the invariant of the dispatcher, and its refinement of a
    table of memberships: what the lock-free data plane reads is what the sockets
    asked for. *)

From stdpp Require Import strings gmap.
From S2P Require Import Prelude Addr Network Multicast.

(** ** The merge of filters *)

(** Acceptance of an address in normal form. *)
Definition passes (f : multicastFilter) (source : Addr) : bool :=
  match mf_mode f with
  | multicastFilterInclude => bool_decide (source ∈ mf_sources f)
  | multicastFilterExclude => negb (bool_decide (source ∈ mf_sources f))
  end.

Lemma filterAccepts_passes f source : filterAccepts f source = passes f (unmap source).
Proof. done. Qed.

Definition mergePasses (m : mergeState) (source : Addr) : bool :=
  bool_decide (source ∈ mg_include m)
  || (bool_decide (mg_mode m = multicastFilterExclude) && negb (bool_decide (source ∈ mg_sources m))).

Definition mergeOk (m : mergeState) : Prop :=
  mg_firstExclude m = bool_decide (mg_mode m = multicastFilterInclude).

Lemma mergeMember_ok m f : mergeOk m -> mergeOk (mergeMember m f).
Proof. intros H. unfold mergeOk, mergeMember in *. destruct (mf_mode f); [done|]. by destruct (mg_firstExclude m). Qed.

Lemma mergeMember_passes m f source : mergeOk m ->
  mergePasses (mergeMember m f) source = mergePasses m source || passes f source.
Proof.
  intros H. unfold mergeOk, mergePasses, mergeMember, passes in *. destruct (mf_mode f); cbn.
  - rewrite (bool_decide_ext _ _ (elem_of_union _ _ _)), bool_decide_or.
    destruct (bool_decide (source ∈ mg_include m)), (bool_decide (source ∈ mf_sources f)); simpl; try done;
      by rewrite ?orb_true_r, ?orb_false_r.
  - destruct (mg_firstExclude m); cbn.
    + symmetry in H. apply bool_decide_eq_true in H. rewrite H. simpl. by rewrite orb_false_r.
    + symmetry in H. apply bool_decide_eq_false in H.
      rewrite (bool_decide_eq_true_2 (mg_mode m = multicastFilterExclude)) by by destruct (mg_mode m).
      rewrite (bool_decide_ext _ _ (elem_of_intersection _ _ _)), bool_decide_and.
      by destruct (bool_decide (source ∈ mg_include m)), (bool_decide (source ∈ mg_sources m)), (bool_decide (source ∈ mf_sources f)).
Qed.

Lemma mergeFold filters m source : mergeOk m ->
  mergeOk (fold_left mergeMember filters m) /\
  mergePasses (fold_left mergeMember filters m) source = mergePasses m source || existsb (fun f => passes f source) filters.
Proof.
  revert m. induction filters as [|f filters IH]; intros m H; simpl; [by rewrite orb_false_r|].
  destruct (IH (mergeMember m f) (mergeMember_ok m f H)) as [? ->]. split; [done|].
  by rewrite mergeMember_passes, orb_assoc.
Qed.

(** The interface filter passes what some member passes. *)
Lemma mergeFilters_passes filters source : filters <> [] ->
  passes (mergeFilters filters) source = existsb (fun f => passes f source) filters.
Proof.
  intros Hne. destruct filters as [|f [|g filters]]; [done|simpl; by rewrite orb_false_r|].
  unfold mergeFilters. set (l := f :: g :: filters).
  destruct (mergeFold l (mkMerge multicastFilterInclude ∅ true ∅) source eq_refl) as [Hok Hp].
  change (mergePasses (mkMerge multicastFilterInclude ∅ true ∅) source) with (bool_decide (source ∈ (∅ : gset Addr)) || false) in Hp.
  rewrite bool_decide_eq_false_2 in Hp by set_solver. rewrite orb_false_l in Hp. rewrite <- Hp.
  set (m := fold_left _ _ _) in *. clearbody m. cbv zeta. unfold mergePasses, passes. destruct (mg_mode m); cbn.
  - by rewrite orb_false_r.
  - rewrite (bool_decide_ext _ _ (elem_of_difference _ _ _)), bool_decide_and, bool_decide_not.
    by destruct (bool_decide (source ∈ mg_sources m)), (bool_decide (source ∈ mg_include m)).
Qed.

Lemma mergeFold_mode filters m : mergeOk m ->
  mg_mode (fold_left mergeMember filters m) =
  if bool_decide (mg_mode m = multicastFilterExclude) || existsb (fun f => bool_decide (mf_mode f = multicastFilterExclude)) filters
  then multicastFilterExclude else multicastFilterInclude.
Proof.
  revert m. induction filters as [|f filters IH]; intros m H; simpl.
  - rewrite orb_false_r. by destruct (mg_mode m).
  - rewrite (IH _ (mergeMember_ok m f H)). f_equal. rewrite orb_assoc. f_equal. unfold mergeMember.
    destruct (mf_mode f); cbn; [by rewrite orb_false_r|]. rewrite orb_true_r. by destruct (mg_firstExclude m).
Qed.

Lemma mergeFilters_mode filters : filters <> [] ->
  mf_mode (mergeFilters filters) =
  if existsb (fun f => bool_decide (mf_mode f = multicastFilterExclude)) filters then multicastFilterExclude else multicastFilterInclude.
Proof.
  intros Hne. destruct filters as [|f [|g filters]]; [done|simpl; by destruct (mf_mode f)|].
  unfold mergeFilters. rewrite <- (mergeFold_mode (f :: g :: filters) (mkMerge multicastFilterInclude ∅ true ∅) eq_refl).
  cbv zeta. by destruct (mg_mode _) eqn:E.
Qed.

(** A filter is determined by its mode and what it passes. *)
Lemma filter_ext f g : mf_mode f = mf_mode g -> (forall source, passes f source = passes g source) -> f = g.
Proof.
  destruct f as [mode sources], g as [mode' sources']; unfold passes; simpl. intros <- H. f_equal. apply set_eq. intros x.
  specialize (H x). destruct mode.
  - rewrite <- (bool_decide_eq_true (x ∈ sources)), <- (bool_decide_eq_true (x ∈ sources')). by rewrite H.
  - rewrite <- (bool_decide_eq_false (x ∈ sources)) || idtac.
    destruct (bool_decide_reflect (x ∈ sources)), (bool_decide_reflect (x ∈ sources')); simpl in H; naive_solver.
Qed.

Lemma existsb_perm {T} (p : T -> bool) l l' : l ≡ₚ l' -> existsb p l = existsb p l'.
Proof. induction 1; simpl; [done|congruence| |congruence]. by rewrite !orb_assoc, (orb_comm (p y)). Qed.

(** The order in which the map of members is visited does not matter. *)
Lemma mergeFilters_perm l l' : l ≡ₚ l' -> mergeFilters l = mergeFilters l'.
Proof.
  intros Hp. destruct (decide (l = [])) as [->|Hne]; [by apply Permutation_nil_l in Hp as ->|].
  assert (l' <> []) as Hne' by (intros ->; by apply Permutation_nil_r in Hp).
  apply filter_ext.
  - rewrite !mergeFilters_mode by done. by rewrite (existsb_perm _ _ _ Hp).
  - intros x. rewrite !mergeFilters_passes by done. by apply existsb_perm.
Qed.

Lemma aggregate_passes members source : members <> ∅ ->
  passes (aggregateMulticastFilter members) source = true <->
  exists endpoint f, members !! endpoint = Some f /\ passes f source = true.
Proof.
  intros Hne. unfold aggregateMulticastFilter, memberFilters. rewrite mergeFilters_passes.
  2:{ intros H. apply Hne, map_to_list_empty_iff. by apply fmap_nil_inv in H. }
  rewrite existsb_exists. setoid_rewrite <- list_elem_of_In. setoid_rewrite list_elem_of_fmap. split.
  - intros (f & ([e f'] & -> & Hin) & Hp). exists e, f'. by rewrite <- elem_of_map_to_list.
  - intros (e & f & Hin & Hp). exists f. split; [|done]. exists (e, f). by rewrite elem_of_map_to_list.
Qed.

(** ** The store of groups *)

(** References are consistent: every group has its own object, and fresh
    numbers are unused. *)
Record storeOk (s : multicastState) : Prop := {
  st_object : forall a id, ms_groups s !! a = Some id -> is_Some (ms_objects s !! id);
  st_inj : forall a b id, ms_groups s !! a = Some id -> ms_groups s !! b = Some id -> a = b;
  st_fresh : forall id, is_Some (ms_objects s !! id) -> id < ms_fresh s }.

Lemma storeOk_ext s s' : ms_objects s' = ms_objects s -> ms_groups s' = ms_groups s -> ms_fresh s' = ms_fresh s ->
  storeOk s -> storeOk s'.
Proof. intros E1 E2 E3 [H1 H2 H3]. split; by rewrite ?E1, ?E2, ?E3. Qed.

Lemma groupAt_some s a : storeOk s -> is_Some (groupAt s a) <-> is_Some (ms_groups s !! a).
Proof.
  intros H. unfold groupAt. destruct (ms_groups s !! a) as [id|] eqn:E; simpl; [|by split; intros []].
  destruct (st_object _ H a id E) as [g ->]. by split.
Qed.

Lemma groupAt_update s a f b : storeOk s -> groupAt (updateGroup a f s) b = if decide (b = a) then f <$> groupAt s a else groupAt s b.
Proof.
  intros H. unfold groupAt, updateGroup. destruct (ms_groups s !! a) as [id|] eqn:E; cbn.
  - destruct (decide (b = a)) as [->|Hne].
    + rewrite E. cbn. by rewrite lookup_alter_eq.
    + destruct (ms_groups s !! b) as [id'|] eqn:Eb; cbn; [|done].
      rewrite lookup_alter_ne; [done|]. intros ->. apply Hne. by apply (st_inj _ H b a id').
  - destruct (decide (b = a)) as [->|]; [by rewrite E|done].
Qed.

Lemma update_frame s a f :
  ms_groups (updateGroup a f s) = ms_groups s /\ ms_dispatch (updateGroup a f s) = ms_dispatch s /\
  ms_familyGroups (updateGroup a f s) = ms_familyGroups s /\ ms_closed (updateGroup a f s) = ms_closed s /\
  ms_retransmissions (updateGroup a f s) = ms_retransmissions s /\ ms_querier (updateGroup a f s) = ms_querier s /\
  ms_fresh (updateGroup a f s) = ms_fresh s /\ ms_generalQuery (updateGroup a f s) = ms_generalQuery s /\
  ms_random (updateGroup a f s) = ms_random s /\ ms_reportCancel (updateGroup a f s) = ms_reportCancel s.
Proof. unfold updateGroup. by destruct (ms_groups s !! a). Qed.

Lemma update_store s a f : storeOk s -> storeOk (updateGroup a f s).
Proof.
  intros H. unfold updateGroup. destruct (ms_groups s !! a) as [id|]; [|done]. split; cbn.
  - intros b id' Hb. destruct (st_object _ H b id' Hb) as [g Hg]. rewrite lookup_alter. case_decide; [subst; rewrite Hg|]; by eexists.
  - apply (st_inj _ H).
  - intros id' [g Hg]. apply (st_fresh _ H). rewrite lookup_alter in Hg. case_decide; [|by eexists].
    subst. destruct (ms_objects s !! id'); [by eexists|done].
Qed.

(** Every group object changes by [f], which keeps what the predicate [same]
    relates. *)
Definition sameGroup (g g' : multicastGroupState) : Prop :=
  gs_members g' = gs_members g /\ gs_aggregate g' = gs_aggregate g /\ gs_dispatch g' = gs_dispatch g.

(** [s'] has the same groups with the same members and published entries. *)
Record sameGroups (s s' : multicastState) : Prop := {
  sg_groups : ms_groups s' = ms_groups s;
  sg_dispatch : ms_dispatch s' = ms_dispatch s;
  sg_family : ms_familyGroups s' = ms_familyGroups s;
  sg_closed : ms_closed s' = ms_closed s;
  sg_fresh : ms_fresh s' = ms_fresh s;
  sg_dom : forall id, is_Some (ms_objects s' !! id) <-> is_Some (ms_objects s !! id);
  sg_at : forall id g, ms_objects s !! id = Some g -> exists g', ms_objects s' !! id = Some g' /\ sameGroup g g' }.

#[global] Instance sameGroup_preorder : PreOrder sameGroup.
Proof. split; [by intros g|]. intros g1 g2 g3 (?&?&?) (?&?&?). repeat split; congruence. Qed.

#[global] Instance sameGroups_preorder : PreOrder sameGroups.
Proof.
  split; [intros s; split; try done; naive_solver|]. intros s1 s2 s3 H1 H2. split.
  - by rewrite (sg_groups _ _ H2), (sg_groups _ _ H1).
  - by rewrite (sg_dispatch _ _ H2), (sg_dispatch _ _ H1).
  - by rewrite (sg_family _ _ H2), (sg_family _ _ H1).
  - by rewrite (sg_closed _ _ H2), (sg_closed _ _ H1).
  - by rewrite (sg_fresh _ _ H2), (sg_fresh _ _ H1).
  - intros id. rewrite (sg_dom _ _ H2 id). apply (sg_dom _ _ H1).
  - intros id g Hg. destruct (sg_at _ _ H1 id g Hg) as (g' & Hg' & Hs). destruct (sg_at _ _ H2 id g' Hg') as (g'' & Hg'' & Hs').
    exists g''. split; [done|]. by trans g'.
Qed.

Lemma sameGroups_store s s' : sameGroups s s' -> storeOk s -> storeOk s'.
Proof.
  intros H Hs. split.
  - intros a id Ha. rewrite (sg_groups _ _ H) in Ha. apply (sg_dom _ _ H). by apply (st_object _ Hs a).
  - intros a b id. rewrite (sg_groups _ _ H). apply (st_inj _ Hs).
  - intros id Hid. rewrite (sg_fresh _ _ H). apply (st_fresh _ Hs). by apply (sg_dom _ _ H).
Qed.

Lemma sameGroups_at s s' a : sameGroups s s' -> storeOk s ->
  match groupAt s a with
  | Some g => exists g', groupAt s' a = Some g' /\ sameGroup g g'
  | None => groupAt s' a = None
  end.
Proof.
  intros H Hs. unfold groupAt. rewrite (sg_groups _ _ H). destruct (ms_groups s !! a) as [id|] eqn:E; cbn; [|done].
  destruct (st_object _ Hs a id E) as [g Hg]. rewrite Hg. by apply (sg_at _ _ H).
Qed.

Lemma sameGroups_objects s s' : ms_objects s' = ms_objects s -> ms_groups s' = ms_groups s -> ms_dispatch s' = ms_dispatch s ->
  ms_familyGroups s' = ms_familyGroups s -> ms_closed s' = ms_closed s -> ms_fresh s' = ms_fresh s -> sameGroups s s'.
Proof. intros Ho ? ? ? ? ?. split; try done; rewrite Ho; [done|]. intros id g Hg. by exists g. Qed.

Lemma sameGroups_update s a f : (forall g, sameGroup g (f g)) -> sameGroups s (updateGroup a f s).
Proof.
  intros Hf. unfold updateGroup. destruct (ms_groups s !! a) as [id|]; [|done]. split; try done; cbn.
  - intros id'. rewrite lookup_alter. case_decide; [|done]. subst. by rewrite fmap_is_Some.
  - intros id' g Hg. rewrite lookup_alter. case_decide; [subst; rewrite Hg; cbn; eauto|by exists g].
Qed.

(** ** Compatibility changes keep the groups *)

Lemma clearQueries_same v6 s : sameGroups s (clearQueries v6 s).
Proof.
  split; try done; unfold clearQueries; cbn.
  - intros id. rewrite map_lookup_imap. destruct (ms_objects s !! id); cbn; [|done]. split; by eexists.
  - intros id g Hg. rewrite map_lookup_imap, Hg. cbn. destruct (existsb _ _); by eexists.
Qed.

Lemma cancelReports_same v6 changed s : sameGroups s (cancelReports v6 changed s).
Proof.
  unfold cancelReports, cancelPendingFamilyLocked. destruct changed; [|done].
  cbv zeta. set (s1 := s <| ms_reportCancel := _ |> <| ms_generalQuery := _ |>).
  trans s1; [by apply sameGroups_objects|]. trans (clearQueries v6 s1); [apply clearQueries_same|by apply sameGroups_objects].
Qed.

Lemma refresh_same now s : sameGroups s (refreshCompatibilityLocked now s).
Proof.
  unfold refreshCompatibilityLocked. destruct (ms_closed s) eqn:E; [done|]. destruct (refresh _ _) as [q changed].
  set (s1 := s <| ms_querier := q |>). trans s1; [by apply sameGroups_objects|].
  trans (cancelReports false (fam4 changed) s1); apply cancelReports_same.
Qed.

Lemma interface_same now group old oldExists reporter s :
  sameGroups s (interfaceStateChangedLocked now group old oldExists reporter s).
Proof.
  unfold interfaceStateChangedLocked. destruct (multicastInterfaceFilter _) as [current currentExists]. destruct (_ || _); [done|].
  cbv zeta. destruct (_ && _); [apply refresh_same|]. trans (refreshCompatibilityLocked now s); [apply refresh_same|by apply sameGroups_objects].
Qed.

(** ** The invariant *)

Definition groupOk (g : multicastGroupState) : Prop :=
  gs_members g <> ∅ /\ gs_aggregate g = aggregateMulticastFilter (gs_members g) /\ gs_dispatch g = Some (dispatchOf g).

Definition counts (v6 : bool) (a : Addr) : bool := multicastGroupNeedsReport a && Bool.eqb (is6 a) v6.

Definition countGroups (v6 : bool) (groups : gmap Addr Z) : Z :=
  Z.of_nat (size (filter (fun '(a, _) => counts v6 a = true) groups)).

(** The members of a group, none for an unknown one. *)
Definition membersAt (s : multicastState) (a : Addr) : gmap multicastEndpoint multicastFilter :=
  from_option gs_members ∅ (groupAt s a).

(** The published index agrees with the groups, at every address but [group]
    and, unless [exact], where a group exists. *)
Definition indexOk (exact_ : bool) (group : option Addr) (s : multicastState) : Prop :=
  exists i, ms_dispatch s = Some i /\
    forall b, Some b <> group -> exact_ = true \/ is_Some (ms_groups s !! b) -> i !! b = ms_groups s !! b.

(** The invariant while [group] is being changed. *)
Record almostOk (exact_ : bool) (group : option Addr) (s : multicastState) : Prop := {
  ao_store : storeOk s;
  ao_open : ms_closed s = false;
  ao_index : indexOk exact_ group s;
  ao_groups : forall a g, Some a <> group -> groupAt s a = Some g -> groupOk g;
  ao_count : forall v6, atFamily v6 (ms_familyGroups s) = countGroups v6 (ms_groups s) }.

(** The invariant between operations: everything published is current. *)
Definition multicastOk (s : multicastState) : Prop := almostOk true None s.

Lemma atFamily_set {T} v w (x : T) p : atFamily v (setFamily w x p) = if Bool.eqb v w then x else atFamily v p.
Proof. by destruct v, w. Qed.

Lemma count_insert v6 a id groups : groups !! a = None ->
  countGroups v6 (<[a := id]> groups) = countGroups v6 groups + Z.b2z (counts v6 a).
Proof.
  intros Ha. unfold countGroups. destruct (counts v6 a) eqn:E.
  - rewrite map_filter_insert_True by done. rewrite map_size_insert_None; [cbn; lia|].
    rewrite map_lookup_filter, Ha. done.
  - rewrite map_filter_insert_False by (by rewrite E). rewrite delete_id by done. cbn. lia.
Qed.

Lemma count_delete v6 a id groups : groups !! a = Some id ->
  countGroups v6 (delete a groups) = countGroups v6 groups - Z.b2z (counts v6 a).
Proof.
  intros Ha. rewrite <- (insert_delete_id groups a id Ha) at 2. rewrite count_insert by apply lookup_delete_eq. lia.
Qed.

Lemma sameGroup_ok g g' : sameGroup g g' -> groupOk g -> groupOk g'.
Proof.
  intros (Hm & Ha & Hd) (H1 & H2 & H3). unfold groupOk, dispatchOf in *. by rewrite Hm, Ha, Hd.
Qed.

Lemma sameGroups_almost exact_ group s s' : sameGroups s s' -> almostOk exact_ group s -> almostOk exact_ group s'.
Proof.
  intros H [H1 H2 H3 H4 H5]. split.
  - by eapply sameGroups_store.
  - by rewrite (sg_closed _ _ H).
  - unfold indexOk in *. by rewrite (sg_dispatch _ _ H), (sg_groups _ _ H).
  - intros a g' Ha Hg'. pose proof (sameGroups_at s s' a H H1) as Hat. destruct (groupAt s a) as [g|] eqn:E; [|congruence].
    destruct Hat as (g'' & E' & Hs). rewrite Hg' in E'. injection E' as <-. by eapply sameGroup_ok, H4.
  - intros v6. by rewrite (sg_family _ _ H), (sg_groups _ _ H).
Qed.

Lemma sameGroups_members s s' a : sameGroups s s' -> storeOk s -> membersAt s' a = membersAt s a.
Proof.
  intros H Hs. pose proof (sameGroups_at s s' a H Hs) as Hat. unfold membersAt. destruct (groupAt s a) as [g|].
  - destruct Hat as (g' & -> & Hm & _). done.
  - by rewrite Hat.
Qed.

(** A group under change may be edited freely. *)
Lemma update_almost exact_ group f s : almostOk exact_ (Some group) s -> almostOk exact_ (Some group) (updateGroup group f s).
Proof.
  intros [H1 H2 H3 H4 H5]. destruct (update_frame s group f) as (Eg & Ed & Ef & Ec & _). split.
  - by apply update_store.
  - by rewrite Ec.
  - unfold indexOk in *. by rewrite Eg, Ed.
  - intros a g Ha Hg. rewrite groupAt_update in Hg by done. destruct (decide (a = group)) as [->|]; [done|]. by apply H4 with a.
  - intros v6. by rewrite Ef, Eg.
Qed.

Lemma almost_weaken exact_ group s : almostOk exact_ None s -> almostOk exact_ (Some group) s.
Proof.
  intros [H1 H2 (i & Hi & H3) H4 H5]. split; try done; [|intros a g _; by apply H4].
  exists i. split; [done|]. intros b _. by apply H3.
Qed.

Lemma familyIndex_counts v6 a : multicastGroupNeedsReport a = true -> Z.b2z (counts v6 a) = Z.b2z (Bool.eqb v6 (is6 a)).
Proof. intros H. unfold counts. rewrite H. simpl. by destruct v6, (is6 a). Qed.

Lemma counts_unreported v6 a : multicastGroupNeedsReport a = false -> counts v6 a = false.
Proof. intros H. unfold counts. by rewrite H. Qed.

(** Ending a group. *)
Lemma remove_almost exact_ group s : almostOk exact_ (Some group) s -> is_Some (ms_groups s !! group) ->
  almostOk exact_ (Some group) (removeGroupLocked group s) /\
  (forall b, groupAt (removeGroupLocked group s) b = if decide (b = group) then None else groupAt s b) /\
  ms_groups (removeGroupLocked group s) = delete group (ms_groups s) /\
  ms_dispatch (removeGroupLocked group s) = ms_dispatch s.
Proof.
  intros H [id Hid]. unfold removeGroupLocked. cbv zeta.
  apply (update_almost _ _ (fun g => g <| gs_dispatch := None |>)) in H.
  assert (forall b, b <> group -> groupAt s b = groupAt (updateGroup group (fun g => g <| gs_dispatch := None |>) s) b) as Hat.
  { intros b Hb. unfold groupAt, updateGroup. rewrite Hid. cbn. destruct (ms_groups s !! b) as [id'|] eqn:Eb; [|done]. cbn.
    rewrite lookup_alter_ne; [done|]. intros <-. apply Hb. destruct H as [H _ _ _ _]. apply (st_inj _ H b group id).
    - unfold updateGroup. by rewrite Hid.
    - unfold updateGroup. by rewrite Hid. }
  destruct (update_frame s group (fun g => g <| gs_dispatch := None |>)) as (Eg & Ed & Ef & _).
  set (s1 := updateGroup group _ s) in *. rewrite <- Eg in Hid |- *. rewrite <- Ed. clearbody s1.
  destruct H as [H1 H2 (i & Hi & H3) H4 H5].
  set (s2 := s1 <| ms_groups := delete group (ms_groups s1) |>).
  assert (forall b, groupAt s2 b = if decide (b = group) then None else groupAt s b) as Hat2.
  { intros b. destruct (decide (b = group)) as [->|Hb]; [unfold groupAt, s2; cbn; by rewrite lookup_delete_eq|].
    rewrite Hat by done. unfold groupAt, s2. cbn. by rewrite lookup_delete_ne. }
  assert (forall v6, countGroups v6 (ms_groups s2) = countGroups v6 (ms_groups s1) - Z.b2z (counts v6 group)) as Hc.
  { intros v6. unfold s2. cbn. by eapply count_delete. }
  assert (forall p, (forall v6, atFamily v6 p = countGroups v6 (ms_groups s2)) -> almostOk exact_ (Some group) (s2 <| ms_familyGroups := p |>)) as Hfin.
  { intros p Hp. split; try done.
    - split; cbn; [|intros a b id' Ha Hb|apply (st_fresh _ H1)].
      + intros a id' Ha. apply lookup_delete_Some in Ha as [_ Ha]. by apply (st_object _ H1 a).
      + apply lookup_delete_Some in Ha as [_ Ha]. apply lookup_delete_Some in Hb as [_ Hb]. by apply (st_inj _ H1 a b id').
    - exists i. split; [done|]. cbn. intros b Hb Hor. rewrite lookup_delete_ne by congruence. apply H3; [done|].
      destruct Hor as [?|Hor]; [by left|right]. rewrite lookup_delete_ne in Hor by congruence. done.
    - intros a g Ha Hg. change (groupAt s2 a = Some g) in Hg. rewrite Hat2 in Hg.
      destruct (decide (a = group)); [done|]. rewrite Hat in Hg by done. by apply (H4 a). }
  destruct (multicastGroupNeedsReport group) eqn:Hn.
  - split; [|done]. apply Hfin. intros v6. rewrite atFamily_set, Hc, <- H5, familyIndex_counts by done.
    unfold multicastFamilyIndex. change (ms_familyGroups s2) with (ms_familyGroups s1). destruct v6, (is6 group); simpl; lia.
  - split; [|done]. assert (s2 = s2 <| ms_familyGroups := ms_familyGroups s1 |>) as -> by by destruct s1.
    apply Hfin. intros v6. rewrite Hc, <- H5, counts_unreported by done. simpl. lia.
Qed.

Lemma membersAt_update s a f b : storeOk s ->
  membersAt (updateGroup a f s) b = if decide (b = a) then from_option gs_members ∅ (f <$> groupAt s a) else membersAt s b.
Proof. intros H. unfold membersAt. rewrite groupAt_update by done. by destruct (decide (b = a)). Qed.

(** A settled group has members and their aggregate, or is gone. *)
Definition settled (group : Addr) (s : multicastState) : Prop :=
  match groupAt s group with
  | Some g => gs_members g <> ∅ /\ gs_aggregate g = aggregateMulticastFilter (gs_members g)
  | None => True
  end.

Lemma settle_ok exact_ group s : almostOk exact_ (Some group) s ->
  almostOk exact_ (Some group) (settleGroup group s) /\ settled group (settleGroup group s) /\
  (forall b, membersAt (settleGroup group s) b = membersAt s b) /\
  (is_Some (groupAt (settleGroup group s) group) <-> membersAt s group <> ∅) /\
  ms_dispatch (settleGroup group s) = ms_dispatch s /\
  (forall b, b <> group -> ms_groups (settleGroup group s) !! b = ms_groups s !! b) /\
  (membersAt s group <> ∅ -> ms_groups (settleGroup group s) = ms_groups s).
Proof.
  intros H. unfold settleGroup. destruct (groupAt s group) as [g|] eqn:Hg.
  2:{ unfold settled, membersAt. rewrite Hg. split_and!; try done; by intros []. }
  assert (membersAt s group = gs_members g) as Hm by (unfold membersAt; by rewrite Hg).
  case_bool_decide as He.
  - destruct (remove_almost exact_ group s H) as (H' & Hat & Hgr & Hd).
    { apply groupAt_some; [apply H|]. by eexists. }
    split; [done|]. split; [unfold settled; by rewrite Hat, decide_True|]. split.
    + intros b. unfold membersAt. rewrite Hat. destruct (decide (b = group)) as [->|]; [|done]. by rewrite Hg; cbn.
    + rewrite Hat, decide_True, Hm, Hd by done. split_and!; [split; [by intros []|done]|done| |done].
      intros b Hb. by rewrite Hgr, lookup_delete_ne.
  - pose proof (update_almost exact_ group (fun g => g <| gs_aggregate := aggregateMulticastFilter (gs_members g) |>) s H) as H'.
    pose proof (groupAt_update s group (fun g => g <| gs_aggregate := aggregateMulticastFilter (gs_members g) |>) group (ao_store _ _ _ H)) as Hat.
    rewrite decide_True, Hg in Hat by done. cbn in Hat.
    destruct (update_frame s group (fun g => g <| gs_aggregate := aggregateMulticastFilter (gs_members g) |>)) as (Eg & Ed & _).
    split; [done|]. split; [unfold settled; rewrite Hat; by split|]. split.
    + intros b. rewrite membersAt_update by apply H. rewrite Hg. destruct (decide (b = group)) as [->|]; [|done]. by rewrite Hm.
    + rewrite Hat, Eg, Hm, Ed. split_and!; try done; by eexists.
Qed.

Lemma ensure_ok group s : multicastOk s ->
  almostOk true (Some group) (ensureGroup group s) /\ is_Some (groupAt (ensureGroup group s) group) /\
  (forall b, membersAt (ensureGroup group s) b = membersAt s b).
Proof.
  intros H. unfold ensureGroup. destruct (ms_groups s !! group) as [id|] eqn:Hid.
  { split; [by apply almost_weaken|]. split; [|done]. apply groupAt_some; [apply H|]. by eexists. }
  pose proof (almost_weaken true group s H) as [H1 H2 (i & Hi & H3) H4 H5]. cbv zeta.
  set (s2 := s <| ms_objects := _ |> <| ms_fresh := _ |> <| ms_groups := _ |>).
  assert (groupAt s group = None) as Hnone by (unfold groupAt; by rewrite Hid).
  assert (forall a id, ms_groups s !! a = Some id -> id <> ms_fresh s) as Hfr.
  { intros a id Ha. pose proof (st_fresh _ H1 id (st_object _ H1 a id Ha)). lia. }
  assert (forall b, groupAt s2 b = if decide (b = group) then Some newGroup else groupAt s b) as Hat.
  { intros b. unfold groupAt, s2. cbn. destruct (decide (b = group)) as [->|Hb].
    - rewrite lookup_insert_eq. cbn. by rewrite lookup_insert_eq.
    - rewrite lookup_insert_ne by done. destruct (ms_groups s !! b) as [id|] eqn:Eb; [|done]. cbn.
      rewrite lookup_insert_ne; [done|]. intros <-. by apply (Hfr b _ Eb). }
  assert (forall p, (forall v6, atFamily v6 p = countGroups v6 (ms_groups s2)) -> almostOk true (Some group) (s2 <| ms_familyGroups := p |>)) as Hfin.
  { intros p Hp. split; try done.
    - split; cbn.
      + intros a id Ha. destruct (decide (a = group)) as [->|].
        * rewrite lookup_insert_eq in Ha. injection Ha as <-. rewrite lookup_insert_eq. by eexists.
        * rewrite lookup_insert_ne in Ha by done. rewrite lookup_insert_ne by (intros <-; by apply (Hfr a _ Ha)). by apply (st_object _ H1 a).
      + intros a b id Ha Hb. apply lookup_insert_Some in Ha as [[<- <-]|[Hna Ha]]; apply lookup_insert_Some in Hb as [[<- E]|[Hnb Hb]]; try done.
        * by destruct (Hfr b _ Hb).
        * subst id. by destruct (Hfr a _ Ha).
        * by apply (st_inj _ H1 a b id).
      + intros id Hs. destruct (decide (id = ms_fresh s)) as [->|]; [lia|]. rewrite lookup_insert_ne in Hs by done.
        pose proof (st_fresh _ H1 id Hs). lia.
    - exists i. split; [done|]. cbn. intros b Hb _. rewrite lookup_insert_ne by congruence. apply H3; [done|by left].
    - intros a g Ha Hg. change (groupAt s2 a = Some g) in Hg. rewrite Hat in Hg. destruct (decide (a = group)) as [->|]; [done|]. by apply (H4 a). }
  assert (forall s3, ms_objects s3 = ms_objects s2 -> ms_groups s3 = ms_groups s2 ->
            is_Some (groupAt s3 group) /\ forall b, membersAt s3 b = membersAt s b) as Hview.
  { intros s3 E1 E2. assert (forall b, groupAt s3 b = groupAt s2 b) as E by (intros b; unfold groupAt; by rewrite E1, E2).
    split; [rewrite E, Hat, decide_True by done; by eexists|]. intros b. unfold membersAt. rewrite E, Hat.
    destruct (decide (b = group)) as [->|]; [by rewrite Hnone|done]. }
  assert (forall v6, countGroups v6 (ms_groups s2) = countGroups v6 (ms_groups s) + Z.b2z (counts v6 group)) as Hc.
  { intros v6. unfold s2. cbn. by apply count_insert. }
  destruct (multicastGroupNeedsReport group) eqn:Hn.
  - split; [|by apply Hview]. apply Hfin. intros v6. rewrite atFamily_set, Hc, <- H5, familyIndex_counts by done.
    unfold multicastFamilyIndex. change (ms_familyGroups s2) with (ms_familyGroups s). destruct v6, (is6 group); simpl; lia.
  - split; [|by apply Hview]. assert (s2 = s2 <| ms_familyGroups := ms_familyGroups s |>) as -> by by destruct s.
    apply Hfin. intros v6. rewrite Hc, <- H5, counts_unreported by done. simpl. lia.
Qed.

(** Publishing a settled group. *)
Lemma rebuild_ok exact_ group s : almostOk exact_ (Some group) s -> settled group s ->
  (exact_ = false -> exists i, ms_dispatch s = Some i /\ i !! group = ms_groups s !! group /\ is_Some (ms_groups s !! group)) ->
  almostOk exact_ None (rebuildGroupDispatchLocked group s) /\
  (forall b, membersAt (rebuildGroupDispatchLocked group s) b = membersAt s b) /\
  ms_groups (rebuildGroupDispatchLocked group s) = ms_groups s.
Proof.
  intros H Hset Hex. unfold rebuildGroupDispatchLocked. destruct (ms_groups s !! group) as [id|] eqn:Hid.
  - pose proof (update_almost exact_ group (fun g => g <| gs_dispatch := Some (dispatchOf g) |>) s H) as [H1 H2 (i & Hi & H3) H4 H5].
    destruct (update_frame s group (fun g => g <| gs_dispatch := Some (dispatchOf g) |>)) as (Eg & Ed & _).
    pose proof (groupAt_update s group (fun g => g <| gs_dispatch := Some (dispatchOf g) |>) group (ao_store _ _ _ H)) as Hat.
    rewrite decide_True in Hat by done.
    assert (forall b, membersAt (updateGroup group (fun g => g <| gs_dispatch := Some (dispatchOf g) |>) s) b = membersAt s b) as Hm.
    { intros b. rewrite membersAt_update by apply H. destruct (decide (b = group)) as [->|]; [|done]. unfold membersAt. by destruct (groupAt s group). }
    destruct (st_object _ (ao_store _ _ _ H) group id Hid) as [g Hgo].
    assert (groupAt s group = Some g) as Hg by (unfold groupAt; by rewrite Hid).
    unfold settled in Hset. rewrite Hg in Hset, Hat. cbn in Hat.
    set (s1 := updateGroup group _ s) in *. clearbody s1.
    assert (forall a g, groupAt s1 a = Some g -> groupOk g) as Hall.
    { intros a g' Ha. destruct (decide (a = group)) as [->|]; [|apply (H4 a); congruence]. rewrite Hat in Ha. injection Ha as <-.
      destruct Hset. by split_and!. }
    rewrite Hi. case_bool_decide as Heq.
    + split; [|done]. split; try done; [|by intros a g' _; apply Hall]. exists i. split; [done|]. intros b _ Hor.
      destruct (decide (b = group)) as [->|]; [by rewrite Heq, Eg, Hid|]. apply H3; [congruence|done].
    + split; [|done]. split; try done; [by apply (storeOk_ext s1)|by exists (ms_groups s1)|by intros a g' _; apply Hall].
  - assert (exact_ = true) as ->.
    { destruct exact_; [done|]. destruct (Hex eq_refl) as (? & _ & _ & [? ?]). done. }
    split; [|done]. destruct H as [H1 H2 H3 H4 H5]. split; try done; [by apply (storeOk_ext s)|by exists (ms_groups s)|].
    intros a g _ Hg. apply (H4 a); [|done]. intros [= ->]. unfold groupAt in Hg. cbn in Hg. by rewrite Hid in Hg.
Qed.

Lemma sameGroups_settled group s s' : sameGroups s s' -> storeOk s -> settled group s -> settled group s'.
Proof.
  intros H Hs. unfold settled. pose proof (sameGroups_at s s' group H Hs) as Hat. destruct (groupAt s group) as [g|].
  - destruct Hat as (g' & -> & Hm & Ha & _). by rewrite Hm, Ha.
  - by rewrite Hat.
Qed.

(** What every change of one group ends with. *)
Lemma commit_ok now group old oldExists reporter s : almostOk true (Some group) s ->
  let s' := rebuildGroupDispatchLocked group (interfaceStateChangedLocked now group old oldExists reporter (settleGroup group s)) in
  multicastOk s' /\ forall b, membersAt s' b = membersAt s b.
Proof.
  intros H. destruct (settle_ok true group s H) as (H1 & Hs & Hm & _). cbv zeta.
  pose proof (interface_same now group old oldExists reporter (settleGroup group s)) as Hsame.
  set (s1 := settleGroup group s) in *. set (s2 := interfaceStateChangedLocked _ _ _ _ _ s1) in *.
  destruct (rebuild_ok true group s2) as (H3 & Hm3 & _).
  - by apply (sameGroups_almost _ _ s1).
  - by apply (sameGroups_settled group s1); [..|apply H1|].
  - done.
  - split; [done|]. intros b. by rewrite Hm3, (sameGroups_members s1 s2), Hm by (done || apply H1).
Qed.

Lemma member_lookup s group endpoint :
  (g ← groupAt s group; gs_members g !! endpoint) = membersAt s group !! endpoint.
Proof. unfold membersAt. destruct (groupAt s group); cbn; [done|]. by rewrite lookup_empty. Qed.

Definition alterMember (group : Addr) (endpoint : multicastEndpoint) (f : option multicastFilter)
    (table : Addr -> gmap multicastEndpoint multicastFilter) (b : Addr) : gmap multicastEndpoint multicastFilter :=
  if decide (b = group) then partial_alter (fun _ => f) endpoint (table group) else table b.

Lemma setMember_at group endpoint f s b : storeOk s -> is_Some (groupAt s group) ->
  membersAt (updateGroup group (setMember endpoint f) s) b = alterMember group endpoint f (membersAt s) b.
Proof.
  intros Hs [g Hg]. unfold alterMember. rewrite membersAt_update by done. destruct (decide (b = group)); [|done].
  unfold membersAt. by rewrite Hg.
Qed.

Lemma change_ok now endpoint operation group source s : multicastOk s ->
  match change now endpoint operation group source s with
  | Ret s' => multicastOk s' /\ exists f, checkOperation operation (membersAt s group !! endpoint) source = Ret f /\
      forall b, membersAt s' b = alterMember group endpoint (applyOperation operation f source) (membersAt s) b
  | Fail e => checkOperation operation (membersAt s group !! endpoint) source = Fail e
  | Panic => False
  end.
Proof.
  intros H. unfold change. destruct (multicastInterfaceFilter _) as [old oldExists]. cbv zeta. rewrite member_lookup.
  destruct (checkOperation operation (membersAt s group !! endpoint) source) as [f|e|] eqn:Hc.
  - cbn [mbind outcome_bind]. destruct (ensure_ok group s H) as (H1 & Hg & Hm).
    pose proof (update_almost true group (setMember endpoint (applyOperation operation f source)) _ H1) as H2.
    destruct (commit_ok now group old oldExists (lastReporterOf (groupAt s group)) _ H2) as [H3 Hm3].
    split; [exact H3|]. exists f. split; [done|]. intros b. rewrite Hm3, setMember_at by (done || apply H1).
    unfold alterMember. rewrite !Hm. done.
  - done.
  - unfold checkOperation in Hc. destruct operation, (membersAt s group !! endpoint) as [f|]; try done;
      repeat (destruct (bool_decide _) in Hc; try done).
Qed.

Definition emptyFilter (mode : multicastFilterMode) (sources : gset Addr) : bool :=
  bool_decide (mode = multicastFilterInclude) && bool_decide (sources = ∅).

Lemma set_ok now endpoint group mode sources s : multicastOk s ->
  match set now endpoint group mode sources s with
  | Ret s' => multicastOk s' /\ is_Some (membersAt s group !! endpoint) /\
      forall b, membersAt s' b =
        alterMember group endpoint (if emptyFilter mode sources then None else Some (mkFilter mode sources)) (membersAt s) b
  | Fail e => membersAt s group !! endpoint = None /\ e = (if emptyFilter mode sources then EADDRNOTAVAIL else EINVAL)
  | Panic => False
  end.
Proof.
  intros H. unfold set. rewrite member_lookup. fold (emptyFilter mode sources). cbv zeta.
  destruct (membersAt s group !! endpoint) as [f|] eqn:Hf; [|by destruct (emptyFilter mode sources)].
  destruct (multicastInterfaceFilter _) as [old oldExists].
  assert (is_Some (groupAt s group)) as Hg.
  { unfold membersAt in Hf. destruct (groupAt s group); [by eexists|]. cbn in Hf. by rewrite lookup_empty in Hf. }
  pose proof (update_almost true group (setMember endpoint (if emptyFilter mode sources then None else Some (mkFilter mode sources))) _ (almost_weaken _ _ _ H)) as H2.
  destruct (commit_ok now group old oldExists (lastReporterOf (groupAt s group)) _ H2) as [H3 Hm3].
  split; [exact H3|]. split; [by eexists|]. intros b. rewrite Hm3. apply setMember_at; [apply H|done].
Qed.

(** ** Changes of many groups *)

Section Edits.
Context (edit : Addr -> gmap multicastEndpoint multicastFilter -> option (gmap multicastEndpoint multicastFilter))
  (Hempty : forall b, edit b ∅ = None).

Definition editedMembers (table : Addr -> gmap multicastEndpoint multicastFilter) (group : Addr) : gmap multicastEndpoint multicastFilter :=
  default (table group) (edit group (table group)).

Lemma editGroup_ok now group s exact_ : almostOk exact_ None s ->
  let '(s', removed) := editGroup now (edit group) group s in
  almostOk (exact_ && negb removed) None s' /\
  (forall b, membersAt s' b = if decide (b = group) then editedMembers (membersAt s) group else membersAt s b).
Proof.
  intros H. unfold editGroup, editedMembers. cbv zeta. destruct (g ← groupAt s group; edit group (gs_members g)) as [members|] eqn:He.
  2:{ rewrite andb_true_r. split; [done|]. intros b. destruct (decide (b = group)) as [->|]; [|done].
      unfold membersAt. destruct (groupAt s group) as [g|]; cbn in *; [by rewrite He|by rewrite Hempty]. }
  destruct (groupAt s group) as [g|] eqn:Hg; [|done]. cbn in He. destruct (multicastInterfaceFilter _) as [old oldExists].
  assert (edit group (membersAt s group) = Some members) as -> by (unfold membersAt; by rewrite Hg). cbn [default from_option].
  assert (is_Some (ms_groups s !! group)) as Hid by (apply groupAt_some; [apply H|by eexists]).
  pose proof (update_almost exact_ group (fun g => g <| gs_members := members |>) _ (almost_weaken _ group _ H)) as H2.
  destruct (update_frame s group (fun g => g <| gs_members := members |>)) as (Eg & Ed & _).
  assert (forall b, membersAt (updateGroup group (fun g => g <| gs_members := members |>) s) b = if decide (b = group) then members else membersAt s b) as Hm.
  { intros b. rewrite membersAt_update, Hg by apply H. done. }
  set (s1 := updateGroup group _ s) in *. clearbody s1.
  destruct (settle_ok exact_ group s1 H2) as (H3 & Hs & Hm3 & Hpres & Hd3 & Hother & Hkeep).
  pose proof (interface_same now group old oldExists (lastReporterOf (Some g)) (settleGroup group s1)) as Hsame.
  set (s2 := settleGroup group s1) in *. set (s3 := interfaceStateChangedLocked _ _ _ _ _ s2) in *.
  pose proof (sameGroups_almost _ _ s2 s3 Hsame H3) as H4.
  assert (forall b, membersAt s3 b = if decide (b = group) then members else membersAt s b) as Hm4.
  { intros b. rewrite (sameGroups_members s2 s3) by (done || apply H3). by rewrite Hm3, Hm. }
  rewrite Hm, decide_True in Hpres, Hkeep by done. destruct (ao_index _ _ _ H) as (i & Hi & Hix).
  destruct (bool_decide_reflect (members = ∅)) as [Hemp|Hemp].
  - split; [|exact Hm4]. rewrite andb_false_r.
    assert (ms_groups s3 !! group = None) as Hgone.
    { destruct (ms_groups s3 !! group) eqn:E; [|done]. exfalso. rewrite (sg_groups _ _ Hsame) in E. apply Hpres; [|done].
      apply groupAt_some; [apply H3|]. by eexists. }
    destruct H4 as [A1 A2 (i' & Hi' & A3) A4 A5]. split; try done.
    + exists i'. split; [done|]. intros b _ [?|Hb]; [done|]. apply A3; [|by right]. intros [= ->]. rewrite Hgone in Hb. by destruct Hb.
    + intros a g' _ Hg'. apply (A4 a); [|done]. intros [= ->]. unfold groupAt in Hg'. by rewrite Hgone in Hg'.
  - rewrite andb_true_r. destruct (rebuild_ok exact_ group s3 H4) as (H5 & Hm5 & _).
    + by apply (sameGroups_settled group s2); [..|apply H3|].
    + intros ->. exists i. rewrite (sg_dispatch _ _ Hsame), Hd3, Ed, (sg_groups _ _ Hsame), Hkeep, Eg by done.
      split; [done|]. split; [|done]. apply Hix; [done|by right].
    + split; [done|]. intros b. by rewrite Hm5, Hm4.
Qed.

Lemma editGroups_ok now order s changed : NoDup order -> almostOk (negb changed) None s ->
  let s' := editGroups now edit order s changed in
  multicastOk s' /\ forall b, membersAt s' b = if decide (b ∈ order) then editedMembers (membersAt s) b else membersAt s b.
Proof.
  cbv zeta. revert s changed. induction order as [|group rest IH]; intros s changed Hnd H; cbn.
  - split; [|intros b; destruct (decide (b ∈ [])) as [Hb|]; [by apply not_elem_of_nil in Hb|by destruct changed]]. destruct changed; [|done].
    destruct H as [H1 H2 H3 H4 H5]. split; try done; [by apply (storeOk_ext s)|by exists (ms_groups s)].
  - apply list.NoDup_cons in Hnd as [Hn Hnd]. pose proof (editGroup_ok now group s (negb changed) H) as He.
    destruct (editGroup now (edit group) group s) as [s1 removed] eqn:E1. destruct He as [H1 Hm1].
    destruct (IH s1 (changed || removed) Hnd) as [H2 Hm2]; [by rewrite negb_orb|]. split; [done|]. intros b. rewrite Hm2.
    unfold editedMembers. rewrite !Hm1.
    destruct (decide (b = group)) as [->|Hb].
    + rewrite decide_False by done. by rewrite decide_True by (apply elem_of_cons; by left).
    + destruct (decide (b ∈ rest)) as [Hr|Hr].
      * by rewrite decide_True by (apply elem_of_cons; by right).
      * by rewrite decide_False by (rewrite elem_of_cons; tauto).
Qed.
End Edits.
