(* ===== verification/MulticastDispatch.v ===== *)
(** * The data plane of multicast follows the memberships

    Every event of the dispatcher, the table of memberships it should maintain,
    and the theorem that in every reachable state acceptance and delivery are
    those of the table. *)

From stdpp Require Import strings gmap.
From S2P Require Import Prelude Addr Checksum IpPacket Ingress Congestion Established Network Multicast MulticastReport MulticastLaws.

(** ** Protocol events keep the memberships *)

Lemma randomDelay_same maximum s : sameGroups s (snd (randomDelayLocked maximum s)).
Proof. unfold randomDelayLocked. destruct (maximum <=? 0); [done|]. by apply sameGroups_objects. Qed.

Lemma noteQuery_same v6 version general robustness interval response now s :
  sameGroups s (noteQueryVersionLocked v6 version general robustness interval response now s).
Proof.
  unfold noteQueryVersionLocked. cbv zeta. set (s1 := refreshCompatibilityLocked now s).
  trans s1; [apply refresh_same|]. set (s2 := s1 <| ms_querier := _ |>).
  trans s2; [by apply sameGroups_objects|apply refresh_same].
Qed.

Lemma wake_same s : sameGroups s (wakeLocked s).
Proof. by apply sameGroups_objects. Qed.

Lemma armLegacy_same v6 maximum now order s : sameGroups s (armLegacyGroups v6 maximum now order s).
Proof.
  revert s. induction order as [|a rest IH]; intros s; [done|]. cbn. destruct (_ || _); [done|]. destruct (groupAt s a) as [g|]; [|done].
  pose proof (randomDelay_same maximum s) as Hr. destruct (randomDelayLocked maximum s) as [delay s1]. cbn in Hr. cbv zeta.
  trans s1; [done|]. destruct (_ || _); [|apply IH].
  trans (updateGroup a (fun g => g <| gs_query := mkPendingQuery (now + delay) ∅ false |>) s1); [by apply sameGroups_update|apply IH].
Qed.

Lemma scheduleGeneral_same v6 maximum now order s : sameGroups s (scheduleGeneral v6 maximum now order s).
Proof.
  unfold scheduleGeneral. cbv zeta. destruct (_ <? _); [apply armLegacy_same|]. destruct (negb _); [|done].
  pose proof (randomDelay_same maximum s) as Hr. destruct (randomDelayLocked maximum s) as [delay s1]. cbn in Hr.
  trans s1; [done|by apply sameGroups_objects].
Qed.

Lemma noteScheduled_same query now s : sameGroups s (snd (noteScheduledQuery query now s)).
Proof.
  unfold noteScheduledQuery. cbv zeta. destruct (_ && _); [|apply noteQuery_same].
  destruct (q_v6 query); [done|]. by destruct (_ =? 1).
Qed.

Lemma scheduleQuery_same query now order s : sameGroups s (scheduleQuery query now order s).
Proof.
  unfold scheduleQuery. destruct (ms_closed s); [done|]. cbv zeta. set (s1 := refreshCompatibilityLocked now s).
  trans s1; [apply refresh_same|]. pose proof (noteScheduled_same query now s1) as Hn. destruct (noteScheduledQuery query now s1) as [q s2]. cbn in Hn.
  trans s2; [done|]. set (maximum := if _ <=? 0 then nanosecond else _). destruct (isUnspecified _).
  - set (s3 := scheduleGeneral _ _ _ _ _). trans s3; [apply scheduleGeneral_same|apply wake_same].
  - destruct (groupAt s2 (q_group q)) as [g|]; [|done]. destruct (negb (multicastGroupNeedsReport _)); [done|].
    pose proof (randomDelay_same maximum s2) as Hr. destruct (randomDelayLocked maximum s2) as [delay s3]. cbn in Hr.
    destruct (_ && _); [done|]. trans s3; [done|]. set (s4 := updateGroup _ _ s3).
    trans s4; [by apply sameGroups_update|apply wake_same].
Qed.

Lemma heardLegacy_same group now s : sameGroups s (heardLegacyReport group now s).
Proof.
  unfold heardLegacyReport. destruct (isSourceSpecificMulticast group); [done|]. destruct (ms_closed s); [done|]. cbv zeta.
  set (s1 := refreshCompatibilityLocked now s). destruct (_ =? _); [apply refresh_same|]. trans s1; [apply refresh_same|].
  destruct (groupAt s1 group) as [g|]; [|apply wake_same]. set (s2 := updateGroup group _ s1).
  trans s2; [by apply sameGroups_update|]. destruct (ms_retransmissions s2 !! group) as [p|]; [|apply wake_same].
  destruct (rt_exists p); [|apply wake_same]. by apply sameGroups_objects.
Qed.

Lemma collectRetransmission_same now group s : sameGroups s (snd (collectRetransmission now group s)).
Proof.
  unfold collectRetransmission. destruct (ms_retransmissions s !! group) as [p|]; [|done]. destruct (now <? rt_due p); [done|].
  destruct (advanceRetransmissionLocked p) as [[records advanced] remains]. cbv zeta.
  match goal with |- context [if ?b then updateGroup group ?f s else s] =>
    assert (sameGroups s (if b then updateGroup group f s else s)) as H1 by (destruct b; [by apply sameGroups_update|done]);
    set (s1 := if b then updateGroup group f s else s) in * end. clearbody s1.
  destruct (if _ && _ then false else remains).
  - match goal with |- context [randomDelayLocked ?m s1] => pose proof (randomDelay_same m s1) as Hr; destruct (randomDelayLocked m s1) as [delay s2] end.
    cbn in Hr |- *. trans s1; [done|]. trans s2; [done|by apply sameGroups_objects].
  - cbn. trans s1; [done|by apply sameGroups_objects].
Qed.

Lemma collectRetransmissions_same now order s : sameGroups s (snd (collectRetransmissions now order s)).
Proof.
  revert s. induction order as [|a rest IH]; intros s; [done|]. cbn. pose proof (collectRetransmission_same now a s) as H1.
  destruct (collectRetransmission now a s) as [b s1]. pose proof (IH s1) as H2. destruct (collectRetransmissions now rest s1) as [b' s2].
  cbn in *. by trans s1.
Qed.

Lemma generalRecords_same v6 order s : sameGroups s (snd (generalRecords v6 order s)).
Proof.
  revert s. induction order as [|a rest IH]; intros s; [done|]. cbn [generalRecords]. destruct (groupAt s a) as [g|]; [|apply IH].
  destruct (_ || _); [apply IH|]. cbv zeta.
  match goal with |- context [if ?b then updateGroup a ?f s else s] =>
    assert (sameGroups s (if b then updateGroup a f s else s)) as H1 by (destruct b; [by apply sameGroups_update|done]);
    set (s1 := if b then updateGroup a f s else s) in * end. clearbody s1.
  set (s2 := updateGroup a _ s1). assert (sameGroups s1 s2) as H2 by (apply sameGroups_update; intros g'; by destruct (negb _)).
  clearbody s2. pose proof (IH s2) as H3. destruct (generalRecords v6 rest s2) as [[bs rs] s3]. cbn in *. trans s1; [done|]. by trans s2.
Qed.

Lemma collectGeneral_same now v6 order s : sameGroups s (snd (collectGeneral now v6 order s)).
Proof.
  unfold collectGeneral. cbv zeta. destruct (_ || _); [done|]. pose proof (generalRecords_same v6 order s) as H.
  destruct (generalRecords v6 order s) as [[bs rs] s1]. cbn in *. trans s1; [done|by apply sameGroups_objects].
Qed.

Lemma collectQuery_same now group s : sameGroups s (snd (collectQuery now group s)).
Proof.
  unfold collectQuery. destruct (groupAt s group) as [g|]; [|done]. cbv zeta. destruct (_ || _); [done|].
  set (s1 := updateGroup group _ s). assert (sameGroups s s1) as H by by apply sameGroups_update.
  destruct (negb _); cbn; [|done]. trans s1; [done|by apply sameGroups_update].
Qed.

Lemma collectQueries_same now order s : sameGroups s (snd (collectQueries now order s)).
Proof.
  revert s. induction order as [|a rest IH]; intros s; [done|]. cbn. pose proof (collectQuery_same now a s) as H1.
  destruct (collectQuery now a s) as [b s1]. pose proof (IH s1) as H2. destruct (collectQueries now rest s1) as [b' s2].
  cbn in *. by trans s1.
Qed.

Lemma collectReports_same now retransmitted order s : sameGroups s (snd (collectReports now retransmitted order s)).
Proof.
  unfold collectReports. destruct (ms_closed s); [done|]. set (s1 := refreshCompatibilityLocked now s).
  trans s1; [apply refresh_same|].
  pose proof (collectRetransmissions_same now retransmitted s1) as H2. destruct (collectRetransmissions _ _ _) as [b2 s2].
  pose proof (collectGeneral_same now false order s2) as H3. destruct (collectGeneral now false order s2) as [b3 s3].
  pose proof (collectGeneral_same now true order s3) as H4. destruct (collectGeneral now true order s3) as [b4 s4].
  pose proof (collectQueries_same now order s4) as H5. destruct (collectQueries _ _ _) as [b5 s5]. cbn in *.
  trans s2; [done|]. trans s3; [done|]. by trans s4.
Qed.

(** ** What a group publishes *)

Lemma load_ok s a : multicastOk s -> loadDispatchGroup s a = dispatchOf <$> groupAt s a.
Proof.
  intros [H1 _ (i & Hi & H3) H4 _]. unfold loadDispatchGroup. rewrite Hi. cbn [mbind option_bind].
  rewrite H3 by (done || by left). unfold groupAt. destruct (ms_groups s !! a) as [id|] eqn:Ha; [|done]. cbn.
  destruct (st_object _ H1 a id Ha) as [g Hg]. rewrite Hg. cbn.
  assert (groupAt s a = Some g) as Hat by (unfold groupAt; by rewrite Ha).
  by destruct (H4 a g ltac:(done) Hat) as (_ & _ & ->).
Qed.

Lemma group_members s a g : multicastOk s -> groupAt s a = Some g ->
  gs_members g = membersAt s a /\ membersAt s a <> ∅ /\ gs_aggregate g = aggregateMulticastFilter (membersAt s a).
Proof.
  intros H Hg. destruct (ao_groups _ _ _ H a g ltac:(done) Hg) as (H1 & H2 & _).
  unfold membersAt. by rewrite Hg.
Qed.

Lemma no_group_members s a : groupAt s a = None -> membersAt s a = ∅.
Proof. unfold membersAt. by intros ->. Qed.

Lemma udpMembers_in members c f : (c, f) ∈ udpMembers members <-> members !! UDPEndpoint c = Some f.
Proof.
  unfold udpMembers. rewrite list_elem_of_omap. setoid_rewrite <- elem_of_map_to_list. split.
  - intros ([[c'|c'] f'] & Hin & Heq); [by injection Heq as -> ->|done].
  - intros Hin. by exists (UDPEndpoint c, f).
Qed.

Lemma ipMembers_in members c f : (c, f) ∈ ipMembers members <-> members !! IPEndpoint c = Some f.
Proof.
  unfold ipMembers. rewrite list_elem_of_omap. setoid_rewrite <- elem_of_map_to_list. split.
  - intros ([[c'|c'] f'] & Hin & Heq); [done|by injection Heq as -> ->].
  - intros Hin. by exists (IPEndpoint c, f).
Qed.

(** Selecting by key and mapping keys apart keeps keys apart. *)
Lemma omap_keys_NoDup {K L V} (f : K * V -> option (L * V)) (l : list (K * V)) :
  (forall x x' y y', f x = Some y -> f x' = Some y' -> y.1 = y'.1 -> x.1 = x'.1) ->
  NoDup l.*1 -> NoDup (omap f l).*1.
Proof.
  intros Hf. induction l as [|x l IH]; intros Hnd; cbn; [constructor|].
  apply list.NoDup_cons in Hnd as [Hx Hnd]. destruct (f x) as [y|] eqn:E; [|by apply IH]. cbn. apply list.NoDup_cons. split; [|by apply IH].
  rewrite list_elem_of_fmap. intros (y' & Hy' & Hin). apply list_elem_of_omap in Hin as (x' & Hin & E').
  apply Hx. rewrite (Hf x x' y y' E E' Hy'). apply list_elem_of_fmap. by exists x'.
Qed.

Lemma udpMembers_keys members : NoDup (udpMembers members).*1.
Proof.
  apply omap_keys_NoDup; [|apply NoDup_fst_map_to_list].
  intros [[c|c] f] [[c'|c'] f'] y y' [= <-] [= <-]; cbn; congruence.
Qed.

Lemma ipMembers_keys members : NoDup (ipMembers members).*1.
Proof.
  apply omap_keys_NoDup; [|apply NoDup_fst_map_to_list].
  intros [[c|c] f] [[c'|c'] f'] y y'; cbn; intros; simplify_eq/=; congruence.
Qed.

(** Delivery keeps the members that pass a test, once each. *)
Lemma select_members {F} (test : Z -> F -> bool) (l : list (Z * F)) : NoDup l.*1 ->
  let chosen := omap (fun '(c, f) => if test c f then None else Some c) l in
  NoDup chosen /\ forall c, c ∈ chosen <-> exists f, (c, f) ∈ l /\ test c f = false.
Proof.
  intros Hnd. cbv zeta. split.
  - induction l as [|[c f] l IH]; cbn; [constructor|]. apply list.NoDup_cons in Hnd as [Hc Hnd].
    destruct (test c f); [by apply IH|]. apply list.NoDup_cons. split; [|by apply IH].
    intros Hin. apply list_elem_of_omap in Hin as ([c' f'] & Hin & E). apply Hc. destruct (test c' f'); [done|]. injection E as ->.
    apply list_elem_of_fmap. by exists (c, f').
  - intros c. rewrite list_elem_of_omap. split.
    + intros ([c' f'] & Hin & E). destruct (test c' f') eqn:Et; [done|]. injection E as ->. by exists f'.
    + intros (f & Hin & Et). exists (c, f). by rewrite Et.
Qed.

(** ** Delivery by the memberships *)

Definition udpWanted (connection : udpConnection) (source : Addr) (sourcePort targetPort : Z) : Prop :=
  isUnspecified (uc_local connection) = true /\ uc_port connection = targetPort /\
  (forall remote, uc_remote connection = Some remote -> remote = (source, sourcePort)).

Definition ipWanted (connection : ipConnection) (source : Addr) (protocol : Z) : Prop :=
  isUnspecified (ic_local connection) = true /\ ic_protocol connection = protocol /\
  (forall remote, ic_remote connection = Some remote -> remote = source).

Lemma remote_test {T} `{EqDecision T} (remote : option T) (x : T) :
  match remote with Some r => negb (bool_decide (r = x)) | None => false end = false <-> forall r, remote = Some r -> r = x.
Proof.
  destruct remote as [r|]; [|by split]. rewrite negb_false_iff, bool_decide_eq_true. split; [by intros <- ? [= ->]|by auto].
Qed.

Definition udpRefuses (connectionOf : Z -> udpConnection) (source : Addr) (sourcePort targetPort c : Z) (f : multicastFilter) : bool :=
  negb (isUnspecified (uc_local (connectionOf c))) || negb (uc_port (connectionOf c) =? targetPort)
  || match uc_remote (connectionOf c) with Some remote => negb (bool_decide (remote = (source, sourcePort))) | None => false end
  || negb (filterAccepts f source).

Definition ipRefuses (connectionOf : Z -> ipConnection) (source : Addr) (protocol c : Z) (f : multicastFilter) : bool :=
  negb (isUnspecified (ic_local (connectionOf c))) || negb (ic_protocol (connectionOf c) =? protocol)
  || match ic_remote (connectionOf c) with Some remote => negb (bool_decide (remote = source)) | None => false end
  || negb (filterAccepts f source).

Lemma deliverUDP_exact connectionOf s source target sourcePort targetPort : multicastOk s ->
  NoDup (deliverUDP connectionOf s source target sourcePort targetPort) /\
  forall c, c ∈ deliverUDP connectionOf s source target sourcePort targetPort <->
    exists f, membersAt s target !! UDPEndpoint c = Some f /\ filterAccepts f source = true /\
      udpWanted (connectionOf c) source sourcePort targetPort.
Proof.
  intros H. unfold deliverUDP. rewrite (load_ok s target H). destruct (groupAt s target) as [g|] eqn:Hg; cbn [fmap option_fmap option_map].
  2:{ split; [constructor|]. intros c. rewrite (no_group_members _ _ Hg). setoid_rewrite lookup_empty. split; [by intros ?%not_elem_of_nil|naive_solver]. }
  destruct (group_members s target g H Hg) as (Hm & _). cbn [dispatchOf md_udp]. rewrite Hm.
  destruct (select_members (udpRefuses connectionOf source sourcePort targetPort) _ (udpMembers_keys (membersAt s target))) as [Hnd Hin].
  split; [exact Hnd|]. intros c. rewrite (Hin c). setoid_rewrite udpMembers_in. apply exist_proper. intros f. cbv beta. apply and_iff_compat_l.
  unfold udpRefuses.
  rewrite !orb_false_iff, !negb_false_iff, Z.eqb_eq, remote_test. unfold udpWanted. tauto.
Qed.

Lemma deliverIP_exact connectionOf s source target protocol : multicastOk s ->
  NoDup (deliverIP connectionOf s source target protocol) /\
  forall c, c ∈ deliverIP connectionOf s source target protocol <->
    exists f, membersAt s target !! IPEndpoint c = Some f /\ filterAccepts f source = true /\
      ipWanted (connectionOf c) source protocol.
Proof.
  intros H. unfold deliverIP. rewrite (load_ok s target H). destruct (groupAt s target) as [g|] eqn:Hg; cbn [fmap option_fmap option_map].
  2:{ split; [constructor|]. intros c. rewrite (no_group_members _ _ Hg). setoid_rewrite lookup_empty. split; [by intros ?%not_elem_of_nil|naive_solver]. }
  destruct (group_members s target g H Hg) as (Hm & _). cbn [dispatchOf md_ip]. rewrite Hm.
  destruct (select_members (ipRefuses connectionOf source protocol) _ (ipMembers_keys (membersAt s target))) as [Hnd Hin].
  split; [exact Hnd|]. intros c. rewrite (Hin c). setoid_rewrite ipMembers_in. apply exist_proper. intros f. cbv beta. apply and_iff_compat_l.
  unfold ipRefuses.
  rewrite !orb_false_iff, !negb_false_iff, Z.eqb_eq, remote_test. unfold ipWanted. tauto.
Qed.

Lemma acceptsSource_exact s group source : multicastOk s ->
  acceptsSource s group source = true <->
  isAllHostsGroup (unmap group) = true \/
  exists endpoint f, membersAt s (unmap group) !! endpoint = Some f /\ filterAccepts f source = true.
Proof.
  intros H. unfold acceptsSource. cbv zeta. destruct (isAllHostsGroup (unmap group)); [by split; [left|]|].
  rewrite (load_ok s _ H). destruct (groupAt s (unmap group)) as [g|] eqn:Hg; cbn [fmap option_fmap option_map].
  2:{ rewrite (no_group_members _ _ Hg). split; [done|]. intros [?|(e & f & Hf & _)]; [done|]. by rewrite lookup_empty in Hf. }
  destruct (group_members s _ g H Hg) as (Hm & Hne & Ha). cbn [dispatchOf md_filter]. rewrite Ha, filterAccepts_passes, unmap_idem.
  rewrite aggregate_passes by done. setoid_rewrite filterAccepts_passes. naive_solver.
Qed.

Lemma acceptsDestination_exact {A} (network : networkState A) s group : multicastOk s ->
  acceptsDestination network s group = true <->
  networkStateHasFamily network (is6 (unmap group)) = true /\ membersAt s (unmap group) <> ∅.
Proof.
  intros H. unfold acceptsDestination. cbv zeta. destruct (networkStateHasFamily _ _); cbn [negb]; [|naive_solver].
  rewrite (load_ok s _ H). destruct (groupAt s (unmap group)) as [g|] eqn:Hg; cbn [fmap option_fmap option_map].
  2:{ rewrite (no_group_members _ _ Hg). naive_solver. }
  destruct (group_members s _ g H Hg) as (Hm & Hne & _). split; [by intros _|]. intros _. cbn [dispatchOf md_udp md_ip].
  rewrite Hm. destruct (map_choose _ Hne) as ([c|c] & f & Hf).
  - apply udpMembers_in in Hf. destruct (udpMembers _); [by apply not_elem_of_nil in Hf|done].
  - apply ipMembers_in in Hf. destruct (ipMembers _); [by apply not_elem_of_nil in Hf|]. rewrite orb_true_iff. by right.
Qed.

(** ** Bulk changes *)

Definition covers (order : list Addr) (s : multicastState) : Prop :=
  NoDup order /\ forall a, is_Some (ms_groups s !! a) -> a ∈ order.

Lemma uncovered_empty order s a : covers order s -> a ∉ order -> membersAt s a = ∅.
Proof.
  intros [_ H] Ha. apply no_group_members. unfold groupAt. destruct (ms_groups s !! a) as [id|] eqn:E; [|done].
  destruct Ha. apply H. by eexists.
Qed.

Lemma removeEndpoint_ok now endpoint order s : multicastOk s -> covers order s ->
  multicastOk (removeEndpoint now endpoint order s) /\
  forall b, membersAt (removeEndpoint now endpoint order s) b = delete endpoint (membersAt s b).
Proof.
  intros H Hc. destruct (editGroups_ok (fun _ => withoutEndpoint endpoint) (fun _ => eq_refl) now order s false (proj1 Hc) H) as [H1 Hm].
  split; [exact H1|]. intros b. unfold removeEndpoint. rewrite Hm. destruct (decide (b ∈ order)) as [|Hb].
  - unfold editedMembers, withoutEndpoint. destruct (membersAt s b !! endpoint) eqn:E; [done|]. cbn. by rewrite delete_id.
  - by rewrite (uncovered_empty order s b), delete_empty.
Qed.

(** The memberships the new configuration allows. *)
Definition allowedMembers {A} (network : networkState A) (group : Addr) (members : gmap multicastEndpoint multicastFilter)
    : gmap multicastEndpoint multicastFilter :=
  omap (updatedFilter network (is6 group)) members.

Lemma withoutInvalid_default {A} (network : networkState A) group members :
  default members (withoutInvalidSources network group members) = allowedMembers network group members.
Proof.
  unfold withoutInvalidSources, allowedMembers. cbv zeta. destruct (existsb _ _) eqn:E; [done|]. cbn.
  apply map_eq. intros e. rewrite lookup_omap. destruct (members !! e) as [f|] eqn:Hf; [|done]. cbn.
  apply elem_of_map_to_list, list_elem_of_In in Hf. rewrite <- not_true_iff_false, existsb_exists in E.
  unfold updatedFilter. cbv zeta. case_bool_decide as Hv; [done|]. destruct E. exists (e, f). split; [done|]. by rewrite bool_decide_eq_false_2.
Qed.

Lemma withoutInvalid_empty {A} (network : networkState A) b : withoutInvalidSources network b ∅ = None.
Proof. done. Qed.

Lemma announce_same {A} now (network : networkState A) v6 s : sameGroups s (announceFamily now network v6 s).
Proof. unfold announceFamily. destruct (_ && _); [by apply sameGroups_objects|done]. Qed.

Lemma updateConfig_ok {A} now (network : networkState A) order s : multicastOk s -> covers order s ->
  multicastOk (updateConfig now network order s) /\
  forall b, membersAt (updateConfig now network order s) b = allowedMembers network b (membersAt s b).
Proof.
  intros H Hc. unfold updateConfig. rewrite (ao_open _ _ _ H).
  destruct (editGroups_ok (withoutInvalidSources network) (withoutInvalid_empty network) now order s false (proj1 Hc) H) as [H1 Hm].
  fold (removeInvalidSourcesLocked now network order s) in H1, Hm. set (s1 := removeInvalidSourcesLocked _ _ _ s) in *. clearbody s1. cbv zeta.
  assert (sameGroups s1 (wakeLocked (announceFamily now network true (announceFamily now network false s1)))) as Hsame.
  { trans (announceFamily now network false s1); [apply announce_same|].
    trans (announceFamily now network true (announceFamily now network false s1)); [apply announce_same|apply wake_same]. }
  split; [by apply (sameGroups_almost _ _ s1)|]. intros b. rewrite (sameGroups_members s1) by (done || apply H1). rewrite Hm.
  destruct (decide (b ∈ order)) as [|Hb]; [apply withoutInvalid_default|].
  by rewrite (uncovered_empty order s b).
Qed.

(** ** Events *)

Inductive event {A} :=
| Change (now : Z) (endpoint : multicastEndpoint) (operation : multicastMembershipOperation) (group source : Addr)
| SetFilter (now : Z) (endpoint : multicastEndpoint) (group : Addr) (mode : multicastFilterMode) (sources : gset Addr)
| RemoveEndpoint (now : Z) (endpoint : multicastEndpoint) (order : list Addr)
| UpdateConfig (now : Z) (network : networkState A) (order : list Addr)
| HearQuery (query : multicastQuery) (now : Z) (order : list Addr)
| HearReport (group : Addr) (now : Z)
| Turn (now : Z) (retransmitted order : list Addr).
Arguments event A : clear implicits.

(** A refused operation leaves the state as it is. *)
Definition keepState (s : multicastState) (o : outcome multicastState) : multicastState :=
  match o with Ret s' => s' | _ => s end.

Definition step {A} (e : event A) (s : multicastState) : multicastState :=
  match e with
  | Change now endpoint operation group source => keepState s (change now endpoint operation group source s)
  | SetFilter now endpoint group mode sources => keepState s (set now endpoint group mode sources s)
  | RemoveEndpoint now endpoint order => removeEndpoint now endpoint order s
  | UpdateConfig now network order => updateConfig now network order s
  | HearQuery query now order => scheduleQuery query now order s
  | HearReport group now => heardLegacyReport group now s
  | Turn now retransmitted order => snd (collectReports now retransmitted order s)
  end.

(** The orders of visit are enumerations of the groups. *)
Definition possible {A} (e : event A) (s : multicastState) : Prop :=
  match e with
  | RemoveEndpoint _ _ order | UpdateConfig _ _ order => covers order s
  | _ => True
  end.

(** The abstract state: which socket asked for what at each group. *)
Definition membershipTable := Addr -> gmap multicastEndpoint multicastFilter.

Definition tableStep {A} (e : event A) (table : membershipTable) : membershipTable :=
  match e with
  | Change _ endpoint operation group source =>
      match checkOperation operation (table group !! endpoint) source with
      | Ret f => alterMember group endpoint (applyOperation operation f source) table
      | _ => table
      end
  | SetFilter _ endpoint group mode sources =>
      match table group !! endpoint with
      | Some _ => alterMember group endpoint (if emptyFilter mode sources then None else Some (mkFilter mode sources)) table
      | None => table
      end
  | RemoveEndpoint _ endpoint _ => fun b => delete endpoint (table b)
  | UpdateConfig _ network _ => fun b => allowedMembers network b (table b)
  | HearQuery _ _ _ | HearReport _ _ | Turn _ _ _ => table
  end.

Inductive runs {A} : multicastState -> membershipTable -> Prop :=
| runs_new now seed random : runs (newMulticastState now seed random) (fun _ => ∅)
| runs_step (e : event A) s table : runs s table -> possible e s -> runs (step e s) (tableStep e table).

Lemma new_ok now seed random : multicastOk (newMulticastState now seed random) /\
  forall b, membersAt (newMulticastState now seed random) b = ∅.
Proof.
  unfold newMulticastState. cbv zeta. set (q := match seed with Some q => _ | None => _ end). clearbody q. split; [|done]. split; try done.
  - split; cbn; try done. by intros id [? ?].
  - by exists ∅.
  - by intros [].
Qed.

Lemma alterMember_ext group endpoint f table table' b : (forall a, table a = table' a) ->
  alterMember group endpoint f table b = alterMember group endpoint f table' b.
Proof. intros H. unfold alterMember. by rewrite !H. Qed.

Lemma protocol_ok s s' : sameGroups s s' -> multicastOk s -> multicastOk s' /\ forall b, membersAt s' b = membersAt s b.
Proof.
  intros Hs H. split; [by apply (sameGroups_almost _ _ s)|]. intros b. by apply sameGroups_members; [|apply H].
Qed.

Lemma step_ok {A} (e : event A) s : multicastOk s -> possible e s ->
  multicastOk (step e s) /\ forall b, membersAt (step e s) b = tableStep e (membersAt s) b.
Proof.
  intros H Hp. destruct e; cbn [step tableStep possible] in *.
  - pose proof (change_ok now endpoint operation group source s H) as Hc. destruct (change _ _ _ _ _ _) as [s'|e|]; cbn [keepState].
    + destruct Hc as (? & f & -> & ?). done.
    + by rewrite Hc.
    + done.
  - pose proof (set_ok now endpoint group mode sources s H) as Hc. destruct (set _ _ _ _ _ _) as [s'|e|]; cbn [keepState].
    + destruct Hc as (? & [f ->] & ?). done.
    + by destruct Hc as [-> _].
    + done.
  - by apply removeEndpoint_ok.
  - by apply updateConfig_ok.
  - by apply protocol_ok; [apply scheduleQuery_same|].
  - by apply protocol_ok; [apply heardLegacy_same|].
  - by apply protocol_ok; [apply collectReports_same|].
Qed.

Lemma tableStep_ext {A} (e : event A) table table' b : (forall a, table a = table' a) -> tableStep e table b = tableStep e table' b.
Proof.
  intros H. destruct e; cbn; rewrite ?H; try done.
  - destruct (checkOperation _ _ _); [by apply alterMember_ext|done..].
  - destruct (table' group !! endpoint); [by apply alterMember_ext|done].
Qed.

Lemma runs_ok {A} s table : @runs A s table -> multicastOk s /\ forall b, membersAt s b = table b.
Proof.
  induction 1 as [|e s table _ [H Hm] Hp]; [apply new_ok|]. destruct (step_ok e s H Hp) as [H1 Hm1]. split; [done|].
  intros b. rewrite Hm1. by apply tableStep_ext.
Qed.

(** A closed dispatcher publishes nothing. *)
Lemma close_silent s a : loadDispatchGroup (close s) a = None.
Proof. done. Qed.

(** C15. The data plane reads the dispatcher without its lock; in every state
    the dispatcher reaches through joins, leaves, filter changes, removed
    sockets, configuration changes, queries, legacy reports and turns of its
    worker, it is that of the table of memberships the sockets asked for: a
    source is accepted exactly where some member's filter accepts it (and at the
    all-hosts group), a destination exactly where there are members and an
    address of the family, and a packet is queued once on exactly the sockets
    that are bound for it and whose own filter accepts the source.  Closing
    silences the published index. *)
Theorem multicast_dispatch_exact {A} (s : multicastState) (table : membershipTable) : @runs A s table ->
  (forall group source, acceptsSource s group source = true <->
     isAllHostsGroup (unmap group) = true \/
     exists endpoint f, table (unmap group) !! endpoint = Some f /\ filterAccepts f source = true) /\
  (forall B (network : networkState B) group, acceptsDestination network s group = true <->
     networkStateHasFamily network (is6 (unmap group)) = true /\ table (unmap group) <> ∅) /\
  (forall connectionOf source target sourcePort targetPort,
     let queued := deliverUDP connectionOf s source target sourcePort targetPort in
     NoDup queued /\ forall c, c ∈ queued <->
       exists f, table target !! UDPEndpoint c = Some f /\ filterAccepts f source = true /\
         udpWanted (connectionOf c) source sourcePort targetPort) /\
  (forall connectionOf source target protocol,
     let queued := deliverIP connectionOf s source target protocol in
     NoDup queued /\ forall c, c ∈ queued <->
       exists f, table target !! IPEndpoint c = Some f /\ filterAccepts f source = true /\
         ipWanted (connectionOf c) source protocol) /\
  forall group, loadDispatchGroup (close s) group = None.
Proof.
  intros Hr. destruct (runs_ok s table Hr) as [H Hm]. split_and!.
  - intros group source. rewrite <- Hm. by apply acceptsSource_exact.
  - intros B network group. rewrite <- Hm. by apply acceptsDestination_exact.
  - intros connectionOf source target sourcePort targetPort. cbv zeta. setoid_rewrite <- Hm. by apply deliverUDP_exact.
  - intros connectionOf source target protocol. cbv zeta. setoid_rewrite <- Hm. by apply deliverIP_exact.
  - apply close_silent.
Qed.

(** Two sockets share a group: one takes every source but one, the other a
    single source. *)
Definition exampleGroup : Addr := Addr4 [239; 1; 1; 1].
Definition exampleNoisy : Addr := Addr4 [10; 0; 0; 5].
Definition exampleQuiet : Addr := Addr4 [10; 0; 0; 7].

Definition exampleEvents : list (event unit) :=
  [Change 1 (UDPEndpoint 1) multicastJoinAnySource exampleGroup AddrInvalid;
   Change 2 (IPEndpoint 2) multicastJoinSource exampleGroup exampleNoisy;
   Change 3 (UDPEndpoint 1) multicastExcludeSource exampleGroup exampleNoisy;
   Turn 4 [exampleGroup] [exampleGroup]].

Definition exampleTable : membershipTable := fold_left (fun table e => tableStep e table) exampleEvents (fun _ => ∅).

Lemma multicast_dispatch_exact_witness :
  exists s, @runs unit s exampleTable /\
    acceptsSource s exampleGroup exampleNoisy = true /\
    forall connectionOf, uc_local (connectionOf 1) = ipv4Unspecified -> uc_port (connectionOf 1) = 9 -> uc_remote (connectionOf 1) = None ->
      1 ∈ deliverUDP connectionOf s exampleQuiet exampleGroup 5000 9 /\
      1 ∉ deliverUDP connectionOf s exampleNoisy exampleGroup 5000 9.
Proof.
  exists (fold_left (fun s e => step e s) exampleEvents (newMulticastState 0 None 7)).
  assert (@runs unit (fold_left (fun s e => step e s) exampleEvents (newMulticastState 0 None 7)) exampleTable) as Hr.
  { unfold exampleTable, exampleEvents. cbn [fold_left]. repeat (apply runs_step; [|exact I]). apply runs_new. }
  split; [exact Hr|]. destruct (multicast_dispatch_exact _ _ Hr) as (Hs & _ & Hu & _). split.
  - apply Hs. constructor 2. exists (IPEndpoint 2), (mkFilter multicastFilterInclude {[exampleNoisy]}). split; vm_compute; reflexivity.
  - intros connectionOf E1 E2 E3. split.
    + apply Hu. exists (mkFilter multicastFilterExclude {[exampleNoisy]}). split; [vm_compute; reflexivity|]. split; [vm_compute; reflexivity|].
      unfold udpWanted. rewrite E1, E2, E3. done.
    + intros Hin. apply Hu in Hin as (f & Hf & Ha & _).
      assert (exampleTable exampleGroup !! UDPEndpoint 1 = Some (mkFilter multicastFilterExclude {[exampleNoisy]})) as Ht by (vm_compute; reflexivity).
      rewrite Ht in Hf. injection Hf as <-. vm_compute in Ha. discriminate.
Defined.
