(* ===== verification/MulticastPack.v ===== *)
(** * Packing report records into packets

    Every packed report fits the link, and the reports carry the records: whole,
    divided, or, for the source lists of EXCLUDE modes, truncated. *)

From stdpp Require Import strings gmap.
From S2P Require Import Prelude Addr Multicast MulticastReport.

Section Pack.
Context (maximum reportHeader recordHeader addressSize : Z)
  (Hrecord : 0 <= recordHeader) (Haddress : 0 < addressSize)
  (Hroom : reportHeader + recordHeader <= maximum).

Definition recordSize (record : multicastReportRecord) : Z := recordHeader + addressSize * zlen (rr_sources record).

Definition reportSize (report : list multicastReportRecord) : Z :=
  fold_right (fun record size => recordSize record + size) reportHeader report.

(** Sources that fit one record of a report of its own. *)
Definition roomForSources : Z := (maximum - reportHeader - recordHeader) / addressSize.

(** What becomes of a record. *)
Definition carried (record : multicastReportRecord) (parts : list multicastReportRecord) : Prop :=
  if zlen (rr_sources record) <=? roomForSources then parts = [record]
  else if indivisible record
  then parts = [mkRecord (rr_type record) (rr_group record) (take (Z.to_nat roomForSources) (rr_sources record))]
  else if roomForSources =? 0 then parts = []
  else
    Forall (fun part => rr_type part = rr_type record /\ rr_group part = rr_group record /\ 1 <= zlen (rr_sources part) <= roomForSources) parts /\
    concat (map rr_sources parts) = rr_sources record.

Lemma room_nonneg : 0 <= roomForSources.
Proof. apply Z.div_pos; lia. Qed.

Lemma room_fits sources : zlen sources <= roomForSources -> forall type group, recordSize (mkRecord type group sources) <= maximum - reportHeader.
Proof.
  intros H type group. unfold recordSize. cbn. pose proof (Z.mul_div_le (maximum - reportHeader - recordHeader) addressSize Haddress) as Hm.
  fold roomForSources in Hm. nia.
Qed.

Lemma reportSize_app one other : reportSize (one ++ other) = reportSize one + reportSize other - reportHeader.
Proof. unfold reportSize. induction one as [|r one IH]; cbn; [lia|]. rewrite IH. lia. Qed.

Record packOk (p : packState) : Prop := {
  pk_size : pa_size p = reportSize (pa_current p);
  pk_fits : pa_size p <= maximum;
  pk_reports : Forall (fun report => reportSize report <= maximum) (pa_reports p) }.

Definition packed (p : packState) : list multicastReportRecord := concat (pa_reports p) ++ pa_current p.

Lemma flush_ok p : packOk p -> packOk (packFlush reportHeader p) /\ packed (packFlush reportHeader p) = packed p /\
  pa_current (packFlush reportHeader p) = [].
Proof.
  intros [H1 H2 H3]. unfold packFlush, packed. destruct (pa_current p) as [|r rest] eqn:E; cbn; [by rewrite E; split; [split; rewrite ?E|]|].
  rewrite concat_app, app_nil_r. cbn. rewrite app_nil_r. split; [|done]. split; cbn; [done|lia|].
  apply list.Forall_app. split; [done|]. apply list.Forall_singleton. congruence || by rewrite <- H1.
Qed.

Lemma packPieces_ok record fuel start : 0 < roomForSources -> 0 <= start -> (zlen (rr_sources record) - start <= Z.of_nat fuel) ->
  exists pieces, packPieces fuel record roomForSources start = Some pieces /\
    Forall (fun report => reportSize report <= maximum) pieces /\
    Forall (fun part => rr_type part = rr_type record /\ rr_group part = rr_group record /\ 1 <= zlen (rr_sources part) <= roomForSources) (concat pieces) /\
    concat (map rr_sources (concat pieces)) = drop (Z.to_nat start) (rr_sources record).
Proof.
  intros Hr. revert start. induction fuel as [|fuel IH]; intros start Hs Hf; cbn [packPieces].
  - destruct (Z.leb_spec (zlen (rr_sources record)) start); [|unfold zlen in *; lia]. exists []. split_and!; [done..|].
    cbn. rewrite drop_ge; [done|]. unfold zlen in *. lia.
  - destruct (Z.leb_spec (zlen (rr_sources record)) start).
    + exists []. split_and!; [done..|]. cbn. rewrite drop_ge; [done|]. unfold zlen in *. lia.
    + set (stop := if _ <? _ then _ else _).
      assert (start < stop <= zlen (rr_sources record) /\ stop <= start + roomForSources /\
              (stop = start + roomForSources \/ stop = zlen (rr_sources record) /\ zlen (rr_sources record) <= start + roomForSources)) as (Hb & Hb2 & Hb3).
      { unfold stop. destruct (Z.ltb_spec (zlen (rr_sources record)) (start + roomForSources)); lia. }
      clearbody stop.
      rewrite slice_eq by lia. cbn [mbind option_bind].
      destruct (IH (start + roomForSources)) as (pieces & -> & H1 & H2 & H3); [lia|lia|]. cbn [mbind option_bind].
      eexists. split; [reflexivity|]. set (sources := take _ (drop _ _)) in *.
      assert (zlen sources = stop - start) as Hlen.
      { unfold sources, zlen in *. rewrite length_take, length_drop. lia. }
      split_and!.
      * apply list.Forall_cons. split; [|done]. cbn. pose proof (room_fits sources ltac:(lia) (rr_type record) (rr_group record)). lia.
      * cbn. apply list.Forall_cons. split; [|done]. cbn. split_and!; [done|done|lia|lia].
      * cbn. rewrite H3. unfold sources. rewrite <- (take_drop (Z.to_nat (stop - start)) (drop (Z.to_nat start) (rr_sources record))) at 2.
        f_equal. rewrite drop_drop. destruct Hb3 as [->|[-> Hle]]; [f_equal; lia|]. rewrite !drop_ge; [done|unfold zlen in *; lia..].
Qed.

Lemma packRecord_ok p record : packOk p ->
  exists p' parts, packRecord maximum reportHeader recordHeader addressSize roomForSources p record = Some p' /\
    packOk p' /\ packed p' = packed p ++ parts /\ carried record parts.
Proof.
  intros H. pose proof room_nonneg as Hr. unfold packRecord, carried. destruct (flush_ok p H) as (Hf & Hfp & Hfc).
  destruct (Z.ltb_spec roomForSources (zlen (rr_sources record))) as [Hlt|Hge].
  - destruct (Z.leb_spec (zlen (rr_sources record)) roomForSources); [lia|]. set (q := packFlush reportHeader p) in *. clearbody q.
    destruct Hf as [Q1 Q2 Q3]. destruct (indivisible record).
    + rewrite slice_eq, Z.sub_0_r by lia. change (drop (Z.to_nat 0) (rr_sources record)) with (rr_sources record). cbn [mbind option_bind].
      eexists _, [mkRecord (rr_type record) (rr_group record) (take (Z.to_nat roomForSources) (rr_sources record))]. split; [reflexivity|].
      split; [|split; [|done]].
      * split; cbn; [done|done|]. apply list.Forall_app. split; [done|]. apply list.Forall_singleton. cbn.
        match goal with |- context [mkRecord _ _ ?l] => assert (zlen l <= roomForSources) as Hl end.
        { unfold zlen in *. rewrite length_take. lia. }
        pose proof (room_fits _ Hl (rr_type record) (rr_group record)). lia.
      * unfold packed in *. cbn. rewrite concat_app, Hfc, app_nil_r. cbn. rewrite <- Hfp, Hfc, app_nil_r. done.
    + destruct (Z.eqb_spec roomForSources 0) as [|Hne]; [exists q, []; rewrite app_nil_r; by split_and!|].
      destruct (packPieces_ok record (length (rr_sources record)) 0) as (pieces & -> & P1 & P2 & P3); [lia|lia|unfold zlen; lia|].
      cbn [mbind option_bind]. exists (mkPack (pa_reports q ++ pieces) (pa_current q) (pa_size q)), (concat pieces).
      split; [done|]. split; [|split; [|done]].
      * split; cbn; [done|done|]. by apply list.Forall_app.
      * unfold packed in *. cbn. rewrite concat_app, Hfc, app_nil_r. rewrite <- Hfp, Hfc, app_nil_r. done.
  - destruct (Z.leb_spec (zlen (rr_sources record)) roomForSources); [|lia].
    assert (recordSize record <= maximum - reportHeader) as Hsz by (destruct record as [t g l]; by apply room_fits).
    change (recordHeader + addressSize * zlen (rr_sources record)) with (recordSize record). set (q := if _ <? _ then _ else p).
    assert (packOk q /\ packed q = packed p /\ pa_size q + recordSize record <= maximum) as ([Q1 Q2 Q3] & Hq & Hfit).
    { unfold q. destruct (Z.ltb_spec maximum (pa_size p + recordSize record)) as [|Hfit]; [|by split_and!].
      split_and!; [done|done|]. destruct Hf as [F1 _ _]. rewrite F1, Hfc. cbn. lia. }
    clearbody q. eexists _, [record]. split; [reflexivity|]. split; [|split; [|done]].
    + split; cbn; [|done|done]. rewrite reportSize_app, Q1. cbn. lia.
    + unfold packed in *. cbn. by rewrite app_assoc, Hq.
Qed.

Lemma packRecords_ok p records : packOk p ->
  exists p' parts, packRecords maximum reportHeader recordHeader addressSize roomForSources p records = Some p' /\
    packOk p' /\ packed p' = packed p ++ concat parts /\ Forall2 carried records parts.
Proof.
  revert p. induction records as [|r records IH]; intros p H; cbn [packRecords].
  - exists p, []. cbn. rewrite app_nil_r. by split_and!; [..|constructor].
  - destruct (packRecord_ok p r H) as (p1 & parts & -> & H1 & E1 & C1). cbn [mbind option_bind].
    destruct (IH p1 H1) as (p2 & rest & -> & H2 & E2 & C2). exists p2, (parts :: rest). cbn.
    split_and!; [done|done| |by constructor]. by rewrite E2, E1, app_assoc.
Qed.
End Pack.

(** Packing as a whole. *)
Lemma pack_carried (records : list multicastReportRecord) (maximum reportHeader recordHeader addressSize : Z) :
  0 <= recordHeader -> 0 < addressSize -> reportHeader + recordHeader <= maximum ->
  exists reports parts, packMulticastRecords records maximum reportHeader recordHeader addressSize = Some reports /\
    Forall (fun report => reportSize reportHeader recordHeader addressSize report <= maximum) reports /\
    concat reports = concat parts /\ Forall2 (carried maximum reportHeader recordHeader addressSize) records parts.
Proof.
  intros Hr Ha Hle. unfold packMulticastRecords. destruct (Z.ltb_spec maximum (reportHeader + recordHeader)); [lia|].
  destruct (packRecords_ok maximum reportHeader recordHeader addressSize Hr Ha Hle (mkPack [] [] reportHeader) records) as (p & parts & Hp & Hok & E & C).
  { split; cbn; [done|lia|done]. }
  unfold roomForSources in Hp. rewrite Hp. cbn [mbind option_bind].
  destruct (flush_ok maximum reportHeader recordHeader addressSize Hr Hle p Hok) as ([_ _ F] & Ef & Ec). eexists _, parts. split; [reflexivity|].
  split; [done|]. split; [|done]. unfold packed in E, Ef. rewrite Ec, app_nil_r in Ef. rewrite Ef, E. done.
Qed.

(** C22. State-change and current-state records are packed without loss into
    packets the link carries: packing always succeeds, every report fits the
    room left by the headers, and in order the reports hold each record whole
    when it fits a report of its own, otherwise divided into pieces whose source
    lists join to the record's; only the source list of an EXCLUDE-mode record,
    which must not be divided, is cut at the room there is.  With room for a
    record header but for no source, which no MTU the configuration admits
    leaves, a record with sources that is not of an EXCLUDE mode is dropped; with
    no room for a record header nothing is sent. *)
Theorem reports_packed (records : list multicastReportRecord) (maximum reportHeader recordHeader addressSize : Z) :
  0 <= recordHeader -> 0 < addressSize ->
  exists reports, packMulticastRecords records maximum reportHeader recordHeader addressSize = Some reports /\
  (maximum < reportHeader + recordHeader -> reports = []) /\
  (reportHeader + recordHeader <= maximum ->
     Forall (fun report => reportSize reportHeader recordHeader addressSize report <= maximum) reports /\
     exists parts, concat reports = concat parts /\
       Forall2 (carried maximum reportHeader recordHeader addressSize) records parts).
Proof.
  intros Hr Ha. destruct (Z.lt_ge_cases maximum (reportHeader + recordHeader)) as [Hlt|Hle].
  - exists []. unfold packMulticastRecords. destruct (Z.ltb_spec maximum (reportHeader + recordHeader)); [|lia]. split_and!; [done|done|lia].
  - destruct (pack_carried records maximum reportHeader recordHeader addressSize Hr Ha Hle) as (reports & parts & -> & H1 & H2 & H3).
    exists reports. split_and!; [done|lia|]. intros _. split; [done|]. by exists parts.
Qed.

(** A divided record between two that share a report with none of its pieces. *)
Lemma reports_packed_witness :
  exists reports,
    packMulticastRecords [mkRecord 6 (Addr4 [239; 1; 1; 1]) (replicate 5 (Addr4 [10; 0; 0; 1])); mkRecord 4 (Addr4 [239; 1; 1; 2]) []] 24 8 8 4 = Some reports /\
    map (map (fun r => zlen (rr_sources r))) reports = [[2]; [2]; [1]; [0]] /\
    Forall (fun report => reportSize 8 8 4 report <= 24) reports.
Proof.
  destruct (reports_packed [mkRecord 6 (Addr4 [239; 1; 1; 1]) (replicate 5 (Addr4 [10; 0; 0; 1])); mkRecord 4 (Addr4 [239; 1; 1; 2]) []] 24 8 8 4)
    as (reports & Hp & _ & H); [lia..|]. exists reports. split; [exact Hp|]. destruct (H ltac:(lia)) as [Hf _]. split; [|exact Hf].
  vm_compute in Hp. injection Hp as <-. reflexivity.
Defined.
