(* ===== verification/MulticastConverge.v ===== *)
(** * A querier that hears the reports learns the filters

    A querier with explicit tracking, the records it applies, the invariant
    between what it believes, the interface filters and the pending
    retransmissions, what packing does to the records it hears, and the count of
    the reports that are still due. *)

From stdpp Require Import strings gmap.
From S2P Require Import Prelude Addr Checksum IpPacket Ingress Congestion Established Network Multicast MulticastReport MulticastLaws MulticastDispatch MulticastPack.

(** ** The querier

    RFC 9776 section 6.4, as it reads once the group and source timers it starts
    have run out. *)

Definition admitSources (sources : gset Addr) (f : multicastFilter) : multicastFilter :=
  match mf_mode f with
  | multicastFilterInclude => mkFilter multicastFilterInclude (mf_sources f ∪ sources)
  | multicastFilterExclude => mkFilter multicastFilterExclude (mf_sources f ∖ sources)
  end.

Definition rejectSources (sources : gset Addr) (f : multicastFilter) : multicastFilter :=
  match mf_mode f with
  | multicastFilterInclude => mkFilter multicastFilterInclude (mf_sources f ∖ sources)
  | multicastFilterExclude => mkFilter multicastFilterExclude (mf_sources f ∪ sources)
  end.

Definition routerRecord (record : multicastReportRecord) (f : multicastFilter) : multicastFilter :=
  let sources := list_to_set (rr_sources record) : gset Addr in
  if (rr_type record =? multicastRecordModeIsInclude) || (rr_type record =? multicastRecordAllowNewSources) then admitSources sources f
  else if rr_type record =? multicastRecordBlockOldSources then rejectSources sources f
  else if rr_type record =? multicastRecordChangeToIncludeMode then mkFilter multicastFilterInclude sources
  else mkFilter multicastFilterExclude sources.

Definition routerBelief := Addr -> multicastFilter.

Definition hearRecord (belief : routerBelief) (record : multicastReportRecord) : routerBelief :=
  fun group => if decide (group = rr_group record) then routerRecord record (belief group) else belief group.

Definition hearBatch (belief : routerBelief) (batch : multicastReportBatch) : routerBelief :=
  fold_left hearRecord (rb_records batch) belief.

Definition hearBatches (belief : routerBelief) (batches : list multicastReportBatch) : routerBelief :=
  fold_left hearBatch batches belief.

(** ** Agreement outside a set of sources *)

Lemma admit_passes sources f x : passes (admitSources sources f) x = passes f x || bool_decide (x ∈ sources).
Proof.
  unfold passes, admitSources. destruct (mf_mode f); cbn.
  - by rewrite (bool_decide_ext _ _ (elem_of_union _ _ _)), bool_decide_or.
  - rewrite (bool_decide_ext _ _ (elem_of_difference _ _ _)), bool_decide_and, bool_decide_not.
    by destruct (bool_decide (x ∈ mf_sources f)), (bool_decide (x ∈ sources)).
Qed.

Lemma reject_passes sources f x : passes (rejectSources sources f) x = passes f x && negb (bool_decide (x ∈ sources)).
Proof.
  unfold passes, rejectSources. destruct (mf_mode f); cbn.
  - by rewrite (bool_decide_ext _ _ (elem_of_difference _ _ _)), bool_decide_and, bool_decide_not.
  - rewrite (bool_decide_ext _ _ (elem_of_union _ _ _)), bool_decide_or.
    by destruct (bool_decide (x ∈ mf_sources f)), (bool_decide (x ∈ sources)).
Qed.

Lemma admit_mode sources f : mf_mode (admitSources sources f) = mf_mode f.
Proof. unfold admitSources. by destruct (mf_mode f). Qed.

Lemma reject_mode sources f : mf_mode (rejectSources sources f) = mf_mode f.
Proof. unfold rejectSources. by destruct (mf_mode f). Qed.

(** The belief has the mode of the filter and may differ from it on [doubt]
    only. *)
Definition agrees (doubt : gset Addr) (filter belief : multicastFilter) : Prop :=
  mf_mode belief = mf_mode filter /\ forall x, x ∉ doubt -> passes belief x = passes filter x.

Lemma agrees_refl doubt filter : agrees doubt filter filter.
Proof. done. Qed.

Lemma agrees_exact filter belief : agrees ∅ filter belief -> belief = filter.
Proof. intros [H1 H2]. apply filter_ext; [done|]. intros x. apply H2. set_solver. Qed.

(** A record true of the filter. *)
Definition trueRecord (filter : multicastFilter) (record : multicastReportRecord) : Prop :=
  let sources := list_to_set (rr_sources record) : gset Addr in
  ((rr_type record = multicastRecordModeIsInclude \/ rr_type record = multicastRecordAllowNewSources) /\
     forall x, x ∈ sources -> passes filter x = true) \/
  (rr_type record = multicastRecordBlockOldSources /\ forall x, x ∈ sources -> passes filter x = false) \/
  (rr_type record = multicastRecordChangeToIncludeMode /\ filter = mkFilter multicastFilterInclude sources) \/
  ((rr_type record = multicastRecordModeIsExclude \/ rr_type record = multicastRecordChangeToExcludeMode) /\
     filter = mkFilter multicastFilterExclude sources).

Lemma admit_agrees doubt sources filter belief : (forall x, x ∈ sources -> passes filter x = true) ->
  agrees doubt filter belief -> agrees (doubt ∖ sources) filter (admitSources sources belief).
Proof.
  intros Hs [H1 H2]. split; [by rewrite admit_mode|]. intros x Hx. rewrite admit_passes.
  case_bool_decide as Hin; [by rewrite Hs, orb_true_r|]. rewrite orb_false_r. apply H2. set_solver.
Qed.

Lemma reject_agrees doubt sources filter belief : (forall x, x ∈ sources -> passes filter x = false) ->
  agrees doubt filter belief -> agrees (doubt ∖ sources) filter (rejectSources sources belief).
Proof.
  intros Hs [H1 H2]. split; [by rewrite reject_mode|]. intros x Hx. rewrite reject_passes.
  case_bool_decide as Hin; [by rewrite Hs, andb_false_r|]. cbn [negb]. rewrite andb_true_r. apply H2. set_solver.
Qed.

Lemma agrees_weaken doubt doubt' filter belief : doubt ⊆ doubt' -> agrees doubt filter belief -> agrees doubt' filter belief.
Proof. intros H [H1 H2]. split; [done|]. intros x Hx. apply H2. set_solver. Qed.

(** True records never spoil agreement. *)
Lemma record_agrees doubt filter belief record : trueRecord filter record -> agrees doubt filter belief ->
  agrees doubt filter (routerRecord record belief).
Proof.
  intros H Ha. unfold routerRecord, trueRecord in *. cbv zeta in *. set (sources := list_to_set (rr_sources record) : gset Addr) in *.
  destruct H as [[[->| ->] H]|[[-> H]|[[-> ->]|[[->| ->] ->]]]]; cbn.
  - eapply agrees_weaken; [|by apply admit_agrees]. set_solver.
  - eapply agrees_weaken; [|by apply admit_agrees]. set_solver.
  - eapply agrees_weaken; [|by apply reject_agrees]. set_solver.
  - done.
  - done.
  - done.
Qed.

(** ** One group: the filter, the pending retransmission and the belief *)

Definition doubtOf (p : multicastRetransmission) : gset Addr := dom (rt_allow p) ∪ dom (rt_block p).

Record pendingOk (filter : multicastFilter) (p : multicastRetransmission) : Prop := {
  po_filter : rt_filter p = filter;
  po_mode : 0 <= rt_modeRemaining p;
  po_counts : forall x n, rt_allow p !! x = Some n \/ rt_block p !! x = Some n -> 1 <= n;
  po_allow : forall x, is_Some (rt_allow p !! x) -> passes filter x = true;
  po_block : forall x, is_Some (rt_block p !! x) -> passes filter x = false }.

Definition informedAt (filter : multicastFilter) (pending : option multicastRetransmission) (belief : multicastFilter) : Prop :=
  match pending with
  | None => belief = filter
  | Some p => pendingOk filter p /\ (rt_modeRemaining p = 0 -> agrees (doubtOf p) filter belief)
  end.

Lemma countSources_lookup sources robustness counters x :
  countSources sources robustness counters !! x = if decide (x ∈ sources) then Some robustness else counters !! x.
Proof.
  assert ((x ∈ sources -> countSources sources robustness counters !! x = Some robustness) /\
          (x ∉ sources -> countSources sources robustness counters !! x = counters !! x)) as [H1 H2].
  { unfold countSources.
    apply (set_fold_ind_L (fun m (seen : gset Addr) => (x ∈ seen -> m !! x = Some robustness) /\ (x ∉ seen -> m !! x = counters !! x))).
    - split; [set_solver|done].
    - intros y seen m Hy [IH1 IH2]. destruct (decide (y = x)) as [->|Hne].
      + rewrite lookup_insert_eq. set_solver.
      + rewrite lookup_insert_ne by done. set_solver. }
  destruct (decide (x ∈ sources)); auto.
Qed.

Lemma dropSources_lookup sources counters x :
  dropSources sources counters !! x = if decide (x ∈ sources) then None else counters !! x.
Proof.
  unfold dropSources. rewrite map_lookup_filter. destruct (counters !! x) eqn:E; cbn; [|by destruct (decide _)].
  destruct (decide (x ∈ sources)); [by rewrite option_guard_False by tauto|by rewrite option_guard_True].
Qed.

(** What a transition within a mode gains and loses. *)
Definition gainedSources (old current : multicastFilter) : gset Addr :=
  match mf_mode current with
  | multicastFilterInclude => multicastSourceDifference (mf_sources current) (mf_sources old)
  | multicastFilterExclude => multicastSourceDifference (mf_sources old) (mf_sources current)
  end.

Definition lostSources (old current : multicastFilter) : gset Addr := gainedSources current old.

Lemma gained_passes old current x : mf_mode old = mf_mode current ->
  x ∈ gainedSources old current <-> passes current x = true /\ passes old x = false.
Proof.
  intros Hm. unfold gainedSources, passes, multicastSourceDifference. rewrite Hm. destruct (mf_mode current).
  - rewrite elem_of_difference, bool_decide_eq_true, bool_decide_eq_false. done.
  - rewrite elem_of_difference, negb_true_iff, negb_false_iff, bool_decide_eq_true, bool_decide_eq_false. tauto.
Qed.

Lemma transition_allow robustness old current p x : mf_mode old = mf_mode current ->
  rt_allow (mergeTransition robustness old current p) !! x =
  if decide (x ∈ lostSources old current) then None
  else if decide (x ∈ gainedSources old current) then Some robustness else rt_allow p !! x.
Proof.
  intros Hm. unfold mergeTransition. rewrite bool_decide_eq_true_2 by done. cbn [negb].
  unfold lostSources, gainedSources. rewrite Hm. destruct (mf_mode current); cbn.
  all: by rewrite dropSources_lookup, countSources_lookup.
Qed.

Lemma transition_block robustness old current p x : mf_mode old = mf_mode current ->
  rt_block (mergeTransition robustness old current p) !! x =
  if decide (x ∈ lostSources old current) then Some robustness
  else if decide (x ∈ gainedSources old current) then None else rt_block p !! x.
Proof.
  intros Hm. unfold mergeTransition. rewrite bool_decide_eq_true_2 by done. cbn [negb].
  unfold lostSources, gainedSources. rewrite Hm. destruct (mf_mode current); cbn; by rewrite countSources_lookup, dropSources_lookup.
Qed.

Lemma transition_keeps robustness old current p :
  rt_filter (mergeTransition robustness old current p) = rt_filter p /\
  (mf_mode old = mf_mode current -> rt_modeRemaining (mergeTransition robustness old current p) = rt_modeRemaining p).
Proof. unfold mergeTransition. case_bool_decide; by cbn. Qed.

Lemma transition_switch robustness old current p : mf_mode old <> mf_mode current ->
  mergeTransition robustness old current p = p <| rt_modeRemaining := robustness |> <| rt_allow := ∅ |> <| rt_block := ∅ |>.
Proof. intros H. unfold mergeTransition. by rewrite bool_decide_eq_false_2. Qed.

Lemma doubt_lookup p x : x ∈ doubtOf p <-> is_Some (rt_allow p !! x) \/ is_Some (rt_block p !! x).
Proof. unfold doubtOf. by rewrite elem_of_union, !elem_of_dom. Qed.

Lemma pending_default old pending belief : informedAt old pending belief ->
  pendingOk old (default emptyRetransmission pending <| rt_filter := old |>) /\
  (rt_modeRemaining (default emptyRetransmission pending) = 0 -> agrees (doubtOf (default emptyRetransmission pending)) old belief).
Proof.
  destruct pending as [p|]; cbn.
  - intros [[H1 H2 H3 H4 H5] H]. by split.
  - intros ->. split; [|done]. split; cbn; [done|lia|..]; intros x; [intros n; rewrite !lookup_empty; by intros []|rewrite lookup_empty; by intros []..].
Qed.

(** A transition of the filter keeps the querier informed. *)
Lemma transition_informed robustness old current pending reporter now exists_ belief : 0 < robustness ->
  informedAt old pending belief ->
  informedAt current
    (Some (mergeTransition robustness old current
             (default emptyRetransmission pending <| rt_filter := current |> <| rt_exists := exists_ |> <| rt_lastReporter := reporter |>)
           <| rt_due := now |>)) belief.
Proof.
  intros Hr H. apply pending_default in H as [Hok Hag]. set (p0 := default emptyRetransmission pending) in *. clearbody p0.
  set (p := p0 <| rt_filter := current |> <| rt_exists := exists_ |> <| rt_lastReporter := reporter |>).
  destruct (transition_keeps robustness old current p) as [Hf Hm]. destruct Hok as [_ Hmode Hcounts Hallow Hblock]. cbn in Hmode, Hcounts, Hallow, Hblock.
  destruct (decide (mf_mode old = mf_mode current)) as [E|E].
  - assert (forall x, rt_allow p !! x = rt_allow p0 !! x) as Ea by done.
    assert (forall x, rt_block p !! x = rt_block p0 !! x) as Eb by done.
    pose proof (gained_passes old current) as Hg. pose proof (gained_passes current old) as Hl. fold (lostSources old current) in Hl.
    split; [split; [done|cbn; by rewrite Hm|..]; intros x; cbn|cbn; rewrite Hm by done; intros H0].
    + intros n. rewrite transition_allow, transition_block, Ea, Eb by done. specialize (Hcounts x n).
      destruct (decide (x ∈ lostSources old current)), (decide (x ∈ gainedSources old current)); naive_solver lia.
    + rewrite transition_allow, Ea by done. destruct (decide (x ∈ lostSources old current)) as [|Hnl]; [by intros []|].
      destruct (decide _) as [Hin|Hng]; [intros _; by apply Hg|]. intros Hs. apply Hallow in Hs. rewrite Hl in Hnl by done.
      destruct (passes current x); [done|tauto].
    + rewrite transition_block, Eb by done. destruct (decide (x ∈ lostSources old current)) as [Hin|Hnl]; [intros _; by apply Hl|].
      destruct (decide _) as [|Hng]; [by intros []|]. intros Hs. apply Hblock in Hs. rewrite Hg in Hng by done.
      destruct (passes current x); [tauto|done].
    + destruct (Hag H0) as [Hbelief Hp]. split; [congruence|]. intros x Hx.
      assert (x ∉ lostSources old current /\ x ∉ gainedSources old current /\ x ∉ doubtOf p0) as (Hnl & Hng & Hnd).
      { change (doubtOf (?a <| rt_due := _ |>)) with (doubtOf a) in Hx. rewrite doubt_lookup in Hx |- *.
        rewrite transition_allow, transition_block in Hx by done. rewrite Ea, Eb in Hx.
        destruct (decide (x ∈ lostSources old current)); [destruct Hx; right; by eexists|].
        destruct (decide (x ∈ gainedSources old current)); [destruct Hx; left; by eexists|done]. }
      rewrite Hp by done. rewrite Hg in Hng by done. rewrite Hl in Hnl by done.
      destruct (passes old x), (passes current x); tauto.
  - rewrite transition_switch by done. split; [split; cbn; [done|lia|..]; intros x; [intros n; rewrite !lookup_empty; by intros []|rewrite lookup_empty; by intros []..]|cbn; lia].
Qed.

(** ** One report *)

Lemma sorted_sources sources : list_to_set (sortedMulticastSources sources) = sources.
Proof. unfold sortedMulticastSources. rewrite sortBy_perm. apply list_to_set_elements_L. Qed.

Lemma counter_sources counters x :
  x ∈ (list_to_set (fst (advanceMulticastSourceCounters counters)) : gset Addr) <-> is_Some (counters !! x).
Proof.
  unfold advanceMulticastSourceCounters. cbn [fst]. rewrite sortBy_perm, elem_of_list_to_set, list_elem_of_fmap. split.
  - intros ([y n] & -> & Hin). apply elem_of_map_to_list in Hin. by eexists.
  - intros [n Hn]. exists (x, n). split; [done|]. by apply elem_of_map_to_list.
Qed.

Lemma counter_rest counters x : is_Some (snd (advanceMulticastSourceCounters counters) !! x) -> is_Some (counters !! x).
Proof.
  cbn. rewrite lookup_omap. destruct (counters !! x); cbn; [by eexists|by intros []].
Qed.

Lemma counter_counts counters x n : (forall m, counters !! x = Some m -> 1 <= m) ->
  snd (advanceMulticastSourceCounters counters) !! x = Some n -> 1 <= n.
Proof.
  cbn. rewrite lookup_omap. destruct (counters !! x) as [m|]; cbn; [|done]. intros Hm. specialize (Hm m eq_refl).
  destruct (Z.leb_spec m 1); intros [= <-]. lia.
Qed.

Lemma counted_false counters : counted counters = false -> counters = ∅.
Proof. unfold counted. rewrite negb_false_iff. apply bool_decide_eq_true. Qed.

Lemma uncounted_sources (counters : gmap Addr Z) x : counted counters = false -> is_Some (counters !! x) -> False.
Proof. intros ->%counted_false. rewrite lookup_empty. by intros []. Qed.

(** The records of one report leave the querier in agreement with the filter. *)
Lemma advance_informed group filter p belief : pendingOk filter p ->
  (rt_modeRemaining p = 0 -> agrees (doubtOf p) filter belief) ->
  let '(records, advanced, remains) := advanceRetransmissionLocked p in
  fold_left (fun f r => routerRecord r f) (map (fun r => mkRecord (rr_type r) group (rr_sources r)) records) belief = filter /\
  pendingOk filter advanced.
Proof.
  intros [H1 H4 H5 H2 H3] Hag. unfold advanceRetransmissionLocked. destruct (Z.eqb_spec (rt_modeRemaining p) 0) as [E|E]; cbn [negb].
  - pose proof (counter_sources (rt_allow p)) as Sa. pose proof (counter_rest (rt_allow p)) as Ra.
    pose proof (counter_counts (rt_allow p)) as Ca. pose proof (counter_counts (rt_block p)) as Cb.
    pose proof (counter_sources (rt_block p)) as Sb. pose proof (counter_rest (rt_block p)) as Rb.
    destruct (advanceMulticastSourceCounters (rt_allow p)) as [allowed allow], (advanceMulticastSourceCounters (rt_block p)) as [blocked block].
    cbn [fst snd] in *. split; [|split; cbn; [done|done|..]; intros x; [intros n Hx|by eauto..]; naive_solver].
    assert (agrees (doubtOf p ∖ dom (rt_allow p)) filter
              (fold_left (fun f r => routerRecord r f)
                 (map (fun r => mkRecord (rr_type r) group (rr_sources r))
                    (if counted (rt_allow p) then [mkRecord multicastRecordAllowNewSources AddrInvalid allowed] else [])) belief)) as Ha.
    { destruct (counted (rt_allow p)) eqn:Ec; cbn.
      - replace (dom (rt_allow p)) with (list_to_set allowed : gset Addr) by (apply set_eq; intros x; by rewrite Sa, elem_of_dom).
        unfold routerRecord. cbn. apply admit_agrees; [intros x Hx; apply H2, Sa, Hx|by apply Hag].
      - rewrite (counted_false _ Ec). eapply agrees_weaken; [|by apply Hag]. set_solver. }
    rewrite map_app, fold_left_app. set (middle := fold_left _ _ belief) in *. clearbody middle. apply agrees_exact.
    destruct (counted (rt_block p)) eqn:Ec; cbn.
    + eapply agrees_weaken; [|apply (reject_agrees _ (list_to_set blocked) _ _ ltac:(intros x Hx; by apply H3, Sb) Ha)].
      intros x. unfold doubtOf. rewrite !elem_of_difference, elem_of_union, Sb, !elem_of_dom. set_solver.
    + eapply agrees_weaken; [|exact Ha]. unfold doubtOf. rewrite (counted_false _ Ec). set_solver.
  - split; [|split; cbn; [done|lia|done..]]. cbn. rewrite H1. unfold routerRecord. destruct filter as [[] sources]; cbn; by rewrite sorted_sources.
Qed.

(** ** The dispatcher among current queriers *)

(** No older querier was heard, and only reported groups have pending reports. *)
Definition latestMode (s : multicastState) : Prop :=
  let q := ms_querier s in
  mq_compatibility q = mkFamily 3 2 /\ mq_igmpV1Until q = 0 /\ mq_igmpV2Until q = 0 /\ mq_mldV1Until q = 0 /\
  (forall v6, 0 <= atFamily v6 (mq_robustness q)) /\
  forall a, is_Some (ms_retransmissions s !! a) -> multicastGroupNeedsReport a = true.

Definition informed (s : multicastState) (belief : routerBelief) : Prop :=
  forall a, multicastGroupNeedsReport a = true ->
    informedAt (aggregateMulticastFilter (membersAt s a)) (ms_retransmissions s !! a) (belief a).

(** The querier variables and the retransmissions stay. *)
Definition samePending (s s' : multicastState) : Prop :=
  ms_querier s' = ms_querier s /\ ms_retransmissions s' = ms_retransmissions s.

#[global] Instance samePending_preorder : PreOrder samePending.
Proof. split; [by intros s|]. intros s1 s2 s3 [? ?] [? ?]. split; congruence. Qed.

Lemma samePending_latest s s' : samePending s s' -> latestMode s -> latestMode s'.
Proof. intros [H1 H2]. unfold latestMode. by rewrite H1, H2. Qed.

Lemma samePending_update s a f : samePending s (updateGroup a f s).
Proof. destruct (update_frame s a f) as (_ & _ & _ & _ & H1 & H2 & _). by split. Qed.

Lemma samePending_ensure s a : samePending s (ensureGroup a s).
Proof. unfold ensureGroup. destruct (ms_groups s !! a); [done|]. cbv zeta. by destruct (multicastGroupNeedsReport a). Qed.

Lemma samePending_settle s a : samePending s (settleGroup a s).
Proof.
  unfold settleGroup. destruct (groupAt s a) as [g|]; [|done]. case_bool_decide; [|apply samePending_update].
  unfold removeGroupLocked. cbv zeta. trans (updateGroup a (fun g => g <| gs_dispatch := None |>) s); [apply samePending_update|].
  by destruct (multicastGroupNeedsReport a).
Qed.

Lemma samePending_rebuild s a : samePending s (rebuildGroupDispatchLocked a s).
Proof.
  unfold rebuildGroupDispatchLocked. destruct (ms_groups s !! a); [|done]. cbv zeta.
  trans (updateGroup a (fun g => g <| gs_dispatch := Some (dispatchOf g) |>) s); [apply samePending_update|].
  destruct (ms_dispatch _); [|done]. by case_bool_decide.
Qed.

Lemma informed_carry s s' belief : (forall a, membersAt s' a = membersAt s a) -> ms_retransmissions s' = ms_retransmissions s ->
  informed s belief -> informed s' belief.
Proof. intros Hm Hr H a Ha. rewrite Hm, Hr. by apply H. Qed.

Lemma refresh_latest now s : latestMode s -> refreshCompatibilityLocked now s = s.
Proof.
  intros (H1 & H2 & H3 & H4 & _). unfold refreshCompatibilityLocked. destruct (ms_closed s) eqn:Hc; [done|].
  destruct s as [q]. cbn in *. destruct q. cbn in *. subst. reflexivity.
Qed.

(** A settled group's interface filter is the merge of its members. *)
Lemma settled_filter group s : settled group s ->
  fst (multicastInterfaceFilter (groupAt s group)) = aggregateMulticastFilter (membersAt s group).
Proof.
  unfold settled, multicastInterfaceFilter, membersAt. destruct (groupAt s group) as [g|]; [|done]. intros [Hne Ha].
  rewrite bool_decide_eq_false_2 by done. cbn. done.
Qed.

Lemma ok_settled exact_ s group : almostOk exact_ None s -> settled group s.
Proof.
  intros H. unfold settled. destruct (groupAt s group) as [g|] eqn:E; [|done].
  destruct (ao_groups _ _ _ H group g ltac:(done) E) as (? & ? & _). done.
Qed.

Lemma filtersEqual_eq f e g e' : multicastFiltersEqual f e g e' = true -> f = g.
Proof.
  unfold multicastFiltersEqual. destruct (_ || _) eqn:E; [done|]. rewrite !orb_false_iff, !negb_false_iff, !bool_decide_eq_true in E.
  destruct E as [[_ Hm] Hs]. rewrite forallb_forall. intros Hin. destruct f as [mode sources], g as [mode' sources']. cbn in *. subst. f_equal.
  apply set_subseteq_size_eq; [|lia]. intros x Hx.
  apply (bool_decide_eq_true_1 (x ∈ sources')), (Hin x), list_elem_of_In. by apply elem_of_elements.
Qed.

(** What a change of the interface state schedules. *)
Lemma interface_pending now group old oldExists reporter s : latestMode s ->
  let current := fst (multicastInterfaceFilter (groupAt s group)) in
  let s' := interfaceStateChangedLocked now group old oldExists reporter s in
  ms_querier s' = ms_querier s /\
  (ms_retransmissions s' = ms_retransmissions s /\ (multicastGroupNeedsReport group = false \/ old = current) \/
   multicastGroupNeedsReport group = true /\ exists robustness exists_ reporter, 0 < robustness /\
     ms_retransmissions s' = <[group :=
       mergeTransition robustness old current
         (default emptyRetransmission (ms_retransmissions s !! group) <| rt_filter := current |> <| rt_exists := exists_ |> <| rt_lastReporter := reporter |>)
       <| rt_due := now |>]> (ms_retransmissions s)).
Proof.
  intros Hl. cbv zeta. unfold interfaceStateChangedLocked. destruct (multicastInterfaceFilter _) as [current currentExists] eqn:Ei. cbn [fst].
  destruct (_ || _) eqn:E.
  { split; [done|]. constructor 1. split; [done|]. apply orb_true_iff in E as [E|E]; [by apply filtersEqual_eq in E; right|].
    apply negb_true_iff in E. by left. }
  rewrite refresh_latest by done. cbv zeta. rewrite Ei || idtac.
  assert (atFamily (multicastFamilyIndex group) (mq_compatibility (ms_querier s)) <? latestVersion (is6 group) = false) as ->.
  { destruct Hl as (-> & _). unfold multicastFamilyIndex, latestVersion. by destruct (is6 group). }
  cbn [andb]. split; [done|]. constructor 2. apply orb_false_iff in E as [_ E]. apply negb_false_iff in E. split; [done|].
  do 3 eexists. split; [|reflexivity]. destruct Hl as (_ & _ & _ & _ & Hr & _). specialize (Hr (multicastFamilyIndex group)). unfold multicastDefaultRobustness.
  destruct (Z.eqb_spec (atFamily (multicastFamilyIndex group) (mq_robustness (ms_querier s))) 0); lia.
Qed.

(** The change of one group's interface filter, after its members were edited. *)
Lemma interface_informed now group oldExists reporter s0 s belief :
  informed s0 belief -> samePending s0 s -> latestMode s -> storeOk s -> settled group s ->
  (forall b, b <> group -> membersAt s b = membersAt s0 b) ->
  let s' := interfaceStateChangedLocked now group (aggregateMulticastFilter (membersAt s0 group)) oldExists reporter s in
  informed s' belief /\ latestMode s'.
Proof.
  intros H0 [Hq Hr] Hl Hs Hset Hm. cbv zeta.
  pose proof (interface_pending now group (aggregateMulticastFilter (membersAt s0 group)) oldExists reporter s Hl) as [Hq' Hr'].
  pose proof (interface_same now group (aggregateMulticastFilter (membersAt s0 group)) oldExists reporter s) as Hsame.
  set (s' := interfaceStateChangedLocked _ _ _ _ _ s) in *. clearbody s'. rewrite settled_filter in Hr' by done.
  split.
  2:{ unfold latestMode in *. rewrite Hq'. destruct Hl as (H1 & H2 & H3 & H4 & H5 & H6). split_and!; try done. intros a Ha.
    destruct Hr' as [[E _]|(Hn & robustness & exists_ & reporter' & Hpos & E)]; rewrite E in Ha; [auto|].
    destruct (decide (a = group)) as [->|Hne]; [done|]. rewrite lookup_insert_ne in Ha by done. auto. }
  intros a Ha. rewrite (sameGroups_members s s') by done. specialize (H0 a Ha). rewrite <- Hr in H0.
  destruct (decide (a = group)) as [->|Hne].
  - destruct Hr' as [[-> [Hn| <-]]|(_ & robustness & exists_ & reporter' & Hpos & ->)]; [congruence|done|].
    rewrite lookup_insert_eq. by apply transition_informed.
  - rewrite Hm by done. destruct Hr' as [[-> _]|(_ & robustness & exists_ & reporter' & Hpos & ->)]; [done|]. by rewrite lookup_insert_ne.
Qed.

Lemma commit_informed exact_ now group oldExists reporter s0 s belief :
  informed s0 belief -> latestMode s0 -> samePending s0 s -> almostOk exact_ (Some group) s ->
  (forall b, b <> group -> membersAt s b = membersAt s0 b) ->
  let s' := interfaceStateChangedLocked now group (aggregateMulticastFilter (membersAt s0 group)) oldExists reporter (settleGroup group s) in
  informed s' belief /\ latestMode s'.
Proof.
  intros H0 Hl Hp Hok Hm. destruct (settle_ok exact_ group s Hok) as (H1 & Hs & Hm1 & _).
  apply interface_informed; try done.
  - trans s; [done|apply samePending_settle].
  - apply (samePending_latest s0); [|done]. trans s; [done|apply samePending_settle].
  - apply H1.
  - intros b Hb. by rewrite Hm1, Hm.
Qed.

Lemma oldFilter exact_ s group : almostOk exact_ None s ->
  fst (multicastInterfaceFilter (groupAt s group)) = aggregateMulticastFilter (membersAt s group).
Proof. intros H. by apply settled_filter, (ok_settled exact_). Qed.

Lemma alterMember_other group endpoint f table b : b <> group -> alterMember group endpoint f table b = table b.
Proof. intros H. unfold alterMember. by rewrite decide_False. Qed.

Lemma publish_informed exact_ group s belief : almostOk exact_ (Some group) s -> settled group s ->
  (exact_ = false -> exists i, ms_dispatch s = Some i /\ i !! group = ms_groups s !! group /\ is_Some (ms_groups s !! group)) ->
  informed s belief -> latestMode s ->
  informed (rebuildGroupDispatchLocked group s) belief /\ latestMode (rebuildGroupDispatchLocked group s).
Proof.
  intros H Hs Hx Hi Hl. destruct (rebuild_ok exact_ group s H Hs Hx) as (_ & Hm & _).
  pose proof (samePending_rebuild s group) as Hp. split; [|by apply (samePending_latest s)].
  by apply (informed_carry s); [..|apply Hp|].
Qed.

(** An edit of one group that ends by publishing it. *)
Lemma edit_informed now group oldExists reporter s0 s belief :
  informed s0 belief -> latestMode s0 -> samePending s0 s -> almostOk true (Some group) s ->
  (forall b, b <> group -> membersAt s b = membersAt s0 b) ->
  let s' := rebuildGroupDispatchLocked group
    (interfaceStateChangedLocked now group (aggregateMulticastFilter (membersAt s0 group)) oldExists reporter (settleGroup group s)) in
  informed s' belief /\ latestMode s'.
Proof.
  intros H0 Hl Hp Hok Hm. cbv zeta. destruct (settle_ok true group s Hok) as (H1 & Hs & _).
  destruct (commit_informed true now group oldExists reporter s0 s belief H0 Hl Hp Hok Hm) as [Hi Hl'].
  pose proof (interface_same now group (aggregateMulticastFilter (membersAt s0 group)) oldExists reporter (settleGroup group s)) as Hsame.
  apply (publish_informed true); try done.
  - by apply (sameGroups_almost _ _ (settleGroup group s)).
  - by apply (sameGroups_settled group (settleGroup group s)); [..|apply H1|].
Qed.

Lemma change_informed now endpoint operation group source s belief : multicastOk s -> latestMode s -> informed s belief ->
  informed (keepState s (change now endpoint operation group source s)) belief /\
  latestMode (keepState s (change now endpoint operation group source s)).
Proof.
  intros H Hl Hi. unfold change. pose proof (oldFilter true s group H) as Hold.
  destruct (multicastInterfaceFilter _) as [old oldExists]. cbn [fst] in Hold. subst old. cbv zeta.
  destruct (checkOperation _ _ _) as [f|e|]; [|done..]. cbn [mbind outcome_bind keepState].
  destruct (ensure_ok group s H) as (H1 & Hg & Hm). apply edit_informed; try done.
  - trans (ensureGroup group s); [apply samePending_ensure|apply samePending_update].
  - by apply update_almost.
  - intros b Hb. rewrite setMember_at by (done || apply H1). by rewrite alterMember_other, Hm.
Qed.

Lemma set_informed now endpoint group mode sources s belief : multicastOk s -> latestMode s -> informed s belief ->
  informed (keepState s (set now endpoint group mode sources s)) belief /\
  latestMode (keepState s (set now endpoint group mode sources s)).
Proof.
  intros H Hl Hi. unfold set. pose proof (oldFilter true s group H) as Hold. rewrite member_lookup. cbv zeta.
  destruct (membersAt s group !! endpoint) as [f|] eqn:Hf; [|by destruct (_ && _)].
  destruct (multicastInterfaceFilter _) as [old oldExists]. cbn [fst] in Hold. subst old. cbn [keepState].
  assert (is_Some (groupAt s group)) as Hg.
  { unfold membersAt in Hf. destruct (groupAt s group); [by eexists|]. cbn in Hf. by rewrite lookup_empty in Hf. }
  apply edit_informed; try done.
  - apply samePending_update.
  - by apply update_almost, almost_weaken.
  - intros b Hb. rewrite setMember_at by (done || apply H). by rewrite alterMember_other.
Qed.

Section Edits.
Context (edit : Addr -> gmap multicastEndpoint multicastFilter -> option (gmap multicastEndpoint multicastFilter))
  (Hempty : forall b, edit b ∅ = None).

Lemma editGroup_informed now group s exact_ belief : almostOk exact_ None s -> latestMode s -> informed s belief ->
  informed (fst (editGroup now (edit group) group s)) belief /\ latestMode (fst (editGroup now (edit group) group s)).
Proof.
  intros H Hl Hi. unfold editGroup. pose proof (oldFilter exact_ s group H) as Hold. cbv zeta.
  destruct (g ← groupAt s group; edit group (gs_members g)) as [members|] eqn:He; [|done].
  destruct (multicastInterfaceFilter _) as [old oldExists]. cbn [fst] in *. subst old.
  destruct (groupAt s group) as [g|] eqn:Hg; [|done].
  pose proof (update_almost exact_ group (fun g => g <| gs_members := members |>) _ (almost_weaken _ group _ H)) as H2.
  pose proof (samePending_update s group (fun g => g <| gs_members := members |>)) as Hp.
  destruct (update_frame s group (fun g => g <| gs_members := members |>)) as (Eg & Ed & _).
  assert (forall b, membersAt (updateGroup group (fun g => g <| gs_members := members |>) s) b = if decide (b = group) then members else membersAt s b) as Hm.
  { intros b. rewrite membersAt_update, Hg by apply H. done. }
  assert (is_Some (ms_groups s !! group)) as Hid by (apply groupAt_some; [apply H|by eexists]).
  set (s1 := updateGroup group _ s) in *. clearbody s1.
  destruct (commit_informed exact_ now group oldExists (lastReporterOf (Some g)) s s1 belief Hi Hl Hp H2) as [Hi' Hl'].
  { intros b Hb. rewrite Hm. by rewrite decide_False. }
  case_bool_decide as Hemp; [done|].
  destruct (settle_ok exact_ group s1 H2) as (H3 & Hs & _ & _ & Hd3 & _ & Hkeep). rewrite Hm, decide_True in Hkeep by done.
  pose proof (interface_same now group (aggregateMulticastFilter (membersAt s group)) oldExists (lastReporterOf (Some g)) (settleGroup group s1)) as Hsame.
  apply (publish_informed exact_); try done.
  - by apply (sameGroups_almost _ _ (settleGroup group s1)).
  - by apply (sameGroups_settled group (settleGroup group s1)); [..|apply H3|].
  - intros ->. destruct (ao_index _ _ _ H) as (i & Hi1 & Hix). exists i.
    rewrite (sg_dispatch _ _ Hsame), Hd3, Ed, (sg_groups _ _ Hsame), Hkeep, Eg by done.
    split; [done|]. split; [|done]. apply Hix; [done|by right].
Qed.

Lemma editGroups_informed now order s changed belief : almostOk (negb changed) None s -> latestMode s -> informed s belief ->
  informed (editGroups now edit order s changed) belief /\ latestMode (editGroups now edit order s changed).
Proof.
  revert s changed. induction order as [|group rest IH]; intros s changed H Hl Hi; cbn.
  - destruct changed; [|done]. split; [by apply (informed_carry s)|done].
  - pose proof (editGroup_ok edit Hempty now group s (negb changed) H) as He.
    pose proof (editGroup_informed now group s (negb changed) belief H Hl Hi) as Hd.
    destruct (editGroup now (edit group) group s) as [s1 removed]. destruct He as [H1 _]. cbn [fst] in Hd.
    apply IH; try apply Hd. by rewrite negb_orb.
Qed.
End Edits.

(** ** Queries and reports *)

Lemma randomDelay_pending maximum s : samePending s (snd (randomDelayLocked maximum s)).
Proof. unfold randomDelayLocked. by destruct (maximum <=? 0). Qed.

Lemma armLegacy_pending v6 maximum now order s : samePending s (armLegacyGroups v6 maximum now order s).
Proof.
  revert s. induction order as [|a rest IH]; intros s; [done|]. cbn. destruct (_ || _); [done|]. destruct (groupAt s a) as [g|]; [|done].
  pose proof (randomDelay_pending maximum s) as Hr. destruct (randomDelayLocked maximum s) as [delay s1]. cbn in Hr. cbv zeta.
  trans s1; [done|]. destruct (_ || _); [|apply IH].
  trans (updateGroup a (fun g => g <| gs_query := mkPendingQuery (now + delay) ∅ false |>) s1); [apply samePending_update|apply IH].
Qed.

Lemma scheduleGeneral_pending v6 maximum now order s : samePending s (scheduleGeneral v6 maximum now order s).
Proof.
  unfold scheduleGeneral. cbv zeta. destruct (_ <? _); [apply armLegacy_pending|]. destruct (negb _); [|done].
  pose proof (randomDelay_pending maximum s) as Hr. by destruct (randomDelayLocked maximum s) as [delay s1].
Qed.

(** A query of the current version changes the variables, not the mode. *)
Lemma noteScheduled_latest query now s : latestMode s -> q_version query = latestVersion (q_v6 query) -> 0 <= q_robustness query ->
  latestMode (snd (noteScheduledQuery query now s)) /\ ms_retransmissions (snd (noteScheduledQuery query now s)) = ms_retransmissions s.
Proof.
  intros Hl Hv Hr. unfold noteScheduledQuery. cbv zeta. rewrite Hv.
  assert (atFamily (q_v6 query) (mq_compatibility (ms_querier s)) <? latestVersion (q_v6 query) = false) as ->.
  { destruct Hl as (-> & _). unfold latestVersion. by destruct (q_v6 query). }
  rewrite andb_false_r. cbn [snd]. unfold noteQueryVersionLocked. rewrite (refresh_latest now s Hl). cbv zeta.
  match goal with |- context [refreshCompatibilityLocked now ?s1] =>
    assert (latestMode s1) as Hl1; [|rewrite (refresh_latest now s1 Hl1); by split] end.
  destruct Hl as (H1 & H2 & H3 & H4 & H5 & H6). unfold noteQueryVersion, latestVersion, latestMode. cbv zeta. cbn [ms_querier].
  destruct (q_v6 query); cbn; split_and!; try done; try (intros a Ha; by apply H6); intros v6; specialize (H5 v6); destruct v6; cbn in *;
    unfold multicastDefaultRobustness; try done; destruct (_ =? _); lia.
Qed.

Lemma scheduleQuery_latest query now order s : latestMode s -> q_version query = latestVersion (q_v6 query) -> 0 <= q_robustness query ->
  latestMode (scheduleQuery query now order s) /\ ms_retransmissions (scheduleQuery query now order s) = ms_retransmissions s.
Proof.
  intros Hl Hv Hr. unfold scheduleQuery. destruct (ms_closed s); [done|]. rewrite refresh_latest by done. cbv zeta.
  pose proof (noteScheduled_latest query now s Hl Hv Hr) as [Hl1 Hr1].
  destruct (noteScheduledQuery query now s) as [q s2]. cbn [snd] in *. rewrite <- Hr1. clear s Hl Hr1.
  set (maximum := if _ <=? 0 then nanosecond else _). clearbody maximum.
  assert (forall s', samePending s2 s' -> latestMode s' /\ ms_retransmissions s' = ms_retransmissions s2) as Hfin.
  { intros s' H. split; [by apply (samePending_latest s2)|apply H]. }
  destruct (isUnspecified _); [apply Hfin; apply (scheduleGeneral_pending (q_v6 q) maximum now order s2)|].
  destruct (groupAt s2 (q_group q)) as [g|]; [|done]. destruct (negb (multicastGroupNeedsReport _)); [done|].
  pose proof (randomDelay_pending maximum s2) as Hd. destruct (randomDelayLocked maximum s2) as [delay s3]. cbn [snd] in Hd. cbv zeta.
  destruct (_ && _); [by apply Hfin|]. apply Hfin. trans s3; [done|]. apply (samePending_update s3).
Qed.

(** Records of a group, heard in order. *)
Lemma hear_group group (types : list multicastReportRecord) belief a :
  fold_left hearRecord (map (fun r => mkRecord (rr_type r) group (rr_sources r)) types) belief a =
  if decide (a = group) then fold_left (fun f r => routerRecord r f) (map (fun r => mkRecord (rr_type r) group (rr_sources r)) types) (belief group)
  else belief a.
Proof.
  revert belief. induction types as [|r types IH]; intros belief; cbn; [by destruct (decide (a = group)) as [->|]|]. rewrite IH. unfold hearRecord. cbn.
  destruct (decide (a = group)) as [->|]; [|done]. by rewrite decide_True.
Qed.

Lemma legacy_latest s v6 : latestMode s -> legacyVersionLocked s v6 = 0.
Proof. intros (H & _). unfold legacyVersionLocked. rewrite H. by destruct v6. Qed.

Lemma collectRetransmission_informed now group s belief : storeOk s -> latestMode s -> informed s belief ->
  let '(batches, s') := collectRetransmission now group s in
  informed s' (hearBatches belief batches) /\ latestMode s'.
Proof.
  intros Hs Hl Hi. pose proof (collectRetransmission_same now group s) as Hsame. unfold collectRetransmission in *.
  destruct (ms_retransmissions s !! group) as [p|] eqn:Hp; [|done]. destruct (now <? rt_due p); [done|].
  pose proof (fun filter => advance_informed group filter p (belief group)) as Hadv.
  destruct (advanceRetransmissionLocked p) as [[records advanced] remains]. cbv zeta in *.
  rewrite (legacy_latest s (is6 group) Hl) in *. cbn [Z.eqb negb andb orb] in *.
  set (batch := mkBatch _ _ _ _ _ _ _) in *. set (batches := if negb (zlen _ =? 0) then [batch] else []) in *.
  assert (forall a, hearBatches belief batches a =
            if decide (a = group) then fold_left (fun f r => routerRecord r f) (map (fun r => mkRecord (rr_type r) group (rr_sources r)) records) (belief group)
            else belief a) as Hh.
  { intros a. unfold batches, hearBatches. destruct records as [|r records]; [cbn; by destruct (decide (a = group)) as [->|]|].
    replace (zlen (map _ (r :: records)) =? 0) with false by (symmetry; apply Z.eqb_neq; cbn; unfold zlen; cbn; lia).
    cbn [negb fold_left]. unfold hearBatch, batch. cbn [rb_records]. apply hear_group. }
  clearbody batches.
  assert (forall s' p', samePending s (s' <| ms_retransmissions := ms_retransmissions s |>) ->
            (forall a, membersAt s' a = membersAt s a) -> ms_retransmissions s' = partial_alter (fun _ => p') group (ms_retransmissions s) ->
            (p' = None \/ exists due, p' = Some (advanced <| rt_due := due |>)) ->
            informed s' (hearBatches belief batches) /\ latestMode s') as Hfin.
  { intros s' p' [Hq _] Hm Hr Hp'. split.
    2:{ unfold latestMode in *. cbn in Hq. rewrite Hq. destruct Hl as (H1 & H2 & H3 & H4 & H5 & H6). split_and!; try done.
      intros a Ha. rewrite Hr in Ha. destruct (decide (a = group)) as [->|Hne]; [apply H6; by eexists|].
      rewrite lookup_partial_alter_ne in Ha by done. auto. }
    intros a Ha. rewrite Hm, Hr, Hh. specialize (Hi a Ha). destruct (decide (a = group)) as [->|Hne]; [|by rewrite lookup_partial_alter_ne].
    rewrite Hp in Hi. destruct Hi as [Hok Hag]. destruct (Hadv _ Hok Hag) as [-> Hok'].
    rewrite lookup_partial_alter_eq. destruct Hp' as [->|[due ->]]; [done|]. split; [|done]. by destruct Hok'. }
  destruct remains.
  - pose proof (randomDelay_pending multicastUnsolicitedReportInterval s) as [Hq Hr].
    destruct (randomDelayLocked multicastUnsolicitedReportInterval s) as [delay s2]. cbn [snd] in Hq, Hr. cbn [snd] in Hsame.
    apply (Hfin _ (Some (advanced <| rt_due := now + delay |>))); [by split| |cbn; by rewrite Hr|right; by eexists].
    intros a. by apply sameGroups_members.
  - apply (Hfin _ None); [by split| |done|by left]. intros a. by apply sameGroups_members.
Qed.

Lemma hear_app belief one other : hearBatches belief (one ++ other) = hearBatches (hearBatches belief one) other.
Proof. apply fold_left_app. Qed.

Lemma collectRetransmissions_informed now order s belief : storeOk s -> latestMode s -> informed s belief ->
  let '(batches, s') := collectRetransmissions now order s in
  informed s' (hearBatches belief batches) /\ latestMode s'.
Proof.
  revert s belief. induction order as [|group rest IH]; intros s belief Hs Hl Hi; [done|]. cbn [collectRetransmissions].
  pose proof (collectRetransmission_informed now group s belief Hs Hl Hi) as H1. pose proof (collectRetransmission_same now group s) as Hsame.
  destruct (collectRetransmission now group s) as [batches s1]. destruct H1 as [Hi1 Hl1]. cbn [snd] in Hsame.
  pose proof (IH s1 (hearBatches belief batches) (sameGroups_store _ _ Hsame Hs) Hl1 Hi1) as H2.
  destruct (collectRetransmissions now rest s1) as [others s2]. by rewrite hear_app.
Qed.

(** A true record keeps its group informed, whatever is pending. *)
Lemma true_informed filter pending belief record : trueRecord filter record -> informedAt filter pending belief ->
  informedAt filter pending (routerRecord record belief).
Proof.
  intros Ht. destruct pending as [p|]; cbn.
  - intros [Hok Hag]. split; [done|]. intros H0. apply record_agrees; auto.
  - intros ->. apply agrees_exact. apply record_agrees; [done|apply agrees_refl].
Qed.

Definition trueReport (s : multicastState) (record : multicastReportRecord) : Prop :=
  trueRecord (aggregateMulticastFilter (membersAt s (rr_group record))) record.

Lemma true_records s belief records : Forall (trueReport s) records -> informed s belief ->
  informed s (fold_left hearRecord records belief).
Proof.
  revert belief. induction records as [|r records IH]; intros belief Ht Hi; [done|]. apply list.Forall_cons in Ht as [Hr Ht]. cbn.
  apply IH; [done|]. intros a Ha. unfold hearRecord. destruct (decide (a = rr_group r)) as [->|]; [|by apply Hi].
  apply true_informed; [done|by apply Hi].
Qed.

Lemma true_batches s belief batches : Forall (fun b => Forall (trueReport s) (rb_records b)) batches -> informed s belief ->
  informed s (hearBatches belief batches).
Proof.
  revert belief. induction batches as [|b batches IH]; intros belief Ht Hi; [done|]. apply list.Forall_cons in Ht as [Hb Ht]. cbn.
  apply IH; [done|]. by apply true_records.
Qed.

Lemma currentRecord_true group filter sourceQuery queried :
  trueRecord filter (multicastCurrentStateRecord group filter sourceQuery queried).
Proof.
  unfold multicastCurrentStateRecord, trueRecord. cbv zeta. cbn [rr_type rr_sources]. destruct sourceQuery; cbn [negb andb].
  - constructor 1. split; [by left|]. intros x. rewrite sortBy_perm, elem_of_list_to_set, list_elem_of_In, filter_In. intros [_ Hx].
    unfold passes. destruct (mf_mode filter), (bool_decide (x ∈ mf_sources filter)); by cbn in *.
  - rewrite sorted_sources. destruct filter as [[] sources]; cbn.
    + constructor 1. split; [by left|]. intros x Hx. unfold passes. cbn. by rewrite bool_decide_eq_true_2.
    + right. right. right. split; [by left|done].
Qed.

Lemma trueReport_same s s' records : storeOk s -> sameGroups s s' -> Forall (trueReport s') records -> Forall (trueReport s) records.
Proof.
  intros Hs H Hr. eapply list.Forall_impl; [exact Hr|]. intros r. unfold trueReport. by rewrite (sameGroups_members s s').
Qed.

Lemma generalRecords_true v6 order s : multicastOk s -> latestMode s ->
  let '(batches, records, s') := generalRecords v6 order s in
  batches = [] /\ Forall (trueReport s) records /\ samePending s s'.
Proof.
  revert s. induction order as [|a rest IH]; intros s H Hl; [done|]. cbn [generalRecords].
  destruct (groupAt s a) as [g|] eqn:Hg; [|by apply IH]. destruct (_ || _); [by apply IH|].
  rewrite (legacy_latest s v6 Hl). cbn [Z.eqb negb]. set (s1 := updateGroup a _ s).
  assert (sameGroups s s1) as Hsame by (apply sameGroups_update; intros g'; by destruct (negb _)).
  assert (samePending s s1) as Hp by apply samePending_update. clearbody s1.
  pose proof (IH s1 (sameGroups_almost _ _ _ _ Hsame H) (samePending_latest _ _ Hp Hl)) as IH1.
  destruct (generalRecords v6 rest s1) as [[batches records] s2]. destruct IH1 as (-> & Hr & Hp2).
  split; [done|]. split; [|by trans s1]. apply list.Forall_cons. split; [|by apply (trueReport_same s s1); [apply H|..]].
  unfold trueReport. cbn [rr_group multicastCurrentStateRecord]. destruct (group_members s a g H Hg) as (_ & _ & <-). apply currentRecord_true.
Qed.

Lemma collectGeneral_true now v6 order s : multicastOk s -> latestMode s ->
  let '(batches, s') := collectGeneral now v6 order s in
  Forall (fun b => Forall (trueReport s) (rb_records b)) batches /\ samePending s s'.
Proof.
  intros H Hl. unfold collectGeneral. cbv zeta. destruct (_ || _); [done|]. pose proof (generalRecords_true v6 order s H Hl) as Hg.
  destruct (generalRecords v6 order s) as [[batches records] s1]. destruct Hg as (-> & Hr & Hp). split; [|done].
  destruct (_ && _); [|done]. by apply list.Forall_singleton.
Qed.

Lemma collectQuery_true now group s : multicastOk s -> latestMode s ->
  let '(batches, s') := collectQuery now group s in
  Forall (fun b => Forall (trueReport s) (rb_records b)) batches /\ samePending s s'.
Proof.
  intros H Hl. unfold collectQuery. destruct (groupAt s group) as [g|] eqn:Hg; [|done]. cbv zeta. destruct (_ || _); [done|].
  assert (latestMode (updateGroup group (fun g => g <| gs_query := noPendingQuery |>) s)) as Hl1 by (by apply (samePending_latest s); [apply samePending_update|]).
  rewrite (legacy_latest _ (is6 group) Hl1). cbn [Z.eqb negb]. split; [|apply samePending_update].
  destruct (_ || _); [|done]. apply list.Forall_singleton. cbn [rb_records]. apply list.Forall_singleton.
  unfold trueReport. cbn [rr_group multicastCurrentStateRecord]. destruct (group_members s group g H Hg) as (_ & _ & <-). apply currentRecord_true.
Qed.

Lemma collectQueries_true now order s : multicastOk s -> latestMode s ->
  let '(batches, s') := collectQueries now order s in
  Forall (fun b => Forall (trueReport s) (rb_records b)) batches /\ samePending s s'.
Proof.
  revert s. induction order as [|a rest IH]; intros s H Hl; [done|]. cbn [collectQueries].
  pose proof (collectQuery_true now a s H Hl) as H1. pose proof (collectQuery_same now a s) as Hsame.
  destruct (collectQuery now a s) as [first s1]. destruct H1 as [Hf Hp]. cbn [snd] in Hsame.
  pose proof (IH s1 (sameGroups_almost _ _ _ _ Hsame H) (samePending_latest _ _ Hp Hl)) as IH1.
  destruct (collectQueries now rest s1) as [others s2]. destruct IH1 as [Ho Hp2]. split; [|by trans s1].
  apply list.Forall_app. split; [done|]. eapply list.Forall_impl; [exact Ho|]. intros b. apply trueReport_same; [apply H|done].
Qed.

(** A part of the turn that reports true records. *)
Lemma part_informed s s' batches belief : multicastOk s -> sameGroups s s' ->
  Forall (fun b => Forall (trueReport s) (rb_records b)) batches /\ samePending s s' ->
  latestMode s -> informed s belief ->
  multicastOk s' /\ latestMode s' /\ informed s' (hearBatches belief batches).
Proof.
  intros H Hs [Hb Hp] Hl Hi. split; [by apply (sameGroups_almost _ _ s)|]. split; [by apply (samePending_latest s)|].
  apply (informed_carry s); [|apply Hp|by apply true_batches]. intros a. by apply sameGroups_members; [|apply H].
Qed.

Lemma turn_informed now retransmitted order s belief : multicastOk s -> latestMode s -> informed s belief ->
  let '(batches, _, s') := collectReports now retransmitted order s in
  informed s' (hearBatches belief batches) /\ latestMode s'.
Proof.
  intros H Hl Hi. unfold collectReports. rewrite (ao_open _ _ _ H). rewrite refresh_latest by done.
  pose proof (collectRetransmissions_informed now retransmitted s belief (ao_store _ _ _ H) Hl Hi) as H1.
  pose proof (collectRetransmissions_same now retransmitted s) as S1.
  destruct (collectRetransmissions now retransmitted s) as [b1 s1]. destruct H1 as [Hi1 Hl1]. cbn [snd] in S1.
  pose proof (sameGroups_almost _ _ _ _ S1 H) as Hok1.
  pose proof (collectGeneral_true now false order s1 Hok1 Hl1) as H2. pose proof (collectGeneral_same now false order s1) as S2.
  destruct (collectGeneral now false order s1) as [b2 s2]. destruct (part_informed s1 s2 b2 _ Hok1 S2 H2 Hl1 Hi1) as (Hok2 & Hl2 & Hi2).
  pose proof (collectGeneral_true now true order s2 Hok2 Hl2) as H3. pose proof (collectGeneral_same now true order s2) as S3.
  destruct (collectGeneral now true order s2) as [b3 s3]. destruct (part_informed s2 s3 b3 _ Hok2 S3 H3 Hl2 Hi2) as (Hok3 & Hl3 & Hi3).
  pose proof (collectQueries_true now order s3 Hok3 Hl3) as H4. pose proof (collectQueries_same now order s3) as S4.
  destruct (collectQueries now order s3) as [b4 s4]. destruct (part_informed s3 s4 b4 _ Hok3 S4 H4 Hl3 Hi3) as (Hok4 & Hl4 & Hi4).
  by rewrite !hear_app.
Qed.

(** ** Retransmissions end *)

Definition largest (counters : gmap Addr Z) : Z := map_fold (fun _ n m => Z.max n m) 0 counters.

Lemma largest_spec counters :
  0 <= largest counters /\ (forall x n, counters !! x = Some n -> n <= largest counters) /\
  (largest counters = 0 \/ exists x, counters !! x = Some (largest counters)).
Proof.
  unfold largest. apply (map_fold_weak_ind (fun m (counters : gmap Addr Z) => 0 <= m /\ (forall x n, counters !! x = Some n -> n <= m) /\ (m = 0 \/ exists x, counters !! x = Some m))).
  - split_and!; [done| |by left]. intros x n. by rewrite lookup_empty.
  - intros i n m r Hi (H1 & H2 & H3). split_and!; [lia| |].
    + intros x k Hk. apply lookup_insert_Some in Hk as [[<- <-]|[Hne Hk]]; [lia|]. specialize (H2 _ _ Hk). lia.
    + destruct (Z.max_spec n r) as [[Hlt ->]|[Hle ->]].
      * destruct H3 as [->|[x Hx]]; [by left|right]. exists x. rewrite lookup_insert_ne; [done|]. intros ->. congruence.
      * right. exists i. by rewrite lookup_insert_eq.
Qed.

Lemma largest_advance counters : largest (snd (advanceMulticastSourceCounters counters)) = Z.max (largest counters - 1) 0.
Proof.
  destruct (largest_spec counters) as (H1 & H2 & H3). set (rest := snd (advanceMulticastSourceCounters counters)).
  destruct (largest_spec rest) as (R1 & R2 & R3).
  assert (forall x n, rest !! x = Some n <-> counters !! x = Some (n + 1) /\ 1 <= n) as Hrest.
  { intros x n. unfold rest. cbn. rewrite lookup_omap. destruct (counters !! x) as [m|]; cbn; [|naive_solver].
    destruct (Z.leb_spec m 1); split; intros H'; simplify_eq/=.
    - destruct H' as [[= ?] ?]. lia.
    - split; [f_equal|]; lia.
    - destruct H' as [[= ?] ?]. f_equal. lia. }
  clearbody rest. destruct (Z.le_gt_cases (largest counters) 1) as [Hle|Hgt].
  - destruct R3 as [->|[x Hx]]; [lia|]. apply Hrest in Hx as [Hx ?]. specialize (H2 _ _ Hx). lia.
  - destruct H3 as [?|[x Hx]]; [lia|]. assert (rest !! x = Some (largest counters - 1)) as Hr.
    { apply Hrest. rewrite Hx. split; [f_equal|]; lia. }
    specialize (R2 _ _ Hr). destruct R3 as [?|[y Hy]]; [lia|]. apply Hrest in Hy as [Hy ?]. specialize (H2 _ _ Hy). lia.
Qed.

(** Reports a pending retransmission still sends. *)
Definition remainingReports (p : multicastRetransmission) : Z :=
  rt_modeRemaining p + Z.max (largest (rt_allow p)) (largest (rt_block p)).

Lemma counted_largest counters : (forall x n, counters !! x = Some n -> 1 <= n) -> counted counters = true -> 1 <= largest counters.
Proof.
  unfold counted. rewrite negb_true_iff, bool_decide_eq_false. intros Hn Hne. destruct (map_choose _ Hne) as (x & n & Hx).
  pose proof (proj1 (proj2 (largest_spec counters)) x n Hx). specialize (Hn x n Hx). lia.
Qed.

Lemma uncounted_largest counters : counted counters = false -> largest counters = 0.
Proof. intros ->%counted_false. reflexivity. Qed.

Lemma advance_remaining filter p : pendingOk filter p ->
  let '(_, advanced, remains) := advanceRetransmissionLocked p in
  if (remains : bool) then 1 <= remainingReports advanced /\ remainingReports advanced = remainingReports p - 1
  else remainingReports p <= 1.
Proof.
  intros [_ Hm Hc _ _]. unfold advanceRetransmissionLocked, remainingReports.
  assert (forall x n, rt_allow p !! x = Some n -> 1 <= n) as Ha by eauto.
  assert (forall x n, rt_block p !! x = Some n -> 1 <= n) as Hb by eauto.
  destruct (Z.eqb_spec (rt_modeRemaining p) 0) as [E|E]; cbn [negb].
  - pose proof (largest_advance (rt_allow p)) as La. pose proof (largest_advance (rt_block p)) as Lb.
    pose proof (fun x n => counter_counts (rt_allow p) x n (Ha x)) as Ca. pose proof (fun x n => counter_counts (rt_block p) x n (Hb x)) as Cb.
    destruct (advanceMulticastSourceCounters (rt_allow p)) as [allowed allow], (advanceMulticastSourceCounters (rt_block p)) as [blocked block].
    cbn [fst snd] in *. cbn. rewrite E. destruct (counted allow || counted block) eqn:Hr.
    + rewrite La, Lb. apply orb_true_iff in Hr as [Hr|Hr].
      * pose proof (counted_largest allow Ca Hr). lia.
      * pose proof (counted_largest block Cb Hr). lia.
    + apply orb_false_iff in Hr as [H1 H2]. rewrite (uncounted_largest _ H1) in La. rewrite (uncounted_largest _ H2) in Lb. lia.
  - cbn. pose proof (proj1 (largest_spec (rt_allow p))). pose proof (proj1 (largest_spec (rt_block p))).
    destruct (_ || counted (rt_block p)) eqn:Hr.
    + rewrite !orb_true_iff, negb_true_iff, Z.eqb_neq in Hr.
      destruct Hr as [[Hr|Hr]|Hr]; [lia| |]; apply counted_largest in Hr; try done; lia.
    + rewrite !orb_false_iff, negb_false_iff, Z.eqb_eq in Hr. destruct Hr as [[Hr H1] H2].
      rewrite (uncounted_largest _ H1), (uncounted_largest _ H2). lia.
Qed.

(** A turn counts a group's due report down by one and schedules the next
    within the unsolicited report interval, or drops the retransmission with its
    last report. *)
Definition countedDown (now : Z) (p : multicastRetransmission) (p' : option multicastRetransmission) : Prop :=
  match p' with
  | None => remainingReports p <= 1
  | Some p' => 1 <= remainingReports p' /\ remainingReports p' = remainingReports p - 1 /\ now < rt_due p' <= now + second
  end.

Lemma splitMix_delay maximum s : 0 < maximum -> 0 < fst (randomDelayLocked maximum s) <= maximum.
Proof.
  intros H. unfold randomDelayLocked. destruct (Z.leb_spec maximum 0); [lia|]. cbn [fst].
  pose proof (Z.mod_pos_bound (splitMix (u64 (ms_random s + 11400714819323198485))) maximum H). unfold nanosecond. lia.
Qed.

Lemma collectRetransmission_counts now group s belief p : latestMode s -> informed s belief -> multicastGroupNeedsReport group = true ->
  ms_retransmissions s !! group = Some p -> rt_due p <= now ->
  countedDown now p (ms_retransmissions (snd (collectRetransmission now group s)) !! group).
Proof.
  intros Hl Hi Hn Hp Hdue. unfold collectRetransmission. rewrite Hp. destruct (Z.ltb_spec now (rt_due p)); [lia|].
  specialize (Hi group Hn). rewrite Hp in Hi. destruct Hi as [Hok _]. pose proof (advance_remaining _ p Hok) as Hr.
  destruct (advanceRetransmissionLocked p) as [[records advanced] remains]. cbv zeta.
  rewrite (legacy_latest s (is6 group) Hl). cbn [Z.eqb negb andb orb]. destruct remains.
  - pose proof (splitMix_delay multicastUnsolicitedReportInterval s ltac:(done)) as Hd.
    pose proof (randomDelay_pending multicastUnsolicitedReportInterval s) as [_ Hq].
    destruct (randomDelayLocked multicastUnsolicitedReportInterval s) as [delay s2]. cbn in *. rewrite lookup_insert_eq. cbn.
    destruct Hr as [H1 H2]. change (remainingReports (advanced <| rt_due := now + delay |>)) with (remainingReports advanced).
    unfold multicastUnsolicitedReportInterval in Hd. split_and!; [exact H1|exact H2|lia..].
  - cbn. by rewrite lookup_delete_eq.
Qed.

Lemma collectRetransmission_other now group s a : a <> group ->
  ms_retransmissions (snd (collectRetransmission now group s)) !! a = ms_retransmissions s !! a.
Proof.
  intros Hne. unfold collectRetransmission. destruct (ms_retransmissions s !! group) as [p|]; [|done]. destruct (now <? rt_due p); [done|].
  destruct (advanceRetransmissionLocked p) as [[records advanced] remains]. cbv zeta.
  match goal with |- context [if ?b then updateGroup group ?f s else s] =>
    assert (samePending s (if b then updateGroup group f s else s)) as [_ H1] by (destruct b; [apply samePending_update|done]);
    set (s1 := if b then updateGroup group f s else s) in * end. clearbody s1. rewrite <- H1.
  destruct (if _ && _ then false else remains).
  - match goal with |- context [randomDelayLocked ?m s1] => pose proof (randomDelay_pending m s1) as [_ Hr]; destruct (randomDelayLocked m s1) as [delay s2] end.
    cbn in *. by rewrite lookup_insert_ne, Hr.
  - cbn. by rewrite lookup_delete_ne.
Qed.

Lemma collectRetransmissions_gone now group order s : group ∉ order ->
  ms_retransmissions (snd (collectRetransmissions now order s)) !! group = ms_retransmissions s !! group.
Proof.
  revert s. induction order as [|a rest IH]; intros s Hn; [done|]. rewrite elem_of_cons in Hn. cbn [collectRetransmissions].
  pose proof (collectRetransmission_other now a s group ltac:(tauto)) as H1. destruct (collectRetransmission now a s) as [b s1].
  pose proof (IH s1 ltac:(tauto)) as H2. destruct (collectRetransmissions now rest s1) as [b' s2]. cbn [snd] in *. congruence.
Qed.

Lemma collectRetransmissions_counts now group order s belief p : NoDup order -> group ∈ order ->
  storeOk s -> latestMode s -> informed s belief -> multicastGroupNeedsReport group = true ->
  ms_retransmissions s !! group = Some p -> rt_due p <= now ->
  countedDown now p (ms_retransmissions (snd (collectRetransmissions now order s)) !! group).
Proof.
  revert s belief. induction order as [|a rest IH]; intros s belief Hnd Hin Hs Hl Hi Hn Hp Hdue; [by apply not_elem_of_nil in Hin|].
  apply list.NoDup_cons in Hnd as [Ha Hnd]. cbn [collectRetransmissions].
  pose proof (collectRetransmission_informed now a s belief Hs Hl Hi) as H1. pose proof (collectRetransmission_same now a s) as Hsame.
  destruct (decide (group = a)) as [->|Hne].
  - pose proof (collectRetransmission_counts now a s belief p Hl Hi Hn Hp Hdue) as Hc.
    destruct (collectRetransmission now a s) as [b s1]. cbn [snd] in Hc, Hsame.
    pose proof (collectRetransmissions_gone now a rest s1 Ha) as H2.
    destruct (collectRetransmissions now rest s1) as [b' s2]. cbn [snd] in *. by rewrite H2.
  - pose proof (collectRetransmission_other now a s group Hne) as H2. destruct (collectRetransmission now a s) as [b s1]. cbn [snd] in H2, Hsame.
    destruct H1 as [Hi1 Hl1]. apply elem_of_cons in Hin as [|Hin]; [done|].
    pose proof (IH s1 (hearBatches belief b) Hnd Hin (sameGroups_store _ _ Hsame Hs) Hl1 Hi1 Hn ltac:(congruence) Hdue) as H3.
    by destruct (collectRetransmissions now rest s1) as [b' s2].
Qed.

(** ** What reaches the link

    The worker sends the records of a batch as [sendIGMPv3Records] and
    [sendMLDv2Records] pack them for the interface MTU: divided where they do not
    fit, and cut where they must not be divided. *)

Definition sentReports (mtu : Z) (batch : multicastReportBatch) : option (list (list multicastReportRecord)) :=
  if rb_v6 batch then packMulticastRecords (rb_records batch) (mtu - 48) 8 20 16
  else packMulticastRecords (rb_records batch) (mtu - 24) 8 8 4.

(** These are the reports whose bytes [sendReport] sends. *)
Lemma sent_payloads bigEndian mtu batch :
  (if rb_v6 batch then sendMLDv2Records mtu (rb_records batch) else sendIGMPv3Records bigEndian mtu (rb_records batch))
  = map (if rb_v6 batch then mldV2Payload else igmpV3Payload bigEndian) <$> sentReports mtu batch.
Proof. unfold sentReports, sendMLDv2Records, sendIGMPv3Records. by destruct (rb_v6 batch); destruct (packMulticastRecords _ _ _ _ _). Qed.

(** The records in the current-version reports of a batch. *)
Definition sentRecords (mtu : Z) (batch : multicastReportBatch) : list multicastReportRecord :=
  if negb (rb_legacy batch =? 0) then [] else concat (default [] (sentReports mtu batch)).

Definition hearSent (mtu : Z) (belief : routerBelief) (batches : list multicastReportBatch) : routerBelief :=
  fold_left hearRecord (concat (map (sentRecords mtu) batches)) belief.

(** Sources one record can hold. *)
Definition reportRoom (mtu : Z) (v6 : bool) : Z := if v6 then (mtu - 48 - 8 - 20) / 16 else (mtu - 24 - 8 - 8) / 4.

(** A record that packing divides without a change of meaning. *)
Definition divisible (record : multicastReportRecord) : Prop :=
  rr_type record = multicastRecordModeIsInclude \/ rr_type record = multicastRecordAllowNewSources \/
  rr_type record = multicastRecordBlockOldSources.

Definition batchFits (mtu : Z) (batch : multicastReportBatch) : Prop :=
  rb_legacy batch = 0 /\
  Forall (fun r => 1 <= reportRoom mtu (rb_v6 batch) /\ (zlen (rr_sources r) <= reportRoom mtu (rb_v6 batch) \/ divisible r)) (rb_records batch).

Definition sameBelief (b b' : routerBelief) : Prop := forall a, b a = b' a.

#[global] Instance sameBelief_equiv : Equivalence sameBelief.
Proof. split; [by intros b a|intros b b' H a; by rewrite H|intros b1 b2 b3 H H' a; by rewrite H, H']. Qed.

#[global] Instance hearRecord_proper : Proper (sameBelief ==> eq ==> sameBelief) hearRecord.
Proof. intros b b' H r _ <- a. unfold hearRecord. by rewrite !H. Qed.

#[global] Instance hearRecords_proper : Proper (eq ==> sameBelief ==> sameBelief) (fold_left hearRecord).
Proof.
  intros l _ <-. induction l as [|r l IH]; intros b b' H; [done|]. cbn. apply IH. by apply hearRecord_proper.
Qed.

Lemma informed_proper s b b' : sameBelief b b' -> informed s b -> informed s b'.
Proof. intros H Hi a Ha. rewrite <- H. by apply Hi. Qed.

(** Admitting or rejecting piecewise. *)
Lemma divided_record t group sources parts belief : divisible (mkRecord t group sources) ->
  Forall (fun part => rr_type part = t /\ rr_group part = group) parts -> concat (map rr_sources parts) = sources ->
  sameBelief (fold_left hearRecord parts belief) (hearRecord belief (mkRecord t group sources)).
Proof.
  unfold divisible. cbn. intros Hd. revert sources belief. induction parts as [|[t' g' l] parts IH]; intros sources belief Hp Hc a.
  - cbn in Hc. subst sources. unfold hearRecord, routerRecord. cbn. destruct (decide (a = group)) as [->|]; [|done].
    destruct Hd as [-> |[-> | ->] ]; cbn; unfold admitSources, rejectSources;
      destruct (belief group) as [[] x]; cbn; f_equal; set_solver.
  - apply list.Forall_cons in Hp as [[Ht Hg] Hp]. cbn in Ht, Hg. subst t' g'. cbn in Hc. subst sources. cbn [fold_left].
    rewrite (IH _ (hearRecord belief (mkRecord t group l)) ltac:(done) eq_refl a). unfold hearRecord. cbn [rr_group].
    destruct (decide (a = group)) as [->|]; [|done]. unfold routerRecord. cbn [rr_type rr_sources].
    rewrite list_to_set_app_L.
    destruct Hd as [-> |[-> | ->] ]; cbn; unfold admitSources, rejectSources;
      destruct (belief group) as [[] x]; cbn; f_equal; set_solver.
Qed.

Lemma carried_heard maximum reportHeader recordHeader addressSize record parts belief :
  1 <= roomForSources maximum reportHeader recordHeader addressSize ->
  zlen (rr_sources record) <= roomForSources maximum reportHeader recordHeader addressSize \/ divisible record ->
  carried maximum reportHeader recordHeader addressSize record parts ->
  sameBelief (fold_left hearRecord parts belief) (hearRecord belief record).
Proof.
  intros Hr Hf Hc. unfold carried in Hc. destruct (Z.leb_spec (zlen (rr_sources record)) (roomForSources maximum reportHeader recordHeader addressSize)).
  { by subst parts. }
  destruct Hf as [|Hd]; [lia|].
  assert (indivisible record = false) as Hi by (unfold indivisible; by destruct Hd as [-> |[-> | ->] ]).
  rewrite Hi in Hc. destruct (Z.eqb_spec (roomForSources maximum reportHeader recordHeader addressSize) 0); [lia|].
  destruct Hc as [Hp Hc], record as [t group sources]. apply divided_record; [done| |done].
  eapply list.Forall_impl; [exact Hp|]. naive_solver.
Qed.

Lemma carried_all maximum reportHeader recordHeader addressSize records parts belief :
  Forall (fun r => 1 <= roomForSources maximum reportHeader recordHeader addressSize /\
    (zlen (rr_sources r) <= roomForSources maximum reportHeader recordHeader addressSize \/ divisible r)) records ->
  Forall2 (carried maximum reportHeader recordHeader addressSize) records parts ->
  sameBelief (fold_left hearRecord (concat parts) belief) (fold_left hearRecord records belief).
Proof.
  intros Hf Hc. revert belief Hf. induction Hc as [|r p records parts Hc _ IH]; intros belief Hf; [done|].
  apply list.Forall_cons in Hf as [[H1 H2] Hf]. cbn [concat fold_left]. rewrite fold_left_app, IH by done.
  apply hearRecords_proper; [done|]. by apply (carried_heard maximum reportHeader recordHeader addressSize).
Qed.

(** A batch that fits is heard as it was collected. *)
Lemma sent_heard mtu batch belief : batchFits mtu batch ->
  sameBelief (fold_left hearRecord (sentRecords mtu batch) belief) (hearBatch belief batch).
Proof.
  intros [Hl Hf]. unfold sentRecords, sentReports, hearBatch. rewrite Hl. cbn [Z.eqb negb].
  destruct (rb_records batch) as [|r records] eqn:Er.
  { destruct (rb_v6 batch); unfold packMulticastRecords; by destruct (_ <? _). }
  rewrite <- Er in Hf |- *. assert (1 <= reportRoom mtu (rb_v6 batch)) as Hr by (rewrite Er in Hf; apply list.Forall_cons in Hf; apply Hf).
  unfold reportRoom in Hr. destruct (rb_v6 batch).
  - destruct (pack_carried (rb_records batch) (mtu - 48) 8 20 16) as (reports & parts & -> & _ & He & Hc); [lia|lia|zlia|].
    cbn [default from_option id]. rewrite He. by apply (carried_all (mtu - 48) 8 20 16).
  - destruct (pack_carried (rb_records batch) (mtu - 24) 8 8 4) as (reports & parts & -> & _ & He & Hc); [lia|lia|zlia|].
    cbn [default from_option id]. rewrite He. by apply (carried_all (mtu - 24) 8 8 4).
Qed.

Lemma hearSent_plain mtu batches belief : Forall (batchFits mtu) batches ->
  sameBelief (hearSent mtu belief batches) (hearBatches belief batches).
Proof.
  revert belief. induction batches as [|b batches IH]; intros belief Hf; [done|]. apply list.Forall_cons in Hf as [Hb Hf].
  unfold hearSent. cbn [map concat]. rewrite fold_left_app. change (hearBatches belief (b :: batches)) with (hearBatches (hearBatch belief b) batches).
  rewrite <- (IH _ Hf). apply hearRecords_proper; [done|]. by apply sent_heard.
Qed.

(** The merged source list of every group with members or a pending report fits
    one record. *)
Definition fitsLink (mtu : Z) (s : multicastState) : Prop :=
  forall group, is_Some (groupAt s group) \/ is_Some (ms_retransmissions s !! group) ->
    Z.max 1 (Z.of_nat (size (mf_sources (aggregateMulticastFilter (membersAt s group))))) <= reportRoom mtu (is6 group).

Lemma fits_carry mtu s s' : storeOk s -> sameGroups s s' ->
  (forall a, is_Some (ms_retransmissions s' !! a) -> is_Some (ms_retransmissions s !! a)) -> fitsLink mtu s -> fitsLink mtu s'.
Proof.
  intros Hs H Hr Hf a Ha. rewrite (sameGroups_members s s') by done. apply Hf. destruct Ha as [Ha|Ha]; [left|right; auto].
  pose proof (sameGroups_at s s' a H Hs) as Hat. destruct (groupAt s a); [by eexists|]. rewrite Hat in Ha. by destruct Ha.
Qed.

Lemma sorted_size sources : zlen (sortedMulticastSources sources) = Z.of_nat (size sources).
Proof. unfold zlen, sortedMulticastSources, size, set_size. cbn. by rewrite sortBy_perm. Qed.

Lemma collectRetransmission_subset now group s a :
  is_Some (ms_retransmissions (snd (collectRetransmission now group s)) !! a) -> is_Some (ms_retransmissions s !! a).
Proof.
  destruct (decide (a = group)) as [->|Hne]; [|by rewrite collectRetransmission_other].
  unfold collectRetransmission. destruct (ms_retransmissions s !! group) eqn:E; [by eexists|]. cbn. by rewrite E.
Qed.

Lemma collectRetransmission_fits mtu now group s belief : latestMode s -> informed s belief -> fitsLink mtu s ->
  Forall (batchFits mtu) (fst (collectRetransmission now group s)).
Proof.
  intros Hl Hi Hf. unfold collectRetransmission. destruct (ms_retransmissions s !! group) as [p|] eqn:Hp; [|done].
  destruct (now <? rt_due p); [done|].
  assert (multicastGroupNeedsReport group = true) as Hn by (apply Hl; by eexists).
  specialize (Hi group Hn). rewrite Hp in Hi. destruct Hi as [[Hfilter _ _ _ _] _].
  pose proof (Hf group ltac:(right; by eexists)) as Hfit. rewrite <- Hfilter in Hfit.
  assert (forall batch, In batch (if negb (zlen (map (fun r => mkRecord (rr_type r) group (rr_sources r)) (fst (fst (advanceRetransmissionLocked p)))) =? 0)
            then [mkBatch (is6 group) 0 group (rt_exists p) (rt_lastReporter p)
                    (map (fun r => mkRecord (rr_type r) group (rr_sources r)) (fst (fst (advanceRetransmissionLocked p)))) (atFamily (is6 group) (ms_reportCancel s))]
            else []) -> batchFits mtu batch) as Hb.
  { intros batch Hin. destruct (negb _); [|done]. destruct Hin as [<-|[]]. split; [done|]. cbn [rb_v6 rb_records].
    unfold advanceRetransmissionLocked. destruct (negb (rt_modeRemaining p =? 0)); cbn [fst map].
    - apply list.Forall_singleton. cbn [rr_sources]. split; [lia|left]. rewrite sorted_size. cbn. lia.
    - destruct (advanceMulticastSourceCounters (rt_allow p)) as [allowed allow], (advanceMulticastSourceCounters (rt_block p)) as [blocked block].
      cbn [fst]. rewrite map_app. apply list.Forall_app. unfold divisible.
      split; destruct (counted _); try done; apply list.Forall_singleton; cbn; (split; [lia|right; tauto]). }
  destruct (advanceRetransmissionLocked p) as [[records advanced] remains]. cbv zeta. cbn [fst] in Hb.
  rewrite (legacy_latest s (is6 group) Hl). cbn [Z.eqb negb andb orb].
  destruct remains; [destruct (randomDelayLocked _ _)|]; cbn [fst]; by apply Forall_forall.
Qed.

Lemma collectRetransmissions_fits mtu now order s belief : storeOk s -> latestMode s -> informed s belief -> fitsLink mtu s ->
  Forall (batchFits mtu) (fst (collectRetransmissions now order s)) /\ fitsLink mtu (snd (collectRetransmissions now order s)).
Proof.
  revert s belief. induction order as [|a rest IH]; intros s belief Hs Hl Hi Hf; [done|]. cbn [collectRetransmissions].
  pose proof (collectRetransmission_fits mtu now a s belief Hl Hi Hf) as Hb. pose proof (collectRetransmission_subset now a s) as Hsub.
  pose proof (collectRetransmission_informed now a s belief Hs Hl Hi) as H1. pose proof (collectRetransmission_same now a s) as Hsame.
  destruct (collectRetransmission now a s) as [b s1]. destruct H1 as [Hi1 Hl1]. cbn [fst snd] in Hb, Hsub, Hsame.
  destruct (IH s1 _ (sameGroups_store _ _ Hsame Hs) Hl1 Hi1 (fits_carry mtu s s1 Hs Hsame Hsub Hf)) as [H2 H3].
  destruct (collectRetransmissions now rest s1) as [b' s2]. cbn [fst snd] in *. split; [|done]. by apply list.Forall_app.
Qed.

Lemma current_fits mtu s a g sourceQuery queried : multicastOk s -> groupAt s a = Some g -> fitsLink mtu s ->
  let record := multicastCurrentStateRecord a (gs_aggregate g) sourceQuery queried in
  1 <= reportRoom mtu (is6 a) /\ (zlen (rr_sources record) <= reportRoom mtu (is6 a) \/ divisible record).
Proof.
  intros H Hg Hf. cbv zeta. destruct (group_members s a g H Hg) as (_ & _ & ->).
  specialize (Hf a ltac:(left; by eexists)). split; [lia|]. unfold multicastCurrentStateRecord, divisible. cbv zeta. cbn [rr_sources rr_type].
  destruct sourceQuery; cbn [negb andb]; [right; tauto|left]. rewrite sorted_size. lia.
Qed.

Lemma generalRecords_fits mtu v6 order s : multicastOk s -> latestMode s -> fitsLink mtu s ->
  Forall (fun r => 1 <= reportRoom mtu v6 /\ (zlen (rr_sources r) <= reportRoom mtu v6 \/ divisible r))
    (snd (fst (generalRecords v6 order s))).
Proof.
  revert s. induction order as [|a rest IH]; intros s H Hl Hf; [done|]. cbn [generalRecords].
  destruct (groupAt s a) as [g|] eqn:Hg; [|by apply IH]. destruct (_ || _) eqn:E; [by apply IH|].
  apply orb_false_iff in E as [E _]. apply negb_false_iff, eqb_prop in E.
  rewrite (legacy_latest s v6 Hl). cbn [Z.eqb negb]. set (s1 := updateGroup a _ s).
  assert (sameGroups s s1) as Hsame by (apply sameGroups_update; intros g'; by destruct (negb _)).
  assert (samePending s s1) as Hp by apply samePending_update. clearbody s1.
  pose proof (IH s1 (sameGroups_almost _ _ _ _ Hsame H) (samePending_latest _ _ Hp Hl)
    (fits_carry mtu s s1 (ao_store _ _ _ H) Hsame ltac:(destruct Hp as [_ ->]; done) Hf)) as IH1.
  destruct (generalRecords v6 rest s1) as [[batches records] s2]. cbn [fst snd app] in *.
  apply list.Forall_cons. split; [|done]. rewrite <- E. by apply (current_fits mtu s).
Qed.

Lemma collectGeneral_fits mtu now v6 order s : multicastOk s -> latestMode s -> fitsLink mtu s ->
  Forall (batchFits mtu) (fst (collectGeneral now v6 order s)).
Proof.
  intros H Hl Hf. unfold collectGeneral. cbv zeta. destruct (_ || _); [done|]. pose proof (generalRecords_true v6 order s H Hl) as Hg.
  pose proof (generalRecords_fits mtu v6 order s H Hl Hf) as Hr.
  destruct (generalRecords v6 order s) as [[batches records] s1]. destruct Hg as (-> & _). cbn [fst snd] in *.
  destruct (_ && _); [|done]. cbn [app]. by apply list.Forall_singleton.
Qed.

Lemma collectQuery_fits mtu now a s : multicastOk s -> latestMode s -> fitsLink mtu s ->
  Forall (batchFits mtu) (fst (collectQuery now a s)).
Proof.
  intros H Hl Hf. unfold collectQuery. destruct (groupAt s a) as [g|] eqn:Hg; [|done]. cbv zeta. destruct (_ || _); [done|].
  assert (latestMode (updateGroup a (fun g => g <| gs_query := noPendingQuery |>) s)) as Hl1 by (by apply (samePending_latest s); [apply samePending_update|]).
  rewrite (legacy_latest _ (is6 a) Hl1). cbn [Z.eqb negb fst].
  pose proof (current_fits mtu s a g (pq_sourceQuery (gs_query g)) (pq_sources (gs_query g)) H Hg Hf) as Hc. cbv zeta in Hc.
  destruct (_ || _); [|done]. apply list.Forall_singleton. split; [done|]. cbn [rb_records rb_v6]. by apply list.Forall_singleton.
Qed.

Lemma collectQueries_fits mtu now order s : multicastOk s -> latestMode s -> fitsLink mtu s ->
  Forall (batchFits mtu) (fst (collectQueries now order s)).
Proof.
  revert s. induction order as [|a rest IH]; intros s H Hl Hf; [done|]. cbn [collectQueries].
  pose proof (collectQuery_fits mtu now a s H Hl Hf) as H1. pose proof (collectQuery_true now a s H Hl) as Ht.
  pose proof (collectQuery_same now a s) as Hsame.
  destruct (collectQuery now a s) as [first s1]. destruct Ht as [_ Hp]. cbn [fst snd] in *.
  pose proof (IH s1 (sameGroups_almost _ _ _ _ Hsame H) (samePending_latest _ _ Hp Hl)
    (fits_carry mtu s s1 (ao_store _ _ _ H) Hsame ltac:(destruct Hp as [_ ->]; done) Hf)) as IH1.
  destruct (collectQueries now rest s1) as [others s2]. cbn [fst] in *. by apply list.Forall_app.
Qed.

(** Every batch of a turn fits, so the querier hears what was collected, and
    what follows fits too. *)
Lemma turn_fits mtu now retransmitted order s belief : multicastOk s -> latestMode s -> informed s belief -> fitsLink mtu s ->
  Forall (batchFits mtu) (fst (fst (collectReports now retransmitted order s))) /\
  fitsLink mtu (snd (collectReports now retransmitted order s)).
Proof.
  intros H Hl Hi Hf. unfold collectReports. rewrite (ao_open _ _ _ H). rewrite refresh_latest by done.
  pose proof (collectRetransmissions_informed now retransmitted s belief (ao_store _ _ _ H) Hl Hi) as H1.
  pose proof (collectRetransmissions_same now retransmitted s) as S1.
  destruct (collectRetransmissions_fits mtu now retransmitted s belief (ao_store _ _ _ H) Hl Hi Hf) as [F1 Hf1].
  destruct (collectRetransmissions now retransmitted s) as [b1 s1]. destruct H1 as [Hi1 Hl1]. cbn [fst snd] in S1, F1, Hf1.
  pose proof (sameGroups_almost _ _ _ _ S1 H) as Hok1.
  pose proof (collectGeneral_true now false order s1 Hok1 Hl1) as H2. pose proof (collectGeneral_same now false order s1) as S2.
  pose proof (collectGeneral_fits mtu now false order s1 Hok1 Hl1 Hf1) as F2.
  destruct (collectGeneral now false order s1) as [b2 s2]. destruct (part_informed s1 s2 b2 _ Hok1 S2 H2 Hl1 Hi1) as (Hok2 & Hl2 & Hi2).
  assert (fitsLink mtu s2) as Hf2 by (apply (fits_carry mtu s1); [apply Hok1|done|destruct H2 as (_ & _ & ->); done|done]).
  pose proof (collectGeneral_true now true order s2 Hok2 Hl2) as H3. pose proof (collectGeneral_same now true order s2) as S3.
  pose proof (collectGeneral_fits mtu now true order s2 Hok2 Hl2 Hf2) as F3.
  destruct (collectGeneral now true order s2) as [b3 s3]. destruct (part_informed s2 s3 b3 _ Hok2 S3 H3 Hl2 Hi2) as (Hok3 & Hl3 & Hi3).
  assert (fitsLink mtu s3) as Hf3 by (apply (fits_carry mtu s2); [apply Hok2|done|destruct H3 as (_ & _ & ->); done|done]).
  pose proof (collectQueries_fits mtu now order s3 Hok3 Hl3 Hf3) as F4. pose proof (collectQueries_true now order s3 Hok3 Hl3) as H4.
  pose proof (collectQueries_same now order s3) as S4.
  destruct (collectQueries now order s3) as [b4 s4]. cbn [fst snd] in *. split; [repeat (apply list.Forall_app; split; [done|]); done|].
  apply (fits_carry mtu s3); [apply Hok3|done|destruct H4 as (_ & _ & ->); done|done].
Qed.

(** ** Histories *)

(** Every query is of the current version. *)
Definition currentOnly {A} (e : event A) : Prop :=
  match e with
  | HearQuery query _ _ => q_version query = latestVersion (q_v6 query) /\ 0 <= q_robustness query
  | _ => True
  end.

(** The lists a turn has to send fit the link. *)
Definition audible {A} (mtu : Z) (e : event A) (s : multicastState) : Prop :=
  match e with
  | Turn _ _ _ => fitsLink mtu s
  | _ => True
  end.

(** The querier hears the records of each turn as they are packed and sent. *)
Definition listen {A} (mtu : Z) (e : event A) (s : multicastState) (belief : routerBelief) : routerBelief :=
  match e with
  | Turn now retransmitted order => hearSent mtu belief (fst (fst (collectReports now retransmitted order s)))
  | _ => belief
  end.

(** Histories in which no older-version query was heard, the time before the
    first membership included, and the merged source lists fit the link's MTU
    whenever the worker runs. *)
Inductive hears {A} : multicastState -> membershipTable -> routerBelief -> Prop :=
| hears_new now seed random : latestMode (newMulticastState now seed random) ->
    hears (newMulticastState now seed random) (fun _ => ∅) (fun _ => mkFilter multicastFilterInclude ∅)
| hears_step (e : event A) (mtu : Z) s table belief : hears s table belief -> possible e s -> currentOnly e -> audible mtu e s ->
    hears (step e s) (tableStep e table) (listen mtu e s belief).

Lemma new_informed now seed random : informed (newMulticastState now seed random) (fun _ => mkFilter multicastFilterInclude ∅).
Proof. intros a _. reflexivity. Qed.

Lemma new_latest now random : latestMode (newMulticastState now None random).
Proof. unfold latestMode. cbn. split_and!; try done; [by intros []|]. intros a. rewrite lookup_empty. by intros []. Qed.

Lemma announce_pending {A} now (network : networkState A) v6 s : samePending s (announceFamily now network v6 s).
Proof. unfold announceFamily. by destruct (_ && _). Qed.

Lemma heardLegacy_latest group now s : latestMode s -> heardLegacyReport group now s = s.
Proof.
  intros Hl. unfold heardLegacyReport. destruct (isSourceSpecificMulticast group); [done|]. destruct (ms_closed s); [done|].
  rewrite refresh_latest by done. cbv zeta. destruct Hl as (-> & _). unfold multicastFamilyIndex, latestVersion. by destruct (is6 group).
Qed.

Lemma step_informed {A} (e : event A) mtu s belief : multicastOk s -> possible e s -> currentOnly e -> audible mtu e s ->
  latestMode s -> informed s belief -> informed (step e s) (listen mtu e s belief) /\ latestMode (step e s).
Proof.
  intros H Hp Hc Ha Hl Hi. destruct e; cbn [step listen possible currentOnly audible] in *.
  - by apply change_informed.
  - by apply set_informed.
  - by apply editGroups_informed.
  - unfold updateConfig. rewrite (ao_open _ _ _ H). cbv zeta.
    destruct (editGroups_informed (withoutInvalidSources network) (withoutInvalid_empty network) now order s false belief H Hl Hi) as [Hi1 Hl1].
    destruct (editGroups_ok (withoutInvalidSources network) (withoutInvalid_empty network) now order s false (proj1 Hp) H) as [H1 _].
    fold (removeInvalidSourcesLocked now network order s) in *. set (s1 := removeInvalidSourcesLocked _ _ _ s) in *. clearbody s1.
    assert (samePending s1 (wakeLocked (announceFamily now network true (announceFamily now network false s1)))) as Hpend.
    { trans (announceFamily now network false s1); [apply announce_pending|].
      trans (announceFamily now network true (announceFamily now network false s1)); [apply announce_pending|done]. }
    assert (sameGroups s1 (wakeLocked (announceFamily now network true (announceFamily now network false s1)))) as Hsame.
    { trans (announceFamily now network false s1); [apply announce_same|].
      trans (announceFamily now network true (announceFamily now network false s1)); [apply announce_same|apply wake_same]. }
    split; [|by apply (samePending_latest s1)]. apply (informed_carry s1); [|apply Hpend|done].
    intros a. by apply sameGroups_members; [|apply H1].
  - destruct Hc as [Hv Hr]. destruct (scheduleQuery_latest query now order s Hl Hv Hr) as [Hl1 Hr1]. split; [|done].
    apply (informed_carry s); [|done|done]. intros a. apply sameGroups_members; [apply scheduleQuery_same|apply H].
  - by rewrite heardLegacy_latest.
  - pose proof (turn_informed now retransmitted order s belief H Hl Hi) as Ht.
    pose proof (turn_fits mtu now retransmitted order s belief H Hl Hi Ha) as [Hf _].
    destruct (collectReports now retransmitted order s) as [[batches next] s']. destruct Ht as [Ht Hl']. split; [|done].
    apply (informed_proper _ (hearBatches belief batches)); [|done]. symmetry. by apply hearSent_plain.
Qed.

Lemma hears_ok {A} s table belief : @hears A s table belief ->
  multicastOk s /\ (forall a, membersAt s a = table a) /\ latestMode s /\ informed s belief.
Proof.
  induction 1 as [now seed random Hn|e mtu s table belief _ (H & Hm & Hl & Hi) Hp Hc Ha].
  - destruct (new_ok now seed random) as [H1 H2]. split_and!; [done|done|done|apply new_informed].
  - destruct (step_ok e s H Hp) as [H1 Hm1]. destruct (step_informed e mtu s belief H Hp Hc Ha Hl Hi) as [Hi1 Hl1]. split_and!; try done.
    intros b. rewrite Hm1. by apply tableStep_ext.
Qed.

Lemma merge_accepts members source :
  passes (aggregateMulticastFilter members) source = true <-> exists endpoint f, members !! endpoint = Some f /\ passes f source = true.
Proof.
  destruct (decide (members = ∅)) as [->|Hne]; [|by apply aggregate_passes].
  split; [|intros (e & f & Hf & _); by rewrite lookup_empty in Hf].
  change (passes (aggregateMulticastFilter ∅) source) with (bool_decide (source ∈ (∅ : gset Addr))).
  rewrite bool_decide_eq_true. set_solver.
Qed.

(** The querier's belief about a group without pending reports. *)
Lemma learned {A} s table belief group : @hears A s table belief -> multicastGroupNeedsReport group = true ->
  ms_retransmissions s !! group = None -> belief group = aggregateMulticastFilter (table group).
Proof.
  intros (H & Hm & Hl & Hi)%hears_ok Hn Hp. specialize (Hi group Hn). rewrite Hp, Hm in Hi. exact Hi.
Qed.

(** C16. A querier that receives the state-change reports and query responses of
    the host, packed and divided as they are sent, knows what the host wants.  In
    a history without older-version queriers, neither heard before the first
    membership nor since, where the merged source list of every group fits one
    record of the link (so that no EXCLUDE list is cut and no mode change
    divided) whenever the worker runs, and whatever joins, leaves, filter
    changes, closed sockets, configuration changes, current-version queries and
    turns came in it, however they interleave with retransmissions that were
    under way: when no report is pending for a group that is reported, the
    querier's filter for it is the merge of the sockets' filters, so it forwards
    a source exactly where some socket accepts it. *)
Theorem querier_learns_filters {A} (s : multicastState) (table : membershipTable) (belief : routerBelief) (group : Addr) :
  @hears A s table belief -> multicastGroupNeedsReport group = true -> ms_retransmissions s !! group = None ->
  belief group = aggregateMulticastFilter (table group) /\
  forall source, passes (belief group) source = true <->
    exists endpoint f, table group !! endpoint = Some f /\ passes f source = true.
Proof. intros H Hn Hp. rewrite (learned s table belief group H Hn Hp). split; [done|]. intros source. apply merge_accepts. Qed.

(** ** The turns a change needs *)

Lemma turn_counts now retransmitted order s belief group p : multicastOk s -> latestMode s -> informed s belief ->
  multicastGroupNeedsReport group = true -> NoDup retransmitted -> group ∈ retransmitted ->
  ms_retransmissions s !! group = Some p -> rt_due p <= now ->
  countedDown now p (ms_retransmissions (snd (collectReports now retransmitted order s)) !! group).
Proof.
  intros H Hl Hi Hn Hnd Hin Hp Hdue. unfold collectReports. rewrite (ao_open _ _ _ H). rewrite refresh_latest by done.
  pose proof (collectRetransmissions_counts now group retransmitted s belief p Hnd Hin (ao_store _ _ _ H) Hl Hi Hn Hp Hdue) as Hc.
  pose proof (collectRetransmissions_informed now retransmitted s belief (ao_store _ _ _ H) Hl Hi) as H1.
  pose proof (collectRetransmissions_same now retransmitted s) as S1.
  destruct (collectRetransmissions now retransmitted s) as [b1 s1]. destruct H1 as [Hi1 Hl1]. cbn [snd] in S1, Hc.
  pose proof (sameGroups_almost _ _ _ _ S1 H) as Hok1.
  pose proof (collectGeneral_true now false order s1 Hok1 Hl1) as H2. pose proof (collectGeneral_same now false order s1) as S2.
  destruct (collectGeneral now false order s1) as [b2 s2]. destruct (part_informed s1 s2 b2 _ Hok1 S2 H2 Hl1 Hi1) as (Hok2 & Hl2 & Hi2).
  pose proof (collectGeneral_true now true order s2 Hok2 Hl2) as H3. pose proof (collectGeneral_same now true order s2) as S3.
  destruct (collectGeneral now true order s2) as [b3 s3]. destruct (part_informed s2 s3 b3 _ Hok2 S3 H3 Hl2 Hi2) as (Hok3 & Hl3 & Hi3).
  pose proof (collectQueries_true now order s3 Hok3 Hl3) as H4.
  destruct (collectQueries now order s3) as [b4 s4]. cbn [snd].
  destruct H2 as [_ [_ H2]], H3 as [_ [_ H3]], H4 as [_ [_ H4]]. by rewrite H4, H3, H2.
Qed.

(** Turns at the times the group's report falls due; [visits] enumerates the
    pending groups of a state. *)
Fixpoint dueTurns {A} (visits : multicastState -> list Addr) (order : list Addr) (group : Addr) (n : nat) (s : multicastState) : list (event A) :=
  match n with
  | O => []
  | S n =>
      match ms_retransmissions s !! group with
      | None => []
      | Some p =>
          let e := Turn (rt_due p) (visits s) order in
          e :: dueTurns visits order group n (step (A := A) e s)
      end
  end.

Definition runEvents {A} (events : list (event A)) (s : multicastState) : multicastState := fold_left (fun s e => step e s) events s.

Lemma dueTurns_end {A} mtu visits order group n s table belief : @hears A s table belief -> multicastGroupNeedsReport group = true ->
  (forall s, NoDup (visits s) /\ forall a, is_Some (ms_retransmissions s !! a) -> a ∈ visits s) -> fitsLink mtu s ->
  (forall p, ms_retransmissions s !! group = Some p -> remainingReports p <= Z.of_nat n) ->
  (n <> 0%nat \/ ms_retransmissions s !! group = None) ->
  let final := runEvents (dueTurns (A := A) visits order group n s) s in
  (exists belief', @hears A final table belief') /\ ms_retransmissions final !! group = None.
Proof.
  intros H Hn Hv. revert s belief H. induction n as [|n IH]; intros s belief H Hfit Hle Hor; cbv zeta; cbn [dueTurns].
  - destruct Hor as [?|Hp]; [done|]. split; [by exists belief|done].
  - destruct (ms_retransmissions s !! group) as [p|] eqn:Hp; [|split; [by exists belief|done]].
    destruct (hears_ok s table belief H) as (Hok & _ & Hl & Hi). destruct (Hv s) as [Hnd Hin].
    pose proof (turn_counts (rt_due p) (visits s) order s belief group p Hok Hl Hi Hn Hnd (Hin group ltac:(by eexists)) Hp ltac:(lia)) as Hc.
    change (runEvents (?e :: ?l) s) with (runEvents l (step e s)).
    apply (IH _ _ (hears_step (Turn (rt_due p) (visits s) order) mtu s table belief H I I Hfit)); cbn [step].
    + apply (turn_fits mtu (rt_due p) (visits s) order s belief Hok Hl Hi Hfit).
    + intros p' Hp'. rewrite Hp' in Hc. cbn in Hc. specialize (Hle p eq_refl). lia.
    + destruct (ms_retransmissions (snd _) !! group) as [p'|] eqn:Hp'; [|by right]. cbn in Hc. specialize (Hle p eq_refl). left. lia.
Qed.

(** The number of turns is the number of reports, however many are allowed. *)
Lemma dueTurns_length {A} mtu visits order group n s table belief p : @hears A s table belief -> multicastGroupNeedsReport group = true ->
  (forall s, NoDup (visits s) /\ forall a, is_Some (ms_retransmissions s !! a) -> a ∈ visits s) -> fitsLink mtu s ->
  ms_retransmissions s !! group = Some p -> Z.max 1 (remainingReports p) <= Z.of_nat n ->
  zlen (dueTurns (A := A) visits order group n s) = Z.max 1 (remainingReports p).
Proof.
  intros H Hn Hv. revert s belief p H. induction n as [|n IH]; intros s belief p H Hfit Hp Hle; [lia|]. cbn [dueTurns]. rewrite Hp, zlen_cons.
  destruct (hears_ok s table belief H) as (Hok & _ & Hl & Hi). destruct (Hv s) as [Hnd Hin].
  pose proof (turn_counts (rt_due p) (visits s) order s belief group p Hok Hl Hi Hn Hnd (Hin group ltac:(by eexists)) Hp ltac:(lia)) as Hc.
  set (e := Turn (rt_due p) (visits s) order). change (snd (collectReports (rt_due p) (visits s) order s)) with (step (A := A) e s) in Hc.
  destruct (ms_retransmissions (step (A := A) e s) !! group) as [p'|] eqn:Hp'; cbn in Hc.
  - rewrite (IH (step (A := A) e s) _ p' (hears_step e mtu s table belief H I I Hfit)); [lia| |done|lia].
    apply (turn_fits mtu (rt_due p) (visits s) order s belief Hok Hl Hi Hfit).
  - destruct n; cbn [dueTurns]; [|rewrite Hp']; change (zlen []) with 0; lia.
Qed.

(** The report a due turn sends for a group. *)
Definition dueBatch (s : multicastState) (group : Addr) (p : multicastRetransmission) : multicastReportBatch :=
  mkBatch (is6 group) 0 group (rt_exists p) (rt_lastReporter p)
    (map (fun r => mkRecord (rr_type r) group (rr_sources r)) (fst (fst (advanceRetransmissionLocked p)))) (atFamily (is6 group) (ms_reportCancel s)).

Lemma advance_records p : 1 <= remainingReports p -> fst (fst (advanceRetransmissionLocked p)) <> [].
Proof.
  intros H. unfold advanceRetransmissionLocked, remainingReports in *. destruct (Z.eqb_spec (rt_modeRemaining p) 0) as [E|E]; cbn [negb]; [|done].
  assert (counted (rt_allow p) = true \/ counted (rt_block p) = true) as Hc.
  { destruct (counted (rt_allow p)) eqn:Ea; [by left|]. destruct (counted (rt_block p)) eqn:Eb; [by right|].
    rewrite (uncounted_largest _ Ea), (uncounted_largest _ Eb) in H. lia. }
  destruct (advanceMulticastSourceCounters (rt_allow p)) as [allowed allow], (advanceMulticastSourceCounters (rt_block p)) as [blocked block].
  cbn [fst]. destruct Hc as [-> | ->]; [done|]. by destruct (counted (rt_allow p)).
Qed.

Lemma collectRetransmission_sends now group s p : latestMode s -> ms_retransmissions s !! group = Some p -> rt_due p <= now ->
  1 <= remainingReports p -> fst (collectRetransmission now group s) = [dueBatch s group p].
Proof.
  intros Hl Hp Hdue Hr. unfold collectRetransmission. rewrite Hp. destruct (Z.ltb_spec now (rt_due p)); [lia|].
  pose proof (advance_records p Hr) as Hne. unfold dueBatch. destruct (advanceRetransmissionLocked p) as [[records advanced] remains]. cbn [fst] in Hne. cbv zeta.
  rewrite (legacy_latest s (is6 group) Hl). cbn [Z.eqb negb andb orb fst].
  replace (zlen (map _ records) =? 0) with false by (symmetry; apply Z.eqb_neq; intros E; apply zlen_zero in E; by destruct records). cbn [negb].
  by destruct remains; [destruct (randomDelayLocked _ _)|].
Qed.

Lemma collectRetransmission_cancel now group s : ms_reportCancel (snd (collectRetransmission now group s)) = ms_reportCancel s.
Proof.
  unfold collectRetransmission. destruct (ms_retransmissions s !! group) as [p|]; [|done]. destruct (now <? rt_due p); [done|].
  destruct (advanceRetransmissionLocked p) as [[records advanced] remains]. cbv zeta.
  match goal with |- context [if ?b then updateGroup group ?f s else s] =>
    assert (ms_reportCancel (if b then updateGroup group f s else s) = ms_reportCancel s) as Hc by (destruct b; [apply update_frame|done]);
    set (s1 := if b then updateGroup group f s else s) in * end. clearbody s1. rewrite <- Hc. clear Hc.
  destruct (if _ && _ then false else remains); [|done]. unfold randomDelayLocked. by destruct (_ <=? 0).
Qed.

Lemma collectRetransmissions_sends now group order s belief p : group ∈ order -> storeOk s -> latestMode s -> informed s belief ->
  ms_retransmissions s !! group = Some p -> rt_due p <= now -> 1 <= remainingReports p ->
  In (dueBatch s group p) (fst (collectRetransmissions now order s)).
Proof.
  revert s belief. induction order as [|a rest IH]; intros s belief Hin Hs Hl Hi Hp Hdue Hr; [by apply not_elem_of_nil in Hin|].
  cbn [collectRetransmissions]. destruct (decide (group = a)) as [->|Hne].
  - pose proof (collectRetransmission_sends now a s p Hl Hp Hdue Hr) as Hb. destruct (collectRetransmission now a s) as [b s1].
    destruct (collectRetransmissions now rest s1) as [b' s2]. cbn [fst] in *. subst b. by left.
  - pose proof (collectRetransmission_other now a s group Hne) as H2. pose proof (collectRetransmission_cancel now a s) as Hcan.
    pose proof (collectRetransmission_informed now a s belief Hs Hl Hi) as H1. pose proof (collectRetransmission_same now a s) as Hsame.
    destruct (collectRetransmission now a s) as [b s1]. cbn [snd] in H2, Hsame, Hcan. destruct H1 as [Hi1 Hl1].
    apply elem_of_cons in Hin as [|Hin]; [done|].
    pose proof (IH s1 (hearBatches belief b) Hin (sameGroups_store _ _ Hsame Hs) Hl1 Hi1 ltac:(congruence) Hdue Hr) as H3.
    unfold dueBatch in H3. rewrite Hcan in H3. destruct (collectRetransmissions now rest s1) as [b' s2]. cbn [fst] in *. apply in_or_app. by right.
Qed.

Lemma turn_sends now retransmitted order s belief group p : multicastOk s -> latestMode s -> informed s belief ->
  group ∈ retransmitted -> ms_retransmissions s !! group = Some p -> rt_due p <= now -> 1 <= remainingReports p ->
  In (dueBatch s group p) (fst (fst (collectReports now retransmitted order s))).
Proof.
  intros H Hl Hi Hin Hp Hdue Hr. unfold collectReports. rewrite (ao_open _ _ _ H). rewrite refresh_latest by done.
  pose proof (collectRetransmissions_sends now group retransmitted s belief p Hin (ao_store _ _ _ H) Hl Hi Hp Hdue Hr) as Hb.
  destruct (collectRetransmissions now retransmitted s) as [b1 s1]. destruct (collectGeneral now false order s1) as [b2 s2].
  destruct (collectGeneral now true order s2) as [b3 s3]. destruct (collectQueries now order s3) as [b4 s4]. cbn [fst] in *. apply in_or_app. by left.
Qed.

(** C21. No change waits forever for its reports, and none of its repetitions is
    skipped.  In a history as above, with the interface filter at rest, each due
    turn of the worker sends one report of the group while its pending
    retransmission counts any, counts it down by exactly one, schedules the next
    within the unsolicited report interval, and drops the retransmission only
    with its last report; so it takes exactly as many due turns as the
    retransmission counts (one if it counts none) to leave nothing pending, and
    the querier that received them then has the merge of the sockets' filters. *)
Theorem reports_complete {A} (mtu : Z) (s : multicastState) (table : membershipTable) (belief : routerBelief) (group : Addr)
    (visits : multicastState -> list Addr) (order : list Addr) (p : multicastRetransmission) (n : nat) :
  @hears A s table belief -> multicastGroupNeedsReport group = true ->
  (forall s, NoDup (visits s) /\ forall a, is_Some (ms_retransmissions s !! a) -> a ∈ visits s) -> fitsLink mtu s ->
  ms_retransmissions s !! group = Some p -> Z.max 1 (remainingReports p) <= Z.of_nat n ->
  (1 <= remainingReports p ->
     In (dueBatch s group p) (fst (fst (collectReports (rt_due p) (visits s) order s))) /\ rb_records (dueBatch s group p) <> []) /\
  countedDown (rt_due p) p (ms_retransmissions (snd (collectReports (rt_due p) (visits s) order s)) !! group) /\
  let turns := dueTurns (A := A) visits order group n s in
  zlen turns = Z.max 1 (remainingReports p) /\ ms_retransmissions (runEvents turns s) !! group = None /\
  exists belief', @hears A (runEvents turns s) table belief' /\ belief' group = aggregateMulticastFilter (table group).
Proof.
  intros H Hn Hv Hfit Hp Hle. destruct (hears_ok s table belief H) as (Hok & _ & Hl & Hi). destruct (Hv s) as [Hnd Hin].
  assert (group ∈ visits s) as Hvis by (apply Hin; by eexists).
  split; [|split; [by apply (turn_counts _ _ _ _ belief)|cbv zeta; split]].
  - intros Hr. split; [by apply (turn_sends _ _ _ _ belief)|]. cbn. pose proof (advance_records p Hr). by destruct (fst (fst _)).
  - by apply (dueTurns_length mtu visits order group n s table belief p).
  - destruct (dueTurns_end (A := A) mtu visits order group n s table belief H Hn Hv Hfit) as [[belief' Hb] Hnone].
    + intros p' Hp'. rewrite Hp in Hp'. injection Hp' as <-. lia.
    + left. lia.
    + split; [done|]. exists belief'. split; [done|]. by apply (learned _ _ _ _ Hb).
Qed.

(** A group joined, narrowed and widened while its first report was being
    repeated. *)
Definition pendingGroups (s : multicastState) : list Addr := (map_to_list (ms_retransmissions s)).*1.

Lemma pendingGroups_all s : NoDup (pendingGroups s) /\ forall a, is_Some (ms_retransmissions s !! a) -> a ∈ pendingGroups s.
Proof.
  split; [apply NoDup_fst_map_to_list|]. intros a [p Hp]. apply list_elem_of_fmap. exists (a, p). split; [done|]. by apply elem_of_map_to_list.
Qed.

(** The groups to look at for [fitsLink]. *)
Definition linkFits (mtu : Z) (s : multicastState) : bool :=
  forallb (fun group => Z.max 1 (Z.of_nat (size (mf_sources (aggregateMulticastFilter (membersAt s group))))) <=? reportRoom mtu (is6 group))
    ((map_to_list (ms_groups s)).*1 ++ (map_to_list (ms_retransmissions s)).*1).

Lemma linkFits_ok mtu s : linkFits mtu s = true -> fitsLink mtu s.
Proof.
  unfold linkFits. rewrite forallb_forall. intros H group Hg. apply Z.leb_le, H, in_or_app.
  destruct Hg as [Hg|Hg]; [left|right]; apply list_elem_of_In, list_elem_of_fmap.
  - unfold groupAt in Hg. destruct (ms_groups s !! group) as [id|] eqn:E; [|by destruct Hg]. exists (group, id). split; [done|]. by apply elem_of_map_to_list.
  - destruct Hg as [p Hp]. exists (group, p). split; [done|]. by apply elem_of_map_to_list.
Qed.

Definition reportedEvents : list (event unit) :=
  [Change 1 (UDPEndpoint 1) multicastJoinSource exampleGroup exampleQuiet;
   Turn 2 [exampleGroup] [exampleGroup];
   Change 3 (IPEndpoint 2) multicastJoinAnySource exampleGroup AddrInvalid;
   Change 4 (IPEndpoint 2) multicastExcludeSource exampleGroup exampleNoisy].

Definition reportedState : multicastState := runEvents reportedEvents (newMulticastState 0 None 7).

Definition reportedTable : membershipTable := fold_left (fun table e => tableStep e table) reportedEvents (fun _ => ∅).

Lemma reported_hears : exists belief, @hears unit reportedState reportedTable belief.
Proof.
  eexists. unfold reportedState, reportedTable, runEvents, reportedEvents. cbn [fold_left].
  do 2 (apply (hears_step _ 1500); [|exact I|exact I|exact I]).
  apply (hears_step _ 1500); [|exact I|exact I|apply linkFits_ok; vm_compute; reflexivity].
  apply (hears_step _ 1500); [|exact I|exact I|exact I]. apply hears_new, new_latest.
Qed.

Definition pendingCount (s : multicastState) (group : Addr) : option Z := remainingReports <$> ms_retransmissions s !! group.

Lemma reports_complete_witness :
  exists p, ms_retransmissions reportedState !! exampleGroup = Some p /\ remainingReports p = 4 /\
  zlen (dueTurns (A := unit) pendingGroups [] exampleGroup 4 reportedState) = 4 /\
  exists belief, @hears unit (runEvents (dueTurns (A := unit) pendingGroups [] exampleGroup 4 reportedState) reportedState) reportedTable belief /\
    belief exampleGroup = mkFilter multicastFilterExclude {[exampleNoisy]}.
Proof.
  destruct reported_hears as [belief H].
  assert (pendingCount reportedState exampleGroup = Some 4) as Hc by (vm_compute; reflexivity). unfold pendingCount in Hc.
  assert (fitsLink 1500 reportedState) as Hfit by (apply linkFits_ok; vm_compute; reflexivity).
  destruct (ms_retransmissions reportedState !! exampleGroup) as [p|] eqn:Hp; [|discriminate].
  assert (remainingReports p = 4) as Hr by (cbn in Hc; congruence).
  exists p. split; [reflexivity|]. split; [exact Hr|].
  destruct (reports_complete 1500 reportedState reportedTable belief exampleGroup pendingGroups [] p 4 H eq_refl pendingGroups_all Hfit Hp ltac:(lia))
    as (_ & _ & Hlen & _ & belief' & Hb & He).
  split; [rewrite Hlen; lia|]. exists belief'. split; [exact Hb|]. rewrite He. vm_compute. reflexivity.
Defined.

Definition repeatedTurns : list (event unit) :=
  map (fun now => Turn now [exampleGroup] []) [5; 2000000000; 4000000000; 6000000000].

Lemma querier_learns_filters_witness :
  exists s belief, @hears unit s reportedTable belief /\
    passes (belief exampleGroup) exampleQuiet = true /\ passes (belief exampleGroup) exampleNoisy = false.
Proof.
  destruct reported_hears as [belief0 H0].
  assert (exists belief, @hears unit (runEvents repeatedTurns reportedState) reportedTable belief) as [belief H].
  { eexists. unfold runEvents, repeatedTurns. cbn [map fold_left].
    do 4 (apply (hears_step (Turn _ _ _) 1500 _ reportedTable); [|exact I|exact I|apply linkFits_ok; vm_compute; reflexivity]). exact H0. }
  set (s := runEvents repeatedTurns reportedState) in *.
  assert (pendingCount s exampleGroup = None) as Hc by (vm_compute; reflexivity). unfold pendingCount in Hc.
  destruct (ms_retransmissions s !! exampleGroup) eqn:Hp; [discriminate|].
  destruct (querier_learns_filters s reportedTable belief exampleGroup H eq_refl Hp) as [He _].
  exists s, belief. split; [exact H|]. rewrite He. split; vm_compute; reflexivity.
Defined.
